(* ===== verification/_CoqProject ===== *)
-Q . S2P
Prelude.v
Mem.v
Ring.v
RingQueue.v
RingSteps.v
ShmHost.v
ShmBind.v
Flash.v
ShmFw.v
ShmLink.v
RxLink.v
FlashLink.v
Api.v
Hci.v
Improv.v
Gatt.v
Wpa.v
BleState.v
BleHa.v
BleApi.v
BleJoin.v
BleMain.v
I2c.v
Device.v
Platform.v
Cache.v
CacheLock.v
Loader.v
Uart.v
Clic.v
Clk.v
ClkTree.v
Ws2812.v
PinRegs.v
Pinctrl.v
PinTool.v
PinText.v
PinSnap.v
Signals.v
PinCmd.v
PinPoll.v
Glue.v
Relay.v
Sockets.v
PinLive.v
Display.v
Radio.v
Probe.v
