(* ===== verification/Prelude.v ===== *)
(** * A verification library of the ESP32-S31 Linux port

    The repository runs Linux on hart 1 of an ESP32-S31 while hart 0 keeps a
    firmware for Wi-Fi, Bluetooth and 802.15.4.  The library models the C code
    of both sides and of the tools, from the boot loader to user space, and
    proves what makes each part correct.

    ** The parts and how they interact

    The boot loader (bootloader/main) runs on hart 0: it opens the permission
    filters, copies OpenSBI and the kernel to PSRAM, starts hart 1 and locks
    hart 0 out of the memory of Linux.  OpenSBI (opensbi/platform) closes its
    own memory, keeps the timer and gives S-mode a cache operation.  The Linux
    drivers (linux/drivers) drive the devices.  Two byte rings in a shared block
    (shared/esp32s31-hosted-shm.h) connect the esp_hosted driver with the
    firmware component (bootloader/components/esp_hosted), with a mailbox for the
    flash window.  User space has ble-ha, a Bluetooth proxy of the ESPHome API
    with Improv Wi-Fi (tools/ble-ha), and the pinctrl tool (tools/pinctrl).

    ** Files

    - Prelude: machine words, bytes, lists, tactics, hint databases.  Mem: byte
      memory with words.  Device: programs over a device, [io].
    - Ring, RingQueue: the shared block and a ring as a queue.  ShmHost: the Linux
      driver (esp_shm.c), and ShmBind its life with the device.  ShmFw: the firmware
      (shm_slave_api.c).  Flash: the flash mailbox, its service and the MTD device
      (shm_flash.c, esp_shm_flash.c).
    - RingSteps: what one access does to the rings.  ShmLink, RxLink: the
      interleaving of the two harts for frames to the firmware and to Linux.
      FlashLink: the same for the flash mailbox.  CacheLock: the lock of the cache
      engine, which OpenSBI and the firmware share.
    - Api, Hci, Improv, Gatt, Wpa: the formats and servers of ble-ha (api.c,
      hci.c, improv.c, gatt.c, wpa.c).  BleState, BleHa, BleApi, BleJoin, BleMain: the
      program (ble-ha.c) with its state, packets, clients, the join of a network,
      and main() with its loop.  Relay: thread-relay (thread-relay.c).  Sockets: what
      the two open and set (hci-linux.c, ble-ha.c, thread-relay.c, sockopt-linux.c).
    - Platform, Cache: OpenSBI (platform.c) and the cache driver on top of it
      (esp32s31-cache.c).  Loader, Display, Radio: the boot loader (main.c, display.c,
      board_korvo1.c, radio_coex.c).
    - I2c, Uart, Clic, Clk and ClkTree, Ws2812, PinRegs and Pinctrl: the drivers
      (i2c-esp32s31.c, esp32_uart.c, irq-esp32s31-clic.c, clk-esp32s31.c,
      leds-esp32s31-ws2812.c, pinctrl-esp32s31.c).  Glue: the eFuse, the USB PHY and the
      Ethernet glue (esp32s31-efuse.c, phy-esp32s31-usb.c, dwmac-esp32s31.c).  Probe: the
      probes of all these drivers, and what the transport and the flash register with
      Linux.
    - PinTool, Signals, PinText, PinSnap, PinCmd, PinPoll, PinLive: the pinctrl tool on
      the registers of PinRegs: its pins and its set command (esp32s31.c), the names of
      the matrix signals (signals.c) and what get shows of them, the names and lists of
      GPIOs and the headers (board.c), the snapshot files (board.c), the command line
      and the poll command (pinctrl.c), the board from the device tree and the GPIO
      lines (live.c).

    Definitions have the names of the C functions; a loop is a Fixpoint with a
    name of its own.  A C struct is a record.  A function of C with effects is a
    function on its state, a program of [Device.io] or [PinRegs.M], or gives the
    list of its accesses.  [None] is an access outside of a buffer, or a wait that
    the given inputs do not end; the theorems prove where it cannot happen.

    ** What the theorems show

    - The link: each producer is a bounded queue ([esp_shm_push_correct], and
      [ring_push_correct] for the firmware); with every interleaving frames arrive in
      order, each once, and no wakeup is lost, in both directions ([link_fifo],
      [link_no_lost_wakeup], [rx_link_fifo], [rx_no_lost_wakeup]); the steps
      implement the functions of both sides ([link_refines_tx_flush],
      [rx_link_refines]).  The flash: erase, write and read give the bytes back; no
      request makes the firmware leave the window; with every interleaving and timeout
      a command runs once and whole and each call gets the result of its own
      ([flash_link_once], [flash_link_answers]).  The life of the transport: through any
      number of probes and removes, with interrupts, work items and calls between any
      two of their actions, nothing freed is used and nothing is left behind
      ([transport_life]).
    - The cache engine serves one caller at a time and no caller is left at its lock
      ([cache_lock_exclusive], [cache_lock_free]).
    - ble-ha: from main() to the end the program leaves no buffer, neither one of its
      state nor a local array, for all bytes of its clients and all packets of an adapter
      that keeps to the standard ([ble_ha_safe], under Assumptions); credits are conserved; discovery, long writes and reassembly
      work with every MTU and every cut; the states of a join; the wire formats
      read back.  thread-relay loses, repeats and reorders nothing ([relay_correct]).
    - Protection: what is closed to DMA, to S-mode and to hart 0, through every
      intermediate write ([apm_protects], [pmp_protects]); hart 1 starts only with
      whole, checked images, and the lock of hart 0 comes right after its start
      ([loader_handoff]); the cache engine runs only allowed
      operations under its lock.  The display scans out its frame buffer forever from
      descriptors in reserved memory ([dma_link_correct]).
    - Drivers: a batch of I2C command lists is the transfer on the bus; the UART
      queue goes out in order; each interrupt goes to its handler, no irq_work is
      lost; the pulses of the LED decode to its color; the clock tree is complete
      or probe fails; a probe that fails gives back what it took ([clic_probe_correct]),
      and user space reaches only the pages it may ([gpiomem_safe]); the 64-bit timer is
      never torn; the MAC addresses are those of the
      eFuses ([efuse_mac_correct]).
    - Pins: the driver implements a specification by pin for all sequences of
      operations ([pinctrl_refines]); a bank's handler handles just the pins that
      are pending and unmasked; the tool shows the driver's state and names exactly the
      signals that the driver has connected to a pin ([tool_names_signals]), and for every
      command line it writes registers just for set with a list of pins and what to set,
      changes only what it may, and never drives a pin at a level that was not asked
      ([pinctrl_main_correct]); its lists and its snapshots are read back;
      poll prints each change of a level once ([poll_correct]); set refuses what the
      device tree reserves and what the kernel uses ([live_board_correct]).

    Findings are lemmas or properties: [rpc_write_deaf], [i2c_timing],
    [load_kernel_wrap], [flush_batch_overflow], [uart_probe_dangling], [poll_wraps], the
    full FIFO in [uart_transmit_correct].

    ** Bounds and fuel

    Most loops are structural.  The others take fuel: a varint has at most 10
    bytes of 7 bits for 64 bits; [short_loop] and [listed] of the tool use the
    length of the string that each round shortens; [group_end] 20 rounds for an
    attribute table of fewer entries; the fill loop of the I2C driver 8 rounds,
    the number of command slots; the long read 3 rounds, as a value has at most 64
    bytes; a reserved range 62 rounds, one for each GPIO.  The theorems about them
    show the result, not only its soundness.  A loop that polls takes its reads as a
    list; it ends with the value that ends it, and a limit in time is a number of reads.

    ** Assumptions

    ShmLink, RxLink, FlashLink and CacheLock interleave sequentially consistent
    accesses: the code has full fences or acquire and release where that matters.  In
    RxLink the core of esp_hosted reads until there is no frame, and one task of the
    firmware sends.  In [transport_life] an operation of the transport is one step, and
    the last part, about the work items of esp_hosted, holds when its core queues none
    while ESP_TRANSPORT_REMOVING is set.  The clock of ble-ha does not move within a
    handler; in [ble_ha_safe] the adapter reports no address type of 128 or more (with
    them the message of a batch can leave its buffer, [flush_batch_overflow]) and
    sends no ACL data before hci_init() has ended (the ATT server has no callback and no
    name before), wpa_supplicant numbers its networks with an int, and recv() gives
    no more than it is asked for.  The hardware models (the APM word
    below a region, the PMP, the cache engine and its lock, W1TS and W1TC, the
    status of a line) are from docs/internals.md and the headers of the repository.
    Parameters stand for what is not here: the adapter ([hci_write]), wpa_supplicant
    ([ctrl]), the sockets ([sock_send]), files, ESP-IDF (partitions, flash, CRC,
    PSRAM size, the LCD driver, the size of a descriptor), the serial, interrupt,
    clock, regmap and I2C cores of Linux, and the library of OpenSBI.

    ** Not modelled

    The tables that name the drivers to Linux; what the core of esp_hosted does, which is
    not in the repository; the help texts of the tools; the empty board_start_display() of
    a board without a display; tests, scripts, patches, device trees. *)

From Stdlib Require Export ZArith Lia Bool.
From stdpp Require Export base numbers list option.

#[global] Set Warnings "-notation-incompatible-prefix".

Open Scope Z_scope.

Create HintDb port discriminated.
Create Rewrite HintDb zlen.
Create Rewrite HintDb words.

(** * Machine words

    A C unsigned integer of w bits is a [Z] in [0, 2^w); the wrap-around of
    its arithmetic is written out with these functions. *)

Definition u8 (x : Z) : Z := x mod 256.
Definition u16 (x : Z) : Z := x mod 65536.
Definition u32 (x : Z) : Z := x mod 4294967296.
Definition u64 (x : Z) : Z := x mod 18446744073709551616.

(** A cast to [int8_t] and to [int32_t]. *)
Definition s8 (x : Z) : Z := let y := u8 x in if y <? 128 then y else y - 256.

(** [BIT], [GENMASK], [FIELD_PREP] and [FIELD_GET] of linux/bits.h and
    linux/bitfield.h, on 32-bit registers. *)
Definition BIT (n : Z) : Z := Z.shiftl 1 n.
Definition GENMASK (h l : Z) : Z := Z.shiftl (Z.ones (h - l + 1)) l.
Definition bf_shf (mask : Z) : Z := Z.log2 (Z.land mask (- mask)).
Definition FIELD_PREP (mask v : Z) : Z := Z.land (Z.shiftl v (bf_shf mask)) mask.
Definition FIELD_GET (mask v : Z) : Z := Z.shiftr (Z.land v mask) (bf_shf mask).
(** [~x] of a [u32]. *)
Definition not32 (x : Z) : Z := Z.lxor x 4294967295.
(** A C condition on an integer: true when it is not 0. *)
Definition nz (x : Z) : bool := negb (x =? 0).
Definition b2z (b : bool) : Z := if b then 1 else 0.

Definition DIV_ROUND_UP (n d : Z) : Z := (n + d - 1) / d.
Definition clamp (x lo hi : Z) : Z := Z.min (Z.max x lo) hi.

(** Error numbers of the kernel. *)
Definition EIO : Z := 5.
Definition ENXIO : Z := 6.
Definition EAGAIN : Z := 11.
Definition ENOMEM : Z := 12.
Definition EBUSY : Z := 16.
Definition ENODEV : Z := 19.
Definition EINVAL : Z := 22.
Definition EMSGSIZE : Z := 90.
Definition EOPNOTSUPP : Z := 95.
Definition ETIMEDOUT : Z := 110.

(** * Tactics *)

(** Linear arithmetic with the quotients and remainders by constants. *)
Ltac zlia := unfold u8, u16, u32, u64 in *; Z.div_mod_to_equations; lia.

(** Turn boolean tests into propositions, then split them. *)
Ltac bool_prop :=
  repeat match goal with
  | H : (_ && _)%bool = true |- _ => apply andb_prop in H as [? ?]
  | H : (_ || _)%bool = false |- _ => apply orb_false_elim in H as [? ?]
  | H : (_ || _)%bool = true |- _ => apply orb_prop in H
  | H : (_ && _)%bool = false |- _ => apply andb_false_iff in H
  | H : negb _ = true |- _ => apply negb_true_iff in H
  | H : negb _ = false |- _ => apply negb_false_iff in H
  | H : (_ =? _) = true |- _ => apply Z.eqb_eq in H
  | H : (_ =? _) = false |- _ => apply Z.eqb_neq in H
  | H : (_ <? _) = true |- _ => apply Z.ltb_lt in H
  | H : (_ <? _) = false |- _ => apply Z.ltb_ge in H
  | H : (_ <=? _) = true |- _ => apply Z.leb_le in H
  | H : (_ <=? _) = false |- _ => apply Z.leb_gt in H
  | H : (_ >? _) = true |- _ => rewrite Z.gtb_ltb in H; apply Z.ltb_lt in H
  | H : (_ >? _) = false |- _ => rewrite Z.gtb_ltb in H; apply Z.ltb_ge in H
  | H : (_ >=? _) = true |- _ => rewrite Z.geb_leb in H; apply Z.leb_le in H
  | H : (_ >=? _) = false |- _ => rewrite Z.geb_leb in H; apply Z.leb_gt in H
  end.

(** Equality of two list literals, element by element. *)
Ltac list_eq := repeat (apply (f_equal2 cons)); [..|reflexivity].

(** Case analysis on one [if] of the goal or of a hypothesis. *)
Ltac if_goal :=
  match goal with
  | |- context [if ?b then _ else _] => destruct b eqn:?; bool_prop
  end.
Ltac if_hyp H :=
  match type of H with
  | context [if ?b then _ else _] => destruct b eqn:?; bool_prop
  end.

Lemma u8_range x : 0 <= u8 x < 256.
Proof. apply Z.mod_pos_bound; lia. Qed.
Lemma u16_range x : 0 <= u16 x < 65536.
Proof. apply Z.mod_pos_bound; lia. Qed.
Lemma u32_range x : 0 <= u32 x < 4294967296.
Proof. apply Z.mod_pos_bound; lia. Qed.
Lemma u64_range x : 0 <= u64 x < 18446744073709551616.
Proof. apply Z.mod_pos_bound; lia. Qed.
Lemma u8_small x : 0 <= x < 256 -> u8 x = x.
Proof. apply Z.mod_small. Qed.
Lemma u16_small x : 0 <= x < 65536 -> u16 x = x.
Proof. apply Z.mod_small. Qed.
Lemma u32_small x : 0 <= x < 4294967296 -> u32 x = x.
Proof. apply Z.mod_small. Qed.
Lemma u64_small x : 0 <= x < 18446744073709551616 -> u64 x = x.
Proof. apply Z.mod_small. Qed.
Lemma u32_add_l x y : u32 (u32 x + y) = u32 (x + y).
Proof. unfold u32. apply Zplus_mod_idemp_l. Qed.
Lemma u32_sub_l x y : u32 (u32 x - y) = u32 (x - y).
Proof. unfold u32. apply Zminus_mod_idemp_l. Qed.
Lemma u32_sub_r x y : u32 (x - u32 y) = u32 (x - y).
Proof. unfold u32. apply Zminus_mod_idemp_r. Qed.
Lemma u32_idem x : u32 (u32 x) = u32 x.
Proof. unfold u32. apply Z.mod_mod. lia. Qed.

#[export] Hint Rewrite u32_add_l u32_sub_l u32_sub_r u32_idem : words.
#[export] Hint Resolve u8_range u16_range u32_range u64_range : port.

Lemma nz_true x : nz x = true <-> x <> 0.
Proof. unfold nz. destruct (Z.eqb_spec x 0); simpl; split; congruence. Qed.
Lemma nz_false x : nz x = false <-> x = 0.
Proof. unfold nz. destruct (Z.eqb_spec x 0); simpl; split; congruence. Qed.

(** * C buffers

    A buffer is a list of bytes with [Z] indices.  A read is an [option]:
    [None] is a read outside the buffer, which C leaves undefined. *)

Definition zlen {A} (l : list A) : Z := Z.of_nat (length l).

Definition rd (l : list Z) (i : Z) : option Z :=
  if 0 <=? i then l !! Z.to_nat i else None.

(** The [n] bytes from offset [off], as [memcpy] reads them. *)
Definition slice (l : list Z) (off n : Z) : option (list Z) :=
  if (0 <=? off) && (0 <=? n) && (off + n <=? zlen l)
  then Some (take (Z.to_nat n) (drop (Z.to_nat off) l)) else None.

(** The read without the check, for the reference definitions. *)
Definition get (l : list Z) (i : Z) : Z := nth (Z.to_nat i) l 0.

Definition ztake {A} (n : Z) (l : list A) : list A := take (Z.to_nat n) l.
Definition zdrop {A} (n : Z) (l : list A) : list A := drop (Z.to_nat n) l.

Definition is_byte (b : Z) : Prop := 0 <= b < 256.
Definition bytes (l : list Z) : Prop := Forall is_byte l.

(** [memset(_, 0, n)]. *)
Definition zeros (n : Z) : list Z := replicate (Z.to_nat n) 0.

(** 16-bit little endian, as [get16] and [put16] of gatt.c. *)
Definition le16 (v : Z) : list Z := [Z.land v 255; u8 (Z.shiftr v 8)].
Definition of_le16 (b0 b1 : Z) : Z := Z.lor b0 (Z.shiftl b1 8).
(** 32-bit little endian. *)
Definition le32 (v : Z) : list Z :=
  [u8 v; u8 (Z.shiftr v 8); u8 (Z.shiftr v 16); u8 (Z.shiftr v 24)].
Fixpoint of_le (l : list Z) : Z :=
  match l with [] => 0 | b :: l => b + 256 * of_le l end.

Lemma zlen_nil {A} : zlen (@nil A) = 0.
Proof. done. Qed.
Lemma zlen_cons {A} (x : A) l : zlen (x :: l) = 1 + zlen l.
Proof. unfold zlen. simpl length. lia. Qed.
Lemma zlen_app {A} (l k : list A) : zlen (l ++ k) = zlen l + zlen k.
Proof. unfold zlen. rewrite length_app. lia. Qed.
Lemma zlen_nonneg {A} (l : list A) : 0 <= zlen l.
Proof. unfold zlen. lia. Qed.
Lemma zlen_ztake {A} n (l : list A) : 0 <= n -> zlen (ztake n l) = Z.min n (zlen l).
Proof. unfold zlen, ztake. rewrite length_take. lia. Qed.
Lemma zlen_zdrop {A} n (l : list A) : 0 <= n -> zlen (zdrop n l) = Z.max 0 (zlen l - n).
Proof. unfold zlen, zdrop. rewrite length_drop. lia. Qed.
Lemma zlen_replicate {A} n (x : A) : zlen (replicate n x) = Z.of_nat n.
Proof. unfold zlen. by rewrite length_replicate. Qed.
Lemma zlen_zeros n : 0 <= n -> zlen (zeros n) = n.
Proof. intros. unfold zeros. rewrite zlen_replicate. lia. Qed.
Lemma zlen_le16 v : zlen (le16 v) = 2.
Proof. done. Qed.
Lemma zlen_le32 v : zlen (le32 v) = 4.
Proof. done. Qed.

#[export] Hint Rewrite @zlen_nil @zlen_cons @zlen_app @zlen_replicate
  zlen_le16 zlen_le32 : zlen.
#[export] Hint Rewrite @zlen_ztake @zlen_zdrop zlen_zeros using lia : zlen.
#[export] Hint Resolve zlen_nonneg : port.

(** Lengths of lists, then linear arithmetic. *)
Ltac llia :=
  autorewrite with zlen in *;
  repeat match goal with
  | l : list ?A |- _ => lazymatch goal with
      | _ : 0 <= zlen l |- _ => fail
      | _ => pose proof (zlen_nonneg l)
      end
  end; unfold is_byte in *; lia.

Lemma zlen_0_nil {A} (l : list A) : zlen l = 0 -> l = [].
Proof. destruct l; [done|]. llia. Qed.

Lemma ztake_zdrop {A} n (l : list A) : ztake n l ++ zdrop n l = l.
Proof. apply take_drop. Qed.
Lemma ztake_ge {A} n (l : list A) : zlen l <= n -> ztake n l = l.
Proof. unfold ztake, zlen. intros. apply take_ge. lia. Qed.
Lemma zdrop_ge {A} n (l : list A) : zlen l <= n -> zdrop n l = [].
Proof. unfold zdrop, zlen. intros. apply drop_ge. lia. Qed.
Lemma ztake_0 {A} (l : list A) : ztake 0 l = [].
Proof. done. Qed.
Lemma zdrop_0 {A} (l : list A) : zdrop 0 l = l.
Proof. done. Qed.
Lemma ztake_app_len {A} n (l k : list A) : n = zlen l -> ztake n (l ++ k) = l.
Proof.
  unfold ztake, zlen. intros ->. rewrite Nat2Z.id. by rewrite take_app_length.
Qed.
Lemma zdrop_app_len {A} n (l k : list A) : n = zlen l -> zdrop n (l ++ k) = k.
Proof.
  unfold zdrop, zlen. intros ->. rewrite Nat2Z.id. by rewrite drop_app_length.
Qed.
Lemma zdrop_zdrop {A} a b (l : list A) :
  0 <= a -> 0 <= b -> zdrop a (zdrop b l) = zdrop (a + b) l.
Proof. intros. unfold zdrop. rewrite drop_drop. f_equal. lia. Qed.
Lemma ztake_app_ge {A} n (l k : list A) :
  zlen l <= n -> ztake n (l ++ k) = l ++ ztake (n - zlen l) k.
Proof.
  unfold ztake, zlen. intros. rewrite take_app_ge by lia.
  f_equal. f_equal. lia.
Qed.
Lemma ztake_app_le {A} n (l k : list A) :
  n <= zlen l -> ztake n (l ++ k) = ztake n l.
Proof. unfold ztake, zlen. intros. by rewrite take_app_le by lia. Qed.
Lemma zdrop_app_le {A} n (l k : list A) :
  n <= zlen l -> zdrop n (l ++ k) = zdrop n l ++ k.
Proof. unfold zdrop, zlen. intros. by rewrite drop_app_le by lia. Qed.
Lemma zdrop_app_ge {A} n (l k : list A) :
  zlen l <= n -> zdrop n (l ++ k) = zdrop (n - zlen l) k.
Proof.
  unfold zdrop, zlen. intros. rewrite drop_app_ge by lia. f_equal. lia.
Qed.
Lemma ztake_S {A} (x : A) l n : 0 < n -> ztake n (x :: l) = x :: ztake (n - 1) l.
Proof.
  intros. unfold ztake. replace (Z.to_nat n) with (S (Z.to_nat (n - 1))) by lia. done.
Qed.
Lemma zdrop_S {A} (x : A) l n : 0 < n -> zdrop n (x :: l) = zdrop (n - 1) l.
Proof.
  intros. unfold zdrop. replace (Z.to_nat n) with (S (Z.to_nat (n - 1))) by lia. done.
Qed.

Lemma rd_Some l i : 0 <= i < zlen l -> rd l i = Some (get l i).
Proof.
  intros. unfold rd, get, zlen in *. destruct (Z.leb_spec 0 i); [|lia].
  destruct (lookup_lt_is_Some_2 l (Z.to_nat i)) as [x Hx]; [lia|].
  rewrite Hx. f_equal. symmetry. by apply nth_lookup_Some.
Qed.
Lemma rd_inv l i x : rd l i = Some x -> 0 <= i < zlen l /\ x = get l i.
Proof.
  unfold rd. destruct (Z.leb_spec 0 i); [|done]. intros Hx.
  pose proof (lookup_lt_Some _ _ _ Hx). unfold zlen, get. split; [lia|].
  symmetry. by apply nth_lookup_Some.
Qed.
Lemma rd_None l i : zlen l <= i -> rd l i = None.
Proof.
  intros. unfold rd, zlen in *. destruct (Z.leb_spec 0 i); [|done].
  apply lookup_ge_None. lia.
Qed.
Lemma get_byte l i : bytes l -> is_byte (get l i).
Proof.
  intros Hl. unfold get. destruct (l !! Z.to_nat i) as [x|] eqn:E.
  - rewrite (nth_lookup_Some _ _ _ _ E). by apply (Forall_lookup_1 _ _ _ _ Hl E).
  - rewrite nth_overflow by by apply lookup_ge_None. unfold is_byte. lia.
Qed.
Lemma get_app_l l k i : 0 <= i < zlen l -> get (l ++ k) i = get l i.
Proof. unfold get, zlen. intros. apply app_nth1. lia. Qed.
Lemma get_app_r l k i : zlen l <= i -> get (l ++ k) i = get k (i - zlen l).
Proof.
  unfold get, zlen. intros. rewrite app_nth2 by lia. f_equal. lia.
Qed.
Lemma get_cons_0 x l : get (x :: l) 0 = x.
Proof. done. Qed.
Lemma get_cons_S x l i : 0 < i -> get (x :: l) i = get l (i - 1).
Proof.
  intros. unfold get. replace (Z.to_nat i) with (S (Z.to_nat (i - 1))) by lia. done.
Qed.

Lemma get_ztake l n i : 0 <= i < n -> get (ztake n l) i = get l i.
Proof.
  intros. unfold get, ztake. rewrite !nth_lookup, lookup_take_lt by lia. done.
Qed.
Lemma get_zdrop l n i : 0 <= n -> 0 <= i -> get (zdrop n l) i = get l (n + i).
Proof.
  intros. unfold get, zdrop. rewrite !nth_lookup, lookup_drop.
  do 2 f_equal. lia.
Qed.

Lemma slice_Some l off n :
  0 <= off -> 0 <= n -> off + n <= zlen l ->
  slice l off n = Some (ztake n (zdrop off l)).
Proof.
  intros. unfold slice, ztake, zdrop.
  destruct (Z.leb_spec 0 off), (Z.leb_spec 0 n), (Z.leb_spec (off + n) (zlen l)); done || lia.
Qed.
Lemma slice_inv l off n s :
  slice l off n = Some s ->
  0 <= off /\ 0 <= n /\ off + n <= zlen l /\ s = ztake n (zdrop off l).
Proof.
  unfold slice. intros H. if_hyp H; [|done].
  simplify_eq. unfold ztake, zdrop. done.
Qed.
Lemma slice_len l off n s : slice l off n = Some s -> zlen s = n.
Proof. intros (? & ? & ? & ->)%slice_inv. llia. Qed.

Lemma bytes_app l k : bytes (l ++ k) <-> bytes l /\ bytes k.
Proof. apply Forall_app. Qed.
Lemma bytes_cons x l : bytes (x :: l) <-> is_byte x /\ bytes l.
Proof. split; [by inversion 1|by intros [??]; constructor]. Qed.
Lemma bytes_ztake n l : bytes l -> bytes (ztake n l).
Proof. apply Forall_take. Qed.
Lemma bytes_zdrop n l : bytes l -> bytes (zdrop n l).
Proof. apply Forall_drop. Qed.
Lemma bytes_zeros n : bytes (zeros n).
Proof. apply Forall_replicate. unfold is_byte. lia. Qed.
Lemma bytes_slice l off n s : bytes l -> slice l off n = Some s -> bytes s.
Proof.
  intros ? (_ & _ & _ & ->)%slice_inv. by apply bytes_ztake, bytes_zdrop.
Qed.
#[export] Hint Resolve bytes_ztake bytes_zdrop bytes_zeros bytes_slice get_byte : port.

(** * Bits *)

Lemma land_255 x : Z.land x 255 = u8 x.
Proof. change 255 with (Z.ones 8). by rewrite Z.land_ones by lia. Qed.
Lemma land_ones_mod x n : 0 <= n -> Z.land x (Z.ones n) = x mod 2 ^ n.
Proof. apply Z.land_ones. Qed.
Lemma u8_shiftr x n : 0 <= n -> u8 (Z.shiftr x n) = (x / 2 ^ n) mod 256.
Proof. intros. unfold u8. by rewrite Z.shiftr_div_pow2. Qed.
Lemma land_shiftl_0 a b n : 0 <= n -> 0 <= a < 2 ^ n -> Z.land a (Z.shiftl b n) = 0.
Proof.
  intros Hn Ha. destruct (decide (a = 0)) as [->|]; [apply Z.land_0_l|].
  apply Z.bits_inj'. intros i Hi. rewrite Z.land_spec, Z.bits_0.
  destruct (decide (i < n)).
  - rewrite Z.shiftl_spec_low by done. apply andb_false_r.
  - rewrite (Z.bits_above_log2 a i); [done|lia|].
    apply Z.log2_lt_pow2; [lia|].
    apply Z.lt_le_trans with (2 ^ n); [lia|]. apply Z.pow_le_mono_r; lia.
Qed.
Lemma lor_shiftl_add a b n : 0 <= n -> 0 <= a < 2 ^ n -> Z.lor a (Z.shiftl b n) = a + b * 2 ^ n.
Proof.
  intros Hn Ha. rewrite <- Z.shiftl_mul_pow2 by done.
  rewrite Z.add_nocarry_lxor, Z.lxor_lor; by rewrite ?land_shiftl_0.
Qed.

(** The form that [lia] can use: the power of two as a literal. *)
Lemma lor_add a b n m : 0 <= n -> 2 ^ n = m -> 0 <= a < m -> Z.lor a (Z.shiftl b n) = a + b * m.
Proof. intros ? <- ?. by apply lor_shiftl_add. Qed.

Lemma of_le16_add b0 b1 : is_byte b0 -> of_le16 b0 b1 = b0 + 256 * b1.
Proof. intros. unfold of_le16. rewrite (lor_add _ _ 8 256) by done. lia. Qed.
Lemma le16_bytes v : bytes (le16 v).
Proof.
  unfold le16. rewrite land_255. repeat constructor; apply u8_range.
Qed.
Lemma le16_eq v : 0 <= v -> le16 v = [v mod 256; (v / 256) mod 256].
Proof. intros. unfold le16. rewrite land_255, u8_shiftr by lia. done. Qed.
Lemma of_le16_le16 v : 0 <= v < 65536 -> of_le16 (Z.land v 255) (u8 (Z.shiftr v 8)) = v.
Proof.
  intros. rewrite land_255, u8_shiftr by lia. change (2 ^ 8) with 256.
  rewrite of_le16_add by apply u8_range. zlia.
Qed.
Lemma of_le_le32 v : of_le (le32 v) = u32 v.
Proof.
  unfold le32, of_le. rewrite !u8_shiftr by lia.
  change (2 ^ 8) with 256. change (2 ^ 16) with 65536. change (2 ^ 24) with 16777216.
  zlia.
Qed.
Lemma le32_bytes v : bytes (le32 v).
Proof. unfold le32. repeat constructor; apply u8_range. Qed.
#[export] Hint Resolve le16_bytes le32_bytes : port.
Lemma le32_u32 v : le32 (u32 v) = le32 v.
Proof.
  unfold le32. rewrite !u8_shiftr by lia.
  change (2 ^ 8) with 256. change (2 ^ 16) with 65536. change (2 ^ 24) with 16777216.
  list_eq; zlia.
Qed.
Lemma le32_of_le l : bytes l -> zlen l = 4 -> le32 (of_le l) = l.
Proof.
  intros Hb Hl. destruct l as [|a [|b [|c [|d [|? ?]]]]]; try (exfalso; llia).
  unfold bytes in Hb. decompose_Forall. unfold is_byte in *. unfold le32, of_le.
  rewrite !u8_shiftr by lia.
  change (2 ^ 8) with 256. change (2 ^ 16) with 65536. change (2 ^ 24) with 16777216.
  list_eq; zlia.
Qed.

(** A fact about a byte by trying all of them. *)
Lemma all_bytes (P : Z -> bool) :
  forallb (fun n => P (Z.of_nat n)) (seq 0 256) = true -> forall b, 0 <= b < 256 -> P b = true.
Proof.
  intros H b Hb. rewrite forallb_forall in H. specialize (H (Z.to_nat b)).
  rewrite Z2Nat.id in H by lia. apply H. apply in_seq. lia.
Qed.
Lemma land_127 b : Z.land b 127 = b mod 128.
Proof. change 127 with (Z.ones 7). by rewrite Z.land_ones by lia. Qed.
Lemma land_128_eqb b : 0 <= b < 256 -> (Z.land b 128 =? 0) = (b <? 128).
Proof.
  intros Hb. apply eqb_prop. revert b Hb. apply all_bytes. vm_compute. reflexivity.
Qed.
Lemma lor_u32 a b :
  0 <= a < 4294967296 -> 0 <= b < 4294967296 -> 0 <= Z.lor a b < 4294967296.
Proof.
  intros Ha Hb. split; [by apply Z.lor_nonneg; lia|].
  destruct (decide (Z.lor a b = 0)) as [->|]; [lia|].
  assert (0 <= Z.lor a b) by (apply Z.lor_nonneg; lia).
  change 4294967296 with (2 ^ 32). apply Z.log2_lt_pow2; [lia|]. rewrite Z.log2_lor by lia.
  assert (forall x, 0 <= x < 4294967296 -> Z.log2 x < 32) as X.
  { intros x Hx. destruct (decide (x = 0)) as [->|]; [done|]. apply Z.log2_lt_pow2; lia. }
  pose proof (X a Ha). pose proof (X b Hb). lia.
Qed.

(** * Writes into a buffer *)

(** [memcpy(l + off, s, len)]: [None] when it leaves the buffer. *)
Definition blit (l : list Z) (off : Z) (s : list Z) : option (list Z) :=
  if (0 <=? off) && (off + zlen s <=? zlen l)
  then Some (ztake off l ++ s ++ zdrop (off + zlen s) l) else None.

(** What is written from the start of a local array of [n] elements: [None] when it leaves the array. *)
Definition in_array {A} (n : Z) (l : list A) : option (list A) := if zlen l <=? n then Some l else None.
Lemma in_array_Some {A} n (l : list A) : zlen l <= n -> in_array n l = Some l.
Proof. intros H. unfold in_array. by rewrite (proj2 (Z.leb_le _ _)). Qed.
Lemma in_array_inv {A} n (l k : list A) : in_array n l = Some k -> k = l /\ zlen l <= n.
Proof. unfold in_array. destruct (Z.leb_spec (zlen l) n); [|done]. by intros [= <-]. Qed.

(** The string that starts a [char] buffer. *)
Fixpoint c_str (l : list Z) : list Z :=
  match l with
  | [] => []
  | b :: l => if b =? 0 then [] else b :: c_str l
  end.

Definition no_nul (s : list Z) : Prop := Forall (fun b => b <> 0) s.

Lemma blit_Some l off s :
  0 <= off -> off + zlen s <= zlen l ->
  blit l off s = Some (ztake off l ++ s ++ zdrop (off + zlen s) l).
Proof.
  intros. unfold blit. rewrite (proj2 (Z.leb_le 0 off)), (proj2 (Z.leb_le (off + zlen s) _)) by done.
  done.
Qed.
Lemma blit_inv l off s l' :
  blit l off s = Some l' ->
  0 <= off /\ off + zlen s <= zlen l /\ l' = ztake off l ++ s ++ zdrop (off + zlen s) l.
Proof. unfold blit. intros H. if_hyp H; [|done]. by simplify_eq. Qed.
Lemma blit_len l off s l' : blit l off s = Some l' -> zlen l' = zlen l.
Proof. intros (? & ? & ->)%blit_inv. pose proof (zlen_nonneg s). llia. Qed.
Lemma blit_bytes l off s l' : bytes l -> bytes s -> blit l off s = Some l' -> bytes l'.
Proof.
  intros Hl Hs (? & ? & ->)%blit_inv. rewrite !bytes_app. auto with port.
Qed.
(** Writing at the end of what is already there. *)
Lemma blit_append l off s l' :
  blit l off s = Some l' -> ztake (off + zlen s) l' = ztake off l ++ s.
Proof.
  intros (? & ? & ->)%blit_inv. rewrite app_assoc. apply ztake_app_len. llia.
Qed.
Lemma c_str_app s l : no_nul s -> c_str (s ++ 0 :: l) = s.
Proof.
  induction 1 as [|b s Hb _ IH]; [done|]. cbn. apply Z.eqb_neq in Hb. by rewrite Hb, IH.
Qed.
Lemma c_str_no_nul l : no_nul (c_str l).
Proof.
  induction l as [|b l IH]; [constructor|]. cbn. destruct (Z.eqb_spec b 0); by constructor.
Qed.
Lemma zdrop_cons_get (l : list Z) i : 0 <= i < zlen l -> zdrop i l = get l i :: zdrop (i + 1) l.
Proof.
  intros. unfold zdrop, get. rewrite nth_lookup.
  destruct (lookup_lt_is_Some_2 l (Z.to_nat i)) as [x Hx]; [unfold zlen in *; lia|].
  rewrite (drop_S _ _ _ Hx), Hx. cbn. do 2 f_equal. lia.
Qed.
Lemma ztake_S_get (l : list Z) i : 0 <= i < zlen l -> ztake (i + 1) l = ztake i l ++ [get l i].
Proof.
  intros. unfold ztake, get. rewrite nth_lookup.
  destruct (lookup_lt_is_Some_2 l (Z.to_nat i)) as [x Hx]; [unfold zlen in *; lia|].
  replace (Z.to_nat (i + 1)) with (S (Z.to_nat i)) by lia. by rewrite (take_S_r _ _ _ Hx), Hx.
Qed.
Lemma ztake_add {A} (a b : Z) (l : list A) : 0 <= a -> 0 <= b ->
  ztake (a + b) l = ztake a l ++ ztake b (zdrop a l).
Proof.
  intros. unfold ztake, zdrop. rewrite Z2Nat.inj_add by done. symmetry. apply take_take_drop.
Qed.

(** A closed list of bytes is checked by computation. *)
Definition is_bytes (l : list Z) : bool := forallb (fun b => (0 <=? b) && (b <? 256)) l.
Lemma is_bytes_spec l : is_bytes l = true -> bytes l.
Proof.
  unfold is_bytes, bytes. intros H. apply Forall_forall. rewrite forallb_forall in H.
  intros x Hx. specialize (H x Hx). unfold is_byte. bool_prop. lia.
Qed.
