(* ===== verification/Mem.v ===== *)
(** Byte-addressed memory with 32-bit little-endian words: the shared block
    of internal SRAM that the two harts access without the data cache.  A
    memory is a total function from addresses to bytes; every lemma about a
    write says which addresses it leaves alone, so the frame of an operation
    is part of its specification. *)

From S2P Require Import Prelude.

Definition mem := Z -> Z.

Definition store_bytes (m : mem) (a : Z) (bs : list Z) : mem :=
  fun x => if (a <=? x) && (x <? a + zlen bs) then get bs (x - a) else m x.
Definition load_bytes (m : mem) (a n : Z) : list Z :=
  (fun i => m (a + Z.of_nat i)) <$> seq 0 (Z.to_nat n).
Definition store32 (m : mem) (a v : Z) : mem := store_bytes m a (le32 v).
Definition load32 (m : mem) (a : Z) : Z := of_le (load_bytes m a 4).

(** Two memories that agree on the addresses of [P]. *)
Definition agree (P : Z -> Prop) (m m' : mem) : Prop := forall x, P x -> m x = m' x.
Definition range (a n : Z) (x : Z) : Prop := a <= x < a + n.

#[export] Instance agree_equiv P : Equivalence (agree P).
Proof.
  split.
  - by intros m x.
  - intros m m' H x Hx. symmetry. by apply H.
  - intros m1 m2 m3 H1 H2 x Hx. rewrite H1 by done. by apply H2.
Qed.

(** Equality of memories: the same byte at each address. *)
Definition mem_eq (m m' : mem) : Prop := forall x, m x = m' x.
#[export] Instance mem_eq_equiv : Equivalence mem_eq.
Proof.
  split; [done|by intros m m' H x|]. intros m1 m2 m3 H1 H2 x. by rewrite H1.
Qed.
#[export] Instance store_bytes_proper : Proper (mem_eq ==> eq ==> eq ==> mem_eq) store_bytes.
Proof. intros m m' H a ? <- bs ? <- x. unfold store_bytes. by if_goal. Qed.
#[export] Instance store32_proper : Proper (mem_eq ==> eq ==> eq ==> mem_eq) store32.
Proof. intros m m' H a ? <- v ? <-. unfold store32. by apply store_bytes_proper. Qed.
#[export] Instance load_bytes_proper : Proper (mem_eq ==> eq ==> eq ==> eq) load_bytes.
Proof.
  intros m m' H a ? <- n ? <-. unfold load_bytes. apply list_fmap_ext. intros. apply H.
Qed.
#[export] Instance load32_proper : Proper (mem_eq ==> eq ==> eq) load32.
Proof. intros m m' H a ? <-. unfold load32. by rewrite H. Qed.
#[export] Instance agree_proper P : Proper (mem_eq ==> mem_eq ==> iff) (agree P).
Proof.
  intros m m' H k k' H'. split; intros HA x Hx.
  - rewrite <- H, <- H'. by apply HA.
  - rewrite H, H'. by apply HA.
Qed.

Lemma agree_weaken (P Q : Z -> Prop) m m' :
  (forall x, Q x -> P x) -> agree P m m' -> agree Q m m'.
Proof. intros HQ H x Hx. apply H, HQ, Hx. Qed.

Lemma zlen_load_bytes m a n : 0 <= n -> zlen (load_bytes m a n) = n.
Proof. intros. unfold zlen, load_bytes. rewrite length_fmap, length_seq. lia. Qed.
#[export] Hint Rewrite zlen_load_bytes using lia : zlen.

Lemma get_load_bytes m a n i : 0 <= i < n -> get (load_bytes m a n) i = m (a + i).
Proof.
  intros. unfold get, load_bytes. apply nth_lookup_Some.
  rewrite list_lookup_fmap, lookup_seq_lt by lia. simpl. f_equal. f_equal. lia.
Qed.

(** Lists of one length with the same elements are equal. *)
Lemma list_get_eq (l k : list Z) :
  zlen l = zlen k -> (forall i, 0 <= i < zlen l -> get l i = get k i) -> l = k.
Proof.
  revert k. induction l as [|x l IH]; intros [|y k] Hl H; [done|llia|llia|].
  f_equal.
  - apply (H 0). llia.
  - apply IH; [llia|]. intros i Hi. specialize (H (i + 1)).
    rewrite !get_cons_S in H by lia. replace (i + 1 - 1) with i in H by lia.
    apply H. llia.
Qed.

Lemma load_bytes_ext m m' a n :
  agree (range a n) m m' -> load_bytes m a n = load_bytes m' a n.
Proof.
  intros H. destruct (decide (0 <= n)).
  - apply list_get_eq; rewrite !zlen_load_bytes by done; [done|].
    intros i Hi. rewrite !get_load_bytes by done. apply H. unfold range. lia.
  - unfold load_bytes. replace (Z.to_nat n) with 0%nat by lia. done.
Qed.
Lemma load32_ext m m' a : agree (range a 4) m m' -> load32 m a = load32 m' a.
Proof. intros H. unfold load32. by rewrite (load_bytes_ext _ _ _ _ H). Qed.

Lemma store_bytes_out m a bs x : ~ range a (zlen bs) x -> store_bytes m a bs x = m x.
Proof. unfold store_bytes, range. intros. if_goal; [lia|done]. Qed.
Lemma store_bytes_in m a bs x :
  range a (zlen bs) x -> store_bytes m a bs x = get bs (x - a).
Proof. unfold store_bytes, range. intros. if_goal; [done|]. lia. Qed.
Lemma store_bytes_agree m a bs (P : Z -> Prop) :
  (forall x, P x -> ~ range a (zlen bs) x) -> agree P (store_bytes m a bs) m.
Proof. intros H x Hx. by apply store_bytes_out, H. Qed.
Lemma store32_agree m a v (P : Z -> Prop) :
  (forall x, P x -> ~ range a 4 x) -> agree P (store32 m a v) m.
Proof. intros H. apply store_bytes_agree. rewrite zlen_le32. exact H. Qed.

Lemma load_store_bytes m a bs : load_bytes (store_bytes m a bs) a (zlen bs) = bs.
Proof.
  apply list_get_eq; rewrite zlen_load_bytes by llia; [done|].
  intros i Hi. rewrite get_load_bytes by done.
  rewrite store_bytes_in by (unfold range; lia). f_equal. lia.
Qed.
Lemma load32_store32 m a v : load32 (store32 m a v) a = u32 v.
Proof.
  unfold load32, store32. change 4 with (zlen (le32 v)). rewrite load_store_bytes.
  apply of_le_le32.
Qed.
Lemma load32_store32_ne m a b v : (a + 4 <= b \/ b + 4 <= a) -> load32 (store32 m b v) a = load32 m a.
Proof. intros. apply load32_ext, store32_agree. unfold range. lia. Qed.

Lemma store_bytes_nil m a x : store_bytes m a [] x = m x.
Proof. apply store_bytes_out. unfold range. llia. Qed.

Lemma store_bytes_app m a l k x :
  store_bytes (store_bytes m a l) (a + zlen l) k x = store_bytes m a (l ++ k) x.
Proof.
  pose proof (zlen_nonneg l). pose proof (zlen_nonneg k).
  destruct (decide (a <= x < a + zlen l + zlen k)) as [Hx|Hx].
  2: { rewrite !store_bytes_out by (unfold range; llia). done. }
  rewrite (store_bytes_in m a (l ++ k)) by (unfold range; llia).
  destruct (decide (x < a + zlen l)).
  - rewrite store_bytes_out, store_bytes_in by (unfold range; lia).
    by rewrite get_app_l by lia.
  - rewrite store_bytes_in by (unfold range; lia).
    rewrite get_app_r by lia. f_equal. lia.
Qed.

(** A byte-valued memory. *)
Definition mem_ok (m : mem) : Prop := forall x, is_byte (m x).
#[export] Instance mem_ok_proper : Proper (mem_eq ==> iff) mem_ok.
Proof. intros m m' H. split; intros Hm x; [rewrite <- H|rewrite H]; apply Hm. Qed.
Lemma mem_ok_store m a bs : mem_ok m -> bytes bs -> mem_ok (store_bytes m a bs).
Proof. intros Hm Hb x. unfold store_bytes. if_goal; auto with port. Qed.
Lemma mem_ok_store32 m a v : mem_ok m -> mem_ok (store32 m a v).
Proof. intros. apply mem_ok_store; auto with port. Qed.
Lemma load_bytes_bytes m a n : mem_ok m -> bytes (load_bytes m a n).
Proof. intros Hm. unfold load_bytes. apply Forall_fmap, Forall_true. intros i. apply Hm. Qed.
Lemma of_le_bound l : bytes l -> 0 <= of_le l < 256 ^ zlen l.
Proof.
  induction l as [|x l IH]; intros Hb; [done|].
  apply bytes_cons in Hb as [Hx Hl]. specialize (IH Hl). unfold is_byte in Hx.
  rewrite zlen_cons, Z.pow_add_r by llia. simpl of_le.
  change (256 ^ 1) with 256. lia.
Qed.
Lemma load32_range m a : mem_ok m -> 0 <= load32 m a < 4294967296.
Proof.
  intros. unfold load32. pose proof (of_le_bound (load_bytes m a 4)) as B.
  rewrite zlen_load_bytes in B by lia. apply B. by apply load_bytes_bytes.
Qed.
#[export] Hint Resolve mem_ok_store mem_ok_store32 load_bytes_bytes load32_range : port.
