(* ===== verification/Ring.v ===== *)
(** The shared block of the ESP-Hosted transport (shared/esp32s31-hosted-shm.h)
    and the byte rings in it: the copy routines of the Linux driver
    (esp_shm.c) and of the firmware (shm_slave_api.c), the record format, the
    abstraction of a ring to a queue of frames and the lemmas that relate the
    two. *)

From S2P Require Import Prelude Mem.

(** * Layout: shared/esp32s31-hosted-shm.h *)

Definition ESP_SHM_MAGIC : Z := 0x4d485345.
Definition ESP_SHM_VERSION : Z := 2.
Definition ESP_SHM_SIZE : Z := 0xd000.
Definition ESP_SHM_CTRL : Z := 0x0000.
Definition ESP_SHM_TO_HOST_CTRL : Z := 0x0100.
Definition ESP_SHM_TO_FW_CTRL : Z := 0x0200.
Definition ESP_SHM_TO_FW_DATA : Z := 0x1000.
Definition ESP_SHM_TO_FW_SIZE : Z := 0x4000.
Definition ESP_SHM_TO_HOST_DATA : Z := 0x5000.
Definition ESP_SHM_TO_HOST_SIZE : Z := 0x8000.
Definition ESP_SHM_MAGIC_OFF : Z := 0x00.
Definition ESP_SHM_VERSION_OFF : Z := 0x04.
Definition ESP_SHM_HOST_REQ_OFF : Z := 0x08.
Definition ESP_SHM_CACHE_LOCK_OFF : Z := 0x0c.
Definition ESP_SHM_HEAD_OFF : Z := 0x00.
Definition ESP_SHM_TAIL_OFF : Z := 0x40.
Definition ESP_SHM_WAIT_OFF : Z := 0x80.
Definition ESP_SHM_REQ_READY_REPLAY : Z := 1.
Definition ESP_SHM_REQ_POWEROFF : Z := 2.

(** [4 + (((frame_len) + 3) & ~3U)], in [uint32_t] arithmetic. *)
Definition ESP_SHM_RECORD_LEN (frame_len : Z) : Z :=
  u32 (4 + Z.land (u32 (frame_len + 3)) (not32 3)).

(** struct esp_shm_ring, struct shm_ring *)
Record ring := Ring { r_ctrl : Z; r_data : Z; r_size : Z }.
Definition to_host : ring :=
  Ring ESP_SHM_TO_HOST_CTRL ESP_SHM_TO_HOST_DATA ESP_SHM_TO_HOST_SIZE.
Definition to_fw : ring :=
  Ring ESP_SHM_TO_FW_CTRL ESP_SHM_TO_FW_DATA ESP_SHM_TO_FW_SIZE.

Definition head_of (m : mem) (r : ring) : Z := load32 m (r_ctrl r + ESP_SHM_HEAD_OFF).
Definition tail_of (m : mem) (r : ring) : Z := load32 m (r_ctrl r + ESP_SHM_TAIL_OFF).
Definition wait_of (m : mem) (r : ring) : Z := load32 m (r_ctrl r + ESP_SHM_WAIT_OFF).

(** * Copies *)

(** esp_shm.c: [__raw_writel] for each word of an aligned source, then
    [memcpy_toio] for the rest. *)
Definition IS_ALIGNED (x a : Z) : bool := Z.land x (a - 1) =? 0.

Fixpoint copy_words (m : mem) (dst : Z) (s : list Z) : mem * Z * list Z :=
  match s with
  | a :: b :: c :: d :: s' => copy_words (store32 m dst (of_le [a; b; c; d])) (dst + 4) s'
  | _ => (m, dst, s)
  end.

Definition shm_copy_to (m : mem) (dst : Z) (src_addr : Z) (src : list Z) : mem :=
  let '(m, dst, s) :=
    if IS_ALIGNED src_addr 4 then copy_words m dst src else (m, dst, src) in
  store_bytes m dst s.

Definition ring_off (r : ring) (pos : Z) : Z := Z.land pos (r_size r - 1).
Definition ring_first (r : ring) (pos len : Z) : Z := Z.min len (r_size r - ring_off r pos).

(** ring_copy_in() of esp_shm.c *)
Definition host_copy_in (m : mem) (r : ring) (pos : Z) (src_addr : Z) (src : list Z) : mem :=
  let off := ring_off r pos in
  let first := ring_first r pos (zlen src) in
  let m := shm_copy_to m (r_data r + off) src_addr (ztake first src) in
  shm_copy_to m (r_data r) (src_addr + first) (zdrop first src).

(** ring_copy_in() of shm_slave_api.c, with [memcpy] *)
Definition ring_copy_in (m : mem) (r : ring) (pos : Z) (src : list Z) : mem :=
  let off := ring_off r pos in
  let first := ring_first r pos (zlen src) in
  let m := store_bytes m (r_data r + off) (ztake first src) in
  store_bytes m (r_data r) (zdrop first src).

(** shm_copy_from(): the words, then the bytes that are left. *)
Fixpoint copy_from_words (m : mem) (src : Z) (n : nat) : list Z :=
  match n with
  | O => []
  | S n => le32 (load32 m src) ++ copy_from_words m (src + 4) n
  end.
Definition shm_copy_from (m : mem) (src len : Z) : list Z :=
  copy_from_words m src (Z.to_nat (len / 4)) ++
  load_bytes m (src + len / 4 * 4) (len mod 4).

(** ring_copy_out() of esp_shm.c *)
Definition host_copy_out (m : mem) (r : ring) (pos len : Z) : list Z :=
  let off := ring_off r pos in
  let first := ring_first r pos len in
  shm_copy_from m (r_data r + off) first ++ shm_copy_from m (r_data r) (len - first).

(** ring_copy_out() of shm_slave_api.c *)
Definition ring_copy_out (m : mem) (r : ring) (pos len : Z) : list Z :=
  let off := ring_off r pos in
  let first := ring_first r pos len in
  load_bytes m (r_data r + off) first ++ load_bytes m (r_data r) (len - first).

(** * Well-formed rings *)

(** A power of two, and control words outside of the data. *)
Definition ring_ok (r : ring) : Prop :=
  (exists k, 3 <= k <= 31 /\ r_size r = 2 ^ k) /\ r_ctrl r + 132 <= r_data r.

Lemma to_fw_ok : ring_ok to_fw.
Proof. split; [exists 14|]; done. Qed.
Lemma to_host_ok : ring_ok to_host.
Proof. split; [exists 15|]; done. Qed.
#[export] Hint Resolve to_fw_ok to_host_ok : port.

Lemma ring_size_bounds r : ring_ok r -> 8 <= r_size r <= 2147483648.
Proof.
  intros [[k [Hk ->]] _]. split.
  - change 8 with (2 ^ 3). apply Z.pow_le_mono_r; lia.
  - change 2147483648 with (2 ^ 31). apply Z.pow_le_mono_r; lia.
Qed.
Lemma ring_off_mod r pos : ring_ok r -> ring_off r pos = pos mod r_size r.
Proof.
  intros [[k [Hk E]] _]. unfold ring_off. rewrite E.
  replace (2 ^ k - 1) with (Z.ones k) by (rewrite Z.ones_equiv; lia).
  by rewrite Z.land_ones by lia.
Qed.
Lemma ring_size_4 r : ring_ok r -> (4 | r_size r).
Proof.
  intros [[k [Hk ->]] _]. exists (2 ^ (k - 2)). change 4 with (2 ^ 2).
  rewrite <- Z.pow_add_r by lia. f_equal. lia.
Qed.
Lemma ring_size_u32 r : ring_ok r -> (r_size r | 4294967296).
Proof.
  intros [[k [Hk ->]] _]. exists (2 ^ (32 - k)). change 4294967296 with (2 ^ 32).
  rewrite <- Z.pow_add_r by lia. f_equal. lia.
Qed.

(** The address of a byte position.  Positions wrap at 2^32. *)
Definition phys (r : ring) (pos : Z) : Z := r_data r + pos mod r_size r.

Lemma phys_range r pos : ring_ok r -> range (r_data r) (r_size r) (phys r pos).
Proof.
  intros Hr. pose proof (ring_size_bounds r Hr). unfold phys, range.
  pose proof (Z.mod_pos_bound pos (r_size r)). lia.
Qed.
Lemma phys_u32 r pos i : ring_ok r -> phys r (u32 pos + i) = phys r (pos + i).
Proof.
  intros Hr. pose proof (ring_size_bounds r Hr). unfold phys. f_equal.
  destruct (ring_size_u32 r Hr) as [q Hq]. unfold u32. rewrite Hq.
  rewrite (Z.mod_eq pos) by lia.
  replace (pos - q * r_size r * (pos / (q * r_size r)) + i)
    with (pos + i + - (q * (pos / (q * r_size r))) * r_size r) by lia.
  by rewrite Z_mod_plus_full.
Qed.
Lemma phys_surj r pos x :
  ring_ok r -> range (r_data r) (r_size r) x ->
  exists i, 0 <= i < r_size r /\ x = phys r (pos + i).
Proof.
  intros Hr Hx. pose proof (ring_size_bounds r Hr). unfold range in Hx.
  exists ((x - r_data r - pos) mod r_size r). split; [apply Z.mod_pos_bound; lia|].
  unfold phys. rewrite Zplus_mod_idemp_r.
  replace (pos + (x - r_data r - pos)) with (x - r_data r) by lia.
  rewrite Z.mod_small by lia. lia.
Qed.
Lemma phys_inj r a b :
  ring_ok r -> - r_size r < a - b < r_size r -> phys r a = phys r b -> a = b.
Proof.
  intros Hr Hab E. pose proof (ring_size_bounds r Hr). unfold phys in E.
  assert (a mod r_size r = b mod r_size r) as E' by lia.
  pose proof (Z.div_mod a (r_size r) ltac:(lia)). pose proof (Z.div_mod b (r_size r) ltac:(lia)).
  assert (a - b = r_size r * (a / r_size r - b / r_size r)) by lia.
  assert (a / r_size r - b / r_size r = 0) by nia. lia.
Qed.

(** * The copies, byte by byte *)

Lemma copy_words_spec s : forall m dst, bytes s ->
  let '(m', dst', s') := copy_words m dst s in
  forall x, store_bytes m' dst' s' x = store_bytes m dst s x.
Proof.
  induction s as [s IH] using (induction_ltof1 _ (@length Z)). intros m dst Hs.
  destruct s as [|a [|b [|c [|d s]]]]; try done. simpl.
  specialize (IH s). unfold ltof in IH. simpl in IH.
  specialize (IH ltac:(lia) (store32 m dst (of_le [a; b; c; d])) (dst + 4)).
  assert (bytes [a; b; c; d] /\ bytes s) as [H4 Hs'].
  { apply bytes_app. done. }
  specialize (IH Hs'). destruct (copy_words _ _ s) as [[m' dst'] s']. intros x.
  rewrite IH. unfold store32. rewrite le32_of_le by done.
  change (a :: b :: c :: d :: s) with ([a; b; c; d] ++ s).
  by rewrite <- store_bytes_app.
Qed.

Lemma shm_copy_to_spec m dst sa s x :
  bytes s -> shm_copy_to m dst sa s x = store_bytes m dst s x.
Proof.
  intros Hs. unfold shm_copy_to. destruct (IS_ALIGNED sa 4); [|done].
  pose proof (copy_words_spec s m dst Hs) as H.
  destruct (copy_words m dst s) as [[m' dst'] s']. apply H.
Qed.

Lemma load_bytes_app m a n k :
  0 <= n -> 0 <= k -> load_bytes m a (n + k) = load_bytes m a n ++ load_bytes m (a + n) k.
Proof.
  intros. apply list_get_eq; [llia|]. intros i Hi.
  rewrite zlen_load_bytes in Hi by lia. rewrite get_load_bytes by lia.
  destruct (decide (i < n)).
  - rewrite get_app_l, get_load_bytes by llia. done.
  - rewrite get_app_r, zlen_load_bytes, get_load_bytes by llia. f_equal. lia.
Qed.

Lemma copy_from_words_spec m n : forall src, mem_ok m ->
  copy_from_words m src n = load_bytes m src (4 * Z.of_nat n).
Proof.
  induction n as [|n IH]; intros src Hm; [done|]. cbn [copy_from_words].
  rewrite IH by done. unfold load32. rewrite le32_of_le by (auto with port; llia).
  replace (4 * Z.of_nat (S n)) with (4 + 4 * Z.of_nat n) by lia.
  by rewrite load_bytes_app by lia.
Qed.
Lemma shm_copy_from_spec m src len :
  mem_ok m -> 0 <= len -> shm_copy_from m src len = load_bytes m src len.
Proof.
  intros. unfold shm_copy_from. rewrite copy_from_words_spec by done.
  rewrite Z2Nat.id by (apply Z.div_pos; lia).
  replace (len / 4 * 4) with (4 * (len / 4)) by lia.
  rewrite <- load_bytes_app by zlia. f_equal. zlia.
Qed.

Section Copies.
Context (r : ring) (Hr : ring_ok r).

Lemma ring_first_bounds pos len : 0 <= len ->
  0 <= ring_first r pos len <= len /\ ring_off r pos + ring_first r pos len <= r_size r.
Proof.
  intros. unfold ring_first. rewrite ring_off_mod by done.
  pose proof (ring_size_bounds r Hr).
  pose proof (Z.mod_pos_bound pos (r_size r)). lia.
Qed.

(** Byte [i] of the data goes to position [pos + i]. *)
Lemma phys_split pos len i : 0 <= i < len -> len <= r_size r ->
  phys r (pos + i) =
    if i <? ring_first r pos len then r_data r + ring_off r pos + i
    else r_data r + (i - ring_first r pos len).
Proof.
  intros Hi Hl. unfold phys, ring_first. rewrite ring_off_mod by done.
  pose proof (ring_size_bounds r Hr) as Hs.
  pose proof (Z.mod_pos_bound pos (r_size r)) as Hm.
  rewrite <- Zplus_mod_idemp_l. if_goal.
  - rewrite Z.mod_small by lia. lia.
  - replace (pos mod r_size r + i) with (pos mod r_size r + i - r_size r + 1 * r_size r) by lia.
    rewrite Z_mod_plus_full, Z.mod_small by lia. lia.
Qed.

Lemma ring_copy_in_in m pos src i :
  0 <= i < zlen src -> zlen src <= r_size r ->
  ring_copy_in m r pos src (phys r (pos + i)) = get src i.
Proof.
  intros Hi Hl. rewrite (phys_split pos (zlen src)) by done.
  pose proof (ring_first_bounds pos (zlen src) ltac:(lia)) as [B1 B2].
  unfold ring_copy_in. if_goal.
  - rewrite store_bytes_out.
    + rewrite store_bytes_in by (unfold range; llia).
      replace (_ - _) with i by lia. apply get_ztake. lia.
    + unfold range. rewrite zlen_zdrop by lia.
      rewrite ring_off_mod in * by done. unfold ring_first in *.
      pose proof (Z.mod_pos_bound pos (r_size r)). rewrite ring_off_mod in * by done.
      pose proof (ring_size_bounds r Hr). lia.
  - rewrite store_bytes_in by (unfold range; llia).
    rewrite get_zdrop by lia. f_equal. lia.
Qed.

Lemma ring_copy_in_out m pos src x :
  zlen src <= r_size r ->
  (forall i, 0 <= i < zlen src -> x <> phys r (pos + i)) ->
  ring_copy_in m r pos src x = m x.
Proof.
  intros Hl Hx. pose proof (ring_first_bounds pos (zlen src) ltac:(llia)) as [B1 B2].
  unfold ring_copy_in. rewrite !store_bytes_out; [done| |].
  - intros R. unfold range in R. rewrite zlen_ztake in R by lia.
    apply (Hx (x - (r_data r + ring_off r pos))); [lia|].
    rewrite (phys_split pos (zlen src)) by lia. if_goal; lia.
  - intros R. unfold range in R. rewrite zlen_zdrop in R by lia.
    apply (Hx (x - r_data r + ring_first r pos (zlen src))); [lia|].
    rewrite (phys_split pos (zlen src)) by lia. if_goal; lia.
Qed.

(** Nothing outside of the data area of the ring changes. *)
Lemma ring_copy_in_frame m pos src x :
  zlen src <= r_size r -> ~ range (r_data r) (r_size r) x ->
  ring_copy_in m r pos src x = m x.
Proof.
  intros Hl Hx. apply ring_copy_in_out; [done|]. intros i Hi ->.
  by apply Hx, phys_range.
Qed.

Lemma zlen_ring_copy_out m pos len : 0 <= len -> zlen (ring_copy_out m r pos len) = len.
Proof.
  intros. pose proof (ring_first_bounds pos len ltac:(lia)).
  unfold ring_copy_out. llia.
Qed.
Lemma get_ring_copy_out m pos len i :
  0 <= i < len -> len <= r_size r ->
  get (ring_copy_out m r pos len) i = m (phys r (pos + i)).
Proof.
  intros Hi Hl. rewrite (phys_split pos len) by done.
  pose proof (ring_first_bounds pos len ltac:(lia)).
  unfold ring_copy_out. if_goal.
  - by rewrite get_app_l, get_load_bytes by llia.
  - by rewrite get_app_r, zlen_load_bytes, get_load_bytes by llia.
Qed.
Lemma ring_copy_out_ext m m' pos len :
  0 <= len <= r_size r ->
  (forall i, 0 <= i < len -> m (phys r (pos + i)) = m' (phys r (pos + i))) ->
  ring_copy_out m r pos len = ring_copy_out m' r pos len.
Proof.
  intros Hl H. apply list_get_eq; rewrite !zlen_ring_copy_out by lia; [done|].
  intros i Hi. rewrite !get_ring_copy_out by lia. by apply H.
Qed.
Lemma ring_copy_out_u32 m pos len :
  0 <= len <= r_size r -> ring_copy_out m r (u32 pos) len = ring_copy_out m r pos len.
Proof.
  intros Hl. apply list_get_eq; rewrite !zlen_ring_copy_out by lia; [done|].
  intros i Hi. rewrite !get_ring_copy_out, phys_u32 by (done || lia). done.
Qed.

(** What was copied in comes out, also across the end of the data area. *)
Lemma ring_copy_out_in m pos src :
  zlen src <= r_size r ->
  ring_copy_out (ring_copy_in m r pos src) r pos (zlen src) = src.
Proof.
  intros Hl. apply list_get_eq; rewrite zlen_ring_copy_out by llia; [done|].
  intros i Hi. rewrite get_ring_copy_out by lia. by apply ring_copy_in_in.
Qed.
(** A copy to other positions of the same window does not matter. *)
Lemma ring_copy_out_in_ne m p len q src :
  0 <= len -> zlen src <= r_size r ->
  (p + len <= q /\ q + zlen src <= p + r_size r \/
   q + zlen src <= p /\ p + len <= q + r_size r) ->
  len <= r_size r ->
  ring_copy_out (ring_copy_in m r q src) r p len = ring_copy_out m r p len.
Proof.
  intros H0 Hl Hd Hlen. apply ring_copy_out_ext; [lia|]. intros i Hi.
  apply ring_copy_in_out; [done|]. intros j Hj E.
  apply phys_inj in E; [|done|]; lia.
Qed.
Lemma ring_copy_in_u32 m pos src x :
  zlen src <= r_size r -> ring_copy_in m r (u32 pos) src x = ring_copy_in m r pos src x.
Proof.
  intros Hl. unfold ring_copy_in, ring_first.
  assert (ring_off r (u32 pos) = ring_off r pos) as ->; [|done].
  rewrite !ring_off_mod by done.
  pose proof (phys_u32 r pos 0 Hr) as E. unfold phys in E. rewrite !Z.add_0_r in E. lia.
Qed.
(** A copy in two parts. *)
Lemma ring_copy_in_app m pos a b :
  zlen a + zlen b <= r_size r ->
  mem_eq (ring_copy_in (ring_copy_in m r pos a) r (pos + zlen a) b) (ring_copy_in m r pos (a ++ b)).
Proof.
  intros Hl x. pose proof (zlen_nonneg a). pose proof (zlen_nonneg b).
  destruct (decide (r_data r <= x < r_data r + r_size r)) as [Hx|Hx].
  2: { rewrite !ring_copy_in_frame; try done; rewrite ?zlen_app; lia. }
  destruct (phys_surj r pos x Hr Hx) as (i & Hi & ->).
  destruct (decide (i < zlen a)); [|destruct (decide (i < zlen a + zlen b))].
  - rewrite ring_copy_in_out; [|lia|intros j Hj E; apply phys_inj in E; [lia|done|lia]].
    by rewrite !ring_copy_in_in, get_app_l by (rewrite ?zlen_app; lia).
  - replace (pos + i) with (pos + zlen a + (i - zlen a)) by lia.
    rewrite ring_copy_in_in by lia.
    replace (pos + zlen a + (i - zlen a)) with (pos + i) by lia.
    rewrite ring_copy_in_in, get_app_r by (rewrite ?zlen_app; lia). done.
  - rewrite !ring_copy_in_out; try done; rewrite ?zlen_app; try lia;
      intros j Hj E; (apply phys_inj in E; [lia|done|lia]).
Qed.
Lemma mem_ok_ring_copy_in m pos src : mem_ok m -> bytes src -> mem_ok (ring_copy_in m r pos src).
Proof. intros. unfold ring_copy_in. auto with port. Qed.

(** The routines of the two harts are the same on the memory. *)
Lemma host_copy_in_spec m pos sa src :
  bytes src -> mem_eq (host_copy_in m r pos sa src) (ring_copy_in m r pos src).
Proof.
  intros Hb x. unfold host_copy_in, ring_copy_in.
  rewrite shm_copy_to_spec by auto with port.
  set (rest := zdrop _ src).
  destruct (decide (r_data r <= x < r_data r + zlen rest)).
  - by rewrite !store_bytes_in by done.
  - rewrite !(store_bytes_out _ _ rest) by done.
    by rewrite shm_copy_to_spec by auto with port.
Qed.
Lemma host_copy_out_spec m pos len :
  mem_ok m -> 0 <= len -> host_copy_out m r pos len = ring_copy_out m r pos len.
Proof.
  intros Hm Hl. pose proof (ring_first_bounds pos len Hl).
  unfold host_copy_out, ring_copy_out. by rewrite !shm_copy_from_spec by (done || lia).
Qed.
End Copies.

#[export] Instance ring_copy_in_proper : Proper (mem_eq ==> eq ==> eq ==> eq ==> mem_eq) ring_copy_in.
Proof.
  intros m m' H r ? <- pos ? <- src ? <-. unfold ring_copy_in. by rewrite H.
Qed.
#[export] Instance ring_copy_out_proper : Proper (mem_eq ==> eq ==> eq ==> eq ==> eq) ring_copy_out.
Proof.
  intros m m' H r ? <- pos ? <- n ? <-. unfold ring_copy_out. by rewrite H.
Qed.
#[export] Instance head_of_proper : Proper (mem_eq ==> eq ==> eq) head_of.
Proof. intros m m' H r ? <-. unfold head_of. by rewrite H. Qed.
#[export] Instance tail_of_proper : Proper (mem_eq ==> eq ==> eq) tail_of.
Proof. intros m m' H r ? <-. unfold tail_of. by rewrite H. Qed.
