(* ===== verification/RingQueue.v ===== *)
(** A byte ring is a queue of frames.  [ring_wf m r q] says that ring [r] of
    the memory [m] holds the frames [q], oldest first.  The producers
    (esp_shm_push() of Linux, ring_push() of the firmware) add a frame at the
    end of the queue or leave the ring alone; taking a record off is the step
    of the tail that the consumers make. *)

From S2P Require Import Prelude Mem Ring.

(** * Records *)

(** [ESP_SHM_RECORD_LEN] without the wrap. *)
Definition rlen (n : Z) : Z := 4 + 4 * ((n + 3) / 4).
Definition frames_len (q : list (list Z)) : Z := foldr (fun f s => rlen (zlen f) + s) 0 q.

Lemma RECORD_LEN_eq n : 0 <= n < 4294967288 -> ESP_SHM_RECORD_LEN n = rlen n.
Proof.
  intros Hn. unfold ESP_SHM_RECORD_LEN, rlen. rewrite (u32_small (n + 3)) by lia.
  assert (Z.land (n + 3) (not32 3) = 4 * ((n + 3) / 4)) as ->.
  { apply Z.bits_inj'. intros i Hi. rewrite Z.land_spec.
    replace (4 * ((n + 3) / 4)) with (Z.shiftl (Z.shiftr (n + 3) 2) 2)
      by (rewrite Z.shiftl_mul_pow2, Z.shiftr_div_pow2 by lia; change (2 ^ 2) with 4; lia).
    unfold not32. change (Z.lxor 3 4294967295) with (Z.shiftl (Z.ones 30) 2).
    destruct (decide (i < 2)).
    { rewrite !Z.shiftl_spec_low by lia. apply andb_false_r. }
    rewrite !Z.shiftl_spec_high, Z.shiftr_spec by lia. replace (i - 2 + 2) with i by lia.
    destruct (decide (i < 32)).
    - rewrite Z.ones_spec_low by lia. apply andb_true_r.
    - rewrite Z.ones_spec_high by lia. rewrite andb_false_r. symmetry.
      destruct (decide (n + 3 = 0)); [lia|]. apply Z.bits_above_log2; [lia|].
      apply Z.lt_le_trans with 32; [|lia]. apply Z.log2_lt_pow2; lia. }
  apply u32_small. zlia.
Qed.

Lemma rlen_bounds n : 0 <= n -> n + 4 <= rlen n <= n + 7.
Proof. unfold rlen. intros. zlia. Qed.
Lemma frames_len_nonneg q : 0 <= frames_len q.
Proof.
  induction q as [|f q IH]; simpl; [lia|].
  pose proof (rlen_bounds (zlen f) (zlen_nonneg f)). llia.
Qed.
Lemma frames_len_app q f : frames_len (q ++ [f]) = frames_len q + rlen (zlen f).
Proof. induction q as [|g q IH]; simpl; lia. Qed.
Lemma frames_len_mod4 q : frames_len q mod 4 = 0.
Proof. induction q as [|f q IH]; simpl; [done|]. unfold rlen. zlia. Qed.
Lemma frames_len_0 q : frames_len q = 0 -> q = [].
Proof.
  destruct q as [|f q]; [done|]. simpl.
  pose proof (rlen_bounds (zlen f) (zlen_nonneg f)). pose proof (frames_len_nonneg q). llia.
Qed.

(** * The queue that a ring holds *)

Fixpoint ring_holds (m : mem) (r : ring) (pos : Z) (q : list (list Z)) : Prop :=
  match q with
  | [] => True
  | f :: q =>
      ring_copy_out m r pos 4 = le32 (zlen f) /\
      ring_copy_out m r (pos + 4) (zlen f) = f /\
      ring_holds m r (pos + rlen (zlen f)) q
  end.

Record ring_wf (m : mem) (r : ring) (q : list (list Z)) : Prop := {
  wf_mem : mem_ok m;
  wf_align : tail_of m r mod 4 = 0;
  wf_used : u32 (head_of m r - tail_of m r) = frames_len q;
  wf_fit : frames_len q <= r_size r;
  wf_holds : ring_holds m r (tail_of m r) q;
}.

(** The addresses that [ring_wf] depends on. *)
Definition ring_area (r : ring) (x : Z) : Prop :=
  range (r_data r) (r_size r) x \/
  range (r_ctrl r + ESP_SHM_HEAD_OFF) 4 x \/ range (r_ctrl r + ESP_SHM_TAIL_OFF) 4 x.

Section Queue.
Context (r : ring) (Hr : ring_ok r).

Lemma ring_holds_ext m m' pos pos' q :
  frames_len q <= r_size r ->
  (forall i, 0 <= i < frames_len q -> m (phys r (pos + i)) = m' (phys r (pos' + i))) ->
  ring_holds m r pos q -> ring_holds m' r pos' q.
Proof using Hr.
  revert pos pos'. induction q as [|f q IH]; intros pos pos' Hl H Hh; [done|].
  simpl in *. destruct Hh as (H1 & H2 & H3).
  pose proof (rlen_bounds (zlen f) (zlen_nonneg f)) as B.
  pose proof (frames_len_nonneg q). pose proof (zlen_nonneg f).
  split_and!.
  - rewrite <- H1. apply list_get_eq; rewrite !zlen_ring_copy_out by (done || lia); [done|].
    intros i Hi. rewrite !get_ring_copy_out by (done || lia). symmetry. apply H. lia.
  - rewrite <- H2 at 2. apply list_get_eq; rewrite !zlen_ring_copy_out by (done || lia); [done|].
    intros i Hi. rewrite !get_ring_copy_out by (done || lia).
    rewrite <- !Z.add_assoc. symmetry. apply H. lia.
  - apply (IH (pos + rlen (zlen f))); [lia| |done]. intros i Hi.
    rewrite <- !Z.add_assoc. apply H. lia.
Qed.

Lemma ring_holds_u32 m pos q :
  frames_len q <= r_size r -> ring_holds m r pos q -> ring_holds m r (u32 pos) q.
Proof using Hr.
  intros Hl. apply ring_holds_ext; [done|]. intros i _. by rewrite phys_u32.
Qed.

Lemma ring_holds_app m pos q f :
  ring_holds m r pos (q ++ [f]) <->
  ring_holds m r pos q /\ ring_holds m r (pos + frames_len q) [f].
Proof using Hr.
  revert pos. induction q as [|g q IH]; intros pos.
  - simpl. rewrite Z.add_0_r. tauto.
  - cbn [ring_holds app]. rewrite IH. cbn [ring_holds frames_len foldr].
    fold (frames_len q). rewrite Z.add_assoc. tauto.
Qed.

Lemma data_frame m m' pos n :
  agree (range (r_data r) (r_size r)) m m' -> 0 <= n <= r_size r ->
  ring_copy_out m r pos n = ring_copy_out m' r pos n.
Proof using Hr.
  intros HA Hn. apply ring_copy_out_ext; [done|done|]. intros. by apply HA, phys_range.
Qed.

Lemma wf_head m q : ring_wf m r q ->
  head_of m r = u32 (tail_of m r + frames_len q) /\
  0 <= head_of m r < 4294967296 /\ 0 <= tail_of m r < 4294967296.
Proof using Hr.
  intros W. pose proof (wf_used _ _ _ W) as U. pose proof (wf_mem _ _ _ W) as M.
  pose proof (load32_range m (r_ctrl r + ESP_SHM_HEAD_OFF) M) as B1.
  pose proof (load32_range m (r_ctrl r + ESP_SHM_TAIL_OFF) M) as B2.
  fold (head_of m r) in B1. fold (tail_of m r) in B2.
  split_and!; try lia. rewrite <- U. zlia.
Qed.

Lemma ring_area_ctrl x : range (r_data r) (r_size r) x ->
  ~ range (r_ctrl r) 132 x.
Proof using Hr. destruct Hr as [_ ?]. unfold range. lia. Qed.

(** Writes outside of the ring do not change the queue. *)
Lemma ring_wf_agree m m' q :
  agree (ring_area r) m m' -> mem_ok m' -> ring_wf m r q -> ring_wf m' r q.
Proof using Hr.
  intros HA M W. unfold ring_area in HA.
  assert (head_of m r = head_of m' r) as EH.
  { apply load32_ext. eapply agree_weaken; [|exact HA]. naive_solver. }
  assert (tail_of m r = tail_of m' r) as ET.
  { apply load32_ext. eapply agree_weaken; [|exact HA]. naive_solver. }
  destruct W as [W1 W2 W3 W4 W5]. split; rewrite <- ?EH, <- ?ET; try done.
  revert W5. apply ring_holds_ext; [done|]. intros i _. apply HA.
  left. by apply phys_range.
Qed.

Lemma ring_wf_proper_1 m m' q : mem_eq m m' -> ring_wf m r q -> ring_wf m' r q.
Proof using Hr.
  intros E W. apply (ring_wf_agree m); [intros x _; apply E| |done].
  rewrite <- E. apply W.
Qed.

Lemma ring_wf_empty m :
  mem_ok m -> head_of m r = tail_of m r -> tail_of m r mod 4 = 0 -> ring_wf m r [].
Proof using Hr.
  intros M E A. pose proof (ring_size_bounds r Hr).
  split; simpl; try done; [|lia]. by rewrite E, Z.sub_diag.
Qed.

(** ** Adding a record *)

(** The memory after a producer put [f] at the head of the ring. *)
Definition push_data (m : mem) (f : list Z) : mem :=
  ring_copy_in (ring_copy_in m r (head_of m r + 4) f) r (head_of m r) (le32 (zlen f)).
Definition push_mem (m : mem) (f : list Z) : mem :=
  store32 (push_data m f) (r_ctrl r + ESP_SHM_HEAD_OFF)
    (u32 (head_of m r + rlen (zlen f))).

Lemma push_data_frame m f x :
  rlen (zlen f) <= r_size r -> ~ range (r_data r) (r_size r) x -> push_data m f x = m x.
Proof using Hr.
  intros Hl Hx. pose proof (rlen_bounds (zlen f) (zlen_nonneg f)). pose proof (zlen_nonneg f).
  unfold push_data. rewrite !ring_copy_in_frame; try done; llia.
Qed.

Lemma push_data_wf m q f :
  ring_wf m r q -> bytes f -> rlen (zlen f) + frames_len q <= r_size r ->
  ring_wf (push_data m f) r q.
Proof using Hr.
  intros W Hb Hl. pose proof (rlen_bounds (zlen f) (zlen_nonneg f)) as B.
  pose proof (frames_len_nonneg q). pose proof (zlen_nonneg f).
  destruct (wf_head m q W) as (EH & RH & RT).
  assert (forall x, ~ range (r_data r) (r_size r) x -> push_data m f x = m x) as F.
  { intros. apply push_data_frame; [lia|done]. }
  assert (forall a, r_ctrl r <= a -> a + 4 <= r_ctrl r + 132 ->
    load32 (push_data m f) a = load32 m a) as FC.
  { intros a ??. apply load32_ext. intros x Hx. apply F. intros R%ring_area_ctrl.
    unfold range in *. lia. }
  destruct W as [W1 W2 W3 W4 W5].
  unfold head_of, tail_of in *. split; unfold head_of, tail_of.
  - unfold push_data. auto using mem_ok_ring_copy_in, le32_bytes.
  - rewrite FC; done || (unfold ESP_SHM_TAIL_OFF; lia).
  - rewrite !FC; done || (unfold ESP_SHM_TAIL_OFF, ESP_SHM_HEAD_OFF; lia).
  - done.
  - rewrite FC by (unfold ESP_SHM_TAIL_OFF; lia).
    revert W5. apply ring_holds_ext; [done|]. intros i Hi.
    set (t := load32 m (r_ctrl r + ESP_SHM_TAIL_OFF)) in *.
    unfold push_data, head_of. rewrite EH. symmetry.
    rewrite !ring_copy_in_out; try done; try llia.
    + intros j Hj E. rewrite <- Z.add_assoc, phys_u32 in E by done.
      apply phys_inj in E; done || lia.
    + intros j Hj E. rewrite phys_u32 in E by done.
      apply phys_inj in E; done || llia.
Qed.

Lemma push_data_record m f :
  rlen (zlen f) <= r_size r ->
  ring_holds (push_data m f) r (head_of m r) [f].
Proof using Hr.
  intros Hl. pose proof (rlen_bounds (zlen f) (zlen_nonneg f)) as B.
  pose proof (zlen_nonneg f). simpl. split_and!; [| |done].
  - unfold push_data. change 4 with (zlen (le32 (zlen f))) at 2.
    apply ring_copy_out_in; [done|llia].
  - unfold push_data.
    rewrite ring_copy_out_in_ne by (done || llia). apply ring_copy_out_in; [done|lia].
Qed.

(** The store of the head makes a record that is in place the last one. *)
Lemma publish_wf m q f :
  ring_wf m r q -> rlen (zlen f) + frames_len q <= r_size r ->
  ring_holds m r (head_of m r) [f] ->
  ring_wf (store32 m (r_ctrl r + ESP_SHM_HEAD_OFF) (u32 (head_of m r + rlen (zlen f)))) r (q ++ [f]).
Proof using Hr.
  intros W Hl HR. pose proof (zlen_nonneg f). pose proof (frames_len_nonneg q).
  pose proof (rlen_bounds (zlen f) (zlen_nonneg f)).
  destruct (wf_head m q W) as (EH & RH & RT).
  set (m' := store32 m _ _).
  assert (tail_of m' r = tail_of m r) as ET.
  { apply load32_store32_ne. unfold ESP_SHM_TAIL_OFF, ESP_SHM_HEAD_OFF. lia. }
  assert (head_of m' r = u32 (head_of m r + rlen (zlen f))) as EHd.
  { unfold head_of at 1, m'. rewrite load32_store32. apply u32_idem. }
  assert (forall pos qs, frames_len qs <= r_size r ->
    ring_holds m r pos qs -> ring_holds m' r pos qs) as HX.
  { intros pos qs Hqs. apply ring_holds_ext; [done|]. intros i _. symmetry.
    apply store_bytes_out. rewrite zlen_le32.
    pose proof (ring_area_ctrl _ (phys_range r (pos + i) Hr)).
    unfold range, ESP_SHM_HEAD_OFF in *. lia. }
  split.
  - apply mem_ok_store32, W.
  - rewrite ET. apply W.
  - rewrite EHd, ET, EH, frames_len_app. rewrite u32_add_l, u32_sub_l.
    pose proof (ring_size_bounds r Hr). rewrite u32_small; llia.
  - rewrite frames_len_app. lia.
  - rewrite ET. apply ring_holds_app. split; (apply HX; [simpl; lia|]).
    + apply W.
    + revert HR. apply ring_holds_ext; [simpl; lia|].
      intros i _. rewrite EH, phys_u32 by done. done.
Qed.

Lemma push_data_head m f :
  rlen (zlen f) <= r_size r -> head_of (push_data m f) r = head_of m r.
Proof using Hr.
  intros Hl. apply load32_ext. intros x Hx. apply push_data_frame; [done|].
  intros R%ring_area_ctrl. unfold range, ESP_SHM_HEAD_OFF in *. lia.
Qed.

Lemma push_mem_wf m q f :
  ring_wf m r q -> bytes f -> rlen (zlen f) + frames_len q <= r_size r ->
  ring_wf (push_mem m f) r (q ++ [f]).
Proof using Hr.
  intros W Hb Hl. pose proof (frames_len_nonneg q).
  assert (rlen (zlen f) <= r_size r) as Hl' by lia.
  unfold push_mem. rewrite <- (push_data_head m f Hl').
  apply publish_wf; [by apply push_data_wf|done|].
  rewrite push_data_head by done. by apply push_data_record.
Qed.

Lemma push_mem_frame m f x :
  rlen (zlen f) <= r_size r -> ~ ring_area r x -> push_mem m f x = m x.
Proof using Hr.
  intros Hl Hx. unfold ring_area in Hx. unfold push_mem.
  rewrite <- (push_data_frame m f x Hl) by tauto.
  apply store_bytes_out. rewrite zlen_le32. tauto.
Qed.

(** The test of the producers. *)
Lemma push_room m q n :
  ring_wf m r q -> 0 <= n ->
  (n >? u32 (r_size r - u32 (head_of m r - tail_of m r))) =
  negb (n + frames_len q <=? r_size r).
Proof using Hr.
  intros W Hn. rewrite (wf_used _ _ _ W). pose proof (wf_fit _ _ _ W).
  pose proof (frames_len_nonneg q). pose proof (ring_size_bounds r Hr).
  rewrite u32_small by lia. rewrite Z.gtb_ltb.
  destruct (Z.ltb_spec (r_size r - frames_len q) n), (Z.leb_spec (n + frames_len q) (r_size r));
    done || lia.
Qed.
(** The consumer had read all frames: head and tail are the same. *)
Lemma wf_empty_iff m q :
  ring_wf m r q -> (tail_of m r =? head_of m r) = bool_decide (q = []).
Proof using Hr.
  intros W. destruct (wf_head m q W) as (EH & RH & RT).
  pose proof (wf_fit _ _ _ W). pose proof (frames_len_nonneg q).
  pose proof (ring_size_bounds r Hr).
  case_bool_decide as Hq.
  - subst q. simpl in EH. rewrite Z.add_0_r, u32_small in EH by lia. lia.
  - apply Z.eqb_neq. intros E. apply Hq, frames_len_0. zlia.
Qed.

(** ** Taking a record off *)

Lemma wf_first m f q :
  ring_wf m r (f :: q) ->
  of_le (ring_copy_out m r (tail_of m r) 4) = zlen f /\
  ring_copy_out m r (u32 (tail_of m r + 4)) (zlen f) = f /\
  rlen (zlen f) <= u32 (head_of m r - tail_of m r).
Proof using Hr.
  intros W. destruct W as [W1 W2 W3 W4 W5]. simpl in W3, W4, W5.
  destruct W5 as (H1 & H2 & H3). pose proof (rlen_bounds (zlen f) (zlen_nonneg f)).
  pose proof (frames_len_nonneg q). pose proof (ring_size_bounds r Hr). pose proof (zlen_nonneg f).
  split_and!.
  - rewrite H1, of_le_le32, u32_small; lia.
  - rewrite ring_copy_out_u32; done || lia.
  - lia.
Qed.
Lemma wf_frame_bytes m f q : ring_wf m r (f :: q) -> bytes f.
Proof using Hr.
  intros W. destruct (wf_first m f q W) as (_ & <- & _).
  unfold ring_copy_out. apply bytes_app. split; apply load_bytes_bytes, W.
Qed.

Definition pop_mem (m : mem) (n : Z) : mem :=
  store32 m (r_ctrl r + ESP_SHM_TAIL_OFF) (u32 (tail_of m r + n)).

Lemma pop_mem_wf m f q :
  ring_wf m r (f :: q) -> ring_wf (pop_mem m (rlen (zlen f))) r q.
Proof using Hr.
  intros W. destruct (wf_head _ _ W) as (EH & RH & RT).
  pose proof (rlen_bounds (zlen f) (zlen_nonneg f)). pose proof (frames_len_nonneg q).
  pose proof (ring_size_bounds r Hr). pose proof (zlen_nonneg f).
  assert (tail_of (pop_mem m (rlen (zlen f))) r = u32 (tail_of m r + rlen (zlen f))) as ET.
  { unfold tail_of at 1, pop_mem. rewrite load32_store32. apply u32_idem. }
  assert (head_of (pop_mem m (rlen (zlen f))) r = head_of m r) as EHd.
  { apply load32_store32_ne. unfold ESP_SHM_TAIL_OFF, ESP_SHM_HEAD_OFF. lia. }
  destruct W as [W1 W2 W3 W4 W5]. simpl in *.
  split.
  - unfold pop_mem. by apply mem_ok_store32.
  - rewrite ET. unfold rlen. zlia.
  - rewrite EHd, ET, EH. zlia.
  - lia.
  - rewrite ET. apply ring_holds_u32; [lia|].
    destruct W5 as (_ & _ & H3). revert H3. apply ring_holds_ext; [lia|].
    intros i _. symmetry. unfold pop_mem. apply store_bytes_out. rewrite zlen_le32.
    pose proof (ring_area_ctrl _ (phys_range r (tail_of m r + rlen (zlen f) + i) Hr)).
    unfold range, ESP_SHM_TAIL_OFF in *. lia.
Qed.
End Queue.

#[export] Instance ring_wf_proper : Proper (mem_eq ==> (fun r r' => r = r' /\ ring_ok r) ==> eq ==> iff) ring_wf.
Proof.
  intros m m' H r ? [<- Hr] q ? <-. split; apply ring_wf_proper_1; done.
Qed.

(** The words of the control block of a ring are not in each other. *)
Lemma wait_outside r : ring_ok r -> forall x, ring_area r x -> ~ range (r_ctrl r + ESP_SHM_WAIT_OFF) 4 x.
Proof.
  intros [_ H] x. unfold ring_area, range, ESP_SHM_WAIT_OFF, ESP_SHM_HEAD_OFF, ESP_SHM_TAIL_OFF.
  lia.
Qed.
Lemma ring_wf_store_wait r m q v : ring_ok r ->
  ring_wf m r q -> ring_wf (store32 m (r_ctrl r + ESP_SHM_WAIT_OFF) v) r q.
Proof.
  intros Hr W. apply (ring_wf_agree r Hr m); [| |done].
  - intros x Hx. symmetry. apply store_bytes_out. rewrite zlen_le32. by apply wait_outside.
  - apply mem_ok_store32, W.
Qed.

(** The block after the firmware cleared it. *)
Definition zero_mem : mem := fun _ => 0.
Lemma zero_mem_ok : mem_ok zero_mem.
Proof. intros x. unfold zero_mem, is_byte. lia. Qed.
Lemma zero_mem_wf r : ring_ok r -> ring_wf zero_mem r [].
Proof. intros Hr. by apply ring_wf_empty; [|apply zero_mem_ok|..]. Qed.
#[export] Hint Resolve zero_mem_ok zero_mem_wf : port.
