(* ===== verification/RingSteps.v ===== *)
(** A ring while two harts use it: what each single store to the shared block
    does to the queue in the ring.  ShmLink and RxLink use these lemmas for the
    two directions. *)

From S2P Require Import Prelude Mem Ring RingQueue.

(** A word of the control block other than the stored one. *)
Ltac other_word := apply load32_store32_ne; unfold ESP_SHM_HEAD_OFF, ESP_SHM_TAIL_OFF, ESP_SHM_WAIT_OFF; lia.

(** A store outside of the data and the two indices. *)
Record ring_keeps (r : ring) (m m' : mem) : Prop := {
  keep_mem : mem_ok m';
  keep_area : agree (ring_area r) m m';
}.

(** A frame fits behind the frames of the ring. *)
Definition ring_fits (r : ring) (f : list Z) (q : list (list Z)) : bool := rlen (zlen f) + frames_len q <=? r_size r.

Lemma frames_len_prefix q q' : frames_len q <= frames_len (q ++ q').
Proof.
  induction q as [|g q IH]; cbn [app frames_len foldr]; [apply frames_len_nonneg|].
  fold (frames_len q). fold (frames_len (q ++ q')). lia.
Qed.

Section Steps.
Context (r : ring) (Hr : ring_ok r).

Lemma keeps_ring_wf m m' q : ring_keeps r m m' -> ring_wf m r q -> ring_wf m' r q.
Proof using Hr. intros [M A]. by apply ring_wf_agree. Qed.
Lemma keeps_ring_head m m' : ring_keeps r m m' -> head_of m' r = head_of m r.
Proof. intros [M A]. symmetry. apply load32_ext. intros x Hx. apply A. right; left. done. Qed.
Lemma keeps_ring_tail m m' : ring_keeps r m m' -> tail_of m' r = tail_of m r.
Proof. intros [M A]. symmetry. apply load32_ext. intros x Hx. apply A. right; right. done. Qed.
Lemma keeps_ring_holds m m' pos f :
  ring_keeps r m m' -> rlen (zlen f) <= r_size r -> ring_holds m r pos [f] -> ring_holds m' r pos [f].
Proof using Hr.
  intros [M A] Hl. apply ring_holds_ext; [done|cbn [frames_len foldr]; lia|].
  intros i _. apply A. left. by apply phys_range.
Qed.
Lemma keeps_store_wait m v : mem_ok m -> ring_keeps r m (store32 m (r_ctrl r + ESP_SHM_WAIT_OFF) v).
Proof using Hr.
  intros M. split; [by apply mem_ok_store32|]. intros x Hx. symmetry. apply store_bytes_out.
  rewrite zlen_le32. by apply (wait_outside r).
Qed.

(** The test of the producers. *)
Lemma room_fits m f q : ring_wf m r q -> zlen f < 4294967288 ->
  (ESP_SHM_RECORD_LEN (zlen f) >? u32 (r_size r - u32 (head_of m r - tail_of m r))) = negb (ring_fits r f q).
Proof using Hr.
  intros W Hl. pose proof (zlen_nonneg f). unfold ring_fits. rewrite RECORD_LEN_eq by lia.
  pose proof (rlen_bounds (zlen f) ltac:(lia)). apply push_room; [done|done|lia].
Qed.

(** The copies of a producer: the queue is as before, the record is in place. *)
Lemma put_ring_spec m m' f q :
  ring_wf m r q -> bytes f -> ring_fits r f q = true -> mem_eq m' (push_data r m f) ->
  ring_wf m' r q /\ ring_holds m' r (head_of m r) [f] /\
  head_of m' r = head_of m r /\ tail_of m' r = tail_of m r /\ wait_of m' r = wait_of m r.
Proof using Hr.
  intros W Hb Hf E. unfold ring_fits in Hf. bool_prop. pose proof (frames_len_nonneg q).
  assert (rlen (zlen f) <= r_size r) as Hl' by lia. pose proof (rlen_bounds (zlen f) (zlen_nonneg _)).
  assert (forall off, 0 <= off -> off + 4 <= 132 -> load32 m' (r_ctrl r + off) = load32 m (r_ctrl r + off)) as EC.
  { intros off H1 H2. rewrite E. apply load32_ext. intros x Hx. apply push_data_frame; [done|done|].
    intros R%(ring_area_ctrl r Hr). unfold range in *. lia. }
  split_and!; try (by apply EC).
  - apply (ring_wf_proper_1 r Hr (push_data r m f)); [done|]. by apply push_data_wf.
  - pose proof (push_data_record r Hr m f Hl') as R. revert R.
    apply ring_holds_ext; [done|cbn [frames_len foldr]; lia|]. intros i _. symmetry. apply E.
Qed.

(** The store of the head: the record joins the queue. *)
Lemma publish_ring_spec m f q h :
  ring_wf m r q -> zlen f < 4294967288 -> ring_fits r f q = true -> h = head_of m r -> ring_holds m r h [f] ->
  let m' := store32 m (r_ctrl r + ESP_SHM_HEAD_OFF) (u32 (h + ESP_SHM_RECORD_LEN (zlen f))) in
  ring_wf m' r (q ++ [f]) /\ tail_of m' r = tail_of m r /\ wait_of m' r = wait_of m r.
Proof using Hr.
  intros W Hl Hf -> HR m'. unfold ring_fits in Hf. bool_prop. pose proof (zlen_nonneg f). split_and!.
  - unfold m'. rewrite RECORD_LEN_eq by lia. by apply publish_wf.
  - other_word.
  - other_word.
Qed.

(** The store of the tail: the first frame leaves the queue. *)
Lemma take_ring_spec m f q :
  ring_wf m r (f :: q) -> zlen f < 4294967288 ->
  let m' := store32 m (r_ctrl r + ESP_SHM_TAIL_OFF) (u32 (tail_of m r + ESP_SHM_RECORD_LEN (zlen f))) in
  ring_wf m' r q /\ head_of m' r = head_of m r /\ wait_of m' r = wait_of m r /\
  (forall pos g, rlen (zlen g) <= r_size r -> ring_holds m r pos [g] -> ring_holds m' r pos [g]).
Proof using Hr.
  intros W Hl m'. pose proof (wf_fit _ _ _ W) as Fit. cbn [frames_len foldr] in Fit.
  fold (frames_len q) in Fit. pose proof (frames_len_nonneg q). pose proof (zlen_nonneg f).
  pose proof (rlen_bounds (zlen f) ltac:(lia)). unfold m'. rewrite RECORD_LEN_eq by lia. split_and!.
  - by apply pop_mem_wf.
  - other_word.
  - other_word.
  - intros pos g Hg. apply ring_holds_ext; [done|cbn [frames_len foldr]; lia|].
    intros i _. symmetry. apply store_bytes_out. rewrite zlen_le32.
    pose proof (ring_area_ctrl r Hr _ (phys_range r (pos + i) Hr)).
    unfold range, ESP_SHM_TAIL_OFF in *. lia.
Qed.

Lemma ring_fits_take f g q : ring_fits r f (g :: q) = true -> ring_fits r f q = true.
Proof.
  unfold ring_fits. intros H%Z.leb_le. apply Z.leb_le. cbn [frames_len foldr] in H.
  fold (frames_len q) in H. pose proof (rlen_bounds (zlen g) (zlen_nonneg g)). llia.
Qed.

(** What a consumer sees: the length of the first frame, which passes its
    tests, for each head that the queue had since it was read. *)
Lemma first_len m f q1 q2 head :
  ring_wf m r ((f :: q1) ++ q2) -> zlen f < 4294967288 -> r_size r < 4294967296 ->
  head = u32 (tail_of m r + frames_len (f :: q1)) ->
  of_le (ring_copy_out m r (tail_of m r) 4) = zlen f /\
  ring_copy_out m r (u32 (tail_of m r + 4)) (zlen f) = f /\
  (ESP_SHM_RECORD_LEN (zlen f) >? u32 (head - tail_of m r)) = false.
Proof using Hr.
  intros W Hl Hs ->. pose proof (wf_fit _ _ _ W) as Fit. pose proof (frames_len_prefix (f :: q1) q2) as L.
  cbn [app] in *. destruct (wf_first r Hr m f (q1 ++ q2) W) as (E1 & E2 & _). split; [done|]. split; [done|].
  pose proof (zlen_nonneg f). pose proof (frames_len_nonneg (f :: q1)). rewrite RECORD_LEN_eq by lia. rewrite u32_sub_l, u32_small by lia.
  rewrite Z.gtb_ltb. apply Z.ltb_ge. cbn [frames_len foldr] in *. fold (frames_len q1) in *. pose proof (frames_len_nonneg q1). lia.
Qed.
End Steps.
