(* ===== verification/ShmHost.v ===== *)
(** The Linux side of the transport:
    linux/drivers/net/wireless/espressif/esp_hosted/esp_shm.c.

    The state is [struct esp_shm_context] with the memory of the block, the
    two doorbell registers, and a log of the calls into the driver core and
    the network stack, which are not part of this repository.  The functions
    here run without the firmware in between; ShmLink.v interleaves the two
    harts. *)

From S2P Require Import Prelude Mem Ring RingQueue.

(** Calls out of the driver, in order. *)
Inductive host_event :=
| EvTxPause (i : Z)           (** esp_tx_pause(priv[i]) *)
| EvTxResume (i : Z)          (** esp_tx_resume(priv[i]) *)
| EvRecovery                  (** esp_schedule_transport_recovery() *)
| EvNewPacket                 (** esp_process_new_packet_intr() *)
| EvFlashWake.                (** esp_shm_flash_wake() *)

(** A socket buffer: the address of its data, the data, and what
    [skb_is_nonlinear] and [skb_linearize] return for it. *)
Record sk_buff := Skb {
  skb_addr : Z; skb_data : list Z; skb_nonlinear : bool; skb_linearize_fails : bool }.
Definition skb_len (s : sk_buff) : Z := zlen (skb_data s).

Record ctx := Ctx {
  shm : mem;
  bell_to_fw : Z;             (** ESP_SHM_DOORBELL_TO_FW *)
  bell_to_host : Z;           (** ESP_SHM_DOORBELL_TO_HOST *)
  tx_queue : list sk_buff;
  running : bool;
  tx_quiesced : bool;
  tx_paused : bool;
  tx_work : bool;             (** the work item is scheduled *)
  events : list host_event }.

Definition set_shm (f : mem -> mem) (c : ctx) : ctx :=
  Ctx (f (shm c)) (bell_to_fw c) (bell_to_host c) (tx_queue c) (running c)
      (tx_quiesced c) (tx_paused c) (tx_work c) (events c).
Definition set_bell_to_fw (v : Z) (c : ctx) : ctx :=
  Ctx (shm c) v (bell_to_host c) (tx_queue c) (running c)
      (tx_quiesced c) (tx_paused c) (tx_work c) (events c).
Definition set_bell_to_host (v : Z) (c : ctx) : ctx :=
  Ctx (shm c) (bell_to_fw c) v (tx_queue c) (running c)
      (tx_quiesced c) (tx_paused c) (tx_work c) (events c).
Definition set_tx_queue (q : list sk_buff) (c : ctx) : ctx :=
  Ctx (shm c) (bell_to_fw c) (bell_to_host c) q (running c)
      (tx_quiesced c) (tx_paused c) (tx_work c) (events c).
Definition set_running (b : bool) (c : ctx) : ctx :=
  Ctx (shm c) (bell_to_fw c) (bell_to_host c) (tx_queue c) b
      (tx_quiesced c) (tx_paused c) (tx_work c) (events c).
Definition set_tx_quiesced (b : bool) (c : ctx) : ctx :=
  Ctx (shm c) (bell_to_fw c) (bell_to_host c) (tx_queue c) (running c)
      b (tx_paused c) (tx_work c) (events c).
Definition set_tx_paused (b : bool) (c : ctx) : ctx :=
  Ctx (shm c) (bell_to_fw c) (bell_to_host c) (tx_queue c) (running c)
      (tx_quiesced c) b (tx_work c) (events c).
Definition set_tx_work (b : bool) (c : ctx) : ctx :=
  Ctx (shm c) (bell_to_fw c) (bell_to_host c) (tx_queue c) (running c)
      (tx_quiesced c) (tx_paused c) b (events c).
Definition add_events (l : list host_event) (c : ctx) : ctx :=
  Ctx (shm c) (bell_to_fw c) (bell_to_host c) (tx_queue c) (running c)
      (tx_quiesced c) (tx_paused c) (tx_work c) (events c ++ l).

Definition ESP_SHM_TX_PAUSE : Z := 64.
Definition ESP_SHM_TX_RESUME : Z := 16.
Definition ESP_SHM_TX_QUEUE_MAX : Z := 256.

(** ** Doorbells and requests *)

Definition esp_shm_ring_firmware (c : ctx) : ctx := set_bell_to_fw 1 c.

Definition esp_shm_request_ready_replay (c : ctx) : ctx :=
  let req := load32 (shm c) (ESP_SHM_CTRL + ESP_SHM_HOST_REQ_OFF) in
  let c := set_shm (fun m => store32 m (ESP_SHM_CTRL + ESP_SHM_HOST_REQ_OFF)
                               (Z.lor req ESP_SHM_REQ_READY_REPLAY)) c in
  esp_shm_ring_firmware c.

(** ** To the firmware *)

(** One frame, and [*kick].  The address of the local [len] is aligned. *)
Definition esp_shm_push (m : mem) (skb : sk_buff) (kick : bool) : bool * mem * bool :=
  let head := head_of m to_fw in
  let tail := tail_of m to_fw in
  let need := ESP_SHM_RECORD_LEN (skb_len skb) in
  let len := skb_len skb in
  if need >? u32 (r_size to_fw - u32 (head - tail)) then (false, m, kick)
  else
    let m := host_copy_in m to_fw (u32 (head + 4)) (skb_addr skb) (skb_data skb) in
    let m := host_copy_in m to_fw head 0 (le32 len) in
    let m := store32 m (r_ctrl to_fw + ESP_SHM_HEAD_OFF) (u32 (head + need)) in
    (true, m, kick || (tail_of m to_fw =? head)).

Section Driver.
(** From the driver core and the device: the number of interfaces, and the
    size of struct esp_payload_header. *)
Context (ESP_MAX_INTERFACE : nat) (HDR : Z).

Definition esp_shm_tx_flow (c : ctx) (pause : bool) : ctx :=
  if Bool.eqb (tx_paused c) pause then c
  else
    add_events ((fun i => if pause then EvTxPause (Z.of_nat i) else EvTxResume (Z.of_nat i))
                  <$> seq 0 ESP_MAX_INTERFACE)
      (set_tx_paused pause c).

(** The loop of esp_shm_tx_flush(): the queue that is left, and [kick]. *)
Fixpoint tx_flush_loop (m : mem) (q : list sk_buff) (kick : bool)
    : mem * list sk_buff * bool :=
  match q with
  | [] => (m, [], kick)
  | skb :: q' =>
      let '(ok, m, kick) := esp_shm_push m skb kick in
      if ok then tx_flush_loop m q' kick
      else
        let m := store32 m (r_ctrl to_fw + ESP_SHM_WAIT_OFF) 1 in
        let '(ok, m, kick) := esp_shm_push m skb kick in
        if ok then tx_flush_loop m q' kick else (m, q, kick)
  end.

Definition esp_shm_tx_flush (c : ctx) : ctx :=
  if negb (running c) || tx_quiesced c then c
  else
    let '(m, q, kick) := tx_flush_loop (shm c) (tx_queue c) false in
    let c := set_tx_queue q (set_shm (fun _ => m) c) in
    let c := if zlen (tx_queue c) <=? ESP_SHM_TX_RESUME then esp_shm_tx_flow c false else c in
    if kick then esp_shm_ring_firmware c else c.

(** The work item runs: it is not scheduled any more. *)
Definition esp_shm_tx_work (c : ctx) : ctx := esp_shm_tx_flush (set_tx_work false c).

Definition esp_shm_tx_purge (c : ctx) : ctx := set_tx_queue [] c.

Definition esp_shm_irq (c : ctx) : ctx :=
  let c := set_bell_to_host 0 c in
  let c := add_events [EvNewPacket; EvFlashWake] c in
  match tx_queue c with [] => c | _ => set_tx_work true c end.

(** ** From the firmware *)

Definition esp_shm_rx_done (c : ctx) (tail : Z) : ctx :=
  let c := set_shm (fun m => store32 m (r_ctrl to_host + ESP_SHM_TAIL_OFF) tail) c in
  if nz (wait_of (shm c) to_host) then
    esp_shm_ring_firmware
      (set_shm (fun m => store32 m (r_ctrl to_host + ESP_SHM_WAIT_OFF) 0) c)
  else c.

(** The loop of esp_shm_read(): [allocs] says which of the allocations of
    esp_shm_alloc_skb() succeed; a frame without memory is dropped. *)
Fixpoint rx_loop (c : ctx) (tail : Z) (allocs : list bool) : option (list Z) * ctx :=
  let head := head_of (shm c) to_host in
  if head =? tail then (None, c)
  else
    let len := of_le (host_copy_out (shm c) to_host tail 4) in
    if (len <? HDR) || (len >? r_size to_host) ||
       (ESP_SHM_RECORD_LEN len >? u32 (head - tail))
    then
      let c := set_shm (fun m => store32 m (r_ctrl to_host + ESP_SHM_TAIL_OFF) head) c in
      (None, add_events [EvRecovery] c)
    else
      let frame := host_copy_out (shm c) to_host (u32 (tail + 4)) len in
      let tail' := u32 (tail + ESP_SHM_RECORD_LEN len) in
      match allocs with
      | false :: allocs => rx_loop (esp_shm_rx_done c tail') tail' allocs
      | _ => (Some frame, esp_shm_rx_done c tail')
      end.

(** [NULL] stands for no context. *)
Definition esp_shm_read (ctx : option ctx) (allocs : list bool)
    : option (list Z) * option ShmHost.ctx :=
  match ctx with
  | None => (None, None)
  | Some c =>
      if negb (running c) then (None, Some c)
      else
        let '(skb, c) := rx_loop c (tail_of (shm c) to_host) allocs in
        (skb, Some c)
  end.

(** ** esp_if_ops *)

(** [tx_aggr_size] is a field of the adapter. *)
Definition esp_shm_write (tx_aggr_size : Z) (ctx : option ctx) (skb : option sk_buff)
    : Z * option ShmHost.ctx :=
  match skb, ctx with
  | None, _ => (- EINVAL, ctx)
  | Some _, None => (- ENODEV, None)
  | Some skb, Some c =>
      if skb_len skb >? tx_aggr_size then (- EMSGSIZE, Some c)
      else if skb_nonlinear skb && skb_linearize_fails skb then (- ENOMEM, Some c)
      else if negb (running c) || tx_quiesced c then (- ENODEV, Some c)
      else if zlen (tx_queue c) >=? ESP_SHM_TX_QUEUE_MAX then (- EBUSY, Some c)
      else
        let c := set_tx_queue (tx_queue c ++ [skb]) c in
        let c := esp_shm_tx_flush c in
        let c := if zlen (tx_queue c) >=? ESP_SHM_TX_PAUSE then esp_shm_tx_flow c true else c in
        (0, Some c)
  end.

Definition esp_shm_set_tx_quiesced (c : ctx) (quiesced : bool) : ctx :=
  set_tx_quiesced quiesced c.

(** cancel_work_sync() takes the scheduled work back. *)
Definition esp_shm_quiesce_for_fw_reset (ctx : option ctx) : Z * option ShmHost.ctx :=
  match ctx with
  | None => (- ENODEV, None)
  | Some c =>
      let c := esp_shm_set_tx_quiesced c true in
      let c := set_tx_work false c in
      (0, Some (esp_shm_tx_purge c))
  end.

Definition esp_shm_reinit_after_fw_reset (ctx : option ctx) : Z * option ShmHost.ctx :=
  match ctx with
  | None => (- ENODEV, None)
  | Some c =>
      if negb (running c) then (- ENODEV, Some c)
      else (0, Some (set_tx_work true (esp_shm_set_tx_quiesced c false)))
  end.

Definition esp_shm_recover_transport (ctx : option ctx) : Z * option ShmHost.ctx :=
  match ctx with
  | None => (- ENODEV, None)
  | Some c =>
      if negb (running c) then (- ENODEV, Some c)
      else (0, Some (esp_shm_request_ready_replay c))
  end.

(** [mask] is BIT(ESP_OPEN_DATA_PATH) | BIT(ESP_CLOSE_DATA_PATH). *)
Definition generate_slave_intr (mask : Z) (ctx : option ctx) (data : Z) : Z * option ShmHost.ctx :=
  match ctx with
  | None => (- ENODEV, None)
  | Some c =>
      (0, Some (if nz (Z.land data mask) then esp_shm_request_ready_replay c else c))
  end.

(** The transport part of esp_shm_probe(): bind only to a firmware with this
    transport; the first receive follows at once. *)
Definition esp_shm_probe (adapter bound : bool) (m : mem) (irq irq_ret : Z) : Z * option ctx :=
  if negb adapter then (- ENODEV, None)
  else if bound then (- EBUSY, None)
  else if irq <? 0 then (irq, None)
  else if negb (load32 m (ESP_SHM_CTRL + ESP_SHM_MAGIC_OFF) =? ESP_SHM_MAGIC) ||
          negb (load32 m (ESP_SHM_CTRL + ESP_SHM_VERSION_OFF) =? ESP_SHM_VERSION)
  then (- ENODEV, None)
  else if nz irq_ret then (irq_ret, None)
  else (0, Some (Ctx m 0 0 [] true false false false [EvNewPacket])).

(** The transport part of esp_shm_remove(). *)
Definition esp_shm_remove (c : ctx) : ctx :=
  let c := set_tx_quiesced true c in
  let c := set_running false c in
  let c := set_tx_work false c in
  esp_shm_tx_purge c.
End Driver.

(** * One frame *)

(** What the network stack hands over: bytes, and a length that an unsigned
    int holds with the record header. *)
Definition skb_ok (s : sk_buff) : Prop := bytes (skb_data s) /\ skb_len s < 4294967288.

(** The record of [f] fits beside the records of [q]. *)
Definition fits (f : list Z) (q : list (list Z)) : bool :=
  rlen (zlen f) + frames_len q <=? r_size to_fw.

Lemma push_no_fit m skb kick q :
  ring_wf m to_fw q -> skb_ok skb -> fits (skb_data skb) q = false ->
  esp_shm_push m skb kick = (false, m, kick).
Proof.
  intros W [Hb Hl] Hf. unfold esp_shm_push. unfold skb_len in *.
  pose proof (zlen_nonneg (skb_data skb)). rewrite RECORD_LEN_eq by lia.
  pose proof (rlen_bounds (zlen (skb_data skb)) ltac:(lia)).
  rewrite (push_room to_fw to_fw_ok m q) by (done || lia).
  unfold fits in Hf. by rewrite Hf.
Qed.

Lemma push_fit m skb kick q :
  ring_wf m to_fw q -> skb_ok skb -> fits (skb_data skb) q = true ->
  exists m', esp_shm_push m skb kick = (true, m', kick || bool_decide (q = [])) /\
    mem_eq m' (push_mem to_fw m (skb_data skb)).
Proof.
  intros W [Hb Hl] Hf. unfold esp_shm_push, skb_len in *.
  pose proof (zlen_nonneg (skb_data skb)). rewrite RECORD_LEN_eq by lia.
  pose proof (rlen_bounds (zlen (skb_data skb)) ltac:(lia)).
  rewrite (push_room to_fw to_fw_ok m q) by (done || lia).
  unfold fits in Hf. rewrite Hf. cbn [negb].
  set (m2 := host_copy_in _ _ (head_of m to_fw) _ _).
  assert (mem_eq m2 (push_data to_fw m (skb_data skb))) as E2.
  { unfold m2, push_data. rewrite (host_copy_in_spec to_fw) by auto with port.
    apply ring_copy_in_proper; [|done..].
    rewrite (host_copy_in_spec to_fw) by auto with port.
    intros x. apply ring_copy_in_u32; [auto with port|]. pose proof (frames_len_nonneg q).
    apply Z.leb_le in Hf. lia. }
  eexists. split; [|unfold push_mem; by rewrite <- E2].
  f_equal. f_equal.
  set (m3 := store32 m2 _ _).
  assert (tail_of m3 to_fw = tail_of m to_fw) as ->.
  { transitivity (tail_of (push_data to_fw m (skb_data skb)) to_fw).
    - unfold m3, tail_of. rewrite load32_store32_ne by (right; done). by rewrite E2.
    - apply load32_ext. intros x Hx. apply push_data_frame; [auto with port| |].
      + apply Z.leb_le in Hf. pose proof (frames_len_nonneg q). lia.
      + intros R%(ring_area_ctrl to_fw to_fw_ok). apply R.
        unfold range, ESP_SHM_TAIL_OFF in *. lia. }
  by rewrite (wf_empty_iff to_fw to_fw_ok m q W).
Qed.

(** * The queue of the driver *)

(** What the loop of esp_shm_tx_flush() does on the queues: the ring and the
    driver's queue afterwards. *)
Fixpoint tx_spec (rq : list (list Z)) (q : list sk_buff) : list (list Z) * list sk_buff :=
  match q with
  | [] => (rq, [])
  | skb :: q' => if fits (skb_data skb) rq then tx_spec (rq ++ [skb_data skb]) q' else (rq, q)
  end.

Lemma tx_spec_split rq q :
  exists sent rest, q = sent ++ rest /\ tx_spec rq q = (rq ++ (skb_data <$> sent), rest) /\
    (forall skb rest', rest = skb :: rest' ->
       fits (skb_data skb) (rq ++ (skb_data <$> sent)) = false).
Proof.
  revert rq. induction q as [|s q IH]; intros rq.
  - exists [], []. cbn [tx_spec fmap list_fmap]. by rewrite !app_nil_r.
  - cbn [tx_spec]. destruct (fits (skb_data s) rq) eqn:F.
    + destruct (IH (rq ++ [skb_data s])) as (sent & rest & -> & E & Hf).
      exists (s :: sent), rest. cbn [fmap list_fmap app].
      rewrite E, <- app_assoc. split_and!; [done..|]. intros skb rest' Er.
      specialize (Hf skb rest' Er). by rewrite <- app_assoc in Hf.
    + exists [], (s :: q). cbn [fmap list_fmap]. rewrite app_nil_r. split_and!; [done..|].
      intros ? ? [= <- <-]. done.
Qed.

Definition sends (rq : list (list Z)) (q : list sk_buff) : bool :=
  match q with [] => false | skb :: _ => fits (skb_data skb) rq end.

(** The words that the transmit path writes. *)
Definition tx_area (x : Z) : Prop :=
  ring_area to_fw x \/ range (r_ctrl to_fw + ESP_SHM_WAIT_OFF) 4 x.

Lemma push_mem_outside m f x : fits f [] = true -> ~ ring_area to_fw x -> push_mem to_fw m f x = m x.
Proof.
  intros Hf. apply push_mem_frame; [auto with port|].
  unfold fits in Hf. apply Z.leb_le in Hf. simpl in Hf. simpl. lia.
Qed.
Lemma fits_nil f q : fits f q = true -> fits f [] = true.
Proof.
  unfold fits. intros H%Z.leb_le. apply Z.leb_le. pose proof (frames_len_nonneg q). simpl in *. lia.
Qed.

Lemma tx_flush_loop_spec q : forall m kick rq,
  ring_wf m to_fw rq -> Forall skb_ok q ->
  exists m', tx_flush_loop m q kick =
      (m', (tx_spec rq q).2, kick || (bool_decide (rq = []) && sends rq q)) /\
    ring_wf m' to_fw (tx_spec rq q).1 /\
    wait_of m' to_fw = match (tx_spec rq q).2 with [] => wait_of m to_fw | _ => 1 end /\
    agree (fun x => ~ tx_area x) m m'.
Proof.
  induction q as [|s q IH]; intros m kick rq W Hq.
  { exists m. simpl. rewrite andb_false_r, orb_false_r. split_and!; done. }
  inversion Hq as [|? ? Hs Hq']; subst. cbn [tx_flush_loop tx_spec sends].
  destruct (fits (skb_data s) rq) eqn:F.
  - destruct (push_fit m s kick rq W Hs F) as (m1 & -> & E).
    assert (ring_wf m1 to_fw (rq ++ [skb_data s])) as W1.
    { apply (ring_wf_proper_1 to_fw to_fw_ok (push_mem to_fw m (skb_data s))); [done|].
      apply push_mem_wf; [auto with port|done|apply Hs|]. by apply Z.leb_le. }
    destruct (IH m1 (kick || bool_decide (rq = [])) _ W1 Hq') as (m' & E' & W' & Ew & A).
    exists m'. split_and!; [|done| |].
    + rewrite E', andb_true_r. rewrite (bool_decide_false (_ ++ _ = _)).
      * by rewrite andb_false_l, orb_false_r.
      * by destruct rq.
    + rewrite Ew. destruct (tx_spec _ q).2; [|done].
      apply load32_ext. intros x Hx. rewrite E. apply push_mem_outside.
      * by apply fits_nil with rq.
      * intros Hr. by apply (wait_outside to_fw to_fw_ok x).
    + intros x Hx. rewrite <- A by done. rewrite E. symmetry. apply push_mem_outside.
      * by apply fits_nil with rq.
      * intros Hr. apply Hx. by left.
  - rewrite (push_no_fit m s kick rq W Hs F).
    pose proof (ring_wf_store_wait to_fw m rq 1 to_fw_ok W) as W1.
    rewrite (push_no_fit _ s kick rq W1 Hs F).
    eexists. split_and!; [by rewrite andb_false_r, orb_false_r|done| |].
    + unfold wait_of. cbn [tx_spec snd]. by rewrite load32_store32.
    + intros x Hx. symmetry. apply store_bytes_out. rewrite zlen_le32.
      intros R. apply Hx. by right.
Qed.

(** * From the firmware *)

(** The words that the receive path writes. *)
Definition rx_area (x : Z) : Prop :=
  range (r_ctrl to_host + ESP_SHM_TAIL_OFF) 4 x \/ range (r_ctrl to_host + ESP_SHM_WAIT_OFF) 4 x.

Lemma store_rx_area m a v x :
  a = r_ctrl to_host + ESP_SHM_TAIL_OFF \/ a = r_ctrl to_host + ESP_SHM_WAIT_OFF ->
  ~ rx_area x -> store32 m a v x = m x.
Proof.
  intros Ha Hx. apply store_bytes_out. rewrite zlen_le32. intros R. apply Hx.
  destruct Ha as [-> | ->]; [by left|by right].
Qed.

Lemma rx_done_frame c tail :
  let c' := esp_shm_rx_done c tail in
  tx_queue c' = tx_queue c /\ running c' = running c /\ tx_quiesced c' = tx_quiesced c /\
  tx_paused c' = tx_paused c /\ tx_work c' = tx_work c /\ events c' = events c /\
  bell_to_host c' = bell_to_host c /\
  agree (fun x => ~ rx_area x) (shm c) (shm c').
Proof.
  unfold esp_shm_rx_done. cbn zeta. if_goal; cbn; split_and!; try done; intros x Hx; symmetry.
  - rewrite store_rx_area, store_rx_area by tauto. done.
  - by apply store_rx_area; [left|].
Qed.

Lemma rx_done_words c tail :
  let c' := esp_shm_rx_done c tail in
  head_of (shm c') to_host = head_of (shm c) to_host /\
  tail_of (shm c') to_host = u32 tail /\
  wait_of (shm c') to_host = 0 /\
  bell_to_fw c' = (if nz (wait_of (shm c) to_host) then 1 else bell_to_fw c) /\
  (mem_ok (shm c) -> mem_ok (shm c')).
Proof.
  unfold esp_shm_rx_done. cbn zeta. cbn [shm set_shm].
  assert (forall v, wait_of (store32 (shm c) (r_ctrl to_host + ESP_SHM_TAIL_OFF) v) to_host =
    wait_of (shm c) to_host) as Ew.
  { intros. apply load32_store32_ne. right. done. }
  rewrite Ew. unfold head_of, tail_of.
  destruct (nz (wait_of (shm c) to_host)) eqn:E; cbn.
  - unfold wait_of. split_and!; [| | |done|auto using mem_ok_store32].
    + by rewrite !load32_store32_ne by (left; done).
    + rewrite load32_store32_ne by (left; done). apply load32_store32.
    + by rewrite load32_store32.
  - apply nz_false in E. split_and!; [| | |done|auto using mem_ok_store32].
    + by rewrite !load32_store32_ne by (left; done).
    + apply load32_store32.
    + unfold wait_of in *. by rewrite load32_store32_ne by (right; done).
Qed.

Lemma rx_done_pop c f q :
  ring_wf (shm c) to_host (f :: q) ->
  ring_wf (shm (esp_shm_rx_done c (u32 (tail_of (shm c) to_host + rlen (zlen f))))) to_host q.
Proof.
  intros W. pose proof (pop_mem_wf to_host to_host_ok _ _ _ W) as W'.
  apply (ring_wf_agree to_host to_host_ok (pop_mem to_host (shm c) (rlen (zlen f)))); [| |done].
  - intros x Hx. unfold esp_shm_rx_done. cbn [shm set_shm]. if_goal; cbn [shm set_shm]; [|done].
    symmetry. apply store_bytes_out. rewrite zlen_le32.
    exact (wait_outside to_host to_host_ok x Hx).
  - apply rx_done_words, W.
Qed.

Section Receive.
Context (HDR : Z) (HDR_pos : 0 <= HDR).

(** What the firmware sends: at least the payload header. *)
Definition frame_ok (f : list Z) : Prop := HDR <= zlen f <= r_size to_host.

Fixpoint rx_spec (q : list (list Z)) (allocs : list bool) : option (list Z) * list (list Z) :=
  match q with
  | [] => (None, [])
  | f :: q => match allocs with false :: allocs => rx_spec q allocs | _ => (Some f, q) end
  end.

Lemma rx_loop_head c f q allocs :
  ring_wf (shm c) to_host (f :: q) -> frame_ok f ->
  let tail := tail_of (shm c) to_host in
  let tail' := u32 (tail + rlen (zlen f)) in
  rx_loop HDR c tail allocs =
    match allocs with
    | false :: allocs => rx_loop HDR (esp_shm_rx_done c tail') tail' allocs
    | _ => (Some f, esp_shm_rx_done c tail')
    end.
Proof.
  intros W Hf tail tail'. pose proof (wf_mem _ _ _ W) as M. unfold frame_ok in Hf.
  pose proof (zlen_nonneg f).
  destruct (wf_first to_host to_host_ok _ f q W) as (E1 & E2 & E3).
  pose proof (wf_empty_iff to_host to_host_ok _ _ W) as E4.
  rewrite bool_decide_false in E4 by done. rewrite Z.eqb_sym in E4.
  pose proof (ring_size_bounds to_host to_host_ok) as B.
  destruct allocs as [|a allocs]; cbn [rx_loop]; fold tail in E1, E2, E3, E4 |- *; rewrite E4;
    rewrite (host_copy_out_spec to_host) by (done || lia || auto with port);
    rewrite E1, RECORD_LEN_eq by lia;
    (destruct (_ || _ || _) eqn:F; [exfalso; repeat (apply orb_true_iff in F as [F|F]); bool_prop; lia|]);
    rewrite (host_copy_out_spec to_host) by (done || lia || auto with port);
    rewrite E2; try done; by destruct a.
Qed.

Lemma rx_loop_empty c allocs :
  ring_wf (shm c) to_host [] -> rx_loop HDR c (tail_of (shm c) to_host) allocs = (None, c).
Proof.
  intros W. pose proof (wf_empty_iff to_host to_host_ok _ _ W) as E.
  rewrite bool_decide_true in E by done. rewrite Z.eqb_sym in E.
  destruct allocs; cbn [rx_loop]; by rewrite E.
Qed.

(** The rest of the context that a read keeps. *)
Definition rx_keeps (c c' : ctx) : Prop :=
  tx_queue c' = tx_queue c /\ running c' = running c /\ tx_quiesced c' = tx_quiesced c /\
  tx_paused c' = tx_paused c /\ tx_work c' = tx_work c /\
  agree (fun x => ~ rx_area x) (shm c) (shm c').

Lemma rx_keeps_refl c : rx_keeps c c.
Proof. done. Qed.
Lemma rx_keeps_trans c1 c2 c3 : rx_keeps c1 c2 -> rx_keeps c2 c3 -> rx_keeps c1 c3.
Proof.
  intros (?&?&?&?&?&?) (?&?&?&?&?&?). unfold rx_keeps. split_and!; try congruence.
  by transitivity (shm c2).
Qed.
Lemma rx_keeps_done c tail : rx_keeps c (esp_shm_rx_done c tail).
Proof. destruct (rx_done_frame c tail) as (?&?&?&?&?&?&?&?). done. Qed.

Lemma rx_loop_spec q : forall c allocs,
  ring_wf (shm c) to_host q -> Forall frame_ok q ->
  exists c', rx_loop HDR c (tail_of (shm c) to_host) allocs = ((rx_spec q allocs).1, c') /\
    ring_wf (shm c') to_host (rx_spec q allocs).2 /\
    events c' = events c /\ rx_keeps c c' /\
    (q <> [] -> wait_of (shm c') to_host = 0) /\
    bell_to_fw c' = (if nz (wait_of (shm c) to_host) && negb (bool_decide (q = []))
                     then 1 else bell_to_fw c).
Proof.
  induction q as [|f q IH]; intros c allocs W Hq.
  { rewrite rx_loop_empty by done. exists c. simpl. rewrite andb_false_r.
    split_and!; done. }
  inversion Hq as [|? ? Hf Hq']; subst. rewrite (rx_loop_head c f q allocs W Hf).
  pose proof (rx_done_pop c f q W) as W'.
  set (t := u32 _) in *. set (c1 := esp_shm_rx_done c t) in *.
  destruct (rx_done_words c t) as (E1 & E2 & E3 & E4 & E5). fold c1 in E1, E2, E3, E4, E5.
  assert (events c1 = events c) as Ev by apply rx_done_frame.
  pose proof (rx_keeps_done c t) as K. fold c1 in K.
  rewrite bool_decide_false, andb_true_r by done.
  destruct allocs as [|[] allocs]; cbn [rx_spec]; try by (exists c1; split_and!).
  destruct (IH c1 allocs W' Hq') as (c' & E & W2 & Ev2 & K2 & Ww & Wb).
  rewrite E2, (u32_small t) in E by (unfold t; apply u32_range).
  exists c'. split_and!; try done.
  - congruence.
  - by apply rx_keeps_trans with c1.
  - intros _. destruct q; [|by apply Ww]. pose proof (rx_loop_empty c1 allocs W') as E0.
    rewrite E2, (u32_small t) in E0 by (unfold t; apply u32_range). congruence.
  - rewrite Wb, E3, <- E4. done.
Qed.
End Receive.

Lemma host_copy_out_bytes m r pos len : ring_ok r -> mem_ok m -> 0 <= len ->
  bytes (host_copy_out m r pos len) /\ zlen (host_copy_out m r pos len) = len.
Proof.
  intros Hr M Hl. rewrite host_copy_out_spec by done. split; [|by apply zlen_ring_copy_out].
  unfold ring_copy_out. apply bytes_app. split; by apply load_bytes_bytes.
Qed.

(** Whatever the shared memory holds. *)
Lemma rx_loop_any HDR : 0 <= HDR -> forall allocs c,
  mem_ok (shm c) ->
  let '(r, c') := rx_loop HDR c (tail_of (shm c) to_host) allocs in
  (forall f, r = Some f -> bytes f /\ HDR <= zlen f <= r_size to_host) /\
  (r = None -> tail_of (shm c') to_host = head_of (shm c') to_host) /\
  (events c' = events c \/ r = None /\ events c' = events c ++ [EvRecovery]) /\
  rx_keeps c c'.
Proof.
  intros H0. induction allocs as [|a allocs IH]; intros c M; cbn [rx_loop].
  all: set (t := tail_of (shm c) to_host).
  all: destruct (head_of (shm c) to_host =? t) eqn:E; bool_prop;
    [by split_and!; try (by left); intros|].
  all: destruct (host_copy_out_bytes (shm c) to_host t 4 to_host_ok M ltac:(lia)) as [B4 L4].
  all: pose proof (of_le_bound _ B4) as Hlen; rewrite L4 in Hlen.
  all: set (len := of_le _) in *.
  all: destruct (_ || _ || _) eqn:F.
  all: try (split_and!; cbn; try done; [|by right|];
    [intros _; unfold tail_of, head_of; rewrite load32_store32, load32_store32_ne by (left; done);
     apply u32_small, load32_range, M
    |unfold rx_keeps; split_and!; try done; intros x Hx; symmetry; by apply store_rx_area; [left|]]).
  all: repeat (apply orb_false_elim in F as [F ?]); bool_prop.
  all: destruct (host_copy_out_bytes (shm c) to_host (u32 (t + 4)) len to_host_ok M ltac:(lia)) as [Bf Lf].
  all: set (t' := u32 (t + ESP_SHM_RECORD_LEN len)).
  all: destruct (rx_done_words c t') as (E1 & E2 & E3 & E4 & E5).
  all: pose proof (rx_done_frame c t') as K; cbn zeta in K; destruct K as (_&_&_&_&_&Ev&_&_).
  1: { split_and!; [|done|by left|apply rx_keeps_done].
       intros f [= <-]. split; [done|]. lia. }
  destruct a.
  { split_and!; [|done|by left|apply rx_keeps_done].
    intros f [= <-]. split; [done|]. lia. }
  specialize (IH (esp_shm_rx_done c t') (E5 M)).
  rewrite E2, (u32_small t') in IH by (unfold t'; apply u32_range).
  destruct (rx_loop _ _ _ allocs) as [r c']. destruct IH as (I1 & I2 & I3 & I4).
  rewrite Ev in I3. split_and!; try done. eapply rx_keeps_trans; [apply rx_keeps_done|done].
Qed.

(** * Flow control *)

Section Flow.
Context (ESP_MAX_INTERFACE : nat) (HDR mask : Z).

(** Everything that can happen to the driver; [OpFirmware] is anything that
    the other hart does to the shared memory and the doorbells. *)
Inductive host_op :=
| OpWrite (tx_aggr_size : Z) (skb : sk_buff)
| OpWork
| OpIrq
| OpRead (allocs : list bool)
| OpQuiesce
| OpReinit
| OpRecover
| OpIntr (data : Z)
| OpRemove
| OpFirmware (m : mem) (to_fw_bell to_host_bell : Z).

Definition host_step (c : ctx) (op : host_op) : ctx :=
  match op with
  | OpWrite n skb => default c (esp_shm_write ESP_MAX_INTERFACE n (Some c) (Some skb)).2
  | OpWork => if tx_work c then esp_shm_tx_work ESP_MAX_INTERFACE c else c
  | OpIrq => esp_shm_irq c
  | OpRead allocs => default c (esp_shm_read HDR (Some c) allocs).2
  | OpQuiesce => default c (esp_shm_quiesce_for_fw_reset (Some c)).2
  | OpReinit => default c (esp_shm_reinit_after_fw_reset (Some c)).2
  | OpRecover => default c (esp_shm_recover_transport (Some c)).2
  | OpIntr data => default c (generate_slave_intr mask (Some c) data).2
  | OpRemove => esp_shm_remove c
  | OpFirmware m b1 b2 => set_bell_to_host b2 (set_bell_to_fw b1 (set_shm (fun _ => m) c))
  end.

(** The state of the net queue of interface [i] after the calls. *)
Definition iface_paused (i : Z) (l : list host_event) : bool :=
  foldl (fun b e => match e with
                    | EvTxPause j => if i =? j then true else b
                    | EvTxResume j => if i =? j then false else b
                    | _ => b
                    end) false l.

Record tx_ok (c : ctx) : Prop := {
  ok_bound : zlen (tx_queue c) <= ESP_SHM_TX_QUEUE_MAX;
  ok_pause : ESP_SHM_TX_PAUSE <= zlen (tx_queue c) -> tx_paused c = true;
  ok_resume : tx_paused c = true -> running c = true -> tx_quiesced c = false ->
    tx_work c = true \/ ESP_SHM_TX_RESUME < zlen (tx_queue c);
  ok_off : running c = false \/ tx_quiesced c = true -> tx_queue c = [];
  ok_ifaces : forall i, 0 <= i < Z.of_nat ESP_MAX_INTERFACE ->
    iface_paused i (events c) = tx_paused c;
}.

Lemma iface_paused_app i l k :
  iface_paused i (l ++ k) =
  foldl (fun b e => match e with
                    | EvTxPause j => if i =? j then true else b
                    | EvTxResume j => if i =? j then false else b
                    | _ => b
                    end) (iface_paused i l) k.
Proof. apply foldl_app. Qed.

Lemma iface_paused_flow i l (p : bool) a n :
  iface_paused i (l ++ ((fun i => if p then EvTxPause (Z.of_nat i) else EvTxResume (Z.of_nat i))
                          <$> seq a n)) =
  if (Z.of_nat a <=? i) && (i <? Z.of_nat (a + n)) then p else iface_paused i l.
Proof.
  revert l a. induction n as [|n IH]; intros l a.
  { cbn [seq fmap list_fmap]. rewrite app_nil_r. if_goal; [lia|done]. }
  cbn [seq fmap list_fmap]. rewrite cons_middle, app_assoc, IH, iface_paused_app.
  destruct (Z.leb_spec (Z.of_nat (S a)) i), (Z.ltb_spec i (Z.of_nat (S a + n))),
    (Z.leb_spec (Z.of_nat a) i), (Z.ltb_spec i (Z.of_nat (a + S n))); cbn [andb]; try lia;
    destruct p; cbn; destruct (Z.eqb_spec i (Z.of_nat a)); done || lia.
Qed.

Lemma tx_flow_ifaces c p :
  (forall i, 0 <= i < Z.of_nat ESP_MAX_INTERFACE -> iface_paused i (events c) = tx_paused c) ->
  let c' := esp_shm_tx_flow ESP_MAX_INTERFACE c p in
  tx_paused c' = p /\ tx_queue c' = tx_queue c /\ running c' = running c /\
  tx_quiesced c' = tx_quiesced c /\ tx_work c' = tx_work c /\ shm c' = shm c /\
  bell_to_fw c' = bell_to_fw c /\
  (forall i, 0 <= i < Z.of_nat ESP_MAX_INTERFACE -> iface_paused i (events c') = p).
Proof.
  intros H. unfold esp_shm_tx_flow. cbn zeta.
  destruct (Bool.eqb (tx_paused c) p) eqn:E.
  - apply eqb_prop in E. subst p. split_and!; done.
  - split_and!; try done. intros i Hi. cbn [add_events events set_tx_paused].
    rewrite iface_paused_flow. rewrite (proj2 (andb_true_iff _ _)); [done|].
    split; [apply Z.leb_le|apply Z.ltb_lt]; lia.
Qed.

Lemma tx_flush_loop_len q : forall m kick, zlen (tx_flush_loop m q kick).1.2 <= zlen q.
Proof.
  induction q as [|s q IH]; intros m kick; cbn [tx_flush_loop]; [done|].
  destruct (esp_shm_push m s kick) as [[ok m1] k1]. destruct ok.
  { specialize (IH m1 k1). llia. }
  destruct (esp_shm_push _ s k1) as [[ok m2] k2]. destruct ok; [|done].
  specialize (IH m2 k2). llia.
Qed.

Lemma tx_flush_flow c :
  (forall i, 0 <= i < Z.of_nat ESP_MAX_INTERFACE -> iface_paused i (events c) = tx_paused c) ->
  let c' := esp_shm_tx_flush ESP_MAX_INTERFACE c in
  zlen (tx_queue c') <= zlen (tx_queue c) /\
  running c' = running c /\ tx_quiesced c' = tx_quiesced c /\ tx_work c' = tx_work c /\
  (running c = true -> tx_quiesced c = false ->
     tx_paused c' = (tx_paused c && (ESP_SHM_TX_RESUME <? zlen (tx_queue c')))) /\
  (running c = false \/ tx_quiesced c = true -> c' = c) /\
  (forall i, 0 <= i < Z.of_nat ESP_MAX_INTERFACE -> iface_paused i (events c') = tx_paused c').
Proof.
  intros H. unfold esp_shm_tx_flush. cbn zeta.
  destruct (negb (running c) || tx_quiesced c) eqn:G.
  { split_and!; try done. intros R Q. rewrite R, Q in G. done. }
  bool_prop. pose proof (tx_flush_loop_len (tx_queue c) (shm c) false) as L.
  destruct (tx_flush_loop _ _ _) as [[m q] kick]. cbn in L.
  set (c1 := set_tx_queue q (set_shm (fun _ => m) c)).
  assert (forall c2 : ctx, (forall i, 0 <= i < Z.of_nat ESP_MAX_INTERFACE ->
     iface_paused i (events c2) = tx_paused c2) ->
     tx_queue c2 = q -> running c2 = running c -> tx_quiesced c2 = tx_quiesced c ->
     tx_work c2 = tx_work c ->
     tx_paused c2 = (tx_paused c && (ESP_SHM_TX_RESUME <? zlen q)) ->
     let c' := if kick then esp_shm_ring_firmware c2 else c2 in
     zlen (tx_queue c') <= zlen (tx_queue c) /\
     running c' = running c /\ tx_quiesced c' = tx_quiesced c /\ tx_work c' = tx_work c /\
     (running c = true -> tx_quiesced c = false ->
       tx_paused c' = (tx_paused c && (ESP_SHM_TX_RESUME <? zlen (tx_queue c')))) /\
     (running c = false \/ tx_quiesced c = true -> c' = c) /\
     (forall i, 0 <= i < Z.of_nat ESP_MAX_INTERFACE ->
       iface_paused i (events c') = tx_paused c')) as X.
  { intros c2 Hi <- ? ? ? ?. destruct kick; cbn; split_and!; try done; intros [?|?]; congruence. }
  change (tx_queue c1) with q. destruct (Z.leb_spec (zlen q) ESP_SHM_TX_RESUME).
  - destruct (tx_flow_ifaces c1 false H) as (E1 & E2 & E3 & E4 & E5 & E6 & E7 & E8).
    apply X; try done. { intros i Hi. rewrite E1. by apply E8. }
    rewrite E1. rewrite (proj2 (Z.ltb_ge _ _)) by lia. by rewrite andb_false_r.
  - apply X; try done. cbn. rewrite (proj2 (Z.ltb_lt _ _)) by lia. by rewrite andb_true_r.
Qed.
End Flow.

Section FlowInvariant.
Context (ESP_MAX_INTERFACE : nat) (HDR mask : Z).

Abbreviation tx_ok := (tx_ok ESP_MAX_INTERFACE).
Abbreviation host_step := (host_step ESP_MAX_INTERFACE HDR mask).

(** Operations that do not touch the queue and the flow state. *)
Lemma tx_ok_same c c' :
  tx_ok c -> tx_queue c' = tx_queue c -> running c' = running c ->
  tx_quiesced c' = tx_quiesced c -> tx_paused c' = tx_paused c ->
  (tx_work c = true -> tx_work c' = true) ->
  (forall i, iface_paused i (events c') = iface_paused i (events c)) -> tx_ok c'.
Proof.
  intros [B P R O I] Eq Er Ez Ep Ew Ei. split; rewrite ?Eq, ?Er, ?Ez, ?Ep; try done.
  - intros ? ? ?. destruct R; auto.
  - intros i Hi. rewrite Ei. by apply I.
Qed.

Lemma tx_ok_flush c :
  zlen (tx_queue c) <= ESP_SHM_TX_QUEUE_MAX ->
  (running c = false \/ tx_quiesced c = true -> tx_queue c = []) ->
  (forall i, 0 <= i < Z.of_nat ESP_MAX_INTERFACE -> iface_paused i (events c) = tx_paused c) ->
  (ESP_SHM_TX_PAUSE <= zlen (tx_queue (esp_shm_tx_flush ESP_MAX_INTERFACE c)) ->
     tx_paused c = true) ->
  tx_ok (esp_shm_tx_flush ESP_MAX_INTERFACE c).
Proof.
  intros B O I P. destruct (tx_flush_flow ESP_MAX_INTERFACE c I) as (E1&E2&E3&E4&E5&E6&E7).
  unfold ESP_SHM_TX_PAUSE, ESP_SHM_TX_RESUME in *.
  split; try done.
  - lia.
  - intros L. specialize (P L). destruct (running c) eqn:R; [destruct (tx_quiesced c) eqn:Q|].
    + rewrite E6 in * by tauto. done.
    + rewrite E5 by done. rewrite P. apply Z.ltb_lt. unfold ESP_SHM_TX_PAUSE in *. lia.
    + rewrite E6 in * by tauto. done.
  - rewrite E2, E3. intros Hp R Q. rewrite E5 in Hp by done. bool_prop. right. done.
  - rewrite E2, E3. intros H. rewrite E6 by done. by apply O.
Qed.

Lemma tx_ok_write c n skb :
  tx_ok c -> tx_ok (default c (esp_shm_write ESP_MAX_INTERFACE n (Some c) (Some skb)).2).
Proof.
  intros K. cbn [esp_shm_write]. repeat (if_goal; [exact K|]).
  bool_prop. set (c1 := set_tx_queue _ c). cbn [snd default].
  destruct K as [B P R O I].
  destruct (tx_flush_flow ESP_MAX_INTERFACE c1 I) as (E1&E2&E3&E4&E5&E6&E7).
  assert (zlen (tx_queue c1) <= ESP_SHM_TX_QUEUE_MAX) as B1.
  { cbn. unfold ESP_SHM_TX_QUEUE_MAX in *. llia. }
  set (c2 := esp_shm_tx_flush _ c1) in *.
  destruct (Z.geb_spec (zlen (tx_queue c2)) ESP_SHM_TX_PAUSE) as [G|G]; cbn [default].
  - destruct (tx_flow_ifaces ESP_MAX_INTERFACE c2 true E7) as (F1&F2&F3&F4&F5&F6&F7&F8).
    unfold id. split; rewrite ?F1, ?F2, ?F3, ?F4, ?F5; try done.
    + lia.
    + intros _ _ _. right. unfold ESP_SHM_TX_PAUSE, ESP_SHM_TX_RESUME in *. lia.
    + rewrite E2, E3. cbn. intros [?|?]; congruence.
  - unfold id. apply tx_ok_flush; try done.
    + intros [?|?]; cbn in *; congruence.
    + intros L. fold c2 in L. lia.
Qed.

(** Reading leaves the side to the firmware alone. *)
Lemma rx_loop_keeps h : forall allocs c t r c', rx_loop h c t allocs = (r, c') ->
  tx_queue c' = tx_queue c /\ running c' = running c /\ tx_quiesced c' = tx_quiesced c /\
  tx_paused c' = tx_paused c /\ tx_work c' = tx_work c /\
  (forall i, iface_paused i (events c') = iface_paused i (events c)).
Proof.
  intros allocs. induction allocs as [|a allocs IH]; intros c t r c'; cbn [rx_loop].
  all: destruct (_ =? t); [intros [= <- <-]; by split_and!|].
  all: destruct (_ || _ || _);
    [intros [= <- <-]; split_and!; try done; intros i; apply iface_paused_app|].
  all: destruct (rx_done_frame c (u32 (t + ESP_SHM_RECORD_LEN
    (of_le (host_copy_out (shm c) to_host t 4))))) as (K1&K2&K3&K4&K5&K6&_).
  2: destruct a.
  1,2: intros [= <- <-]; rewrite K6; by split_and!.
  intros E. destruct (IH _ _ _ _ E) as (?&?&?&?&?&Hi).
  split_and!; congruence.
Qed.

Lemma tx_ok_step c op : tx_ok c -> tx_ok (host_step c op).
Proof.
  intros K. pose proof K as [B P R O I]. destruct op; cbn [host_step].
  - by apply tx_ok_write.
  - destruct (tx_work c); [|done]. unfold esp_shm_tx_work. apply tx_ok_flush; try done.
    intros L. apply P. cbn in L.
    pose proof (tx_flush_flow ESP_MAX_INTERFACE (set_tx_work false c) I) as (E&_).
    cbn in E. lia.
  - unfold esp_shm_irq. cbn zeta.
    assert (forall i, iface_paused i (events c ++ [EvNewPacket; EvFlashWake]) =
                      iface_paused i (events c)) as E by (intros; apply iface_paused_app).
    apply (tx_ok_same c); try done; destruct (tx_queue c) eqn:Eq; cbn; rewrite ?Eq; done.
  - unfold esp_shm_read. destruct (negb (running c)); [done|].
    destruct (rx_loop HDR c (tail_of (shm c) to_host) allocs) as [r c'] eqn:E.
    cbn [snd default id].
    destruct (rx_loop_keeps HDR _ _ _ _ _ E) as (?&?&?&?&Ew&?). apply (tx_ok_same c); try done. congruence.
  - by split.
  - unfold esp_shm_reinit_after_fw_reset. destruct (negb (running c)) eqn:Er; [done|].
    split; try done; cbn; [by left|]. bool_prop. intros [?|?]; congruence.
  - unfold esp_shm_recover_transport. destruct (negb (running c)); [done|].
    by apply (tx_ok_same c).
  - unfold generate_slave_intr. destruct (nz _); [|done]. by apply (tx_ok_same c).
  - by split.
  - by apply (tx_ok_same c).
Qed.

Lemma tx_ok_probe m irq c :
  esp_shm_probe true false m irq 0 = (0, Some c) -> tx_ok c.
Proof.
  unfold esp_shm_probe. cbn. destruct (irq <? 0); [intros [= _ ?]; done|].
  if_goal; [done|]. intros [= <-]. by split.
Qed.
End FlowInvariant.

(** The end of esp_shm_tx_flush(). *)
Lemma flush_fields n c m q (kick : bool) :
  let c1 := set_tx_queue q (set_shm (fun _ => m) c) in
  let c2 := if zlen (tx_queue c1) <=? ESP_SHM_TX_RESUME then esp_shm_tx_flow n c1 false else c1 in
  let c3 := if kick then esp_shm_ring_firmware c2 else c2 in
  tx_queue c3 = q /\ shm c3 = m /\
  bell_to_fw c3 = (if kick then 1 else bell_to_fw c) /\
  tx_paused c3 = (tx_paused c && (ESP_SHM_TX_RESUME <? zlen q)) /\
  tx_work c3 = tx_work c /\ bell_to_host c3 = bell_to_host c.
Proof.
  cbn zeta. cbn [tx_queue set_tx_queue set_shm]. unfold esp_shm_tx_flow.
  cbn [tx_paused set_tx_queue set_shm].
  destruct (Z.leb_spec (zlen q) ESP_SHM_TX_RESUME) as [L|L].
  - rewrite (proj2 (Z.ltb_ge _ _) L), andb_false_r.
    destruct (tx_paused c) eqn:P; destruct kick; cbn; by rewrite ?P.
  - rewrite (proj2 (Z.ltb_lt _ _) L), andb_true_r. by destruct kick.
Qed.

(** * Properties *)

(** C6: esp_shm_push() implements a bounded queue.  On a ring that holds the
    frames [q], it accepts the frame exactly when its record fits beside
    theirs; then the ring holds [q] followed by the frame, and the doorbell is
    due exactly when the firmware had read everything.  Otherwise nothing
    changes.  Only the data and the index words of the ring are written. *)
Theorem esp_shm_push_correct m skb kick q :
  ring_wf m to_fw q -> skb_ok skb ->
  let '(ok, m', kick') := esp_shm_push m skb kick in
  ok = (rlen (skb_len skb) + frames_len q <=? ESP_SHM_TO_FW_SIZE) /\
  ring_wf m' to_fw (if ok then q ++ [skb_data skb] else q) /\
  kick' = (kick || (ok && bool_decide (q = []))) /\
  agree (fun x => ~ ring_area to_fw x) m m'.
Proof.
  intros W Hs. destruct (fits (skb_data skb) q) eqn:F.
  - destruct (push_fit m skb kick q W Hs F) as (m' & -> & E). unfold fits in F.
    split_and!; [done| |done|].
    + apply (ring_wf_proper_1 to_fw to_fw_ok (push_mem to_fw m (skb_data skb))); [done|].
      apply push_mem_wf; [auto with port|done|apply Hs|]. by apply Z.leb_le.
    + intros x Hx. rewrite E. symmetry. apply push_mem_outside; [by apply fits_nil with q|done].
  - rewrite (push_no_fit m skb kick q W Hs F). unfold fits in F.
    split_and!; [done..| |done]. by rewrite orb_false_r.
Qed.

(** Esp_shm_tx_flush() moves the longest prefix of the driver's queue that
    fits into the ring, in order.  It leaves the wait flag set when a frame is
    left, lets the net queues run when at most ESP_SHM_TX_RESUME frames are
    left, and rings the firmware exactly when the ring was empty before and is
    not empty now; the rest of the shared memory is not written. *)
Theorem esp_shm_tx_flush_correct n c rq :
  running c = true -> tx_quiesced c = false ->
  ring_wf (shm c) to_fw rq -> Forall skb_ok (tx_queue c) ->
  exists sent rest,
    let c' := esp_shm_tx_flush n c in
    tx_queue c = sent ++ rest /\
    tx_queue c' = rest /\
    ring_wf (shm c') to_fw (rq ++ (skb_data <$> sent)) /\
    match rest with
    | [] => wait_of (shm c') to_fw = wait_of (shm c) to_fw
    | skb :: _ => wait_of (shm c') to_fw = 1 /\
        frames_len (rq ++ (skb_data <$> sent)) + rlen (skb_len skb) > ESP_SHM_TO_FW_SIZE
    end /\
    bell_to_fw c' =
      (if bool_decide (rq = []) && negb (bool_decide (sent = [])) then 1 else bell_to_fw c) /\
    tx_paused c' = (tx_paused c && (ESP_SHM_TX_RESUME <? zlen rest)) /\
    agree (fun x => ~ tx_area x) (shm c) (shm c').
Proof.
  intros R Q W Hq. unfold esp_shm_tx_flush. rewrite R, Q. cbn [negb orb].
  destruct (tx_flush_loop_spec (tx_queue c) (shm c) false rq W Hq) as (m' & -> & W' & Ew & A).
  destruct (tx_spec_split rq (tx_queue c)) as (sent & rest & Eq & Es & Hf).
  rewrite Es in *. cbn [fst snd orb] in *. exists sent, rest. cbn zeta.
  assert (sends rq (tx_queue c) = negb (bool_decide (sent = []))) as ->.
  { rewrite Eq. destruct sent as [|s sent].
    - destruct rest as [|s rest]; [done|]. specialize (Hf s rest eq_refl).
      cbn in Hf. rewrite app_nil_r in Hf. exact Hf.
    - cbn. rewrite Eq in Es. cbn in Es. destruct (fits (skb_data s) rq) eqn:F; [done|].
      injection Es as E1 E2. apply (f_equal length) in E1. rewrite length_app in E1.
      simpl in E1. lia. }
  set (kick := bool_decide _ && _).
  destruct (flush_fields n c m' rest kick) as (-> & -> & -> & -> & _). split_and!; try done.
  destruct rest as [|skb rest]; [done|]. split; [done|].
  specialize (Hf skb rest eq_refl). unfold fits in Hf. bool_prop.
  unfold skb_len. change ESP_SHM_TO_FW_SIZE with (r_size to_fw). lia.
Qed.

(** Esp_shm_read() takes frames off the ring in the order in which the
    firmware put them there: it returns the first frame that an allocation
    succeeds for, the frames before it are dropped (no doorbell comes for
    them), the others stay.  It never reports a broken record of a well-formed
    ring; when it took a frame, it clears the firmware's wait flag and rings the
    firmware if the flag was set; it writes only the tail and the wait flag. *)
Theorem esp_shm_read_correct HDR c q allocs :
  0 <= HDR -> running c = true ->
  ring_wf (shm c) to_host q -> Forall (frame_ok HDR) q ->
  exists c',
    esp_shm_read HDR (Some c) allocs = ((rx_spec q allocs).1, Some c') /\
    ring_wf (shm c') to_host (rx_spec q allocs).2 /\
    events c' = events c /\
    (q <> [] -> wait_of (shm c') to_host = 0) /\
    bell_to_fw c' = (if nz (wait_of (shm c) to_host) && negb (bool_decide (q = []))
                     then 1 else bell_to_fw c) /\
    tx_queue c' = tx_queue c /\
    agree (fun x => ~ rx_area x) (shm c) (shm c').
Proof.
  intros H R W Hq. unfold esp_shm_read. rewrite R. cbn [negb].
  destruct (rx_loop_spec HDR q c allocs W Hq) as (c' & -> & W' & Ev & K & Kw & Kb).
  exists c'. split_and!; try done; apply K.
Qed.

(** With any contents of the shared memory (a broken or hostile peer), a
    frame that esp_shm_read() returns has a length between the payload header
    and the ring size, a read without a frame leaves the ring empty, a broken
    record is dropped with all records after it and starts the transport
    recovery, and nothing but the tail and the wait flag is written. *)
Theorem esp_shm_read_robust HDR c allocs :
  0 <= HDR -> running c = true -> mem_ok (shm c) ->
  exists r c', esp_shm_read HDR (Some c) allocs = (r, Some c') /\
    (forall f, r = Some f -> bytes f /\ HDR <= zlen f <= ESP_SHM_TO_HOST_SIZE) /\
    (r = None -> tail_of (shm c') to_host = head_of (shm c') to_host) /\
    (events c' = events c \/ r = None /\ events c' = events c ++ [EvRecovery]) /\
    agree (fun x => ~ rx_area x) (shm c) (shm c').
Proof.
  intros H R M. unfold esp_shm_read. rewrite R. cbn [negb].
  pose proof (rx_loop_any HDR H allocs c M) as X.
  destruct (rx_loop _ _ _ _) as [r c']. destruct X as (X1 & X2 & X3 & X4).
  exists r, c'. split_and!; try done. apply X4.
Qed.

(** In every state that the driver reaches after it is bound, whatever the
    firmware does to the shared memory in between: the queue holds at most 256
    frames, it is paused from 64 frames on, it never stays paused without a
    scheduled flush or more than 16 queued frames (each later flush resumes it),
    it is empty while the transport is off, and each network interface is in
    the state of [tx_paused]. *)
Theorem esp_shm_tx_flow_invariant n HDR mask m irq c ops :
  esp_shm_probe true false m irq 0 = (0, Some c) ->
  tx_ok n (foldl (host_step n HDR mask) c ops).
Proof.
  intros P. apply tx_ok_probe with (ESP_MAX_INTERFACE := n) in P. revert c P.
  induction ops as [|op ops IH]; intros c K; [done|]. by apply IH, tx_ok_step.
Qed.

(** Esp_shm_write() answers 0 exactly for a frame that it queued: there is a
    context that runs and is not quiesced, the frame is not longer than the
    aggregation limit, is linear or could be made so, and fewer than 256
    frames are queued.  Each error leaves the transport as it was. *)
Theorem esp_shm_write_result n aggr ctx skb :
  let '(ret, ctx') := esp_shm_write n aggr ctx skb in
  (ret <> 0 -> ctx' = ctx) /\
  (ret = 0 <->
   exists s c, skb = Some s /\ ctx = Some c /\ skb_len s <= aggr /\
     (skb_nonlinear s = true -> skb_linearize_fails s = false) /\
     running c = true /\ tx_quiesced c = false /\ zlen (tx_queue c) < ESP_SHM_TX_QUEUE_MAX).
Proof.
  unfold esp_shm_write. destruct skb as [s|].
  2: { split; [done|]. unfold EINVAL. split; [done|]. by intros (?&?&?&_). }
  destruct ctx as [c|].
  2: { split; [done|]. unfold ENODEV. split; [done|]. by intros (?&?&?&?&_). }
  repeat match goal with
  | |- context [if ?b then (- _, _) else _] => destruct b eqn:?
  end; try (split; [done|]; split; [done|]; intros (?&?&[= <-]&[= <-]&?&Hl&Hr&Hz&?)).
  - bool_prop. lia.
  - bool_prop. rewrite Hl in *; done.
  - rewrite Hr, Hz in *. done.
  - bool_prop. lia.
  - split; [done|]. split; [|done]. intros _. exists s, c. bool_prop.
    split_and!; try done. intros E.
    match goal with H : _ \/ _ |- _ => destruct H; congruence end.
Qed.

(** * Instances *)

Definition skb3 : sk_buff := Skb 0 [1; 2; 3] false false.
Lemma skb3_ok : skb_ok skb3.
Proof. split; [|done]. repeat constructor; lia. Qed.
Lemma skb3s_ok : Forall skb_ok [skb3; skb3].
Proof. by repeat constructor. Qed.
Definition idle_ctx (q : list sk_buff) : ctx := Ctx zero_mem 0 0 q true false false false [].
Definition frame12 : list Z := [1; 0; 0; 0; 12; 0; 0; 0; 0; 0; 0; 0].
Lemma frame12_bytes : bytes frame12.
Proof. repeat constructor; lia. Qed.
Definition rx_ctx : ctx :=
  Ctx (push_mem to_host (push_mem to_host zero_mem frame12) frame12) 0 0 [] true false false false [].
Lemma rx_ctx_wf : ring_wf (shm rx_ctx) to_host [frame12; frame12].
Proof.
  apply (push_mem_wf to_host to_host_ok _ [frame12]); [|apply frame12_bytes|done].
  apply (push_mem_wf to_host to_host_ok _ []); [|apply frame12_bytes|done].
  auto with port.
Qed.
Lemma rx_ctx_frames : Forall (frame_ok 12) [frame12; frame12].
Proof. repeat constructor; vm_compute; congruence. Qed.

Lemma esp_shm_push_witness :
  ring_wf zero_mem to_fw [] /\ ring_wf (esp_shm_push zero_mem skb3 false).1.2 to_fw [[1; 2; 3]].
Proof.
  pose proof (zero_mem_wf to_fw to_fw_ok) as W. split; [exact W|].
  pose proof (esp_shm_push_correct zero_mem skb3 false [] W skb3_ok) as H.
  destruct (esp_shm_push zero_mem skb3 false) as [[ok m'] k]. destruct H as (-> & H & _). exact H.
Defined.
Lemma esp_shm_tx_flush_witness :
  exists sent rest, [skb3; skb3] = sent ++ rest /\
    tx_queue (esp_shm_tx_flush 2 (idle_ctx [skb3; skb3])) = rest.
Proof.
  destruct (esp_shm_tx_flush_correct 2 (idle_ctx [skb3; skb3]) [] eq_refl eq_refl
    (zero_mem_wf to_fw to_fw_ok)
    skb3s_ok)
    as (sent & rest & H1 & H2 & _).
  exists sent, rest. split; [exact H1|exact H2].
Defined.
Lemma esp_shm_read_witness :
  (esp_shm_read 12 (Some rx_ctx) [false]).1 = Some frame12.
Proof.
  destruct (esp_shm_read_correct 12 rx_ctx [frame12; frame12] [false] ltac:(lia) eq_refl
    rx_ctx_wf rx_ctx_frames) as (c' & E & _).
  rewrite E. reflexivity.
Defined.
Lemma esp_shm_read_robust_witness :
  exists r c', esp_shm_read 12 (Some (idle_ctx [])) [] = (r, Some c') /\
    (r = None -> tail_of (shm c') to_host = head_of (shm c') to_host).
Proof.
  destruct (esp_shm_read_robust 12 (idle_ctx []) [] ltac:(lia) eq_refl zero_mem_ok)
    as (r & c' & E & _ & H & _).
  exists r, c'. split; [exact E|exact H].
Defined.
Definition ready_mem : mem := store32 (store32 zero_mem ESP_SHM_MAGIC_OFF ESP_SHM_MAGIC) ESP_SHM_VERSION_OFF 2.
Lemma esp_shm_tx_flow_witness :
  tx_ok 2 (foldl (host_step 2 12 3) (Ctx ready_mem 0 0 [] true false false false [EvNewPacket])
    [OpWrite 8192 skb3; OpQuiesce; OpReinit; OpWork]).
Proof.
  apply (esp_shm_tx_flow_invariant 2 12 3 ready_mem 5). vm_compute. reflexivity.
Defined.
