(* ===== verification/ShmBind.v ===== *)
(** The life of the transport with its device: esp_shm_probe() and esp_shm_remove() of
    linux/.../esp_hosted/esp_shm.c, action by action, with interrupts, work items, calls of
    the driver core and the firmware between any two actions.

    [esp_shm_probe] of ShmHost is the checks and the context; here are the actions after
    the checks.  What happens in between are the operations of ShmHost.  The driver core of
    esp_hosted, which is not in the repository, has three work items and some flags; [gated]
    says that it queues no work while ESP_TRANSPORT_REMOVING is set. *)

From S2P Require Import Prelude Mem Ring RingQueue ShmHost.

(** * The actions *)

Inductive adapter_state := ESP_CONTEXT_DISABLED | ESP_CONTEXT_RX_READY.
Inductive action :=
  (* esp_shm_probe() *)
  | AllocContext | RequestIrq | SetContext | SetDev | ResetRecovery | ClearRemoving | ClearCleanup | StateReady
  | Run | EnableIrq | NewPacket | FlashProbe (ok : bool) | ScheduleRecovery
  (* esp_shm_remove() *)
  | SetRemoving | SetCleanup | ClearInitDone | StateDisabled | CancelRecovery | CancelEvents | PurgeEvents | CancelRx
  | RemoveCard | FreeIrq | FlashRemove | Stop | CancelTxWork | PurgeTx | ClearContext | ClearDev
  (* the core of the kernel, after either *)
  | FreeContext.
Definition probe_actions (flash : bool) : list action :=
  [AllocContext; RequestIrq; SetContext; SetDev; ResetRecovery; ClearRemoving; ClearCleanup; StateReady; Run; EnableIrq;
   NewPacket; FlashProbe flash; ScheduleRecovery].
Definition remove_actions : list action :=
  [SetRemoving; SetCleanup; ClearInitDone; StateDisabled; CancelRecovery; CancelEvents; PurgeEvents; CancelRx; RemoveCard;
   FreeIrq; FlashRemove; Stop; CancelTxWork; PurgeTx; ClearContext; ClearDev; FreeContext].
(** What only these actions change: whether the memory of the context is there, if_context and dev of the adapter,
    its flags and its state, the interrupt, and ctx->flash with its device. *)
Record control := Control {
  alive : bool; if_context : bool; a_dev : bool; removing : bool; cleanup : bool; a_state : adapter_state;
  irq_taken : bool; irq_on : bool; flash_ptr : bool; flash_live : bool }.
Definition act_control (a : action) (k : control) : control :=
  let '(Control al ic dev rem cl st ta on fp fl) := k in
  match a with
  | AllocContext => Control true ic dev rem cl st ta on false fl
  | RequestIrq => Control al ic dev rem cl st true on fp fl
  | SetContext => Control al true dev rem cl st ta on fp fl
  | SetDev => Control al ic true rem cl st ta on fp fl
  | ClearRemoving => Control al ic dev false cl st ta on fp fl
  | ClearCleanup => Control al ic dev rem false st ta on fp fl
  | StateReady => Control al ic dev rem cl ESP_CONTEXT_RX_READY ta on fp fl
  | EnableIrq => Control al ic dev rem cl st ta true fp fl
  | FlashProbe ok => Control al ic dev rem cl st ta on ok ok
  | SetRemoving => Control al ic dev true cl st ta on fp fl
  | SetCleanup => Control al ic dev rem true st ta on fp fl
  | StateDisabled => Control al ic dev rem cl ESP_CONTEXT_DISABLED ta on fp fl
  | FreeIrq => Control al ic dev rem cl st false false fp fl
  | FlashRemove => Control al ic dev rem cl st ta on fp (fl && negb fp)
  | ClearContext => Control al false dev rem cl st ta on fp fl
  | ClearDev => Control al ic false rem cl st ta on fp fl
  | FreeContext => Control false ic dev rem cl st ta on false fl
  | _ => k
  end.
(** The work items of the core that are queued, and ESP_INIT_DONE. *)
Record works := Works { recovery : bool; events_work : bool; rx_work : bool; init_done : bool }.
Record sys := Sys { ctl : control; ctx_of : ctx; wk : works; todo : list action; freed_use : bool }.
(** kzalloc(): the memory of the block and the doorbells are of the device. *)
Definition act_ctx (a : action) (c : ctx) : ctx :=
  match a with
  | AllocContext => Ctx (shm c) (bell_to_fw c) (bell_to_host c) [] false false false false []
  | Run => set_running true c
  | NewPacket => add_events [EvNewPacket] c
  | Stop => set_running false (set_tx_quiesced true c)
  | CancelTxWork => set_tx_work false c
  | PurgeTx => esp_shm_tx_purge c
  | _ => c
  end.
Definition act_works (a : action) (w : works) : works :=
  match a with
  | NewPacket => Works (recovery w) (events_work w) true (init_done w)
  | ScheduleRecovery => Works true (events_work w) (rx_work w) (init_done w)
  | ClearInitDone => Works (recovery w) (events_work w) (rx_work w) false
  | CancelRecovery => Works false (events_work w) (rx_work w) (init_done w)
  | CancelEvents => Works (recovery w) false (rx_work w) (init_done w)
  | CancelRx => Works (recovery w) (events_work w) false (init_done w)
  | _ => w
  end.

(** * What happens *)

Section Steps.
Context (ESP_MAX_INTERFACE : nat) (HDR mask : Z) (gated : bool).

(** The core may queue its work. *)
Definition may_queue (k : control) : bool := negb (gated && removing k).
(** The calls of the core and of the stack, which take the context from the adapter. *)
Definition is_call (op : host_op) : bool :=
  match op with OpWrite _ _ | OpRead _ | OpQuiesce | OpReinit | OpRecover | OpIntr _ => true | _ => false end.
Definition host (c : ctx) (op : host_op) : ctx := host_step ESP_MAX_INTERFACE HDR mask c op.

Inductive step : sys -> sys -> Prop :=
  | step_act k c w a rest b : step (Sys k c w (a :: rest) b) (Sys (act_control a k) (act_ctx a c) (act_works a w) rest b)
  (* A device comes, and the checks of the probe are good; a device goes. *)
  | step_probe k c w b flash irq c' : if_context k = false -> esp_shm_probe true (if_context k) (shm c) irq 0 = (0, Some c') ->
      step (Sys k c w [] b) (Sys k c w (probe_actions flash) b)
  | step_remove k c w b : if_context k = true -> step (Sys k c w [] b) (Sys k c w remove_actions b)
  (* The handler uses the context and the flash device; esp_process_new_packet_intr() queues the receive work. *)
  | step_irq k c w l b : irq_on k = true ->
      step (Sys k c w l b)
        (Sys k (host c OpIrq) (Works (recovery w) (events_work w) (rx_work w || may_queue k) (init_done w)) l
             (b || negb (alive k) || (flash_ptr k && negb (flash_live k))))
  | step_tx_work k c w l b : tx_work c = true -> step (Sys k c w l b) (Sys k (host c OpWork) w l (b || negb (alive k)))
  (* A call with no context gives an error and changes nothing. *)
  | step_call k c w l b op : is_call op = true ->
      step (Sys k c w l b) (if if_context k then Sys k (host c op) w l (b || negb (alive k)) else Sys k c w l b)
  | step_firmware k c w l b m b1 b2 : step (Sys k c w l b) (Sys k (host c (OpFirmware m b1 b2)) w l b)
  (* The core: its work runs, it queues work, and the boot event sets ESP_INIT_DONE. *)
  | step_core k c w l b w' :
      (recovery w' = true -> recovery w = true \/ may_queue k = true) ->
      (events_work w' = true -> events_work w = true \/ may_queue k = true) ->
      (rx_work w' = true -> rx_work w = true) ->
      step (Sys k c w l b) (Sys k c w' l b).

(** At the start no device was there. *)
Definition unbound (flags : bool) : control := Control false false false flags flags ESP_CONTEXT_DISABLED false false false false.
Inductive reachable : sys -> Prop :=
  | reach_start c w : tx_queue c = [] -> running c = false -> tx_work c = false -> rx_work w = false ->
      reachable (Sys (unbound false) c w [] false)
  | reach_step s s' : reachable s -> step s s' -> reachable s'.
End Steps.

(** * What the operations of the transport keep *)

Section Keeps.
Context (ESP_MAX_INTERFACE : nat) (HDR mask : Z).
Abbreviation host := (host ESP_MAX_INTERFACE HDR mask).
Lemma flow_running c p : running (esp_shm_tx_flow ESP_MAX_INTERFACE c p) = running c.
Proof. unfold esp_shm_tx_flow. by destruct (Bool.eqb _ _). Qed.
Lemma flush_running c : running (esp_shm_tx_flush ESP_MAX_INTERFACE c) = running c.
Proof.
  unfold esp_shm_tx_flush. destruct (_ || _); [done|]. destruct (tx_flush_loop _ _ _) as [[m q] k]. cbn zeta.
  destruct (_ <=? _), k; cbn [esp_shm_ring_firmware set_bell_to_fw running]; by rewrite ?flow_running.
Qed.
Lemma flush_stopped c : running c = false -> esp_shm_tx_flush ESP_MAX_INTERFACE c = c.
Proof. unfold esp_shm_tx_flush. by intros ->. Qed.
Lemma host_running c op : op <> OpRemove -> running (host c op) = running c.
Proof.
  unfold host. intros N. destruct op as [n s| | |allocs| | | |d| |m b1 b2]; cbn [host_step]; try done.
  - cbn [esp_shm_write]. repeat match goal with |- context [if ?b then (- _, Some c) else _] => destruct b; [done|] end.
    cbn [snd default]. unfold id. by destruct (_ >=? _); rewrite ?flow_running, flush_running.
  - destruct (tx_work c); [|done]. unfold esp_shm_tx_work. by rewrite flush_running.
  - unfold esp_shm_irq. cbn. by destruct (tx_queue c).
  - unfold esp_shm_read. destruct (negb (running c)) eqn:R; [done|]. destruct (rx_loop _ _ _ _) as [r c'] eqn:E.
    destruct (rx_loop_keeps _ _ _ _ _ _ E) as (_ & K & _). exact K.
  - unfold esp_shm_reinit_after_fw_reset. by destruct (negb (running c)).
  - unfold esp_shm_recover_transport. by destruct (negb (running c)).
  - unfold generate_slave_intr. by destruct (nz _).
Qed.
(** A transport that does not run takes no frame and queues no work, but for the interrupt handler. *)
Lemma host_stopped c op : op <> OpRemove -> running c = false ->
  (op <> OpIrq -> tx_work c = false -> tx_work (host c op) = false) /\
  (tx_queue c = [] -> tx_queue (host c op) = []) /\ (tx_quiesced c = true -> tx_quiesced (host c op) = true).
Proof.
  unfold host. intros N R. destruct op as [n s| | |allocs| | | |d| |m b1 b2]; cbn [host_step]; try (by split_and!).
  - cbn [esp_shm_write]. rewrite R. cbn [negb orb]. destruct (_ >? _); [by split_and!|]. by destruct (skb_nonlinear s && _); split_and!.
  - destruct (tx_work c) eqn:W; [|by split_and!]. unfold esp_shm_tx_work. rewrite flush_stopped by done. by split_and!.
  - unfold esp_shm_irq. cbn. by destruct (tx_queue c) eqn:Q; cbn; rewrite ?Q; split_and!.
  - unfold esp_shm_read. rewrite R. by split_and!.
  - unfold esp_shm_reinit_after_fw_reset. rewrite R. by split_and!.
  - unfold esp_shm_recover_transport. rewrite R. by split_and!.
  - unfold generate_slave_intr. by destruct (nz _); split_and!.
Qed.
End Keeps.

(** * The invariant *)

Definition run_control (l : list action) (k : control) : control := fold_left (fun k a => act_control a k) l k.
Definition bound (flash : bool) : control := run_control (probe_actions flash) (unbound false).
Lemma bound_again f flash : run_control (probe_actions flash) (unbound f) = bound flash.
Proof. by destruct f. Qed.
Lemma unbound_again flash : run_control remove_actions (bound flash) = unbound true.
Proof. by destruct flash. Qed.

(** The actions that are done, and those to do, of a probe or a remove. *)
Inductive position : control -> list action -> list action -> Prop :=
  | at_start : position (unbound false) [] []
  | in_probe f flash done_ l : done_ ++ l = probe_actions flash -> position (run_control done_ (unbound f)) done_ l
  | in_remove flash done_ l : done_ ++ l = remove_actions -> position (run_control done_ (bound flash)) done_ l.
(** What the control state says at every position. *)
Definition control_ok (k : control) (done_ : list action) : Prop :=
  (irq_on k = true -> alive k = true /\ (flash_ptr k = true -> flash_live k = true)) /\
  (if_context k = true -> alive k = true) /\
  (CancelTxWork ∈ done_ -> irq_on k = false) /\ (Stop ∈ done_ -> irq_on k = false) /\
  (CancelRx ∈ done_ \/ CancelEvents ∈ done_ \/ CancelRecovery ∈ done_ -> removing k = true) /\
  (PurgeTx ∈ done_ \/ CancelTxWork ∈ done_ -> Stop ∈ done_).
(** What is done before the next action. *)
Definition next_ok (k : control) (done_ : list action) (a : action) : Prop :=
  (Run ∈ done_ -> a <> Stop /\ a <> AllocContext) /\ (Stop ∈ done_ -> a <> Run) /\
  (CancelRx ∈ done_ -> a <> NewPacket) /\ (CancelRecovery ∈ done_ -> a <> ScheduleRecovery) /\
  (alive k = false -> a = AllocContext) /\
  (a = FreeContext -> Stop ∈ done_ /\ CancelTxWork ∈ done_ /\ PurgeTx ∈ done_ /\ CancelRx ∈ done_) /\
  (alive (act_control a k) = false -> a = FreeContext).
#[export] Instance action_eq_dec : EqDecision action.
Proof. solve_decision. Defined.
#[export] Instance control_ok_dec k done_ : Decision (control_ok k done_).
Proof. unfold control_ok. apply _. Defined.
#[export] Instance next_ok_dec k done_ a : Decision (next_ok k done_ a).
Proof. unfold next_ok. apply _. Defined.
(** A check at every position of a list of actions, with the action that is next. *)
Fixpoint everywhere (k : control) (done_ l : list action) : bool :=
  bool_decide (control_ok k done_) &&
  match l with [] => true | a :: l => bool_decide (next_ok k done_ a) && everywhere (act_control a k) (done_ ++ [a]) l end.
Lemma everywhere_at : forall d k done_ l, everywhere k done_ (d ++ l) = true ->
  control_ok (run_control d k) (done_ ++ d) /\ (forall a, head l = Some a -> next_ok (run_control d k) (done_ ++ d) a).
Proof.
  induction d as [|x d IH]; intros k done_ l H.
  - rewrite app_nil_r. cbn [run_control fold_left app] in *. destruct l as [|y l]; cbn [everywhere] in H; rewrite ?andb_true_iff, ?bool_decide_eq_true in H.
    + split; [by apply H|by intros ? [=]].
    + split; [by apply H|]. intros a [= <-]. by apply H.
  - cbn [app everywhere] in H. rewrite !andb_true_iff in H. destruct H as (_ & _ & H). specialize (IH _ _ _ H).
    by rewrite <- app_assoc in IH.
Qed.
Lemma all_positions_ok :
  forallb (fun f => forallb (fun flash => everywhere (unbound f) [] (probe_actions flash) && everywhere (bound flash) [] remove_actions)
    [true; false]) [true; false] = true.
Proof. by vm_compute. Qed.
Lemma position_facts k done_ l : position k done_ l -> control_ok k done_ /\ (forall a, head l = Some a -> next_ok k done_ a).
Proof.
  intros P. pose proof all_positions_ok as A. cbn [forallb] in A. rewrite !andb_true_iff in A. destruct P as [|f flash done_ l H|flash done_ l H].
  - split; [by apply (bool_decide_unpack _)|done].
  - apply (everywhere_at done_ (unbound f) []). rewrite H. destruct f, flash; tauto.
  - apply (everywhere_at done_ (bound flash) []). rewrite H. destruct flash; tauto.
Qed.
Lemma position_act k done_ a l : position k done_ (a :: l) -> position (act_control a k) (done_ ++ [a]) l.
Proof.
  intros P. inversion P as [|f flash d l' H E|flash d l' H E]; subst.
  - assert (act_control a (run_control done_ (unbound f)) = run_control (done_ ++ [a]) (unbound f)) as -> by (unfold run_control; by rewrite fold_left_app).
    apply (in_probe f flash). by rewrite <- app_assoc.
  - assert (act_control a (run_control done_ (bound flash)) = run_control (done_ ++ [a]) (bound flash)) as -> by (unfold run_control; by rewrite fold_left_app).
    apply (in_remove flash). by rewrite <- app_assoc.
Qed.
Lemma position_end k done_ : position k done_ [] ->
  (exists f, k = unbound f /\ if_context k = false) \/ (exists flash, k = bound flash /\ if_context k = true /\ done_ = probe_actions flash).
Proof.
  intros P. inversion P as [|f flash d l' H E|flash d l' H E]; subst.
  - left. by exists false.
  - right. rewrite app_nil_r in H. subst. exists flash. rewrite bound_again. split; [done|]. by destruct flash.
  - left. rewrite app_nil_r in H. subst. exists true. rewrite unbound_again. done.
Qed.

Section Life.
Context (ESP_MAX_INTERFACE : nat) (HDR mask : Z) (gated : bool).
Abbreviation step := (step ESP_MAX_INTERFACE HDR mask gated).
Abbreviation reachable := (reachable ESP_MAX_INTERFACE HDR mask gated).
Abbreviation host := (host ESP_MAX_INTERFACE HDR mask).

(** The state of the context and of the work items after some actions; with no context nothing of it is left. *)
Record dyn_ok (k : control) (c : ctx) (w : works) (done_ : list action) : Prop := {
  d_run : Run ∈ done_ -> running c = true;
  d_stop : Stop ∈ done_ \/ alive k = false -> running c = false;
  d_work : CancelTxWork ∈ done_ \/ alive k = false -> tx_work c = false;
  d_queue : PurgeTx ∈ done_ \/ alive k = false -> tx_queue c = [];
  d_recovery : gated = true -> CancelRecovery ∈ done_ -> recovery w = false;
  d_events : gated = true -> CancelEvents ∈ done_ -> events_work w = false;
  d_rx : gated = true -> CancelRx ∈ done_ \/ alive k = false -> rx_work w = false }.
Definition inv (s : sys) : Prop :=
  freed_use s = false /\ exists done_, position (ctl s) done_ (todo s) /\ dyn_ok (ctl s) (ctx_of s) (wk s) done_.

Lemma dyn_act k c w done_ a : next_ok k done_ a -> dyn_ok k c w done_ ->
  dyn_ok (act_control a k) (act_ctx a c) (act_works a w) (done_ ++ [a]).
Proof.
  intros (N1 & N2 & N3 & N4 & N5 & N6 & N7) [R S W Q Re Ev Rx].
  assert (L : forall x, x ∈ done_ ++ [a] <-> x ∈ done_ \/ x = a) by (intros x; by rewrite elem_of_app, list_elem_of_singleton).
  split; rewrite ?L.
  - intros [D|<-]; [|done]. specialize (R D). destruct (N1 D). by destruct a.
  - intros H. assert (Stop ∈ done_ \/ a = Stop) as [D| ->]; [|specialize (N2 D); specialize (S (or_introl D))|done].
    { destruct H as [[H|H]|H]; [by left|by right|left; by apply N6, N7]. }
    by destruct a.
  - intros H. assert (CancelTxWork ∈ done_ \/ a = CancelTxWork) as [D| ->]; [|specialize (W (or_introl D))|done].
    { destruct H as [[H|H]|H]; [by left|by right|left; by apply N6, N7]. }
    by destruct a.
  - intros H. assert (PurgeTx ∈ done_ \/ a = PurgeTx) as [D| ->]; [|specialize (Q (or_introl D))|done].
    { destruct H as [[H|H]|H]; [by left|by right|left; by apply N6, N7]. }
    by destruct a.
  - intros G [D|<-]; [|done]. specialize (Re G D). specialize (N4 D). by destruct a.
  - intros G [D|<-]; [|done]. specialize (Ev G D). by destruct a.
  - intros G H. assert (CancelRx ∈ done_ \/ a = CancelRx) as [D| ->]; [|specialize (Rx G (or_introl D)); specialize (N3 D)|done].
    { destruct H as [[H|H]|H]; [by left|by right|left; by apply N6, N7]. }
    by destruct a.
Qed.
(** An operation of a running or stopped transport, other than its removal. *)
Lemma dyn_host k c w done_ op : control_ok k done_ -> op <> OpRemove -> (op = OpIrq -> irq_on k = true) ->
  dyn_ok k c w done_ -> dyn_ok k (host c op) w done_.
Proof.
  intros (C1 & C2 & C3 & C4 & C5 & C6) N Irq [R S W Q Re Ev Rx].
  assert (Keep : running c = false -> _) by exact (host_stopped ESP_MAX_INTERFACE HDR mask c op N).
  split; rewrite ?host_running by done; try done.
  - intros H. assert (running c = false) as E by (apply S; destruct H as [H|H]; [left; apply C6; by right|by right]).
    destruct (Keep E) as (K & _). apply K; [|by apply W]. intros ->. specialize (Irq eq_refl). destruct H as [H|H]; [by rewrite C3 in Irq|].
    destruct (C1 Irq) as [A _]. congruence.
  - intros H. assert (running c = false) as E by (apply S; destruct H as [H|H]; [left; apply C6; by left|by right]).
    destruct (Keep E) as (_ & K & _). apply K, Q, H.
Qed.
Lemma inv_step s s' : inv s -> step s s' -> inv s'.
Proof.
  intros (F & done_ & P & D) St. destruct (position_facts _ _ _ P) as [C Nx].
  destruct St as [k c w a rest b|k c w b flash irq c' If _|k c w b If|k c w l b I|k c w l b T|k c w l b op Op|k c w l b m b1 b2|k c w l b w' Hr He Hx];
    cbn [ctl ctx_of wk todo freed_use] in *; subst.
  - split; [done|]. exists (done_ ++ [a]). split; [by apply position_act|]. apply dyn_act; [by apply Nx|done].
  - split; [done|]. exists []. destruct (position_end _ _ P) as [(f & -> & _)|(fl & -> & E & _)]; [|by rewrite E in If].
    split; [by apply (in_probe f flash [])|]. destruct D as [R S W Q Re Ev Rx].
    split; try (by intros ? ?%elem_of_nil); try (by intros ?%elem_of_nil).
    + intros _. apply S. by right.
    + intros _. apply W. by right.
    + intros _. apply Q. by right.
    + intros G _. apply Rx; [done|by right].
  - split; [done|]. exists []. destruct (position_end _ _ P) as [(f & -> & E)|(fl & -> & _)]; [by rewrite E in If|].
    split; [by apply (in_remove fl [])|].
    split; try (by intros ? ?%elem_of_nil); try (by intros ?%elem_of_nil); intros; exfalso;
      repeat match goal with H : _ \/ _ |- _ => destruct H as [H|H] | H : _ ∈ [] |- _ => by apply elem_of_nil in H end; by destruct fl.
  - destruct C as (C1 & C2 & C3 & C4 & C5 & C6). destruct (C1 I) as [A Fl]. split.
    { rewrite A. cbn. destruct (flash_ptr k); [|done]. by rewrite Fl. }
    exists done_. split; [done|].
    assert (dyn_ok k (host c OpIrq) w done_) as [R S W Q Re Ev Rx].
    { apply dyn_host; try done. }
    split; try done. cbn [rx_work]. intros G H. rewrite (Rx G H). cbn. unfold may_queue. rewrite G.
    destruct H as [H|H]; [|cbn [ctl] in H; congruence]. rewrite C5 by (by left). done.
  - destruct (alive k) eqn:A.
    2: { destruct D as [R S W Q Re Ev Rx]. rewrite W in T by (by right). done. }
    split; [done|]. exists done_. split; [done|]. by apply dyn_host.
  - destruct (if_context k) eqn:If; [|split; [done|by exists done_]]. pose proof C as C'. destruct C' as (_ & A & _). rewrite (A If).
    split; [done|]. exists done_. split; [done|]. apply dyn_host; try done; by destruct op.
  - split; [done|]. exists done_. split; [done|]. by apply dyn_host.
  - split; [done|]. exists done_. split; [done|]. destruct C as (C1 & C2 & C3 & C4 & C5 & C6). destruct D as [R S W Q Re Ev Rx]. split; try done.
    + intros G H. apply not_true_is_false. intros X. destruct (Hr X) as [Y|Y]; [by rewrite Re in Y|]. unfold may_queue in Y. rewrite G, C5 in Y by tauto. done.
    + intros G H. apply not_true_is_false. intros X. destruct (He X) as [Y|Y]; [by rewrite Ev in Y|]. unfold may_queue in Y. rewrite G, C5 in Y by tauto. done.
    + intros G H. apply not_true_is_false. intros X. specialize (Hx X). by rewrite (Rx G H) in Hx.
Qed.
Lemma reachable_inv s : reachable s -> inv s.
Proof.
  induction 1 as [c w Hq Hr Hw Hx|s s' _ IH St]; [|by apply (inv_step s)].
  split; [done|]. exists []. split; [apply at_start|]. by split; try (by intros ? ?%elem_of_nil); try (by intros ?%elem_of_nil).
Qed.

(** C8: the life of the transport, for any number of probes and removes, with interrupts, work items, frames, calls
    of the driver core and the firmware between any two of their actions.  Nothing uses the context or the flash device
    after they are freed.  When a device is bound, the transport runs with its interrupt on.  When it is
    gone, the context and the flash device are freed, there is no interrupt, no frame and no work item
    of the transport left, and none of the core's when it queues none during the removal. *)
Theorem transport_life (s : sys) (R : reachable s) :
  freed_use s = false /\
  (todo s = [] -> if_context (ctl s) = true ->
     running (ctx_of s) = true /\ alive (ctl s) = true /\ irq_on (ctl s) = true /\ removing (ctl s) = false /\
     a_state (ctl s) = ESP_CONTEXT_RX_READY /\ flash_ptr (ctl s) = flash_live (ctl s)) /\
  (todo s = [] -> if_context (ctl s) = false ->
     alive (ctl s) = false /\ irq_taken (ctl s) = false /\ irq_on (ctl s) = false /\ flash_live (ctl s) = false /\ a_dev (ctl s) = false /\
     running (ctx_of s) = false /\ tx_work (ctx_of s) = false /\ tx_queue (ctx_of s) = [] /\
     (gated = true -> rx_work (wk s) = false /\
        (removing (ctl s) = true -> recovery (wk s) = false /\ events_work (wk s) = false))).
Proof.
  destruct (reachable_inv s R) as (F & done_ & P & D). split; [done|]. split; intros T I.
  - rewrite T in P. destruct (position_end _ _ P) as [(f & E & _)|(flash & E & _ & Hd)]; rewrite E in *; [done|].
    destruct D as [Dr _ _ _ _ _ _]. split; [apply Dr; rewrite Hd; by apply (bool_decide_unpack _); destruct flash|]. by destruct flash.
  - rewrite T in P. assert (In done_ [[]; remove_actions] /\ exists f, ctl s = unbound f /\ (f = true -> done_ = remove_actions)) as (_ & f & E & Hd).
    { inversion P as [E1 E2|f flash d l' H E|flash d l' H E]; subst.
      - split; [by left|]. by exists false.
      - rewrite app_nil_r in H. subst. rewrite <- E, bound_again in I. by destruct flash.
      - rewrite app_nil_r in H. subst. split; [right; by left|]. exists true. by rewrite <- (unbound_again flash). }
    rewrite E in D. destruct D as [_ Ds Dw Dq Dr De Dx]. rewrite E. cbn [unbound alive irq_taken irq_on flash_live a_dev removing] in *.
    split_and!; try done; [apply Ds; by right|apply Dw; by right|apply Dq; by right|]. intros G. split; [apply Dx; [done|by right]|].
    intros ->. rewrite (Hd eq_refl) in *. split; [apply Dr|apply De]; try done; by apply (bool_decide_unpack _).
Qed.
End Life.

(** * The whole probe and the whole remove *)

Definition run_ctx (l : list action) (c : ctx) : ctx := fold_left (fun c a => act_ctx a c) l c.
(** With nothing in between, the actions make what [esp_shm_probe] and [esp_shm_remove] say. *)
Lemma actions_whole c flash irq c' : bell_to_fw c = 0 -> bell_to_host c = 0 -> esp_shm_probe true false (shm c) irq 0 = (0, Some c') ->
  run_ctx (probe_actions flash) c = c' /\ run_ctx remove_actions c' = esp_shm_remove c'.
Proof.
  intros B1 B2. unfold esp_shm_probe. cbn [negb]. destruct (_ <? _); [intros [= _ ?]; done|]. destruct (_ || _); [done|]. cbn [nz Z.eqb negb].
  intros [= <-]. split; [|done]. cbn. by rewrite B1, B2.
Qed.

Lemma reach_acts n h mask gated l : forall k c w r b, reachable n h mask gated (Sys k c w (l ++ r) b) ->
  reachable n h mask gated (Sys (run_control l k) (run_ctx l c) (fold_left (fun w a => act_works a w) l w) r b).
Proof.
  induction l as [|a l IH]; intros k c w r b H; [done|]. apply (IH (act_control a k) (act_ctx a c) (act_works a w)).
  eapply reach_step; [exact H|apply step_act].
Qed.
(** A device comes, an interrupt comes, and the device goes. *)
Definition fw_mem : mem := store32 (store32 zero_mem (ESP_SHM_CTRL + ESP_SHM_MAGIC_OFF) ESP_SHM_MAGIC) (ESP_SHM_CTRL + ESP_SHM_VERSION_OFF) ESP_SHM_VERSION.
Lemma transport_life_witness : exists s, reachable 2 12 3 true s /\ removing (ctl s) = true /\ flash_ptr (ctl s) = false /\
  alive (ctl s) = false /\ tx_queue (ctx_of s) = [] /\ rx_work (wk s) = false.
Proof.
  pose (c := Ctx fw_mem 0 0 [] false false false false []). pose (w := Works false false false false).
  assert (R0 : reachable 2 12 3 true (Sys (unbound false) c w (probe_actions true ++ []) false)).
  { apply (reach_step _ _ _ _ (Sys (unbound false) c w [] false)); [by apply reach_start|]. eapply (step_probe _ _ _ _ _ _ _ _ true 7); [done|]. vm_compute. reflexivity. }
  apply reach_acts in R0.
  pose proof (reach_step _ _ _ _ _ _ R0 (step_irq 2 12 3 true (bound true) _ _ _ _ eq_refl)) as R1.
  pose proof (reach_step _ _ _ _ _ _ R1 (step_remove 2 12 3 true (bound true) _ _ _ eq_refl)) as R2.
  apply (reach_acts _ _ _ _ remove_actions _ _ _ []) in R2. eexists. split; [exact R2|].
  destruct (transport_life 2 12 3 true _ R2) as (_ & _ & G). destruct (G eq_refl eq_refl) as (A & _ & _ & _ & _ & _ & _ & Q & W).
  destruct (W eq_refl) as [X _]. split_and!; [reflexivity|reflexivity|exact A|exact Q|exact X].
Defined.
