(* ===== verification/Flash.v ===== *)
(** The flash window: the mailbox of the shared block, its firmware side
    (bootloader/components/esp_hosted/shm_flash.c) and its Linux side, an MTD
    device (linux/.../esp_hosted/esp_shm_flash.c).

    The SPI flash driver of ESP-IDF is a parameter; its documented behaviour
    (a program clears bits, an erase sets them) is a hypothesis of the section
    that uses it. *)

From S2P Require Import Prelude Mem Ring.

(** * shared/esp32s31-hosted-shm.h *)

Definition ESP_SHM_FLASH : Z := 0x0300.
Definition ESP_SHM_FLASH_SIZE_OFF : Z := 0x00.
Definition ESP_SHM_FLASH_CMD_OFF : Z := 0x04.
Definition ESP_SHM_FLASH_STATUS_OFF : Z := 0x08.
Definition ESP_SHM_FLASH_ADDR_OFF : Z := 0x0c.
Definition ESP_SHM_FLASH_LEN_OFF : Z := 0x10.
Definition ESP_SHM_FLASH_MAP_OFF : Z := 0x14.
Definition ESP_SHM_FLASH_DATA : Z := 0x0800.
Definition ESP_SHM_FLASH_DATA_SIZE : Z := 0x0800.
Definition ESP_SHM_FLASH_SECTOR : Z := 0x1000.
Definition ESP_SHM_FLASH_BLOCK : Z := 0x10000.
Definition ESP_SHM_FLASH_PROGRAM : Z := 2.
Definition ESP_SHM_FLASH_ERASE : Z := 3.

(** esp_err.h *)
Definition ESP_OK : Z := 0.
Definition ESP_ERR_INVALID_ARG : Z := 0x102.

Definition flash_word (off : Z) : Z := ESP_SHM_FLASH + off.
Definition mbox_read (m : mem) (off : Z) : Z := load32 m (flash_word off).

(** * The firmware *)

(** The static variables of shm_flash.c. *)
Record flash_fw := FlashFw { s_base : Z; s_size : Z; s_kick : bool }.

Definition flash_request_valid (s : flash_fw) (cmd addr len : Z) : bool :=
  if (addr >=? s_size s) || (len >? u32 (s_size s - addr)) then false
  else if cmd =? ESP_SHM_FLASH_ERASE then
    (addr mod ESP_SHM_FLASH_BLOCK =? 0) && (len =? ESP_SHM_FLASH_BLOCK)
  else (cmd =? ESP_SHM_FLASH_PROGRAM) && (len <=? ESP_SHM_FLASH_DATA_SIZE) &&
       (u32 (addr mod ESP_SHM_FLASH_SECTOR + len) <=? ESP_SHM_FLASH_SECTOR).

(** flash_task_start(): [sem] and [task] say whether the semaphore and the
    task could be created. *)
Definition flash_task_start (sem task : bool) : bool * bool :=
  if sem && task then (true, true) else (false, false).

(** Before: the bus timeouts of core 0 are off, so that a cache miss behind a suspended flash is no fault.  The two
    registers, and the enable bits of ESP-IDF. *)
Definition disable_bus_timeouts (ibus_en dbus_en : Z) (regs : Z * Z) : Z * Z :=
  (Z.land (fst regs) (not32 ibus_en), Z.land (snd regs) (not32 dbus_en)).
(** shm_flash_kick(): whether the semaphore is given. *)
Definition shm_flash_kick (s : flash_fw) : bool := s_kick s.

(** A partition is its address and size; [mmap] is what spi_flash_mmap() gives:
    the mapped address, or no mapping. *)
Definition shm_flash_init (m : mem) (root data : option (Z * Z)) (mmap : option Z)
    (sem task : bool) : mem * flash_fw :=
  let '(map, s) :=
    match root, data with
    | Some (ra, rs), Some (da, ds) =>
        if da =? u32 (ra + rs) then
          match mmap with
          | Some map =>
              let '(ok, kick) := flash_task_start sem task in
              if ok then (map, FlashFw ra (u32 (rs + ds)) kick) else (map, FlashFw 0 0 kick)
          | None => (0, FlashFw 0 0 false)
          end
        else (0, FlashFw 0 0 false)
    | _, _ => (0, FlashFw 0 0 false)
    end in
  let m := store32 m (flash_word ESP_SHM_FLASH_MAP_OFF) map in
  (store32 m (flash_word ESP_SHM_FLASH_SIZE_OFF) (s_size s), s).

Section Chip.
(** The contents of the flash chip are a [mem]; the two functions of
    esp_flash.h give the new contents and an esp_err_t. *)
Context (esp_flash_write : mem -> list Z -> Z -> mem * Z)
        (esp_flash_erase_region : mem -> Z -> Z -> mem * Z)
        (s : flash_fw).

Definition flash_op (m chip : mem) (cmd addr len : Z) : mem * Z :=
  if cmd =? ESP_SHM_FLASH_PROGRAM
  then esp_flash_write chip (load_bytes m ESP_SHM_FLASH_DATA len) (u32 (s_base s + addr))
  else esp_flash_erase_region chip (u32 (s_base s + addr)) len.

(** True when it completed a request; the shared block and the chip. *)
Definition shm_flash_service (m chip : mem) : bool * mem * mem :=
  let cmd := mbox_read m ESP_SHM_FLASH_CMD_OFF in
  let addr := mbox_read m ESP_SHM_FLASH_ADDR_OFF in
  let len := mbox_read m ESP_SHM_FLASH_LEN_OFF in
  if cmd =? 0 then (false, m, chip)
  else
    let '(chip, err) :=
      if negb (flash_request_valid s cmd addr len) then (chip, ESP_ERR_INVALID_ARG)
      else flash_op m chip cmd addr len in
    let m := store32 m (flash_word ESP_SHM_FLASH_STATUS_OFF) err in
    let m := store32 m (flash_word ESP_SHM_FLASH_CMD_OFF) 0 in
    (true, m, chip).

(** * Linux *)

(** The shared block, the chip, and the two doorbells. *)
Record fworld := FWorld { fmem : mem; chip : mem; fbell : Z; hbell : Z }.

(** One turn of flash_task(): [s_done] rings the host. *)
Definition flash_task (w : fworld) : fworld :=
  let '(done, m, c) := shm_flash_service (fmem w) (chip w) in
  FWorld m c (fbell w) (if done then 1 else hbell w).

(** [served] says whether the firmware gets to the request before the
    timeout of the wait. *)
Definition esp_shm_flash_cmd (served : bool) (w : fworld) (cmd addr : Z) (buf : list Z) (len : Z)
    : Z * fworld :=
  if nz (mbox_read (fmem w) ESP_SHM_FLASH_CMD_OFF) then (- EBUSY, w)
  else
    let m := store32 (fmem w) (flash_word ESP_SHM_FLASH_ADDR_OFF) addr in
    let m := store32 m (flash_word ESP_SHM_FLASH_LEN_OFF) len in
    let m := if cmd =? ESP_SHM_FLASH_PROGRAM then store_bytes m ESP_SHM_FLASH_DATA buf else m in
    let m := store32 m (flash_word ESP_SHM_FLASH_CMD_OFF) cmd in
    let w := FWorld m (chip w) 1 (hbell w) in
    let w := if served then flash_task w else w in
    if nz (mbox_read (fmem w) ESP_SHM_FLASH_CMD_OFF) then (- ETIMEDOUT, w)
    else if nz (mbox_read (fmem w) ESP_SHM_FLASH_STATUS_OFF) then (- EIO, w)
    else (0, w).

(** The window is mapped in the flash cache. *)
Definition esp_shm_flash_read (w : fworld) (from len : Z) : Z * list Z :=
  (0, load_bytes (chip w) (s_base s + from) len).

(** The loop of esp_shm_flash_write(); [None] is out of fuel. *)
Fixpoint flash_write_loop (fuel : nat) (serve : list bool) (w : fworld) (to : Z)
    (buf : list Z) (retlen : Z) : option (Z * Z * fworld) :=
  if zlen buf =? 0 then Some (0, retlen, w)
  else
    match fuel with
    | O => None
    | S fuel =>
        let n := u32 (Z.min (zlen buf) (ESP_SHM_FLASH_DATA_SIZE - to mod ESP_SHM_FLASH_DATA_SIZE)) in
        let '(ret, w) :=
          esp_shm_flash_cmd (hd true serve) w ESP_SHM_FLASH_PROGRAM (u32 to) (ztake n buf) n in
        if nz ret then Some (ret, retlen, w)
        else flash_write_loop fuel (tl serve) w (to + n) (zdrop n buf) (retlen + n)
    end.
Definition esp_shm_flash_write (serve : list bool) (w : fworld) (to : Z) (buf : list Z)
    : option (Z * Z * fworld) :=
  flash_write_loop (length buf) serve w to buf 0.

(** The loop of esp_shm_flash_erase(): the result, [fail_addr], the world. *)
Fixpoint flash_erase_loop (fuel : nat) (serve : list bool) (w : fworld) (addr stop : Z)
    : option (Z * option Z * fworld) :=
  if addr <? stop then
    match fuel with
    | O => None
    | S fuel =>
        let '(ret, w) :=
          esp_shm_flash_cmd (hd true serve) w ESP_SHM_FLASH_ERASE (u32 addr) [] ESP_SHM_FLASH_BLOCK in
        if nz ret then Some (ret, Some addr, w)
        else flash_erase_loop fuel (tl serve) w (u64 (addr + ESP_SHM_FLASH_BLOCK)) stop
    end
  else Some (0, None, w).
Definition esp_shm_flash_erase (serve : list bool) (w : fworld) (addr len : Z)
    : option (Z * option Z * fworld) :=
  flash_erase_loop (S (Z.to_nat (len / ESP_SHM_FLASH_BLOCK))) serve w addr (u64 (addr + len)).
End Chip.

(** The MTD device that Linux registers. *)
Record mtd_info := Mtd { window : Z; mtd_size : Z; erasesize : Z; writesize : Z; writebufsize : Z }.
Definition esp_shm_flash_probe (m : mem) (child alloc memremap : bool) (register_ret : Z)
    : option mtd_info :=
  let size := load32 m (ESP_SHM_FLASH + ESP_SHM_FLASH_SIZE_OFF) in
  let map := load32 m (ESP_SHM_FLASH + ESP_SHM_FLASH_MAP_OFF) in
  if (size =? 0) || negb child then None
  else if negb alloc then None
  else if negb memremap then None
  else if nz register_ret then None
  else Some (Mtd map size ESP_SHM_FLASH_BLOCK 1 ESP_SHM_FLASH_DATA_SIZE).

(** Just the enable bits are cleared. *)
Lemma bus_timeouts_off ibus_en dbus_en regs i : 0 <= i < 32 ->
  Z.testbit (fst (disable_bus_timeouts ibus_en dbus_en regs)) i = Z.testbit (fst regs) i && negb (Z.testbit ibus_en i) /\
  Z.testbit (snd (disable_bus_timeouts ibus_en dbus_en regs)) i = Z.testbit (snd regs) i && negb (Z.testbit dbus_en i).
Proof.
  intros H. unfold disable_bus_timeouts, not32. cbn [fst snd]. rewrite !Z.land_spec, !Z.lxor_spec.
  change 4294967295 with (Z.ones 32). rewrite Z.ones_spec_low by lia. by rewrite !xorb_true_r.
Qed.

(** * The NOR flash *)

(** A program can only clear bits; an erase sets all bits of the region. *)
Definition program (c : mem) (a : Z) (bs : list Z) : mem := fun x =>
  if (a <=? x) && (x <? a + zlen bs) then Z.land (c x) (get bs (x - a)) else c x.
Definition erase (c : mem) (a n : Z) : mem := fun x =>
  if (a <=? x) && (x <? a + n) then 255 else c x.

#[export] Instance program_proper : Proper (mem_eq ==> eq ==> eq ==> mem_eq) program.
Proof. intros c c' H a ? <- bs ? <- x. unfold program. by rewrite H. Qed.

Lemma program_nil c a : mem_eq (program c a []) c.
Proof. intros x. unfold program. if_goal; [|done]. rewrite zlen_nil in *. lia. Qed.
Lemma program_app c a l k :
  mem_eq (program (program c a l) (a + zlen l) k) (program c a (l ++ k)).
Proof.
  intros x. unfold program. rewrite zlen_app. pose proof (zlen_nonneg l). pose proof (zlen_nonneg k).
  destruct (Z.leb_spec (a + zlen l) x), (Z.ltb_spec x (a + zlen l + zlen k)), (Z.leb_spec a x),
    (Z.ltb_spec x (a + zlen l)), (Z.ltb_spec x (a + (zlen l + zlen k))); cbn [andb]; try lia; try done.
  - rewrite get_app_r by lia. do 2 f_equal. lia.
  - by rewrite get_app_l by lia.
Qed.
Lemma program_out c a bs x : ~ range a (zlen bs) x -> program c a bs x = c x.
Proof. unfold program, range. intros. if_goal; [lia|done]. Qed.
Lemma load_program_erased c a bs :
  bytes bs -> load_bytes (program (erase c a (zlen bs)) a bs) a (zlen bs) = bs.
Proof.
  intros Hb. pose proof (zlen_nonneg bs).
  apply list_get_eq; rewrite zlen_load_bytes by lia; [done|]. intros i Hi. rewrite get_load_bytes by lia.
  unfold program, erase.
  rewrite (proj2 (Z.leb_le _ _)), (proj2 (Z.ltb_lt _ _)) by lia. cbn [andb].
  replace (a + i - a) with i by lia. pose proof (get_byte bs i Hb) as G. unfold is_byte in G.
  rewrite Z.land_comm, land_255. by apply u8_small.
Qed.

Lemma erase_app c a n k : 0 <= n -> 0 <= k ->
  mem_eq (erase (erase c a n) (a + n) k) (erase c a (n + k)).
Proof.
  intros ? ? x. unfold erase.
  destruct (Z.leb_spec (a + n) x), (Z.ltb_spec x (a + n + k)), (Z.leb_spec a x),
    (Z.ltb_spec x (a + n)), (Z.ltb_spec x (a + (n + k))); cbn [andb]; done || lia.
Qed.
Lemma erase_nil c a : mem_eq (erase c a 0) c.
Proof. intros x. unfold erase. if_goal; [lia|done]. Qed.
#[export] Instance erase_proper : Proper (mem_eq ==> eq ==> eq ==> mem_eq) erase.
Proof. intros c c' H a ? <- n ? <- x. unfold erase. by rewrite H. Qed.

Lemma mbox_store m off off' v :
  0 <= off -> off' + 4 <= off \/ off + 4 <= off' ->
  mbox_read (store32 m (flash_word off') v) off = mbox_read m off.
Proof. intros. apply load32_store32_ne. unfold flash_word. lia. Qed.
Lemma mbox_store_same m off v : mbox_read (store32 m (flash_word off) v) off = u32 v.
Proof. apply load32_store32. Qed.
Lemma mbox_store_data m off bs :
  0 <= off <= 0x20 -> mbox_read (store_bytes m ESP_SHM_FLASH_DATA bs) off = mbox_read m off.
Proof.
  intros. apply load32_ext. intros x Hx. apply store_bytes_out.
  unfold range, flash_word, ESP_SHM_FLASH, ESP_SHM_FLASH_DATA in *. lia.
Qed.
Lemma data_store_cmd m v n :
  load_bytes (store32 m (flash_word ESP_SHM_FLASH_CMD_OFF) v) ESP_SHM_FLASH_DATA n =
  load_bytes m ESP_SHM_FLASH_DATA n.
Proof.
  apply load_bytes_ext. intros x Hx. apply store_bytes_out. rewrite zlen_le32.
  unfold range, flash_word, ESP_SHM_FLASH, ESP_SHM_FLASH_DATA, ESP_SHM_FLASH_CMD_OFF in *. lia.
Qed.

(** The window is a part of the 32-bit flash address space. *)
Definition window_ok (s : flash_fw) : Prop := 0 <= s_base s /\ 0 <= s_size s < 4294967296 /\ s_base s + s_size s <= 4294967296.

Lemma program_valid s addr n :
  window_ok s -> 0 <= addr -> 0 < n -> addr + n <= s_size s ->
  n <= ESP_SHM_FLASH_DATA_SIZE - addr mod ESP_SHM_FLASH_DATA_SIZE ->
  flash_request_valid s ESP_SHM_FLASH_PROGRAM addr n = true.
Proof.
  intros (?&?&?) ? ? ? Hn. unfold flash_request_valid, ESP_SHM_FLASH_DATA_SIZE, ESP_SHM_FLASH_SECTOR in *.
  rewrite (u32_small (s_size s - addr)) by lia. rewrite (u32_small (_ + _)) by zlia. cbn.
  rewrite Z.geb_leb, (proj2 (Z.leb_gt _ _)), Z.gtb_ltb, (proj2 (Z.ltb_ge _ _)) by lia.
  cbn. rewrite (proj2 (Z.leb_le _ _)), (proj2 (Z.leb_le _ _)) by zlia. done.
Qed.
Lemma erase_valid s addr :
  window_ok s -> 0 <= addr -> addr + ESP_SHM_FLASH_BLOCK <= s_size s ->
  addr mod ESP_SHM_FLASH_BLOCK = 0 ->
  flash_request_valid s ESP_SHM_FLASH_ERASE addr ESP_SHM_FLASH_BLOCK = true.
Proof.
  intros (?&?&?) ? ? Hm. unfold flash_request_valid, ESP_SHM_FLASH_BLOCK in *.
  rewrite u32_small by lia.
  rewrite Z.geb_leb, (proj2 (Z.leb_gt _ _)), Z.gtb_ltb, (proj2 (Z.ltb_ge _ _)), Hm by lia. done.
Qed.

(** What an accepted request may touch. *)
Lemma request_valid_inv s cmd addr len :
  window_ok s -> 0 <= addr < 4294967296 -> 0 <= len < 4294967296 ->
  flash_request_valid s cmd addr len = true ->
  addr < s_size s /\ addr + len <= s_size s /\
  (cmd = ESP_SHM_FLASH_ERASE /\ addr mod ESP_SHM_FLASH_BLOCK = 0 /\ len = ESP_SHM_FLASH_BLOCK \/
   cmd = ESP_SHM_FLASH_PROGRAM /\ len <= ESP_SHM_FLASH_DATA_SIZE /\
   addr / ESP_SHM_FLASH_SECTOR = (addr + Z.max 0 (len - 1)) / ESP_SHM_FLASH_SECTOR).
Proof.
  intros (?&?&?) ? ? Hv. unfold flash_request_valid in Hv.
  destruct (_ || _) eqn:E; [done|]. bool_prop. rewrite (u32_small (s_size s - addr)) in * by lia.
  split; [lia|]. split; [lia|]. destruct (cmd =? ESP_SHM_FLASH_ERASE) eqn:C; bool_prop; [by left|right].
  unfold ESP_SHM_FLASH_SECTOR, ESP_SHM_FLASH_DATA_SIZE in *.
  rewrite u32_small in * by zlia. split_and!; [done..|]. zlia.
Qed.

(** Two offsets of words, as numbers. *)
Ltac off_ne := first [done | left; done | right; done].

Section Window.
Context (esp_flash_write : mem -> list Z -> Z -> mem * Z)
        (esp_flash_erase_region : mem -> Z -> Z -> mem * Z) (s : flash_fw).
(** An operation that succeeds does what the chip does; one that fails has
    touched nothing outside of its range; a result is an int. *)
Context (write_ok : forall c bs a, (esp_flash_write c bs a).2 = ESP_OK ->
           mem_eq (esp_flash_write c bs a).1 (program c a bs))
        (write_frame : forall c bs a,
           agree (fun x => ~ range a (zlen bs) x) c (esp_flash_write c bs a).1)
        (write_err : forall c bs a, 0 <= (esp_flash_write c bs a).2 < 4294967296)
        (erase_ok : forall c a n, (esp_flash_erase_region c a n).2 = ESP_OK ->
           mem_eq (esp_flash_erase_region c a n).1 (erase c a n))
        (erase_frame : forall c a n,
           agree (fun x => ~ range a n x) c (esp_flash_erase_region c a n).1)
        (erase_err : forall c a n, 0 <= (esp_flash_erase_region c a n).2 < 4294967296).
Context (Hs : window_ok s).

Abbreviation cmd := (esp_shm_flash_cmd esp_flash_write esp_flash_erase_region s).

(** No request is in the mailbox. *)
Definition idle (w : fworld) : Prop := mbox_read (fmem w) ESP_SHM_FLASH_CMD_OFF = 0.
(** A valid request is in the mailbox. *)
Definition pending (w : fworld) : Prop :=
  mbox_read (fmem w) ESP_SHM_FLASH_CMD_OFF <> 0 /\
  flash_request_valid s (mbox_read (fmem w) ESP_SHM_FLASH_CMD_OFF)
    (mbox_read (fmem w) ESP_SHM_FLASH_ADDR_OFF)
    (mbox_read (fmem w) ESP_SHM_FLASH_LEN_OFF) = true.

(** A command whose request is valid: the timeout leaves it pending; else the
    firmware has carried it out. *)
Lemma cmd_spec served w c addr buf len ret w' :
  idle w -> 0 <= addr < 4294967296 -> 0 <= len < 4294967296 ->
  c = ESP_SHM_FLASH_PROGRAM /\ zlen buf = len \/ c = ESP_SHM_FLASH_ERASE ->
  flash_request_valid s c addr len = true ->
  cmd served w c addr buf len = (ret, w') ->
  let op := if c =? ESP_SHM_FLASH_PROGRAM then esp_flash_write (chip w) buf (s_base s + addr)
            else esp_flash_erase_region (chip w) (s_base s + addr) len in
  if served then
    idle w' /\ chip w' = op.1 /\ ret = (if u32 op.2 =? 0 then 0 else - EIO)
  else pending w' /\ chip w' = chip w /\ ret = - ETIMEDOUT.
Proof using Hs.
  intros Hi Ha Hl Hc Hv. unfold esp_shm_flash_cmd. rewrite Hi. cbn [nz Z.eqb negb].
  set (m1 := store32 (fmem w) _ addr). set (m2 := store32 m1 _ len).
  set (m3 := if c =? ESP_SHM_FLASH_PROGRAM then _ else m2). set (m4 := store32 m3 _ c).
  assert (0 < c < 256) as Hc' by (destruct Hc as [[-> _]| -> ]; done).
  assert (mbox_read m4 ESP_SHM_FLASH_CMD_OFF = c) as E1.
  { unfold m4. rewrite mbox_store_same. apply u32_small. lia. }
  assert (mbox_read m4 ESP_SHM_FLASH_ADDR_OFF = addr) as E2.
  { unfold m4. rewrite mbox_store by off_ne.
    transitivity (mbox_read m2 ESP_SHM_FLASH_ADDR_OFF).
    - unfold m3. destruct (c =? _); [by apply mbox_store_data|done].
    - unfold m2. rewrite mbox_store by off_ne.
      unfold m1. rewrite mbox_store_same. by apply u32_small. }
  assert (mbox_read m4 ESP_SHM_FLASH_LEN_OFF = len) as E3.
  { unfold m4. rewrite mbox_store by off_ne.
    transitivity (mbox_read m2 ESP_SHM_FLASH_LEN_OFF).
    - unfold m3. destruct (c =? _); [by apply mbox_store_data|done].
    - unfold m2. rewrite mbox_store_same. by apply u32_small. }
  destruct served.
  - unfold flash_task. cbn [fmem chip]. unfold shm_flash_service.
    rewrite E1, E2, E3, Hv. rewrite (proj2 (Z.eqb_neq c 0)) by lia. cbn [negb].
    unfold flash_op.
    destruct (request_valid_inv s c addr len Hs Ha Hl Hv) as (Hr & _).
    rewrite u32_small by (destruct Hs as (?&?&?); lia).
    set (op := if c =? _ then esp_flash_write _ (load_bytes _ _ _) _ else _).
    assert (op = if c =? ESP_SHM_FLASH_PROGRAM
      then esp_flash_write (chip w) buf (s_base s + addr)
      else esp_flash_erase_region (chip w) (s_base s + addr) len) as <-.
    { unfold op. destruct (Z.eqb_spec c ESP_SHM_FLASH_PROGRAM) as [->|]; [|done].
      destruct Hc as [[_ <-]|]; [|done]. f_equal. unfold m4, m3.
      rewrite data_store_cmd. apply load_store_bytes. }
    destruct op as [c' err]. cbn [fmem chip fst snd].
    rewrite mbox_store_same. change (nz (u32 0)) with false. cbn [negb].
    rewrite (mbox_store _ ESP_SHM_FLASH_STATUS_OFF) by off_ne.
    rewrite mbox_store_same. unfold nz. intros H.
    destruct (u32 err =? 0); cbn [negb] in H; injection H as <- <-; cbn; split_and!; try done.
    all: unfold idle; cbn [fmem]; by rewrite mbox_store_same.
  - cbn [fmem chip]. rewrite E1. unfold nz at 1.
    rewrite (proj2 (Z.eqb_neq c 0)) by lia. cbn [negb]. intros [= <- <-].
    split_and!; try done. split; cbn [fmem]; rewrite E1; [lia|]. by rewrite E2, E3.
Qed.

(** What esp_shm_flash_write() did when it stopped after [n] bytes. *)
Definition write_result (w : fworld) (a : Z) (buf : list Z) (ret n : Z) (w' : fworld) : Prop :=
  0 <= n <= zlen buf /\
  agree (fun x => ~ range (a + n) (zlen buf - n) x) (program (chip w) a (ztake n buf)) (chip w') /\
  (ret = 0 /\ n = zlen buf /\ idle w' \/
   ret = - ETIMEDOUT /\ n < zlen buf /\ pending w' /\
     mem_eq (program (chip w) a (ztake n buf)) (chip w') \/
   ret = - EIO /\ n < zlen buf /\ idle w').

Lemma write_block to (buf : list Z) :
  0 <= to -> 0 < zlen buf -> to + zlen buf <= s_size s ->
  let n := u32 (Z.min (zlen buf) (ESP_SHM_FLASH_DATA_SIZE - to mod ESP_SHM_FLASH_DATA_SIZE)) in
  0 < n <= zlen buf /\ n <= ESP_SHM_FLASH_DATA_SIZE - to mod ESP_SHM_FLASH_DATA_SIZE.
Proof using Hs.
  destruct Hs as (?&?&?). unfold ESP_SHM_FLASH_DATA_SIZE. intros.
  rewrite u32_small by zlia. zlia.
Qed.

Lemma write_result_step w to buf n w1 ret k w' :
  0 < n <= zlen buf ->
  mem_eq (chip w1) (program (chip w) (s_base s + to) (ztake n buf)) ->
  write_result w1 (s_base s + (to + n)) (zdrop n buf) ret k w' ->
  write_result w (s_base s + to) buf ret (n + k) w'.
Proof.
  intros Hn E (Hk & A & R). rewrite zlen_zdrop in * by lia.
  assert (mem_eq (program (chip w1) (s_base s + (to + n)) (ztake k (zdrop n buf)))
                 (program (chip w) (s_base s + to) (ztake (n + k) buf))) as P.
  { rewrite E. replace (s_base s + (to + n)) with (s_base s + to + zlen (ztake n buf)) by llia.
    rewrite program_app. unfold ztake, zdrop. rewrite take_take_drop.
    replace (Z.to_nat n + Z.to_nat k)%nat with (Z.to_nat (n + k)) by lia. done. }
  split; [lia|]. split.
  - intros x Hx. rewrite <- P. apply A. unfold range in *. lia.
  - destruct R as [(?&?&?)|[(?&?&?&?)|(?&?&?)]].
    + left. split_and!; [done|lia|done].
    + right; left. split_and!; [done|lia|done|]. by rewrite <- P.
    + right; right. split_and!; [done|lia|done].
Qed.

Lemma write_loop_spec fuel : forall serve w to buf retlen,
  (length buf <= fuel)%nat -> idle w -> 0 <= to -> to + zlen buf <= s_size s ->
  exists ret n w',
    flash_write_loop esp_flash_write esp_flash_erase_region s fuel serve w to buf retlen =
      Some (ret, retlen + n, w') /\
    write_result w (s_base s + to) buf ret n w' /\
    ((forall c bs a, (esp_flash_write c bs a).2 = ESP_OK) -> Forall (eq true) serve -> ret = 0).
Proof using Hs write_ok write_frame write_err.
  induction fuel as [|fuel IH]; intros serve w to buf retlen Hf Hi Ht Hl.
  all: cbn [flash_write_loop]; destruct (Z.eqb_spec (zlen buf) 0) as [E0|E0].
  1,3: exists 0, 0, w; rewrite Z.add_0_r; split_and!; try done; split; [lia|split; [|left; split_and!; done||lia]].
  1,2: apply zlen_0_nil in E0; subst; intros x _; by rewrite ztake_0, program_nil.
  { unfold zlen in E0. lia. }
  pose proof (zlen_nonneg buf).
  destruct (write_block to buf Ht ltac:(lia) Hl) as [Hn Hn']. cbn zeta in Hn, Hn'.
  set (n := u32 (Z.min _ _)) in *.
  destruct (esp_shm_flash_cmd _ _ _ _ _ _ _ _ _) as [ret w1] eqn:Ec.
  pose proof Hs as (?&?&?).
  rewrite (u32_small to) in Ec by lia.
  apply cmd_spec in Ec; [|done|lia|lia|left; split; [done|llia]|apply program_valid; done || lia].
  cbn zeta in Ec. rewrite (Z.eqb_refl ESP_SHM_FLASH_PROGRAM) in Ec.
  destruct (hd true serve) eqn:Eh.
  - destruct Ec as (Hi1 & Hc1 & Hr).
    rewrite u32_small in Hr by apply write_err.
    destruct (Z.eqb_spec (esp_flash_write (chip w) (ztake n buf) (s_base s + to)).2 0) as [E|E];
      subst ret; cbn [nz Z.eqb negb].
    + destruct (IH (tl serve) w1 (to + n) (zdrop n buf) (retlen + n)) as (ret & k & w' & L & R & O);
        [unfold zdrop; rewrite length_drop; lia|done|lia|llia|].
      exists ret, (n + k), w'. split; [|split].
      * rewrite Z.add_assoc. exact L.
      * apply write_result_step with w1; [done| |done]. rewrite Hc1. by apply write_ok.
      * intros Ho Hv. apply O; [done|]. destruct serve; [done|by inversion Hv].
    + exists (- EIO), 0, w1. rewrite Z.add_0_r. split; [done|]. split.
      * split; [lia|]. split; [|right; right; split_and!; done || lia].
        intros x Hx. rewrite ztake_0, program_nil, Hc1. apply write_frame.
        unfold range in *. rewrite zlen_ztake by lia. lia.
      * intros Ho. by rewrite Ho in E.
  - destruct Ec as (Hp & Hc1 & ->). cbn [nz Z.eqb negb].
    exists (- ETIMEDOUT), 0, w1. rewrite Z.add_0_r. split; [done|]. split.
    + split; [lia|]. rewrite ztake_0, Hc1. split.
      * intros x _. by rewrite program_nil.
      * right; left. split_and!; try done; [lia|]. by rewrite program_nil.
    + intros _ Hv. destruct serve; [done|]. inversion Hv. subst. done.
Qed.

(** What esp_shm_flash_erase() did when it stopped before the block at [a]. *)
Definition erase_result (w : fworld) (addr stop ret : Z) (fail : option Z) (w' : fworld) : Prop :=
  match fail with
  | None => ret = 0 /\ idle w' /\ mem_eq (erase (chip w) (s_base s + addr) (stop - addr)) (chip w')
  | Some a =>
      addr <= a < stop /\ (a - addr) mod ESP_SHM_FLASH_BLOCK = 0 /\
      (ret = - ETIMEDOUT /\ pending w' \/ ret = - EIO /\ idle w') /\
      agree (fun x => ~ range (s_base s + a) ESP_SHM_FLASH_BLOCK x)
        (erase (chip w) (s_base s + addr) (a - addr)) (chip w')
  end.

Lemma erase_result_step w w1 addr stop ret fail w' :
  addr + ESP_SHM_FLASH_BLOCK <= stop ->
  mem_eq (chip w1) (erase (chip w) (s_base s + addr) ESP_SHM_FLASH_BLOCK) ->
  erase_result w1 (addr + ESP_SHM_FLASH_BLOCK) stop ret fail w' ->
  erase_result w addr stop ret fail w'.
Proof.
  intros Hs' E. assert (forall k, 0 <= k ->
    mem_eq (erase (chip w1) (s_base s + (addr + ESP_SHM_FLASH_BLOCK)) k)
           (erase (chip w) (s_base s + addr) (ESP_SHM_FLASH_BLOCK + k))) as X.
  { intros k Hk. rewrite E, Z.add_assoc. by apply erase_app. }
  unfold erase_result. destruct fail as [a|].
  - intros (Ha & Hm & Hr & A). assert (0 < ESP_SHM_FLASH_BLOCK) by done. split_and!; [lia|lia| |done|].
    + unfold ESP_SHM_FLASH_BLOCK in *. zlia.
    + intros x Hx. rewrite <- A by done.
      replace (a - addr) with (ESP_SHM_FLASH_BLOCK + (a - (addr + ESP_SHM_FLASH_BLOCK))) by lia.
      symmetry. apply X. lia.
  - intros (-> & Hi & A). split_and!; try done. rewrite <- A, (X (stop - (addr + ESP_SHM_FLASH_BLOCK))) by lia.
    by replace (ESP_SHM_FLASH_BLOCK + _) with (stop - addr) by lia.
Qed.

Lemma erase_loop_spec fuel : forall serve w addr stop,
  idle w -> 0 <= addr -> addr <= stop <= s_size s ->
  addr mod ESP_SHM_FLASH_BLOCK = 0 -> stop mod ESP_SHM_FLASH_BLOCK = 0 ->
  stop - addr <= Z.of_nat fuel * ESP_SHM_FLASH_BLOCK ->
  exists ret fail w',
    flash_erase_loop esp_flash_write esp_flash_erase_region s fuel serve w addr stop =
      Some (ret, fail, w') /\
    erase_result w addr stop ret fail w' /\
    ((forall c a n, (esp_flash_erase_region c a n).2 = ESP_OK) -> Forall (eq true) serve -> ret = 0).
Proof using Hs erase_ok erase_frame erase_err.
  pose proof Hs as (?&?&?).
  induction fuel as [|fuel IH]; intros serve w addr stop Hi Ha Hst Hm1 Hm2 Hf.
  all: cbn [flash_erase_loop]; destruct (Z.ltb_spec addr stop) as [L|L].
  1: lia.
  1,3: exists 0, None, w; split_and!; try done; split_and!; try done;
    replace (stop - addr) with 0 by lia; by rewrite erase_nil.
  assert (addr + ESP_SHM_FLASH_BLOCK <= stop) as Hb by (unfold ESP_SHM_FLASH_BLOCK in *; zlia).
  destruct (esp_shm_flash_cmd _ _ _ _ _ _ _ _ _) as [ret w1] eqn:Ec.
  rewrite (u32_small addr) in Ec by lia.
  apply cmd_spec in Ec; [|done|lia|done|by right|apply erase_valid; done || lia].
  cbn zeta in Ec. change (ESP_SHM_FLASH_ERASE =? ESP_SHM_FLASH_PROGRAM) with false in Ec.
  cbv iota in Ec. destruct (hd true serve) eqn:Eh.
  - destruct Ec as (Hi1 & Hc1 & Hr). rewrite u32_small in Hr by apply erase_err.
    destruct (Z.eqb_spec (esp_flash_erase_region (chip w) (s_base s + addr)
      ESP_SHM_FLASH_BLOCK).2 0) as [E|E]; subst ret; cbn [nz Z.eqb negb].
    + rewrite u64_small by (unfold ESP_SHM_FLASH_BLOCK; lia).
      destruct (IH (tl serve) w1 (addr + ESP_SHM_FLASH_BLOCK) stop) as (ret & fail & w' & E1 & R & O);
        try done; try (unfold ESP_SHM_FLASH_BLOCK in *; zlia).
      exists ret, fail, w'. split_and!; [done| |].
      * apply erase_result_step with w1; [lia| |done]. rewrite Hc1. by apply erase_ok.
      * intros Ho Hv. apply O; [done|]. destruct serve; [done|by inversion Hv].
    + exists (- EIO), (Some addr), w1. split_and!; [done| |].
      * split_and!; [lia|lia|by rewrite Z.sub_diag|by right|].
        intros x Hx. rewrite Z.sub_diag, erase_nil, Hc1. by apply erase_frame.
      * intros Ho. by rewrite Ho in E.
  - destruct Ec as (Hp & Hc1 & ->). cbn [nz Z.eqb negb].
    exists (- ETIMEDOUT), (Some addr), w1. split_and!; [done| |].
    + split_and!; [lia|lia|by rewrite Z.sub_diag|by left|].
      intros x _. by rewrite Z.sub_diag, erase_nil, Hc1.
    + intros _ Hv. destruct serve; [done|]. inversion Hv. subst. done.
Qed.

(** * Properties *)

(** Esp_shm_flash_write() ends for each buffer inside the window, whatever
    the firmware is late with or the chip refuses.  The bytes before the one
    where it stopped are programmed at the window's place in the flash, in
    order; after an error of the chip only bytes of the rest can have
    changed, after a timeout none has and the request is still pending in
    the mailbox; every request that it makes is one that the firmware
    accepts, so with a prompt firmware and a working chip it returns 0. *)
Theorem esp_shm_flash_write_correct serve w to buf :
  idle w -> 0 <= to -> to + zlen buf <= s_size s ->
  exists ret n w',
    esp_shm_flash_write esp_flash_write esp_flash_erase_region s serve w to buf = Some (ret, n, w') /\
    write_result w (s_base s + to) buf ret n w' /\
    ((forall c bs a, (esp_flash_write c bs a).2 = ESP_OK) -> Forall (eq true) serve -> ret = 0).
Proof using Hs write_ok write_frame write_err.
  intros Hi Ht Hl.
  destruct (write_loop_spec (length buf) serve w to buf 0 (le_n _) Hi Ht Hl) as (ret & n & w' & E & R).
  by exists ret, n, w'.
Qed.

(** Esp_shm_flash_erase() of blocks of the window ends, and erases exactly
    the blocks before [fail_addr], or all of them when it returns 0. *)
Theorem esp_shm_flash_erase_correct serve w addr len :
  idle w -> 0 <= addr -> 0 <= len -> addr + len <= s_size s ->
  addr mod ESP_SHM_FLASH_BLOCK = 0 -> len mod ESP_SHM_FLASH_BLOCK = 0 ->
  exists ret fail w',
    esp_shm_flash_erase esp_flash_write esp_flash_erase_region s serve w addr len =
      Some (ret, fail, w') /\
    erase_result w addr (addr + len) ret fail w' /\
    ((forall c a n, (esp_flash_erase_region c a n).2 = ESP_OK) -> Forall (eq true) serve -> ret = 0).
Proof using Hs erase_ok erase_frame erase_err.
  intros Hi Ha Hl Hs' Hm1 Hm2. pose proof Hs as (?&?&?). unfold esp_shm_flash_erase.
  rewrite u64_small by lia.
  apply erase_loop_spec; try done; unfold ESP_SHM_FLASH_BLOCK in *; zlia.
Qed.

(** C11: the round trip of the flash: after an erase and a write that both
    returned 0, a read of the same place gives the bytes that were written,
    and the rest of the erased blocks reads as 0xff. *)
Theorem esp_shm_flash_roundtrip w addr len to buf w1 n w2 :
  idle w -> 0 <= addr -> 0 <= len -> addr + len <= s_size s ->
  addr mod ESP_SHM_FLASH_BLOCK = 0 -> len mod ESP_SHM_FLASH_BLOCK = 0 ->
  addr <= to -> to + zlen buf <= addr + len -> bytes buf ->
  esp_shm_flash_erase esp_flash_write esp_flash_erase_region s [] w addr len = Some (0, None, w1) ->
  esp_shm_flash_write esp_flash_write esp_flash_erase_region s [] w1 to buf = Some (0, n, w2) ->
  n = zlen buf /\
  esp_shm_flash_read s w2 to (zlen buf) = (0, buf) /\
  (forall i, addr <= i < addr + len -> ~ range to (zlen buf) i ->
     esp_shm_flash_read s w2 i 1 = (0, [255])).
Proof using Hs write_ok write_frame write_err erase_ok erase_frame erase_err.
  intros Hi Ha Hl Hs' Hm1 Hm2 Ht Hb By E1 E2. pose proof Hs as (?&?&?). pose proof (zlen_nonneg buf).
  unfold esp_shm_flash_erase in E1. rewrite u64_small in E1 by lia.
  destruct (erase_loop_spec (S (Z.to_nat (len / ESP_SHM_FLASH_BLOCK))) [] w addr (addr + len))
    as (ret & fail & w1' & E1' & R1 & _); try done; try (unfold ESP_SHM_FLASH_BLOCK in *; zlia).
  rewrite E1 in E1'. injection E1' as <- <- <-. destruct R1 as (_ & Hi1 & C1).
  replace (addr + len - addr) with len in C1 by lia.
  destruct (write_loop_spec (length buf) [] w1 to buf 0 (le_n _) Hi1 ltac:(lia) ltac:(lia))
    as (ret & k & w2' & E2' & (Hk & A & R2) & _).
  unfold esp_shm_flash_write in E2. rewrite E2 in E2'. injection E2' as <- -> <-.
  destruct R2 as [(_ & -> & _)|[(? & _)|(? & _)]]; [|done..]. split; [done|].
  assert (forall x, chip w2 x = program (erase (chip w) (s_base s + addr) len) (s_base s + to) buf x) as C2.
  { intros x. rewrite <- A by (unfold range; lia). rewrite ztake_ge by lia.
    by apply program_proper. }
  unfold esp_shm_flash_read. split.
  - f_equal. rewrite <- (load_program_erased (chip w) (s_base s + to) buf By) at 2.
    apply load_bytes_ext. intros x Hx. rewrite C2. unfold program, erase, range in *.
    rewrite (proj2 (Z.leb_le (s_base s + to) x)), (proj2 (Z.ltb_lt x (s_base s + to + zlen buf))),
      (proj2 (Z.leb_le (s_base s + addr) x)), (proj2 (Z.ltb_lt x (s_base s + addr + len))) by lia.
    done.
  - intros i Hii Hn. f_equal. change [255] with (load_bytes (fun _ => 255) (s_base s + i) 1).
    apply load_bytes_ext. intros x Hx. rewrite C2, program_out by (unfold range in *; lia).
    unfold erase, range in *. if_goal; [done|lia].
Qed.

(** C12: the firmware carries out whatever request it finds in the mailbox
    only inside of the window: with any contents of the shared block, only
    flash of the window changes, a request that is not valid is refused with
    ESP_ERR_INVALID_ARG and changes no flash at all, each request is answered
    and the command word is clear afterwards; in the shared block only the
    command and the status change. *)
Theorem shm_flash_service_safe m c :
  mem_ok m ->
  let '(done, m', c') := shm_flash_service esp_flash_write esp_flash_erase_region s m c in
  done = nz (mbox_read m ESP_SHM_FLASH_CMD_OFF) /\
  mbox_read m' ESP_SHM_FLASH_CMD_OFF = 0 /\
  agree (fun x => ~ range (s_base s) (s_size s) x) c c' /\
  agree (fun x => ~ range (flash_word ESP_SHM_FLASH_CMD_OFF) 8 x) m m' /\
  (done = true ->
   flash_request_valid s (mbox_read m ESP_SHM_FLASH_CMD_OFF) (mbox_read m ESP_SHM_FLASH_ADDR_OFF)
     (mbox_read m ESP_SHM_FLASH_LEN_OFF) = false ->
   c' = c /\ mbox_read m' ESP_SHM_FLASH_STATUS_OFF = ESP_ERR_INVALID_ARG).
Proof using Hs write_frame erase_frame.
  intros M. unfold shm_flash_service.
  set (k := mbox_read m ESP_SHM_FLASH_CMD_OFF). set (a := mbox_read m ESP_SHM_FLASH_ADDR_OFF).
  set (n := mbox_read m ESP_SHM_FLASH_LEN_OFF).
  assert (0 <= a < 4294967296) as Ha by by apply load32_range.
  assert (0 <= n < 4294967296) as Hn by by apply load32_range.
  destruct (Z.eqb_spec k 0) as [E|E].
  { rewrite E. split_and!; done. }
  assert (forall c' err, agree (fun x => ~ range (s_base s) (s_size s) x) c c' ->
    (flash_request_valid s k a n = false -> c' = c /\ u32 err = ESP_ERR_INVALID_ARG) ->
    let m' := store32 (store32 m (flash_word ESP_SHM_FLASH_STATUS_OFF) err)
                      (flash_word ESP_SHM_FLASH_CMD_OFF) 0 in
    true = nz k /\ mbox_read m' ESP_SHM_FLASH_CMD_OFF = 0 /\
    agree (fun x => ~ range (s_base s) (s_size s) x) c c' /\
    agree (fun x => ~ range (flash_word ESP_SHM_FLASH_CMD_OFF) 8 x) m m' /\
    (true = true -> flash_request_valid s k a n = false ->
     c' = c /\ mbox_read m' ESP_SHM_FLASH_STATUS_OFF = ESP_ERR_INVALID_ARG)) as X.
  { intros c' err A1 A2. split_and!; [by symmetry; apply nz_true|by rewrite mbox_store_same|done| |].
    - intros x Hx. unfold store32. rewrite !store_bytes_out; [done|..]; rewrite zlen_le32;
        unfold range, flash_word, ESP_SHM_FLASH_CMD_OFF, ESP_SHM_FLASH_STATUS_OFF in *; lia.
    - intros _ V. destruct (A2 V) as [-> <-]. split; [done|].
      rewrite mbox_store by off_ne. apply mbox_store_same. }
  destruct (flash_request_valid s k a n) eqn:V; cbn [negb]; [|by apply X].
  destruct (request_valid_inv s k a n Hs Ha Hn V) as (B1 & B2 & K). pose proof Hs as (?&?&?).
  unfold flash_op. rewrite u32_small by lia.
  destruct (k =? ESP_SHM_FLASH_PROGRAM) eqn:P.
  - destruct (esp_flash_write _ _ _) as [c' err] eqn:O. apply X; [|done].
    intros x Hx. pose proof (write_frame c (load_bytes m ESP_SHM_FLASH_DATA n) (s_base s + a)) as F.
    rewrite O in F. apply F. rewrite zlen_load_bytes by lia. unfold range in *. lia.
  - destruct (esp_flash_erase_region _ _ _) as [c' err] eqn:O. apply X; [|done].
    intros x Hx. pose proof (erase_frame c (s_base s + a) n) as F.
    rewrite O in F. apply F. unfold range in *. lia.
Qed.
End Window.

(** * Instances: a chip that always succeeds *)

Definition ideal_write (c : mem) (bs : list Z) (a : Z) : mem * Z := (program c a bs, ESP_OK).
Definition ideal_erase (c : mem) (a n : Z) : mem * Z := (erase c a n, ESP_OK).
Definition window1 : flash_fw := FlashFw 0x100000 0x20000 true.
Definition fworld0 : fworld := FWorld (fun _ => 0) (fun _ => 90) 0 0.

Lemma ideal_write_ok c bs a : (ideal_write c bs a).2 = ESP_OK ->
  mem_eq (ideal_write c bs a).1 (program c a bs).
Proof. done. Qed.
Lemma ideal_write_frame c bs a : agree (fun x => ~ range a (zlen bs) x) c (ideal_write c bs a).1.
Proof. intros x Hx. symmetry. by apply program_out. Qed.
Lemma ideal_write_err c bs a : 0 <= (ideal_write c bs a).2 < 4294967296.
Proof. done. Qed.
Lemma ideal_erase_ok c a n : (ideal_erase c a n).2 = ESP_OK ->
  mem_eq (ideal_erase c a n).1 (erase c a n).
Proof. done. Qed.
Lemma ideal_erase_frame c a n : agree (fun x => ~ range a n x) c (ideal_erase c a n).1.
Proof. intros x Hx. unfold ideal_erase, erase, range in *. cbn. if_goal; [lia|done]. Qed.
Lemma ideal_erase_err c a n : 0 <= (ideal_erase c a n).2 < 4294967296.
Proof. done. Qed.
Lemma window1_ok : window_ok window1.
Proof. unfold window_ok. cbn. lia. Qed.

Lemma esp_shm_flash_write_witness :
  exists ret n w', esp_shm_flash_write ideal_write ideal_erase window1 [] fworld0 2040 (zeros 100) =
    Some (ret, n, w') /\ ret = 0.
Proof.
  destruct (esp_shm_flash_write_correct ideal_write ideal_erase window1 ideal_write_ok
    ideal_write_frame ideal_write_err window1_ok [] fworld0 2040 (zeros 100))
    as (ret & n & w' & E & _ & H); [reflexivity|lia|vm_compute; congruence|].
  exists ret, n, w'. split; [exact E|]. apply H; [reflexivity|constructor].
Defined.
Lemma esp_shm_flash_erase_witness :
  exists ret fail w', esp_shm_flash_erase ideal_write ideal_erase window1 [] fworld0 0 0x20000 =
    Some (ret, fail, w') /\ ret = 0.
Proof.
  destruct (esp_shm_flash_erase_correct ideal_write ideal_erase window1 ideal_erase_ok
    ideal_erase_frame ideal_erase_err window1_ok [] fworld0 0 0x20000)
    as (ret & fail & w' & E & _ & H); [reflexivity|lia|lia|vm_compute; congruence|reflexivity..|].
  exists ret, fail, w'. split; [exact E|]. apply H; [reflexivity|constructor].
Defined.
Lemma esp_shm_flash_roundtrip_witness :
  exists w1 n w2,
    esp_shm_flash_erase ideal_write ideal_erase window1 [] fworld0 0 0x10000 = Some (0, None, w1) /\
    esp_shm_flash_write ideal_write ideal_erase window1 [] w1 2047 [1; 2; 3] = Some (0, n, w2) /\
    esp_shm_flash_read window1 w2 2047 3 = (0, [1; 2; 3]).
Proof.
  destruct (erase_loop_spec ideal_write ideal_erase window1 ideal_erase_ok ideal_erase_frame
    ideal_erase_err window1_ok 2 [] fworld0 0 0x10000)
    as (r1 & fl & w1 & E1 & R1 & O1); [reflexivity|lia|cbn; lia|reflexivity..|vm_compute; congruence|].
  pose proof (O1 ltac:(reflexivity) ltac:(constructor)) as ->.
  destruct fl as [a|]; [destruct R1 as (_&_&[(?&_)|(?&_)]&_); discriminate|].
  destruct R1 as (_ & Hi & _).
  destruct (write_loop_spec ideal_write ideal_erase window1 ideal_write_ok ideal_write_frame
    ideal_write_err window1_ok 3 [] w1 2047 [1; 2; 3] 0)
    as (r2 & n & w2 & E2 & R2 & O2); [cbn; lia|exact Hi|lia|vm_compute; congruence|].
  pose proof (O2 ltac:(reflexivity) ltac:(constructor)) as ->.
  exists w1, (0 + n), w2. split; [exact E1|]. split; [exact E2|].
  apply (esp_shm_flash_roundtrip ideal_write ideal_erase window1 ideal_write_ok ideal_write_frame
    ideal_write_err ideal_erase_ok ideal_erase_frame ideal_erase_err window1_ok fworld0 0 0x10000
    2047 [1; 2; 3] w1 (0 + n) w2); try exact E1; try exact E2;
    try reflexivity; try lia; try (vm_compute; congruence).
  repeat constructor; lia.
Defined.
Lemma shm_flash_service_witness :
  mbox_read (shm_flash_service ideal_write ideal_erase window1 (fun _ => 1) (fun _ => 0)).1.2
    ESP_SHM_FLASH_CMD_OFF = 0.
Proof.
  pose proof (shm_flash_service_safe ideal_write ideal_erase window1 ideal_write_frame
    ideal_erase_frame window1_ok (fun _ => 1) (fun _ => 0) ltac:(intros x; cbv; split; congruence)) as H.
  destruct (shm_flash_service ideal_write ideal_erase window1 _ _) as [[d m'] c'].
  destruct H as (_ & H & _). exact H.
Defined.
