(* ===== verification/ShmFw.v ===== *)
(** The firmware side of the transport:
    bootloader/components/esp_hosted/shm_slave_api.c.

    A wait on a semaphore lets the other hart run: the functions that wait take
    the list of what it does to the shared block during each wait, and give
    [None] when that list ends while they still wait.  The esp_hosted
    structures (the payload header, the boot event, the MAC record) are not in
    this repository: they are parameters. *)

From S2P Require Import Prelude Mem Ring RingQueue Flash.

Definition SHM_TO_HOST_FRAME_MAX : Z := 16 * 1024.
Definition SHM_TO_FW_FRAME_MAX : Z := 8 * 1024.
Definition ESP_FAIL : Z := -1.
Definition ESP_ERR_NO_MEM : Z := 0x101.

(** Calls out of the file. *)
Inductive fw_event :=
| EvSendToHost (payload : list Z)   (** send_to_host(PRIO_Q_HIGH, ...) *)
| EvFlashKick                       (** shm_flash_kick() *)
| EvPoweroff                        (** esp_wifi_stop(), esp_deep_sleep_start() *)
| EvIntrFree                        (** esp_intr_free() *)
| EvSemDelete.                      (** vSemaphoreDelete() *)

(** The static variables; a semaphore is [None] before it is created, else
    whether it is given. *)
Record fw := Fw {
  fw_shm : mem;
  reg_to_host : Z;            (** DOORBELL_TO_HOST_REG *)
  reg_from_host : Z;          (** DOORBELL_FROM_HOST_REG *)
  s_rx_sem : option bool;
  s_space_sem : option bool;
  s_intr : bool;
  s_handle_init : bool;       (** s_handle.state = INIT *)
  s_boot : option (Z * Z);    (** s_boot_cap, s_boot_ext_cap when they are valid *)
  s_flash : flash_fw;
  fw_events : list fw_event }.

Definition with_shm (f : mem -> mem) (st : fw) : fw :=
  Fw (f (fw_shm st)) (reg_to_host st) (reg_from_host st) (s_rx_sem st) (s_space_sem st)
     (s_intr st) (s_handle_init st) (s_boot st) (s_flash st) (fw_events st).
Definition with_regs (a b : Z) (st : fw) : fw :=
  Fw (fw_shm st) a b (s_rx_sem st) (s_space_sem st)
     (s_intr st) (s_handle_init st) (s_boot st) (s_flash st) (fw_events st).
Definition with_sems (a b : option bool) (st : fw) : fw :=
  Fw (fw_shm st) (reg_to_host st) (reg_from_host st) a b
     (s_intr st) (s_handle_init st) (s_boot st) (s_flash st) (fw_events st).
Definition with_intr (b : bool) (st : fw) : fw :=
  Fw (fw_shm st) (reg_to_host st) (reg_from_host st) (s_rx_sem st) (s_space_sem st)
     b (s_handle_init st) (s_boot st) (s_flash st) (fw_events st).
Definition with_init (b : bool) (st : fw) : fw :=
  Fw (fw_shm st) (reg_to_host st) (reg_from_host st) (s_rx_sem st) (s_space_sem st)
     (s_intr st) b (s_boot st) (s_flash st) (fw_events st).
Definition with_boot (b : option (Z * Z)) (st : fw) : fw :=
  Fw (fw_shm st) (reg_to_host st) (reg_from_host st) (s_rx_sem st) (s_space_sem st)
     (s_intr st) (s_handle_init st) b (s_flash st) (fw_events st).
Definition with_flash (b : flash_fw) (st : fw) : fw :=
  Fw (fw_shm st) (reg_to_host st) (reg_from_host st) (s_rx_sem st) (s_space_sem st)
     (s_intr st) (s_handle_init st) (s_boot st) b (fw_events st).
Definition log (l : list fw_event) (st : fw) : fw :=
  Fw (fw_shm st) (reg_to_host st) (reg_from_host st) (s_rx_sem st) (s_space_sem st)
     (s_intr st) (s_handle_init st) (s_boot st) (s_flash st) (fw_events st ++ l).

Definition ring_host_doorbell (st : fw) : fw := with_regs 1 (reg_from_host st) st.

(** One frame, in two parts.  [*kick] is set only for a frame that fits. *)
Definition ring_push (m : mem) (r : ring) (hdr payload : list Z) (kick : bool) : bool * mem * bool :=
  let head := head_of m r in
  let tail := tail_of m r in
  let frame_len := u32 (zlen hdr + zlen payload) in
  let need := ESP_SHM_RECORD_LEN frame_len in
  if need >? u32 (r_size r - u32 (head - tail)) then (false, m, kick)
  else
    let m := ring_copy_in m r (u32 (head + 4)) hdr in
    let m := ring_copy_in m r (u32 (u32 (head + 4) + zlen hdr)) payload in
    let m := ring_copy_in m r head (le32 frame_len) in
    let m := store32 m (r_ctrl r + ESP_SHM_HEAD_OFF) (u32 (head + need)) in
    (true, m, tail_of m r =? head).

(** A semaphore that is not there is not given. *)
Definition give (s : option bool) : option bool := (fun _ => true) <$> s.
Definition shm_doorbell_isr (st : fw) : fw :=
  let st := with_regs (reg_to_host st) 0 st in
  with_sems (give (s_rx_sem st)) (give (s_space_sem st)) st.

Section Firmware.
(** From esp_hosted and ESP-IDF: the bytes of struct esp_payload_header and
    of the parts of the boot event, and pdMS_TO_TICKS(SHM_TX_TIMEOUT_MS). *)
Context (HDR : Z) (TICKS : Z)
        (payload_header : Z -> Z -> Z -> Z -> Z -> list Z)
        (ESP_BOOTUP_FIRMWARE_CHIP_ID ESP_BOOTUP_CAPABILITY ESP_BOOTUP_EXT_CAPABILITY
         ESP_BOOTUP_RX_BUF_SIZE ESP_BOOTUP_FW_DATA LENGTH_1_BYTE LENGTH_4_BYTE
         CONFIG_IDF_FIRMWARE_CHIP_ID SIZEOF_BOOTUP_EVENT : Z)
        (boot_mac_tlv fw_data : list Z).

(** The TLVs of send_bootup_event_to_host(), in its order. *)
Definition boot_tlvs (cap ext_cap : Z) : list Z :=
  [ESP_BOOTUP_FIRMWARE_CHIP_ID; LENGTH_1_BYTE; CONFIG_IDF_FIRMWARE_CHIP_ID] ++
  [ESP_BOOTUP_CAPABILITY; LENGTH_4_BYTE] ++ le32 cap ++
  (if nz ext_cap then [ESP_BOOTUP_EXT_CAPABILITY; LENGTH_4_BYTE] ++ le32 ext_cap else []) ++
  boot_mac_tlv ++
  [ESP_BOOTUP_RX_BUF_SIZE; LENGTH_4_BYTE] ++ le32 SHM_TO_FW_FRAME_MAX ++
  [ESP_BOOTUP_FW_DATA; zlen fw_data] ++ fw_data.
(** The running [len], as the function counts it. *)
Definition boot_len (ext_cap : Z) : Z :=
  let len := u16 (0 + 3) in
  let len := u16 (len + (2 + 4)) in
  let len := if nz ext_cap then u16 (len + (2 + 4)) else len in
  let len := u16 (len + zlen boot_mac_tlv) in
  let len := u16 (len + (2 + 4)) in
  let len := u16 (len + 2) in
  u16 (len + zlen fw_data).

(** [alloc] and [sent]: results of heap_caps_calloc() and send_to_host().
    The event that goes out is (event->len, header.len, payload_len, data). *)
Definition send_bootup_event_to_host (st : fw) (cap ext_cap : Z) (alloc sent : bool)
    : Z * fw * option (Z * Z * Z * list Z) :=
  let st := with_boot (Some (cap, ext_cap)) st in
  if negb alloc then (ESP_ERR_NO_MEM, st, None)
  else
    let len := boot_len ext_cap in
    let ev := (len, u16 (len + 1), len + SIZEOF_BOOTUP_EVENT, boot_tlvs cap ext_cap) in
    let st := log [EvSendToHost (boot_tlvs cap ext_cap)] st in
    (if sent then ESP_OK else ESP_FAIL, st, Some ev).

Definition shm_service_host_requests (st : fw) : fw :=
  let a := ESP_SHM_CTRL + ESP_SHM_HOST_REQ_OFF in
  let req := load32 (fw_shm st) a in
  let st := with_shm (fun m => store32 m a 0) st in
  let st :=
    match nz (Z.land req ESP_SHM_REQ_READY_REPLAY), s_boot st with
    | true, Some (cap, ext) => (send_bootup_event_to_host st cap ext true true).1.2
    | _, _ => st
    end in
  let st := if Flash.s_kick (s_flash st) then log [EvFlashKick] st else st in
  if nz (Z.land req ESP_SHM_REQ_POWEROFF) then log [EvPoweroff] st else st.

(** [memset] of the block. *)
Definition clear_block (m : mem) : mem := fun x =>
  if (0 <=? x) && (x <? ESP_SHM_SIZE) then 0 else m x.

(** [rx], [space], [intr]: what could be allocated; [init_flash] is
    shm_flash_init() with what the partition table has. *)
Definition shm_init (st : fw) (rx space intr : bool)
    (init_flash : mem -> mem * flash_fw) : bool * fw :=
  let mk b : option bool := if b : bool then Some false else None in
  let fail st :=
    (false, with_sems None None
              (log (((fun _ => EvSemDelete) <$> option_list (s_rx_sem st)) ++
                    ((fun _ => EvSemDelete) <$> option_list (s_space_sem st))) st)) in
  let st := with_sems (mk rx) (mk space) st in
  if negb rx || negb space then fail st
  else
    let st := with_shm clear_block st in
    let '(m, f) := init_flash (fw_shm st) in
    let st := with_flash f (with_shm (fun _ => m) st) in
    let st := with_shm (fun m => store32 m (ESP_SHM_CTRL + ESP_SHM_VERSION_OFF) ESP_SHM_VERSION) st in
    if negb intr then fail st
    else
      let st := with_intr true st in
      let st := with_shm (fun m => store32 m (ESP_SHM_CTRL + ESP_SHM_MAGIC_OFF) ESP_SHM_MAGIC) st in
      (true, with_init true st).

(** The loop of shm_write().  [waits]: for each wait the tick count before it
    and what the host does to the block during it. *)
Fixpoint shm_write_loop (m : mem) (hdr payload : list Z) (start : Z) (kick : bool)
    (waits : list (Z * (mem -> mem))) : option (bool * mem * bool) :=
  let '(ok, m, kick) := ring_push m to_host hdr payload kick in
  if ok then Some (true, m, kick)
  else
    let m := store32 m (r_ctrl to_host + ESP_SHM_WAIT_OFF) 1 in
    let '(ok, m, kick) := ring_push m to_host hdr payload kick in
    if ok then Some (true, m, kick)
    else
      match waits with
      | [] => None
      | (now, env) :: waits =>
          if u32 (now - start) >? TICKS then Some (false, m, kick)
          else shm_write_loop (env m) hdr payload start kick waits
      end.

Record buf_handle := BufHandle {
  b_if_type : Z; b_if_num : Z; b_flag : Z; b_pkt_type : Z;
  b_payload : option (list Z) }.

Definition shm_write (st : fw) (handle : bool) (bh : option buf_handle) (start : Z)
    (waits : list (Z * (mem -> mem))) : option (Z * fw) :=
  match handle, bh with
  | true, Some b =>
      match b_payload b with
      | None => Some (ESP_FAIL, st)
      | Some payload =>
          if (zlen payload =? 0) || (HDR + zlen payload >? SHM_TO_HOST_FRAME_MAX)
          then Some (ESP_FAIL, st)
          else
            let hdr := payload_header (b_if_type b) (b_if_num b) (b_flag b) (b_pkt_type b)
                         (zlen payload) in
            match shm_write_loop (fw_shm st) hdr payload start false waits with
            | None => None
            | Some (ok, m, kick) =>
                let st := with_shm (fun _ => m) st in
                if ok then
                  Some (zlen payload, if kick then ring_host_doorbell st else st)
                else Some (ESP_FAIL, st)
            end
      end
  | _, _ => Some (ESP_FAIL, st)
  end.

(** The first loop of shm_read(): the head that differs from [tail]. *)
Fixpoint fw_wait_frame (st : fw) (tail : Z) (waits : list (mem -> mem)) : option (Z * fw) :=
  let st := shm_service_host_requests st in
  let head := head_of (fw_shm st) to_fw in
  if negb (head =? tail) then Some (head, st)
  else
    match waits with
    | [] => None
    | env :: waits => fw_wait_frame (with_shm env st) tail waits
    end.

(** The result, and the frame when there is one; [alloc]: heap_caps_malloc(). *)
Definition shm_read (st : fw) (handle bh alloc : bool) (waits : list (mem -> mem))
    : option (Z * option (list Z) * fw) :=
  if negb handle || negb bh then Some (ESP_FAIL, None, st)
  else
    let tail := tail_of (fw_shm st) to_fw in
    match fw_wait_frame st tail waits with
    | None => None
    | Some (head, st) =>
        let len := of_le (ring_copy_out (fw_shm st) to_fw tail 4) in
        if (len <? HDR) || (len >? SHM_TO_FW_FRAME_MAX) ||
           (ESP_SHM_RECORD_LEN len >? u32 (head - tail))
        then
          Some (0, None, with_shm (fun m => store32 m (r_ctrl to_fw + ESP_SHM_TAIL_OFF) head) st)
        else if negb alloc then Some (0, None, st)
        else
          let buf := ring_copy_out (fw_shm st) to_fw (u32 (tail + 4)) len in
          let st := with_shm (fun m => store32 m (r_ctrl to_fw + ESP_SHM_TAIL_OFF)
                                         (u32 (tail + ESP_SHM_RECORD_LEN len))) st in
          let st :=
            if nz (wait_of (fw_shm st) to_fw) then
              ring_host_doorbell
                (with_shm (fun m => store32 m (r_ctrl to_fw + ESP_SHM_WAIT_OFF) 0) st)
            else st in
          Some (len, Some buf, st)
    end.

Definition shm_reset (st : fw) : Z * fw := (ESP_OK, st).

Definition shm_deinit (st : fw) : fw :=
  let st := with_shm (fun m => store32 m (ESP_SHM_CTRL + ESP_SHM_MAGIC_OFF) 0) st in
  let st := if s_intr st then log [EvIntrFree] st else st in
  let st := log (((fun _ => EvSemDelete) <$> option_list (s_rx_sem st)) ++
                 ((fun _ => EvSemDelete) <$> option_list (s_space_sem st))) st in
  with_sems None None (with_intr false st).

(** The context that esp_hosted gets: the type of the transport, whether it has the operations, and the handler of
    events.  [USB] is the number of esp_hosted. *)
Record interface_context := IfContext { ic_type : Z; ic_ops : bool; ic_handler : Z }.
Definition interface_insert_driver (USB event_handler : Z) : interface_context := IfContext USB true event_handler.
Definition interface_remove_driver (st : fw) : Z * interface_context * fw := (0, IfContext 0 false 0, shm_deinit st).
(** Linux finds no transport any more, and nothing of it is left. *)
Lemma interface_removed st : let '(ret, c, st') := interface_remove_driver st in
  ret = 0 /\ ic_ops c = false /\ load32 (fw_shm st') (ESP_SHM_CTRL + ESP_SHM_MAGIC_OFF) = 0 /\
  s_intr st' = false /\ s_rx_sem st' = None /\ s_space_sem st' = None.
Proof.
  cbn. split_and!; try done. unfold with_shm, log. destruct (s_intr st); cbn [fw_shm with_sems with_intr]; by rewrite load32_store32.
Qed.
End Firmware.

(** * Frames to the host *)

(** What the firmware passes to ring_push(). *)
Definition part_ok (hdr payload : list Z) : Prop :=
  bytes hdr /\ bytes payload /\ zlen hdr + zlen payload < 4294967288.

Section Push.
Context (r : ring) (Hr : ring_ok r).

Definition has_room (f : list Z) (q : list (list Z)) : bool :=
  rlen (zlen f) + frames_len q <=? r_size r.

Lemma ring_push_no_room m hdr payload kick q :
  ring_wf m r q -> part_ok hdr payload -> has_room (hdr ++ payload) q = false ->
  ring_push m r hdr payload kick = (false, m, kick).
Proof using Hr.
  intros W (Hb1 & Hb2 & Hl) F. unfold has_room in F. rewrite zlen_app in F.
  pose proof (zlen_nonneg hdr). pose proof (zlen_nonneg payload).
  pose proof (rlen_bounds (zlen hdr + zlen payload) ltac:(lia)).
  unfold ring_push. rewrite (u32_small (zlen hdr + _)), RECORD_LEN_eq by lia.
  rewrite (push_room r Hr m q) by (done || lia). by rewrite F.
Qed.

Lemma ring_push_room m hdr payload kick q :
  ring_wf m r q -> part_ok hdr payload -> has_room (hdr ++ payload) q = true ->
  exists m', ring_push m r hdr payload kick = (true, m', bool_decide (q = [])) /\
    mem_eq m' (push_mem r m (hdr ++ payload)).
Proof using Hr.
  intros W (Hb1 & Hb2 & Hl) F. unfold has_room in F.
  pose proof (zlen_nonneg hdr). pose proof (zlen_nonneg payload).
  pose proof (frames_len_nonneg q).
  assert (rlen (zlen (hdr ++ payload)) <= r_size r) as Hf by lia.
  pose proof (rlen_bounds (zlen (hdr ++ payload)) (zlen_nonneg _)) as B. rewrite zlen_app in *.
  unfold ring_push. rewrite (u32_small (zlen hdr + _)), RECORD_LEN_eq by lia.
  rewrite (push_room r Hr m q) by (done || lia). rewrite F. cbn [negb].
  set (m1 := ring_copy_in _ _ (u32 (u32 _ + _)) payload).
  assert (mem_eq m1 (ring_copy_in m r (head_of m r + 4) (hdr ++ payload))) as E1.
  { rewrite <- ring_copy_in_app by (done || lia). intros x. unfold m1.
    rewrite u32_add_l, ring_copy_in_u32 by (done || lia).
    apply ring_copy_in_proper; try done. intros y. apply ring_copy_in_u32; done || lia. }
  set (m2 := ring_copy_in m1 _ _ _).
  assert (mem_eq m2 (push_data r m (hdr ++ payload))) as E2.
  { unfold m2, push_data. rewrite zlen_app. by apply ring_copy_in_proper. }
  eexists. split; [|unfold push_mem; rewrite zlen_app; by rewrite <- E2].
  f_equal. set (m3 := store32 m2 _ _).
  assert (tail_of m3 r = tail_of m r) as ->.
  { transitivity (tail_of (push_data r m (hdr ++ payload)) r).
    - unfold m3, tail_of. rewrite load32_store32_ne by (unfold ESP_SHM_TAIL_OFF, ESP_SHM_HEAD_OFF; lia).
      by rewrite E2.
    - apply load32_ext. intros x Hx. apply push_data_frame; [done|by rewrite zlen_app|].
      intros R%(ring_area_ctrl r Hr). apply R. unfold range, ESP_SHM_TAIL_OFF in *. lia. }
  by rewrite (wf_empty_iff r Hr m q W).
Qed.

Lemma ring_push_cases m hdr payload kick q :
  ring_wf m r q -> part_ok hdr payload ->
  let '(ok, m', kick') := ring_push m r hdr payload kick in
  ok = has_room (hdr ++ payload) q /\
  ring_wf m' r (if ok then q ++ [hdr ++ payload] else q) /\
  kick' = (if ok then bool_decide (q = []) else kick) /\
  agree (fun x => ~ ring_area r x) m m' /\ (ok = false -> m' = m).
Proof using Hr.
  intros W Hp. destruct (has_room (hdr ++ payload) q) eqn:F.
  - destruct (ring_push_room m hdr payload kick q W Hp F) as (m' & -> & E).
    unfold has_room in F. bool_prop. pose proof (frames_len_nonneg q).
    split_and!; [done| |done| |done].
    + apply (ring_wf_proper_1 r Hr (push_mem r m (hdr ++ payload))); [done|].
      apply push_mem_wf; [done|done| |done]. destruct Hp as (?&?&_). by apply bytes_app.
    + intros x Hx. rewrite E. symmetry. apply push_mem_frame; [done|lia|done].
  - rewrite (ring_push_no_room m hdr payload kick q W Hp F). by split_and!.
Qed.
End Push.

Lemma suffix_nil_inv {A} (l : list A) : l `suffix_of` [] -> l = [].
Proof. intros [k E]. by destruct k, l. Qed.

Section WriteLoop.
Context (TICKS : Z) (hdr payload : list Z) (Hp : part_ok hdr payload).
Context (Hfit : rlen (zlen (hdr ++ payload)) <= r_size to_host).

(** The host takes frames off the front. *)
Definition consumer (env : mem -> mem) : Prop :=
  forall m q, ring_wf m to_host q -> exists q', q' `suffix_of` q /\ ring_wf (env m) to_host q'.

Lemma fw_write_loop_spec waits : forall m start kick q,
  ring_wf m to_host q -> Forall (fun w => consumer w.2) waits ->
  match shm_write_loop TICKS m hdr payload start kick waits with
  | None => True
  | Some (ok, m', kick') =>
      exists q', q' `suffix_of` q /\
        if ok : bool then
          ring_wf m' to_host (q' ++ [hdr ++ payload]) /\ kick' = bool_decide (q' = [])
        else ring_wf m' to_host q' /\ wait_of m' to_host = 1 /\
          has_room to_host (hdr ++ payload) q' = false
  end.
Proof using Hp.
  induction waits as [|[now env] waits IH]; intros m start kick q W He; cbn [shm_write_loop].
  all: pose proof (ring_push_cases to_host to_host_ok m hdr payload kick q W Hp) as C.
  all: destruct (ring_push m to_host hdr payload kick) as [[ok m1] k1].
  all: destruct C as (E1 & W1 & K1 & _ & E0); destruct ok; [by exists q|].
  all: rewrite (E0 eq_refl) in *.
  all: pose proof (ring_wf_store_wait to_host m q 1 to_host_ok W) as W2.
  all: pose proof (ring_push_cases to_host to_host_ok _ hdr payload k1 q W2 Hp) as C.
  all: destruct (ring_push _ to_host hdr payload k1) as [[ok m2] k2].
  all: destruct C as (E2 & W3 & K2 & _ & E3); destruct ok; [by exists q|].
  { done. }
  rewrite (E3 eq_refl) in *. destruct (_ >? _).
  - exists q. split; [done|]. split_and!; [done| |done]. unfold wait_of. by rewrite load32_store32.
  - destruct (Forall_cons_1 _ _ _ He) as [He1 He2]. cbn in He1.
    destruct (He1 _ _ W3) as (q' & Hq' & W').
    specialize (IH (env (store32 m (r_ctrl to_host + ESP_SHM_WAIT_OFF) 1)) start k2 q' W' He2).
    destruct (shm_write_loop _ _ _ _ _ _ _) as [[[ok m'] k']|]; [|done].
    destruct IH as (q'' & Hq'' & R). exists q''. split; [|done]. by transitivity q'.
Qed.

(** With room at the time of a try, the loop does not wait any more. *)
Lemma write_loop_room waits m start kick q :
  ring_wf m to_host q -> has_room to_host (hdr ++ payload) q = true ->
  exists m' k', shm_write_loop TICKS m hdr payload start kick waits = Some (true, m', k').
Proof using Hp.
  intros W F. destruct (ring_push_room to_host to_host_ok m hdr payload kick q W Hp F) as (m' & E & _).
  destruct waits as [|[now env] waits]; cbn [shm_write_loop]; rewrite E; by exists m', (bool_decide (q = [])).
Qed.

(** An empty ring takes each frame, and the time-out ends the loop. *)
Lemma write_loop_ends waits : forall m start kick q,
  ring_wf m to_host q -> Forall (fun w => consumer w.2) waits ->
  (exists now env, (now, env) ∈ waits /\
     (u32 (now - start) > TICKS \/ forall m q, ring_wf m to_host q -> ring_wf (env m) to_host [])) ->
  shm_write_loop TICKS m hdr payload start kick waits <> None.
Proof using Hp Hfit.
  induction waits as [|[now env] waits IH]; intros m start kick q W He (now' & env' & Hin & Hx).
  { by apply not_elem_of_nil in Hin. }
  pose proof (ring_push_cases to_host to_host_ok m hdr payload kick q W Hp) as C. cbn [shm_write_loop].
  destruct (ring_push m to_host hdr payload kick) as [[ok m1] k1].
  destruct C as (E1 & W1 & K1 & _ & E0); destruct ok; [done|].
  rewrite (E0 eq_refl) in *. clear E0.
  pose proof (ring_wf_store_wait to_host m q 1 to_host_ok W) as W2.
  pose proof (ring_push_cases to_host to_host_ok _ hdr payload k1 q W2 Hp) as C.
  destruct (ring_push _ to_host hdr payload k1) as [[ok m2] k2].
  destruct C as (E2 & W3 & K2 & _ & E3); destruct ok; [done|].
  destruct (u32 (now - start) >? TICKS) eqn:T; [done|].
  destruct (Forall_cons_1 _ _ _ He) as [He1 He2]. destruct (He1 _ _ W3) as (q' & _ & W').
  apply elem_of_cons in Hin as [[= -> ->]|Hin].
  - destruct Hx as [Hx|Hx]; [bool_prop; lia|].
    destruct (write_loop_room waits (env m2) start k2 [] (Hx _ _ W3)) as (m' & k' & ->); [|done].
    unfold has_room. apply Z.leb_le. simpl in *. lia.
  - apply (IH _ _ _ q'); [done|done|]. by exists now', env'.
Qed.
End WriteLoop.

(** * Frames from the host *)

(** A word of the first control block, as the host requests. *)
Lemma ring_wf_store_low m q a v :
  0 <= a -> a + 4 <= ESP_SHM_TO_HOST_CTRL -> ring_wf m to_fw q -> ring_wf (store32 m a v) to_fw q.
Proof.
  intros Ha Hb W. apply (ring_wf_agree to_fw to_fw_ok m); [|apply mem_ok_store32, W|done].
  intros x Hx. symmetry. apply store_bytes_out. rewrite zlen_le32.
  unfold ring_area, range, ESP_SHM_HEAD_OFF, ESP_SHM_TAIL_OFF, ESP_SHM_TO_HOST_CTRL in *.
  cbn in Hx. unfold ESP_SHM_TO_FW_CTRL, ESP_SHM_TO_FW_DATA in *. lia.
Qed.

(** The words that the receive path writes. *)
Definition fw_rx_area (x : Z) : Prop :=
  range (r_ctrl to_fw + ESP_SHM_TAIL_OFF) 4 x \/ range (r_ctrl to_fw + ESP_SHM_WAIT_OFF) 4 x \/
  range (ESP_SHM_CTRL + ESP_SHM_HOST_REQ_OFF) 4 x.

Section Read.
Context (HDR : Z) (ID1 ID2 ID3 ID4 ID5 L1 L4 CHIP EVSZ : Z) (mac fwd : list Z).
Context (HDR_pos : 0 <= HDR).
Abbreviation service := (shm_service_host_requests ID1 ID2 ID3 ID4 ID5 L1 L4 CHIP EVSZ mac fwd).
Abbreviation wait_frame := (fw_wait_frame ID1 ID2 ID3 ID4 ID5 L1 L4 CHIP EVSZ mac fwd).
Abbreviation read := (shm_read HDR ID1 ID2 ID3 ID4 ID5 L1 L4 CHIP EVSZ mac fwd).

Lemma service_shm st :
  fw_shm (service st) = store32 (fw_shm st) (ESP_SHM_CTRL + ESP_SHM_HOST_REQ_OFF) 0 /\
  reg_to_host (service st) = reg_to_host st.
Proof.
  unfold shm_service_host_requests. cbn zeta. cbn [s_boot with_shm].
  destruct (nz (Z.land _ ESP_SHM_REQ_READY_REPLAY)), (s_boot st) as [[cap ext]|];
    cbn [send_bootup_event_to_host negb fst snd]; cbn;
    destruct (nz (Z.land _ ESP_SHM_REQ_POWEROFF)), (Flash.s_kick (s_flash st)); done.
Qed.

(** A frame that the host may send. *)
Definition fw_frame_ok (f : list Z) : Prop := HDR <= zlen f <= SHM_TO_FW_FRAME_MAX.

(** The host adds such frames at the end, and does not write the tail. *)
Definition producer (env : mem -> mem) : Prop :=
  forall m q, ring_wf m to_fw q ->
    exists q2, Forall fw_frame_ok q2 /\ ring_wf (env m) to_fw (q ++ q2) /\
      tail_of (env m) to_fw = tail_of m to_fw.

(** The wait ends with a ring that is not empty. *)
Lemma wait_frame_spec waits : forall st q,
  ring_wf (fw_shm st) to_fw q -> Forall fw_frame_ok q -> Forall producer waits ->
  match wait_frame st (tail_of (fw_shm st) to_fw) waits with
  | None => True
  | Some (head, st') =>
      exists f q', ring_wf (fw_shm st') to_fw (f :: q') /\ Forall fw_frame_ok (f :: q') /\
        head = head_of (fw_shm st') to_fw /\
        tail_of (fw_shm st') to_fw = tail_of (fw_shm st) to_fw /\
        (q <> [] -> f :: q' = q /\ st' = service st)
  end.
Proof using Type.
  assert (forall st q, ring_wf (fw_shm st) to_fw q ->
    ring_wf (fw_shm (service st)) to_fw q /\
    tail_of (fw_shm (service st)) to_fw = tail_of (fw_shm st) to_fw) as X.
  { intros st q W. destruct (service_shm st) as [-> _]. split.
    - by apply ring_wf_store_low.
    - apply load32_store32_ne. by right. }
  induction waits as [|env waits IH]; intros st q W Hq He; cbn [fw_wait_frame].
  all: destruct (X st q W) as [W1 T1].
  all: pose proof (wf_empty_iff to_fw to_fw_ok _ _ W1) as E; rewrite T1, Z.eqb_sym in E; rewrite E.
  all: destruct q as [|f q']; [rewrite bool_decide_true by done|rewrite bool_decide_false by done];
    cbn [negb].
  2,4: exists f, q'; split_and!; try done; intros _; by split.
  { done. }
  destruct (Forall_cons_1 _ _ _ He) as [He1 He2].
  destruct (He1 _ _ W1) as (q2 & Hq2 & W2 & T2). rewrite T1 in T2.
  specialize (IH (with_shm env (service st)) q2 W2 Hq2 He2).
  cbn [with_shm fw_shm] in IH. rewrite T2 in IH.
  destruct (wait_frame _ _ waits) as [[head st']|]; [|done].
  destruct IH as (f & q' & ? & ? & ? & ? & _). by exists f, q'.
Qed.

(** Any contents of the shared memory: the loop ends on a non-empty ring. *)
Lemma wait_frame_any waits : forall st tail,
  mem_ok (fw_shm st) -> Forall (fun env => forall m, mem_ok m -> mem_ok (env m)) waits ->
  match wait_frame st tail waits with
  | None => True
  | Some (head, st') => head <> tail /\ mem_ok (fw_shm st') /\ head = head_of (fw_shm st') to_fw
  end.
Proof using Type.
  induction waits as [|env waits IH]; intros st tail M He; cbn [fw_wait_frame].
  all: destruct (service_shm st) as [Es _].
  all: destruct (Z.eqb_spec (head_of (fw_shm (service st)) to_fw) tail) as [E|E]; cbn [negb].
  2,4: split_and!; try done; rewrite Es; by apply mem_ok_store32.
  { done. }
  destruct (Forall_cons_1 _ _ _ He) as [He1 He2].
  apply IH; [|done]. cbn [with_shm fw_shm]. apply He1. rewrite Es. by apply mem_ok_store32.
Qed.

(** What follows the wait in shm_read(), with memory for the frame. *)
Lemma fw_take st f q :
  ring_wf (fw_shm st) to_fw (f :: q) ->
  let st1 := with_shm (fun m => store32 m (r_ctrl to_fw + ESP_SHM_TAIL_OFF)
               (u32 (tail_of (fw_shm st) to_fw + rlen (zlen f)))) st in
  let st2 := if nz (wait_of (fw_shm st1) to_fw) then
      ring_host_doorbell (with_shm (fun m => store32 m (r_ctrl to_fw + ESP_SHM_WAIT_OFF) 0) st1)
    else st1 in
  ring_wf (fw_shm st2) to_fw q /\ wait_of (fw_shm st2) to_fw = 0 /\
  reg_to_host st2 = (if nz (wait_of (fw_shm st) to_fw) then 1 else reg_to_host st).
Proof using Type.
  intros W. pose proof (pop_mem_wf to_fw to_fw_ok _ _ _ W) as W'. unfold pop_mem in W'.
  cbn zeta. cbn [fw_shm with_shm].
  assert (wait_of (store32 (fw_shm st) (r_ctrl to_fw + ESP_SHM_TAIL_OFF)
    (u32 (tail_of (fw_shm st) to_fw + rlen (zlen f)))) to_fw = wait_of (fw_shm st) to_fw) as Ew.
  { apply load32_store32_ne. by right. }
  rewrite Ew. destruct (nz (wait_of (fw_shm st) to_fw)) eqn:E; cbn [fw_shm with_shm ring_host_doorbell with_regs reg_to_host].
  - split_and!; [|unfold wait_of; by rewrite load32_store32|done].
    by apply ring_wf_store_wait; [auto with port|].
  - apply nz_false in E. split_and!; [done| |done]. by rewrite Ew.
Qed.

Lemma read_head st tail f q :
  ring_wf (fw_shm st) to_fw (f :: q) -> fw_frame_ok f -> tail = tail_of (fw_shm st) to_fw ->
  let len := of_le (ring_copy_out (fw_shm st) to_fw tail 4) in
  len = zlen f /\ ESP_SHM_RECORD_LEN len = rlen (zlen f) /\
  ring_copy_out (fw_shm st) to_fw (u32 (tail + 4)) len = f /\
  ((len <? HDR) || (len >? SHM_TO_FW_FRAME_MAX) ||
   (ESP_SHM_RECORD_LEN len >? u32 (head_of (fw_shm st) to_fw - tail))) = false.
Proof using Type.
  intros W [Hf1 Hf2] -> len. unfold SHM_TO_FW_FRAME_MAX in *. pose proof (zlen_nonneg f).
  destruct (wf_first to_fw to_fw_ok _ f q W) as (E1 & E2 & E3). unfold len. rewrite E1.
  rewrite RECORD_LEN_eq by lia. split_and!; try done.
  rewrite Z.gtb_ltb, Z.gtb_ltb, !(proj2 (Z.ltb_ge _ _)) by lia. done.
Qed.

(** ** Properties of the receive path *)

(** Shm_read() of the firmware returns the first frame of the ring when
    there is one, and else waits until the host adds one.  It takes the frame
    off, clears the host's wait flag and rings the host exactly when the flag
    was set.  Without memory for the frame it returns 0 and leaves the
    frame in the ring for the next call. *)
Theorem shm_read_correct st q alloc waits :
  ring_wf (fw_shm st) to_fw q -> Forall fw_frame_ok q -> Forall producer waits ->
  match read st true true alloc waits with
  | None => q = []
  | Some (ret, buf, st') =>
      exists f q', (q <> [] -> q = f :: q') /\
        if alloc : bool then
          ret = zlen f /\ buf = Some f /\ ring_wf (fw_shm st') to_fw q' /\
          wait_of (fw_shm st') to_fw = 0 /\
          (q <> [] -> reg_to_host st' =
             (if nz (wait_of (fw_shm st) to_fw) then 1 else reg_to_host st))
        else ret = 0 /\ buf = None /\ ring_wf (fw_shm st') to_fw (f :: q')
  end.
Proof using Type.
  intros W Hq He. unfold shm_read. cbn [negb orb].
  pose proof (wait_frame_spec waits st q W Hq He) as X.
  destruct (wait_frame st _ waits) as [[head st1]|] eqn:Ew.
  2: { destruct q as [|f q]; [done|]. exfalso.
       pose proof (ring_wf_store_low _ _ (ESP_SHM_CTRL + ESP_SHM_HOST_REQ_OFF) 0
         ltac:(done) ltac:(done) W) as W1.
       pose proof (wf_empty_iff to_fw to_fw_ok _ _ W1) as E.
       rewrite bool_decide_false, Z.eqb_sym in E by done.
       assert (tail_of (store32 (fw_shm st) (ESP_SHM_CTRL + ESP_SHM_HOST_REQ_OFF) 0) to_fw =
         tail_of (fw_shm st) to_fw) as T by (apply load32_store32_ne; by right).
       destruct waits; cbn [fw_wait_frame] in Ew; rewrite (proj1 (service_shm st)), <- T, E in Ew;
         done. }
  destruct X as (f & q' & W1 & Hq1 & -> & T1 & R1).
  destruct (Forall_cons_1 _ _ _ Hq1) as [Hf _].
  destruct (read_head st1 (tail_of (fw_shm st) to_fw) f q' W1 Hf) as (L1' & L2 & L3 & L4'); [done|].
  rewrite L4', L3, L2, L1'. destruct alloc; cbn [negb].
  - exists f, q'. rewrite <- T1. destruct (fw_take st1 f q' W1) as (W2 & Z2 & B2).
    split; [intros N; by destruct (R1 N)|].
    split_and!; try done. intros N. destruct (R1 N) as [_ ->].
    destruct (service_shm st) as [Es Er]. rewrite Er in B2. rewrite B2, Es.
    unfold wait_of. by rewrite load32_store32_ne by (by right).
  - exists f, q'. split; [intros N; by destruct (R1 N)|]. by split_and!.
Qed.

(** With any contents of the shared block, a frame that shm_read() returns
    has a length between the payload header and SHM_TO_FW_FRAME_MAX (it fits
    the buffer that was allocated for it), and a broken record empties the
    ring instead of returning data. *)
Theorem shm_read_robust st alloc waits ret buf st' :
  mem_ok (fw_shm st) -> Forall (fun env => forall m, mem_ok m -> mem_ok (env m)) waits ->
  read st true true alloc waits = Some (ret, buf, st') ->
  match buf with
  | Some f => bytes f /\ ret = zlen f /\ HDR <= zlen f <= SHM_TO_FW_FRAME_MAX
  | None => ret = 0 /\ (alloc = true -> tail_of (fw_shm st') to_fw = head_of (fw_shm st') to_fw)
  end.
Proof using HDR_pos.
  intros M He. unfold shm_read. cbn [negb orb].
  pose proof (wait_frame_any waits st (tail_of (fw_shm st) to_fw) M He) as X.
  destruct (wait_frame st _ waits) as [[head st1]|]; [|done].
  destruct X as (_ & M1 & Eh). set (t := tail_of (fw_shm st) to_fw).
  set (len := of_le _). destruct (_ || _ || _) eqn:F.
  { intros [= <- <- <-]. split; [done|]. intros _. cbn [fw_shm with_shm].
    unfold tail_of, head_of. rewrite load32_store32, load32_store32_ne by (by left).
    rewrite Eh. apply u32_small, load32_range, M1. }
  repeat (apply orb_false_elim in F as [F ?]). bool_prop.
  destruct alloc; cbn [negb]; intros [= <- <- <-]; [|done].
  assert (zlen (ring_copy_out (fw_shm st1) to_fw (u32 (t + 4)) len) = len) as ->
    by (apply zlen_ring_copy_out; [apply to_fw_ok|lia]).
  split_and!; [|done|lia..]. unfold ring_copy_out. apply bytes_app. split; by apply load_bytes_bytes.
Qed.
End Read.

(** * Properties *)

(** The firmware's producer is the same bounded queue as the Linux one:
    ring_push() of a header and a payload adds the frame that is one after the
    other, exactly when the record fits; then [*kick] says whether the consumer
    had read everything, and else nothing changes. *)
Theorem ring_push_correct r m hdr payload kick q :
  ring_ok r -> ring_wf m r q -> part_ok hdr payload ->
  let '(ok, m', kick') := ring_push m r hdr payload kick in
  ok = (rlen (zlen (hdr ++ payload)) + frames_len q <=? r_size r) /\
  ring_wf m' r (if ok then q ++ [hdr ++ payload] else q) /\
  kick' = (if ok then bool_decide (q = []) else kick) /\
  agree (fun x => ~ ring_area r x) m m'.
Proof.
  intros Hr W Hp. pose proof (ring_push_cases r Hr m hdr payload kick q W Hp) as X.
  destruct (ring_push m r hdr payload kick) as [[ok m'] k']. by destruct X as (?&?&?&?&_).
Qed.

(** Shm_write() sends a frame of at most SHM_TO_HOST_FRAME_MAX bytes or says
    that it did not: whatever the host takes off during the waits, the frame is
    in the ring behind the frames that are left, exactly once, or (after the
    time-out) the ring had no room for it, the wait flag is set and the frame
    is not in the ring.  The host is rung exactly when it had read all frames.
    A wait after the time-out or one in which the host reads everything is the
    last. *)
Theorem shm_write_correct HDR TICKS ph st b payload start waits q :
  (forall t n fl p l, bytes (ph t n fl p l) /\ zlen (ph t n fl p l) = HDR) ->
  ring_wf (fw_shm st) to_host q -> Forall (fun w => consumer w.2) waits ->
  b_payload b = Some payload -> bytes payload ->
  let hdr := ph (b_if_type b) (b_if_num b) (b_flag b) (b_pkt_type b) (zlen payload) in
  match shm_write HDR TICKS ph st true (Some b) start waits with
  | None =>
      ~ exists now env, (now, env) ∈ waits /\
          (u32 (now - start) > TICKS \/ forall m q, ring_wf m to_host q -> ring_wf (env m) to_host [])
  | Some (ret, st') =>
      if bool_decide (0 < zlen payload <= SHM_TO_HOST_FRAME_MAX - HDR) then
        exists q', q' `suffix_of` q /\
          (ret = zlen payload /\ ring_wf (fw_shm st') to_host (q' ++ [hdr ++ payload]) /\
             reg_to_host st' = (if bool_decide (q' = []) then 1 else reg_to_host st) \/
           ret = ESP_FAIL /\ ring_wf (fw_shm st') to_host q' /\ wait_of (fw_shm st') to_host = 1 /\
             rlen (zlen (hdr ++ payload)) + frames_len q' > ESP_SHM_TO_HOST_SIZE)
      else ret = ESP_FAIL /\ st' = st
  end.
Proof.
  intros Hph W He Hb Bp hdr. unfold shm_write. rewrite Hb.
  destruct (Hph (b_if_type b) (b_if_num b) (b_flag b) (b_pkt_type b) (zlen payload)) as [Bh Lh].
  fold hdr in Bh, Lh |- *. pose proof (zlen_nonneg payload). pose proof (zlen_nonneg hdr).
  unfold SHM_TO_HOST_FRAME_MAX in *.
  destruct (_ || _) eqn:G.
  { rewrite bool_decide_false; [done|]. apply orb_true_iff in G as [G|G]; bool_prop; lia. }
  bool_prop. rewrite bool_decide_true by lia.
  assert (part_ok hdr payload) as Hp by (split_and!; try done; lia).
  assert (rlen (zlen (hdr ++ payload)) <= r_size to_host) as Hfit.
  { rewrite zlen_app. pose proof (rlen_bounds (zlen hdr + zlen payload) ltac:(lia)). cbn.
    unfold ESP_SHM_TO_HOST_SIZE. lia. }
  pose proof (fw_write_loop_spec TICKS hdr payload Hp waits (fw_shm st) start false q W He) as X.
  pose proof (write_loop_ends TICKS hdr payload Hp Hfit waits (fw_shm st) start false q W He) as Y.
  destruct (shm_write_loop _ _ _ _ _ _ _) as [[[ok m'] k']|].
  - destruct X as (q' & Hq' & R). destruct ok.
    + destruct R as [R ->]. exists q'. split; [done|]. left.
      destruct (bool_decide (q' = [])); by split_and!.
    + destruct R as (R1 & R2 & R3). exists q'. split; [done|]. right. split_and!; try done.
      unfold has_room in R3. bool_prop. change ESP_SHM_TO_HOST_SIZE with (r_size to_host). lia.
  - intros K. by apply (Y K).
Qed.

(** A list of type-length-value records, as the Linux driver walks it. *)
Definition tlv_bytes (l : list (Z * list Z)) : list Z :=
  foldr (fun r acc => r.1 :: zlen r.2 :: r.2 ++ acc) [] l.

Lemma tlv_bytes_app l k : tlv_bytes (l ++ k) = tlv_bytes l ++ tlv_bytes k.
Proof.
  unfold tlv_bytes. induction l as [|r l IH]; [done|].
  cbn [app foldr]. rewrite IH. by rewrite <- app_assoc.
Qed.

(** The boot event is a well-formed list of records: the chip, the
    capabilities, the extended capabilities when there are any, the MAC
    records, the receive buffer size SHM_TO_FW_FRAME_MAX and the firmware data;
    the counted length is the length of these bytes, and the lengths of the
    event, its header and the frame follow from it.  The function remembers
    the capabilities also when the event is not sent. *)
Theorem send_bootup_event_correct ID1 ID2 ID3 ID4 ID5 L1 L4 CHIP EVSZ mac fwd macs st cap ext alloc sent :
  L1 = 1 -> L4 = 4 -> mac = tlv_bytes macs -> zlen mac + zlen fwd < 60000 ->
  let '(ret, st', ev) :=
    send_bootup_event_to_host ID1 ID2 ID3 ID4 ID5 L1 L4 CHIP EVSZ mac fwd st cap ext alloc sent in
  s_boot st' = Some (cap, ext) /\
  (ret = ESP_OK <-> alloc = true /\ sent = true) /\
  (alloc = false <-> ev = None) /\
  forall len hlen plen data, ev = Some (len, hlen, plen, data) ->
    data = tlv_bytes ([(ID1, [CHIP]); (ID2, le32 cap)] ++
                      (if nz ext then [(ID3, le32 ext)] else []) ++ macs ++
                      [(ID4, le32 8192); (ID5, fwd)]) /\
    len = zlen data /\ hlen = len + 1 /\ plen = len + EVSZ.
Proof.
  intros -> -> -> Hl. unfold send_bootup_event_to_host. destruct alloc; cbn [negb].
  2: { split_and!; try done. by split; [|intros [? _]]. }
  split_and!; try done. { destruct sent; cbn; split; try done. by intros [_ ?]. }
  intros len hlen plen data [= <- <- <- <-]. unfold boot_tlvs, boot_len.
  pose proof (zlen_nonneg (tlv_bytes macs)). pose proof (zlen_nonneg fwd).
  split.
  { rewrite !tlv_bytes_app. unfold le32.
    destruct (nz ext); cbn [tlv_bytes foldr app fst snd]; by rewrite app_nil_r. }
  unfold u16. destruct (nz ext); cbv iota; autorewrite with zlen; zlia.
Qed.

(** * Instances *)

Definition fw0 (m : mem) : fw := Fw m 0 0 (Some false) (Some false) true true None (FlashFw 0 0 false) [].
Definition hdr12 : list Z := [1; 0; 0; 0; 12; 0; 0; 0; 0; 0; 0; 0].
Lemma hdr12_bytes : bytes hdr12.
Proof. repeat constructor; lia. Qed.
Definition one_frame : mem := push_mem to_fw zero_mem hdr12.
Lemma one_frame_wf : ring_wf one_frame to_fw [hdr12].
Proof.
  apply (push_mem_wf to_fw to_fw_ok _ []); [|apply hdr12_bytes|done]. auto with port.
Qed.
Lemma one_frame_ok : Forall (fw_frame_ok 12) [hdr12].
Proof. repeat constructor; vm_compute; congruence. Qed.

Lemma ring_push_witness :
  ring_wf (ring_push zero_mem to_host hdr12 [7] false).1.2 to_host [hdr12 ++ [7]].
Proof.
  assert (part_ok hdr12 [7]) as Hp.
  { split; [exact hdr12_bytes|]. split; [repeat constructor; lia|reflexivity]. }
  pose proof (ring_push_correct to_host zero_mem hdr12 [7] false [] to_host_ok
    (zero_mem_wf to_host to_host_ok) Hp) as H.
  destruct (ring_push _ _ _ _ _) as [[ok m'] k']. destruct H as (-> & H & _). exact H.
Defined.
Lemma shm_read_witness :
  exists st', shm_read 12 0 1 2 3 4 1 4 32 4 [] [] (fw0 one_frame) true true true [] =
    Some (12, Some hdr12, st').
Proof.
  pose proof (shm_read_correct 12 0 1 2 3 4 1 4 32 4 [] [] (fw0 one_frame) [hdr12] true []
    one_frame_wf one_frame_ok (List.Forall_nil _)) as H.
  destruct (shm_read 12 0 1 2 3 4 1 4 32 4 [] [] (fw0 one_frame) true true true []) as [[[r b] st']|];
    [|discriminate].
  destruct H as (f & q' & E & -> & -> & _). specialize (E ltac:(discriminate)).
  injection E as <- <-. exists st'. reflexivity.
Defined.
Lemma shm_read_robust_witness :
  exists ret buf st', shm_read 12 0 1 2 3 4 1 4 32 4 [] [] (fw0 one_frame) true true true [] =
    Some (ret, Some buf, st') /\ bytes buf.
Proof.
  destruct (shm_read 12 0 1 2 3 4 1 4 32 4 [] [] (fw0 one_frame) true true true []) as [[[r b] st']|] eqn:E;
    pose proof (f_equal (option_map (fun x => x.1.2)) E) as E1; vm_compute in E1; [|discriminate].
  destruct b as [b|]; [|discriminate]. clear E1.
  exists r, b, st'. split; [reflexivity|].
  exact (proj1 (shm_read_robust 12 0 1 2 3 4 1 4 32 4 [] [] ltac:(lia) (fw0 one_frame) true [] r (Some b) st'
    (wf_mem _ _ _ one_frame_wf) (List.Forall_nil _) E)).
Defined.
Lemma shm_write_witness :
  exists st', shm_write 12 100 (fun _ _ _ _ _ => hdr12) (fw0 zero_mem) true
      (Some (BufHandle 0 0 0 0 (Some [1; 2; 3]))) 5 [] = Some (3, st') /\
    ring_wf (fw_shm st') to_host [hdr12 ++ [1; 2; 3]].
Proof.
  pose proof (shm_write_correct 12 100 (fun _ _ _ _ _ => hdr12) (fw0 zero_mem)
    (BufHandle 0 0 0 0 (Some [1; 2; 3])) [1; 2; 3] 5 [] []
    (fun _ _ _ _ _ => conj hdr12_bytes eq_refl) (zero_mem_wf to_host to_host_ok)
    (List.Forall_nil _) eq_refl ltac:(repeat constructor; lia)) as H.
  destruct (shm_write 12 100 _ _ _ _ _ _) as [[r st']|] eqn:E.
  2: { apply (f_equal (option_map fst)) in E. vm_compute in E. discriminate. }
  cbn in H. destruct H as (q' & Hq & H). apply suffix_nil_inv in Hq. subst q'.
  destruct H as [(-> & H & _)|(_ & _ & _ & H)]; [|vm_compute in H; discriminate].
  exists st'. split; [reflexivity|exact H].
Defined.
Lemma send_bootup_event_witness :
  s_boot (send_bootup_event_to_host 0 1 2 3 4 1 4 32 4 [9; 1; 7] [5] (fw0 zero_mem) 77 0 true true).1.2
    = Some (77, 0).
Proof.
  pose proof (send_bootup_event_correct 0 1 2 3 4 1 4 32 4 [9; 1; 7] [5] [(9, [7])] (fw0 zero_mem) 77 0
    true true eq_refl eq_refl eq_refl eq_refl) as H.
  destruct (send_bootup_event_to_host _ _ _ _ _ _ _ _ _ _ _ _ _ _ _ _) as [[r st'] ev].
  destruct H as (H & _). exact H.
Defined.
