(* ===== verification/ShmLink.v ===== *)
(** The frames from Linux to the firmware with both harts running: every access
    to the shared block, to a doorbell and to a semaphore is a step, and the
    steps of esp_shm_tx_flush() (hart 1) and of shm_read() with its interrupt
    handler (hart 0) interleave in any order.

    The steps are sequentially consistent: between the store of one index and
    the load of the other each side has a full fence ([mb], [shm_fence]), and
    head and data are ordered by [wmb] and by acquire and release.  The copies
    of a frame are one step, since the other hart does not look at that part of
    the data area (the invariant proves it).  The quiesce, recovery and remove
    operations are in ShmHost.v. *)

From stdpp Require Import relations.
From S2P Require Import Prelude Mem Ring RingQueue RingSteps ShmHost Flash ShmFw.

(** Where esp_shm_tx_flush() is; [kick] is its local variable, [head] the one
    of esp_shm_push(). *)
Inductive ppc :=
| PIdle                              (** not running *)
| PTop (kick : bool)                 (** at the head of the loop *)
| PSetWait (kick : bool)             (** the first try failed *)
| PTop2 (kick : bool)                (** before the second try *)
| PCopy (kick : bool) (head : Z)     (** there is room *)
| PPub (kick : bool) (head : Z)      (** the record is copied *)
| PKick (kick : bool) (head : Z)     (** the head is stored *)
| PEnd (kick : bool).                (** after the loop *)

(** Where shm_read() is; its caller calls it again and again. *)
Inductive cpc :=
| CTop                               (** at shm_service_host_requests() *)
| CLoad                              (** before the load of head *)
| CSleep                             (** in xSemaphoreTake(s_rx_sem) *)
| CRead (head : Z)                   (** [head] differs from the tail *)
| CStore (frame : list Z)            (** the frame is copied out *)
| CWait                              (** before the load of the wait flag *)
| CClear                             (** before the store of the wait flag *)
| CBell                              (** before the doorbell *)
| CBad.                              (** a broken record *)

Record link := Link {
  l_mem : mem;
  l_bell_fw : bool;                  (** CPU_INT_FROM_CPU_1 is set *)
  l_bell_host : bool;                (** CPU_INT_FROM_CPU_2 is set *)
  l_rx_sem : bool;
  l_ppc : ppc;
  l_queue : list sk_buff;
  l_work : bool;                     (** tx_work is scheduled *)
  l_cpc : cpc;
  l_sent : list (list Z);            (** frames that esp_shm_write() took *)
  l_delivered : list (list Z) }.     (** frames that shm_read() took off *)

(** esp_shm_push() up to its first return. *)
Definition no_room (m : mem) (skb : sk_buff) : bool :=
  ESP_SHM_RECORD_LEN (skb_len skb) >?
  u32 (r_size to_fw - u32 (head_of m to_fw - tail_of m to_fw)).
(** The two copies of esp_shm_push(). *)
Definition put_record (m : mem) (skb : sk_buff) (head : Z) : mem :=
  host_copy_in (host_copy_in m to_fw (u32 (head + 4)) (skb_addr skb) (skb_data skb))
    to_fw head 0 (le32 (skb_len skb)).

Section Link.
Context (HDR : Z).

(** What the network stack sends: at least the payload header, at most the
    receive size of the boot event. *)
Definition tx_frame_ok (skb : sk_buff) : Prop :=
  skb_ok skb /\ HDR <= skb_len skb <= SHM_TO_FW_FRAME_MAX.

Inductive send : link -> link -> Prop :=
| s_write m bf bh sem q w c snt dlv skb :
    tx_frame_ok skb -> zlen q < ESP_SHM_TX_QUEUE_MAX ->
    send (Link m bf bh sem PIdle q w c snt dlv)
         (Link m bf bh sem (PTop false) (q ++ [skb]) w c (snt ++ [skb_data skb]) dlv).

(** Hart 1: the flush and the interrupt handler. *)
Inductive linux_step : link -> link -> Prop :=
| s_work m bf bh sem q c snt dlv :
    linux_step (Link m bf bh sem PIdle q true c snt dlv)
              (Link m bf bh sem (PTop false) q false c snt dlv)
| s_empty m bf bh sem k w c snt dlv :
    linux_step (Link m bf bh sem (PTop k) [] w c snt dlv)
              (Link m bf bh sem (PEnd k) [] w c snt dlv)
| s_try m bf bh sem k skb q w c snt dlv :
    linux_step (Link m bf bh sem (PTop k) (skb :: q) w c snt dlv)
              (Link m bf bh sem (if no_room m skb then PSetWait k else PCopy k (head_of m to_fw))
                    (skb :: q) w c snt dlv)
| s_setwait m bf bh sem k q w c snt dlv :
    linux_step (Link m bf bh sem (PSetWait k) q w c snt dlv)
              (Link (store32 m (r_ctrl to_fw + ESP_SHM_WAIT_OFF) 1) bf bh sem (PTop2 k) q w c snt dlv)
| s_try2 m bf bh sem k skb q w c snt dlv :
    linux_step (Link m bf bh sem (PTop2 k) (skb :: q) w c snt dlv)
              (Link m bf bh sem (if no_room m skb then PEnd k else PCopy k (head_of m to_fw))
                    (skb :: q) w c snt dlv)
| s_copy m bf bh sem k h skb q w c snt dlv :
    linux_step (Link m bf bh sem (PCopy k h) (skb :: q) w c snt dlv)
              (Link (put_record m skb h) bf bh sem (PPub k h) (skb :: q) w c snt dlv)
| s_publish m bf bh sem k h skb q w c snt dlv :
    linux_step (Link m bf bh sem (PPub k h) (skb :: q) w c snt dlv)
              (Link (store32 m (r_ctrl to_fw + ESP_SHM_HEAD_OFF)
                       (u32 (h + ESP_SHM_RECORD_LEN (skb_len skb))))
                    bf bh sem (PKick k h) (skb :: q) w c snt dlv)
| s_kick m bf bh sem k h skb q w c snt dlv :
    linux_step (Link m bf bh sem (PKick k h) (skb :: q) w c snt dlv)
              (Link m bf bh sem (PTop (k || (tail_of m to_fw =? h))) q w c snt dlv)
| s_end m bf bh sem k q w c snt dlv :
    linux_step (Link m bf bh sem (PEnd k) q w c snt dlv)
              (Link m (k || bf) bh sem PIdle q w c snt dlv)
| s_irq m bf sem p q w c snt dlv :
    linux_step (Link m bf true sem p q w c snt dlv)
              (Link m bf false sem p q (w || negb (bool_decide (q = []))) c snt dlv).

(** Hart 0: shm_read() and shm_doorbell_isr(). *)
Inductive fw_step : link -> link -> Prop :=
| f_service m bf bh sem p q w snt dlv :
    fw_step (Link m bf bh sem p q w CTop snt dlv)
            (Link (store32 m (ESP_SHM_CTRL + ESP_SHM_HOST_REQ_OFF) 0) bf bh sem p q w CLoad snt dlv)
| f_load m bf bh sem p q w snt dlv :
    fw_step (Link m bf bh sem p q w CLoad snt dlv)
            (Link m bf bh sem p q w
               (if negb (head_of m to_fw =? tail_of m to_fw) then CRead (head_of m to_fw) else CSleep)
               snt dlv)
| f_take m bf bh p q w snt dlv :
    fw_step (Link m bf bh true p q w CSleep snt dlv) (Link m bf bh false p q w CTop snt dlv)
| f_isr m bh sem p q w c snt dlv :
    fw_step (Link m true bh sem p q w c snt dlv) (Link m false bh true p q w c snt dlv)
| f_read m bf bh sem p q w head snt dlv :
    fw_step (Link m bf bh sem p q w (CRead head) snt dlv)
      (let tail := tail_of m to_fw in
       let len := of_le (ring_copy_out m to_fw tail 4) in
       if (len <? HDR) || (len >? SHM_TO_FW_FRAME_MAX) ||
          (ESP_SHM_RECORD_LEN len >? u32 (head - tail))
       then Link (store32 m (r_ctrl to_fw + ESP_SHM_TAIL_OFF) head) bf bh sem p q w CBad snt dlv
       else Link m bf bh sem p q w (CStore (ring_copy_out m to_fw (u32 (tail + 4)) len)) snt dlv)
| f_nomem m bf bh sem p q w head snt dlv :
    fw_step (Link m bf bh sem p q w (CRead head) snt dlv) (Link m bf bh sem p q w CTop snt dlv)
| f_store m bf bh sem p q w frame snt dlv :
    fw_step (Link m bf bh sem p q w (CStore frame) snt dlv)
      (Link (store32 m (r_ctrl to_fw + ESP_SHM_TAIL_OFF)
               (u32 (tail_of m to_fw + ESP_SHM_RECORD_LEN (zlen frame))))
            bf bh sem p q w CWait snt (dlv ++ [frame]))
| f_wait m bf bh sem p q w snt dlv :
    fw_step (Link m bf bh sem p q w CWait snt dlv)
      (Link m bf bh sem p q w (if nz (wait_of m to_fw) then CClear else CTop) snt dlv)
| f_clear m bf bh sem p q w snt dlv :
    fw_step (Link m bf bh sem p q w CClear snt dlv)
      (Link (store32 m (r_ctrl to_fw + ESP_SHM_WAIT_OFF) 0) bf bh sem p q w CBell snt dlv)
| f_bell m bf bh sem p q w snt dlv :
    fw_step (Link m bf bh sem p q w CBell snt dlv) (Link m bf true sem p q w CTop snt dlv).

Definition internal (s s' : link) : Prop := linux_step s s' \/ fw_step s s'.
Definition step (s s' : link) : Prop := send s s' \/ internal s s'.

(** The state after the bind: an empty ring. *)
Definition init (m : mem) : link := Link m false false false PIdle [] false CTop [] [].

Inductive reachable (m : mem) : link -> Prop :=
| reach_init : reachable m (init m)
| reach_step s s' : reachable m s -> step s s' -> reachable m s'.
End Link.

(** * The memory after each kind of store *)

Abbreviation keeps := (ring_keeps to_fw).
Lemma keeps_req m v : mem_ok m ->
  keeps m (store32 m (ESP_SHM_CTRL + ESP_SHM_HOST_REQ_OFF) v) /\
  wait_of (store32 m (ESP_SHM_CTRL + ESP_SHM_HOST_REQ_OFF) v) to_fw = wait_of m to_fw.
Proof.
  intros M. split; [split; [by apply mem_ok_store32|]|apply load32_store32_ne; by right].
  intros x Hx. symmetry. apply store_bytes_out. rewrite zlen_le32.
  unfold ring_area, range, ESP_SHM_HEAD_OFF, ESP_SHM_TAIL_OFF, ESP_SHM_HOST_REQ_OFF, ESP_SHM_CTRL in *.
  cbn in Hx. unfold ESP_SHM_TO_FW_CTRL, ESP_SHM_TO_FW_DATA in *. lia.
Qed.

(** [no_room] is the test of the queue. *)
Lemma no_room_fits m skb q :
  ring_wf m to_fw q -> skb_ok skb -> no_room m skb = negb (fits (skb_data skb) q).
Proof.
  intros W [_ Hl]. by apply (room_fits to_fw to_fw_ok).
Qed.

(** The record of a frame that fits, before its head is stored. *)
Lemma put_record_spec m skb q :
  ring_wf m to_fw q -> skb_ok skb -> fits (skb_data skb) q = true ->
  let m' := put_record m skb (head_of m to_fw) in
  ring_wf m' to_fw q /\ ring_holds m' to_fw (head_of m to_fw) [skb_data skb] /\
  head_of m' to_fw = head_of m to_fw /\ tail_of m' to_fw = tail_of m to_fw /\
  wait_of m' to_fw = wait_of m to_fw.
Proof.
  intros W [Hb Hl] Hf m'. apply (put_ring_spec to_fw to_fw_ok m); [done|done|done|].
  unfold fits in Hf. bool_prop. pose proof (frames_len_nonneg q).
  pose proof (rlen_bounds (zlen (skb_data skb)) (zlen_nonneg _)). unfold m', put_record, push_data, skb_len.
  rewrite (host_copy_in_spec to_fw) by auto with port. apply ring_copy_in_proper; [|done..].
  rewrite (host_copy_in_spec to_fw) by auto with port. intros x. apply ring_copy_in_u32; [auto with port|lia].
Qed.

Lemma publish_spec m skb q h :
  ring_wf m to_fw q -> skb_ok skb -> fits (skb_data skb) q = true -> h = head_of m to_fw ->
  ring_holds m to_fw h [skb_data skb] ->
  let m' := store32 m (r_ctrl to_fw + ESP_SHM_HEAD_OFF) (u32 (h + ESP_SHM_RECORD_LEN (skb_len skb))) in
  ring_wf m' to_fw (q ++ [skb_data skb]) /\ tail_of m' to_fw = tail_of m to_fw /\
  wait_of m' to_fw = wait_of m to_fw.
Proof.
  intros W [Hb Hl] Hf E HR m'. by apply (publish_ring_spec to_fw to_fw_ok).
Qed.

Lemma take_spec m f q :
  ring_wf m to_fw (f :: q) ->
  let m' := store32 m (r_ctrl to_fw + ESP_SHM_TAIL_OFF)
              (u32 (tail_of m to_fw + ESP_SHM_RECORD_LEN (zlen f))) in
  ring_wf m' to_fw q /\ head_of m' to_fw = head_of m to_fw /\ wait_of m' to_fw = wait_of m to_fw /\
  (forall pos g, rlen (zlen g) <= r_size to_fw ->
     ring_holds m to_fw pos [g] -> ring_holds m' to_fw pos [g]).
Proof.
  intros W m'. apply (take_ring_spec to_fw to_fw_ok); [done|]. pose proof (wf_fit _ _ _ W) as Fit. cbn in Fit.
  fold (frames_len q) in Fit. pose proof (frames_len_nonneg q). pose proof (rlen_bounds (zlen f) (zlen_nonneg f)). unfold ESP_SHM_TO_FW_SIZE in Fit. lia.
Qed.

Lemma fits_take f g q : fits f (g :: q) = true -> fits f q = true.
Proof. apply (ring_fits_take to_fw). Qed.

(** * The invariant *)

Section Invariant.
Context (HDR : Z) (HDR_pos : 0 <= HDR).

(** The driver's queue without the frame that is in the ring already. *)
Definition unsent (p : ppc) (queue : list sk_buff) : list sk_buff :=
  match p with PKick _ _ => tl queue | _ => queue end.
Definition kicked (p : ppc) : bool :=
  match p with
  | PIdle => false
  | PTop k | PSetWait k | PTop2 k | PEnd k => k
  | PCopy k _ | PPub k _ | PKick k _ => k
  end.
(** The firmware is going to ring the host. *)
Definition bell_due (c : cpc) : Prop := c = CClear \/ c = CBell.

Definition producer_inv (m : mem) (q : list (list Z)) (p : ppc) (queue : list sk_buff) : Prop :=
  match p with
  | PIdle | PTop _ | PEnd _ => True
  | PSetWait _ | PTop2 _ | PKick _ _ => queue <> []
  | PCopy _ h => h = head_of m to_fw /\
      exists skb rest, queue = skb :: rest /\ fits (skb_data skb) q = true
  | PPub _ h => h = head_of m to_fw /\
      exists skb rest, queue = skb :: rest /\ fits (skb_data skb) q = true /\
        ring_holds m to_fw h [skb_data skb]
  end.

Definition consumer_inv (m : mem) (q : list (list Z)) (c : cpc) : Prop :=
  match c with
  | CRead head => exists f q1 q2, q = (f :: q1) ++ q2 /\
      head = u32 (tail_of m to_fw + frames_len (f :: q1))
  | CStore f => exists q', q = f :: q'
  | CBad => False
  | _ => True
  end.

Lemma consumer_inv_tail m m' q c :
  tail_of m' to_fw = tail_of m to_fw -> consumer_inv m q c -> consumer_inv m' q c.
Proof. intros E. unfold consumer_inv. by rewrite E. Qed.
Lemma consumer_inv_app m q q' c : consumer_inv m q c -> consumer_inv m (q ++ q') c.
Proof.
  destruct c; try done.
  - intros (f & q1 & q2 & -> & ?). exists f, q1, (q2 ++ q'). by rewrite <- app_assoc.
  - intros (q2 & ->). by exists (q2 ++ q').
Qed.

(** A sleeping consumer has nothing to read, or is going to be rung. *)
Definition wake_inv (m : mem) (bf sem : bool) (q : list (list Z)) (p : ppc) (c : cpc) : Prop :=
  c = CSleep -> sem = false -> bf = false ->
  q = [] \/ kicked p = true \/ exists k h, p = PKick k h /\ tail_of m to_fw = h.

(** A stuck producer has its wait flag seen after the next read. *)
Definition stuck_inv (m : mem) (bh w : bool) (q : list (list Z)) (p : ppc)
    (queue : list sk_buff) (c : cpc) : Prop :=
  w = false -> bh = false ->
  match p with
  | PTop2 _ => wait_of m to_fw <> 0 \/ bell_due c
  | PIdle | PEnd _ => forall skb rest, queue = skb :: rest ->
      wait_of m to_fw <> 0 /\ (fits (skb_data skb) q = false \/ c = CWait) \/ bell_due c
  | _ => True
  end.

Record inv (s : link) (q : list (list Z)) : Prop := {
  i_wf : ring_wf (l_mem s) to_fw q;
  i_ring : Forall (fw_frame_ok HDR) q;
  i_queue : Forall (tx_frame_ok HDR) (l_queue s);
  i_fifo : l_sent s = l_delivered s ++ q ++ (skb_data <$> unsent (l_ppc s) (l_queue s));
  i_prod : producer_inv (l_mem s) q (l_ppc s) (l_queue s);
  i_cons : consumer_inv (l_mem s) q (l_cpc s);
  i_wake : wake_inv (l_mem s) (l_bell_fw s) (l_rx_sem s) q (l_ppc s) (l_cpc s);
  i_stuck : stuck_inv (l_mem s) (l_bell_host s) (l_work s) q (l_ppc s) (l_queue s) (l_cpc s);
}.

Lemma inv_init m : ring_wf m to_fw [] -> inv (init m) [].
Proof. intros W. split; cbn; try done. Qed.

Lemma inv_send s s' q : inv s q -> send HDR s s' -> inv s' q.
Proof using Type.
  intros I H. destruct H as [m bf bh sem queue w c snt dlv skb Hs Hl].
  destruct I as [W R Q F P C G K]. cbn in *. split; cbn; try done.
  - apply Forall_app. by split; [|constructor].
  - rewrite F, fmap_app. by rewrite <- !app_assoc.
  - intros H1 H2 H3. destruct (G H1 H2 H3) as [?|[?|(?&?&?&?)]]; [by left|done|done].
Qed.

(** Solve the parts that a step does not touch. *)
Ltac keep_rest := cbn in *; try done; auto.

Lemma inv_linux s s' q : inv s q -> linux_step s s' -> exists q', inv s' q'.
Proof using Type.
  intros I H. destruct H; destruct I as [W R Q F P C G K]; cbn in W, R, Q, F, P, C, G, K.
  - (* s_work *) exists q. split; keep_rest.
    intros H1 H2 H3. destruct (G H1 H2 H3) as [?|[?|(?&?&?&?)]]; [by left|done|done].
  - (* s_empty *) exists q. split; keep_rest.
    intros H1 H2 H3. destruct (G H1 H2 H3) as [?|[?|(?&?&?&?)]]; [by left|by right; left|done].
  - (* s_try *) exists q. destruct (Forall_cons_1 _ _ _ Q) as [[Hs _] _].
    rewrite (no_room_fits m skb q W Hs). destruct (fits (skb_data skb) q) eqn:E; cbn [negb];
      split; keep_rest; try (split; [done|]; by exists skb, q0);
      intros H1 H2 H3; destruct (G H1 H2 H3) as [?|[?|(?&?&?&?)]];
      [by left|by right; left|done|by left|by right; left|done].
  - (* s_setwait *) exists q. pose proof (keeps_store_wait to_fw to_fw_ok m 1 (wf_mem _ _ _ W)) as KM.
    split; keep_rest.
    + by apply (keeps_ring_wf to_fw to_fw_ok m).
    + intros H1 H2 H3. destruct (G H1 H2 H3) as [?|[?|(?&?&?&?)]]; [by left|by right; left|done].
    + intros _ _. left. unfold wait_of. by rewrite load32_store32.
  - (* s_try2 *) exists q. destruct (Forall_cons_1 _ _ _ Q) as [[Hs _] _].
    rewrite (no_room_fits m skb q W Hs). destruct (fits (skb_data skb) q) eqn:E; cbn [negb];
      split; keep_rest; try (split; [done|]; by exists skb, q0);
      try (intros H1 H2 H3; destruct (G H1 H2 H3) as [?|[?|(?&?&?&?)]];
           [by left|by right; left|done]).
    intros H1 H2 ? ? [= <- <-]. destruct (K H1 H2); [left; by split; [|left]|by right].
  - (* s_copy *) exists q. destruct (Forall_cons_1 _ _ _ Q) as [[Hs _] _].
    destruct P as (-> & skb' & rest & [= <- <-] & E).
    destruct (put_record_spec m skb q W Hs E) as (W' & R' & H1 & H2 & H3).
    split; keep_rest.
    + split; [done|]. by exists skb, q0.
    + by apply (consumer_inv_tail m).
    + intros X1 X2 X3. destruct (G X1 X2 X3) as [?|[?|(?&?&?&?)]]; [by left|by right; left|done].
  - (* s_publish *) destruct (Forall_cons_1 _ _ _ Q) as [[Hs Hl] Q'].
    destruct P as (E & skb' & rest & [= <- <-] & Ef & Hr).
    destruct (publish_spec m skb q h W Hs Ef E Hr) as (W' & T' & V').
    exists (q ++ [skb_data skb]). split; keep_rest.
    + apply Forall_app. split; [done|]. constructor; [|constructor]. exact Hl.
    + by rewrite F, <- app_assoc.
    + by apply (consumer_inv_tail m), consumer_inv_app.
    + intros X1 X2 X3. right. destruct (G X1 X2 X3) as [->|[?|(?&?&?&?)]]; [|by left|done].
      right. exists k, h. split; [done|]. rewrite T', E. destruct (wf_head to_fw to_fw_ok m [] W) as (Eh & ? & ?).
      cbn in Eh. rewrite Eh, Z.add_0_r. symmetry. by apply u32_small.
  - (* s_kick *) exists q. destruct (Forall_cons_1 _ _ _ Q) as [_ Q'].
    split; keep_rest. intros X1 X2 X3. destruct (G X1 X2 X3) as [?|[E|(k'&h'&[= <- <-]&E)]]; [by left| |].
    + right; left. cbn in *. by rewrite E.
    + right; left. cbn. rewrite (proj2 (Z.eqb_eq _ _) E). apply orb_true_r.
  - (* s_end *) exists q. split; keep_rest.
    intros X1 X2 X3. apply orb_false_elim in X3 as [-> ->].
    destruct (G X1 X2 eq_refl) as [?|[?|(?&?&?&?)]]; [by left|done|done].
  - (* s_irq *) exists q. split; keep_rest.
    intros X _. apply orb_false_elim in X as [-> X]. apply negb_false_iff in X.
    apply bool_decide_eq_true in X as ->. destruct p; try done.
Qed.

Lemma producer_inv_keeps m m' q p queue :
  keeps m m' -> producer_inv m q p queue -> producer_inv m' q p queue.
Proof using Type.
  intros KM P. destruct p; try exact P; cbn [producer_inv] in *; rewrite (keeps_ring_head to_fw _ _ KM).
  - exact P.
  - destruct P as (-> & skb & rest & E1 & E2 & E3). split; [done|]. exists skb, rest.
    split; [done|]. split; [done|]. unfold fits in E2. bool_prop. pose proof (frames_len_nonneg q).
    apply (keeps_ring_holds to_fw to_fw_ok m); [done|lia|done].
Qed.

(** A step of the consumer that changes neither memory nor bells. *)
Lemma inv_fw_local m bf bh sem p queue w c c' snt dlv q :
  inv (Link m bf bh sem p queue w c snt dlv) q ->
  consumer_inv m q c' ->
  (c' = CSleep -> q = []) ->
  (c = CWait -> wait_of m to_fw <> 0 -> bell_due c') ->
  (bell_due c -> bell_due c') ->
  inv (Link m bf bh sem p queue w c' snt dlv) q.
Proof using Type.
  intros [W R Q F P C G K] Hc Hs Hw Hb. cbn in *. split; cbn; try done.
  - intros E _ _. left. by apply Hs.
  - intros X1 X2. specialize (K X1 X2).
    assert (forall (Q : Prop), (forall skb rest, queue = skb :: rest ->
       wait_of m to_fw <> 0 /\ (fits (skb_data skb) q = false \/ c = CWait) \/ bell_due c) ->
      forall skb rest, queue = skb :: rest ->
       wait_of m to_fw <> 0 /\ (fits (skb_data skb) q = false \/ c' = CWait) \/ bell_due c') as X.
    { intros _ K' skb rest Eq. destruct (K' skb rest Eq) as [[V [Z|Z]]|D]; auto. }
    destruct p; try done; [by apply (X True)| |by apply (X True)].
    destruct K as [V|D]; [by left|right; by auto].
Qed.

Lemma inv_fw s s' q : inv s q -> fw_step HDR s s' -> exists q', inv s' q'.
Proof using HDR_pos.
  intros I H. destruct H.
  - (* f_service *) destruct (keeps_req m 0 (wf_mem _ _ _ (i_wf _ _ I))) as [KM Ew].
    destruct I as [W R Q F P C G K]. cbn [l_mem l_bell_fw l_bell_host l_rx_sem l_ppc l_queue l_work l_cpc l_sent l_delivered] in *.
    exists q. apply Build_inv; cbn [l_mem l_bell_fw l_bell_host l_rx_sem l_ppc l_queue l_work l_cpc l_sent l_delivered]; try assumption.
    + by apply (keeps_ring_wf to_fw to_fw_ok m).
    + by apply (producer_inv_keeps m).
    + done.
    + unfold stuck_inv in *. rewrite Ew. intros X1 X2. specialize (K X1 X2). unfold bell_due in *.
      destruct p; try done.
      * intros skb rest Eq. destruct (K skb rest Eq) as [[V [Z|Z]]|[D|D]]; try done. left; tauto.
      * destruct K as [V|[D|D]]; try done. by left.
      * intros skb rest Eq. destruct (K skb rest Eq) as [[V [Z|Z]]|[D|D]]; try done. left; tauto.
  - (* f_load *) exists q. pose proof (wf_empty_iff to_fw to_fw_ok m q (i_wf _ _ I)) as E.
    rewrite Z.eqb_sym in E. rewrite E. apply inv_fw_local with CLoad; try done.
    + destruct q as [|f q1].
      * rewrite bool_decide_true by done. done.
      * rewrite bool_decide_false by done. cbn [negb]. exists f, q1, []. rewrite app_nil_r.
        split; [done|]. by destruct (wf_head to_fw to_fw_ok m _ (i_wf _ _ I)).
    + case_bool_decide; done.
    + by intros [?|?].
  - (* f_take *) exists q. destruct I as [W R Q F P C G K]. cbn in *. split; cbn; try done.
    intros X1 X2. specialize (K X1 X2). unfold bell_due in *.
    destruct p; try done; [intros skb rest Eq; destruct (K skb rest Eq) as [[V [Z|Z]]|[D|D]]
      |destruct K as [V|[D|D]]
      |intros skb rest Eq; destruct (K skb rest Eq) as [[V [Z|Z]]|[D|D]]]; try done; try (left; tauto); by left.
  - (* f_isr *) exists q. destruct I as [W R Q F P C G K]. by split.
  - (* f_read *) exists q. destruct I as [W R Q F P C G K] eqn:EI. cbn in W, R, C.
    destruct C as (f & q1 & q2 & -> & Eh). destruct (Forall_cons_1 _ _ _ R) as [[Hf1 Hf2] _].
    unfold SHM_TO_FW_FRAME_MAX in *. pose proof (zlen_nonneg f).
    destruct (first_len to_fw to_fw_ok m f q1 q2 head W ltac:(lia) ltac:(done) Eh) as (E1 & E2 & E3).
    rewrite E1, E2, E3. cbn zeta. rewrite Z.gtb_ltb, !(proj2 (Z.ltb_ge _ _)) by lia. cbn [orb].
    apply inv_fw_local with (CRead head); try done; [by exists (q1 ++ q2)|by intros [?|?]].
  - (* f_nomem *) exists q. apply inv_fw_local with (CRead head); try done. by intros [?|?].
  - (* f_store *) destruct I as [W R Q F P C G K]. cbn in *. destruct C as (q' & ->).
    destruct (take_spec m frame q' W) as (W' & H1 & H2 & H3). cbn in H1, H2.
    destruct (Forall_cons_1 _ _ _ R) as [_ R']. exists q'. split; cbn; try done.
    + by rewrite F, <- app_assoc.
    + destruct p; cbn [producer_inv] in *; try exact P; rewrite H1; destruct P as [-> P]; (split; [done|]).
      * destruct P as (skb & rest & E1 & E2). exists skb, rest. split; [done|]. by apply (fits_take _ frame).
      * destruct P as (skb & rest & E1 & E2 & E3). exists skb, rest. apply fits_take in E2.
        split; [done|]. split; [done|]. unfold fits in E2. bool_prop. pose proof (frames_len_nonneg q').
        apply H3; [lia|done].
    + unfold stuck_inv in *. rewrite H2. intros X1 X2. specialize (K X1 X2). unfold bell_due in *.
      destruct p; try done.
      * intros skb rest Eq. destruct (K skb rest Eq) as [[V _]|[D|D]]; try done. left. by split; [|right].
      * destruct K as [V|[D|D]]; try done. by left.
      * intros skb rest Eq. destruct (K skb rest Eq) as [[V _]|[D|D]]; try done. left. by split; [|right].
  - (* f_wait *) exists q. apply inv_fw_local with CWait; try done.
    + destruct (nz (wait_of m to_fw)); done.
    + destruct (nz (wait_of m to_fw)); done.
    + intros _ V. apply nz_true in V. rewrite V. by left.
    + by intros [?|?].
  - (* f_clear *) destruct I as [W R Q F P C G K].
    cbn [l_mem l_bell_fw l_bell_host l_rx_sem l_ppc l_queue l_work l_cpc l_sent l_delivered] in *. exists q.
    pose proof (keeps_store_wait to_fw to_fw_ok m 0 (wf_mem _ _ _ W)) as KM.
    apply Build_inv; cbn [l_mem l_bell_fw l_bell_host l_rx_sem l_ppc l_queue l_work l_cpc l_sent l_delivered]; try assumption.
    + by apply (keeps_ring_wf to_fw to_fw_ok m).
    + by apply (producer_inv_keeps m).
    + done.
    + intros X1 X2. destruct p; try done; intros; right; by right.
  - (* f_bell *) destruct I as [W R Q F P C G K]. cbn in *. exists q. by split.
Qed.

Lemma inv_reachable m s : ring_wf m to_fw [] -> reachable HDR m s -> exists q, inv s q.
Proof using HDR_pos.
  intros W H. induction H as [|s s' H [q I] Hs]; [exists []; by apply inv_init|].
  destruct Hs as [Hs|[Hs|Hs]].
  - exists q. by apply (inv_send s).
  - by apply (inv_linux s s' q).
  - by apply (inv_fw s s' q).
Qed.

(** Progress: a state with no step of the driver and of the firmware. *)
Lemma no_step_shape s q :
  inv s q -> (forall s', ~ internal HDR s s') ->
  l_ppc s = PIdle /\ l_work s = false /\ l_bell_host s = false /\ l_bell_fw s = false /\
  l_cpc s = CSleep /\ l_rx_sem s = false.
Proof using Type.
  intros I N. pose proof (i_prod _ _ I) as P. pose proof (i_cons _ _ I) as C.
  destruct s as [m bf bh sem p queue w c snt dlv]. cbn in *.
  assert (bh = false) as -> by (destruct bh; [|done]; exfalso; eapply N; left; constructor).
  assert (bf = false) as -> by (destruct bf; [|done]; exfalso; eapply N; right; constructor).
  assert (p = PIdle) as ->.
  { destruct p; [done|..]; exfalso.
    1: destruct queue.
    all: try (destruct queue as [|skb queue]; [done|]).
    all: try (eapply N; left; by constructor).
    all: destruct P as (_ & ? & ? & -> & _); eapply N; left; by constructor. }
  assert (w = false) as -> by (destruct w; [|done]; exfalso; eapply N; left; constructor).
  assert (c = CSleep) as -> by (destruct c; try done; exfalso; eapply N; right; by constructor).
  assert (sem = false) as -> by (destruct sem; [|done]; exfalso; eapply N; right; constructor).
  done.
Qed.
End Invariant.

(** * Solo runs *)

(** esp_shm_push() as its steps. *)
Definition published (m : mem) (skb : sk_buff) : mem :=
  store32 (put_record m skb (head_of m to_fw)) (r_ctrl to_fw + ESP_SHM_HEAD_OFF)
    (u32 (head_of m to_fw + ESP_SHM_RECORD_LEN (skb_len skb))).
Lemma push_steps m skb k :
  esp_shm_push m skb k =
    if no_room m skb then (false, m, k)
    else (true, published m skb, k || (tail_of (published m skb) to_fw =? head_of m to_fw)).
Proof. reflexivity. Qed.

(** The steps of hart 1 alone are the flush of ShmHost.v. *)
Lemma tx_flush_steps bf bh sem w c snt dlv q : forall m k,
  let '(m', q', k') := tx_flush_loop m q k in
  rtc linux_step (Link m bf bh sem (PTop k) q w c snt dlv)
                 (Link m' bf bh sem (PEnd k') q' w c snt dlv).
Proof.
  assert (forall m skb rest k p,
    linux_step (Link m bf bh sem p (skb :: rest) w c snt dlv)
               (Link m bf bh sem (PCopy k (head_of m to_fw)) (skb :: rest) w c snt dlv) ->
    rtc linux_step (Link m bf bh sem p (skb :: rest) w c snt dlv)
      (Link (published m skb) bf bh sem
         (PTop (k || (tail_of (published m skb) to_fw =? head_of m to_fw))) rest w c snt dlv)) as X.
  { intros m skb rest k p H. eapply rtc_l; [exact H|].
    eapply rtc_l; [apply s_copy|]. eapply rtc_l; [apply s_publish|].
    eapply rtc_l; [apply s_kick|]. apply rtc_refl. }
  induction q as [|skb q IH]; intros m k; cbn [tx_flush_loop].
  { apply rtc_once, s_empty. }
  rewrite push_steps. pose proof (s_try m bf bh sem k skb q w c snt dlv) as S1.
  destruct (no_room m skb) eqn:E1.
  - set (m2 := store32 m _ 1).
    pose proof (s_try2 m2 bf bh sem k skb q w c snt dlv) as S2. rewrite push_steps.
    assert (rtc linux_step (Link m bf bh sem (PTop k) (skb :: q) w c snt dlv)
              (Link m2 bf bh sem (PTop2 k) (skb :: q) w c snt dlv)) as S0.
    { eapply rtc_l; [exact S1|]. apply rtc_once, s_setwait. }
    destruct (no_room m2 skb) eqn:E2.
    + etransitivity; [exact S0|]. by apply rtc_once.
    + apply X in S2. specialize (IH (published m2 skb)
        (k || (tail_of (published m2 skb) to_fw =? head_of m2 to_fw))).
      destruct (tx_flush_loop _ q _) as [[m' q'] k'].
      etransitivity; [exact S0|]. etransitivity; [exact S2|exact IH].
  - apply X in S1. specialize (IH (published m skb)
      (k || (tail_of (published m skb) to_fw =? head_of m to_fw))).
    destruct (tx_flush_loop _ q _) as [[m' q'] k'].
    etransitivity; [exact S1|exact IH].
Qed.

(** * Properties *)

(** C2: with any interleaving of the two harts, the frames go through in order,
    each exactly once: what esp_shm_write() took is what shm_read() took off,
    then what the ring holds, then what the driver's queue holds (without the
    frame that is published but not yet unlinked); the ring is well formed in
    each state, and shm_read() never sees a broken record. *)
Theorem link_fifo HDR m s :
  0 <= HDR -> ring_wf m to_fw [] -> reachable HDR m s ->
  l_cpc s <> CBad /\
  exists q, ring_wf (l_mem s) to_fw q /\ Forall (fw_frame_ok HDR) q /\
    l_sent s = l_delivered s ++ q ++ (skb_data <$> unsent (l_ppc s) (l_queue s)).
Proof.
  intros H0 W R. destruct (inv_reachable HDR H0 m s W R) as [q I]. split.
  - intros E. pose proof (i_cons _ _ _ I) as C. by rewrite E in C.
  - exists q. split_and!; apply I.
Qed.

(** C1: no doorbell is lost: in each reachable state in which neither the driver
    nor the firmware has a step left (the flush is over, no work is scheduled,
    no doorbell is pending and the receive task sleeps), the queue of the driver
    and the ring are empty and each frame that was taken is delivered. *)
Theorem link_no_lost_wakeup HDR m s :
  0 <= HDR -> ring_wf m to_fw [] -> reachable HDR m s ->
  (forall s', ~ internal HDR s s') ->
  l_queue s = [] /\ ring_wf (l_mem s) to_fw [] /\ l_delivered s = l_sent s.
Proof.
  intros H0 W R N. destruct (inv_reachable HDR H0 m s W R) as [q I].
  destruct (no_step_shape HDR s q I N) as (Ep & Ew & Eh & Ef & Ec & Es).
  destruct I as [Wq Rq Q F P C G K]. rewrite Ep, Ec, Es, Ef in G. rewrite Ep, Ew, Eh, Ec in K.
  assert (q = []) as ->.
  { destruct (G eq_refl eq_refl eq_refl) as [?|[?|(?&?&?&?)]]; done. }
  assert (l_queue s = []) as Eq.
  { destruct (l_queue s) as [|skb rest]; [done|].
    destruct (K eq_refl eq_refl skb rest eq_refl) as [[_ [X|X]]|[X|X]]; try done.
    destruct (Forall_cons_1 _ _ _ Q) as [[_ Hl] _]. unfold fits in X.
    apply Z.leb_gt in X. unfold SHM_TO_FW_FRAME_MAX, skb_len in *. cbn in X.
    unfold ESP_SHM_TO_FW_SIZE in X. pose proof (zlen_nonneg (skb_data skb)).
    pose proof (rlen_bounds (zlen (skb_data skb)) ltac:(lia)). lia. }
  split_and!; [done|done|]. rewrite F, Ep, Eq. cbn. by rewrite app_nil_r.
Qed.

(** The part of a context that the interleaving has. *)
Definition link_of (c : ctx) (sem : bool) (p : ppc) (cp : cpc) (snt dlv : list (list Z)) : link :=
  Link (shm c) (nz (bell_to_fw c)) (nz (bell_to_host c)) sem p (tx_queue c) (tx_work c) cp snt dlv.

(** C7: the steps implement the driver's code: with the other hart still, they
    take the flush from its start to its end with exactly the memory, the
    queue, the doorbells and the work item of esp_shm_tx_flush(). *)
Theorem link_refines_tx_flush n c sem cp snt dlv :
  running c = true -> tx_quiesced c = false ->
  rtc linux_step (link_of c sem (PTop false) cp snt dlv)
                 (link_of (esp_shm_tx_flush n c) sem PIdle cp snt dlv).
Proof.
  intros R Q. unfold esp_shm_tx_flush. rewrite R, Q. cbn [negb orb].
  pose proof (tx_flush_steps (nz (bell_to_fw c)) (nz (bell_to_host c)) sem (tx_work c) cp snt dlv
    (tx_queue c) (shm c) false) as S.
  destruct (tx_flush_loop _ _ _) as [[m q] kick].
  destruct (flush_fields n c m q kick) as (E1 & E2 & E3 & _ & E5 & E6).
  unfold link_of. rewrite E1, E2, E3, E5, E6.
  eapply rtc_r; [exact S|].
  pose proof (s_end m (nz (bell_to_fw c)) (nz (bell_to_host c)) sem kick q (tx_work c) cp snt dlv) as E.
  by destruct kick.
Qed.

(** The part of the firmware's state that the interleaving has. *)
Definition link_of_fw (st : fw) (bf sem : bool) (p : ppc) (q : list sk_buff) (w : bool) (cp : cpc)
    (snt dlv : list (list Z)) : link :=
  Link (fw_shm st) bf (nz (reg_to_host st)) sem p q w cp snt dlv.

(** And they implement shm_read(): with the other hart still, the steps of
    the firmware take a read of a frame from its start to its end with the
    memory and the doorbell of shm_read(), and deliver the frame that it
    returns. *)
Theorem link_refines_shm_read HDR ID1 ID2 ID3 ID4 ID5 L1 L4 CHIP EVSZ mac fwd st f ret st' bf sem p q w snt dlv :
  shm_read HDR ID1 ID2 ID3 ID4 ID5 L1 L4 CHIP EVSZ mac fwd st true true true [] = Some (ret, Some f, st') ->
  0 <= HDR ->
  rtc (fw_step HDR) (link_of_fw st bf sem p q w CTop snt dlv)
                    (link_of_fw st' bf sem p q w CTop snt (dlv ++ [f])).
Proof.
  intros H H0. unfold shm_read in H. cbn [negb orb fw_wait_frame] in H.
  destruct (service_shm ID1 ID2 ID3 ID4 ID5 L1 L4 CHIP EVSZ mac fwd st) as [Em Er].
  set (st1 := shm_service_host_requests _ _ _ _ _ _ _ _ _ _ _ st) in *.
  assert (tail_of (fw_shm st) to_fw = tail_of (fw_shm st1) to_fw) as Et.
  { rewrite Em. symmetry. apply load32_store32_ne. by right. }
  rewrite Et in H.
  destruct (negb (head_of (fw_shm st1) to_fw =? tail_of (fw_shm st1) to_fw)) eqn:Eh; [|done].
  unfold link_of_fw. rewrite <- Er. eapply rtc_l; [apply f_service|]. rewrite <- Em.
  eapply rtc_l; [apply f_load|]. rewrite Eh. eapply rtc_l; [apply f_read|]. cbn zeta.
  set (len := of_le _) in *.
  destruct ((len <? HDR) || _ || _) eqn:F; [done|]. injection H as <- <- <-.
  repeat (apply orb_false_elim in F as [F ?]). bool_prop.
  eapply rtc_l; [apply f_store|].
  rewrite (zlen_ring_copy_out to_fw to_fw_ok) by lia.
  eapply rtc_l; [apply f_wait|]. cbn [fw_shm with_shm].
  destruct (nz (wait_of (store32 _ _ _) to_fw)) eqn:Ew.
  - eapply rtc_l; [apply f_clear|]. eapply rtc_l; [apply f_bell|]. apply rtc_refl.
  - apply rtc_refl.
Qed.

(** * The start of the transport *)

Lemma clear_block_ok m : mem_ok m -> mem_ok (clear_block m).
Proof. intros M x. unfold clear_block. if_goal; [unfold is_byte; lia|apply M]. Qed.

(** The block when shm_init() asks for the interrupt. *)
Definition init_mem (m : mem) (map size : Z) : mem :=
  store32 (store32 (store32 (clear_block m) (flash_word ESP_SHM_FLASH_MAP_OFF) map)
    (flash_word ESP_SHM_FLASH_SIZE_OFF) size) (ESP_SHM_CTRL + ESP_SHM_VERSION_OFF) ESP_SHM_VERSION.

Lemma init_mem_words m map size :
  mem_ok m ->
  mem_ok (init_mem m map size) /\
  (forall a, 0x100 <= a -> a + 4 <= 0x300 -> load32 (init_mem m map size) a = 0) /\
  load32 (init_mem m map size) ESP_SHM_VERSION_OFF = ESP_SHM_VERSION /\
  mbox_read (init_mem m map size) ESP_SHM_FLASH_SIZE_OFF = u32 size /\
  load32 (init_mem m map size) ESP_SHM_MAGIC_OFF = 0.
Proof.
  intros M. unfold init_mem, mbox_read. split_and!.
  - repeat apply mem_ok_store32. by apply clear_block_ok.
  - intros a Ha Hb. unfold flash_word, ESP_SHM_CTRL, ESP_SHM_VERSION_OFF, ESP_SHM_FLASH,
      ESP_SHM_FLASH_MAP_OFF, ESP_SHM_FLASH_SIZE_OFF.
    rewrite !load32_store32_ne by lia. change 0 with (load32 (fun _ => 0) a).
    apply load32_ext. intros x Hx. unfold clear_block, range, ESP_SHM_SIZE in *.
    rewrite (proj2 (Z.leb_le _ _)), (proj2 (Z.ltb_lt _ _)) by lia. done.
  - by rewrite load32_store32.
  - rewrite load32_store32_ne by (by right). apply load32_store32.
  - unfold flash_word, ESP_SHM_MAGIC_OFF, ESP_SHM_CTRL, ESP_SHM_VERSION_OFF, ESP_SHM_FLASH,
      ESP_SHM_FLASH_MAP_OFF, ESP_SHM_FLASH_SIZE_OFF.
    rewrite !load32_store32_ne by lia. done.
Qed.

(** A block whose ring control words are 0 has two empty rings. *)
Lemma zero_ctrl_wf m :
  mem_ok m -> (forall a, 0x100 <= a -> a + 4 <= 0x300 -> load32 m a = 0) ->
  ring_wf m to_fw [] /\ ring_wf m to_host [].
Proof.
  intros M Z. split; (apply ring_wf_empty; [auto with port|done| |]);
    unfold head_of, tail_of; by rewrite !Z by done.
Qed.

Lemma probe_result m irq :
  0 <= irq ->
  (esp_shm_probe true false m irq 0).1 =
    if (load32 m ESP_SHM_MAGIC_OFF =? ESP_SHM_MAGIC) && (load32 m ESP_SHM_VERSION_OFF =? ESP_SHM_VERSION)
    then 0 else - ENODEV.
Proof.
  intros Hi. unfold esp_shm_probe. rewrite (proj2 (Z.ltb_ge irq 0)) by lia. cbn [negb].
  change (ESP_SHM_CTRL + ESP_SHM_MAGIC_OFF) with ESP_SHM_MAGIC_OFF.
  change (ESP_SHM_CTRL + ESP_SHM_VERSION_OFF) with ESP_SHM_VERSION_OFF.
  by destruct (_ =? ESP_SHM_MAGIC), (_ =? ESP_SHM_VERSION).
Qed.

(** The window that shm_flash_init() has. *)
Lemma flash_init_window m root data mmap sem task :
  exists map, (shm_flash_init m root data mmap sem task).1 =
    store32 (store32 m (flash_word ESP_SHM_FLASH_MAP_OFF) map) (flash_word ESP_SHM_FLASH_SIZE_OFF)
      (s_size (shm_flash_init m root data mmap sem task).2) /\
  let s := (shm_flash_init m root data mmap sem task).2 in
  s_size s <> 0 -> exists ra rs ds, root = Some (ra, rs) /\
     data = Some (u32 (ra + rs), ds) /\ s_base s = ra /\ s_size s = u32 (rs + ds).
Proof.
  unfold shm_flash_init. set (p := match root with Some _ => _ | None => _ end).
  exists p.1. assert (s_size p.2 <> 0 -> exists ra rs ds, root = Some (ra, rs) /\
     data = Some (u32 (ra + rs), ds) /\ s_base p.2 = ra /\ s_size p.2 = u32 (rs + ds)) as Hp.
  { unfold p. destruct root as [[ra rs]|], data as [[da ds]|]; try done.
    destruct (Z.eqb_spec da (u32 (ra + rs))) as [->|]; [|done].
    destruct mmap; [|done]. destruct (flash_task_start sem task) as [[] ?]; [|done].
    intros _. by exists ra, rs, ds. }
  by destruct p as [map s].
Qed.

(** The state of the block from which the harts start. *)
Definition transport_up (m : mem) : Prop := ring_wf m to_fw [] /\ ring_wf m to_host [].

(** The firmware writes the magic last.  The Linux driver binds to the block
    that shm_init() left exactly when shm_init() could allocate everything;
    then both rings are well formed and empty, and the flash window that Linux
    sees is the one that the firmware has. *)
Theorem shm_init_probe st space_rx space_tx intr root data mmap sem task irq :
  mem_ok (fw_shm st) -> 0 <= irq -> space_rx = true -> space_tx = true ->
  let '(ok, st') := shm_init st space_rx space_tx intr
                      (fun m => shm_flash_init m root data mmap sem task) in
  ok = intr /\
  (esp_shm_probe true false (fw_shm st') irq 0).1 = (if intr then 0 else - ENODEV) /\
  transport_up (fw_shm st') /\
  mbox_read (fw_shm st') ESP_SHM_FLASH_SIZE_OFF = u32 (s_size (s_flash st')) /\
  (s_size (s_flash st') <> 0 -> exists ra rs ds, root = Some (ra, rs) /\
     data = Some (u32 (ra + rs), ds) /\ s_base (s_flash st') = ra /\ s_size (s_flash st') = u32 (rs + ds)).
Proof.
  intros M Hi -> ->. unfold shm_init. cbn [negb orb]. cbn [fw_shm with_sems with_shm].
  destruct (flash_init_window (clear_block (fw_shm st)) root data mmap sem task) as (map & E & Hp).
  destruct (shm_flash_init _ _ _ _ _ _) as [m0 s]. cbn [fst snd] in E, Hp. subst m0.
  destruct (init_mem_words (fw_shm st) map (s_size s) M) as (M1 & Z1 & V1 & S1 & G1).
  destruct intr; cbn [negb];
    cbn [fw_shm with_shm with_intr with_init with_flash with_sems log s_flash];
    fold (init_mem (fw_shm st) map (s_size s)); set (m1 := init_mem _ _ _) in *.
  - set (m2 := store32 m1 _ ESP_SHM_MAGIC).
    assert (forall a, 4 <= a -> load32 m2 a = load32 m1 a) as E2.
    { intros a Ha. apply load32_store32_ne. unfold ESP_SHM_CTRL, ESP_SHM_MAGIC_OFF. lia. }
    destruct (zero_ctrl_wf m2) as [W1 W2].
    { by apply mem_ok_store32. } { intros a Ha Hb. rewrite E2 by lia. by apply Z1. }
    split_and!; try done.
    rewrite probe_result by done. rewrite (E2 ESP_SHM_VERSION_OFF), V1 by done.
    change ESP_SHM_MAGIC_OFF with (ESP_SHM_CTRL + ESP_SHM_MAGIC_OFF).
    unfold m2. by rewrite load32_store32.
  - destruct (zero_ctrl_wf m1 M1 Z1) as [W1 W2].
    split_and!; try done. rewrite probe_result by done. by rewrite G1.
Qed.

(** * Instances *)

Definition skb12 : sk_buff := Skb 0 hdr12 false false.
Lemma skb12_ok : tx_frame_ok 12 skb12.
Proof. split; [split; [exact hdr12_bytes|done]|]. vm_compute. by split. Qed.

(** A run: the firmware goes to sleep, Linux sends a frame, rings, the firmware
    reads the frame and goes to sleep again. *)
Definition mem1 : mem := store32 zero_mem (ESP_SHM_CTRL + ESP_SHM_HOST_REQ_OFF) 0.
Definition mem2 : mem := published mem1 skb12.
Definition mem3 : mem := store32 mem2 (ESP_SHM_CTRL + ESP_SHM_HOST_REQ_OFF) 0.
Definition mem4 : mem := store32 mem3 (r_ctrl to_fw + ESP_SHM_TAIL_OFF)
  (u32 (tail_of mem3 to_fw + ESP_SHM_RECORD_LEN (zlen hdr12))).
Definition mem5 : mem := store32 mem4 (ESP_SHM_CTRL + ESP_SHM_HOST_REQ_OFF) 0.

Lemma send_steps : rtc (step 12)
  (Link mem1 false false false PIdle [] false CSleep [] [])
  (Link mem2 true false false PIdle [] false CSleep [hdr12] []).
Proof.
  eapply rtc_l; [left; apply (s_write 12 _ _ _ _ [] _ _ [] _ skb12); [exact skb12_ok|reflexivity]|].
  eapply rtc_l; [right; left; apply s_try|]. change (no_room mem1 skb12) with false.
  eapply rtc_l; [right; left; apply s_copy|]. eapply rtc_l; [right; left; apply s_publish|].
  eapply rtc_l; [right; left; apply s_kick|].
  change (store32 _ _ _) with mem2. change (tail_of mem2 to_fw =? head_of mem1 to_fw) with true.
  eapply rtc_l; [right; left; apply s_empty|]. eapply rtc_l; [right; left; apply s_end|].
  apply rtc_refl.
Qed.
Lemma read_steps : rtc (step 12)
  (Link mem2 true false false PIdle [] false CSleep [hdr12] [])
  (Link mem5 false false false PIdle [] false CSleep [hdr12] [hdr12]).
Proof.
  eapply rtc_l; [right; right; apply f_isr|]. eapply rtc_l; [right; right; apply f_take|].
  eapply rtc_l; [right; right; apply f_service|]. fold mem3.
  eapply rtc_l; [right; right; apply f_load|].
  change (head_of mem3 to_fw =? tail_of mem3 to_fw) with false. cbn [negb].
  eapply rtc_l; [right; right; apply f_read|]. cbv zeta.
  change (of_le (ring_copy_out mem3 to_fw (tail_of mem3 to_fw) 4)) with 12.
  change (ring_copy_out mem3 to_fw (u32 (tail_of mem3 to_fw + 4)) 12) with hdr12.
  change ((12 <? 12) || _ || _) with false. cbv iota.
  eapply rtc_l; [right; right; apply f_store|]. fold mem4.
  eapply rtc_l; [right; right; apply f_wait|]. change (nz (wait_of mem4 to_fw)) with false.
  eapply rtc_l; [right; right; apply f_service|]. fold mem5.
  eapply rtc_l; [right; right; apply f_load|].
  change (head_of mem5 to_fw =? tail_of mem5 to_fw) with true. apply rtc_refl.
Qed.
Definition done_link : link := Link mem5 false false false PIdle [] false CSleep [hdr12] [hdr12].
Lemma done_reachable : reachable 12 zero_mem done_link.
Proof.
  assert (forall s s', rtc (step 12) s s' -> reachable 12 zero_mem s -> reachable 12 zero_mem s') as X.
  { intros s s' H. induction H as [|s1 s2 s3 H1 H2 IH]; [done|].
    intros R. apply IH. by apply reach_step with s1. }
  eapply X; [exact read_steps|]. eapply X; [exact send_steps|].
  eapply X; [|apply reach_init]. eapply rtc_l; [right; right; apply f_service|].
  fold mem1. eapply rtc_l; [right; right; apply f_load|].
  change (head_of mem1 to_fw =? tail_of mem1 to_fw) with true. apply rtc_refl.
Qed.
Lemma done_quiet : forall s', ~ internal 12 done_link s'.
Proof. intros s' [H|H]; inversion H. Qed.

Lemma link_fifo_witness : l_cpc done_link <> CBad.
Proof.
  exact (proj1 (link_fifo 12 zero_mem done_link ltac:(lia) (zero_mem_wf to_fw to_fw_ok) done_reachable)).
Defined.
Lemma link_no_lost_wakeup_witness : l_sent done_link = [hdr12] /\ l_delivered done_link = l_sent done_link.
Proof.
  split; [reflexivity|].
  exact (proj2 (proj2 (link_no_lost_wakeup 12 zero_mem done_link ltac:(lia)
    (zero_mem_wf to_fw to_fw_ok) done_reachable done_quiet))).
Defined.
Lemma link_refines_tx_flush_witness :
  rtc linux_step (link_of (idle_ctx [skb12]) false (PTop false) CSleep [] [])
    (link_of (esp_shm_tx_flush 2 (idle_ctx [skb12])) false PIdle CSleep [] []).
Proof. apply (link_refines_tx_flush 2 (idle_ctx [skb12])); reflexivity. Defined.
Lemma link_refines_shm_read_witness :
  exists st', rtc (fw_step 12) (link_of_fw (fw0 one_frame) false false PIdle [] false CTop [] [])
    (link_of_fw st' false false PIdle [] false CTop [] [hdr12]).
Proof.
  destruct (shm_read 12 0 1 2 3 4 1 4 32 4 [] [] (fw0 one_frame) true true true []) as [[[r b] st']|] eqn:E;
    pose proof (f_equal (option_map (fun x => x.1.2)) E) as E1; vm_compute in E1; [|discriminate].
  injection E1 as <-.
  exists st'.
  exact (link_refines_shm_read 12 0 1 2 3 4 1 4 32 4 [] [] (fw0 one_frame) hdr12 r st'
    false false PIdle [] false [] [] E ltac:(lia)).
Defined.
Lemma shm_init_probe_witness :
  (esp_shm_probe true false (fw_shm (shm_init (fw0 zero_mem) true true true
     (fun m => shm_flash_init m (Some (0x200000, 0x100000)) (Some (0x300000, 0x80000))
        (Some 0x42000000) true true)).2) 5 0).1 = 0.
Proof.
  pose proof (shm_init_probe (fw0 zero_mem) true true true (Some (0x200000, 0x100000))
    (Some (0x300000, 0x80000)) (Some 0x42000000) true true 5 zero_mem_ok ltac:(lia) eq_refl eq_refl) as H.
  destruct (shm_init _ _ _ _ _) as [ok st']. destruct H as (_ & H & _). exact H.
Defined.
