(* ===== verification/RxLink.v ===== *)
(** The frames from the firmware to Linux with both harts running: every access
    to the shared block, to a doorbell and to a semaphore is a step, and the
    steps of shm_write() with the doorbell interrupt (hart 0) and of
    esp_shm_read() with its interrupt and work item (hart 1) interleave in any order.

    The steps are sequentially consistent, as in ShmLink.v.  One task of the
    firmware sends (send_task of esp_hosted).  The driver core of esp_hosted,
    which is not here, runs a work item for esp_process_new_packet_intr() that
    reads until there is no frame.  Both directions share the doorbells and the
    block: a spurious doorbell and a store elsewhere in the block can happen at any time
    ([env_step]), so what is proved here holds with ShmLink's direction at work. *)

From stdpp Require Import relations.
From S2P Require Import Prelude Mem Ring RingQueue RingSteps ShmHost Flash ShmFw.

(** A frame as shm_write() has it: header and payload. *)
Definition frame : Type := list Z * list Z.
Definition frame_bytes (f : frame) : list Z := fst f ++ snd f.
Definition frame_len (f : frame) : Z := u32 (zlen (fst f) + zlen (snd f)).

(** Where shm_write() is; [head] is the local variable of ring_push(). *)
Inductive wpc :=
| WIdle                              (** not running *)
| WTop (f : frame)                   (** before the first try *)
| WSetWait (f : frame)               (** the first try failed *)
| WTop2 (f : frame)                  (** before the second try *)
| WCopy (f : frame) (head : Z)       (** there is room *)
| WPub (f : frame) (head : Z)        (** the record is copied *)
| WKick (f : frame) (head : Z)       (** the head is stored *)
| WBell                              (** before the doorbell *)
| WLate (f : frame)                  (** before the look at the clock *)
| WSleep (f : frame).                (** in xSemaphoreTake(s_space_sem) *)

(** Where the work item is, which calls esp_shm_read() until it gives NULL. *)
Inductive rpc :=
| RIdle                              (** not running *)
| RTop                               (** before the load of head *)
| RRead (head : Z)                   (** [head] differs from the tail *)
| RStore (b : list Z) (ok : bool)    (** the frame is read; [ok]: there was an skb *)
| RWait                              (** before the load of the wait flag *)
| RClear                             (** before the store of the wait flag *)
| RBell                              (** before the doorbell *)
| RBad.                              (** a broken record *)

Record rxlink := RxLink {
  x_mem : mem;
  x_bell_fw : bool;                  (** CPU_INT_FROM_CPU_1 is set *)
  x_isr : bool;                      (** shm_doorbell_isr() cleared it and has to give the semaphore *)
  x_sem : bool;                      (** s_space_sem *)
  x_bell_host : bool;                (** CPU_INT_FROM_CPU_2 is set *)
  x_irq : bool;                      (** esp_shm_irq() cleared it and has to queue the work item *)
  x_work : bool;                     (** the work item is queued *)
  x_wpc : wpc;
  x_rpc : rpc;
  x_sent : list (list Z);            (** frames that are in the ring or were *)
  x_taken : list (list Z * bool) }.  (** frames taken off, and whether they got an skb *)

(** ring_push() up to its first return. *)
Definition rx_no_room (m : mem) (f : frame) : bool :=
  ESP_SHM_RECORD_LEN (frame_len f) >? u32 (r_size to_host - u32 (head_of m to_host - tail_of m to_host)).
(** The three copies of ring_push(). *)
Definition rx_put (m : mem) (f : frame) (head : Z) : mem :=
  let m := ring_copy_in m to_host (u32 (head + 4)) (fst f) in
  let m := ring_copy_in m to_host (u32 (u32 (head + 4) + zlen (fst f))) (snd f) in
  ring_copy_in m to_host head (le32 (frame_len f)).

Section RxLink.
Context (HDR : Z).

(** shm_write() checks the size. *)
Definition rx_frame_ok (f : frame) : Prop :=
  bytes (fst f) /\ bytes (snd f) /\ zlen (fst f) = HDR /\ 0 < zlen (snd f) /\ HDR + zlen (snd f) <= SHM_TO_HOST_FRAME_MAX.

(** A call of shm_write(). *)
Inductive call_write : rxlink -> rxlink -> Prop :=
| c_write m bf i sem bh q w r snt tkn f : rx_frame_ok f ->
    call_write (RxLink m bf i sem bh q w WIdle r snt tkn) (RxLink m bf i sem bh q w (WTop f) r snt tkn).

(** Hart 0: shm_write() and shm_doorbell_isr(). *)
Inductive write_step : rxlink -> rxlink -> Prop :=
| w_try m bf i sem bh q w r snt tkn f :
    write_step (RxLink m bf i sem bh q w (WTop f) r snt tkn)
      (RxLink m bf i sem bh q w (if rx_no_room m f then WSetWait f else WCopy f (head_of m to_host)) r snt tkn)
| w_setwait m bf i sem bh q w r snt tkn f :
    write_step (RxLink m bf i sem bh q w (WSetWait f) r snt tkn)
      (RxLink (store32 m (r_ctrl to_host + ESP_SHM_WAIT_OFF) 1) bf i sem bh q w (WTop2 f) r snt tkn)
| w_try2 m bf i sem bh q w r snt tkn f :
    write_step (RxLink m bf i sem bh q w (WTop2 f) r snt tkn)
      (RxLink m bf i sem bh q w (if rx_no_room m f then WLate f else WCopy f (head_of m to_host)) r snt tkn)
| w_copy m bf i sem bh q w r snt tkn f h :
    write_step (RxLink m bf i sem bh q w (WCopy f h) r snt tkn) (RxLink (rx_put m f h) bf i sem bh q w (WPub f h) r snt tkn)
| w_publish m bf i sem bh q w r snt tkn f h :
    write_step (RxLink m bf i sem bh q w (WPub f h) r snt tkn)
      (RxLink (store32 m (r_ctrl to_host + ESP_SHM_HEAD_OFF) (u32 (h + ESP_SHM_RECORD_LEN (frame_len f))))
         bf i sem bh q w (WKick f h) r (snt ++ [frame_bytes f]) tkn)
| w_kick m bf i sem bh q w r snt tkn f h :
    write_step (RxLink m bf i sem bh q w (WKick f h) r snt tkn)
      (RxLink m bf i sem bh q w (if tail_of m to_host =? h then WBell else WIdle) r snt tkn)
| w_bell m bf i sem bh q w r snt tkn :
    write_step (RxLink m bf i sem bh q w WBell r snt tkn) (RxLink m bf i sem true q w WIdle r snt tkn)
| w_not_late m bf i sem bh q w r snt tkn f :
    write_step (RxLink m bf i sem bh q w (WLate f) r snt tkn) (RxLink m bf i sem bh q w (WSleep f) r snt tkn)
| w_take m bf i bh q w r snt tkn f :
    write_step (RxLink m bf i true bh q w (WSleep f) r snt tkn) (RxLink m bf i false bh q w (WTop f) r snt tkn)
| w_isr m i sem bh q w p r snt tkn :
    write_step (RxLink m true i sem bh q w p r snt tkn) (RxLink m false true sem bh q w p r snt tkn)
| w_give m bf sem bh q w p r snt tkn :
    write_step (RxLink m bf true sem bh q w p r snt tkn) (RxLink m bf false true bh q w p r snt tkn).

(** The two ends of a wait by the clock. *)
Inductive timeout_step : rxlink -> rxlink -> Prop :=
| t_late m bf i sem bh q w r snt tkn f :
    timeout_step (RxLink m bf i sem bh q w (WLate f) r snt tkn) (RxLink m bf i sem bh q w WIdle r snt tkn)
| t_sleep m bf i sem bh q w r snt tkn f :
    timeout_step (RxLink m bf i sem bh q w (WSleep f) r snt tkn) (RxLink m bf i sem bh q w (WTop f) r snt tkn).

(** Hart 1: the interrupt, and the work item with esp_shm_read(). *)
Inductive read_step : rxlink -> rxlink -> Prop :=
| r_irq m bf i sem q w p r snt tkn :
    read_step (RxLink m bf i sem true q w p r snt tkn) (RxLink m bf i sem false true w p r snt tkn)
| r_queue m bf i sem bh w p r snt tkn :
    read_step (RxLink m bf i sem bh true w p r snt tkn) (RxLink m bf i sem bh false true p r snt tkn)
| r_work m bf i sem bh q p snt tkn :
    read_step (RxLink m bf i sem bh q true p RIdle snt tkn) (RxLink m bf i sem bh q false p RTop snt tkn)
| r_load m bf i sem bh q w p snt tkn :
    read_step (RxLink m bf i sem bh q w p RTop snt tkn)
      (RxLink m bf i sem bh q w p (if head_of m to_host =? tail_of m to_host then RIdle else RRead (head_of m to_host)) snt tkn)
| r_read m bf i sem bh q w p snt tkn head ok :
    read_step (RxLink m bf i sem bh q w p (RRead head) snt tkn)
      (let tail := tail_of m to_host in
       let len := of_le (host_copy_out m to_host tail 4) in
       if (len <? HDR) || (len >? r_size to_host) || (ESP_SHM_RECORD_LEN len >? u32 (head - tail))
       then RxLink (store32 m (r_ctrl to_host + ESP_SHM_TAIL_OFF) head) bf i sem bh q w p RBad snt tkn
       else RxLink m bf i sem bh q w p (RStore (host_copy_out m to_host (u32 (tail + 4)) len) ok) snt tkn)
| r_store m bf i sem bh q w p snt tkn b ok :
    read_step (RxLink m bf i sem bh q w p (RStore b ok) snt tkn)
      (RxLink (store32 m (r_ctrl to_host + ESP_SHM_TAIL_OFF) (u32 (tail_of m to_host + ESP_SHM_RECORD_LEN (zlen b))))
         bf i sem bh q w p RWait snt (tkn ++ [(b, ok)]))
| r_wait m bf i sem bh q w p snt tkn :
    read_step (RxLink m bf i sem bh q w p RWait snt tkn)
      (RxLink m bf i sem bh q w p (if nz (wait_of m to_host) then RClear else RTop) snt tkn)
| r_clear m bf i sem bh q w p snt tkn :
    read_step (RxLink m bf i sem bh q w p RClear snt tkn)
      (RxLink (store32 m (r_ctrl to_host + ESP_SHM_WAIT_OFF) 0) bf i sem bh q w p RBell snt tkn)
| r_bell m bf i sem bh q w p snt tkn :
    read_step (RxLink m bf i sem bh q w p RBell snt tkn) (RxLink m true i sem bh q w p RTop snt tkn).

(** The other direction, the flash and the host requests. *)
Inductive env_step : rxlink -> rxlink -> Prop :=
| e_bell_fw m bf i sem bh q w p r snt tkn :
    env_step (RxLink m bf i sem bh q w p r snt tkn) (RxLink m true i sem bh q w p r snt tkn)
| e_bell_host m bf i sem bh q w p r snt tkn :
    env_step (RxLink m bf i sem bh q w p r snt tkn) (RxLink m bf i sem true q w p r snt tkn)
| e_mem m m' bf i sem bh q w p r snt tkn : ring_keeps to_host m m' -> wait_of m' to_host = wait_of m to_host ->
    env_step (RxLink m bf i sem bh q w p r snt tkn) (RxLink m' bf i sem bh q w p r snt tkn).

Definition rx_internal (s s' : rxlink) : Prop := write_step s s' \/ read_step s s'.
Definition rx_step (s s' : rxlink) : Prop := rx_internal s s' \/ timeout_step s s' \/ call_write s s' \/ env_step s s'.
(** An empty ring; the probe queues the work item. *)
Definition rx_init (m : mem) : rxlink := RxLink m false false false false false true WIdle RIdle [] [].
Inductive rx_reachable (m : mem) : rxlink -> Prop :=
| rx_reach_init : rx_reachable m (rx_init m)
| rx_reach_step s s' : rx_reachable m s -> rx_step s s' -> rx_reachable m s'.
End RxLink.

(** * The invariant *)

Section Invariant.
Context (HDR : Z) (HDR_pos : 0 <= HDR).

Definition host_frame_ok (b : list Z) : Prop := HDR <= zlen b <= SHM_TO_HOST_FRAME_MAX.

Definition write_inv (m : mem) (q : list (list Z)) (p : wpc) : Prop :=
  match p with
  | WTop f | WSetWait f | WTop2 f | WLate f | WSleep f => rx_frame_ok HDR f
  | WCopy f h => rx_frame_ok HDR f /\ h = head_of m to_host /\ ring_fits to_host (frame_bytes f) q = true
  | WPub f h => rx_frame_ok HDR f /\ h = head_of m to_host /\ ring_fits to_host (frame_bytes f) q = true /\
      ring_holds m to_host h [frame_bytes f]
  | _ => True
  end.
Definition read_inv (m : mem) (q : list (list Z)) (r : rpc) : Prop :=
  match r with
  | RRead head => exists f q1 q2, q = (f :: q1) ++ q2 /\ head = u32 (tail_of m to_host + frames_len (f :: q1))
  | RStore b _ => exists q', q = b :: q'
  | RBad => False
  | _ => True
  end.
(** The work item that does not run and is not on its way has nothing to read,
    or is going to be rung. *)
Definition rx_wake (m : mem) (q : list (list Z)) (queued : bool) (p : wpc) (r : rpc) : Prop :=
  r = RIdle -> queued = false -> q = [] \/ p = WBell \/ exists f h, p = WKick f h /\ tail_of m to_host = h.
(** The reader is going to ring the firmware. *)
Definition rx_due (r : rpc) : Prop := r = RClear \/ r = RBell.
(** A writer that waits with no wakeup on its way has its flag seen after the next read. *)
Definition rx_stuck (m : mem) (q : list (list Z)) (rung : bool) (p : wpc) (r : rpc) : Prop :=
  rung = false ->
  match p with
  | WTop2 _ => wait_of m to_host <> 0 \/ rx_due r
  | WLate f | WSleep f => wait_of m to_host <> 0 /\ (ring_fits to_host (frame_bytes f) q = false \/ r = RWait) \/ rx_due r
  | _ => True
  end.

Record rx_inv (s : rxlink) (q : list (list Z)) : Prop := {
  x_wf : ring_wf (x_mem s) to_host q;
  x_ring : Forall host_frame_ok q;
  x_fifo : x_sent s = map fst (x_taken s) ++ q;
  x_write : write_inv (x_mem s) q (x_wpc s);
  x_read : read_inv (x_mem s) q (x_rpc s);
  x_wake : rx_wake (x_mem s) q (x_bell_host s || x_irq s || x_work s) (x_wpc s) (x_rpc s);
  x_stuck : rx_stuck (x_mem s) q (x_bell_fw s || x_isr s || x_sem s) (x_wpc s) (x_rpc s);
}.

Lemma zlen_frame f : zlen (frame_bytes f) = zlen (fst f) + zlen (snd f).
Proof. apply zlen_app. Qed.
Lemma frame_fits32 f : rx_frame_ok HDR f -> zlen (frame_bytes f) < 4294967288 /\ frame_len f = zlen (frame_bytes f) /\
  bytes (frame_bytes f) /\ host_frame_ok (frame_bytes f).
Proof using HDR_pos.
  intros (B1 & B2 & E & P & L). unfold frame_len, frame_bytes, host_frame_ok, SHM_TO_HOST_FRAME_MAX in *. rewrite zlen_app.
  pose proof (zlen_nonneg (fst f)). split_and!; [lia|apply u32_small; lia|by apply bytes_app|lia..].
Qed.
Lemma rx_room m f q : ring_wf m to_host q -> rx_frame_ok HDR f -> rx_no_room m f = negb (ring_fits to_host (frame_bytes f) q).
Proof using HDR_pos.
  intros W O. destruct (frame_fits32 f O) as (L & E & _). unfold rx_no_room. rewrite E. by apply (room_fits to_host to_host_ok).
Qed.
Lemma rx_put_data m f q : ring_wf m to_host q -> rx_frame_ok HDR f -> ring_fits to_host (frame_bytes f) q = true ->
  mem_eq (rx_put m f (head_of m to_host)) (push_data to_host m (frame_bytes f)).
Proof using HDR_pos.
  intros W O F. destruct (frame_fits32 f O) as (L & E & _). unfold ring_fits in F. bool_prop. pose proof (frames_len_nonneg q).
  pose proof (rlen_bounds (zlen (frame_bytes f)) (zlen_nonneg _)). unfold rx_put, push_data. rewrite E.
  apply ring_copy_in_proper; [|done..]. rewrite zlen_frame in *.
  pose proof (zlen_nonneg (fst f)). pose proof (zlen_nonneg (snd f)). assert (zlen (fst f) + zlen (snd f) <= r_size to_host) by lia.
  intros x. unfold frame_bytes. rewrite <- ring_copy_in_app by (apply to_host_ok || done). rewrite u32_add_l, ring_copy_in_u32 by (apply to_host_ok || lia).
  apply ring_copy_in_proper; try done. intros y. apply ring_copy_in_u32; apply to_host_ok || lia.
Qed.

(** The invariant from its parts, when memory and queue stay. *)
Lemma rx_inv_same m bf i sem bh qd w p r bf' i' sem' bh' qd' w' p' r' snt tkn q :
  rx_inv (RxLink m bf i sem bh qd w p r snt tkn) q ->
  write_inv m q p' -> read_inv m q r' ->
  rx_wake m q (bh' || qd' || w') p' r' -> rx_stuck m q (bf' || i' || sem') p' r' ->
  rx_inv (RxLink m bf' i' sem' bh' qd' w' p' r' snt tkn) q.
Proof using Type. intros [W R F P C G K]. by split. Qed.

(** What the environment may do. *)
Lemma write_inv_keeps m m' q p : ring_keeps to_host m m' -> write_inv m q p -> write_inv m' q p.
Proof using HDR_pos.
  intros KM. destruct p; try done; cbn [write_inv]; rewrite (keeps_ring_head to_host _ _ KM); [done|].
  intros (O & -> & F & H). split_and!; [done|done|done|]. pose proof F as F'. unfold ring_fits in F'. bool_prop. pose proof (frames_len_nonneg q).
  apply (keeps_ring_holds to_host to_host_ok m); [done|lia|done].
Qed.
Lemma read_inv_tail m m' q r : tail_of m' to_host = tail_of m to_host -> read_inv m q r -> read_inv m' q r.
Proof using Type. intros E. unfold read_inv. by rewrite E. Qed.
Lemma read_inv_app m q q' r : read_inv m q r -> read_inv m (q ++ q') r.
Proof using Type.
  destruct r; try done.
  - intros (f & q1 & q2 & -> & ?). exists f, q1, (q2 ++ q'). by rewrite <- app_assoc.
  - intros (q2 & ->). by exists (q2 ++ q').
Qed.
Lemma rx_inv_keeps m m' bf i sem bh qd w p p' r r' snt tkn q :
  rx_inv (RxLink m bf i sem bh qd w p r snt tkn) q -> ring_keeps to_host m m' ->
  write_inv m q p' -> read_inv m q r' -> (r' = RIdle -> r = RIdle) -> (rx_wake m q (bh || qd || w) p r -> rx_wake m q (bh || qd || w) p' r') ->
  rx_stuck m' q (bf || i || sem) p' r' ->
  rx_inv (RxLink m' bf i sem bh qd w p' r' snt tkn) q.
Proof using HDR_pos.
  intros [W R F P C G K] KM P' C' N G' K'. cbn in *. split; cbn; try done.
  - by apply (keeps_ring_wf to_host to_host_ok m).
  - by apply (write_inv_keeps m).
  - by apply (read_inv_tail m); [apply keeps_ring_tail|].
  - unfold rx_wake in *. rewrite (keeps_ring_tail to_host _ _ KM). intros E1 E2. by apply G'.
Qed.

Lemma rx_wake_mono m q b b' p r : (b' = false -> b = false) -> rx_wake m q b p r -> rx_wake m q b' p r.
Proof using Type. unfold rx_wake. auto. Qed.
Lemma rx_stuck_mono m q b b' p r : (b' = false -> b = false) -> rx_stuck m q b p r -> rx_stuck m q b' p r.
Proof using Type. intros M S E. exact (S (M E)). Qed.
(** A doorbell on its way to the one it wakes. *)
Lemma rx_inv_bells m bf i sem bh qd w bf' i' sem' bh' qd' w' p r snt tkn q :
  rx_inv (RxLink m bf i sem bh qd w p r snt tkn) q ->
  (bf' || i' || sem' = false -> bf || i || sem = false) -> (bh' || qd' || w' = false -> bh || qd || w = false) ->
  rx_inv (RxLink m bf' i' sem' bh' qd' w' p r snt tkn) q.
Proof using Type.
  intros I E1 E2. apply (rx_inv_same _ _ _ _ _ _ _ _ _ _ _ _ _ _ _ _ _ _ _ _ I); try apply I.
  - by apply (rx_wake_mono _ _ _ _ _ _ E2), I.
  - by apply (rx_stuck_mono _ _ _ _ _ _ E1), I.
Qed.

Lemma inv_env s s' q : rx_inv s q -> env_step s s' -> rx_inv s' q.
Proof using HDR_pos.
  intros I H. destruct H as [| |m m' bf i sem bh qd w p r snt tkn KM Ew]; [by apply (rx_inv_bells _ _ _ _ _ _ _ _ _ _ _ _ _ _ _ _ _ _ I)..|].
  destruct I as [W R F P C G K]. cbn in *. apply (rx_inv_keeps m m' bf i sem bh qd w p p r r); try done.
  unfold rx_stuck in *. by rewrite Ew.
Qed.
Lemma inv_call s s' q : rx_inv s q -> call_write HDR s s' -> rx_inv s' q.
Proof using Type.
  intros I H. destruct H. apply (rx_inv_same _ _ _ _ _ _ _ _ _ _ _ _ _ _ _ _ _ _ _ _ I); try done; try apply I.
  intros E1 E2. destruct (x_wake _ _ I E1 E2) as [?|[?|(?&?&?&?)]]; [by left|done..].
Qed.
Lemma inv_timeout s s' q : rx_inv s q -> timeout_step s s' -> rx_inv s' q.
Proof using Type.
  intros I H. destruct H; apply (rx_inv_same _ _ _ _ _ _ _ _ _ _ _ _ _ _ _ _ _ _ _ _ I); try done; try apply I;
    intros E1 E2; destruct (x_wake _ _ I E1 E2) as [?|[?|(?&?&?&?)]]; try done; by left.
Qed.

Lemma inv_write s s' q : rx_inv s q -> write_step s s' -> exists q', rx_inv s' q'.
Proof using HDR_pos.
  intros I H. destruct H.
  - (* w_try *) exists q. pose proof (x_write _ _ I) as O. cbn in O. rewrite (rx_room m f q (x_wf _ _ I) O).
    apply (rx_inv_same _ _ _ _ _ _ _ _ _ _ _ _ _ _ _ _ _ _ _ _ I); try apply I.
    + by destruct (ring_fits _ _ _) eqn:E.
    + intros E1 E2. destruct (x_wake _ _ I E1 E2) as [?|[?|(?&?&?&?)]]; [by left|done..].
    + by destruct (ring_fits _ _ _).
  - (* w_setwait *) exists q. pose proof (keeps_store_wait to_host to_host_ok m 1 (wf_mem _ _ _ (x_wf _ _ I))) as KM.
    apply (rx_inv_keeps _ _ _ _ _ _ _ _ _ _ _ _ _ _ _ I KM); try apply I; [done| |].
    + intros G E1 E2. destruct (G E1 E2) as [?|[?|(?&?&?&?)]]; [by left|done..].
    + intros _. left. unfold wait_of. by rewrite load32_store32.
  - (* w_try2 *) exists q. pose proof (x_write _ _ I) as O. cbn in O. rewrite (rx_room m f q (x_wf _ _ I) O).
    apply (rx_inv_same _ _ _ _ _ _ _ _ _ _ _ _ _ _ _ _ _ _ _ _ I); try apply I.
    + by destruct (ring_fits _ _ _) eqn:E.
    + intros E1 E2. destruct (x_wake _ _ I E1 E2) as [?|[?|(?&?&?&?)]]; [by left|done..].
    + destruct (ring_fits _ _ _) eqn:E; [done|]. intros E1. destruct (x_stuck _ _ I E1); [left; by split; [|left]|by right].
  - (* w_copy *) exists q. destruct I as [W R F (O & -> & E) C G K]. cbn in W, R, F, C, G, K.
    destruct (frame_fits32 f O) as (_ & _ & B & _).
    destruct (put_ring_spec to_host to_host_ok m _ _ q W B E (rx_put_data m f q W O E)) as (W' & R' & H1 & H2 & H3).
    split; cbn [x_mem x_sent x_taken x_wpc x_rpc x_bell_host x_irq x_work x_bell_fw x_isr x_sem]; try done.
    + by apply (read_inv_tail m).
    + intros E1 E2. destruct (G E1 E2) as [?|[?|(?&?&?&?)]]; [by left|done..].
  - (* w_publish *) destruct I as [W R F (O & E & Ef & Hr) C G K]. cbn in W, R, F, C, G, K, E, Hr.
    destruct (frame_fits32 f O) as (L & EL & _ & OK). rewrite EL.
    destruct (publish_ring_spec to_host to_host_ok m _ q h W L Ef E Hr) as (W' & T' & V').
    exists (q ++ [frame_bytes f]). split; cbn [x_mem x_sent x_taken x_wpc x_rpc x_bell_host x_irq x_work x_bell_fw x_isr x_sem]; try done.
    + apply Forall_app. split; [done|]. by constructor.
    + by rewrite F, app_assoc.
    + by apply (read_inv_tail m), read_inv_app.
    + intros E1 E2. right. destruct (G E1 E2) as [->|[?|(?&?&?&?)]]; [|done..]. right. exists f, h. split; [done|].
      rewrite T', E. pose proof (wf_empty_iff to_host to_host_ok m [] W) as X. rewrite bool_decide_true in X by done. by apply Z.eqb_eq in X.
  - (* w_kick *) exists q. apply (rx_inv_same _ _ _ _ _ _ _ _ _ _ _ _ _ _ _ _ _ _ _ _ I); try apply I.
    + by destruct (tail_of m to_host =? h).
    + intros E1 E2. destruct (x_wake _ _ I E1 E2) as [?|[?|(f'&h'&[= <- <-]&E)]]; [by left|done|].
      right; left. cbn in E. by rewrite (proj2 (Z.eqb_eq _ _) E).
    + by destruct (tail_of m to_host =? h).
  - (* w_bell *) exists q. apply (rx_inv_same _ _ _ _ _ _ _ _ _ _ _ _ _ _ _ _ _ _ _ _ I); try apply I; done.
  - (* w_not_late *) exists q. apply (rx_inv_same _ _ _ _ _ _ _ _ _ _ _ _ _ _ _ _ _ _ _ _ I); try apply I.
    intros E1 E2. destruct (x_wake _ _ I E1 E2) as [?|[?|(?&?&?&?)]]; [by left|done..].
  - (* w_take *) exists q. apply (rx_inv_same _ _ _ _ _ _ _ _ _ _ _ _ _ _ _ _ _ _ _ _ I); try apply I; [|done].
    intros E1 E2. destruct (x_wake _ _ I E1 E2) as [?|[?|(?&?&?&?)]]; [by left|done..].
  - (* w_isr *) exists q. apply (rx_inv_bells _ _ _ _ _ _ _ _ _ _ _ _ _ _ _ _ _ _ I); done.
  - (* w_give *) exists q. apply (rx_inv_bells _ _ _ _ _ _ _ _ _ _ _ _ _ _ _ _ _ _ I); [|done]. by rewrite !orb_true_r.
Qed.

(** A step of the reader that changes neither memory nor bells. *)
Lemma rx_inv_local m bf i sem bh qd w p r r' snt tkn q :
  rx_inv (RxLink m bf i sem bh qd w p r snt tkn) q ->
  read_inv m q r' -> (r' = RIdle -> q = []) ->
  (r = RWait -> wait_of m to_host <> 0 -> rx_due r') -> (rx_due r -> rx_due r') ->
  rx_inv (RxLink m bf i sem bh qd w p r' snt tkn) q.
Proof using Type.
  intros I Hc Hi Hw Hb. apply (rx_inv_same _ _ _ _ _ _ _ _ _ _ _ _ _ _ _ _ _ _ _ _ I); [apply I|done| |].
  - intros E _. left. by apply Hi.
  - intros E. pose proof (x_stuck _ _ I E) as K. cbn in K. destruct p; try done.
    + destruct K; [by left|right; auto].
    + destruct K as [[V [Z|Z]]|D]; [left; by split; [|left]|right; auto|right; auto].
    + destruct K as [[V [Z|Z]]|D]; [left; by split; [|left]|right; auto|right; auto].
Qed.
Lemma inv_read s s' q : rx_inv s q -> read_step HDR s s' -> exists q', rx_inv s' q'.
Proof using HDR_pos.
  intros I H. destruct H.
  - (* r_irq *) exists q. apply (rx_inv_bells _ _ _ _ _ _ _ _ _ _ _ _ _ _ _ _ _ _ I); [done|]. done.
  - (* r_queue *) exists q. apply (rx_inv_bells _ _ _ _ _ _ _ _ _ _ _ _ _ _ _ _ _ _ I); [done|]. by rewrite !orb_true_r.
  - (* r_work *) exists q. apply (rx_inv_same _ _ _ _ _ _ _ _ _ _ _ _ _ _ _ _ _ _ _ _ I); try apply I; [done|].
    intros E. pose proof (x_stuck _ _ I E) as K. cbn in K. unfold rx_due in *. destruct p; try done; [destruct K as [?|[?|?]]; [by left|done..]|..];
      destruct K as [[? [?|?]]|[?|?]]; try done; left; auto.
  - (* r_load *) exists q. pose proof (wf_empty_iff to_host to_host_ok m q (x_wf _ _ I)) as E. rewrite Z.eqb_sym in E. rewrite E.
    apply rx_inv_local with RTop; try done.
    + destruct q as [|f q1]; [by rewrite bool_decide_true|]. rewrite bool_decide_false by done. exists f, q1, []. rewrite app_nil_r.
      split; [done|]. by destruct (wf_head to_host to_host_ok m _ (x_wf _ _ I)).
    + case_bool_decide; done.
    + by intros [?|?].
  - (* r_read *) exists q. destruct (x_read _ _ I) as (f & q1 & q2 & Eq & Eh). cbn in Eq, Eh. subst q.
    pose proof (x_ring _ _ I) as R. destruct (Forall_cons_1 _ _ _ R) as [[Hf1 Hf2] _]. unfold SHM_TO_HOST_FRAME_MAX in Hf2. pose proof (zlen_nonneg f).
    destruct (first_len to_host to_host_ok m f q1 q2 head (x_wf _ _ I) ltac:(lia) ltac:(done) Eh) as (E1 & E2 & E3).
    cbn zeta. pose proof (wf_mem _ _ _ (x_wf _ _ I)) as M. cbn in M. rewrite (host_copy_out_spec to_host to_host_ok m (tail_of m to_host) 4) by (done || lia).
    rewrite E1, E3. rewrite (host_copy_out_spec to_host to_host_ok) by (done || lia). rewrite E2.
    rewrite Z.gtb_ltb, !(proj2 (Z.ltb_ge _ _)) by (cbn; unfold ESP_SHM_TO_HOST_SIZE; lia). cbn [orb].
    apply rx_inv_local with (RRead head); try done; [by exists (q1 ++ q2)|by intros [?|?]].
  - (* r_store *) destruct I as [W R F P C G K]. cbn in W, R, F, C, G, K. destruct C as (q' & ->). destruct (Forall_cons_1 _ _ _ R) as [[Hf1 Hf2] R'].
    unfold SHM_TO_HOST_FRAME_MAX in Hf2.
    destruct (take_ring_spec to_host to_host_ok m b q' W ltac:(lia)) as (W' & H1 & H2 & H3). exists q'. split;
      cbn [x_mem x_sent x_taken x_wpc x_rpc x_bell_host x_irq x_work x_bell_fw x_isr x_sem]; try done.
    + by rewrite F, map_app, <- app_assoc.
    + destruct p; cbn [write_inv x_wpc x_mem] in *; try exact P; rewrite H1.
      * destruct P as (O & E1 & E2). split_and!; [done|done|by apply ring_fits_take in E2].
      * destruct P as (O & E1 & E2 & E3). apply ring_fits_take in E2. split_and!; [done|done|done|].
        pose proof E2 as L. unfold ring_fits in L. bool_prop. pose proof (frames_len_nonneg q'). apply H3; [lia|done].
    + unfold rx_stuck in *. intros E. specialize (K E). rewrite H2. unfold rx_due in *. destruct p; try done; [destruct K as [?|[?|?]]; [by left|done..]|..];
        destruct K as [[? _]|[?|?]]; try done; left; auto.
  - (* r_wait *) exists q. apply rx_inv_local with RWait; try done.
    + by destruct (nz (wait_of m to_host)).
    + by destruct (nz (wait_of m to_host)).
    + intros _ V. apply nz_true in V. rewrite V. by left.
    + by intros [?|?].
  - (* r_clear *) exists q. pose proof (keeps_store_wait to_host to_host_ok m 0 (wf_mem _ _ _ (x_wf _ _ I))) as KM.
    apply (rx_inv_keeps _ _ _ _ _ _ _ _ _ _ _ _ _ _ _ I KM); try apply I; try done.
    intros E. destruct p; try done; right; by right.
  - (* r_bell *) exists q. apply (rx_inv_same _ _ _ _ _ _ _ _ _ _ _ _ _ _ _ _ _ _ _ _ I); try apply I; done.
Qed.
Lemma rx_inv_init m : ring_wf m to_host [] -> rx_inv (rx_init m) [].
Proof using Type. intros W. split; cbn; try done. Qed.
Lemma rx_inv_reachable m s : ring_wf m to_host [] -> rx_reachable HDR m s -> exists q, rx_inv s q.
Proof using HDR_pos.
  intros W H. induction H as [|s s' H [q I] Hs]; [exists []; by apply rx_inv_init|].
  destruct Hs as [[Hs|Hs]|[Hs|[Hs|Hs]]].
  - by apply (inv_write s s' q).
  - by apply (inv_read s s' q).
  - exists q. by apply (inv_timeout s).
  - exists q. by apply (inv_call s).
  - exists q. by apply (inv_env s).
Qed.

(** A state with no step of the two harts other than the end of a wait by the clock. *)
Lemma rx_no_step_shape s q : rx_inv s q -> (forall s', ~ rx_internal HDR s s') ->
  x_rpc s = RIdle /\ x_bell_host s || x_irq s || x_work s = false /\
  (x_wpc s = WIdle \/ exists f, x_wpc s = WSleep f /\ x_bell_fw s || x_isr s || x_sem s = false).
Proof using Type.
  intros I N. pose proof (x_read _ _ I) as C. destruct s as [m bf i sem bh qd w p r snt tkn]. cbn in *.
  assert (bh = false) as -> by (destruct bh; [|done]; exfalso; eapply N; right; constructor).
  assert (qd = false) as -> by (destruct qd; [|done]; exfalso; eapply N; right; constructor).
  assert (r = RIdle) as ->.
  { destruct r; try done; exfalso; eapply N; right; first [apply (r_read HDR _ _ _ _ _ _ _ _ _ _ _ true)|by constructor]. }
  assert (w = false) as -> by (destruct w; [|done]; exfalso; eapply N; right; constructor).
  assert (bf = false) as -> by (destruct bf; [|done]; exfalso; eapply N; left; constructor).
  assert (i = false) as -> by (destruct i; [|done]; exfalso; eapply N; left; constructor).
  split_and!; [done|done|]. destruct p; try (exfalso; eapply N; left; by constructor); [by left|].
  right. exists f. split; [done|]. destruct sem; [exfalso; eapply N; left; apply w_take|done].
Qed.
Lemma frame_alone f : rx_frame_ok HDR f -> ring_fits to_host (frame_bytes f) [] = true.
Proof using HDR_pos.
  intros O. destruct (frame_fits32 f O) as (_ & _ & _ & _ & L). unfold ring_fits, SHM_TO_HOST_FRAME_MAX in *. apply Z.leb_le. cbn.
  pose proof (rlen_bounds (zlen (frame_bytes f)) (zlen_nonneg _)). unfold ESP_SHM_TO_HOST_SIZE. lia.
Qed.
End Invariant.

(** * The steps of one hart alone are the functions of the code *)

Definition rx_of (c : ctx) (i sem qd w : bool) (p : wpc) (r : rpc) (snt : list (list Z)) (tkn : list (list Z * bool)) : rxlink :=
  RxLink (shm c) (nz (bell_to_fw c)) i sem (nz (bell_to_host c)) qd w p r snt tkn.

Lemma rx_done_steps HDR c i sem qd w p snt tkn b ok :
  rtc (read_step HDR) (rx_of c i sem qd w p (RStore b ok) snt tkn)
    (rx_of (esp_shm_rx_done c (u32 (tail_of (shm c) to_host + ESP_SHM_RECORD_LEN (zlen b)))) i sem qd w p RTop snt (tkn ++ [(b, ok)])).
Proof.
  eapply rtc_l; [apply r_store|]. eapply rtc_l; [apply r_wait|]. unfold esp_shm_rx_done. cbn [shm set_shm].
  destruct (nz (wait_of (store32 _ _ _) to_host)).
  - eapply rtc_l; [apply r_clear|]. eapply rtc_l; [apply r_bell|]. apply rtc_refl.
  - apply rtc_refl.
Qed.
Lemma rx_done_ok c tail : mem_ok (shm c) -> mem_ok (shm (esp_shm_rx_done c tail)) /\ tail_of (shm (esp_shm_rx_done c tail)) to_host = u32 tail.
Proof.
  intros M. unfold esp_shm_rx_done. cbn [shm set_shm]. destruct (nz _); cbn [shm set_shm esp_shm_ring_firmware set_bell_to_fw].
  - split; [by do 2 apply mem_ok_store32|]. unfold tail_of. rewrite load32_store32_ne by (left; done). apply load32_store32.
  - split; [by apply mem_ok_store32|]. apply load32_store32.
Qed.
(** Frames without memory are taken off and dropped; then there is a frame or none. *)
Lemma rx_loop_steps HDR i sem qd w p snt allocs : 0 <= HDR -> forall c tkn, mem_ok (shm c) ->
  let '(skb, c') := rx_loop HDR c (tail_of (shm c) to_host) allocs in
  exists r' dropped, rtc (read_step HDR) (rx_of c i sem qd w p RTop snt tkn)
      (rx_of c' i sem qd w p r' snt (tkn ++ map (fun b => (b, false)) dropped ++ match skb with Some f => [(f, true)] | None => [] end)) /\
    match skb with Some _ => r' = RTop | None => r' = RIdle \/ r' = RBad end.
Proof.
  intros H0. induction allocs as [|ok allocs IH]; intros c tkn M; cbn [rx_loop].
  all: pose proof (r_load HDR (shm c) (nz (bell_to_fw c)) i sem (nz (bell_to_host c)) qd w p snt tkn) as S1.
  all: destruct (head_of (shm c) to_host =? tail_of (shm c) to_host);
    [exists RIdle, []; cbn [map]; rewrite ?app_nil_r; split; [by apply rtc_once|by left]|].
  all: pose proof (fun ok => r_read HDR (shm c) (nz (bell_to_fw c)) i sem (nz (bell_to_host c)) qd w p snt tkn (head_of (shm c) to_host) ok) as S2; cbn zeta in S2.
  all: set (len := of_le (host_copy_out (shm c) to_host (tail_of (shm c) to_host) 4)) in *.
  all: destruct ((len <? HDR) || (len >? r_size to_host) || (ESP_SHM_RECORD_LEN len >? u32 (head_of (shm c) to_host - tail_of (shm c) to_host))) eqn:B;
    [exists RBad, []; cbn [map]; rewrite ?app_nil_r; split; [eapply rtc_l; [exact S1|]; apply rtc_once, (S2 true)|by right]|].
  all: repeat (apply orb_false_elim in B as [B ?]); bool_prop.
  all: destruct (host_copy_out_bytes (shm c) to_host (u32 (tail_of (shm c) to_host + 4)) len to_host_ok M ltac:(lia)) as [_ Z].
  all: pose proof (fun ok => rx_done_steps HDR c i sem qd w p snt tkn (host_copy_out (shm c) to_host (u32 (tail_of (shm c) to_host + 4)) len) ok) as S3; rewrite Z in S3.
  - exists RTop, []. split; [|done]. cbn [map app]. eapply rtc_l; [exact S1|]. eapply rtc_l; [apply (S2 true)|]. apply S3.
  - destruct ok.
    + exists RTop, []. split; [|done]. cbn [map app]. eapply rtc_l; [exact S1|]. eapply rtc_l; [apply (S2 true)|]. apply S3.
    + destruct (rx_done_ok c (u32 (tail_of (shm c) to_host + ESP_SHM_RECORD_LEN len)) M) as [M' T]. rewrite u32_idem in T.
      specialize (IH _ (tkn ++ [(host_copy_out (shm c) to_host (u32 (tail_of (shm c) to_host + 4)) len, false)]) M'). rewrite T in IH.
      destruct (rx_loop HDR _ _ allocs) as [skb c']. destruct IH as (r' & dropped & S & E).
      exists r', (host_copy_out (shm c) to_host (u32 (tail_of (shm c) to_host + 4)) len :: dropped). split; [|done]. cbn [map app]. rewrite <- app_assoc in S. cbn [app] in S.
      eapply rtc_l; [exact S1|]. eapply rtc_l; [apply (S2 false)|]. etransitivity; [apply S3|exact S].
Qed.

Definition rx_of_fw (st : fw) (bf i sem qd w : bool) (p : wpc) (r : rpc) (snt : list (list Z)) (tkn : list (list Z * bool)) : rxlink :=
  RxLink (fw_shm st) bf i sem (nz (reg_to_host st)) qd w p r snt tkn.
Lemma ring_push_steps m f kick :
  ring_push m to_host (fst f) (snd f) kick =
    if rx_no_room m f then (false, m, kick)
    else
      let m' := store32 (rx_put m f (head_of m to_host)) (r_ctrl to_host + ESP_SHM_HEAD_OFF) (u32 (head_of m to_host + ESP_SHM_RECORD_LEN (frame_len f))) in
      (true, m', tail_of m' to_host =? head_of m to_host).
Proof. reflexivity. Qed.
(** ** A call of shm_write() with its waits *)

(** The steps of hart 0, with the two ends of a wait by the clock. *)
Definition hart0_step (s s' : rxlink) : Prop := write_step s s' \/ timeout_step s s'.
(** What can happen while shm_write() sleeps: steps of hart 1, of the environment and of the
    doorbell interrupt of hart 0. *)
Definition meanwhile (HDR : Z) : rxlink -> rxlink -> Prop := rtc (fun s s' => rx_step HDR s s' /\ x_wpc s' = x_wpc s).
(** From the top of the loop to the semaphore, and from there to the top: taken, or timed out. *)
Definition asleep (f : frame) (s : rxlink) : rxlink :=
  RxLink (store32 (x_mem s) (r_ctrl to_host + ESP_SHM_WAIT_OFF) 1) (x_bell_fw s) (x_isr s) (x_sem s) (x_bell_host s) (x_irq s)
    (x_work s) (WSleep f) (x_rpc s) (x_sent s) (x_taken s).
Definition awake (f : frame) (s : rxlink) : rxlink :=
  RxLink (x_mem s) (x_bell_fw s) (x_isr s) false (x_bell_host s) (x_irq s) (x_work s) (WTop f) (x_rpc s) (x_sent s) (x_taken s).
(** The end of the call: [m] is the memory, [kick] whether it rings the host, [ok] whether it sent the frame. *)
Definition returned (f : frame) (s : rxlink) (m : mem) (kick ok : bool) : rxlink :=
  RxLink m (x_bell_fw s) (x_isr s) (x_sem s) (kick || x_bell_host s) (x_irq s) (x_work s) WIdle (x_rpc s)
    (x_sent s ++ if ok then [frame_bytes f] else []) (x_taken s).
(** The world makes these waits, from the top of the loop in [s] to its top in [s']: in each one memory changes
    by [env], and steps that can happen meanwhile do that. *)
Inductive slept (HDR : Z) (f : frame) : rxlink -> list (mem -> mem) -> rxlink -> Prop :=
| slept_none s : slept HDR f s [] s
| slept_wait s s1 env envs s' : meanwhile HDR (asleep f s) s1 -> x_mem s1 = env (x_mem (asleep f s)) ->
    slept HDR f (awake f s1) envs s' -> slept HDR f s (env :: envs) s'.
(** A run of hart 0 with these waits in it: between them only its own steps. *)
Inductive runs (HDR : Z) (f : frame) : rxlink -> list (mem -> mem) -> rxlink -> Prop :=
| runs_end s s' : rtc hart0_step s s' -> runs HDR f s [] s'
| runs_wait s s0 s1 s2 env envs s' : rtc hart0_step s s0 -> x_wpc s0 = WSleep f -> meanwhile HDR s0 s1 -> x_mem s1 = env (x_mem s0) ->
    hart0_step s1 s2 -> x_wpc s2 = WTop f -> runs HDR f s2 envs s' -> runs HDR f s (env :: envs) s'.

Lemma meanwhile_pc HDR s s' : meanwhile HDR s s' -> x_wpc s' = x_wpc s.
Proof. intros H. induction H as [|? ? ? [_ E] _ IH]; [done|]. congruence. Qed.
Lemma awake_step f s : x_wpc s = WSleep f -> hart0_step s (awake f s).
Proof.
  destruct s as [m bf i sem bh qd w p r snt tkn]. cbn. intros ->. destruct sem; [left; apply w_take|right; apply t_sleep].
Qed.
Lemma rtc_hart0 s s' : rtc write_step s s' -> rtc hart0_step s s'.
Proof. apply rtc_subrel. intros ? ? ?. by left. Qed.
(** A try that finds room. *)
Lemma rx_push_steps m bf i sem bh qd w r snt tkn f p :
  write_step (RxLink m bf i sem bh qd w p r snt tkn) (RxLink m bf i sem bh qd w (WCopy f (head_of m to_host)) r snt tkn) ->
  let m' := store32 (rx_put m f (head_of m to_host)) (r_ctrl to_host + ESP_SHM_HEAD_OFF) (u32 (head_of m to_host + ESP_SHM_RECORD_LEN (frame_len f))) in
  rtc write_step (RxLink m bf i sem bh qd w p r snt tkn)
    (RxLink m' bf i sem ((tail_of m' to_host =? head_of m to_host) || bh) qd w WIdle r (snt ++ [frame_bytes f]) tkn).
Proof.
  intros S. cbn zeta. eapply rtc_l; [exact S|]. eapply rtc_l; [apply w_copy|]. eapply rtc_l; [apply w_publish|]. eapply rtc_l; [apply w_kick|].
  destruct (_ =? _); [eapply rtc_l; [apply w_bell|]|]; apply rtc_refl.
Qed.
(** The loop of shm_write(): [n] is the number of its waits. *)
Lemma write_loop_runs HDR TICKS f start waits : forall m k0 ok m' kick,
  shm_write_loop TICKS m (fst f) (snd f) start k0 waits = Some (ok, m', kick) ->
  exists n, (n <= length waits)%nat /\ Forall (fun w => u32 (fst w - start) <= TICKS) (take n waits) /\
    (ok = false -> exists now env, waits !! n = Some (now, env) /\ u32 (now - start) > TICKS) /\
    forall s s', x_mem s = m -> x_wpc s = WTop f -> slept HDR f s (map snd (take n waits)) s' ->
      runs HDR f s (map snd (take n waits)) (returned f s' m' (ok && kick) ok).
Proof.
  induction waits as [|[now env] waits IH]; intros m k0 ok m' kick; cbn [shm_write_loop]; rewrite ring_push_steps.
  all: pose proof (fun bf i sem bh qd w r snt tkn => w_try m bf i sem bh qd w r snt tkn f) as S1; destruct (rx_no_room m f);
    [|cbn zeta; intros [= <- <- <-]; exists 0%nat; split; [cbn; lia|]; split; [constructor|]; split; [done|];
      intros [] s' Em Ep Sl; cbn in Em, Ep; subst; inversion Sl; subst; apply runs_end, rtc_hart0; by apply rx_push_steps].
  all: set (m1 := store32 m _ 1); rewrite ring_push_steps;
    pose proof (fun bf i sem bh qd w r snt tkn => w_try2 m1 bf i sem bh qd w r snt tkn f) as S2; destruct (rx_no_room m1 f);
    [|cbn zeta; intros [= <- <- <-]; exists 0%nat; split; [cbn; lia|]; split; [constructor|]; split; [done|];
      intros [] s' Em Ep Sl; cbn in Em, Ep; subst; inversion Sl; subst; apply runs_end, rtc_hart0;
      eapply rtc_l; [apply S1|]; eapply rtc_l; [apply w_setwait|]; by apply rx_push_steps].
  { done. }
  destruct (Z.gtb_spec (u32 (now - start)) TICKS) as [Late|Late].
  - intros [= <- <- <-]. exists 0%nat. split; [cbn; lia|]. split; [constructor|]. split; [intros _; exists now, env; split; [done|lia]|].
    intros [] s' Em Ep Sl. cbn in Em, Ep. subst. inversion Sl; subst. apply runs_end.
    eapply rtc_l; [left; apply S1|]. eapply rtc_l; [left; apply w_setwait|]. eapply rtc_l; [left; apply S2|]. eapply rtc_l; [right; apply t_late|].
    unfold returned. cbn. rewrite app_nil_r. apply rtc_refl.
  - intros E. destruct (IH _ _ _ _ _ E) as (n & Ln & Fn & Lt & R). exists (S n). split; [cbn; lia|].
    split; [cbn [take]; by apply Forall_cons_2|]. split; [exact Lt|]. intros s s' Em Ep Sl. cbn [take map snd] in *.
    inversion Sl as [|? s1 ? ? ? Mw Me Sl']; subst. destruct s as [m bf i sem bh qd w p r snt tkn]. cbn in Ep. subst p.
    apply (runs_wait HDR f _ (asleep f (RxLink m bf i sem bh qd w (WTop f) r snt tkn)) s1 (awake f s1)); try done.
    + eapply rtc_l; [left; apply S1|]. eapply rtc_l; [left; apply w_setwait|]. eapply rtc_l; [left; apply S2|]. apply rtc_once. left. apply w_not_late.
    + apply awake_step. by rewrite (meanwhile_pc _ _ _ Mw).
    + apply R; [done|done|exact Sl'].
Qed.

(** * Properties *)

(** The frames to Linux with any interleaving of the two harts, of the other
    direction and of spurious doorbells: what shm_write() put into the ring is what
    esp_shm_read() took off, in order and each once, then what the ring
    holds; the ring is well formed in each state, and no broken record is seen. *)
Theorem rx_link_fifo HDR m s :
  0 <= HDR -> ring_wf m to_host [] -> rx_reachable HDR m s ->
  x_rpc s <> RBad /\
  exists q, ring_wf (x_mem s) to_host q /\ Forall (host_frame_ok HDR) q /\ x_sent s = map fst (x_taken s) ++ q.
Proof.
  intros H0 W R. destruct (rx_inv_reachable HDR H0 m s W R) as [q I]. split.
  - intros E. pose proof (x_read _ _ _ I) as C. by rewrite E in C.
  - exists q. split_and!; apply I.
Qed.

(** No wakeup of this direction is lost: in each reachable state in which
    neither hart has a step left but the end of a wait by the clock, the ring is empty,
    each frame that went in was taken off, and shm_write() does not wait. *)
Theorem rx_no_lost_wakeup HDR m s :
  0 <= HDR -> ring_wf m to_host [] -> rx_reachable HDR m s ->
  (forall s', ~ rx_internal HDR s s') ->
  ring_wf (x_mem s) to_host [] /\ map fst (x_taken s) = x_sent s /\ x_wpc s = WIdle /\ x_rpc s = RIdle.
Proof.
  intros H0 W R N. destruct (rx_inv_reachable HDR H0 m s W R) as [q I].
  destruct (rx_no_step_shape HDR s q I N) as (Er & Ew & P).
  assert (q = []) as ->.
  { destruct (x_wake _ _ _ I Er Ew) as [?|X]; [done|]. destruct P as [P|(f & P & _)]; destruct X as [X|(?&?&X&_)]; congruence. }
  split; [apply I|]. split; [rewrite (x_fifo _ _ _ I); by rewrite app_nil_r|]. split; [|done].
  destruct P as [P|(f & P & E)]; [done|]. exfalso. pose proof (x_stuck _ _ _ I E) as K. pose proof (x_write _ _ _ I) as O. rewrite P in K, O. cbn in O.
  rewrite Er in K. destruct K as [[_ [F|F]]|[?|?]]; try done. rewrite (frame_alone HDR H0 f O) in F. done.
Qed.

(** C5: the steps implement the code of both sides.  A call of shm_write() with a frame of a size that it takes, with any
    number of waits and with both results: it takes [n] of the waits, each before the timeout; whatever the other
    hart, the environment and the doorbell interrupt do in these waits, the steps of hart 0 go from the start of the
    call through the waits to its end, to the memory that the call leaves; the frame is in the ring once when the call
    returns its length, and nothing is sent when it returns ESP_FAIL, which comes only after a look at the clock past
    the timeout; and the host is rung when the call rings it, whose doorbell is not set at the start.  With another size nothing happens.  The steps of
    Linux take a call of esp_shm_read() to its end, with a frame or none, and with the frames that it drops for want
    of memory, while the other hart is still. *)
Theorem rx_link_refines HDR TICKS ph st b payload start waits ret st' c allocs i sem qd w p snt tkn :
  0 <= HDR -> mem_ok (shm c) -> running c = true -> b_payload b = Some payload -> reg_to_host st = 0 ->
  shm_write HDR TICKS ph st true (Some b) start waits = Some (ret, st') ->
  let f := (ph (b_if_type b) (b_if_num b) (b_flag b) (b_pkt_type b) (zlen payload), payload) in
  (if bool_decide (0 < zlen payload <= SHM_TO_HOST_FRAME_MAX - HDR) then
     (ret = zlen payload \/ ret = ESP_FAIL) /\
     exists n, (n <= length waits)%nat /\ Forall (fun w => u32 (fst w - start) <= TICKS) (take n waits) /\
       (ret = ESP_FAIL -> exists now env, waits !! n = Some (now, env) /\ u32 (now - start) > TICKS) /\
       forall s s', x_mem s = fw_shm st -> x_wpc s = WTop f -> slept HDR f s (map snd (take n waits)) s' ->
         runs HDR f s (map snd (take n waits)) (returned f s' (fw_shm st') (nz (reg_to_host st')) (negb (ret =? ESP_FAIL)))
   else ret = ESP_FAIL /\ st' = st) /\
  match esp_shm_read HDR (Some c) allocs with
  | (skb, Some c') =>
      exists r' dropped, rtc (read_step HDR) (rx_of c i sem qd w p RTop snt tkn)
        (rx_of c' i sem qd w p r' snt (tkn ++ map (fun b => (b, false)) dropped ++ match skb with Some f => [(f, true)] | None => [] end)) /\
      match skb with Some _ => r' = RTop | None => r' = RIdle \/ r' = RBad end
  | (_, None) => False
  end.
Proof.
  intros H0 M R Ep Er E f. split.
  - unfold shm_write in E. rewrite Ep in E. pose proof (zlen_nonneg payload).
    destruct (Z.eqb_spec (zlen payload) 0) as [Z0|Z0]; [rewrite bool_decide_false by lia; by injection E as <- <-|].
    destruct (Z.gtb_spec (HDR + zlen payload) SHM_TO_HOST_FRAME_MAX) as [Z1|Z1]; [rewrite bool_decide_false by lia; by injection E as <- <-|].
    rewrite bool_decide_true by lia. cbn [orb] in E.
    destruct (shm_write_loop _ _ _ _ _ _ _) as [[[ok m'] kick]|] eqn:L; [|done].
    destruct (write_loop_runs HDR TICKS f start waits _ _ _ _ _ L) as (n & Ln & Fn & Lt & X). destruct ok; injection E as <- <-.
    + split; [by left|]. exists n. split; [done|]. split; [done|]. split; [unfold ESP_FAIL; lia|]. intros s s' Em Ew Sl.
      rewrite (proj2 (Z.eqb_neq (zlen payload) ESP_FAIL)) by (unfold ESP_FAIL; lia). specialize (X s s' Em Ew Sl). destruct kick; cbn; [exact X|]. by rewrite Er.
    + split; [by right|]. exists n. split; [done|]. split; [done|]. split; [intros _; by apply Lt|]. intros s s' Em Ew Sl. cbn. rewrite Er. by apply X.
  - unfold esp_shm_read. rewrite R. cbn [negb]. pose proof (rx_loop_steps HDR i sem qd w p snt allocs H0 c tkn M) as S.
    destruct (rx_loop _ _ _ _) as [skb c']. exact S.
Qed.

(** * Witnesses: a frame of 15 bytes that the firmware sends and Linux reads. *)

Definition frame15 : frame := (hdr12, [1; 2; 3]).
Definition bytes15 : list Z := hdr12 ++ [1; 2; 3].
Lemma frame15_ok : rx_frame_ok 12 frame15.
Proof. split; [exact hdr12_bytes|]. split; [repeat constructor; lia|]. by split_and!. Qed.
Definition rmem1 : mem := store32 (rx_put zero_mem frame15 0) (r_ctrl to_host + ESP_SHM_HEAD_OFF) 20.
Definition rmem2 : mem := store32 rmem1 (r_ctrl to_host + ESP_SHM_TAIL_OFF) 20.
Definition rx_done_link : rxlink := RxLink rmem2 false false false false false false WIdle RIdle [bytes15] [(bytes15, true)].
Lemma rx_rtc_reachable HDR m s s' : rx_reachable HDR m s -> rtc (rx_step HDR) s s' -> rx_reachable HDR m s'.
Proof. intros R H. induction H as [|s1 s2 s3 H1 H2 IH]; [done|]. apply IH. by apply rx_reach_step with s1. Qed.
Lemma rx_done_reachable : rx_reachable 12 zero_mem rx_done_link.
Proof.
  apply (rx_rtc_reachable 12 zero_mem (rx_init zero_mem)); [constructor|].
  eapply rtc_l; [right; right; left; apply c_write, frame15_ok|].
  eapply rtc_l; [left; left; apply w_try|]. change (rx_no_room zero_mem frame15) with false. change (head_of zero_mem to_host) with 0.
  eapply rtc_l; [left; left; apply w_copy|]. eapply rtc_l; [left; left; apply w_publish|].
  change (u32 (0 + ESP_SHM_RECORD_LEN (frame_len frame15))) with 20. fold rmem1.
  eapply rtc_l; [left; left; apply w_kick|]. change (tail_of rmem1 to_host =? 0) with true.
  eapply rtc_l; [left; left; apply w_bell|]. eapply rtc_l; [left; right; apply r_irq|]. eapply rtc_l; [left; right; apply r_queue|].
  eapply rtc_l; [left; right; apply r_work|]. eapply rtc_l; [left; right; apply r_load|].
  change (head_of rmem1 to_host =? tail_of rmem1 to_host) with false. change (head_of rmem1 to_host) with 20.
  eapply rtc_l; [left; right; apply (r_read _ _ _ _ _ _ _ _ _ _ _ _ true)|]. cbv zeta.
  change (of_le (host_copy_out rmem1 to_host (tail_of rmem1 to_host) 4)) with 15.
  change (host_copy_out rmem1 to_host (u32 (tail_of rmem1 to_host + 4)) 15) with bytes15.
  change ((15 <? 12) || _ || _) with false. cbv iota.
  eapply rtc_l; [left; right; apply r_store|]. change (u32 (tail_of rmem1 to_host + ESP_SHM_RECORD_LEN (zlen bytes15))) with 20. fold rmem2.
  eapply rtc_l; [left; right; apply r_wait|]. change (nz (wait_of rmem2 to_host)) with false.
  eapply rtc_l; [left; right; apply r_load|]. change (head_of rmem2 to_host =? tail_of rmem2 to_host) with true. apply rtc_refl.
Qed.
Lemma rx_done_quiet : forall s', ~ rx_internal 12 rx_done_link s'.
Proof. intros s' [H|H]; inversion H. Qed.

Lemma rx_link_fifo_witness : x_rpc rx_done_link <> RBad.
Proof. exact (proj1 (rx_link_fifo 12 zero_mem rx_done_link ltac:(lia) (zero_mem_wf to_host to_host_ok) rx_done_reachable)). Defined.
Lemma rx_no_lost_wakeup_witness : x_sent rx_done_link = [bytes15] /\ map fst (x_taken rx_done_link) = x_sent rx_done_link.
Proof.
  split; [reflexivity|].
  exact (proj1 (proj2 (rx_no_lost_wakeup 12 zero_mem rx_done_link ltac:(lia) (zero_mem_wf to_host to_host_ok) rx_done_reachable rx_done_quiet))).
Defined.
(** A full ring: shm_write() waits once; in the wait Linux finds no frame that it can read and empties the ring. *)
Definition full_mem : mem := store32 zero_mem (r_ctrl to_host + ESP_SHM_HEAD_OFF) ESP_SHM_TO_HOST_SIZE.
Definition drop_all (m : mem) : mem := store32 m (r_ctrl to_host + ESP_SHM_TAIL_OFF) ESP_SHM_TO_HOST_SIZE.
Definition at_full : rxlink := RxLink full_mem false false false false false false (WTop frame15) RTop [] [].
Lemma full_slept : slept 12 frame15 at_full [drop_all]
  (RxLink (drop_all (x_mem (asleep frame15 at_full))) false false false false false false (WTop frame15) RBad [] []).
Proof.
  apply (slept_wait 12 frame15 at_full (RxLink (drop_all (x_mem (asleep frame15 at_full))) false false false false false false (WSleep frame15) RBad [] []));
    [|reflexivity|apply slept_none].
  unfold asleep. cbn [x_mem at_full x_bell_fw x_isr x_sem x_bell_host x_irq x_work x_rpc x_sent x_taken]. set (m := store32 full_mem _ 1).
  assert (head_of m to_host = ESP_SHM_TO_HOST_SIZE) as Eh by (vm_compute; reflexivity). assert (tail_of m to_host = 0) as Et by (vm_compute; reflexivity).
  eapply rtc_l; [split; [left; right; apply r_load|reflexivity]|]. rewrite Eh, Et. change (ESP_SHM_TO_HOST_SIZE =? 0) with false. cbv iota.
  eapply rtc_l; [split; [left; right; apply (r_read 12 _ _ _ _ _ _ _ _ _ _ _ true)|reflexivity]|]. cbv zeta. rewrite Et.
  assert (of_le (host_copy_out m to_host 0 4) = 0) as -> by (vm_compute; reflexivity). change (0 <? 12) with true. cbn [orb]. apply rtc_refl.
Qed.
Definition full_buf : option buf_handle := Some (BufHandle 0 0 0 0 (Some [1; 2; 3])).
Lemma rx_link_refines_witness : exists st', shm_write 12 100 (fun _ _ _ _ _ => hdr12) (fw0 full_mem) true full_buf 5 [(7, drop_all)] = Some (3, st') /\
  exists envs s', runs 12 frame15 at_full envs s' /\ x_wpc s' = WIdle /\ x_sent s' = [bytes15] /\ x_mem s' = fw_shm st' /\ x_bell_host s' = true.
Proof.
  assert (option_map (fun x => (fst x, reg_to_host (snd x))) (shm_write 12 100 (fun _ _ _ _ _ => hdr12) (fw0 full_mem) true full_buf 5 [(7, drop_all)]) = Some (3, 1))
    as E1 by (vm_compute; reflexivity).
  destruct (shm_write 12 100 _ (fw0 full_mem) true full_buf 5 [(7, drop_all)]) as [[ret st']|] eqn:E; [|discriminate E1].
  cbn in E1. injection E1 as -> E1. exists st'. split; [reflexivity|].
  pose proof (rx_link_refines 12 100 (fun _ _ _ _ _ => hdr12) (fw0 full_mem) (BufHandle 0 0 0 0 (Some [1; 2; 3])) [1; 2; 3] 5 [(7, drop_all)] 3 st'
    (idle_ctx []) [] false false false false WIdle [] [] ltac:(lia) zero_mem_ok eq_refl eq_refl eq_refl E) as [(_ & n & Ln & _ & _ & R) _].
  assert (nz (reg_to_host st') = true) as K by (by rewrite E1).
  destruct n as [|[|n]]; [|..|cbn in Ln; lia]; eexists _, _.
  - split; [exact (R at_full at_full eq_refl eq_refl (slept_none _ _ _))|]. by rewrite K.
  - split; [exact (R at_full _ eq_refl eq_refl full_slept)|]. by rewrite K.
Defined.
