(* ===== verification/FlashLink.v ===== *)
(** The flash mailbox with both harts running: every access to the mailbox, to a
    doorbell and to a semaphore is a step, and the steps of
    esp_shm_flash_cmd() with its interrupt (hart 1) and of the flash task with the
    doorbell and the receive task that kicks it (hart 0) interleave in any order.

    The steps are sequentially consistent: the command is ordered by [wmb], [rmb]
    and by acquire and release.  The copy of the data and the operation on the
    chip are one step each: the invariant shows that the other hart does not touch
    the mailbox data then.  The mutex of the device makes the commands follow each
    other.  Both harts share the doorbells with the rings: spurious kicks and wakeups
    happen at any time ([flash_env]). *)

From stdpp Require Import relations.
From S2P Require Import Prelude Mem Ring Flash.

(** A command, as esp_shm_flash_write() and esp_shm_flash_erase() give it. *)
Record req := Req { q_cmd : Z; q_addr : Z; q_len : Z; q_data : list Z }.
Definition req_ok (r : req) : Prop :=
  0 <= q_addr r < 4294967296 /\ 0 <= q_len r < 4294967296 /\
  (q_cmd r = ESP_SHM_FLASH_PROGRAM /\ zlen (q_data r) = q_len r /\ q_len r <= ESP_SHM_FLASH_DATA_SIZE \/
   q_cmd r = ESP_SHM_FLASH_ERASE /\ q_data r = []).

(** Where esp_shm_flash_cmd() is; [k] counts the commands before this one. *)
Inductive lpc :=
| LIdle                              (** not running *)
| LStart (r : req)                   (** before the look at the command *)
| LAddr (r : req)                    (** before the stores of the address, *)
| LLen (r : req)                     (** the length, *)
| LData (r : req)                    (** the data, *)
| LCmd (r : req)                     (** and the command *)
| LRing (r : req) (k : nat)          (** before the doorbell *)
| LPrep (r : req) (k : nat)          (** in wait_event_timeout(): before it gets ready to sleep *)
| LCheck (r : req) (k : nat)         (** before the look at the condition *)
| LSleep (r : req) (k : nat)         (** asleep unless woken *)
| LLast (r : req) (k : nat)          (** the time is over: the last look *)
| LStatus (r : req) (k : nat).       (** before the load of the status *)

(** Where flash_task() is. *)
Inductive fpc :=
| FSleep                             (** in xSemaphoreTake(s_kick) *)
| FLoad                              (** before the load of the command *)
| FArgs (cmd : Z)                    (** before the loads of address and length *)
| FOp (cmd addr len : Z)             (** before the operation *)
| FStatus (err : Z)                  (** before the store of the status *)
| FClear                             (** before the store of the command *)
| FBell.                             (** before s_done() *)

Record flink := FLink {
  f_mem : mem;
  f_chip : mem;
  f_bell_fw : bool;                  (** CPU_INT_FROM_CPU_1 is set *)
  f_rx : bool;                       (** the receive task is to run: s_rx_sem *)
  f_kick : bool;                     (** s_kick *)
  f_bell_host : bool;                (** CPU_INT_FROM_CPU_2 is set *)
  f_woken : bool;                    (** wake_up() since the sleeper got ready *)
  f_lpc : lpc;
  f_fpc : fpc;
  f_issued : list req;               (** the commands that went into the mailbox *)
  f_done : list (req * Z);           (** the operations that were run, with their result *)
  f_rets : list (option nat * Z) }.  (** what the calls returned, and for which command *)

Definition m_cmd (m : mem) : Z := mbox_read m ESP_SHM_FLASH_CMD_OFF.
Definition m_addr (m : mem) : Z := mbox_read m ESP_SHM_FLASH_ADDR_OFF.
Definition mb_len (m : mem) : Z := mbox_read m ESP_SHM_FLASH_LEN_OFF.
Definition m_status (m : mem) : Z := mbox_read m ESP_SHM_FLASH_STATUS_OFF.
Definition put_word (m : mem) (off v : Z) : mem := store32 m (flash_word off) v.

(** A call of esp_shm_flash_cmd(), with the mutex. *)
Inductive flash_call : flink -> flink -> Prop :=
| fc_call m c b x k h w f iss dn rets r : req_ok r ->
    flash_call (FLink m c b x k h w LIdle f iss dn rets) (FLink m c b x k h w (LStart r) f iss dn rets).

(** Hart 1: esp_shm_flash_cmd() and the interrupt with esp_shm_flash_wake(). *)
Inductive cmd_step : flink -> flink -> Prop :=
| l_start m c b x k h w f iss dn rets r :
    cmd_step (FLink m c b x k h w (LStart r) f iss dn rets)
      (if nz (m_cmd m) then FLink m c b x k h w LIdle f iss dn (rets ++ [(None, - EBUSY)])
       else FLink m c b x k h w (LAddr r) f iss dn rets)
| l_addr m c b x k h w f iss dn rets r :
    cmd_step (FLink m c b x k h w (LAddr r) f iss dn rets)
      (FLink (put_word m ESP_SHM_FLASH_ADDR_OFF (q_addr r)) c b x k h w (LLen r) f iss dn rets)
| l_len m c b x k h w f iss dn rets r :
    cmd_step (FLink m c b x k h w (LLen r) f iss dn rets)
      (FLink (put_word m ESP_SHM_FLASH_LEN_OFF (q_len r)) c b x k h w (LData r) f iss dn rets)
| l_data m c b x k h w f iss dn rets r :
    cmd_step (FLink m c b x k h w (LData r) f iss dn rets)
      (FLink (if q_cmd r =? ESP_SHM_FLASH_PROGRAM then store_bytes m ESP_SHM_FLASH_DATA (q_data r) else m)
         c b x k h w (LCmd r) f iss dn rets)
| l_cmd m c b x k h w f iss dn rets r :
    cmd_step (FLink m c b x k h w (LCmd r) f iss dn rets)
      (FLink (put_word m ESP_SHM_FLASH_CMD_OFF (q_cmd r)) c b x k h w (LRing r (length iss)) f (iss ++ [r]) dn rets)
| l_ring m c b x k h w f iss dn rets r n :
    cmd_step (FLink m c b x k h w (LRing r n) f iss dn rets) (FLink m c true x k h w (LPrep r n) f iss dn rets)
| l_prep m c b x k h w f iss dn rets r n :
    cmd_step (FLink m c b x k h w (LPrep r n) f iss dn rets) (FLink m c b x k h false (LCheck r n) f iss dn rets)
| l_check m c b x k h w f iss dn rets r n :
    cmd_step (FLink m c b x k h w (LCheck r n) f iss dn rets)
      (FLink m c b x k h w (if nz (m_cmd m) then LSleep r n else LStatus r n) f iss dn rets)
| l_wake m c b x k h f iss dn rets r n :
    cmd_step (FLink m c b x k h true (LSleep r n) f iss dn rets) (FLink m c b x k h true (LPrep r n) f iss dn rets)
| l_last m c b x k h w f iss dn rets r n :
    cmd_step (FLink m c b x k h w (LLast r n) f iss dn rets)
      (if nz (m_cmd m) then FLink m c b x k h w LIdle f iss dn (rets ++ [(Some n, - ETIMEDOUT)])
       else FLink m c b x k h w (LStatus r n) f iss dn rets)
| l_status m c b x k h w f iss dn rets r n :
    cmd_step (FLink m c b x k h w (LStatus r n) f iss dn rets)
      (FLink m c b x k h w LIdle f iss dn (rets ++ [(Some n, if nz (m_status m) then - EIO else 0)]))
| l_irq m c b x k w l f iss dn rets :
    cmd_step (FLink m c b x k true w l f iss dn rets) (FLink m c b x k false true l f iss dn rets).
(** The end of the wait by the clock. *)
Inductive flash_timeout : flink -> flink -> Prop :=
| ft_sleep m c b x k h w f iss dn rets r n :
    flash_timeout (FLink m c b x k h w (LSleep r n) f iss dn rets) (FLink m c b x k h w (LLast r n) f iss dn rets).
(** The rings use the same doorbells, and the rest of the block. *)
Record mbox_same (m m' : mem) : Prop := {
  same_words off : 0 <= off -> off + 4 <= 0x18 -> mbox_read m' off = mbox_read m off;
  same_data n : n <= ESP_SHM_FLASH_DATA_SIZE -> load_bytes m' ESP_SHM_FLASH_DATA n = load_bytes m ESP_SHM_FLASH_DATA n }.
Inductive flash_env : flink -> flink -> Prop :=
| fe_bell_fw m c b x k h w l f iss dn rets :
    flash_env (FLink m c b x k h w l f iss dn rets) (FLink m c true x k h w l f iss dn rets)
| fe_rx m c b x k h w l f iss dn rets :
    flash_env (FLink m c b x k h w l f iss dn rets) (FLink m c b true k h w l f iss dn rets)
| fe_bell_host m c b x k h w l f iss dn rets :
    flash_env (FLink m c b x k h w l f iss dn rets) (FLink m c b x k true w l f iss dn rets)
| fe_mem m m' c b x k h w l f iss dn rets : mbox_same m m' ->
    flash_env (FLink m c b x k h w l f iss dn rets) (FLink m' c b x k h w l f iss dn rets).

Section FlashLink.
Context (esp_flash_write : mem -> list Z -> Z -> mem * Z)
        (esp_flash_erase_region : mem -> Z -> Z -> mem * Z) (s : flash_fw).

(** Hart 0: the doorbell interrupt, the receive task and flash_task(). *)
Inductive task_step : flink -> flink -> Prop :=
| f_isr m c x k h w l f iss dn rets :
    task_step (FLink m c true x k h w l f iss dn rets) (FLink m c false true k h w l f iss dn rets)
| f_recv m c b k h w l f iss dn rets :
    task_step (FLink m c b true k h w l f iss dn rets) (FLink m c b false true h w l f iss dn rets)
| f_take m c b x h w l iss dn rets :
    task_step (FLink m c b x true h w l FSleep iss dn rets) (FLink m c b x false h w l FLoad iss dn rets)
| f_load m c b x k h w l iss dn rets :
    task_step (FLink m c b x k h w l FLoad iss dn rets) (FLink m c b x k h w l (FArgs (m_cmd m)) iss dn rets)
| f_args m c b x k h w l cmd iss dn rets :
    task_step (FLink m c b x k h w l (FArgs cmd) iss dn rets)
      (FLink m c b x k h w l (if cmd =? 0 then FSleep else FOp cmd (m_addr m) (mb_len m)) iss dn rets)
| f_op m c b x k h w l cmd addr len iss dn rets :
    task_step (FLink m c b x k h w l (FOp cmd addr len) iss dn rets)
      (let '(c', err) := if negb (flash_request_valid s cmd addr len) then (c, ESP_ERR_INVALID_ARG)
                         else flash_op esp_flash_write esp_flash_erase_region s m c cmd addr len in
       FLink m c' b x k h w l (FStatus err) iss (dn ++ [(Req cmd addr len (load_bytes m ESP_SHM_FLASH_DATA (if cmd =? ESP_SHM_FLASH_PROGRAM then len else 0)), err)]) rets)
| f_status m c b x k h w l err iss dn rets :
    task_step (FLink m c b x k h w l (FStatus err) iss dn rets)
      (FLink (put_word m ESP_SHM_FLASH_STATUS_OFF err) c b x k h w l FClear iss dn rets)
| f_clear m c b x k h w l iss dn rets :
    task_step (FLink m c b x k h w l FClear iss dn rets)
      (FLink (put_word m ESP_SHM_FLASH_CMD_OFF 0) c b x k h w l FBell iss dn rets)
| f_bell m c b x k h w l iss dn rets :
    task_step (FLink m c b x k h w l FBell iss dn rets) (FLink m c b x k true w l FSleep iss dn rets).

Definition flash_internal (a b : flink) : Prop := cmd_step a b \/ task_step a b.
Definition flash_step (a b : flink) : Prop := flash_internal a b \/ flash_timeout a b \/ flash_call a b \/ flash_env a b.
Definition flash_init (m chip : mem) : flink := FLink m chip false false false false false LIdle FSleep [] [] [].
Inductive flash_reachable (m chip : mem) : flink -> Prop :=
| fr_init : flash_reachable m chip (flash_init m chip)
| fr_step a b : flash_reachable m chip a -> flash_step a b -> flash_reachable m chip b.

(** What the chip should do: one command after the other, each once. *)
Definition serve_one (c : mem) (r : req) : mem * Z :=
  if negb (flash_request_valid s (q_cmd r) (q_addr r) (q_len r)) then (c, ESP_ERR_INVALID_ARG)
  else if q_cmd r =? ESP_SHM_FLASH_PROGRAM then esp_flash_write c (q_data r) (u32 (s_base s + q_addr r))
  else esp_flash_erase_region c (u32 (s_base s + q_addr r)) (q_len r).
Fixpoint serve_all (c : mem) (l : list req) : mem * list Z :=
  match l with
  | [] => (c, [])
  | r :: l => let '(c, err) := serve_one c r in let '(c, errs) := serve_all c l in (c, err :: errs)
  end.
End FlashLink.

(** * The invariant *)

(** The words of the mailbox after a store to one of them. *)
Lemma mword_same m off v : mbox_read (put_word m off v) off = u32 v.
Proof. apply mbox_store_same. Qed.
Lemma put_cmd m v : m_cmd (put_word m ESP_SHM_FLASH_CMD_OFF v) = u32 v.
Proof. apply mbox_store_same. Qed.
Lemma word_cmd m off v : 8 <= off -> m_cmd (put_word m off v) = m_cmd m.
Proof. intros. apply mbox_store; [done|right]. unfold ESP_SHM_FLASH_CMD_OFF. lia. Qed.
Lemma data_word m bs off : 0 <= off <= 0x20 -> mbox_read (store_bytes m ESP_SHM_FLASH_DATA bs) off = mbox_read m off.
Proof. apply mbox_store_data. Qed.
Lemma put_word_data m off v n : 0 <= off <= 0x20 ->
  load_bytes (put_word m off v) ESP_SHM_FLASH_DATA n = load_bytes m ESP_SHM_FLASH_DATA n.
Proof.
  intros. apply load_bytes_ext. intros x Hx. apply store_bytes_out. rewrite zlen_le32.
  unfold range, flash_word, ESP_SHM_FLASH, ESP_SHM_FLASH_DATA in *. lia.
Qed.

(** The mailbox holds a request, apart from the command word. *)
Definition args_ok (m : mem) (r : req) : Prop :=
  m_addr m = q_addr r /\ mb_len m = q_len r /\
  (q_cmd r = ESP_SHM_FLASH_PROGRAM -> load_bytes m ESP_SHM_FLASH_DATA (q_len r) = q_data r).
Definition status_ok (m : mem) (dn : list (req * Z)) : Prop := forall dn' x, dn = dn' ++ [x] -> m_status m = u32 (snd x).
(** No request is in the mailbox; or one is, which is not done. *)
Definition quiet_box (m : mem) (iss : list req) (dn : list (req * Z)) : Prop := m_cmd m = 0 /\ iss = map fst dn /\ status_ok m dn.
Definition full_box (m : mem) (iss : list req) (dn : list (req * Z)) (r : req) : Prop :=
  m_cmd m = q_cmd r /\ iss = map fst dn ++ [r] /\ req_ok r /\ args_ok m r.
Definition task_inv (m : mem) (iss : list req) (dn : list (req * Z)) (f : fpc) : Prop :=
  match f with
  | FSleep | FLoad | FBell => quiet_box m iss dn \/ exists r, full_box m iss dn r
  | FArgs c => (quiet_box m iss dn \/ exists r, full_box m iss dn r) /\ (c = 0 \/ c = m_cmd m)
  | FOp c a l => exists r, full_box m iss dn r /\ c = q_cmd r /\ a = q_addr r /\ l = q_len r
  | FStatus err => m_cmd m <> 0 /\ iss = map fst dn /\ exists dn' r, dn = dn' ++ [(r, err)]
  | FClear => m_cmd m <> 0 /\ iss = map fst dn /\ status_ok m dn
  end.
Definition issued_last (iss : list req) (r : req) (k : nat) : Prop := exists iss', iss = iss' ++ [r] /\ k = length iss'.
Definition cmd_inv (m : mem) (iss : list req) (l : lpc) : Prop :=
  match l with
  | LIdle => True
  | LStart r => req_ok r
  | LAddr r => req_ok r /\ m_cmd m = 0
  | LLen r => req_ok r /\ m_cmd m = 0 /\ m_addr m = q_addr r
  | LData r => req_ok r /\ m_cmd m = 0 /\ m_addr m = q_addr r /\ mb_len m = q_len r
  | LCmd r => req_ok r /\ m_cmd m = 0 /\ args_ok m r
  | LRing r k | LPrep r k | LCheck r k | LSleep r k | LLast r k => issued_last iss r k
  | LStatus r k => issued_last iss r k /\ m_cmd m = 0
  end.
(** What a call may have returned. *)
Definition ret_ok (iss : list req) (dn : list (req * Z)) (x : option nat * Z) : Prop :=
  match fst x with
  | None => snd x = - EBUSY
  | Some k => exists r, iss !! k = Some r /\
      (snd x = - ETIMEDOUT \/ exists err, dn !! k = Some (r, err) /\ snd x = if nz (u32 err) then - EIO else 0)
  end.
(** A request that the task is not about to see has a kick on its way. *)
Definition kick_inv (m : mem) (b x k : bool) (l : lpc) (f : fpc) : Prop :=
  m_cmd m <> 0 -> f = FSleep \/ f = FArgs 0 \/ f = FBell -> b || x || k = true \/ exists r n, l = LRing r n.
(** A sleeper has something to wait for. *)
Definition sleep_inv (m : mem) (h w : bool) (l : lpc) (f : fpc) : Prop :=
  forall r n, l = LSleep r n -> w = false -> m_cmd m <> 0 \/ h = true \/ f = FBell.

Lemma ret_ok_mono iss dn iss' dn' x : ret_ok iss dn x -> ret_ok (iss ++ iss') (dn ++ dn') x.
Proof.
  unfold ret_ok. destruct (fst x) as [k|]; [|done]. intros (r & E & H). exists r. split; [by apply lookup_app_l_Some|].
  destruct H as [H|(err & E2 & H)]; [by left|right]. exists err. split; [by apply lookup_app_l_Some|done].
Qed.
Lemma rets_mono iss dn iss' dn' l : Forall (ret_ok iss dn) l -> Forall (ret_ok (iss ++ iss') (dn ++ dn')) l.
Proof. induction 1; constructor; [by apply ret_ok_mono|done]. Qed.
Lemma req_cmd r : req_ok r -> 0 < q_cmd r < 256.
Proof. intros (_ & _ & [[-> _] | [-> _]]); done. Qed.
(** While Linux may write the mailbox the task does not look at it. *)
Lemma task_quiet m iss dn f : task_inv m iss dn f -> m_cmd m = 0 -> quiet_box m iss dn /\
  (f = FSleep \/ f = FLoad \/ f = FArgs 0 \/ f = FBell).
Proof.
  assert (X : (quiet_box m iss dn \/ exists r, full_box m iss dn r) -> m_cmd m = 0 -> quiet_box m iss dn).
  { intros [Q|(r & E & _ & O & _)] Z; [done|]. pose proof (req_cmd r O). lia. }
  intros T Z. destruct f; cbn [task_inv] in T; try (split; [by apply X|tauto]).
  - destruct T as [T Hc]. split; [by apply X|]. destruct Hc as [-> | ->]; [|rewrite Z]; tauto.
  - destruct T as (r & (E & _ & O & _) & _). pose proof (req_cmd r O). lia.
  - by destruct T.
  - by destruct T.
Qed.
Lemma quiet_task m iss dn f : quiet_box m iss dn -> f = FSleep \/ f = FLoad \/ f = FArgs 0 \/ f = FBell -> task_inv m iss dn f.
Proof. intros Q [-> |[-> |[-> | ->]]]; cbn; auto. Qed.
Lemma quiet_words m m' iss dn : m_cmd m' = m_cmd m -> m_status m' = m_status m -> quiet_box m iss dn -> quiet_box m' iss dn.
Proof. unfold quiet_box, status_ok. by intros -> ->. Qed.
Lemma kick_weaken m b x k l f b' x' k' l' :
  (b' || x' || k' = false -> b || x || k = false) -> (forall r n, l = LRing r n -> l' = l \/ b' || x' || k' = true) ->
  kick_inv m b x k l f -> kick_inv m b' x' k' l' f.
Proof.
  intros H1 H2 K Z F. destruct (K Z F) as [E|(r & n & ->)].
  - left. destruct (b' || x' || k'); [done|]. rewrite H1 in E by done. done.
  - destruct (H2 r n eq_refl) as [->|E]; [right; by exists r, n|by left].
Qed.
Lemma same_cmd m m' : mbox_same m m' -> m_cmd m' = m_cmd m /\ m_addr m' = m_addr m /\ mb_len m' = mb_len m /\ m_status m' = m_status m.
Proof. intros [W _]. split_and!; by apply W. Qed.
Lemma same_args m m' r : mbox_same m m' -> req_ok r -> args_ok m r -> args_ok m' r.
Proof.
  intros S (Ha & Hl & O) (A & L & D). destruct (same_cmd m m' S) as (_ & EA & EL & _). unfold args_ok. rewrite EA, EL. split_and!; [done|done|].
  intros E. rewrite (same_data _ _ S); [by apply D|]. destruct O as [(_ & _ & O)|[O _]]; [done|]. rewrite O in E. done.
Qed.
Lemma same_full m m' iss dn r : mbox_same m m' -> full_box m iss dn r -> full_box m' iss dn r.
Proof.
  intros S (E & I & O & A). destruct (same_cmd m m' S) as (EC & _). split_and!; [by rewrite EC|done|done|by apply (same_args m)].
Qed.
Lemma same_task m m' iss dn f : mbox_same m m' -> task_inv m iss dn f -> task_inv m' iss dn f.
Proof.
  intros S. destruct (same_cmd m m' S) as (EC & EA & EL & ES).
  assert (X : (quiet_box m iss dn \/ exists r, full_box m iss dn r) -> quiet_box m' iss dn \/ exists r, full_box m' iss dn r).
  { intros [Q|(r & Q)]; [left; by apply (quiet_words m)|right; exists r; by apply (same_full m)]. }
  destruct f; cbn [task_inv]; rewrite ?EC; try exact X; try done.
  - intros [T H]. split; [by apply X|done].
  - intros (r & F & H). exists r. split; [by apply (same_full m)|done].
  - intros (H1 & H2 & H3). split_and!; [done|done|]. intros dn' y E. rewrite ES. by apply (H3 dn').
Qed.

Section Invariant.
Context (esp_flash_write : mem -> list Z -> Z -> mem * Z)
        (esp_flash_erase_region : mem -> Z -> Z -> mem * Z) (s : flash_fw) (chip0 : mem).
Abbreviation serve_one := (serve_one esp_flash_write esp_flash_erase_region s).
Abbreviation serve_all := (serve_all esp_flash_write esp_flash_erase_region s).

Record flash_inv (a : flink) : Prop := {
  fi_task : task_inv (f_mem a) (f_issued a) (f_done a) (f_fpc a);
  fi_cmd : cmd_inv (f_mem a) (f_issued a) (f_lpc a);
  fi_chip : serve_all chip0 (map fst (f_done a)) = (f_chip a, map snd (f_done a));
  fi_rets : Forall (ret_ok (f_issued a) (f_done a)) (f_rets a);
  fi_kick : kick_inv (f_mem a) (f_bell_fw a) (f_rx a) (f_kick a) (f_lpc a) (f_fpc a);
  fi_sleep : sleep_inv (f_mem a) (f_bell_host a) (f_woken a) (f_lpc a) (f_fpc a);
}.

Lemma serve_all_snoc l : forall c r, serve_all c (l ++ [r]) =
  let '(c1, errs) := serve_all c l in let '(c2, err) := serve_one c1 r in (c2, errs ++ [err]).
Proof using Type.
  induction l as [|r0 l IH]; intros c r; cbn [app FlashLink.serve_all].
  - destruct (serve_one c r). done.
  - destruct (serve_one c r0) as [c1 e1]. rewrite IH. destruct (serve_all c1 l) as [c2 es]. by destruct (serve_one c2 r).
Qed.


(** Parts that a step does not touch. *)
Lemma flash_inv_pcs m c b x k h w l f iss dn rets b' x' k' h' w' l' f' rets' :
  flash_inv (FLink m c b x k h w l f iss dn rets) ->
  task_inv m iss dn f' -> cmd_inv m iss l' -> Forall (ret_ok iss dn) rets' ->
  kick_inv m b' x' k' l' f' -> sleep_inv m h' w' l' f' ->
  flash_inv (FLink m c b' x' k' h' w' l' f' iss dn rets').
Proof using Type. intros [T C S R K L]. by split. Qed.

Lemma inv_flash_call a a' : flash_inv a -> flash_call a a' -> flash_inv a'.
Proof using Type.
  intros I H. destruct H. apply (flash_inv_pcs _ _ _ _ _ _ _ _ _ _ _ _ _ _ _ _ _ _ _ _ I); try apply I; [done| |done].
  by apply (kick_weaken m b x k LIdle), I.
Qed.
Lemma inv_flash_timeout a a' : flash_inv a -> flash_timeout a a' -> flash_inv a'.
Proof using Type.
  intros I H. destruct H. apply (flash_inv_pcs _ _ _ _ _ _ _ _ _ _ _ _ _ _ _ _ _ _ _ _ I); try apply I; [|done].
  by apply (kick_weaken m b x k (LSleep r n)), I.
Qed.
Lemma inv_flash_env a a' : flash_inv a -> flash_env a a' -> flash_inv a'.
Proof using Type.
  intros I H. destruct H as [m c b x k h w l f iss dn rets|m c b x k h w l f iss dn rets|m c b x k h w l f iss dn rets|m m' c b x k h w l f iss dn rets S].
  1-3: apply (flash_inv_pcs _ _ _ _ _ _ _ _ _ _ _ _ _ _ _ _ _ _ _ _ I); try apply I.
  - by intros _ _; left.
  - intros _ _. left. by rewrite orb_true_r.
  - intros r n E W. tauto.
  - destruct (same_cmd m m' S) as (EC & EA & EL & ES). destruct I as [T C Q R K L]. cbn in *. split; cbn; try done.
    + by apply (same_task m).
    + destruct l; cbn [cmd_inv] in *; rewrite ?EC, ?EA, ?EL; try done. destruct C as (O & Z & A). split_and!; [done|done|by apply (same_args m)].
    + unfold kick_inv in *. by rewrite EC.
    + unfold sleep_inv in *. by rewrite EC.
Qed.

(** A store of Linux while the mailbox is free. *)
Lemma inv_fill m c b x k h w l f iss dn rets m' l' :
  flash_inv (FLink m c b x k h w l f iss dn rets) -> m_cmd m = 0 -> m_cmd m' = 0 -> m_status m' = m_status m ->
  cmd_inv m' iss l' -> (forall r n, l' <> LSleep r n) ->
  flash_inv (FLink m' c b x k h w l' f iss dn rets).
Proof using Type.
  intros [T C Q R K L] Z Z' S C' N. cbn in *. destruct (task_quiet _ _ _ _ T Z) as [Qu F]. split; cbn; try done.
  - apply quiet_task; [|done]. apply (quiet_words m); [by rewrite Z'|done|done].
  - by intros ?.
  - intros r n E. by destruct (N r n).
Qed.
Lemma last_done iss dn r k m : quiet_box m iss dn -> issued_last iss r k ->
  iss !! k = Some r /\ exists err, dn !! k = Some (r, err) /\ m_status m = u32 err.
Proof using Type.
  intros (_ & -> & S) (iss' & E & ->). rewrite E. split; [by rewrite lookup_app_r, Nat.sub_diag by lia|].
  destruct dn as [|y dn' _] using rev_ind; [by destruct iss'|]. rewrite map_app in E. apply app_inj_tail in E as [<- <-]. destruct y as [r err].
  exists err. cbn [fst]. split; [|by apply (S dn' (r, err))]. rewrite length_map, lookup_app_r, Nat.sub_diag by lia. done.
Qed.
Lemma issued_lookup iss r k : issued_last iss r k -> iss !! k = Some r.
Proof using Type. intros (iss' & -> & ->). by rewrite lookup_app_r, Nat.sub_diag by lia. Qed.

Lemma inv_cmd a a' : flash_inv a -> cmd_step a a' -> flash_inv a'.
Proof using Type.
  intros I H. destruct H.
  - (* l_start *) pose proof (fi_cmd _ I) as O. cbn in O. unfold nz. destruct (Z.eqb_spec (m_cmd m) 0) as [Z|Z]; cbn [negb].
    + apply (inv_fill _ _ _ _ _ _ _ _ _ _ _ _ m _ I); done.
    + apply (flash_inv_pcs _ _ _ _ _ _ _ _ _ _ _ _ _ _ _ _ _ _ _ _ I); try apply I; [done| | |done].
      * apply Forall_app. split; [apply I|]. by constructor.
      * by apply (kick_weaken m b x k (LStart r)), I.
  - (* l_addr *) destruct (fi_cmd _ I) as [O Z]. cbn in Z. apply (inv_fill _ _ _ _ _ _ _ _ _ _ _ _ _ _ I Z); try done.
    split_and!; [done|by rewrite word_cmd|]. unfold m_addr. rewrite mword_same. apply u32_small. by destruct O.
  - (* l_len *) destruct (fi_cmd _ I) as (O & Z & A). cbn in Z, A. apply (inv_fill _ _ _ _ _ _ _ _ _ _ _ _ _ _ I Z); try done.
    split_and!; [done|by rewrite word_cmd|done|]. unfold mb_len. rewrite mword_same. apply u32_small. by destruct O as (_ & ? & _).
  - (* l_data *) destruct (fi_cmd _ I) as (O & Z & A & L). cbn in Z, A, L.
    assert (E : forall off, 0 <= off <= 0x20 ->
      mbox_read (if q_cmd r =? ESP_SHM_FLASH_PROGRAM then store_bytes m ESP_SHM_FLASH_DATA (q_data r) else m) off = mbox_read m off).
    { intros off Ho. destruct (_ =? _); [by apply data_word|done]. }
    apply (inv_fill _ _ _ _ _ _ _ _ _ _ _ _ _ _ I Z); [unfold m_cmd; by rewrite E|by apply E| |done].
    unfold cmd_inv, args_ok. split_and!; [done|unfold m_cmd; by rewrite E|unfold m_addr; by rewrite E|unfold mb_len; by rewrite E|].
    intros P. rewrite P. cbn [Z.eqb]. destruct O as (_ & _ & [(_ & Ed & _)|[P' _]]); [|by rewrite P in P'].
    rewrite <- Ed. change (ESP_SHM_FLASH_PROGRAM =? ESP_SHM_FLASH_PROGRAM) with true. cbv iota. apply load_store_bytes.
  - (* l_cmd *) destruct (fi_cmd _ I) as (O & Z & A). cbn in Z, A. destruct I as [T C Q R K L]. cbn in T, Q, R.
    destruct (task_quiet _ _ _ _ T Z) as [(_ & -> & _) F]. pose proof (req_cmd r O) as Hc.
    assert (Ec : m_cmd (put_word m ESP_SHM_FLASH_CMD_OFF (q_cmd r)) = q_cmd r) by (rewrite put_cmd; apply u32_small; lia).
    assert (FB : full_box (put_word m ESP_SHM_FLASH_CMD_OFF (q_cmd r)) (map fst dn ++ [r]) dn r).
    { split_and!; [done|done|done|]. destruct A as (A1 & A2 & A3). split_and!.
      - unfold m_addr, put_word. by rewrite mbox_store by off_ne.
      - unfold mb_len, put_word. by rewrite mbox_store by off_ne.
      - intros P. rewrite put_word_data by done. by apply A3. }
    split; cbn [f_mem f_chip f_bell_fw f_rx f_kick f_bell_host f_woken f_lpc f_fpc f_issued f_done f_rets].
    + destruct F as [-> |[-> |[-> | ->]]]; cbn; try (right; by exists r). split; [right; by exists r|by left].
    + by exists (map fst dn).
    + done.
    + rewrite <- (app_nil_r dn) at 2. by apply rets_mono.
    + intros _ _. right. by exists r, (length (map fst dn)).
    + by intros r0 n.
  - (* l_ring *) apply (flash_inv_pcs _ _ _ _ _ _ _ _ _ _ _ _ _ _ _ _ _ _ _ _ I); try apply I; [|done]. by intros _ _; left.
  - (* l_prep *) apply (flash_inv_pcs _ _ _ _ _ _ _ _ _ _ _ _ _ _ _ _ _ _ _ _ I); try apply I; [|done]. by apply (kick_weaken m b x k (LPrep r n)), I.
  - (* l_check *) unfold nz. destruct (Z.eqb_spec (m_cmd m) 0) as [Z|Z]; cbn [negb].
    + apply (inv_fill _ _ _ _ _ _ _ _ _ _ _ _ m _ I); try done. split; [apply I|done].
    + apply (flash_inv_pcs _ _ _ _ _ _ _ _ _ _ _ _ _ _ _ _ _ _ _ _ I); try apply I; [by apply (kick_weaken m b x k (LCheck r n)), I|].
      intros r' n' _ _. by left.
  - (* l_wake *) apply (flash_inv_pcs _ _ _ _ _ _ _ _ _ _ _ _ _ _ _ _ _ _ _ _ I); try apply I; [|done]. by apply (kick_weaken m b x k (LSleep r n)), I.
  - (* l_last *) unfold nz. destruct (Z.eqb_spec (m_cmd m) 0) as [Z|Z]; cbn [negb].
    + apply (inv_fill _ _ _ _ _ _ _ _ _ _ _ _ m _ I); try done. split; [apply I|done].
    + apply (flash_inv_pcs _ _ _ _ _ _ _ _ _ _ _ _ _ _ _ _ _ _ _ _ I); try apply I; [done| | |done].
      * apply Forall_app. split; [apply I|]. constructor; [|done]. exists r. cbn [fst snd]. split; [apply issued_lookup, I|by left].
      * by apply (kick_weaken m b x k (LLast r n)), I.
  - (* l_status *) destruct (fi_cmd _ I) as [E Z]. cbn in E, Z. destruct (task_quiet _ _ _ _ (fi_task _ I) Z) as [Qu _]. cbn in Qu.
    destruct (last_done _ _ _ _ _ Qu E) as (E1 & err & E2 & E3).
    apply (flash_inv_pcs _ _ _ _ _ _ _ _ _ _ _ _ _ _ _ _ _ _ _ _ I); try apply I; [done| | |done].
    + apply Forall_app. split; [apply I|]. constructor; [|done]. exists r. cbn [fst snd]. split; [done|right]. exists err. by rewrite E3.
    + by apply (kick_weaken m b x k (LStatus r n)), I.
  - (* l_irq *) apply (flash_inv_pcs _ _ _ _ _ _ _ _ _ _ _ _ _ _ _ _ _ _ _ _ I); try apply I. by intros r n.
Qed.

Abbreviation task_step := (task_step esp_flash_write esp_flash_erase_region s).
Lemma inv_task a a' : flash_inv a -> task_step a a' -> flash_inv a'.
Proof using Type.
  intros I H. destruct H.
  - (* f_isr *) apply (flash_inv_pcs _ _ _ _ _ _ _ _ _ _ _ _ _ _ _ _ _ _ _ _ I); try apply I.
  - (* f_recv *) apply (flash_inv_pcs _ _ _ _ _ _ _ _ _ _ _ _ _ _ _ _ _ _ _ _ I); try apply I. intros _ _. left. by rewrite !orb_true_r.
  - (* f_take *) apply (flash_inv_pcs _ _ _ _ _ _ _ _ _ _ _ _ _ _ _ _ _ _ _ _ I); try apply I.
    + by intros _ [?|[?|?]].
    + intros r n E W. destruct (fi_sleep _ I r n E W) as [?|[?|?]]; [by left|by right; left|done].
  - (* f_load *) apply (flash_inv_pcs _ _ _ _ _ _ _ _ _ _ _ _ _ _ _ _ _ _ _ _ I); try apply I.
    + split; [apply I|by right].
    + intros N [?|[E|?]]; [done| |done]. by injection E.
    + intros r n E W. destruct (fi_sleep _ I r n E W) as [?|[?|?]]; [by left|by right; left|done].
  - (* f_args *) destruct (fi_task _ I) as [T Hc]. cbn in T, Hc. destruct (Z.eqb_spec cmd 0) as [->|N].
    + apply (flash_inv_pcs _ _ _ _ _ _ _ _ _ _ _ _ _ _ _ _ _ _ _ _ I); try apply I.
      * intros N _. apply (fi_kick _ I N). by right; left.
      * intros r n E W. destruct (fi_sleep _ I r n E W) as [?|[?|?]]; [by left|by right; left|done].
    + destruct Hc as [?|Hc]; [done|]. apply (flash_inv_pcs _ _ _ _ _ _ _ _ _ _ _ _ _ _ _ _ _ _ _ _ I); try apply I.
      * destruct T as [(Z & _)|(r & F)]; [by rewrite Z in Hc|]. exists r. split; [done|]. destruct F as (E & _ & _ & A1 & A2 & _). split_and!; congruence.
      * by intros _ [?|[?|?]].
      * intros r n E W. destruct (fi_sleep _ I r n E W) as [?|[?|?]]; [by left|by right; left|done].
  - (* f_op *) destruct I as [(r & F & -> & -> & ->) C Q R K L]. cbn in F, C, Q, R, K, L. destruct F as (E & -> & O & A).
    assert (D : Req (q_cmd r) (q_addr r) (q_len r) (load_bytes m ESP_SHM_FLASH_DATA (if q_cmd r =? ESP_SHM_FLASH_PROGRAM then q_len r else 0)) = r).
    { destruct O as (_ & _ & [(P & _)|[P Dn]]); destruct A as (_ & _ & A); rewrite P.
      - change (ESP_SHM_FLASH_PROGRAM =? ESP_SHM_FLASH_PROGRAM) with true. cbv iota. rewrite A by done. destruct r; cbn in *. by rewrite P.
      - change (ESP_SHM_FLASH_ERASE =? ESP_SHM_FLASH_PROGRAM) with false. cbv iota. change (load_bytes m ESP_SHM_FLASH_DATA 0) with (@nil Z).
        destruct r; cbn in *. by rewrite P, Dn. }
    assert (S1 : (if negb (flash_request_valid s (q_cmd r) (q_addr r) (q_len r)) then (c, ESP_ERR_INVALID_ARG)
        else flash_op esp_flash_write esp_flash_erase_region s m c (q_cmd r) (q_addr r) (q_len r)) = serve_one c r).
    { unfold FlashLink.serve_one, flash_op. destruct (negb _); [done|]. destruct (Z.eqb_spec (q_cmd r) ESP_SHM_FLASH_PROGRAM) as [P|]; [|done].
      by rewrite (proj2 (proj2 A)). }
    rewrite S1, D. pose proof (serve_all_snoc (map fst dn) chip0 r) as SA. rewrite Q in SA. destruct (serve_one c r) as [c' err].
    split; cbn [f_mem f_chip f_bell_fw f_rx f_kick f_bell_host f_woken f_lpc f_fpc f_issued f_done f_rets].
    + pose proof (req_cmd r O). split_and!; [lia|by rewrite map_app|]. by exists dn, r.
    + done.
    + rewrite !map_app. exact SA.
    + rewrite <- (app_nil_r (map fst dn ++ [r])). by apply rets_mono.
    + by intros _ [?|[?|?]].
    + intros r' n E' W. destruct (L r' n E' W) as [?|[?|?]]; [by left|by right; left|done].
  - (* f_status *) destruct I as [(N & E & dn' & r & D) C Q R K L]. cbn in N, E, D, C, Q, R, K, L.
    split; cbn [f_mem f_chip f_bell_fw f_rx f_kick f_bell_host f_woken f_lpc f_fpc f_issued f_done f_rets]; try done.
    + split_and!; [by rewrite word_cmd|done|]. intros d y Ed. rewrite D in Ed. apply app_inj_tail in Ed as [_ <-]. unfold m_status. apply mword_same.
    + destruct l; cbn [cmd_inv] in *; try done; intuition.
    + by intros _ [?|[?|?]].
    + intros r' n' E' W. destruct (L r' n' E' W) as [?|[?|?]]; [left; by rewrite word_cmd|by right; left|done].
  - (* f_clear *) destruct I as [(N & E & S0) C Q R K L]. cbn in N, E, S0, C, Q, R, K, L.
    split; cbn [f_mem f_chip f_bell_fw f_rx f_kick f_bell_host f_woken f_lpc f_fpc f_issued f_done f_rets]; try done.
    + left. split_and!; [by rewrite put_cmd|done|]. exact S0.
    + destruct l; cbn [cmd_inv] in *; try done; intuition.
    + intros Z. by rewrite put_cmd in Z.
    + intros r n _ _. by right; right.
  - (* f_bell *) apply (flash_inv_pcs _ _ _ _ _ _ _ _ _ _ _ _ _ _ _ _ _ _ _ _ I); try apply I.
    + intros N _. apply (fi_kick _ I N). by right; right.
    + intros r n _ _. by right; left.
Qed.

Abbreviation flash_reachable := (flash_reachable esp_flash_write esp_flash_erase_region s).
Abbreviation flash_internal := (flash_internal esp_flash_write esp_flash_erase_region s).
Lemma flash_inv_reachable m a : m_cmd m = 0 -> flash_reachable m chip0 a -> flash_inv a.
Proof using Type.
  intros Z H. induction H as [|a b _ I H].
  - split; cbn; try done; [|by intros ?..]. left. split_and!; [done|done|]. intros d y E. by destruct d.
  - destruct H as [[H|H]|[H|[H|H]]].
    + by apply (inv_cmd a).
    + by apply (inv_task a).
    + by apply (inv_flash_timeout a).
    + by apply (inv_flash_call a).
    + by apply (inv_flash_env a).
Qed.
(** Only the clock can go on: no command is at work. *)
Lemma flash_stuck a : flash_inv a -> (forall b, ~ flash_internal a b) ->
  f_lpc a = LIdle /\ f_fpc a = FSleep /\ m_cmd (f_mem a) = 0.
Proof using Type.
  intros I N. destruct a as [m c b x k h w l f iss dn rets].
  assert (b = false) as -> by (destruct b; [|done]; exfalso; eapply N; right; constructor).
  assert (x = false) as -> by (destruct x; [|done]; exfalso; eapply N; right; constructor).
  assert (h = false) as -> by (destruct h; [|done]; exfalso; eapply N; left; constructor).
  assert (f = FSleep) as -> by (destruct f; try done; exfalso; eapply N; right; by constructor).
  assert (k = false) as -> by (destruct k; [|done]; exfalso; eapply N; right; constructor).
  pose proof (fi_kick _ I) as K. pose proof (fi_sleep _ I) as L. cbn in K, L.
  destruct l as [| | | | | | | | |r n| |]; try (exfalso; eapply N; left; by constructor).
  - split_and!; [done|done|]. cbn. destruct (Z.eq_dec (m_cmd m) 0) as [|Z]; [done|]. destruct (K Z (or_introl eq_refl)) as [?|(?&?&?)]; done.
  - destruct w; [exfalso; eapply N; left; constructor|]. destruct (L r n eq_refl eq_refl) as [Z|[?|?]]; [|done..].
    destruct (K Z (or_introl eq_refl)) as [?|(?&?&?)]; done.
Qed.
End Invariant.

(** * Properties *)

(** C9: with any interleaving of the two harts, of the rings' traffic and of timeouts,
    the chip is what the commands of Linux make of it one after the other, each
    run exactly once and whole, but for the last one that may still wait: never
    a mix of two commands, and a command that timed out is not lost and not run
    twice.  What the calls return is true: 0 and -EIO give the result of their
    own command, -EBUSY is a command that never was in the mailbox. *)
Theorem flash_link_once esp_flash_write esp_flash_erase_region s m chip a :
  m_cmd m = 0 -> flash_reachable esp_flash_write esp_flash_erase_region s m chip a ->
  exists pend, (length pend <= 1)%nat /\ f_issued a = map fst (f_done a) ++ pend /\
    serve_all esp_flash_write esp_flash_erase_region s chip (map fst (f_done a)) = (f_chip a, map snd (f_done a)) /\
    Forall (ret_ok (f_issued a) (f_done a)) (f_rets a).
Proof.
  intros Z R. pose proof (flash_inv_reachable _ _ s chip m a Z R) as I. pose proof (fi_task _ _ _ _ _ I) as T.
  assert (exists pend, (length pend <= 1)%nat /\ f_issued a = map fst (f_done a) ++ pend) as (pend & L & E).
  { assert (X : quiet_box (f_mem a) (f_issued a) (f_done a) \/ (exists r, full_box (f_mem a) (f_issued a) (f_done a) r) ->
      exists pend, (length pend <= 1)%nat /\ f_issued a = map fst (f_done a) ++ pend).
    { intros [(_ & E & _)|(r & _ & E & _)]; [exists []|exists [r]]; rewrite ?app_nil_r; split; cbn; done || lia. }
    destruct (f_fpc a); cbn [task_inv] in T; try (by apply X).
    - by apply X, T.
    - destruct T as (r & F & _). apply X. right. by exists r.
    - exists []. rewrite app_nil_r. split; [cbn; lia|apply T].
    - exists []. rewrite app_nil_r. split; [cbn; lia|apply T]. }
  exists pend. split_and!; [done|done|apply I|apply I].
Qed.

(** C10: no wakeup of the mailbox is lost: when neither hart has a step left but the end of a
    wait by the clock, no call waits, the mailbox is free and every command was run. *)
Theorem flash_link_answers esp_flash_write esp_flash_erase_region s m chip a :
  m_cmd m = 0 -> flash_reachable esp_flash_write esp_flash_erase_region s m chip a ->
  (forall b, ~ flash_internal esp_flash_write esp_flash_erase_region s a b) ->
  f_lpc a = LIdle /\ m_cmd (f_mem a) = 0 /\ map fst (f_done a) = f_issued a.
Proof.
  intros Z R N. pose proof (flash_inv_reachable _ _ s chip m a Z R) as I. destruct (flash_stuck _ _ s chip a I N) as (L & F & C).
  split_and!; [done|done|]. destruct (task_quiet _ _ _ _ (fi_task _ _ _ _ _ I) C) as [(_ & E & _) _]. by symmetry.
Qed.

(** The mailbox as the sequential model of Flash.v has it. *)
Definition fl_of (w : fworld) (b h : bool) (l : lpc) (f : fpc) (iss : list req) (dn : list (req * Z)) (rets : list (option nat * Z)) : flink :=
  FLink (fmem w) (chip w) b false false h false l f iss dn rets.
(** The steps implement the code: a call of esp_shm_flash_cmd() is a run of the steps from its
    start to its return, with its memory, its chip and its result, be it served, late or busy. *)
Theorem flash_link_refines esp_flash_write esp_flash_erase_region s served w r iss dn rets ret w' :
  req_ok r -> esp_shm_flash_cmd esp_flash_write esp_flash_erase_region s served w (q_cmd r) (q_addr r) (q_data r) (q_len r) = (ret, w') ->
  exists b h k iss' dn', rtc (flash_step esp_flash_write esp_flash_erase_region s)
    (fl_of w false false (LStart r) FSleep iss dn rets) (fl_of w' b h LIdle FSleep (iss ++ iss') (dn ++ dn') (rets ++ [(k, ret)])).
Proof.
  intros O. unfold esp_shm_flash_cmd. pose proof (l_start (fmem w) (chip w) false false false false false FSleep iss dn rets r) as S0.
  fold (m_cmd (fmem w)). destruct (nz (m_cmd (fmem w))).
  { intros [= <- <-]. exists false, false, None, [], []. rewrite !app_nil_r. apply rtc_once. left; left. exact S0. }
  set (m1 := store32 (fmem w) _ _). set (m2 := store32 m1 _ _). set (m3 := if q_cmd r =? ESP_SHM_FLASH_PROGRAM then _ else m2). set (m4 := store32 m3 _ _).
  assert (Ec : mbox_read m4 ESP_SHM_FLASH_CMD_OFF = q_cmd r). { unfold m4. rewrite mbox_store_same. pose proof (req_cmd r O). apply u32_small. lia. }
  assert (Nz : nz (q_cmd r) = true). { apply nz_true. pose proof (req_cmd r O). lia. }
  assert (S1 : rtc (flash_step esp_flash_write esp_flash_erase_region s) (fl_of w false false (LStart r) FSleep iss dn rets)
    (FLink m4 (chip w) true false false false false (LPrep r (length iss)) FSleep (iss ++ [r]) dn rets)).
  { eapply rtc_l; [left; left; exact S0|]. eapply rtc_l; [left; left; apply l_addr|]. eapply rtc_l; [left; left; apply l_len|].
    eapply rtc_l; [left; left; apply l_data|]. eapply rtc_l; [left; left; apply l_cmd|]. eapply rtc_l; [left; left; apply l_ring|]. apply rtc_refl. }
  destruct served.
  - unfold flash_task, shm_flash_service. cbn [fmem chip]. rewrite Ec. rewrite (proj2 (Z.eqb_neq (q_cmd r) 0)) by (by apply nz_true).
    pose proof (f_op esp_flash_write esp_flash_erase_region s m4 (chip w) false false false false false (LPrep r (length iss)) (q_cmd r) (m_addr m4) (mb_len m4) (iss ++ [r]) dn rets) as S2.
    fold (m_addr m4) (mb_len m4). destruct (if negb (flash_request_valid s (q_cmd r) (m_addr m4) (mb_len m4)) then _ else _) as [c' err]. cbn [fmem chip].
    set (m5 := store32 m4 _ err). set (m6 := store32 m5 _ 0). intros H.
    assert (Z6 : mbox_read m6 ESP_SHM_FLASH_CMD_OFF = 0) by apply mbox_store_same. rewrite Z6 in H. change (nz 0) with false in H. cbv iota in H.
    do 5 eexists.
    assert (Hw : w' = FWorld m6 c' 1 1 /\ ret = if nz (m_status m6) then - EIO else 0).
    { unfold m_status. destruct (nz (mbox_read m6 ESP_SHM_FLASH_STATUS_OFF)); by injection H as <- <-. }
    destruct Hw as [-> ->]. etransitivity; [exact S1|].
    eapply rtc_l; [left; right; apply f_isr|]. eapply rtc_l; [left; right; apply f_recv|]. eapply rtc_l; [left; right; apply f_take|].
    eapply rtc_l; [left; right; apply f_load|]. eapply rtc_l; [left; right; apply f_args|].
    change (m_cmd m4) with (mbox_read m4 ESP_SHM_FLASH_CMD_OFF). rewrite Ec. rewrite (proj2 (Z.eqb_neq (q_cmd r) 0)) by (by apply nz_true).
    eapply rtc_l; [left; right; exact S2|]. eapply rtc_l; [left; right; apply f_status|]. eapply rtc_l; [left; right; apply f_clear|].
    eapply rtc_l; [left; right; apply f_bell|]. eapply rtc_l; [left; left; apply l_prep|]. eapply rtc_l; [left; left; apply l_check|].
    change (m_cmd (put_word (put_word m4 ESP_SHM_FLASH_STATUS_OFF err) ESP_SHM_FLASH_CMD_OFF 0)) with (mbox_read m6 ESP_SHM_FLASH_CMD_OFF). rewrite Z6.
    eapply rtc_l; [left; left; apply l_status|]. apply rtc_refl.
  - cbn [fmem]. rewrite Ec, Nz. intros [= <- <-]. exists true, false, (Some (length iss)), [r], []. rewrite app_nil_r.
    etransitivity; [exact S1|]. eapply rtc_l; [left; left; apply l_prep|]. eapply rtc_l; [left; left; apply l_check|].
    change (m_cmd m4) with (mbox_read m4 ESP_SHM_FLASH_CMD_OFF). rewrite Ec, Nz. eapply rtc_l; [right; left; apply ft_sleep|].
    eapply rtc_l; [left; left; apply l_last|]. change (m_cmd m4) with (mbox_read m4 ESP_SHM_FLASH_CMD_OFF). rewrite Ec, Nz. apply rtc_refl.
Qed.

(** * Witnesses: two bytes are programmed. *)

Definition two_bytes : req := Req ESP_SHM_FLASH_PROGRAM 0 2 [1; 2].
Lemma two_bytes_ok : req_ok two_bytes.
Proof. split_and!; try (cbn; lia). left. by split_and!. Qed.
Lemma fl_rtc_reachable fw fe s m chip a b : flash_reachable fw fe s m chip a -> rtc (flash_step fw fe s) a b -> flash_reachable fw fe s m chip b.
Proof. intros R H. induction H as [|a1 a2 a3 H1 H2 IH]; [done|]. apply IH. by apply fr_step with a1. Qed.
Definition tmem1 : mem := put_word (store_bytes (put_word (put_word (fun _ => 0) ESP_SHM_FLASH_ADDR_OFF 0) ESP_SHM_FLASH_LEN_OFF 2) ESP_SHM_FLASH_DATA [1; 2]) ESP_SHM_FLASH_CMD_OFF 2.
Definition tmem2 : mem := put_word (put_word tmem1 ESP_SHM_FLASH_STATUS_OFF 0) ESP_SHM_FLASH_CMD_OFF 0.
Definition two_done : flink :=
  FLink tmem2 (fst (ideal_write (fun _ => 90) [1; 2] 0x100000)) false false false false true LIdle FSleep [two_bytes] [(two_bytes, 0)] [(Some 0%nat, 0)].
Abbreviation flash_ok_steps := (flash_reachable ideal_write ideal_erase window1 (fun _ => 0) (fun _ => 90)).
Lemma two_done_reachable : flash_ok_steps two_done.
Proof.
  apply (fl_rtc_reachable _ _ _ _ _ (flash_init (fun _ => 0) (fun _ => 90))); [constructor|].
  eapply rtc_l; [right; right; left; apply fc_call, two_bytes_ok|].
  eapply rtc_l; [left; left; apply l_start|]. change (nz (m_cmd (fun _ => 0))) with false. cbv iota.
  eapply rtc_l; [left; left; apply l_addr|]. eapply rtc_l; [left; left; apply l_len|].
  eapply rtc_l; [left; left; apply l_data|]. eapply rtc_l; [left; left; apply l_cmd|].
  change (put_word (if q_cmd two_bytes =? ESP_SHM_FLASH_PROGRAM then _ else _) ESP_SHM_FLASH_CMD_OFF (q_cmd two_bytes)) with tmem1.
  eapply rtc_l; [left; left; apply l_ring|].
  eapply rtc_l; [left; right; apply f_isr|]. eapply rtc_l; [left; right; apply f_recv|]. eapply rtc_l; [left; right; apply f_take|].
  eapply rtc_l; [left; right; apply f_load|]. change (m_cmd tmem1) with 2. eapply rtc_l; [left; right; apply f_args|].
  change (2 =? 0) with false. change (m_addr tmem1) with 0. change (mb_len tmem1) with 2. cbv iota.
  eapply rtc_l; [left; right; apply f_op|]. change (negb (flash_request_valid window1 2 0 2)) with false. cbv iota.
  change (load_bytes tmem1 ESP_SHM_FLASH_DATA (if 2 =? ESP_SHM_FLASH_PROGRAM then 2 else 0)) with [1; 2].
  change (flash_op ideal_write ideal_erase window1 tmem1 (fun _ => 90) 2 0 2) with (fst (ideal_write (fun _ => 90) [1; 2] 0x100000), 0). cbv iota beta.
  eapply rtc_l; [left; right; apply f_status|]. eapply rtc_l; [left; right; apply f_clear|]. fold tmem2.
  eapply rtc_l; [left; right; apply f_bell|]. eapply rtc_l; [left; left; apply l_prep|]. eapply rtc_l; [left; left; apply l_check|].
  change (nz (m_cmd tmem2)) with false. cbv iota. eapply rtc_l; [left; left; apply l_status|]. change (nz (m_status tmem2)) with false. cbv iota.
  eapply rtc_l; [left; left; apply l_irq|]. apply rtc_refl.
Qed.
Lemma two_done_quiet : forall b, ~ flash_internal ideal_write ideal_erase window1 two_done b.
Proof. intros b [H|H]; inversion H. Qed.

Lemma flash_link_once_witness : Forall (ret_ok [two_bytes] [(two_bytes, 0)]) [(Some 0%nat, 0)].
Proof.
  destruct (flash_link_once ideal_write ideal_erase window1 (fun _ => 0) (fun _ => 90) two_done eq_refl two_done_reachable) as (pend & _ & _ & _ & R).
  exact R.
Defined.
Lemma flash_link_answers_witness : map fst (f_done two_done) = f_issued two_done /\ f_issued two_done = [two_bytes].
Proof.
  split; [|reflexivity].
  exact (proj2 (proj2 (flash_link_answers ideal_write ideal_erase window1 (fun _ => 0) (fun _ => 90) two_done eq_refl two_done_reachable two_done_quiet))).
Defined.
Lemma flash_link_refines_witness : exists b h k iss' dn',
  rtc (flash_step ideal_write ideal_erase window1) (fl_of fworld0 false false (LStart two_bytes) FSleep [] [] [])
    (fl_of (esp_shm_flash_cmd ideal_write ideal_erase window1 true fworld0 2 0 [1; 2] 2).2 b h LIdle FSleep iss' dn' [(k, 0)]).
Proof.
  destruct (esp_shm_flash_cmd ideal_write ideal_erase window1 true fworld0 2 0 [1; 2] 2) as [ret w'] eqn:E.
  assert (ret = 0) as -> by (apply (f_equal fst) in E; vm_compute in E; by symmetry).
  exact (flash_link_refines ideal_write ideal_erase window1 true fworld0 two_bytes [] [] [] 0 w' two_bytes_ok E).
Defined.
