(* ===== verification/Api.v ===== *)
(** The ESPHome native API of ble-ha: tools/ble-ha/api.c, and struct adv of
    ble-ha.h.

    A function that writes to a buffer gives the bytes that it writes; its
    result is their number.  A function that reads one gives [None] for a read
    outside of it. *)

From Stdlib Require Import Ascii String.
From S2P Require Import Prelude.

(** The bytes of a C string, without the terminator. *)
Definition cstr (s : String.string) : list Z :=
  (fun c => Z.of_N (Ascii.N_of_ascii c)) <$> String.list_ascii_of_string s.

(** * ble-ha.h *)

Definition ADV_MAX : Z := 31.
Definition ADV_BATCH : Z := 16.
Record adv := Adv { addr : Z; addr_type : Z; rssi : Z; data : list Z }.
Definition adv_len (a : adv) : Z := zlen (data a).

(** A null pointer is [None]. *)
Record api_info := ApiInfo { i_name : option (list Z); i_mac : option (list Z);
  i_bt_mac : option (list Z); i_model : option (list Z) }.

(** * api.c *)

Definition API_MAJOR : Z := 1.
Definition API_MINOR : Z := 10.
Definition PROXY_FEATURES : Z := Z.lor (Z.shiftl 1 0) (Z.shiftl 1 5).

(** Ten rounds are enough for 64 bits ([pb_varint_fuel]). *)
Fixpoint pb_varint_loop (fuel : nat) (v : Z) : list Z :=
  match fuel with
  | O => []
  | S fuel =>
      let b := Z.lor (Z.land v 0x7f) (if v >? 0x7f then 0x80 else 0) in
      let v := Z.shiftr v 7 in
      b :: if v =? 0 then [] else pb_varint_loop fuel v
  end.
Definition pb_varint (v : Z) : list Z := pb_varint_loop 10 v.

Definition pb_key (field wire : Z) : list Z := pb_varint (Z.lor (u64 (Z.shiftl field 3)) wire).
Definition pb_uint (field v : Z) : list Z :=
  if v =? 0 then [] else pb_key field 0 ++ pb_varint v.
Definition pb_bytes (field : Z) (data : list Z) : list Z :=
  if zlen data =? 0 then [] else pb_key field 2 ++ pb_varint (zlen data) ++ data.
Definition pb_str (field : Z) (s : option (list Z)) : list Z :=
  match s with Some s => pb_bytes field s | None => [] end.

Definition api_frame (type : Z) (msg : list Z) : list Z :=
  [0] ++ pb_varint (zlen msg) ++ pb_varint type ++ msg.

Definition api_hello (info : api_info) : list Z :=
  pb_uint 1 API_MAJOR ++ pb_uint 2 API_MINOR ++
  pb_str 3 (Some (cstr "ble-ha (ESP32-S31 Linux)"%string)) ++ pb_str 4 (i_name info).

Definition api_device_info (info : api_info) : list Z :=
  pb_str 2 (i_name info) ++ pb_str 3 (i_mac info) ++ pb_str 4 (Some (cstr "2026.10.0"%string)) ++
  pb_str 6 (i_model info) ++ pb_str 8 (Some (cstr "esp32-s31-linux.ble-ha"%string)) ++
  pb_str 9 (Some (cstr "1"%string)) ++ pb_str 12 (Some (cstr "Espressif"%string)) ++
  pb_str 13 (i_name info) ++ pb_uint 15 PROXY_FEATURES ++ pb_str 18 (i_bt_mac info).

(** The zigzag of an [int8_t]. *)
Definition zigzag (rssi : Z) : Z := Z.lxor (u32 (Z.shiftl (u32 rssi) 1)) (u32 (Z.shiftr rssi 31)).
(** One round of the loop: the bytes of [sub], then its key and length. *)
Definition adv_sub (a : adv) : list Z :=
  pb_uint 1 (addr a) ++ pb_uint 2 (zigzag (rssi a)) ++ pb_uint 3 (addr_type a) ++ pb_bytes 4 (data a).
Definition adv_entry (a : adv) : list Z :=
  pb_key 1 2 ++ pb_varint (zlen (adv_sub a)) ++ adv_sub a.
Definition batch_bytes (ads : list adv) : list Z := mjoin (adv_entry <$> ads).
(** [sub] has 64 bytes. *)
Fixpoint api_adv_batch (ads : list adv) : option (list Z) :=
  match ads with
  | [] => Some []
  | a :: ads =>
      sub ← in_array 64 (adv_sub a);
      rest ← api_adv_batch ads;
      Some (pb_key 1 2 ++ pb_varint (zlen sub) ++ sub ++ rest)
  end.

(** The result, [*pos] and [*v]; [rounds] are left before shift 35. *)
Fixpoint read_varint_loop (rounds : nat) (p : list Z) (pos shift v : Z) : option (Z * Z * Z) :=
  match rounds with
  | O => Some (-1, pos, v)
  | S rounds =>
      if pos >=? zlen p then Some (0, pos, v)
      else
        b ← rd p pos;
        let v := Z.lor v (u32 (Z.shiftl (Z.land b 0x7f) shift)) in
        if Z.land b 0x80 =? 0 then Some (1, pos + 1, v)
        else read_varint_loop rounds p (pos + 1) (shift + 7) v
  end.
Definition read_varint (p : list Z) (pos : Z) : option (Z * Z * Z) := read_varint_loop 5 p pos 0 0.

(** The result with the type and the message when it is positive. *)
Definition api_next (buf : list Z) : option (Z * option (Z * list Z)) :=
  if zlen buf =? 0 then Some (0, None)
  else
    b0 ← rd buf 0;
    if negb (b0 =? 0) then Some (-1, None)
    else
      '(r, pos, n) ← read_varint buf 1;
      if r <=? 0 then Some (r, None)
      else
        '(r, pos, type) ← read_varint buf pos;
        if r <=? 0 then Some (r, None)
        else if n >? 4096 then Some (-1, None)
        else if pos + n >? zlen buf then Some (0, None)
        else
          msg ← slice buf pos n;
          Some (pos + n, Some (type, msg)).

(** * Varints *)

(** The bytes of a varint, as numbers. *)
Lemma varint_byte v : 0 <= v ->
  Z.lor (Z.land v 0x7f) (if v >? 0x7f then 0x80 else 0) = v mod 128 + (if v >? 127 then 128 else 0).
Proof.
  intros Hv. change 0x7f with 127. rewrite land_127. pose proof (Z.mod_pos_bound v 128 ltac:(lia)).
  destruct (v >? 127); [|by rewrite Z.lor_0_r, Z.add_0_r].
  change 0x80 with (Z.shiftl 1 7). rewrite (lor_add _ 1 7 128) by (done || lia). done.
Qed.

Lemma varint_byte_range v : 0 <= v ->
  0 <= v mod 128 + (if v >? 127 then 128 else 0) < 256 /\
  (Z.land (v mod 128 + (if v >? 127 then 128 else 0)) 128 =? 0) = negb (v >? 127) /\
  Z.land (v mod 128 + (if v >? 127 then 128 else 0)) 127 = v mod 128.
Proof.
  intros Hv. pose proof (Z.mod_pos_bound v 128 ltac:(lia)).
  rewrite land_127. destruct (v >? 127); cbn [negb]; rewrite land_128_eqb by lia.
  - split_and!; [lia|lia|apply Z.ltb_ge; lia|zlia].
  - split_and!; [lia|lia|apply Z.ltb_lt; lia|]. by rewrite Z.add_0_r, Z.mod_mod by lia.
Qed.

Lemma shiftr_7 v : Z.shiftr v 7 = v / 128.
Proof. by rewrite Z.shiftr_div_pow2 by lia. Qed.

Lemma varint_step fuel v : 0 <= v ->
  pb_varint_loop (S fuel) v =
    (v mod 128 + (if v >? 127 then 128 else 0)) ::
      (if v >? 127 then pb_varint_loop fuel (v / 128) else []).
Proof.
  intros Hv. cbn [pb_varint_loop]. rewrite varint_byte, shiftr_7 by done. f_equal.
  destruct (Z.gtb_spec v 127); destruct (Z.eqb_spec (v / 128) 0); try done; zlia.
Qed.

(** [k] groups of 7 bits give at most [k] bytes. *)
Lemma varint_len fuel : forall v (k : nat), 0 <= v < 128 ^ Z.of_nat k -> (0 < k)%nat ->
  zlen (pb_varint_loop fuel v) <= Z.of_nat k.
Proof.
  induction fuel as [|fuel IH]; intros v k Hv Hk; [cbn [pb_varint_loop]; rewrite zlen_nil; lia|].
  rewrite varint_step by lia. rewrite zlen_cons.
  destruct (Z.gtb_spec v 127); [|rewrite zlen_nil; lia].
  destruct k as [|k]; [lia|]. rewrite Nat2Z.inj_succ, Z.pow_succ_r in Hv by lia.
  destruct k as [|k]; [cbn in Hv; lia|].
  specialize (IH (v / 128) (S k)). rewrite Nat2Z.inj_succ in *.
  assert (0 <= v / 128 < 128 ^ Z.succ (Z.of_nat k)) by (split; [apply Z.div_pos; lia|apply Z.div_lt_upper_bound; lia]).
  lia.
Qed.
Lemma varint_len_pos v : 0 <= v -> 1 <= zlen (pb_varint v).
Proof.
  intros. unfold pb_varint. rewrite varint_step by done. rewrite zlen_cons.
  pose proof (zlen_nonneg (if v >? 127 then pb_varint_loop 9 (v / 128) else [])). lia.
Qed.
Lemma varint_1 v : 0 <= v < 128 -> zlen (pb_varint v) = 1.
Proof.
  intros. pose proof (varint_len 10 v 1 ltac:(cbn; lia) ltac:(lia)).
  pose proof (varint_len_pos v ltac:(lia)). unfold pb_varint in *. lia.
Qed.
Lemma varint_bytes v : 0 <= v -> bytes (pb_varint v).
Proof.
  unfold pb_varint. generalize 10%nat. intros fuel. revert v.
  induction fuel as [|fuel IH]; intros v Hv; [constructor|].
  rewrite varint_step by done. constructor; [by apply varint_byte_range|].
  destruct (v >? 127); [|constructor]. apply IH. zlia.
Qed.

(** One round of the reader on a byte that the writer made. *)
Lemma read_varint_step rounds pre b p shift v :
  0 <= b < 256 ->
  read_varint_loop (S rounds) (pre ++ b :: p) (zlen pre) shift v =
    let v := Z.lor v (u32 (Z.shiftl (Z.land b 0x7f) shift)) in
    if Z.land b 0x80 =? 0 then Some (1, zlen pre + 1, v)
    else read_varint_loop rounds (pre ++ b :: p) (zlen pre + 1) (shift + 7) v.
Proof.
  intros Hb. cbn [read_varint_loop]. pose proof (zlen_nonneg pre). pose proof (zlen_nonneg p).
  rewrite Z.geb_leb, (proj2 (Z.leb_gt _ _)) by llia.
  rewrite rd_Some by llia. cbn [mbind option_bind].
  rewrite get_app_r, Z.sub_diag by lia. done.
Qed.

Lemma read_result (x x' y y' : Z) : x = x' -> y = y' -> Some (1, x, y) = Some (1, x', y').
Proof. by intros -> ->. Qed.

(** A 32-bit number comes back, with the position after it. *)
Lemma read_varint_loop_enc fuel : forall rounds pre rest v shift acc m,
  0 <= v < 128 ^ Z.of_nat fuel -> (0 < fuel <= rounds)%nat ->
  0 <= shift -> 2 ^ shift = m -> v * m < 4294967296 -> 0 <= acc < m ->
  read_varint_loop rounds (pre ++ pb_varint_loop fuel v ++ rest) (zlen pre) shift acc =
    Some (1, zlen pre + zlen (pb_varint_loop fuel v), acc + v * m).
Proof.
  induction fuel as [|fuel IH]; intros rounds pre rest v shift acc m Hv Hf Hs Hm Hb Ha; [lia|].
  destruct rounds as [|rounds]; [lia|]. rewrite varint_step by lia.
  destruct (varint_byte_range v ltac:(lia)) as (B1 & B2 & B3).
  set (b := v mod 128 + _) in *. rewrite <- app_comm_cons, read_varint_step by done. cbv zeta.
  change 0x7f with 127. change 0x80 with 128. rewrite B2, B3.
  pose proof (Z.mod_pos_bound v 128 ltac:(lia)).
  assert (0 < m) by (rewrite <- Hm; apply Z.pow_pos_nonneg; lia).
  rewrite u32_small, (lor_add acc _ shift m) by
    (try done; rewrite Z.shiftl_mul_pow2, Hm by done; pose proof (Z.mod_le v 128); nia).
  destruct (Z.gtb_spec v 127) as [G|G]; cbn [negb].
  - rewrite (cons_middle b), app_assoc.
    replace (zlen pre + 1) with (zlen (pre ++ [b])) by llia.
    assert (0 < v / 128) by zlia.
    destruct fuel as [|fuel]; [cbn in Hv; lia|].
    rewrite (IH rounds (pre ++ [b]) rest (v / 128) (shift + 7) (acc + v mod 128 * m) (m * 128)).
    + apply read_result; [rewrite zlen_cons; llia|]. pose proof (Z.div_mod v 128). nia.
    + split; [lia|]. rewrite Nat2Z.inj_succ, Z.pow_succ_r in Hv by lia.
      apply Z.div_lt_upper_bound; lia.
    + lia.
    + lia.
    + rewrite Z.pow_add_r, Hm by lia. done.
    + pose proof (Z.mul_div_le v 128). nia.
    + nia.
  - apply read_result; [rewrite zlen_cons; llia|]. rewrite Z.mod_small by lia. done.
Qed.

Lemma varint_fuel fuel : forall v k, (0 < fuel)%nat -> 0 <= v < 128 ^ Z.of_nat fuel ->
  pb_varint_loop (fuel + k) v = pb_varint_loop fuel v.
Proof.
  induction fuel as [|fuel IH]; intros v k Hf Hv; [lia|].
  cbn [Nat.add]. rewrite !varint_step by lia. f_equal.
  destruct (Z.gtb_spec v 127); [|done]. apply IH.
  { destruct fuel; [cbn in Hv|]; lia. }
  rewrite Nat2Z.inj_succ, Z.pow_succ_r in Hv by lia.
  split; [apply Z.div_pos; lia|apply Z.div_lt_upper_bound; lia].
Qed.

Lemma read_varint_enc pre rest v :
  0 <= v < 4294967296 ->
  read_varint (pre ++ pb_varint v ++ rest) (zlen pre) =
    Some (1, zlen pre + zlen (pb_varint v), v).
Proof.
  intros Hv. unfold read_varint, pb_varint.
  change 10%nat with (5 + 5)%nat. rewrite varint_fuel by (cbn; lia).
  rewrite (read_varint_loop_enc 5 5 pre rest v 0 0 1) by (cbn; lia).
  apply read_result; lia.
Qed.

(** A varint that is cut off is not complete. *)
Lemma read_varint_short fuel : forall rounds pre v shift acc k,
  0 <= v -> 0 <= k < zlen (pb_varint_loop fuel v) -> zlen (pb_varint_loop fuel v) <= Z.of_nat rounds ->
  exists pos v', read_varint_loop rounds (pre ++ ztake k (pb_varint_loop fuel v)) (zlen pre) shift acc =
    Some (0, pos, v').
Proof.
  induction fuel as [|fuel IH]; intros rounds pre v shift acc k Hv Hk Hr.
  { unfold zlen in Hk. cbn in Hk. lia. }
  pose proof (varint_step fuel v Hv) as E. rewrite E in Hk, Hr |- *. clear E. rewrite zlen_cons in Hk, Hr.
  destruct rounds as [|rounds]; [pose proof (zlen_nonneg (if v >? 127 then pb_varint_loop fuel (v / 128) else [])); lia|].
  destruct (varint_byte_range v Hv) as (B1 & B2 & B3). set (b := v mod 128 + _) in *.
  destruct (decide (k = 0)) as [->|].
  { rewrite ztake_0, app_nil_r. cbn [read_varint_loop].
    rewrite Z.geb_leb, (proj2 (Z.leb_le _ _)) by lia. by eexists _, _. }
  rewrite ztake_S, read_varint_step by lia. cbv zeta. change 0x80 with 128. rewrite B2.
  destruct (v >? 127) eqn:G; cbv iota in Hk, Hr; cbn [negb];
    [|change (zlen []) with 0 in Hk; lia].
  rewrite (cons_middle b), app_assoc. replace (zlen pre + 1) with (zlen (pre ++ [b])) by llia.
  apply IH; [apply Z.div_pos; lia|lia|lia].
Qed.

(** The reader stays inside of the buffer. *)
Lemma read_varint_safe rounds : forall p pos shift acc,
  bytes p -> 0 <= pos <= zlen p -> 0 <= acc < 4294967296 ->
  exists r pos' v, read_varint_loop rounds p pos shift acc = Some (r, pos', v) /\
    -1 <= r <= 1 /\ pos <= pos' <= zlen p /\ pos' <= pos + Z.of_nat rounds /\ 0 <= v < 4294967296.
Proof.
  induction rounds as [|rounds IH]; intros p pos shift acc Hb Hp Ha; cbn [read_varint_loop].
  { exists (-1), pos, acc. split_and!; done || lia. }
  destruct (Z.geb_spec pos (zlen p)).
  { exists 0, pos, acc. split_and!; done || lia. }
  rewrite rd_Some by lia. cbn [mbind option_bind].
  set (v := Z.lor acc _). assert (0 <= v < 4294967296) by (apply lor_u32; [lia|apply u32_range]).
  destruct (_ =? 0).
  - exists 1, (pos + 1), v. split_and!; done || lia.
  - destruct (IH p (pos + 1) (shift + 7) v Hb ltac:(lia) ltac:(lia)) as (r & pos' & v' & E & ?).
    exists r, pos', v'. split; [done|]. lia.
Qed.

(** * Frames *)

Lemma api_frame_len type msg :
  zlen (api_frame type msg) = 1 + zlen (pb_varint (zlen msg)) + zlen (pb_varint type) + zlen msg.
Proof. unfold api_frame. llia. Qed.

Lemma api_next_frame type msg rest :
  0 <= type < 4294967296 -> zlen msg <= 4096 ->
  api_next (api_frame type msg ++ rest) = Some (zlen (api_frame type msg), Some (type, msg)).
Proof.
  intros Ht Hm. pose proof (zlen_nonneg msg). pose proof (zlen_nonneg rest).
  pose proof (zlen_nonneg (pb_varint (zlen msg))). pose proof (zlen_nonneg (pb_varint type)).
  unfold api_next. rewrite zlen_app, api_frame_len.
  rewrite (proj2 (Z.eqb_neq _ _)) by lia.
  rewrite rd_Some by (rewrite zlen_app, api_frame_len; lia). cbn [mbind option_bind].
  unfold api_frame. cbn [app]. rewrite get_cons_0. cbn [Z.eqb negb].
  rewrite <- !app_assoc.
  pose proof (read_varint_enc [0] (pb_varint type ++ msg ++ rest) (zlen msg) ltac:(lia)) as E1.
  cbn [app] in E1. change (zlen [0]) with 1 in E1. rewrite E1. cbn [mbind option_bind].
  change (1 <=? 0) with false. cbv iota.
  pose proof (read_varint_enc (0 :: pb_varint (zlen msg)) (msg ++ rest) type Ht) as E2.
  cbn [app] in E2. rewrite zlen_cons in E2. rewrite E2. cbn [mbind option_bind].
  change (1 <=? 0) with false. cbv iota.
  rewrite Z.gtb_ltb, Z.gtb_ltb, !(proj2 (Z.ltb_ge _ _)) by lia.
  rewrite slice_Some by (try lia; rewrite zlen_cons, !zlen_app; lia). cbn [mbind option_bind].
  f_equal. f_equal. f_equal. f_equal.
  rewrite zdrop_S by lia.
  replace (1 + zlen (pb_varint (zlen msg)) + zlen (pb_varint type) - 1)
    with (zlen (pb_varint (zlen msg) ++ pb_varint type)) by llia.
  rewrite app_assoc, zdrop_app_len by done. by apply ztake_app_len.
Qed.

Lemma api_next_short type msg k :
  0 <= type < 4294967296 -> zlen msg <= 4096 -> 0 <= k < zlen (api_frame type msg) ->
  api_next (ztake k (api_frame type msg)) = Some (0, None).
Proof.
  intros Ht Hm Hk. rewrite api_frame_len in Hk. pose proof (zlen_nonneg msg) as Hm0.
  assert (zlen (ztake k (api_frame type msg)) = k) as Lk
    by (rewrite zlen_ztake by lia; rewrite api_frame_len; lia).
  unfold api_next. rewrite Lk. destruct (Z.eqb_spec k 0) as [|Hk0]; [done|].
  rewrite rd_Some by lia. cbn [mbind option_bind]. rewrite get_ztake by lia.
  unfold api_frame in *. cbn [app] in *. rewrite get_cons_0. cbn [Z.eqb negb].
  rewrite ztake_S in * by lia.
  set (V1 := pb_varint (zlen msg)) in *. set (V2 := pb_varint type) in *.
  assert (zlen V1 <= 5) as L1 by (apply (varint_len 10 _ 5); cbn; lia).
  assert (zlen V2 <= 5) as L2 by (apply (varint_len 10 _ 5); cbn; lia).
  destruct (decide (k - 1 < zlen V1)) as [K1|K1].
  { rewrite ztake_app_le by lia.
    destruct (read_varint_short 10 5 [0] (zlen msg) 0 0 (k - 1) Hm0) as (pos & v & E);
      [fold (pb_varint (zlen msg)); fold V1; lia|fold (pb_varint (zlen msg)); fold V1; lia|].
    fold (pb_varint (zlen msg)) in E. fold V1 in E. unfold read_varint. cbn [app] in E.
    change (zlen [0]) with 1 in E. rewrite E. done. }
  rewrite ztake_app_ge by lia. pose proof (read_varint_enc [0] (ztake (k - 1 - zlen V1) (V2 ++ msg))
    (zlen msg) ltac:(lia)) as E1. fold V1 in E1. cbn [app] in E1. change (zlen [0]) with 1 in E1.
  rewrite E1. cbn [mbind option_bind]. change (1 <=? 0) with false. cbv iota.
  destruct (decide (k - 1 - zlen V1 < zlen V2)) as [K2|K2].
  { rewrite ztake_app_le by lia.
    destruct (read_varint_short 10 5 (0 :: V1) type 0 0 (k - 1 - zlen V1)) as (pos & v & E);
      [lia|fold (pb_varint type); fold V2; lia|fold (pb_varint type); fold V2; lia|].
    fold (pb_varint type) in E. fold V2 in E. unfold read_varint. cbn [app] in E.
    rewrite zlen_cons in E. rewrite E. done. }
  rewrite ztake_app_ge by lia.
  pose proof (read_varint_enc (0 :: V1) (ztake (k - 1 - zlen V1 - zlen V2) msg) type Ht) as E2.
  fold V2 in E2. cbn [app] in E2. rewrite zlen_cons in E2. rewrite E2. cbn [mbind option_bind].
  change (1 <=? 0) with false. cbv iota.
  rewrite Z.gtb_ltb, (proj2 (Z.ltb_ge _ _)) by lia. rewrite Z.gtb_ltb, (proj2 (Z.ltb_lt _ _)) by lia.
  done.
Qed.

(** Whatever the client sends. *)
Lemma api_next_any buf : bytes buf ->
  exists r m, api_next buf = Some (r, m) /\
    match m with
    | None => -1 <= r <= 0
    | Some (type, msg) =>
        exists hdr rest, buf = hdr ++ msg ++ rest /\ r = zlen hdr + zlen msg /\
          3 <= zlen hdr <= 11 /\ zlen msg <= 4096 /\ 0 <= type < 4294967296
    end.
Proof.
  intros Hb. unfold api_next. destruct (Z.eqb_spec (zlen buf) 0) as [|H0]; [by exists 0, None|].
  pose proof (zlen_nonneg buf). rewrite rd_Some by lia. cbn [mbind option_bind].
  destruct (get buf 0 =? 0); cbn [negb]; [|by exists (-1), None].
  destruct (read_varint_safe 5 buf 1 0 0 Hb ltac:(lia) ltac:(lia)) as (r & p & n & E & R1 & P1 & P2 & N).
  unfold read_varint. rewrite E. cbn [mbind option_bind].
  destruct (Z.leb_spec r 0); [exists r, None; split; [done|lia]|].
  destruct (read_varint_safe 5 buf p 0 0 Hb ltac:(lia) ltac:(lia)) as (r2 & p2 & t & E2 & R2 & P3 & P4 & T).
  rewrite E2. cbn [mbind option_bind].
  destruct (Z.leb_spec r2 0); [exists r2, None; split; [done|lia]|].
  destruct (Z.gtb_spec n 4096); [by exists (-1), None|].
  destruct (Z.gtb_spec (p2 + n) (zlen buf)); [by exists 0, None|].
  rewrite slice_Some by lia. cbn [mbind option_bind].
  eexists _, _. split; [done|]. cbn beta iota.
  exists (ztake p2 buf), (zdrop n (zdrop p2 buf)).
  rewrite !ztake_zdrop. rewrite !zlen_ztake, zlen_zdrop by lia.
  split_and!; [done|lia| |lia|lia..].
  (* each varint is at least one byte *)
  assert (forall p0 p1 v, read_varint_loop 5 buf p0 0 0 = Some (1, p1, v) -> p0 + 1 <= p1) as X.
  { intros p0 p1 v H'. assert (forall rounds q sh acc, read_varint_loop rounds buf q sh acc = Some (1, p1, v) -> q + 1 <= p1) as Y.
    { induction rounds as [|rounds IH]; intros q sh acc; cbn [read_varint_loop]; [done|].
      destruct (q >=? zlen buf); [done|]. destruct (rd buf q) as [b|]; [|done]. cbn [mbind option_bind].
      destruct (_ =? 0); [intros [= <- _]; lia|]. intros Hq%IH. lia. }
    by apply (Y 5%nat _ 0 0). }
  assert (r = 1) as -> by lia. assert (r2 = 1) as -> by lia.
  apply X in E. apply X in E2. lia.
Qed.

(** * Lengths of the messages *)

Lemma pb_key_val f w : 0 <= f < 2048 -> 0 <= w < 8 -> pb_key f w = pb_varint (w + f * 8).
Proof.
  intros Hf Hw. unfold pb_key. rewrite u64_small by (rewrite Z.shiftl_mul_pow2 by lia; lia).
  by rewrite Z.lor_comm, (lor_add w f 3 8) by done.
Qed.
Lemma pb_key_len f w : 0 <= f < 16 -> 0 <= w < 8 -> zlen (pb_key f w) = 1.
Proof.
  intros Hf Hw. rewrite pb_key_val by lia. apply varint_1. lia.
Qed.
Lemma pb_key_len2 f w : 16 <= f < 2048 -> 0 <= w < 8 -> zlen (pb_key f w) <= 2.
Proof.
  intros Hf Hw. rewrite pb_key_val by lia. apply (varint_len 10 _ 2); cbn; lia.
Qed.
Lemma pb_uint_len f v (k : nat) :
  0 <= f < 16 -> 0 <= v < 128 ^ Z.of_nat k -> (0 < k)%nat -> zlen (pb_uint f v) <= 1 + Z.of_nat k.
Proof.
  intros Hf Hv Hk. unfold pb_uint. destruct (v =? 0); [unfold zlen; cbn; lia|].
  rewrite zlen_app, pb_key_len by lia. pose proof (varint_len 10 v k Hv Hk). unfold pb_varint. lia.
Qed.
Lemma pb_bytes_len f d :
  0 <= f < 16 -> zlen d < 128 -> zlen (pb_bytes f d) <= 2 + zlen d.
Proof.
  intros Hf Hd. unfold pb_bytes. pose proof (zlen_nonneg d).
  destruct (zlen d =? 0); [unfold zlen at 1; cbn; lia|].
  rewrite !zlen_app, pb_key_len, varint_1 by lia. lia.
Qed.
Lemma pb_bytes_len2 f d :
  16 <= f < 2048 -> zlen d < 128 -> zlen (pb_bytes f d) <= 3 + zlen d.
Proof.
  intros Hf Hd. unfold pb_bytes. pose proof (zlen_nonneg d).
  destruct (zlen d =? 0); [unfold zlen at 1; cbn; lia|].
  pose proof (pb_key_len2 f 2 Hf ltac:(lia)). rewrite !zlen_app, varint_1 by lia. lia.
Qed.

(** A string of at most [n] bytes, or none. *)
Definition str_le (s : option (list Z)) (n : Z) : Prop :=
  match s with Some s => zlen s <= n | None => True end.
Lemma pb_str_len f s n :
  0 <= f < 16 -> 0 <= n < 128 -> str_le s n -> zlen (pb_str f s) <= 2 + n.
Proof.
  intros Hf Hn Hs. destruct s as [s|]; [|unfold zlen; cbn; lia]. cbn in Hs.
  pose proof (pb_bytes_len f s Hf ltac:(lia)). cbn [pb_str]. lia.
Qed.

(** What ble-ha fills in: buffers of 64 and 18 bytes with their terminators. *)
Definition info_ok (i : api_info) : Prop :=
  str_le (i_name i) 63 /\ str_le (i_mac i) 17 /\ str_le (i_bt_mac i) 17 /\ str_le (i_model i) 63.

Lemma api_hello_len i : info_ok i -> zlen (api_hello i) <= 95.
Proof.
  intros (Hn & _). unfold api_hello. rewrite !zlen_app.
  pose proof (pb_str_len 4 (i_name i) 63 ltac:(lia) ltac:(lia) Hn).
  change (zlen (pb_uint 1 API_MAJOR)) with 2. change (zlen (pb_uint 2 API_MINOR)) with 2.
  change (zlen (pb_str 3 (Some (cstr "ble-ha (ESP32-S31 Linux)"%string)))) with 26. lia.
Qed.
Lemma api_device_info_len i : info_ok i -> zlen (api_device_info i) <= 286.
Proof.
  intros (Hn & Hm & Hb & Ho). unfold api_device_info. rewrite !zlen_app.
  pose proof (pb_str_len 2 (i_name i) 63 ltac:(lia) ltac:(lia) Hn).
  pose proof (pb_str_len 13 (i_name i) 63 ltac:(lia) ltac:(lia) Hn).
  pose proof (pb_str_len 3 (i_mac i) 17 ltac:(lia) ltac:(lia) Hm).
  pose proof (pb_str_len 6 (i_model i) 63 ltac:(lia) ltac:(lia) Ho).
  assert (zlen (pb_str 18 (i_bt_mac i)) <= 20).
  { destruct (i_bt_mac i) as [b|]; [|unfold zlen; cbn; lia]. cbn in Hb.
    pose proof (pb_bytes_len2 18 b ltac:(lia) ltac:(lia)). cbn [pb_str]. lia. }
  change (zlen (pb_str 4 _)) with 11. change (zlen (pb_str 8 _)) with 24.
  change (zlen (pb_str 9 _)) with 3. change (zlen (pb_str 12 _)) with 11.
  change (zlen (pb_uint 15 _)) with 2. lia.
Qed.

(** ** The batch of advertisements *)

(** What hci_parse_adv_reports() gives: any byte as the address type. *)
Definition adv_ok (a : adv) : Prop :=
  0 <= addr a < 281474976710656 /\ is_byte (addr_type a) /\ -128 <= rssi a < 128 /\
  bytes (data a) /\ adv_len a <= ADV_MAX.

Lemma zigzag_range r : -128 <= r < 128 -> 0 <= zigzag r < 256.
Proof.
  intros Hr. assert (forallb (fun n => let r := Z.of_nat n - 128 in
    (0 <=? zigzag r) && (zigzag r <? 256)) (seq 0 256) = true) as H by (vm_compute; reflexivity).
  rewrite forallb_forall in H. specialize (H (Z.to_nat (r + 128))).
  cbv zeta in H. rewrite Z2Nat.id in H by lia. replace (r + 128 - 128) with r in H by lia.
  specialize (H ltac:(apply in_seq; lia)). bool_prop. lia.
Qed.

Lemma adv_sub_len a : adv_ok a ->
  zlen (adv_sub a) <= (if addr_type a <? 128 then 46 else 47).
Proof.
  intros (Ha & Ht & Hr & Hb & Hl). unfold adv_sub, adv_len, ADV_MAX in *. rewrite !zlen_app.
  pose proof (pb_uint_len 1 (addr a) 7 ltac:(lia) ltac:(cbn; lia) ltac:(lia)).
  pose proof (pb_uint_len 2 (zigzag (rssi a)) 2 ltac:(lia)
    ltac:(pose proof (zigzag_range (rssi a) Hr); cbn; lia) ltac:(lia)).
  pose proof (pb_bytes_len 4 (data a) ltac:(lia) ltac:(lia)).
  unfold is_byte in Ht. destruct (Z.ltb_spec (addr_type a) 128).
  - pose proof (pb_uint_len 3 (addr_type a) 1 ltac:(lia) ltac:(cbn; lia) ltac:(lia)). lia.
  - pose proof (pb_uint_len 3 (addr_type a) 2 ltac:(lia) ltac:(cbn; lia) ltac:(lia)). lia.
Qed.
Lemma adv_entry_len a : adv_ok a ->
  zlen (adv_entry a) <= (if addr_type a <? 128 then 48 else 49).
Proof.
  intros Ha. pose proof (adv_sub_len a Ha) as L. unfold adv_entry.
  rewrite !zlen_app, pb_key_len by lia. pose proof (zlen_nonneg (adv_sub a)).
  rewrite varint_1 by (destruct (addr_type a <? 128); lia). destruct (addr_type a <? 128); lia.
Qed.
(** [sub] is never left, whatever the address type is. *)
Lemma api_adv_batch_eq ads : Forall adv_ok ads -> api_adv_batch ads = Some (batch_bytes ads).
Proof.
  induction 1 as [|a ads Ha _ IH]; [done|]. cbn [api_adv_batch]. rewrite IH.
  pose proof (adv_sub_len a Ha) as L. rewrite in_array_Some by (destruct (addr_type a <? 128); lia). cbn [mbind option_bind].
  unfold batch_bytes. cbn [fmap list_fmap mjoin list_join]. unfold adv_entry at 2. by rewrite <- !app_assoc.
Qed.
Lemma batch_bytes_len ads k :
  Forall (fun a => zlen (adv_entry a) <= k) ads -> zlen (batch_bytes ads) <= k * zlen ads.
Proof.
  unfold batch_bytes. induction ads as [|a ads IH]; intros H; [unfold zlen; cbn; lia|].
  destruct (Forall_cons_1 _ _ _ H) as [H1 H2]. cbn [fmap list_fmap mjoin list_join].
  change (mjoin _) with (mjoin (adv_entry <$> ads)). rewrite zlen_app, zlen_cons.
  specialize (IH H2). lia.
Qed.

(** * Properties *)

(** C20: frames go through the reader: of a buffer that starts with a frame,
    api_next() gives the type, the message and the length of that frame, and
    leaves what follows; a frame that is not there to its last byte is not
    taken and not an error. *)
Theorem api_frame_roundtrip type msg rest k :
  0 <= type < 4294967296 -> zlen msg <= 4096 -> 0 <= k < zlen (api_frame type msg) ->
  api_next (api_frame type msg ++ rest) = Some (zlen (api_frame type msg), Some (type, msg)) /\
  api_next (ztake k (api_frame type msg)) = Some (0, None).
Proof. intros. split; [by apply api_next_frame|by apply api_next_short]. Qed.

(** Api_next() never reads outside of the buffer, whatever the client sent:
    it asks for more bytes (0), refuses (-1), or gives a message of at most 4096
    bytes that lies inside of the buffer after a header of 3 to 11 bytes. *)
Theorem api_next_safe buf : bytes buf ->
  exists r m, api_next buf = Some (r, m) /\
    match m with
    | None => r = 0 \/ r = -1
    | Some (type, msg) =>
        exists hdr rest, buf = hdr ++ msg ++ rest /\ r = zlen hdr + zlen msg /\
          3 <= zlen hdr <= 11 /\ zlen msg <= 4096 /\ 0 <= type < 4294967296
    end.
Proof.
  intros Hb. destruct (api_next_any buf Hb) as (r & m & E & H). exists r, m. split; [done|].
  destruct m as [[type msg]|]; [done|]. lia.
Qed.

(** The answers of ble-ha fit their buffers: HelloResponse and
    DeviceInfoResponse fit the 512 bytes of client_message() for the strings
    that setup_info() reads, and an advertisement takes at most 48 bytes of the
    batch when its address type is below 128. *)
Theorem api_messages_fit info ads :
  info_ok info -> Forall adv_ok ads -> Forall (fun a => addr_type a < 128) ads ->
  zlen (api_hello info) <= 512 /\ zlen (api_device_info info) <= 512 /\
  exists m, api_adv_batch ads = Some m /\ zlen m <= 48 * zlen ads.
Proof.
  intros Hi Ha Ht. split; [|split; [|exists (batch_bytes ads); split; [by apply api_adv_batch_eq|]]].
  - pose proof (api_hello_len info Hi). lia.
  - pose proof (api_device_info_len info Hi). lia.
  - apply batch_bytes_len. apply Forall_forall. intros a Hin.
    rewrite Forall_forall in Ha. rewrite Forall_forall in Ht.
    pose proof (adv_entry_len a (Ha a Hin)) as L.
    rewrite (proj2 (Z.ltb_lt _ _)) in L by by apply Ht. done.
Qed.

(** * Instances *)

Definition adv0 : adv := Adv 0x112233445566 1 (-60) [2; 1; 6].
Definition msg0 : list Z := [0; 1; 7].
Lemma small_byte b : 0 <= b < 256 -> is_byte b.
Proof. done. Qed.
Lemma adv0_bytes : bytes (data adv0).
Proof. unfold bytes, adv0. cbn [data]. repeat constructor; apply small_byte; lia. Qed.
Lemma msg0_bytes : bytes msg0.
Proof. unfold bytes, msg0. repeat constructor; apply small_byte; lia. Qed.
Lemma adv0_ok : adv_ok adv0.
Proof.
  pose proof adv0_bytes. unfold adv_ok, adv_len, is_byte. cbn in *. split_and!; (done || lia).
Qed.
Definition info0 : api_info :=
  ApiInfo (Some (cstr "board"%string)) (Some (cstr "11:22:33:44:55:66"%string)) None None.

Lemma api_frame_roundtrip_witness :
  api_next (api_frame 300 [1; 2; 3] ++ [0]) = Some (7, Some (300, [1; 2; 3])).
Proof.
  exact (proj1 (api_frame_roundtrip 300 [1; 2; 3] [0] 3 ltac:(lia)
    ltac:(vm_compute; congruence) ltac:(vm_compute; split; congruence))).
Defined.
Lemma api_next_safe_witness : exists r m, api_next msg0 = Some (r, m).
Proof.
  destruct (api_next_safe msg0 msg0_bytes) as (r & m & E & _).
  exists r, m. exact E.
Defined.
Lemma api_messages_fit_witness : exists m, api_adv_batch [adv0; adv0] = Some m /\ zlen m <= 48 * 2.
Proof.
  assert (info_ok info0) as Hi by (unfold info_ok; cbn; repeat split; vm_compute; congruence).
  assert (Forall adv_ok [adv0; adv0]) as Ha by (repeat apply Forall_cons_2; [exact adv0_ok..|apply Forall_nil_2]).
  assert (Forall (fun a => addr_type a < 128) [adv0; adv0]) as Ht
    by (repeat apply Forall_cons_2; [reflexivity..|apply Forall_nil_2]).
  exact (proj2 (proj2 (api_messages_fit info0 [adv0; adv0] Hi Ha Ht))).
Defined.
