(* ===== verification/Hci.v ===== *)
(** The HCI packets of ble-ha: tools/ble-ha/hci.c. *)

From S2P Require Import Prelude Api.

Definition HCI_CMD : Z := 1.
Definition HCI_ACL : Z := 2.
Definition HCI_EVT : Z := 4.

Definition improv_uuid : list Z :=
  [0x00; 0x80; 0x26; 0x78; 0x74; 0x27; 0x63; 0x46;
   0x72; 0x22; 0x28; 0x62; 0x68; 0x77; 0x46; 0x00].

(** The loop over the address: [b] counts down from 5. *)
Fixpoint addr_loop (b : nat) (ev : list Z) (pos acc : Z) : option Z :=
  match b with
  | O => Some acc
  | S b => x ← rd ev (pos + 2 + Z.of_nat b); addr_loop b ev pos (Z.lor (u64 (Z.shiftl acc 8)) x)
  end.

(** The loop over the reports: [rounds] are left. *)
Fixpoint adv_loop (rounds : nat) (ev : list Z) (pos : Z) : option (list adv) :=
  match rounds with
  | O => Some []
  | S rounds =>
      if pos + 9 >? zlen ev then Some []
      else
        l ← rd ev (pos + 8);
        if l >? ADV_MAX then Some []
        else if pos + 10 + l >? zlen ev then Some []
        else
          ty ← rd ev (pos + 1);
          a ← addr_loop 6 ev pos 0;
          d ← slice ev (pos + 9) l;
          d ← in_array ADV_MAX d;
          r ← rd ev (pos + 9 + l);
          rest ← adv_loop rounds ev (pos + 10 + l);
          Some (Adv a ty (s8 r) d :: rest)
  end.

(** The filled part of [out]; the result is its length. *)
Definition hci_parse_adv_reports (ev : list Z) (max : Z) : option (list adv) :=
  if zlen ev <? 4 then Some []
  else
    e0 ← rd ev 0;
    if negb (e0 =? 0x3e) then Some []
    else
      e2 ← rd ev 2;
      if negb (e2 =? 0x02) then Some []
      else
        n ← rd ev 3;
        adv_loop (Z.to_nat (Z.min n max)) ev 4.

Definition hci_improv_adv_data (state caps : Z) : list Z :=
  [2; 0x01; 0x06] ++ [17; 0x07] ++ improv_uuid ++ [9; 0x16; 0x77; 0x46] ++ [state; caps] ++ zeros 4.

Definition hci_name_data (name : list Z) : list Z :=
  let n := zlen name in
  let n := if n >? ADV_MAX - 2 then ADV_MAX - 2 else n in
  [u8 (n + 1); 0x09] ++ ztake n name.

Definition hci_acl_frame (handle cid : Z) (data : list Z) : list Z :=
  let len := zlen data in
  let l2 := len + 4 in
  [HCI_ACL; Z.land handle 0xff; Z.land (Z.shiftr handle 8) 0x0f;
   Z.land l2 0xff; u8 (Z.shiftr l2 8); Z.land len 0xff; u8 (Z.shiftr len 8);
   Z.land cid 0xff; u8 (Z.shiftr cid 8)] ++ data.

(** * What the controller sends: the encoding that the parser reads *)

Definition le48 (a : Z) : list Z := le32 a ++ [u8 (Z.shiftr a 32); u8 (Z.shiftr a 40)].
Definition adv_report (type : Z) (a : adv) : list Z :=
  [type; addr_type a] ++ le48 (addr a) ++ [adv_len a] ++ data a ++ [u8 (rssi a)].
Definition adv_event (plen : Z) (reports : list (Z * adv)) : list Z :=
  [0x3e; plen; 0x02; zlen reports] ++ mjoin ((fun r => adv_report r.1 r.2) <$> reports).

(** * Parsing *)

Lemma addr_loop_value ev pos a :
  0 <= pos -> pos + 8 <= zlen ev -> 0 <= a < 281474976710656 ->
  (forall i, 0 <= i < 6 -> get ev (pos + 2 + i) = get (le48 a) i) ->
  addr_loop 6 ev pos 0 = Some a.
Proof.
  intros Hp Hl Ha Hg. cbn [addr_loop].
  repeat (rewrite rd_Some by lia; cbn [mbind option_bind]).
  rewrite !Hg by lia.
  change (get (le48 a) (Z.of_nat 0)) with (u8 a).
  change (get (le48 a) (Z.of_nat 1)) with (u8 (Z.shiftr a 8)).
  change (get (le48 a) (Z.of_nat 2)) with (u8 (Z.shiftr a 16)).
  change (get (le48 a) (Z.of_nat 3)) with (u8 (Z.shiftr a 24)).
  change (get (le48 a) (Z.of_nat 4)) with (u8 (Z.shiftr a 32)).
  change (get (le48 a) (Z.of_nat 5)) with (u8 (Z.shiftr a 40)).
  assert (a = u8 a + 256 * (u8 (Z.shiftr a 8) + 256 * (u8 (Z.shiftr a 16) + 256 *
    (u8 (Z.shiftr a 24) + 256 * (u8 (Z.shiftr a 32) + 256 * u8 (Z.shiftr a 40)))))) as Ea.
  { rewrite !u8_shiftr by lia. change (2 ^ 8) with 256. change (2 ^ 16) with 65536.
    change (2 ^ 24) with 16777216. change (2 ^ 32) with 4294967296.
    change (2 ^ 40) with 1099511627776. zlia. }
  pose proof (u8_range a). pose proof (u8_range (Z.shiftr a 8)). pose proof (u8_range (Z.shiftr a 16)).
  pose proof (u8_range (Z.shiftr a 24)). pose proof (u8_range (Z.shiftr a 32)).
  pose proof (u8_range (Z.shiftr a 40)).
  set (b0 := u8 a) in *. set (b1 := u8 (Z.shiftr a 8)) in *. set (b2 := u8 (Z.shiftr a 16)) in *.
  set (b3 := u8 (Z.shiftr a 24)) in *. set (b4 := u8 (Z.shiftr a 32)) in *.
  set (b5 := u8 (Z.shiftr a 40)) in *. f_equal. rewrite Ea.
  assert (forall x y, 0 <= y < 256 -> 0 <= x < 1099511627776 ->
    Z.lor (u64 (Z.shiftl x 8)) y = y + x * 256) as E.
  { intros x y Hy Hx. rewrite u64_small by (rewrite Z.shiftl_mul_pow2 by lia; lia).
    by rewrite Z.lor_comm, (lor_add y x 8 256) by done. }
  rewrite (E 0 b5), (E _ b4), (E _ b3), (E _ b2), (E _ b1), (E _ b0) by lia. lia.
Qed.

Lemma addr_loop_some ev pos b : forall acc, bytes ev ->
  0 <= pos -> pos + 2 + Z.of_nat b <= zlen ev -> 0 <= acc -> acc * 256 ^ Z.of_nat b + 256 ^ Z.of_nat b <= 281474976710656 ->
  exists a, addr_loop b ev pos acc = Some a /\ 0 <= a < 281474976710656.
Proof.
  induction b as [|b IH]; intros acc Hb Hp Hl H0 Ha; cbn [addr_loop].
  { exists acc. cbn in Ha. split; [done|lia]. }
  rewrite rd_Some by lia. cbn [mbind option_bind].
  pose proof (get_byte ev (pos + 2 + Z.of_nat b) Hb) as Hx. unfold is_byte in Hx.
  rewrite Nat2Z.inj_succ, Z.pow_succ_r in Ha by lia.
  assert (0 < 256 ^ Z.of_nat b) by (apply Z.pow_pos_nonneg; lia).
  rewrite u64_small by (rewrite Z.shiftl_mul_pow2 by lia; nia).
  rewrite Z.lor_comm, (lor_add _ acc 8 256) by done.
  apply IH; [done|done|lia|nia|nia].
Qed.

Lemma s8_range b : -128 <= s8 b < 128.
Proof. unfold s8. pose proof (u8_range b). if_goal; lia. Qed.

(** Whatever the controller sends, the reports that are taken are whole. *)
Lemma adv_loop_safe rounds : forall ev pos, bytes ev -> 0 <= pos ->
  exists ads, adv_loop rounds ev pos = Some ads /\ Forall adv_ok ads /\ (length ads <= rounds)%nat.
Proof.
  induction rounds as [|rounds IH]; intros ev pos Hb Hp; cbn [adv_loop].
  { exists []. split_and!; [done|constructor|done]. }
  assert (exists ads : list adv, Some [] = Some ads /\ Forall adv_ok ads /\ (length ads <= S rounds)%nat) as X0.
  { exists []. split_and!; [done|constructor|cbn; lia]. }
  destruct (Z.gtb_spec (pos + 9) (zlen ev)); [exact X0|].
  rewrite (rd_Some ev (pos + 8)) by lia. cbn [mbind option_bind].
  pose proof (get_byte ev (pos + 8) Hb) as B. unfold is_byte in B. set (l := get ev (pos + 8)) in *.
  destruct (Z.gtb_spec l ADV_MAX); [exact X0|].
  destruct (Z.gtb_spec (pos + 10 + l) (zlen ev)); [exact X0|].
  rewrite (rd_Some ev (pos + 1)) by lia. cbn [mbind option_bind].
  destruct (addr_loop_some ev pos 6 0 Hb Hp ltac:(lia) ltac:(lia) ltac:(cbn; lia)) as (a & -> & Ha).
  cbn [mbind option_bind]. rewrite slice_Some by lia. cbn [mbind option_bind].
  rewrite in_array_Some by llia. cbn [mbind option_bind].
  rewrite (rd_Some ev (pos + 9 + l)) by lia. cbn [mbind option_bind].
  destruct (IH ev (pos + 10 + l) Hb ltac:(lia)) as (ads & -> & Hads & Hlen). cbn [mbind option_bind].
  eexists. split; [done|]. split; [|cbn; lia]. constructor; [|done].
  unfold adv_ok, adv_len. cbn.
  split_and!; try lia; try apply s8_range; auto with port; try apply get_byte; try done.
  rewrite zlen_ztake by lia. rewrite zlen_zdrop by lia. lia.
Qed.

(** ** An event that is cut *)
Lemma rd_ztake n l i x : rd (ztake n l) i = Some x -> rd l i = Some x.
Proof.
  unfold rd, ztake. destruct (0 <=? i); [|done]. intros H. by apply lookup_take_Some in H as [H _].
Qed.
Lemma slice_ztake n l off k d : slice (ztake n l) off k = Some d -> slice l off k = Some d.
Proof.
  unfold slice, ztake, zlen. rewrite length_take.
  destruct (Z.leb_spec 0 off), (Z.leb_spec 0 k), (Z.leb_spec (off + k) (Z.of_nat (Nat.min (Z.to_nat n) (length l)))); try done.
  cbn [andb]. rewrite (proj2 (Z.leb_le (off + k) _)) by lia.
  rewrite skipn_firstn_comm, take_take. by replace (Z.to_nat k `min` (Z.to_nat n - Z.to_nat off))%nat with (Z.to_nat k) by lia.
Qed.
Lemma addr_loop_ztake n ev pos b : forall acc a, addr_loop b (ztake n ev) pos acc = Some a -> addr_loop b ev pos acc = Some a.
Proof.
  induction b as [|b IH]; intros acc a; cbn [addr_loop]; [done|].
  destruct (rd (ztake n ev) _) as [x|] eqn:E; [|done]. rewrite (rd_ztake _ _ _ _ E). apply IH.
Qed.
(** Its reports are among those of the whole event. *)
Lemma adv_loop_ztake (P : adv -> Prop) n ev rounds : forall pos ads ads',
  adv_loop rounds ev pos = Some ads -> adv_loop rounds (ztake n ev) pos = Some ads' -> Forall P ads -> Forall P ads'.
Proof.
  assert (L : zlen (ztake n ev) <= zlen ev) by (unfold zlen, ztake; rewrite length_take; lia).
  induction rounds as [|rounds IH]; intros pos ads ads'; cbn [adv_loop]; [intros _ [= <-] _; constructor|].
  destruct (Z.gtb_spec (pos + 9) (zlen (ztake n ev))); [intros _ [= <-] _; constructor|].
  destruct (Z.gtb_spec (pos + 9) (zlen ev)); [lia|].
  destruct (rd (ztake n ev) (pos + 8)) as [l|] eqn:E1; [|done]. rewrite (rd_ztake _ _ _ _ E1). cbn [mbind option_bind].
  destruct (l >? ADV_MAX); [intros _ [= <-] _; constructor|].
  destruct (Z.gtb_spec (pos + 10 + l) (zlen (ztake n ev))); [intros _ [= <-] _; constructor|].
  destruct (Z.gtb_spec (pos + 10 + l) (zlen ev)); [lia|].
  destruct (rd (ztake n ev) (pos + 1)) as [ty|] eqn:E2; [|done]. rewrite (rd_ztake _ _ _ _ E2). cbn [mbind option_bind].
  destruct (addr_loop 6 (ztake n ev) pos 0) as [a|] eqn:E3; [|done]. rewrite (addr_loop_ztake _ _ _ _ _ _ E3). cbn [mbind option_bind].
  destruct (slice (ztake n ev) (pos + 9) l) as [d|] eqn:E4; [|done]. rewrite (slice_ztake _ _ _ _ _ E4). cbn [mbind option_bind].
  destruct (in_array ADV_MAX d) as [d'|]; [|done]. cbn [mbind option_bind].
  destruct (rd (ztake n ev) (pos + 9 + l)) as [r|] eqn:E5; [|done]. rewrite (rd_ztake _ _ _ _ E5). cbn [mbind option_bind].
  destruct (adv_loop rounds ev (pos + 10 + l)) as [rest|] eqn:E6; [|done]. destruct (adv_loop rounds (ztake n ev) (pos + 10 + l)) as [rest'|] eqn:E7; [|done].
  intros [= <-] [= <-] F. apply Forall_cons_1 in F as [F1 F2]. apply Forall_cons_2; [done|]. by apply (IH _ _ _ E6 E7).
Qed.
Lemma hci_parse_ztake (P : adv -> Prop) n ev max ads ads' :
  hci_parse_adv_reports ev max = Some ads -> hci_parse_adv_reports (ztake n ev) max = Some ads' -> Forall P ads -> Forall P ads'.
Proof.
  assert (L : zlen (ztake n ev) <= zlen ev) by (unfold zlen, ztake; rewrite length_take; lia). unfold hci_parse_adv_reports.
  destruct (Z.ltb_spec (zlen (ztake n ev)) 4); [intros _ [= <-] _; constructor|]. destruct (Z.ltb_spec (zlen ev) 4); [lia|].
  destruct (rd (ztake n ev) 0) as [e0|] eqn:E0; [|done]. rewrite (rd_ztake _ _ _ _ E0). cbn [mbind option_bind].
  destruct (negb (e0 =? 0x3e)); [intros _ [= <-] _; constructor|].
  destruct (rd (ztake n ev) 2) as [e2|] eqn:E2; [|done]. rewrite (rd_ztake _ _ _ _ E2). cbn [mbind option_bind].
  destruct (negb (e2 =? 0x02)); [intros _ [= <-] _; constructor|].
  destruct (rd (ztake n ev) 3) as [e3|] eqn:E3; [|done]. rewrite (rd_ztake _ _ _ _ E3). cbn [mbind option_bind]. apply adv_loop_ztake.
Qed.

(** The reports of an encoded event come back. *)
Lemma adv_report_len type a : zlen (adv_report type a) = 10 + adv_len a.
Proof. unfold adv_report, adv_len, le48. llia. Qed.

Lemma get_app_mid (pre l k : list Z) i n :
  n = zlen pre + i -> 0 <= i < zlen l -> get (pre ++ l ++ k) n = get l i.
Proof.
  intros -> Hi. pose proof (zlen_nonneg pre). rewrite get_app_r by lia.
  replace (zlen pre + i - zlen pre) with i by lia. by apply get_app_l.
Qed.

Lemma adv_loop_enc reports : forall rounds pre rest,
  Forall (fun r => adv_ok r.2) reports -> (length reports = rounds \/ rest = [] /\ length reports <= rounds)%nat ->
  adv_loop rounds (pre ++ mjoin ((fun r => adv_report r.1 r.2) <$> reports) ++ rest) (zlen pre) =
    Some (snd <$> reports).
Proof.
  induction reports as [|[type a] reports IH]; intros rounds pre rest Hok Hr.
  { destruct rounds as [|rounds]; [done|]. destruct Hr as [|[-> _]]; [done|].
    cbn [fmap list_fmap mjoin list_join app]. rewrite app_nil_r. cbn [adv_loop].
    rewrite Z.gtb_ltb, (proj2 (Z.ltb_lt _ _)) by lia. done. }
  destruct (Forall_cons_1 _ _ _ Hok) as [(Ha & Ht & Hrs & Hb & Hl) Hok'].
  destruct rounds as [|rounds]; [cbn in Hr; lia|].
  cbn [fmap list_fmap mjoin list_join].
  change (mjoin _) with (mjoin ((fun r : Z * adv => adv_report r.1 r.2) <$> reports)) at 1.
  set (tail := mjoin _). cbn [fst snd] in *. rewrite <- app_assoc.
  set (R := adv_report type a). set (ev := pre ++ R ++ tail ++ rest).
  assert (zlen R = 10 + adv_len a) as LR by apply adv_report_len. unfold adv_len, ADV_MAX in *.
  pose proof (zlen_nonneg pre). pose proof (zlen_nonneg tail). pose proof (zlen_nonneg rest).
  pose proof (zlen_nonneg (data a)).
  assert (zlen ev = zlen pre + zlen R + zlen tail + zlen rest) as Lev by (unfold ev; llia).
  assert (forall i, 0 <= i < zlen R -> get ev (zlen pre + i) = get R i) as G.
  { intros i Hi. unfold ev. by apply get_app_mid. }
  assert (forall i, 0 <= i < zlen R -> rd ev (zlen pre + i) = Some (get R i)) as RD.
  { intros i Hi. rewrite <- G by done. apply rd_Some. lia. }
  cbn [adv_loop]. rewrite Z.gtb_ltb, (proj2 (Z.ltb_ge _ _)) by lia.
  rewrite (RD 8) by lia. change (get R 8) with (zlen (data a)). cbn [mbind option_bind].
  rewrite Z.gtb_ltb, (proj2 (Z.ltb_ge _ _)) by (unfold ADV_MAX; lia).
  rewrite Z.gtb_ltb, (proj2 (Z.ltb_ge _ _)) by lia.
  rewrite (RD 1) by lia. change (get R 1) with (addr_type a). cbn [mbind option_bind].
  rewrite (addr_loop_value ev (zlen pre) (addr a)); [|lia|lia|done|].
  2: { intros i Hi. replace (zlen pre + 2 + i) with (zlen pre + (2 + i)) by lia. rewrite G by lia.
       unfold R, adv_report. rewrite get_app_r by (unfold zlen; cbn; lia).
       change (zlen [type; addr_type a]) with 2. replace (2 + i - 2) with i by lia.
       apply get_app_l. unfold zlen; cbn; lia. }
  cbn [mbind option_bind]. rewrite slice_Some by lia. cbn [mbind option_bind].
  assert (ztake (zlen (data a)) (zdrop (zlen pre + 9) ev) = data a) as ->.
  { unfold ev, R, adv_report. rewrite Z.add_comm, <- zdrop_zdrop, zdrop_app_len by lia.
    change (zdrop 9 _) with ((data a ++ [u8 (rssi a)]) ++ tail ++ rest).
    rewrite <- app_assoc. by apply ztake_app_len. }
  rewrite in_array_Some by (unfold ADV_MAX; lia). cbn [mbind option_bind].
  replace (zlen pre + 9 + zlen (data a)) with (zlen pre + (9 + zlen (data a))) by lia.
  rewrite RD by lia. cbn [mbind option_bind].
  assert (get R (9 + zlen (data a)) = u8 (rssi a)) as ->.
  { unfold R, adv_report. change ([type; addr_type a] ++ le48 (addr a) ++ [adv_len a] ++ data a ++ [u8 (rssi a)])
      with (([type; addr_type a] ++ le48 (addr a) ++ [adv_len a]) ++ data a ++ [u8 (rssi a)]).
    rewrite get_app_r by (unfold zlen; cbn; lia).
    change (zlen ([type; addr_type a] ++ le48 (addr a) ++ [adv_len a])) with 9.
    replace (9 + zlen (data a) - 9) with (zlen (data a)) by lia.
    rewrite get_app_r, Z.sub_diag by lia. done. }
  assert (s8 (u8 (rssi a)) = rssi a) as ->.
  { unfold s8, u8. rewrite Z.mod_mod by lia. if_goal; zlia. }
  replace (zlen pre + 10 + zlen (data a)) with (zlen (pre ++ R)) by (rewrite zlen_app; lia).
  assert ((length reports = rounds \/ rest = [] /\ length reports <= rounds)%nat) as Hr'.
  { destruct Hr as [Hr|[-> Hr]]; cbn in Hr; [left; lia|right; split; [done|lia]]. }
  specialize (IH rounds (pre ++ R) rest Hok' Hr').
  unfold ev. rewrite (app_assoc pre R). fold tail in IH. rewrite IH. cbn [mbind option_bind].
  by destruct a.
Qed.

Lemma mjoin_app_list {A} (l k : list (list A)) : mjoin (l ++ k) = mjoin l ++ mjoin k.
Proof.
  induction l as [|x l IH]; [done|]. change (x ++ mjoin (l ++ k) = (x ++ mjoin l) ++ mjoin k).
  by rewrite IH, app_assoc.
Qed.

Lemma parse_event ev max :
  4 <= zlen ev -> get ev 0 = 0x3e -> get ev 2 = 0x02 ->
  hci_parse_adv_reports ev max = adv_loop (Z.to_nat (Z.min (get ev 3) max)) ev 4.
Proof.
  intros Hl H0 H2. unfold hci_parse_adv_reports. rewrite (proj2 (Z.ltb_ge _ _)) by lia.
  rewrite (rd_Some ev 0) by lia. cbn [mbind option_bind]. rewrite H0. cbn [Z.eqb Pos.eqb negb].
  rewrite (rd_Some ev 2) by lia. cbn [mbind option_bind]. rewrite H2. cbn [Z.eqb Pos.eqb negb].
  by rewrite (rd_Some ev 3) by lia.
Qed.

(** * Properties *)

Lemma hci_parse_safe ev max : bytes ev -> 0 <= max ->
  exists ads, hci_parse_adv_reports ev max = Some ads /\ Forall adv_ok ads /\ zlen ads <= max.
Proof.
  intros Hb Hm. unfold hci_parse_adv_reports.
  assert (exists ads : list adv, Some [] = Some ads /\ Forall adv_ok ads /\ zlen ads <= max) as X.
  { exists []. split_and!; [done|constructor|done]. }
  destruct (Z.ltb_spec (zlen ev) 4); [exact X|].
  rewrite (rd_Some ev 0) by lia. cbn [mbind option_bind]. destruct (negb _); [exact X|].
  rewrite (rd_Some ev 2) by lia. cbn [mbind option_bind]. destruct (negb _); [exact X|].
  rewrite (rd_Some ev 3) by lia. cbn [mbind option_bind].
  destruct (adv_loop_safe (Z.to_nat (Z.min (get ev 3) max)) ev 4 Hb ltac:(lia)) as (ads & -> & ? & Hl).
  exists ads. split_and!; [done|done|]. unfold zlen. lia.
Qed.

(** Hci_parse_adv_reports() never reads outside of the event, whatever the
    controller sends, gives at most [max] advertisements, each with a 48-bit
    address and at most ADV_MAX bytes of data; and of an event that the
    controller encoded it gives the reports that were put in, the first [max]
    of them in order. *)
Theorem hci_parse_adv_reports_correct :
  (forall ev max, bytes ev -> 0 <= max ->
     exists ads, hci_parse_adv_reports ev max = Some ads /\ Forall adv_ok ads /\ zlen ads <= max) /\
  (forall plen reports max, Forall (fun r => adv_ok r.2) reports -> zlen reports <= 255 -> 0 <= max ->
     hci_parse_adv_reports (adv_event plen reports) max = Some (ztake max (snd <$> reports))).
Proof.
  split.
  - intros ev max. apply hci_parse_safe.
  - intros plen reports max Hok Hn Hm.
    set (body := mjoin ((fun r : Z * adv => adv_report r.1 r.2) <$> reports)).
    assert (4 <= zlen (adv_event plen reports)) as L.
    { unfold adv_event. rewrite zlen_app. fold body. pose proof (zlen_nonneg body).
      change (zlen [0x3e; plen; 0x02; zlen reports]) with 4. lia. }
    rewrite parse_event by done. change (get (adv_event plen reports) 3) with (zlen reports).
    pose proof (zlen_nonneg reports). unfold adv_event. change 4 with (zlen [0x3e; plen; 0x02; zlen reports]).
    destruct (decide (max < zlen reports)).
    + rewrite <- (take_drop (Z.to_nat max) reports) at 3.
      rewrite fmap_app, mjoin_app_list. rewrite (adv_loop_enc (take (Z.to_nat max) reports)).
      * unfold ztake. by rewrite fmap_take.
      * by apply Forall_take.
      * left. rewrite length_take. unfold zlen in *. lia.
    + rewrite <- (app_nil_r (mjoin _)). rewrite (adv_loop_enc reports); [|done|].
      * rewrite ztake_ge; [done|]. unfold zlen in *. rewrite length_fmap. lia.
      * right. split; [done|]. unfold zlen in *. lia.
Qed.

(** Advertising data: length, type and value of each structure. *)
Definition ad_bytes (l : list (Z * list Z)) : list Z :=
  mjoin ((fun r => [zlen r.2 + 1; r.1] ++ r.2) <$> l).

(** The advertising data are the flags, the Improv service UUID and its
    service data (state and capabilities), and fill the 31 bytes exactly; the
    scan response is the complete local name, cut to fit 31 bytes. *)
Theorem hci_adv_data_correct state caps name :
  hci_improv_adv_data state caps =
    ad_bytes [(0x01, [0x06]); (0x07, improv_uuid);
              (0x16, [0x77; 0x46; state; caps; 0; 0; 0; 0])] /\
  zlen (hci_improv_adv_data state caps) = ADV_MAX /\
  hci_name_data name = ad_bytes [(0x09, ztake 29 name)] /\
  zlen (hci_name_data name) = 2 + Z.min 29 (zlen name).
Proof.
  split_and!; try reflexivity.
  - unfold hci_name_data, ad_bytes, ADV_MAX. cbn. pose proof (zlen_nonneg name).
    rewrite zlen_ztake by lia. rewrite app_nil_r.
    destruct (Z.gtb_spec (zlen name) (31 - 2)).
    + rewrite Z.min_l by lia. done.
    + rewrite Z.min_r, !ztake_ge by lia. rewrite u8_small by lia. done.
  - unfold hci_name_data, ADV_MAX. rewrite zlen_app. change (zlen [_; _]) with 2.
    pose proof (zlen_nonneg name). if_goal; rewrite zlen_ztake by lia; lia.
Qed.
