(* ===== verification/Improv.v ===== *)
(** The RPC packets of Improv Wi-Fi: tools/ble-ha/improv.c, and the constants
    and struct improv_cmd of ble-ha.h.

    A buffer that a function fills is a list of its size; [None] is an access
    outside of a buffer. *)

From S2P Require Import Prelude.

(** * ble-ha.h *)

Definition IMPROV_AUTHORIZED : Z := 0x02.
Definition IMPROV_PROVISIONING : Z := 0x03.
Definition IMPROV_PROVISIONED : Z := 0x04.
Definition IMPROV_ERR_NONE : Z := 0x00.
Definition IMPROV_ERR_INVALID : Z := 0x01.
Definition IMPROV_ERR_UNKNOWN : Z := 0x02.
Definition IMPROV_ERR_CONNECT : Z := 0x03.
Definition IMPROV_ERR_OTHER : Z := 0xff.
Definition IMPROV_CMD_WIFI : Z := 0x01.
Definition IMPROV_CMD_IDENTIFY : Z := 0x02.
Definition IMPROV_CMD_INFO : Z := 0x03.
Definition IMPROV_CAP_IDENTIFY : Z := 0x01.
Definition IMPROV_CAP_INFO : Z := 0x02.

(** [char ssid[33]; char pass[64]]. *)
Record improv_cmd := ImprovCmd { i_cmd : Z; i_ssid : list Z; i_pass : list Z }.

(** * improv.c *)

(** [while (len--) sum += *p++]. *)
Fixpoint checksum_loop (len : nat) (p : list Z) (i sum : Z) : option Z :=
  match len with
  | O => Some sum
  | S len => b ← rd p i; checksum_loop len p (i + 1) (u32 (sum + b))
  end.
Definition checksum (p : list Z) (len : Z) : option Z :=
  sum ← checksum_loop (Z.to_nat len) p 0 0; Some (u8 sum).

(** The loop over [p[i]], [i < len]; [n] rounds are left. *)
Fixpoint valid_pass_loop (n : nat) (p : list Z) (i : Z) : option bool :=
  match n with
  | O => Some true
  | S n =>
      b ← rd p i;
      if (b <? 0x20) || (b >? 0x7e) then Some false else valid_pass_loop n p (i + 1)
  end.
Definition valid_pass (p : list Z) (off len : Z) : option bool :=
  if nz len && ((len <? 8) || (len >? 63)) then Some false
  else valid_pass_loop (Z.to_nat len) p off.

(** [memchr(p + i, 0, n) != NULL]. *)
Fixpoint memchr0 (n : nat) (p : list Z) (i : Z) : option bool :=
  match n with
  | O => Some false
  | S n => b ← rd p i; if b =? 0 then Some true else memchr0 n p (i + 1)
  end.

(** [d] is the buffer of the packet from its data on; [len] is the data length. *)
Definition parse_wifi (d : list Z) (len : Z) (c : improv_cmd) : option (Z * improv_cmd) :=
  if len <? 2 then Some (IMPROV_ERR_INVALID, c)
  else
    sl ← rd d 0;
    if (sl =? 0) || (sl >? 32) || (1 + sl + 1 >? len) then Some (IMPROV_ERR_INVALID, c)
    else
      pl ← rd d (1 + sl);
      if negb (2 + sl + pl =? len) then Some (IMPROV_ERR_INVALID, c)
      else
        vp ← valid_pass d (2 + sl) pl;
        if negb vp then Some (IMPROV_ERR_INVALID, c)
        else
          z ← memchr0 (Z.to_nat sl) d 1;
          if z : bool then Some (IMPROV_ERR_INVALID, c)
          else
            s ← slice d 1 sl;
            ssid ← blit (i_ssid c) 0 s;
            ssid ← blit ssid sl [0];
            p ← slice d (2 + sl) pl;
            pass ← blit (i_pass c) 0 p;
            pass ← blit pass pl [0];
            Some (0, ImprovCmd (i_cmd c) ssid pass).

Definition improv_parse (buf : list Z) (c : improv_cmd) : option (Z * improv_cmd) :=
  let len := zlen buf in
  if len <? 3 then Some (1, c)
  else
    dl ← rd buf 1;
    if len <? dl + 3 then Some (1, c)
    else if len >? dl + 3 then Some (IMPROV_ERR_INVALID, c)
    else
      sum ← checksum buf (dl + 2);
      b ← rd buf (dl + 2);
      if negb (sum =? b) then Some (IMPROV_ERR_INVALID, c)
      else
        cmd ← rd buf 0;
        let c := ImprovCmd cmd (i_ssid c) (i_pass c) in
        if cmd =? IMPROV_CMD_WIFI then parse_wifi (zdrop 2 buf) dl c
        else if (cmd =? IMPROV_CMD_IDENTIFY) || (cmd =? IMPROV_CMD_INFO)
        then Some (if nz dl then IMPROV_ERR_INVALID else 0, c)
        else Some (IMPROV_ERR_UNKNOWN, c).

(** The loop over the strings, up to its [break]. *)
Fixpoint result_loop (s : list (list Z)) (buf : list Z) (pos : Z) : option (list Z * Z) :=
  match s with
  | [] => Some (buf, pos)
  | x :: s =>
      let l := zlen x in
      if (l >? 40) || (pos + 1 + l >? 60) then Some (buf, pos)
      else
        buf ← blit buf pos [u8 l];
        buf ← blit buf (pos + 1) x;
        result_loop s buf (pos + 1 + l)
  end.
Definition improv_result (buf : list Z) (cmd : Z) (s : list (list Z)) : option (list Z * Z) :=
  buf ← blit buf 0 [cmd];
  '(buf, pos) ← result_loop s buf 2;
  buf ← blit buf 1 [u8 (pos - 2)];
  sum ← checksum buf pos;
  buf ← blit buf pos [sum];
  Some (buf, pos + 1).

(** * The packets of the protocol *)

Definition csum (l : list Z) : Z := u8 (foldr Z.add 0 l).
Definition improv_body (cmd : Z) (d : list Z) : list Z := cmd :: zlen d :: d.
Definition improv_packet (cmd : Z) (d : list Z) : list Z :=
  improv_body cmd d ++ [csum (improv_body cmd d)].
Definition wifi_data (ssid pass : list Z) : list Z := zlen ssid :: ssid ++ zlen pass :: pass.

Definition ssid_ok (s : list Z) : Prop := 1 <= zlen s <= 32 /\ no_nul s.
Definition printable (b : Z) : Prop := 0x20 <= b <= 0x7e.
Definition pass_ok (p : list Z) : Prop := (p = [] \/ 8 <= zlen p <= 63) /\ Forall printable p.

(** A command with its strings. *)
Definition improv_valid (buf : list Z) (cmd : Z) (ssid pass : list Z) : Prop :=
  (cmd = IMPROV_CMD_WIFI /\ ssid_ok ssid /\ pass_ok pass /\ buf = improv_packet cmd (wifi_data ssid pass)) \/
  ((cmd = IMPROV_CMD_IDENTIFY \/ cmd = IMPROV_CMD_INFO) /\ buf = improv_packet cmd []).
(** The packet has the length of its header, more bytes or a wrong sum. *)
Definition complete (buf : list Z) : Prop := 3 <= zlen buf /\ get buf 1 + 3 <= zlen buf.

(** * Lemmas on the loops *)

Lemma checksum_loop_eq n p i sum :
  0 <= i -> i + Z.of_nat n <= zlen p -> 0 <= sum < 4294967296 ->
  exists r, checksum_loop n p i sum = Some r /\
    u8 r = u8 (sum + foldr Z.add 0 (ztake (Z.of_nat n) (zdrop i p))) /\ 0 <= r < 4294967296.
Proof.
  revert i sum. induction n as [|n IH]; intros i sum Hi Hn Hs.
  - exists sum. cbn. rewrite Z.add_0_r. done.
  - cbn [checksum_loop]. rewrite (rd_Some p i) by lia. cbn [mbind option_bind].
    destruct (IH (i + 1) (u32 (sum + get p i))) as (r & E & R & B); [lia|lia|apply u32_range|].
    exists r. split; [exact E|]. split; [|exact B]. rewrite R.
    rewrite (zdrop_cons_get p i) by lia. rewrite ztake_S by lia.
    replace (Z.of_nat (S n) - 1) with (Z.of_nat n) by lia. cbn [foldr].
    generalize (foldr Z.add 0 (ztake (Z.of_nat n) (zdrop (i + 1) p))). intros. zlia.
Qed.
Lemma checksum_eq p n : 0 <= n <= zlen p -> checksum p n = Some (csum (ztake n p)).
Proof.
  intros Hn. unfold checksum. destruct (checksum_loop_eq (Z.to_nat n) p 0 0) as (r & E & R & _); [lia..|].
  rewrite E. cbn [mbind option_bind]. rewrite R, Z2Nat.id by lia. done.
Qed.

Lemma valid_pass_loop_eq n p i : 0 <= i -> i + Z.of_nat n <= zlen p ->
  exists v, valid_pass_loop n p i = Some v /\
    (v = true <-> Forall printable (ztake (Z.of_nat n) (zdrop i p))).
Proof.
  revert i. induction n as [|n IH]; intros i Hi Hn.
  - exists true. split; [done|]. split; [constructor|done].
  - cbn [valid_pass_loop]. rewrite (rd_Some p i) by lia. cbn [mbind option_bind].
    rewrite (zdrop_cons_get p i) by lia. rewrite ztake_S by lia.
    replace (Z.of_nat (S n) - 1) with (Z.of_nat n) by lia.
    if_goal.
    + exists false. split; [done|]. split; [done|]. intros [P _]%Forall_cons_1. unfold printable in P.
      destruct Heqb as [?|?]; bool_prop; lia.
    + destruct (IH (i + 1)) as (v & E & V); [lia..|]. exists v. split; [exact E|].
      rewrite V, Forall_cons_iff. unfold printable at 2. split; [intros; split; [lia|done]|tauto].
Qed.
Lemma valid_pass_eq p i n : 0 <= i -> 0 <= n -> i + n <= zlen p ->
  exists v, valid_pass p i n = Some v /\ (v = true <-> pass_ok (ztake n (zdrop i p))).
Proof.
  intros Hi Hn Hl. unfold valid_pass, pass_ok.
  assert (zlen (ztake n (zdrop i p)) = n) as L by llia.
  destruct (valid_pass_loop_eq (Z.to_nat n) p i) as (v & E & V); [lia..|].
  rewrite Z2Nat.id in V by lia. rewrite E.
  destruct (nz n && ((n <? 8) || (n >? 63))) eqn:B.
  - exists false. split; [done|]. split; [done|]. intros [[N|N] _].
    + rewrite N in L. change (zlen (@nil Z)) with 0 in L. subst n. done.
    + apply andb_prop in B as [_ B]. bool_prop. destruct B; bool_prop; lia.
  - exists v. split; [done|]. rewrite V. split; [|tauto]. intros F. split; [|done].
    apply andb_false_iff in B as [B|B].
    + left. apply zlen_0_nil. apply nz_false in B. lia.
    + right. bool_prop. lia.
Qed.
Lemma memchr0_eq n p i : 0 <= i -> i + Z.of_nat n <= zlen p ->
  exists v, memchr0 n p i = Some v /\ (v = false <-> no_nul (ztake (Z.of_nat n) (zdrop i p))).
Proof.
  revert i. induction n as [|n IH]; intros i Hi Hn.
  - exists false. split; [done|]. split; [constructor|done].
  - cbn [memchr0]. rewrite (rd_Some p i) by lia. cbn [mbind option_bind].
    rewrite (zdrop_cons_get p i) by lia. rewrite ztake_S by lia.
    replace (Z.of_nat (S n) - 1) with (Z.of_nat n) by lia. unfold no_nul.
    destruct (Z.eqb_spec (get p i) 0) as [Z0|Z0].
    + exists true. split; [done|]. split; [done|]. intros [? _]%Forall_cons_1. done.
    + destruct (IH (i + 1)) as (v & E & V); [lia..|]. exists v. split; [exact E|].
      unfold no_nul in V. rewrite V, Forall_cons_iff. tauto.
Qed.

(** [memcpy] and the terminator: the buffer holds the string. *)
Lemma blit_string (b s : list Z) : no_nul s -> zlen s + 1 <= zlen b ->
  exists b1 b2, blit b 0 s = Some b1 /\ blit b1 (zlen s) [0] = Some b2 /\
    zlen b2 = zlen b /\ c_str b2 = s.
Proof.
  intros N L. pose proof (zlen_nonneg s).
  eexists. eexists. split; [apply blit_Some; lia|].
  split; [apply blit_Some; llia|]. cbn [app]. split; [llia|].
  rewrite ztake_0. cbn [app]. rewrite ztake_app_len by done. by apply c_str_app.
Qed.

(** * The data of the Wi-Fi command *)

Lemma wifi_data_len s p : zlen (wifi_data s p) = 2 + zlen s + zlen p.
Proof. unfold wifi_data. llia. Qed.
Lemma wifi_data_fields d len s p :
  0 <= len <= zlen d -> ztake len d = wifi_data s p ->
  len = 2 + zlen s + zlen p /\ get d 0 = zlen s /\ get d (1 + zlen s) = zlen p /\
  ztake (zlen s) (zdrop 1 d) = s /\ ztake (zlen p) (zdrop (2 + zlen s) d) = p.
Proof.
  intros Hl E. pose proof (wifi_data_len s p) as L. rewrite <- E in L.
  rewrite zlen_ztake in L by lia.
  pose proof (ztake_zdrop len d) as D. rewrite E in D. rewrite <- D. clear D E.
  pose proof (zlen_nonneg s). pose proof (zlen_nonneg p). unfold wifi_data.
  cbn [app]. rewrite <- app_assoc. cbn [app]. split_and!; [lia|done|..].
  - rewrite get_cons_S by lia. rewrite get_app_r by lia.
    replace (1 + zlen s - 1 - zlen s) with 0 by lia. done.
  - rewrite zdrop_S by lia. rewrite zdrop_0. by rewrite ztake_app_len.
  - rewrite zdrop_S by lia. rewrite zdrop_app_ge by lia.
    replace (2 + zlen s - 1 - zlen s) with 1 by lia. rewrite zdrop_S by lia.
    rewrite zdrop_0. by rewrite ztake_app_len.
Qed.
Lemma wifi_data_of d len sl pl :
  0 <= sl -> 0 <= pl -> 2 + sl + pl = len -> len <= zlen d ->
  get d 0 = sl -> get d (1 + sl) = pl ->
  ztake len d = wifi_data (ztake sl (zdrop 1 d)) (ztake pl (zdrop (2 + sl) d)).
Proof.
  intros Hs Hp <- Hl E0 E1. unfold wifi_data.
  rewrite !zlen_ztake, !zlen_zdrop by lia.
  replace (Z.min sl (Z.max 0 (zlen d - 1))) with sl by lia.
  replace (Z.min pl (Z.max 0 (zlen d - (2 + sl)))) with pl by lia.
  replace (2 + sl + pl) with (1 + (sl + (1 + pl))) by lia.
  rewrite !ztake_add, !zdrop_zdrop by lia.
  change (ztake 1 d) with (ztake (0 + 1) d). rewrite (ztake_S_get d 0), E0 by lia.
  replace (sl + 1) with (1 + sl) by lia. rewrite (zdrop_cons_get d (1 + sl)), E1 by lia.
  rewrite (ztake_S _ _ 1) by lia. rewrite ztake_0. cbn [app]. rewrite ztake_0.
  replace (1 + (1 + sl)) with (2 + sl) by lia. done.
Qed.

(** What [parse_wifi] accepts, and the strings that it stores. *)
Definition wifi_valid (l ssid pass : list Z) : Prop :=
  ssid_ok ssid /\ pass_ok pass /\ l = wifi_data ssid pass.
Definition stored (c' : improv_cmd) (ssid pass : list Z) : Prop :=
  c_str (i_ssid c') = ssid /\ c_str (i_pass c') = pass.

Lemma pass_no_nul p : pass_ok p -> no_nul p.
Proof. intros [_ F]. induction F as [|b l H F IH]; constructor; [unfold printable in H; lia|exact IH]. Qed.

(** Each refusal: no strings give this data. *)
Ltac refuse :=
  eexists; eexists; split; [reflexivity|]; split; [reflexivity|]; right; split; [reflexivity|];
  intros (s & p & [Ss Sn] & Pp & F); apply wifi_data_fields in F as (F1 & F2 & F3 & F4 & F5); [|lia].

Lemma parse_wifi_eq d len c :
  bytes d -> 0 <= len <= zlen d -> zlen (i_ssid c) = 33 -> zlen (i_pass c) = 64 ->
  exists r c', parse_wifi d len c = Some (r, c') /\ i_cmd c' = i_cmd c /\
    ((r = 0 /\ exists ssid pass, wifi_valid (ztake len d) ssid pass /\ stored c' ssid pass) \/
     (r = IMPROV_ERR_INVALID /\ ~ exists ssid pass, wifi_valid (ztake len d) ssid pass)).
Proof.
  intros Hd Hl Hs Hp. unfold parse_wifi, wifi_valid.
  if_goal; [refuse; llia|]. rewrite (rd_Some d 0) by lia. cbn [mbind option_bind].
  pose proof (get_byte d 0 Hd) as B0. unfold is_byte in B0.
  destruct ((get d 0 =? 0) || (get d 0 >? 32) || (1 + get d 0 + 1 >? len)) eqn:C.
  { refuse. apply orb_prop in C as [C|C]; [apply orb_prop in C as [C|C]|]; bool_prop; llia. }
  bool_prop. set (sl := get d 0) in *. rewrite (rd_Some d (1 + sl)) by lia. cbn [mbind option_bind].
  pose proof (get_byte d (1 + sl) Hd) as B1. unfold is_byte in B1.
  set (pl := get d (1 + sl)) in *.
  destruct (Z.eqb_spec (2 + sl + pl) len) as [E|E]; cbn [negb].
  2: { refuse. apply E. unfold pl. rewrite (F2 : sl = _), F3. lia. }
  destruct (valid_pass_eq d (2 + sl) pl) as (v & Ev & V); [lia..|].
  rewrite Ev. cbn [mbind option_bind]. destruct v; cbn [negb].
  2: { refuse. assert (true = false) by (symmetry; apply V; unfold pl; rewrite (F2 : sl = _), F3, F5; exact Pp). done. }
  destruct (memchr0_eq (Z.to_nat sl) d 1) as (z & Ez & N); [lia..|]. rewrite Z2Nat.id in N by lia.
  rewrite Ez. cbn [mbind option_bind]. destruct z.
  { refuse. assert (true = false) by (apply N; rewrite (F2 : sl = _), F4; exact Sn). done. }
  destruct N as [N _]. specialize (N eq_refl). destruct V as [V _]. specialize (V eq_refl).
  rewrite (slice_Some d 1), (slice_Some d (2 + sl)) by lia. cbn [mbind option_bind].
  assert (zlen (ztake sl (zdrop 1 d)) = sl) as Ls by llia.
  assert (zlen (ztake pl (zdrop (2 + sl) d)) = pl) as Lp by llia.
  assert (pl <= 63) by (destruct V as [[V|V] _]; [rewrite V in Lp; change (zlen (@nil Z)) with 0 in Lp|]; lia).
  destruct (blit_string (i_ssid c) (ztake sl (zdrop 1 d))) as (s1 & s2 & -> & E1 & _ & C1); [done|lia|].
  destruct (blit_string (i_pass c) (ztake pl (zdrop (2 + sl) d))) as (p1 & p2 & -> & E2 & _ & C2);
    [by apply pass_no_nul|lia|].
  cbn [mbind option_bind]. rewrite Ls in E1. rewrite E1. cbn [mbind option_bind].
  rewrite Lp in E2. rewrite E2. cbn [mbind option_bind].
  eexists. eexists. split; [reflexivity|]. split; [done|]. left. split; [done|].
  eexists. eexists. split; [|split; [exact C1|exact C2]].
  split; [split; [lia|done]|]. split; [done|]. apply wifi_data_of; lia || done.
Qed.

(** * Packets *)

Lemma improv_body_len cmd d : zlen (improv_body cmd d) = 2 + zlen d.
Proof. unfold improv_body. llia. Qed.
Lemma improv_packet_len cmd d : zlen (improv_packet cmd d) = 3 + zlen d.
Proof. unfold improv_packet, improv_body. llia. Qed.
Lemma improv_packet_fields cmd d :
  get (improv_packet cmd d) 0 = cmd /\ get (improv_packet cmd d) 1 = zlen d /\
  ztake (zlen d) (zdrop 2 (improv_packet cmd d)) = d.
Proof.
  split; [done|]. split; [done|]. unfold improv_packet, improv_body. cbn [app].
  rewrite !zdrop_S by lia. change (2 - 1 - 1) with 0. rewrite zdrop_0. by rewrite ztake_app_len.
Qed.
Lemma improv_packet_of buf dl :
  0 <= dl -> zlen buf = dl + 3 -> get buf 1 = dl -> csum (ztake (dl + 2) buf) = get buf (dl + 2) ->
  buf = improv_packet (get buf 0) (ztake dl (zdrop 2 buf)).
Proof.
  intros Hd Hl H1 Hc.
  assert (ztake (dl + 2) buf = improv_body (get buf 0) (ztake dl (zdrop 2 buf))) as E.
  { unfold improv_body. rewrite zlen_ztake, zlen_zdrop by lia.
    replace (Z.min dl (Z.max 0 (zlen buf - 2))) with (get buf 1) by lia.
    replace (dl + 2) with (2 + dl) by lia. rewrite ztake_add by lia.
    change (ztake 2 buf) with (ztake (0 + 1 + 1) buf). rewrite !ztake_S_get by lia. done. }
  unfold improv_packet. rewrite <- E, Hc. rewrite <- ztake_S_get by lia.
  symmetry. apply ztake_ge. lia.
Qed.
Lemma improv_packet_csum cmd d :
  csum (ztake (zlen d + 2) (improv_packet cmd d)) = get (improv_packet cmd d) (zlen d + 2).
Proof.
  unfold improv_packet. pose proof (improv_body_len cmd d). pose proof (zlen_nonneg d).
  rewrite ztake_app_len by lia. rewrite get_app_r by lia.
  replace (zlen d + 2 - zlen (improv_body cmd d)) with 0 by lia. done.
Qed.

(** What a packet means: the result for its command and data. *)
Definition verdict (cmd : Z) (d : list Z) (r : Z) (c' : improv_cmd) : Prop :=
  if cmd =? IMPROV_CMD_WIFI then
    (r = 0 /\ exists ssid pass, wifi_valid d ssid pass /\ stored c' ssid pass) \/
    (r = IMPROV_ERR_INVALID /\ ~ exists ssid pass, wifi_valid d ssid pass)
  else if (cmd =? IMPROV_CMD_IDENTIFY) || (cmd =? IMPROV_CMD_INFO) then
    (r = 0 /\ d = []) \/ (r = IMPROV_ERR_INVALID /\ d <> [])
  else r = IMPROV_ERR_UNKNOWN.

Lemma not_packet buf :
  0 <= get buf 1 ->
  (zlen buf <> get buf 1 + 3 \/ csum (ztake (get buf 1 + 2) buf) <> get buf (get buf 1 + 2)) ->
  forall cmd d, buf <> improv_packet cmd d.
Proof.
  intros H1 H cmd d ->. pose proof (improv_packet_len cmd d).
  pose proof (improv_packet_csum cmd d). destruct (improv_packet_fields cmd d) as (_ & E & _).
  rewrite E in H. destruct H; [lia|done].
Qed.

Lemma improv_parse_spec buf c :
  bytes buf -> zlen (i_ssid c) = 33 -> zlen (i_pass c) = 64 ->
  exists r c', improv_parse buf c = Some (r, c') /\
    ((r = 1 /\ ~ complete buf) \/
     (r = IMPROV_ERR_INVALID /\ complete buf /\ forall cmd d, buf <> improv_packet cmd d) \/
     (exists cmd d, buf = improv_packet cmd d /\ i_cmd c' = cmd /\ verdict cmd d r c')).
Proof.
  intros Hb Hs Hp. unfold improv_parse, complete.
  if_goal; [eexists; eexists; split; [reflexivity|]; left; split; [done|lia]|].
  rewrite (rd_Some buf 1) by lia. cbn [mbind option_bind].
  pose proof (get_byte buf 1 Hb) as B. unfold is_byte in B.
  if_goal; [eexists; eexists; split; [reflexivity|]; left; split; [done|lia]|].
  if_goal.
  { eexists; eexists; split; [reflexivity|]. right. left. split; [done|]. split; [lia|].
    apply not_packet; lia. }
  rewrite checksum_eq by lia. rewrite (rd_Some buf (get buf 1 + 2)) by lia. cbn [mbind option_bind].
  destruct (Z.eqb_spec (csum (ztake (get buf 1 + 2) buf)) (get buf (get buf 1 + 2))) as [E|E]; cbn [negb].
  2: { eexists; eexists; split; [reflexivity|]. right. left. split; [done|]. split; [lia|].
       apply not_packet; [lia|]. right. done. }
  rewrite (rd_Some buf 0) by lia. cbn [mbind option_bind].
  pose proof (improv_packet_of buf (get buf 1) ltac:(lia) ltac:(lia) eq_refl E) as P.
  set (d := ztake (get buf 1) (zdrop 2 buf)) in *.
  assert (zlen d = get buf 1) as Ld by (unfold d; llia).
  destruct (get buf 0 =? IMPROV_CMD_WIFI) eqn:W.
  - destruct (parse_wifi_eq (zdrop 2 buf) (get buf 1) (ImprovCmd (get buf 0) (i_ssid c) (i_pass c)))
      as (r & c' & -> & V); [auto with port|llia|done|done|].
    destruct V as [Ec V]. exists r, c'. split; [done|]. right. right. exists (get buf 0), d.
    split; [exact P|]. split; [exact Ec|]. unfold verdict. rewrite W. exact V.
  - destruct ((get buf 0 =? IMPROV_CMD_IDENTIFY) || (get buf 0 =? IMPROV_CMD_INFO)) eqn:W2;
      (eexists; eexists; split; [reflexivity|]; right; right; exists (get buf 0), d;
       split; [exact P|]; split; [reflexivity|]; unfold verdict; rewrite W, W2); [|done].
    destruct (nz (get buf 1)) eqn:N.
    + right. split; [done|]. intros D. rewrite D in Ld. apply nz_true in N. by symmetry in Ld.
    + left. split; [done|]. apply zlen_0_nil. apply nz_false in N. lia.
Qed.

(** Improv_parse() reads no byte outside of the packet and writes none
    outside of [ssid] and [pass], whatever comes; it takes a Wi-Fi command
    exactly when the packet encodes a network name of 1 to 32 bytes and a
    passphrase that is empty or 8 to 63 printable characters, and then it
    stores these strings; it takes the other commands exactly without data; and
    it answers 1 for a packet that is not complete, but also
    ([IMPROV_ERR_INVALID]) for a complete one that is not valid. *)
Theorem improv_parse_correct buf c :
  bytes buf -> zlen (i_ssid c) = 33 -> zlen (i_pass c) = 64 ->
  exists r c', improv_parse buf c = Some (r, c') /\
    ((r = 1 /\ ~ complete buf) \/
     (r = IMPROV_ERR_INVALID /\ complete buf /\ forall cmd d, buf <> improv_packet cmd d) \/
     (exists cmd d, buf = improv_packet cmd d /\ i_cmd c' = cmd /\ verdict cmd d r c')).
Proof. apply improv_parse_spec. Qed.

(** * Results *)

Definition encode_strings (s : list (list Z)) : list Z := mjoin ((fun x => zlen x :: x) <$> s).

(** How many strings of [s] the loop takes when [pos] bytes are used. *)
Fixpoint fitting (s : list (list Z)) (pos : Z) : nat :=
  match s with
  | [] => O
  | x :: s => if (zlen x >? 40) || (pos + 1 + zlen x >? 60) then O else S (fitting s (pos + 1 + zlen x))
  end.

Lemma encode_strings_cons x s : encode_strings (x :: s) = zlen x :: x ++ encode_strings s.
Proof. done. Qed.
Lemma result_loop_eq s buf pos :
  zlen buf = 64 -> 0 <= pos <= 60 ->
  exists buf', result_loop s buf pos = Some (buf', pos + zlen (encode_strings (take (fitting s pos) s))) /\
    zlen buf' = 64 /\
    ztake (pos + zlen (encode_strings (take (fitting s pos) s))) buf' =
      ztake pos buf ++ encode_strings (take (fitting s pos) s) /\
    pos + zlen (encode_strings (take (fitting s pos) s)) <= 60.
Proof.
  revert buf pos. induction s as [|x s IH]; intros buf pos Hb Hp.
  - exists buf. cbn. rewrite !Z.add_0_r, app_nil_r. split_and!; done || lia.
  - cbn [result_loop fitting]. pose proof (zlen_nonneg x).
    if_goal.
    { exists buf. cbn. rewrite !Z.add_0_r, app_nil_r. split_and!; done || lia. }
    rewrite u8_small by lia.
    destruct (blit buf pos [zlen x]) as [b1|] eqn:E1; [|rewrite blit_Some in E1; [done|lia|llia]].
    cbn [mbind option_bind]. pose proof (blit_len _ _ _ _ E1) as L1.
    destruct (blit b1 (pos + 1) x) as [b2|] eqn:E2; [|rewrite blit_Some in E2; [done|lia|llia]].
    cbn [mbind option_bind]. pose proof (blit_len _ _ _ _ E2) as L2.
    destruct (IH b2 (pos + 1 + zlen x)) as (b3 & E3 & L3 & T3 & B3); [lia|lia|].
    apply blit_append in E1, E2. change (zlen [zlen x]) with 1 in E1.
    cbn [take]. rewrite encode_strings_cons, zlen_cons, zlen_app.
    set (e := encode_strings (take (fitting s (pos + 1 + zlen x)) s)) in *.
    replace (pos + (1 + (zlen x + zlen e))) with (pos + 1 + zlen x + zlen e) by lia.
    exists b3. split; [exact E3|]. split; [done|]. split; [|lia].
    rewrite T3, E2, E1. rewrite <- !app_assoc. done.
Qed.

Lemma improv_result_spec buf cmd s :
  zlen buf = 64 ->
  exists buf', let d := encode_strings (take (fitting s 2) s) in
    improv_result buf cmd s = Some (buf', 3 + zlen d) /\ zlen buf' = 64 /\
    3 + zlen d <= 61 /\ ztake (3 + zlen d) buf' = improv_packet cmd d.
Proof.
  intros Hb. cbv zeta. unfold improv_result.
  destruct (blit buf 0 [cmd]) as [b0|] eqn:E0; [|rewrite blit_Some in E0; [done|lia|llia]].
  cbn [mbind option_bind]. pose proof (blit_len _ _ _ _ E0) as L0. apply blit_append in E0.
  destruct (result_loop_eq s b0 2) as (b1 & -> & L1 & T1 & B1); [lia|lia|].
  cbn [mbind option_bind]. set (d := encode_strings (take (fitting s 2) s)) in *.
  pose proof (zlen_nonneg d). replace (2 + zlen d - 2) with (zlen d) by lia.
  rewrite u8_small by lia.
  rewrite blit_Some by llia. cbn [mbind option_bind app].
  set (b2 := ztake 1 b1 ++ _). assert (zlen b2 = 64) as L2 by (unfold b2; llia).
  assert (ztake (2 + zlen d) b2 = improv_body cmd d) as T2.
  { assert (ztake 1 b1 = [cmd]) as H1.
    { replace (ztake 1 b1) with (ztake 1 (ztake (2 + zlen d) b1)).
      2: { unfold ztake. rewrite take_take. f_equal. lia. }
      rewrite T1. rewrite ztake_app_le by llia.
      replace (ztake 1 (ztake 2 b0)) with (ztake 1 b0); [exact E0|].
      unfold ztake. rewrite take_take. f_equal. }
    unfold b2. rewrite H1. cbn [app]. rewrite !ztake_S by lia. unfold improv_body.
    do 2 f_equal. change (1 + zlen [zlen d]) with 2.
    replace (2 + zlen d - 1 - 1) with (zlen d) by lia.
    assert (zdrop 2 (ztake (2 + zlen d) b1) = d) as D.
    { rewrite T1. apply zdrop_app_len. llia. }
    rewrite <- D at 2. unfold ztake, zdrop. rewrite skipn_firstn_comm. f_equal. lia. }
  rewrite checksum_eq by lia. cbn [mbind option_bind]. rewrite T2.
  destruct (blit b2 (2 + zlen d) [csum (improv_body cmd d)]) as [b3|] eqn:E3;
    [|rewrite blit_Some in E3; [done|lia|llia]].
  cbn [mbind option_bind]. pose proof (blit_len _ _ _ _ E3) as L3. apply blit_append in E3.
  rewrite T2 in E3. change (zlen [csum (improv_body cmd d)]) with 1 in E3.
  exists b3. replace (3 + zlen d) with (2 + zlen d + 1) by lia. split_and!; done || lia.
Qed.

(** Improv_result() writes inside the 64 bytes of [struct gatt.result] for
    any strings, and what it writes is the RPC packet of the command with the
    longest prefix of the strings that fits 60 bytes, at most 61 bytes with a
    right checksum. *)
Theorem improv_result_correct buf cmd s :
  zlen buf = 64 ->
  exists buf', let d := encode_strings (take (fitting s 2) s) in
    improv_result buf cmd s = Some (buf', 3 + zlen d) /\ zlen buf' = 64 /\
    3 + zlen d <= 61 /\ ztake (3 + zlen d) buf' = improv_packet cmd d.
Proof. apply improv_result_spec. Qed.

Lemma result_loop_bytes s buf pos r :
  Forall bytes s -> bytes buf -> result_loop s buf pos = Some r -> bytes (fst r).
Proof.
  intros Hs. revert buf pos. induction Hs as [|x s Hx _ IH]; intros buf pos Hb; cbn [result_loop].
  - intros [= <-]. done.
  - if_goal; [intros [= <-]; done|].
    destruct (blit buf pos [u8 (zlen x)]) as [b1|] eqn:E1; [|done]. cbn [mbind option_bind].
    destruct (blit b1 (pos + 1) x) as [b2|] eqn:E2; [|done]. cbn [mbind option_bind].
    apply IH. refine (blit_bytes _ _ _ _ _ Hx E2). refine (blit_bytes _ _ _ _ Hb _ E1).
    apply bytes_cons. split; [apply u8_range|constructor].
Qed.
Lemma improv_result_bytes buf cmd s buf' n :
  bytes buf -> is_byte cmd -> Forall bytes s -> improv_result buf cmd s = Some (buf', n) -> bytes buf'.
Proof.
  intros Hb Hc Hs. unfold improv_result.
  destruct (blit buf 0 [cmd]) as [b0|] eqn:E0; [|done]. cbn [mbind option_bind].
  destruct (result_loop s b0 2) as [[b1 pos]|] eqn:E1; [|done]. cbn [mbind option_bind].
  destruct (blit b1 1 [u8 (pos - 2)]) as [b2|] eqn:E2; [|done]. cbn [mbind option_bind].
  unfold checksum. destruct (checksum_loop (Z.to_nat pos) b2 0 0) as [sum|]; [|done]. cbn [mbind option_bind].
  destruct (blit b2 pos [u8 sum]) as [b3|] eqn:E3; [|done]. cbn [mbind option_bind]. intros [= <- <-].
  assert (forall b, is_byte b -> bytes [b]) as One by (intros; apply bytes_cons; split; [done|constructor]).
  apply result_loop_bytes in E1; [|done|by eapply blit_bytes; [..|exact E0]; auto].
  eapply blit_bytes; [|apply One, u8_range|exact E3].
  eapply blit_bytes; [exact E1|apply One, u8_range|exact E2].
Qed.

(** * Instances *)

Definition cmd0 : improv_cmd := ImprovCmd 0 (zeros 33) (zeros 64).
Definition pkt0 : list Z := improv_packet 1 (wifi_data [110; 101; 116] []).
Lemma pkt0_bytes : bytes pkt0.
Proof. unfold pkt0, bytes. vm_compute. repeat constructor; discriminate. Qed.

Lemma improv_parse_witness :
  exists r c', improv_parse pkt0 cmd0 = Some (r, c') /\ r = 0 /\ c_str (i_ssid c') = [110; 101; 116].
Proof.
  destruct (improv_parse_correct pkt0 cmd0 pkt0_bytes eq_refl eq_refl) as (r & c' & E & _).
  exists r, c'. split; [exact E|]. vm_compute in E. injection E as <- <-. split; reflexivity.
Defined.
Lemma improv_result_witness :
  exists buf', improv_result (zeros 64) 3 [[49]; zeros 41] = Some (buf', 5).
Proof.
  destruct (improv_result_correct (zeros 64) 3 [[49]; zeros 41] eq_refl) as (buf' & E & _).
  exists buf'. exact E.
Defined.
