(* ===== verification/Gatt.v ===== *)
(** The ATT server of ble-ha: tools/ble-ha/gatt.c, and struct gatt of ble-ha.h.

    [gatt_handle] is a function on the server's state [gatt] and the state [W]
    of the program, which the callback [rpc_write] changes; its result holds
    the bytes of the response, none for no response.  [None] is an access
    outside of the request, of the prepared writes or of a local array: the 64
    bytes [v] for a value, the 16 bytes [type] and [want] for a type. *)

From stdpp Require Import list.
From S2P Require Import Prelude.

(** * ble-ha.h *)

Definition GATT_STATE_VALUE : Z := 8.
Definition GATT_ERROR_VALUE : Z := 11.
Definition GATT_RPC_VALUE : Z := 14.
Definition GATT_RESULT_VALUE : Z := 16.

Record gatt := Gatt {
  name : list Z; state : Z; error : Z; caps : Z;
  result : list Z; result_len : Z;
  cccd : list Z;
  mtu : Z; mtu_max : Z;
  prep : list Z; prep_len : Z }.

Definition with_state (v : Z) (g : gatt) : gatt :=
  Gatt (name g) v (error g) (caps g) (result g) (result_len g) (cccd g) (mtu g) (mtu_max g) (prep g) (prep_len g).
Definition with_error (v : Z) (g : gatt) : gatt :=
  Gatt (name g) (state g) v (caps g) (result g) (result_len g) (cccd g) (mtu g) (mtu_max g) (prep g) (prep_len g).
Definition with_result (r : list Z) (n : Z) (g : gatt) : gatt :=
  Gatt (name g) (state g) (error g) (caps g) r n (cccd g) (mtu g) (mtu_max g) (prep g) (prep_len g).
Definition with_cccd (v : list Z) (g : gatt) : gatt :=
  Gatt (name g) (state g) (error g) (caps g) (result g) (result_len g) v (mtu g) (mtu_max g) (prep g) (prep_len g).
Definition with_mtu (v : Z) (g : gatt) : gatt :=
  Gatt (name g) (state g) (error g) (caps g) (result g) (result_len g) (cccd g) v (mtu_max g) (prep g) (prep_len g).
Definition with_mtu_max (v : Z) (g : gatt) : gatt :=
  Gatt (name g) (state g) (error g) (caps g) (result g) (result_len g) (cccd g) (mtu g) v (prep g) (prep_len g).
Definition with_prep (p : list Z) (n : Z) (g : gatt) : gatt :=
  Gatt (name g) (state g) (error g) (caps g) (result g) (result_len g) (cccd g) (mtu g) (mtu_max g) p n.

(** * The database *)

Inductive attr_kind := SVC | DECL | VALUE | CCCD.
#[global] Instance attr_kind_eq_dec : EqDecision attr_kind.
Proof. solve_decision. Defined.

Definition PROP_READ : Z := 0x02.
Definition PROP_WNR : Z := 0x04.
Definition PROP_WRITE : Z := 0x08.
Definition PROP_NOTIFY : Z := 0x10.

Definition ERR_INVALID_HANDLE : Z := 0x01.
Definition ERR_READ_NOT_PERM : Z := 0x02.
Definition ERR_WRITE_NOT_PERM : Z := 0x03.
Definition ERR_NOT_SUPPORTED : Z := 0x06.
Definition ERR_INVALID_OFFSET : Z := 0x07.
Definition ERR_QUEUE_FULL : Z := 0x09.
Definition ERR_NOT_FOUND : Z := 0x0a.
Definition ERR_INVALID_LEN : Z := 0x0d.

Definition LAST_HANDLE : Z := 19.

Definition IMPROV (x : Z) : list Z :=
  [x; 0x80; 0x26; 0x78; 0x74; 0x27; 0x63; 0x46; 0x72; 0x22; 0x28; 0x62; 0x68; 0x77; 0x46; 0x00].
Definition U16 (x : Z) : list Z := [Z.land x 0xff; Z.shiftr x 8].

(** [uuid] has the length [uuid_len]. *)
Record attr := Attr { kind : attr_kind; props : Z; uuid : list Z }.

Definition db : list attr := [
  Attr SVC 0 [];
  Attr SVC 0 (U16 0x1800);
  Attr DECL PROP_READ (U16 0x2a00);
  Attr VALUE PROP_READ (U16 0x2a00);
  Attr DECL PROP_READ (U16 0x2a01);
  Attr VALUE PROP_READ (U16 0x2a01);
  Attr SVC 0 (IMPROV 0x00);
  Attr DECL (Z.lor PROP_READ PROP_NOTIFY) (IMPROV 0x01);
  Attr VALUE (Z.lor PROP_READ PROP_NOTIFY) (IMPROV 0x01);
  Attr CCCD 0 [];
  Attr DECL (Z.lor PROP_READ PROP_NOTIFY) (IMPROV 0x02);
  Attr VALUE (Z.lor PROP_READ PROP_NOTIFY) (IMPROV 0x02);
  Attr CCCD 0 [];
  Attr DECL (Z.lor PROP_WRITE PROP_WNR) (IMPROV 0x03);
  Attr VALUE (Z.lor PROP_WRITE PROP_WNR) (IMPROV 0x03);
  Attr DECL (Z.lor PROP_READ PROP_NOTIFY) (IMPROV 0x04);
  Attr VALUE (Z.lor PROP_READ PROP_NOTIFY) (IMPROV 0x04);
  Attr CCCD 0 [];
  Attr DECL PROP_READ (IMPROV 0x05);
  Attr VALUE PROP_READ (IMPROV 0x05)].

(** [db[h]]. *)
Definition db_at (h : Z) : option attr := if 0 <=? h then db !! Z.to_nat h else None.

Definition gatt_init (nm : list Z) (cp : Z) : gatt :=
  Gatt nm 0x02 0 cp (zeros 64) 0 [0; 0; 0] 23 23 (zeros 128) 0.

Definition cccd_index (h : Z) : Z :=
  if h =? 9 then 0 else if h =? 12 then 1 else if h =? 17 then 2 else -1.

Definition gatt_notify_enabled (g : gatt) (value_handle : Z) : option bool :=
  let i := cccd_index (value_handle + 1) in
  if i >=? 0 then c ← rd (cccd g) i; Some (nz (Z.land c 1)) else Some false.

(** In the 16 bytes [type] of the callers. *)
Definition attr_type (h : Z) : option (list Z) :=
  a ← db_at h;
  in_array 16 match kind a with
              | SVC => U16 0x2800
              | DECL => U16 0x2803
              | CCCD => U16 0x2902
              | VALUE => uuid a
              end.

(** A value in the 64 bytes [v] of the callers. *)
Definition value (v : list Z) : option (Z + list Z) :=
  v ← in_array 64 v; Some (inr v).
(** [inl e] is [-e]. *)
Definition attr_value (g : gatt) (h : Z) : option (Z + list Z) :=
  if (h <? 1) || (h >? LAST_HANDLE) then Some (inl ERR_INVALID_HANDLE)
  else
    a ← db_at h;
    match kind a with
    | SVC => value (uuid a)
    | DECL => value ([props a; Z.land (h + 1) 0xff; u8 (Z.shiftr (h + 1) 8)] ++ uuid a)
    | CCCD => c ← rd (cccd g) (cccd_index h); value [Z.land c 0xff; u8 (Z.shiftr c 8)]
    | VALUE =>
        if h =? 3 then value (name g)
        else if h =? 5 then value [0; 0]
        else if h =? GATT_STATE_VALUE then value [state g]
        else if h =? GATT_ERROR_VALUE then value [error g]
        else if h =? GATT_RESULT_VALUE then r ← slice (result g) 0 (result_len g); value r
        else if h =? 19 then value [caps g]
        else Some (inl ERR_READ_NOT_PERM)
    end.

(** * The requests *)

Definition error_rsp (op h err : Z) : list Z := [0x01; op; Z.land h 0xff; u8 (Z.shiftr h 8); err].
Definition get16 (p : list Z) (i : Z) : option Z :=
  b0 ← rd p i; b1 ← rd p (i + 1); Some (u16 (of_le16 b0 b1)).
Definition put16 (v : Z) : list Z := le16 v.

(** Twenty rounds pass the last handle. *)
Fixpoint group_end_loop (rounds : nat) (e : Z) : option Z :=
  match rounds with
  | O => None
  | S rounds =>
      if e <=? LAST_HANDLE then
        a ← db_at e;
        if negb (bool_decide (kind a = SVC)) then group_end_loop rounds (e + 1) else Some e
      else Some e
  end.
Definition group_end (h : Z) : option Z := e ← group_end_loop 20 (h + 1); Some (e - 1).

(** [for (h = start; h <= end && h <= LAST_HANDLE; h++)]. *)
Definition handles (start end_ : Z) : list Z := seqZ start (Z.min end_ LAST_HANDLE - start + 1).

(** The loop: the entries behind the first two bytes of the response and
    [entry], or an error response. *)
Fixpoint read_by_type_loop (g : gatt) (op : Z) (group : bool) (want : list Z) (max : Z)
    (hs : list Z) (out : list Z) (entry : Z) : option (list Z + list Z * Z) :=
  match hs with
  | [] => Some (inr (out, entry))
  | h :: hs =>
      type ← attr_type h;
      if negb (bool_decide (type = want)) then read_by_type_loop g op group want max hs out entry
      else
        vl ← attr_value g h;
        match vl with
        | inl e => if nz entry then Some (inr (out, entry)) else Some (inl (error_rsp op h e))
        | inr v =>
            let el := (if group then 4 else 2) + zlen v in
            if nz entry && negb (el =? entry) then Some (inr (out, entry))
            else if 2 + zlen out + el >? max then Some (inr (out, entry))
            else
              e ← (if group then ge ← group_end h; Some (put16 ge) else Some []);
              read_by_type_loop g op group want max hs (out ++ put16 h ++ e ++ v) el
        end
  end.
Definition read_by_type (g : gatt) (req : list Z) (max : Z) : option (list Z) :=
  start ← get16 req 1;
  end_ ← get16 req 3;
  op ← rd req 0;
  let wl := zlen req - 5 in
  let group := op =? 0x10 in
  let badlen := negb (wl =? 2) && negb (wl =? 16) in
  if badlen || (start =? 0) || (start >? end_)
  then Some (error_rsp op start (if badlen then ERR_INVALID_LEN else ERR_INVALID_HANDLE))
  else
    want ← slice req 5 wl;
    want ← in_array 16 want;
    r ← read_by_type_loop g op group want max (handles start end_) [] 0;
    match r with
    | inl e => Some e
    | inr (out, entry) =>
        if entry =? 0 then Some (error_rsp op start ERR_NOT_FOUND)
        else Some ([u8 (op + 1); u8 entry] ++ out)
    end.

Fixpoint find_info_loop (max : Z) (hs : list Z) (out : list Z) (tl : Z) : option (list Z * Z) :=
  match hs with
  | [] => Some (out, tl)
  | h :: hs =>
      type ← attr_type h;
      let l := zlen type in
      if (nz tl && negb (l =? tl)) || (2 + zlen out + 2 + l >? max) then Some (out, tl)
      else find_info_loop max hs (out ++ put16 h ++ type) l
  end.
Definition find_info (req : list Z) (max : Z) : option (list Z) :=
  start ← get16 req 1;
  end_ ← get16 req 3;
  op ← rd req 0;
  if (start =? 0) || (start >? end_) then Some (error_rsp op start ERR_INVALID_HANDLE)
  else
    '(out, tl) ← find_info_loop max (handles start end_) [] 0;
    if tl =? 0 then Some (error_rsp op start ERR_NOT_FOUND)
    else Some ([0x05; if tl =? 2 then 1 else 2] ++ out).

Fixpoint find_by_value_loop (type : Z) (want : list Z) (max : Z) (hs : list Z) (out : list Z) : option (list Z) :=
  match hs with
  | [] => Some out
  | h :: hs =>
      a ← db_at h;
      if negb (type =? 0x2800) || negb (bool_decide (kind a = SVC)) ||
         negb (bool_decide (uuid a = want)) || (1 + zlen out + 4 >? max)
      then find_by_value_loop type want max hs out
      else e ← group_end h; find_by_value_loop type want max hs (out ++ put16 h ++ put16 e)
  end.
Definition find_by_value (req : list Z) (max : Z) : option (list Z) :=
  start ← get16 req 1;
  end_ ← get16 req 3;
  op ← rd req 0;
  if (start =? 0) || (start >? end_) then Some (error_rsp op start ERR_INVALID_HANDLE)
  else
    type ← get16 req 5;
    want ← slice req 7 (zlen req - 7);
    out ← find_by_value_loop type want max (handles start end_) [];
    if zlen out =? 0 then Some (error_rsp op start ERR_NOT_FOUND) else Some (0x07 :: out).

Definition read_value (g : gatt) (req : list Z) (max : Z) : option (list Z) :=
  h ← get16 req 1;
  op ← rd req 0;
  off ← (if (op =? 0x0c) && (zlen req >=? 5) then get16 req 3 else Some 0);
  vl ← attr_value g h;
  match vl with
  | inl e => Some (error_rsp op h e)
  | inr v =>
      if off >? zlen v then Some (error_rsp op h ERR_INVALID_OFFSET)
      else
        let n := zlen v - off in
        let n := if n >? max - 1 then max - 1 else n in
        s ← slice v off n;
        Some (u8 (op + 1) :: s)
  end.

Section handle.
Context {W : Type}.
(** The callback, which can change the server and the rest of the program. *)
Variable rpc_write : gatt -> W -> list Z -> option (gatt * W).

(** The ATT error, or 0. *)
Definition write_value (g : gatt) (w : W) (h : Z) (v : list Z) : option (Z * gatt * W) :=
  let i := cccd_index h in
  if i >=? 0 then
    if negb (zlen v =? 2) then Some (ERR_INVALID_LEN, g, w)
    else c ← get16 v 0; Some (0, with_cccd (<[Z.to_nat i := c]> (cccd g)) g, w)
  else if h =? GATT_RPC_VALUE then '(g, w) ← rpc_write g w v; Some (0, g, w)
  else Some (if (h <? 1) || (h >? LAST_HANDLE) then ERR_INVALID_HANDLE else ERR_WRITE_NOT_PERM, g, w).

Definition prepare_write (g : gatt) (w : W) (req : list Z) (max : Z) : option (gatt * W * list Z) :=
  let len := zlen req in
  if len <? 5 then Some (g, w, error_rsp 0x16 0 ERR_INVALID_LEN)
  else
    h ← get16 req 1;
    off ← get16 req 3;
    if negb (h =? GATT_RPC_VALUE) then Some (g, w, error_rsp 0x16 h ERR_WRITE_NOT_PERM)
    else if negb (off =? prep_len g) then Some (g, w, error_rsp 0x16 h ERR_INVALID_OFFSET)
    else if prep_len g + len - 5 >? 128 then Some (g, w, error_rsp 0x16 h ERR_QUEUE_FULL)
    else
      part ← slice req 5 (len - 5);
      p ← blit (prep g) (prep_len g) part;
      let g := with_prep p (prep_len g + (len - 5)) g in
      echo ← slice req 1 (Z.min len max - 1);
      Some (g, w, 0x17 :: echo).

Definition execute_write (g : gatt) (w : W) (req : list Z) : option (gatt * W * list Z) :=
  flag ← (if zlen req >=? 2 then rd req 1 else Some 0);
  '(g, w) ← (if (flag =? 1) && nz (prep_len g)
             then d ← slice (prep g) 0 (prep_len g); rpc_write g w d else Some (g, w));
  p ← blit (prep g) 0 (zeros (prep_len g));
  Some (with_prep p 0 g, w, [0x19]).

Definition gatt_handle (g : gatt) (w : W) (req : list Z) (max : Z) : option (gatt * W * list Z) :=
  let len := zlen req in
  if len =? 0 then Some (g, w, [])
  else
    let max := if max >? mtu g then mtu g else max in
    op ← rd req 0;
    let bad := Some (g, w, error_rsp op 0 ERR_INVALID_LEN) in
    let pure r := rsp ← r; Some (g, w, rsp) in
    if op =? 0x02 then
      if len <? 3 then bad
      else
        m ← get16 req 1;
        let m := if m <? mtu_max g then m else mtu_max g in
        let m := if m <? 23 then 23 else m in
        Some (with_mtu m g, w, 0x03 :: put16 (mtu_max g))
    else if op =? 0x04 then if len =? 5 then pure (find_info req max) else bad
    else if op =? 0x06 then if len >=? 7 then pure (find_by_value req max) else bad
    else if (op =? 0x08) || (op =? 0x10) then if len >=? 7 then pure (read_by_type g req max) else bad
    else if (op =? 0x0a) || (op =? 0x0c) then if len >=? 3 then pure (read_value g req max) else bad
    else if op =? 0x12 then
      if len <? 3 then bad
      else
        h ← get16 req 1;
        v ← slice req 3 (len - 3);
        '(err, g, w) ← write_value g w h v;
        if nz err then Some (g, w, error_rsp op h err) else Some (g, w, [0x13])
    else if op =? 0x52 then
      if len >=? 3 then
        h ← get16 req 1;
        v ← slice req 3 (len - 3);
        '(_, g, w) ← write_value g w h v;
        Some (g, w, [])
      else Some (g, w, [])
    else if op =? 0x16 then prepare_write g w req max
    else if op =? 0x18 then execute_write g w req
    else if op =? 0x1e then Some (g, w, [])
    else if nz (Z.land op 0x40) then Some (g, w, [])
    else Some (g, w, error_rsp op 0 ERR_NOT_SUPPORTED).
End handle.

(** * The state of the server *)

Definition word16 (v : Z) : Prop := 0 <= v < 65536.
Record gatt_ok (g : gatt) : Prop := {
  ok_name : zlen (name g) <= 63 /\ bytes (name g);
  ok_bytes : is_byte (state g) /\ is_byte (error g) /\ is_byte (caps g);
  ok_result : zlen (result g) = 64 /\ bytes (result g) /\ 0 <= result_len g <= 64;
  ok_cccd : zlen (cccd g) = 3 /\ Forall word16 (cccd g);
  ok_mtu : 23 <= mtu g <= mtu_max g /\ mtu_max g < 65536;
  ok_prep : zlen (prep g) = 128 /\ bytes (prep g) /\ 0 <= prep_len g <= 128 }.

(** What [gatt_handle] needs of the callback. *)
Class RpcHandler {W : Type} (ok : W -> Prop) (rpc : gatt -> W -> list Z -> option (gatt * W)) : Prop :=
  rpc_total g w d : gatt_ok g -> ok w -> bytes d ->
    exists g' w', rpc g w d = Some (g', w') /\ gatt_ok g' /\ ok w'.

Lemma gatt_ok_cccd g v : zlen v = 3 -> Forall word16 v -> gatt_ok g -> gatt_ok (with_cccd v g).
Proof. intros ? ? []. by constructor. Qed.
Lemma gatt_ok_mtu g v : 23 <= v <= mtu_max g -> gatt_ok g -> gatt_ok (with_mtu v g).
Proof. intros ? []. constructor; try done. cbn. lia. Qed.
Lemma gatt_ok_prep g p n :
  zlen p = 128 -> bytes p -> 0 <= n <= 128 -> gatt_ok g -> gatt_ok (with_prep p n g).
Proof. intros ? ? ? []. by constructor. Qed.
#[export] Hint Resolve gatt_ok_cccd gatt_ok_mtu gatt_ok_prep : port.

(** A fact about each handle. *)
Lemma handle_cases (P : Z -> Prop) : Forall P (seqZ 1 19) -> forall h, 1 <= h <= LAST_HANDLE -> P h.
Proof.
  intros H h Hh. rewrite Forall_forall in H. apply H. apply list_elem_of_In, elem_of_seqZ. unfold LAST_HANDLE in Hh. lia.
Qed.
Lemma handles_range start end_ : 1 <= start -> Forall (fun h => 1 <= h <= LAST_HANDLE) (handles start end_).
Proof.
  intros Hs. apply Forall_forall. intros h Hh%list_elem_of_In%elem_of_seqZ. lia.
Qed.

Lemma attr_type_ok h : 1 <= h <= LAST_HANDLE ->
  exists t, attr_type h = Some t /\ (zlen t = 2 \/ zlen t = 16) /\ bytes t.
Proof.
  revert h. apply handle_cases. change (seqZ 1 19) with [1;2;3;4;5;6;7;8;9;10;11;12;13;14;15;16;17;18;19].
  repeat apply Forall_cons_2; [..|apply Forall_nil_2];
    (eexists; split; [reflexivity|]; split; [vm_compute; auto|apply is_bytes_spec; reflexivity]).
Qed.
Lemma group_end_ok h : 1 <= h <= LAST_HANDLE ->
  exists e, group_end h = Some e /\ h <= e <= LAST_HANDLE.
Proof.
  revert h. apply handle_cases. change (seqZ 1 19) with [1;2;3;4;5;6;7;8;9;10;11;12;13;14;15;16;17;18;19].
  repeat apply Forall_cons_2; [..|apply Forall_nil_2];
    (eexists; split; [reflexivity|]; vm_compute; split; discriminate).
Qed.
Lemma db_at_ok h : 1 <= h <= LAST_HANDLE -> exists a, db_at h = Some a.
Proof.
  revert h. apply handle_cases. change (seqZ 1 19) with [1;2;3;4;5;6;7;8;9;10;11;12;13;14;15;16;17;18;19].
  repeat apply Forall_cons_2; [..|apply Forall_nil_2]; (eexists; reflexivity).
Qed.

(** A value of the right size, or an error. *)
Definition value_ok (r : Z + list Z) : Prop :=
  match r with inl e => 0 < e < 256 | inr v => zlen v <= 64 /\ bytes v end.
Lemma value_Some v : zlen v <= 64 -> bytes v -> exists r, value v = Some r /\ value_ok r.
Proof. intros L B. unfold value. rewrite in_array_Some by done. by exists (inr v). Qed.
Lemma cccd_rd g i : gatt_ok g -> 0 <= i < 3 -> exists c, rd (cccd g) i = Some c /\ word16 c.
Proof.
  intros [_ _ _ [L F] _ _] Hi. unfold rd. rewrite (proj2 (Z.leb_le 0 i)) by lia.
  destruct (lookup_lt_is_Some_2 (cccd g) (Z.to_nat i)) as [c E]; [unfold zlen in L; lia|].
  exists c. split; [exact E|]. by apply (Forall_lookup_1 _ _ _ _ F E).
Qed.
Lemma cccd_value g i : gatt_ok g -> 0 <= i < 3 ->
  exists r, (cccd g !! Z.to_nat i ≫= fun c => value [Z.land c 0xff; u8 (Z.shiftr c 8)]) = Some r /\ value_ok r.
Proof.
  intros Hg Hi. destruct (cccd_rd g i Hg Hi) as (c & E & _). unfold rd in E.
  rewrite (proj2 (Z.leb_le 0 i)) in E by lia. rewrite E. cbn [mbind option_bind].
  apply value_Some; [llia|]. rewrite land_255. apply bytes_cons. split; [apply u8_range|].
  apply bytes_cons. split; [apply u8_range|constructor].
Qed.
Lemma byte_value b : is_byte b -> exists r, value [b] = Some r /\ value_ok r.
Proof. intros H. apply value_Some; [llia|]. apply bytes_cons. split; [exact H|constructor]. Qed.
Lemma attr_value_ok g h : gatt_ok g -> exists r, attr_value g h = Some r /\ value_ok r.
Proof.
  intros Hg. unfold attr_value. if_goal; [eexists; split; [done|]; cbn; unfold ERR_INVALID_HANDLE; lia|].
  assert (1 <= h <= LAST_HANDLE) as Hh by lia. clear -Hg Hh. revert h Hh. apply handle_cases.
  pose proof Hg as [[N1 N2] (B1 & B2 & B3) (R1 & R2 & R3) _ _ _].
  change (seqZ 1 19) with [1;2;3;4;5;6;7;8;9;10;11;12;13;14;15;16;17;18;19].
  repeat apply Forall_cons_2; [..|apply Forall_nil_2]; cbn -[value slice];
    try (apply value_Some; [vm_compute; congruence|apply is_bytes_spec; reflexivity]).
  - exact (value_Some (name g) ltac:(lia) N2).
  - exact (byte_value _ B1).
  - exact (cccd_value g 0 Hg ltac:(lia)).
  - exact (byte_value _ B2).
  - exact (cccd_value g 1 Hg ltac:(lia)).
  - exists (inl ERR_READ_NOT_PERM). split; [reflexivity|]. cbn. unfold ERR_READ_NOT_PERM. lia.
  - destruct (value_Some (ztake (result_len g) (result g))) as (r & E & V); [llia|auto with port|].
    exists r. split; [|exact V]. rewrite slice_Some by lia. rewrite zdrop_0. exact E.
  - exact (cccd_value g 2 Hg ltac:(lia)).
  - exact (byte_value _ B3).
Qed.

Lemma get16_eq p i : bytes p -> 0 <= i -> i + 2 <= zlen p ->
  get16 p i = Some (get p i + 256 * get p (i + 1)).
Proof.
  intros B H1 H2. unfold get16. rewrite (rd_Some p i), (rd_Some p (i + 1)) by lia. cbn [mbind option_bind].
  pose proof (get_byte p i B). pose proof (get_byte p (i + 1) B). rewrite of_le16_add by done.
  unfold is_byte in *. rewrite u16_small by lia. done.
Qed.
Lemma get16_ok p i : bytes p -> 0 <= i -> i + 2 <= zlen p -> exists v, get16 p i = Some v /\ word16 v.
Proof.
  intros B H1 H2. rewrite get16_eq by done. eexists. split; [done|].
  pose proof (get_byte p i B). pose proof (get_byte p (i + 1) B). unfold is_byte, word16 in *. lia.
Qed.
Lemma get16_le16 v l : word16 v -> get16 (le16 v ++ l) 0 = Some v.
Proof.
  intros H. rewrite le16_eq by (unfold word16 in H; lia). unfold get16.
  rewrite (rd_Some _ 0), (rd_Some _ (0 + 1)) by llia. cbn [mbind option_bind app].
  rewrite get_cons_0, get_cons_S, get_cons_0 by lia.
  rewrite of_le16_add by (unfold is_byte; zlia). unfold word16 in H. f_equal. zlia.
Qed.

Lemma rd_app_r pre l i n : n = zlen pre + i -> 0 <= i -> rd (pre ++ l) n = rd l i.
Proof.
  intros -> Hi. unfold rd. pose proof (zlen_nonneg pre).
  rewrite !(proj2 (Z.leb_le 0 _)) by lia. rewrite lookup_app_r by (unfold zlen in *; lia).
  f_equal. unfold zlen in *. lia.
Qed.
Lemma get16_at pre v l n : n = zlen pre -> word16 v -> get16 (pre ++ le16 v ++ l) n = Some v.
Proof.
  intros -> Hv. rewrite <- (get16_le16 v l Hv). unfold get16.
  rewrite (rd_app_r pre _ 0 (zlen pre)), (rd_app_r pre _ (0 + 1) (zlen pre + 1)) by lia. done.
Qed.

(** * Responses *)

Definition rsp_ok (max : Z) (r : list Z) : Prop := zlen r <= max /\ bytes r.
Lemma error_rsp_ok max op h err : is_byte op -> 0 <= err < 256 -> 23 <= max -> rsp_ok max (error_rsp op h err).
Proof.
  intros H1 H2 H3. unfold error_rsp. split; [llia|]. rewrite land_255.
  repeat (apply bytes_cons; split); try apply u8_range; try done. constructor.
Qed.
Lemma put16_bytes v : bytes (put16 v).
Proof. apply le16_bytes. Qed.
#[export] Hint Resolve error_rsp_ok put16_bytes : port.

Lemma read_by_type_loop_ok g op group want max hs out entry :
  gatt_ok g -> is_byte op -> 23 <= max -> Forall (fun h => 1 <= h <= LAST_HANDLE) hs ->
  bytes out -> 2 + zlen out <= max ->
  exists r, read_by_type_loop g op group want max hs out entry = Some r /\
    match r with
    | inl e => rsp_ok max e
    | inr (out', _) => bytes out' /\ 2 + zlen out' <= max
    end.
Proof.
  intros Hg Hop Hm Hh. revert out entry. induction Hh as [|h hs H1 _ IH]; intros out entry Hb Ho.
  { eexists. split; [done|]. cbn. done. }
  cbn [read_by_type_loop]. destruct (attr_type_ok h H1) as (t & -> & Lt & Bt). cbn [mbind option_bind].
  if_goal; [by apply IH|].
  destruct (attr_value_ok g h Hg) as (r & -> & V). cbn [mbind option_bind].
  destruct r as [e|v]; cbn in V.
  { if_goal; (eexists; split; [done|]); cbn; [done|]. apply error_rsp_ok; [done|lia|done]. }
  if_goal; [eexists; split; [done|]; cbn; done|].
  if_goal; [eexists; split; [done|]; cbn; done|].
  destruct (group_end_ok h H1) as (ge & Eg & _).
  destruct group; [rewrite Eg|]; cbn [mbind option_bind]; apply IH;
    rewrite ?bytes_app; unfold put16; split_and?; auto using le16_bytes, Forall_nil_2; try tauto;
    try llia; constructor.
Qed.
Lemma read_by_type_ok g req max :
  gatt_ok g -> bytes req -> 7 <= zlen req -> 23 <= max ->
  exists r, read_by_type g req max = Some r /\ rsp_ok max r.
Proof.
  intros Hg Hb Hl Hm. unfold read_by_type.
  destruct (get16_ok req 1) as (st & -> & W1); [done|lia..|].
  destruct (get16_ok req 3) as (en & -> & W2); [done|lia..|].
  rewrite (rd_Some req 0) by lia. cbn [mbind option_bind]. pose proof (get_byte req 0 Hb) as Bop.
  if_goal.
  { eexists. split; [done|]. apply error_rsp_ok; [done| |done].
    if_goal; unfold ERR_INVALID_LEN, ERR_INVALID_HANDLE; lia. }
  rewrite slice_Some by lia. cbn [mbind option_bind]. unfold word16 in W1. bool_prop.
  rewrite in_array_Some by llia. cbn [mbind option_bind].
  edestruct (read_by_type_loop_ok g (get req 0) (get req 0 =? 16) (ztake (zlen req - 5) (zdrop 5 req)) max
    (handles st en) [] 0) as (r & -> & V); [done|done|done|apply handles_range; lia|constructor|llia|].
  cbn [mbind option_bind]. destruct r as [e|[out entry]]; [eexists; split; [done|exact V]|].
  if_goal; (eexists; split; [done|]).
  - apply error_rsp_ok; [done|unfold ERR_NOT_FOUND; lia|done].
  - destruct V as [V1 V2]. split; [llia|]. cbn [app].
    apply bytes_cons; split; [apply u8_range|]. apply bytes_cons; split; [apply u8_range|done].
Qed.

Lemma find_info_loop_ok max hs out tl :
  23 <= max -> Forall (fun h => 1 <= h <= LAST_HANDLE) hs -> bytes out -> 2 + zlen out <= max ->
  exists out' tl', find_info_loop max hs out tl = Some (out', tl') /\ bytes out' /\ 2 + zlen out' <= max.
Proof.
  intros Hm Hh. revert out tl. induction Hh as [|h hs H1 _ IH]; intros out tl Hb Ho.
  { eexists. eexists. split; [done|]. done. }
  cbn [find_info_loop]. destruct (attr_type_ok h H1) as (t & -> & Lt & Bt). cbn [mbind option_bind].
  if_goal; [eexists; eexists; split; [done|]; done|].
  apply IH; [rewrite !bytes_app; auto with port|]. unfold put16. llia.
Qed.
Lemma find_info_ok req max :
  bytes req -> 5 <= zlen req -> 23 <= max -> exists r, find_info req max = Some r /\ rsp_ok max r.
Proof.
  intros Hb Hl Hm. unfold find_info.
  destruct (get16_ok req 1) as (st & -> & W1); [done|lia..|].
  destruct (get16_ok req 3) as (en & -> & W2); [done|lia..|].
  rewrite (rd_Some req 0) by lia. cbn [mbind option_bind]. pose proof (get_byte req 0 Hb) as Bop.
  if_goal; [eexists; split; [done|]; apply error_rsp_ok; [done|unfold ERR_INVALID_HANDLE; lia|done]|].
  unfold word16 in W1.
  destruct (find_info_loop_ok max (handles st en) [] 0) as (out & tl & -> & V1 & V2);
    [done|apply handles_range; lia|constructor|llia|].
  cbn [mbind option_bind]. if_goal; (eexists; split; [done|]).
  - apply error_rsp_ok; [done|unfold ERR_NOT_FOUND; lia|done].
  - split; [llia|]. cbn [app]. repeat (apply bytes_cons; split); [unfold is_byte; lia| |done].
    unfold is_byte. if_goal; lia.
Qed.

Lemma find_by_value_loop_ok type want max hs out :
  23 <= max -> Forall (fun h => 1 <= h <= LAST_HANDLE) hs -> bytes out -> 1 + zlen out <= max ->
  exists out', find_by_value_loop type want max hs out = Some out' /\ bytes out' /\ 1 + zlen out' <= max.
Proof.
  intros Hm Hh. revert out. induction Hh as [|h hs H1 _ IH]; intros out Hb Ho.
  { eexists. split; [done|]. done. }
  cbn [find_by_value_loop]. destruct (db_at_ok h H1) as (a & ->). cbn [mbind option_bind].
  if_goal; [by apply IH|].
  destruct (group_end_ok h H1) as (ge & -> & _). cbn [mbind option_bind].
  apply IH; [rewrite !bytes_app; auto with port|]. unfold put16. llia.
Qed.
Lemma find_by_value_ok req max :
  bytes req -> 7 <= zlen req -> 23 <= max -> exists r, find_by_value req max = Some r /\ rsp_ok max r.
Proof.
  intros Hb Hl Hm. unfold find_by_value.
  destruct (get16_ok req 1) as (st & -> & W1); [done|lia..|].
  destruct (get16_ok req 3) as (en & -> & W2); [done|lia..|].
  rewrite (rd_Some req 0) by lia. cbn [mbind option_bind]. pose proof (get_byte req 0 Hb) as Bop.
  if_goal; [eexists; split; [done|]; apply error_rsp_ok; [done|unfold ERR_INVALID_HANDLE; lia|done]|].
  destruct (get16_ok req 5) as (ty & -> & W3); [done|lia..|]. cbn [mbind option_bind].
  rewrite slice_Some by lia. cbn [mbind option_bind]. unfold word16 in W1.
  edestruct (find_by_value_loop_ok ty (ztake (zlen req - 7) (zdrop 7 req)) max (handles st en) [])
    as (out & -> & V1 & V2); [done|apply handles_range; lia|constructor|llia|].
  cbn [mbind option_bind]. if_goal; (eexists; split; [done|]).
  - apply error_rsp_ok; [done|unfold ERR_NOT_FOUND; lia|done].
  - split; [llia|]. apply bytes_cons. split; [unfold is_byte; lia|done].
Qed.

Lemma read_value_ok g req max :
  gatt_ok g -> bytes req -> 3 <= zlen req -> 23 <= max ->
  exists r, read_value g req max = Some r /\ rsp_ok max r.
Proof.
  intros Hg Hb Hl Hm. unfold read_value.
  destruct (get16_ok req 1) as (h & -> & W1); [done|lia..|].
  rewrite (rd_Some req 0) by lia. cbn [mbind option_bind]. pose proof (get_byte req 0 Hb) as Bop.
  assert (exists off, (if (get req 0 =? 0x0c) && (zlen req >=? 5) then get16 req 3 else Some 0) = Some off /\
    word16 off) as (off & -> & Wo).
  { if_goal; [apply get16_ok; [done|lia|bool_prop; lia]|]. exists 0. done. }
  cbn [mbind option_bind]. destruct (attr_value_ok g h Hg) as (r & -> & V). cbn [mbind option_bind].
  destruct r as [e|v]; cbn in V.
  { eexists. split; [done|]. apply error_rsp_ok; [done|lia|done]. }
  unfold word16 in Wo. if_goal.
  { eexists. split; [done|]. apply error_rsp_ok; [done|unfold ERR_INVALID_OFFSET; lia|done]. }
  destruct V as [V1 V2].
  destruct (Z.gtb_spec (zlen v - off) (max - 1)); rewrite slice_Some by lia; cbn [mbind option_bind];
    (eexists; split; [done|]; split; [llia|]; apply bytes_cons; split; [apply u8_range|auto with port]).
Qed.

(** * The handler *)

Section handler.
Context {W : Type} (ok : W -> Prop) (rpc : gatt -> W -> list Z -> option (gatt * W)).
Context {HR : RpcHandler ok rpc}.

(** The server stays well-formed, and the response fits. *)
Definition handled (max : Z) (r : option (gatt * W * list Z)) : Prop :=
  exists g w rsp, r = Some (g, w, rsp) /\ gatt_ok g /\ ok w /\ rsp_ok max rsp.

Lemma handled_intro max g w rsp :
  gatt_ok g -> ok w -> rsp_ok max rsp -> handled max (Some (g, w, rsp)).
Proof. intros. exists g, w, rsp. done. Qed.
Lemma handled_rsp max g w (o : option (list Z)) :
  gatt_ok g -> ok w -> (exists r, o = Some r /\ rsp_ok max r) ->
  handled max (rsp ← o; Some (g, w, rsp)).
Proof. intros ? ? (r & -> & ?). by apply handled_intro. Qed.
Lemma rsp_ok_one max b : 23 <= max -> is_byte b -> rsp_ok max [b].
Proof. intros. split; [llia|]. apply bytes_cons. split; [done|constructor]. Qed.
Lemma rsp_ok_nil max : 23 <= max -> rsp_ok max [].
Proof. intros. split; [llia|constructor]. Qed.

Lemma write_value_ok g w h v :
  gatt_ok g -> ok w -> bytes v ->
  exists e g' w', write_value rpc g w h v = Some (e, g', w') /\ 0 <= e < 256 /\ gatt_ok g' /\ ok w'.
Proof using HR.
  intros Hg Hw Hv. unfold write_value. if_goal.
  - if_goal; [exists ERR_INVALID_LEN, g, w; unfold ERR_INVALID_LEN; split_and!; done || lia|].
    destruct (get16_ok v 0) as (c & -> & Wc); [done|lia..|]. cbn [mbind option_bind].
    eexists _, _, _. split; [done|]. split_and!; [lia|lia| |done].
    pose proof Hg as [_ _ _ [L F] _ _]. apply gatt_ok_cccd; [|by apply Forall_insert|done].
    unfold zlen in *. by rewrite length_insert.
  - if_goal.
    + destruct (HR g w v Hg Hw Hv) as (g' & w' & -> & G' & W'). cbn [mbind option_bind].
      exists 0, g', w'. split_and!; done || lia.
    + eexists _, g, w. split; [done|]. unfold ERR_INVALID_HANDLE, ERR_WRITE_NOT_PERM.
      if_goal; split_and!; done || lia.
Qed.

Lemma prepare_write_ok g w req max :
  gatt_ok g -> ok w -> bytes req -> 0 < zlen req -> 23 <= max -> handled max (prepare_write g w req max).
Proof.
  intros Hg Hw Hb Hl Hm. unfold prepare_write, ERR_INVALID_LEN, ERR_WRITE_NOT_PERM, ERR_INVALID_OFFSET, ERR_QUEUE_FULL.
  assert (is_byte 0x16) as B16 by (unfold is_byte; lia).
  if_goal; [apply handled_intro; [done|done|apply error_rsp_ok; done || lia]|].
  destruct (get16_ok req 1) as (h & -> & _); [done|lia..|].
  destruct (get16_ok req 3) as (off & -> & _); [done|lia..|]. cbn [mbind option_bind].
  if_goal; [apply handled_intro; [done|done|apply error_rsp_ok; done || lia]|].
  if_goal; [apply handled_intro; [done|done|apply error_rsp_ok; done || lia]|].
  if_goal; [apply handled_intro; [done|done|apply error_rsp_ok; done || lia]|].
  pose proof Hg as [_ _ _ _ _ (P1 & P2 & P3)].
  rewrite (slice_Some req 5), (slice_Some req 1) by lia. cbn [mbind option_bind].
  rewrite blit_Some by llia. cbn [mbind option_bind].
  apply handled_intro; [|done|].
  - apply gatt_ok_prep; [llia| |lia|done]. rewrite !bytes_app. auto with port.
  - split; [llia|]. apply bytes_cons. split; [unfold is_byte; lia|auto with port].
Qed.
Lemma execute_write_ok g w req max :
  gatt_ok g -> ok w -> bytes req -> 23 <= max -> handled max (execute_write rpc g w req).
Proof using HR.
  intros Hg Hw Hb Hm. unfold execute_write.
  assert (exists f, (if zlen req >=? 2 then rd req 1 else Some 0) = Some f) as (f & ->).
  { if_goal; [rewrite rd_Some by (bool_prop; lia)|]; eauto. }
  cbn [mbind option_bind].
  assert (exists g' w', (if (f =? 1) && nz (prep_len g)
      then d ← slice (prep g) 0 (prep_len g); rpc g w d else Some (g, w)) = Some (g', w') /\
      gatt_ok g' /\ ok w') as (g' & w' & -> & G' & W').
  { if_goal; [|by exists g, w]. pose proof Hg as [_ _ _ _ _ (P1 & P2 & P3)].
    rewrite slice_Some by lia. cbn [mbind option_bind]. apply HR; auto with port. }
  cbn [mbind option_bind]. pose proof G' as [_ _ _ _ _ (P1 & P2 & P3)].
  rewrite blit_Some by (rewrite ?zlen_zeros by lia; lia). cbn [mbind option_bind].
  apply handled_intro; [|done|apply rsp_ok_one; unfold is_byte; lia].
  apply gatt_ok_prep; [rewrite ztake_0; cbn [app]; llia| |lia|done].
  rewrite !bytes_app. auto with port.
Qed.

Lemma gatt_handle_ok g w req max :
  gatt_ok g -> ok w -> bytes req -> 23 <= max ->
  exists g' w' rsp, gatt_handle rpc g w req max = Some (g', w', rsp) /\
    gatt_ok g' /\ ok w' /\ zlen rsp <= max /\ zlen rsp <= mtu g /\ bytes rsp.
Proof using HR.
  intros Hg Hw Hb Hm. pose proof Hg as [_ _ _ _ Mt _].
  assert (handled (Z.min max (mtu g)) (gatt_handle rpc g w req max)) as (g' & w' & rsp & E & G' & W' & L & B).
  2: { exists g', w', rsp. split_and!; (done || lia). }
  unfold gatt_handle.
  if_goal; [apply handled_intro; [done|done|apply rsp_ok_nil; lia]|].
  replace (if max >? mtu g then mtu g else max) with (Z.min max (mtu g)) by (if_goal; lia).
  set (m := Z.min max (mtu g)). assert (23 <= m) as Hm' by (unfold m; lia).
  pose proof (zlen_nonneg req). rewrite (rd_Some req 0) by lia. cbn [mbind option_bind].
  pose proof (get_byte req 0 Hb) as Bop. set (op := get req 0) in *.
  assert (handled m (Some (g, w, error_rsp op 0 ERR_INVALID_LEN))) as Hbad.
  { apply handled_intro; [done|done|apply error_rsp_ok; unfold ERR_INVALID_LEN; done || lia]. }
  if_goal; [|if_goal; [|if_goal; [|if_goal; [|if_goal; [|if_goal; [|if_goal; [|if_goal; [|if_goal]]]]]]]].
  - if_goal; [done|]. destruct (get16_ok req 1) as (c & -> & Wc); [done|lia..|]. cbn [mbind option_bind].
    apply handled_intro; [apply gatt_ok_mtu; [|done]|done|].
    + repeat if_goal; lia.
    + split; [unfold put16; llia|]. apply bytes_cons. split; [unfold is_byte; lia|auto with port].
  - if_goal; [apply handled_rsp; [done|done|apply find_info_ok; done || lia]|done].
  - if_goal; [apply handled_rsp; [done|done|apply find_by_value_ok; done || lia]|done].
  - if_goal; [apply handled_rsp; [done|done|apply read_by_type_ok; done || lia]|done].
  - if_goal; [apply handled_rsp; [done|done|apply read_value_ok; done || lia]|done].
  - if_goal; [done|]. destruct (get16_ok req 1) as (h & -> & Wh); [done|lia..|]. cbn [mbind option_bind].
    rewrite slice_Some by lia. cbn [mbind option_bind].
    destruct (write_value_ok g w h (ztake (zlen req - 3) (zdrop 3 req))) as (e & g' & w' & -> & He & G' & W');
      [done|done|auto with port|].
    cbn [mbind option_bind]. if_goal; (apply handled_intro; [done|done|]).
    + by apply error_rsp_ok.
    + apply rsp_ok_one; [done|unfold is_byte; lia].
  - if_goal; [|apply handled_intro; [done|done|by apply rsp_ok_nil]].
    destruct (get16_ok req 1) as (h & -> & Wh); [done|lia..|]. cbn [mbind option_bind].
    rewrite slice_Some by lia. cbn [mbind option_bind].
    destruct (write_value_ok g w h (ztake (zlen req - 3) (zdrop 3 req))) as (e & g' & w' & -> & He & G' & W');
      [done|done|auto with port|].
    cbn [mbind option_bind]. apply handled_intro; [done|done|by apply rsp_ok_nil].
  - apply prepare_write_ok; done || lia.
  - by apply execute_write_ok.
  - repeat if_goal; apply handled_intro; try done; try (by apply rsp_ok_nil).
    apply error_rsp_ok; unfold ERR_NOT_SUPPORTED; done || lia.
Qed.

(** C17: whatever bytes a client sends, the server reads no byte outside of the
    request, leaves none of its arrays (64 bytes for a value, 16 for the type of an
    attribute and 16 for the type of the request, the prepared writes), stays well-formed
    (the MTU between 23 and the largest of the adapter, at most 128 prepared
    bytes), and its response fits the buffer and the MTU. *)
Theorem gatt_handle_safe g w req max :
  gatt_ok g -> ok w -> bytes req -> 23 <= max ->
  exists g' w' rsp, gatt_handle rpc g w req max = Some (g', w', rsp) /\
    gatt_ok g' /\ ok w' /\ zlen rsp <= max /\ zlen rsp <= mtu g /\ bytes rsp.
Proof using HR. apply gatt_handle_ok. Qed.
End handler.

(** Only the callback changes the state of Improv. *)
Section effect.
Context {W : Type} (rpc : gatt -> W -> list Z -> option (gatt * W)).

Definition effect (g : gatt) (w : W) (g' : gatt) (w' : W) : Prop :=
  (w' = w /\ state g' = state g) \/ (exists d g1, bytes d /\ rpc g w d = Some (g1, w') /\ state g' = state g1).

Lemma effect_none g w g' : state g' = state g -> effect g w g' w.
Proof. by left. Qed.
Lemma write_value_effect g w h v e g' w' :
  bytes v -> write_value rpc g w h v = Some (e, g', w') -> effect g w g' w'.
Proof.
  intros Hv. unfold write_value. if_goal.
  - if_goal; [intros [= <- <- <-]; by left|]. destruct (get16 v 0); [|done]. intros [= <- <- <-]. by left.
  - if_goal; [|intros [= <- <- <-]; by left]. destruct (rpc g w v) as [[g1 w1]|] eqn:E; [|done].
    intros [= <- <- <-]. right. exists v, g1. done.
Qed.
Lemma prepare_write_effect g w req max g' w' rsp :
  prepare_write g w req max = Some (g', w', rsp) -> effect g w g' w'.
Proof.
  unfold prepare_write. if_goal; [intros [= <- <- <-]; by left|].
  destruct (get16 req 1); [|done]. destruct (get16 req 3); [|done]. cbn [mbind option_bind].
  do 3 (if_goal; [intros [= <- <- <-]; by left|]).
  destruct (slice req 5 _); [|done]. cbn [mbind option_bind]. destruct (blit _ _ _); [|done]. cbn [mbind option_bind].
  destruct (slice req 1 _); [|done]. intros [= <- <- <-]. by left.
Qed.
Lemma execute_write_effect g w req g' w' rsp :
  bytes (prep g) -> execute_write rpc g w req = Some (g', w', rsp) -> effect g w g' w'.
Proof.
  intros Hp. unfold execute_write. destruct (if zlen req >=? 2 then _ else _) as [f|]; [|done].
  cbn [mbind option_bind]. if_goal.
  - destruct (slice (prep g) 0 (prep_len g)) as [d|] eqn:Ed; [|done]. cbn [mbind option_bind].
    destruct (rpc g w d) as [[g1 w1]|] eqn:E; [|done]. cbn [mbind option_bind].
    destruct (blit _ _ _); [|done]. intros [= <- <- <-]. right. exists d, g1.
    split; [exact (bytes_slice _ _ _ _ Hp Ed)|done].
  - cbn [mbind option_bind]. destruct (blit _ _ _); [|done]. intros [= <- <- <-]. by left.
Qed.
Lemma gatt_handle_effect g w req max g' w' rsp :
  bytes req -> bytes (prep g) -> gatt_handle rpc g w req max = Some (g', w', rsp) -> effect g w g' w'.
Proof.
  intros Hr Hp. unfold gatt_handle. if_goal; [intros [= <- <- <-]; by left|].
  destruct (rd req 0) as [op|]; [|done]. cbn [mbind option_bind].
  set (m := if max >? mtu g then mtu g else max).
  assert (forall o : option (list Z), (rsp ← o; Some (g, w, rsp)) = Some (g', w', rsp) -> effect g w g' w') as Pure.
  { intros [r|]; [|done]. intros [= <- <- <-]. by left. }
  if_goal; [|if_goal; [|if_goal; [|if_goal; [|if_goal; [|if_goal; [|if_goal; [|if_goal; [|if_goal]]]]]]]].
  - if_goal; [intros [= <- <- <-]; by left|]. destruct (get16 req 1); [|done]. intros [= <- <- <-]. by left.
  - if_goal; [apply Pure|intros [= <- <- <-]; by left].
  - if_goal; [apply Pure|intros [= <- <- <-]; by left].
  - if_goal; [apply Pure|intros [= <- <- <-]; by left].
  - if_goal; [apply Pure|intros [= <- <- <-]; by left].
  - if_goal; [intros [= <- <- <-]; by left|]. destruct (get16 req 1) as [h|]; [|done]. cbn [mbind option_bind].
    destruct (slice req 3 _) as [v|] eqn:Ev; [|done]. cbn [mbind option_bind].
    destruct (write_value rpc g w h v) as [[[e g1] w1]|] eqn:E; [|done]. cbn [mbind option_bind].
    apply write_value_effect in E; [|exact (bytes_slice _ _ _ _ Hr Ev)]. if_goal; intros [= <- <- <-]; done.
  - if_goal; [|intros [= <- <- <-]; by left]. destruct (get16 req 1) as [h|]; [|done]. cbn [mbind option_bind].
    destruct (slice req 3 _) as [v|] eqn:Ev; [|done]. cbn [mbind option_bind].
    destruct (write_value rpc g w h v) as [[[e g1] w1]|] eqn:E; [|done]. cbn [mbind option_bind].
    apply write_value_effect in E; [|exact (bytes_slice _ _ _ _ Hr Ev)]. intros [= <- <- <-]; done.
  - apply prepare_write_effect.
  - by apply execute_write_effect.
  - repeat if_goal; intros [= <- <- <-]; by left.
Qed.
End effect.

(** * Long writes *)

Section long.
Context {W : Type} (rpc : gatt -> W -> list Z -> option (gatt * W)).

(** The MTU caps the buffer. *)
Definition room (g : gatt) (max : Z) : Z := Z.min max (mtu g).

Fixpoint gatt_run (g : gatt) (w : W) (reqs : list (list Z)) (max : Z) : option (gatt * W * list (list Z)) :=
  match reqs with
  | [] => Some (g, w, [])
  | req :: reqs =>
      '(g, w, rsp) ← gatt_handle rpc g w req max;
      '(g, w, rsps) ← gatt_run g w reqs max;
      Some (g, w, rsp :: rsps)
  end.

(** The Prepare Write requests of a client for the parts of a value. *)
Definition prep_body (off : Z) (part : list Z) : list Z := le16 GATT_RPC_VALUE ++ le16 off ++ part.
Fixpoint prep_reqs (off : Z) (parts : list (list Z)) : list (list Z) :=
  match parts with
  | [] => []
  | p :: parts => (0x16 :: prep_body off p) :: prep_reqs (off + zlen p) parts
  end.
Fixpoint prep_acks (room : Z) (off : Z) (parts : list (list Z)) : list (list Z) :=
  match parts with
  | [] => []
  | p :: parts => (0x17 :: ztake (room - 1) (prep_body off p)) :: prep_acks room (off + zlen p) parts
  end.

Lemma prep_body_len off p : zlen (prep_body off p) = 4 + zlen p.
Proof. unfold prep_body. llia. Qed.

Lemma gatt_handle_prep g w off part max :
  gatt_ok g -> bytes part -> off = prep_len g -> prep_len g + zlen part <= 128 -> 23 <= max ->
  exists p, gatt_handle rpc g w (0x16 :: prep_body off part) max =
      Some (with_prep p (prep_len g + zlen part) g, w, 0x17 :: ztake (room g max - 1) (prep_body off part)) /\
    blit (prep g) (prep_len g) part = Some p.
Proof.
  intros Hg Hb -> Hl Hm. pose proof Hg as [_ _ _ _ Mt (P1 & P2 & P3)]. pose proof (zlen_nonneg part).
  unfold gatt_handle. pose proof (prep_body_len (prep_len g) part) as L.
  set (req := 0x16 :: prep_body (prep_len g) part).
  assert (zlen req = 5 + zlen part) as Lr by (unfold req; llia).
  rewrite Lr, (proj2 (Z.eqb_neq (5 + zlen part) 0)) by lia.
  replace (if max >? mtu g then mtu g else max) with (room g max) by (unfold room; if_goal; lia).
  assert (23 <= room g max) by (unfold room; lia).
  rewrite (rd_Some req 0) by lia. cbn [mbind option_bind]. change (get req 0) with 0x16. cbn -[get16 prepare_write prep_body req].
  unfold prepare_write. rewrite Lr, (proj2 (Z.ltb_ge _ 5)) by lia.
  assert (get16 req 1 = Some GATT_RPC_VALUE) as -> by reflexivity.
  rewrite (get16_at [0x16; 14; 0] (prep_len g) part 3 eq_refl ltac:(unfold word16; lia) : get16 req 3 = _).
  cbn [mbind option_bind]. rewrite !Z.eqb_refl. cbn [negb].
  destruct (Z.gtb_spec (prep_len g + (5 + zlen part) - 5) 128) as [?|_]; [lia|].
  rewrite (slice_Some req 5), (slice_Some req 1) by lia. cbn [mbind option_bind].
  replace (5 + zlen part - 5) with (zlen part) by lia.
  change (zdrop 5 req) with part. rewrite (ztake_ge (zlen part) part) by lia.
  destruct (blit (prep g) (prep_len g) part) as [p|] eqn:E; [|rewrite blit_Some in E; [done|lia|lia]].
  cbn [mbind option_bind]. exists p. split; [|done]. do 2 f_equal.
  change (zdrop 1 req) with (prep_body (prep_len g) part). f_equal.
  destruct (Z.min_spec (5 + zlen part) (room g max)) as [[? ->]|[? ->]]; [|done].
  rewrite !ztake_ge by lia. done.
Qed.

Lemma with_prep_idem p n g : prep g = p -> prep_len g = n -> with_prep p n g = g.
Proof. intros <- <-. by destruct g. Qed.

Lemma gatt_run_prep g w parts max :
  gatt_ok g -> Forall bytes parts -> prep_len g + zlen (mjoin parts) <= 128 -> 23 <= max ->
  exists p, let g' := with_prep p (prep_len g + zlen (mjoin parts)) g in
    gatt_run g w (prep_reqs (prep_len g) parts) max =
      Some (g', w, prep_acks (room g max) (prep_len g) parts) /\
    gatt_ok g' /\ ztake (prep_len g') p = ztake (prep_len g) (prep g) ++ mjoin parts.
Proof.
  intros Hg Hb. revert g Hg. induction Hb as [|part parts Hp _ IH]; intros g Hg Hl Hm.
  - exists (prep g). cbn. rewrite !Z.add_0_r, app_nil_r. rewrite with_prep_idem by done. done.
  - assert (mjoin (part :: parts) = part ++ mjoin parts) as J by done. rewrite J in *. rewrite zlen_app in *.
    pose proof (zlen_nonneg (mjoin parts)). pose proof (zlen_nonneg part).
    cbn [prep_reqs gatt_run]. destruct (gatt_handle_prep g w (prep_len g) part max) as (p & -> & E);
      [done|done|done|lia|done|]. cbn [mbind option_bind].
    pose proof Hg as [_ _ _ _ _ (P1 & P2 & P3)].
    set (g1 := with_prep p (prep_len g + zlen part) g).
    assert (gatt_ok g1) as G1.
    { apply gatt_ok_prep; [by rewrite (blit_len _ _ _ _ E)|by apply (blit_bytes _ _ _ _ P2 Hp E)|lia|done]. }
    destruct (IH g1 G1) as (p' & R & G' & T); [cbn; lia|done|]. exists p'. cbv zeta in *.
    cbn [prep_len g1 with_prep] in R, T. cbn [prep_len with_prep].
    replace (prep_len g + (zlen part + zlen (mjoin parts)))
      with (prep_len g + zlen part + zlen (mjoin parts)) by lia.
    rewrite R. cbn [mbind option_bind]. split; [done|]. split; [exact G'|].
    rewrite T. cbn [prep g1 with_prep]. rewrite (blit_append _ _ _ _ E). by rewrite <- app_assoc.
Qed.

Lemma gatt_handle_execute g w flag max g2 w2 :
  gatt_ok g -> gatt_ok g2 -> 0 < prep_len g ->
  (if flag =? 1 then rpc g w (ztake (prep_len g) (prep g)) else Some (g, w)) = Some (g2, w2) ->
  exists p, gatt_handle rpc g w [0x18; flag] max = Some (with_prep p 0 g2, w2, [0x19]).
Proof.
  intros Hg Hg2 Hn Hr. pose proof Hg as [_ _ _ _ _ (P1 & P2 & P3)]. pose proof Hg2 as [_ _ _ _ _ (Q1 & Q2 & Q3)].
  change (gatt_handle rpc g w [0x18; flag] max) with (execute_write rpc g w [0x18; flag]).
  unfold execute_write.
  change (zlen [24; flag] >=? 2) with true. cbv iota. change (rd [24; flag] 1) with (Some flag).
  cbn [mbind option_bind]. rewrite (proj2 (nz_true (prep_len g))) by lia. rewrite andb_true_r.
  rewrite (slice_Some (prep g)) by lia. rewrite zdrop_0. cbn [mbind option_bind]. rewrite Hr.
  cbn [mbind option_bind]. rewrite blit_Some by (rewrite ?zlen_zeros by lia; lia).
  cbn [mbind option_bind]. eexists. done.
Qed.

(** A value that a client sends as Prepare Write requests, in any parts of
    at most 128 bytes together, comes back in the acknowledgements (as far as
    the MTU allows) and does nothing until Execute Write; then the callback
    gets exactly the concatenation of the parts, once, or with flag 0 nothing,
    and the server is ready for the next value. *)
Theorem gatt_long_write g w parts max :
  gatt_ok g -> prep_len g = 0 -> Forall bytes parts -> 0 < zlen (mjoin parts) <= 128 -> 23 <= max ->
  exists p, let g1 := with_prep p (zlen (mjoin parts)) g in
    gatt_run g w (prep_reqs 0 parts) max = Some (g1, w, prep_acks (room g max) 0 parts) /\
    (forall g2 w2, rpc g1 w (mjoin parts) = Some (g2, w2) -> gatt_ok g2 ->
       exists p', gatt_handle rpc g1 w [0x18; 1] max = Some (with_prep p' 0 g2, w2, [0x19])) /\
    (exists p', gatt_handle rpc g1 w [0x18; 0] max = Some (with_prep p' 0 g, w, [0x19])).
Proof.
  intros Hg H0 Hb Hl Hm. destruct (gatt_run_prep g w parts max) as (p & R & G' & T); [done|done|lia|done|].
  cbv zeta in *. rewrite H0, Z.add_0_l in *. cbn [prep_len with_prep] in T. rewrite ztake_0 in T. cbn [app] in T.
  exists p. cbv zeta. split; [exact R|]. split.
  - intros g2 w2 Hr G2. apply gatt_handle_execute; [done|done|cbn; lia|].
    cbn [prep prep_len with_prep]. rewrite T. exact Hr.
  - destruct (gatt_handle_execute (with_prep p (zlen (mjoin parts)) g) w 0 max
      (with_prep p (zlen (mjoin parts)) g) w) as (p' & E); [done|done|cbn; lia|done|].
    exists p'. exact E.
Qed.
End long.

(** * Long reads *)

Section read.
Context {W : Type} (rpc : gatt -> W -> list Z -> option (gatt * W)).

(** A client that reads a value: Read, then Read Blob while parts are full. *)
Definition read_req (h off : Z) : list Z :=
  if off =? 0 then 0x0a :: le16 h else 0x0c :: le16 h ++ le16 off.
Fixpoint read_long (rounds : nat) (g : gatt) (w : W) (h max : Z) (acc : list Z) : option (list Z) :=
  match rounds with
  | O => None
  | S rounds =>
      '(_, _, rsp) ← gatt_handle rpc g w (read_req h (zlen acc)) max;
      match rsp with
      | op :: part =>
          if (op =? 0x0b) || (op =? 0x0d) then
            if zlen part =? room g max - 1 then read_long rounds g w h max (acc ++ part) else Some (acc ++ part)
          else None
      | [] => None
      end
  end.

Lemma gatt_handle_read g w h off v max :
  word16 h -> 0 <= off <= zlen v -> zlen v <= 64 -> 23 <= max -> 23 <= mtu g ->
  attr_value g h = Some (inr v) ->
  exists op, gatt_handle rpc g w (read_req h off) max = Some (g, w, op :: ztake (room g max - 1) (zdrop off v)) /\
    (op = 0x0b \/ op = 0x0d).
Proof.
  intros Hh Ho Hv Hm Hu Ha. unfold gatt_handle.
  replace (if max >? mtu g then mtu g else max) with (room g max) by (unfold room; if_goal; lia).
  assert (23 <= room g max) by (unfold room; lia). unfold read_req.
  assert (forall op n, (op =? 0x0c) && n = negb (off =? 0) -> forall req, rd req 0 = Some op ->
    get16 req 1 = Some h -> (zlen req >=? 5) = n -> (n = true -> get16 req 3 = Some off) ->
    read_value g req (room g max) = Some (u8 (op + 1) :: ztake (room g max - 1) (zdrop off v))) as X.
  { intros op n Hn req E0 E1 El E3. unfold read_value. rewrite E1, E0, El. cbn [mbind option_bind]. rewrite Hn.
    replace (if negb (off =? 0) then get16 req 3 else Some 0) with (Some off).
    2: { destruct (Z.eqb_spec off 0) as [->|]; [done|]. cbn [negb] in *.
         apply andb_prop in Hn as [_ Hn]. by rewrite E3. }
    cbn [mbind option_bind]. rewrite Ha. cbn [mbind option_bind].
    destruct (Z.gtb_spec off (zlen v)) as [?|_]; [lia|].
    destruct (Z.gtb_spec (zlen v - off) (room g max - 1)).
    - rewrite slice_Some by lia. done.
    - rewrite slice_Some by lia. cbn [mbind option_bind]. do 2 f_equal. rewrite !ztake_ge by llia. done. }
  destruct (Z.eqb_spec off 0) as [E|E].
  - exists 0x0b. split; [|auto].
    change (rd (10 :: le16 h) 0) with (Some 10). cbn -[read_value room].
    rewrite (X 10 false); [done|done|done| |done|done].
    rewrite <- (get16_at [10] h [] 1 eq_refl Hh). by rewrite app_nil_r.
  - exists 0x0d. split; [|auto].
    change (rd (12 :: le16 h ++ le16 off) 0) with (Some 12). cbn -[read_value room].
    rewrite (X 12 true); [done|done|done| |done|].
    + exact (get16_at [12] h (le16 off) 1 eq_refl Hh).
    + intros _. rewrite <- (get16_at (12 :: le16 h) off [] 3 eq_refl ltac:(unfold word16; lia)).
      by rewrite app_nil_r.
Qed.

Lemma read_long_eq rounds g w h v max acc :
  word16 h -> zlen v <= 64 -> 23 <= max -> 23 <= mtu g -> attr_value g h = Some (inr v) ->
  zlen acc <= zlen v -> acc = ztake (zlen acc) v -> zlen v - zlen acc < 22 * Z.of_nat rounds ->
  read_long rounds g w h max acc = Some v.
Proof.
  intros Hh Hv Hm Hu Ha. revert acc. induction rounds as [|n IH]; intros acc Hl He Hr; [lia|].
  pose proof (zlen_nonneg acc).
  cbn [read_long]. destruct (gatt_handle_read g w h (zlen acc) v max) as (op & -> & Hop); [done|lia|done..|].
  cbn [mbind option_bind]. replace ((op =? 11) || (op =? 13)) with true by (destruct Hop as [->| ->]; done).
  assert (23 <= room g max) by (unfold room; lia).
  set (part := ztake (room g max - 1) (zdrop (zlen acc) v)).
  assert (zlen part = Z.min (room g max - 1) (zlen v - zlen acc)) as Lp by (unfold part; llia).
  assert (acc ++ part = ztake (zlen (acc ++ part)) v) as Ea.
  { rewrite zlen_app, ztake_add by lia. rewrite <- He. f_equal. unfold part at 1. rewrite Lp.
    destruct (Z.min_spec (room g max - 1) (zlen v - zlen acc)) as [[? ->]|[? ->]]; [done|].
    rewrite !ztake_ge by (rewrite zlen_zdrop by lia; lia). done. }
  destruct (Z.eqb_spec (zlen part) (room g max - 1)) as [E|E].
  - apply IH; [llia|exact Ea|llia].
  - f_equal. rewrite Ea. apply ztake_ge. llia.
Qed.

(** A client that reads an attribute in parts, with Read and then Read Blob
    until a part is short, gets its whole value with any MTU, in at most three
    requests. *)
Theorem gatt_read_long g w h v max :
  gatt_ok g -> word16 h -> 23 <= max -> attr_value g h = Some (inr v) ->
  read_long 3 g w h max [] = Some v.
Proof.
  intros Hg Hh Hm Ha. pose proof Hg as [_ _ _ _ Mt _].
  destruct (attr_value_ok g h Hg) as (r & E & V). rewrite Ha in E. injection E as <-. destruct V as [V _].
  apply read_long_eq; try done; rewrite ?zlen_nil; pose proof (zlen_nonneg v); try lia.
Qed.
End read.

(** * Discovery *)

(** The procedures of a client, over a function that sends a request.  Each
    round asks from the handle after the last answer on, until an error. *)
Section discover.
Variable send : list Z -> option (list Z).

(** Entries of [n] bytes. *)
Fixpoint chunks (rounds : nat) (n : Z) (l : list Z) : list (list Z) :=
  match rounds, l with
  | S rounds, _ :: _ => ztake n l :: chunks rounds n (zdrop n l)
  | _, _ => []
  end.
Definition u16_at (l : list Z) (i : Z) : Z := get l i + 256 * get l (i + 1).

Fixpoint discover (rounds : nat) (req : Z -> list Z) (ans : Z) (next : list Z -> Z)
    (size : list Z -> Z) (start : Z) : list (list Z) :=
  match rounds with
  | O => []
  | S rounds =>
      match send (req start) with
      | Some rsp =>
          if get rsp 0 =? ans then
            let es := chunks 20 (size rsp) (zdrop 2 rsp) in
            es ++ discover rounds req ans next size (next (List.last es []))
          else []
      | None => []
      end
  end.

Definition range_req (op : Z) (tail : list Z) (end_ start : Z) : list Z := op :: le16 start ++ le16 end_ ++ tail.

(** Discover All Primary Services: first handle, last handle, UUID. *)
Definition discover_services : list (Z * Z * list Z) :=
  (fun e => (u16_at e 0, u16_at e 2, zdrop 4 e)) <$>
  discover 20 (range_req 0x10 (U16 0x2800) 0xffff) 0x11 (fun e => u16_at e 2 + 1) (fun r => get r 1) 1.
(** Discover All Characteristics of a service: properties, value handle, UUID. *)
Definition discover_chars (first last : Z) : list (Z * Z * list Z) :=
  (fun e => (get e 2, u16_at e 3, zdrop 5 e)) <$>
  discover 20 (range_req 0x08 (U16 0x2803) last) 0x09 (fun e => u16_at e 0 + 1) (fun r => get r 1) first.
(** Find Information: the handles with their types. *)
Definition discover_types : list (Z * list Z) :=
  (fun e => (u16_at e 0, zdrop 2 e)) <$>
  discover 20 (range_req 0x04 [] 0xffff) 0x05 (fun e => u16_at e 0 + 1)
    (fun r => if get r 1 =? 1 then 4 else 18) 1.
End discover.

(** What the database declares. *)
Definition db_services : list (Z * Z * list Z) :=
  omap (fun h => a ← db_at h; e ← group_end h; if bool_decide (kind a = SVC) then Some (h, e, uuid a) else None)
    (seqZ 1 19).
Definition db_chars (first last : Z) : list (Z * Z * list Z) :=
  omap (fun h => a ← db_at h; if bool_decide (kind a = DECL) then Some (props a, h + 1, uuid a) else None)
    (seqZ first (last - first + 1)).
Definition db_types : list (Z * list Z) := omap (fun h => t ← attr_type h; Some (h, t)) (seqZ 1 19).

Lemma discover_ext send send' rounds req ans next size start :
  (forall s, send (req s) = send' (req s)) ->
  discover send rounds req ans next size start = discover send' rounds req ans next size start.
Proof.
  intros H. revert start. induction rounds as [|n IH]; intros start; [done|]. cbn [discover]. rewrite H.
  destruct (send' (req start)); [|done]. if_goal; [|done]. by rewrite IH.
Qed.

(** The answers of the server with room for [m] bytes. *)
Definition answer (g : gatt) (m : Z) (req : list Z) : option (list Z) :=
  if get req 0 =? 0x04 then find_info req m else read_by_type g req m.

Section served.
Context {W : Type} (rpc : gatt -> W -> list Z -> option (gatt * W)).
Definition served (g : gatt) (w : W) (max : Z) (req : list Z) : option (list Z) :=
  '(_, _, rsp) ← gatt_handle rpc g w req max; Some rsp.

Lemma served_range g w max op tail end_ s :
  (op = 0x04 /\ tail = [] \/ (op = 0x10 \/ op = 0x08) /\ zlen tail = 2) ->
  served g w max (range_req op tail end_ s) = answer g (room g max) (range_req op tail end_ s).
Proof.
  intros H. unfold served, answer, gatt_handle, range_req.
  replace (if max >? mtu g then mtu g else max) with (room g max) by (unfold room; if_goal; lia).
  set (req := op :: le16 s ++ le16 end_ ++ tail). change (rd req 0) with (Some op). change (get req 0) with op.
  assert (zlen req = 5 + zlen tail) as L by (unfold req; llia). rewrite L.
  cbn [mbind option_bind].
  destruct H as [[-> ->]|[[->| ->] Lt]]; rewrite ?Lt; cbn -[find_info read_by_type req room].
  - by destruct (find_info req (room g max)).
  - by destruct (read_by_type g req (room g max)).
  - by destruct (read_by_type g req (room g max)).
Qed.

Lemma discovery_rooms g :
  forallb (fun m => bool_decide (discover_services (answer g m) = db_services /\
    discover_chars (answer g m) 1 5 = db_chars 1 5 /\ discover_chars (answer g m) 6 19 = db_chars 6 19 /\
    discover_types (answer g m) = db_types)) (seqZ 23 225) = true.
Proof. vm_compute. reflexivity. Qed.

(** C18: with any MTU of the server, from 23 on, a client finds the two services
    with their handle ranges, all their characteristics with properties, value
    handles and UUIDs, and the types of all attributes, just as the database
    has them; each entry fits even the smallest MTU. *)
Theorem gatt_discovery g w max :
  23 <= max -> 23 <= mtu g <= 247 ->
  discover_services (served g w max) = db_services /\
  discover_chars (served g w max) 1 5 = db_chars 1 5 /\
  discover_chars (served g w max) 6 19 = db_chars 6 19 /\
  discover_types (served g w max) = db_types.
Proof.
  intros Hm Hu. pose proof (discovery_rooms g) as H. rewrite forallb_forall in H.
  specialize (H (room g max)). rewrite bool_decide_eq_true in H.
  unfold discover_services, discover_chars, discover_types in *.
  rewrite !(discover_ext (served g w max) (answer g (room g max))); [apply H|..].
  { apply list_elem_of_In, elem_of_seqZ. unfold room. lia. }
  all: intros s; apply served_range; auto.
Qed.
End served.

(** * Instances *)

Definition gatt0 : gatt := gatt_init [98; 111] 3.
Definition rpc0 (g : gatt) (w : list (list Z)) (d : list Z) : option (gatt * list (list Z)) := Some (g, d :: w).
#[export] Instance rpc0_handler : RpcHandler (fun _ : list (list Z) => True) rpc0.
Proof. intros g w d Hg _ _. exists g, (d :: w). done. Qed.
Lemma gatt0_ok : gatt_ok gatt0.
Proof.
  constructor; cbn; unfold is_byte; repeat split; try lia; try (vm_compute; congruence);
    try (apply is_bytes_spec; reflexivity).
  repeat constructor; vm_compute; congruence.
Qed.
Definition parts0 : list (list Z) := [[1; 2]; [3]].
Lemma parts0_bytes : Forall bytes parts0.
Proof. repeat constructor; vm_compute; congruence. Qed.

Lemma gatt_handle_safe_witness : exists g w rsp, gatt_handle rpc0 gatt0 [] [0x02; 0xf7; 0] 100 = Some (g, w, rsp) /\
  zlen rsp <= 23.
Proof.
  destruct (gatt_handle_safe (fun _ => True) rpc0 gatt0 [] [0x02; 0xf7; 0] 100 gatt0_ok I
    (is_bytes_spec [0x02; 0xf7; 0] eq_refl) ltac:(lia)) as (g & w & rsp & E & _ & _ & _ & L & _).
  exists g, w, rsp. split; [exact E|exact L].
Defined.
Lemma gatt_long_write_witness : exists p,
  gatt_run rpc0 gatt0 [] (prep_reqs 0 parts0) 100 =
    Some (with_prep p 3 gatt0, [], [[0x17; 14; 0; 0; 0; 1; 2]; [0x17; 14; 0; 2; 0; 3]]).
Proof.
  destruct (gatt_long_write rpc0 gatt0 [] parts0 100 gatt0_ok eq_refl parts0_bytes ltac:(vm_compute; split; congruence)
    ltac:(lia)) as (p & E & _).
  exists p. exact E.
Defined.
Lemma gatt_read_long_witness : read_long rpc0 3 gatt0 [] 3 100 [] = Some [98; 111].
Proof.
  exact (gatt_read_long rpc0 gatt0 [] 3 [98; 111] 100 gatt0_ok ltac:(unfold word16; lia) ltac:(lia) eq_refl).
Defined.
Lemma gatt_discovery_witness : discover_services (served rpc0 gatt0 [] 100) = [(1, 5, [0; 0x18]); (6, 19, IMPROV 0)].
Proof.
  exact (proj1 (gatt_discovery rpc0 gatt0 [] 100 ltac:(lia) ltac:(cbn; lia))).
Defined.
