(* ===== verification/Wpa.v ===== *)
(** The control socket of wpa_supplicant: tools/ble-ha/wpa.c.

    wpa_supplicant is a parameter: [ctrl log cmd] is its reply to a command
    after the commands [log], or [None] when the socket gives none.  The
    functions pass the log on. *)

From Stdlib Require Import Ascii String.
From S2P Require Import Prelude Api Improv.

(** * Formatting *)

Fixpoint dec_loop (fuel : nat) (n : Z) (acc : list Z) : list Z :=
  match fuel with
  | O => acc
  | S fuel => let acc := (48 + n mod 10) :: acc in if n <? 10 then acc else dec_loop fuel (n / 10) acc
  end.
(** [%d] of an [int]: ten digits are enough. *)
Definition dec (n : Z) : list Z := if n <? 0 then 45 :: dec_loop 10 (- n) [] else dec_loop 10 n [].

Definition hex_digit (n : Z) : Z := if n <? 10 then 48 + n else 87 + n.
(** [%02x]. *)
Definition hex2 (b : Z) : list Z := [hex_digit (b / 16); hex_digit (b mod 16)].

(** [snprintf] into [size] bytes. *)
Definition snprintf (size : Z) (s : list Z) : list Z := ztake (size - 1) s.

Definition is_digit (b : Z) : bool := (48 <=? b) && (b <=? 57).
Fixpoint digits (s : list Z) (acc : Z) : Z :=
  match s with
  | b :: s => if is_digit b then digits s (10 * acc + (b - 48)) else acc
  | [] => acc
  end.
(** [atoi] of a string that starts with a digit: [None] when the value leaves [int]. *)
Definition atoi (s : list Z) : option Z :=
  let n := digits s 0 in if n <? 2147483648 then Some n else None.

Fixpoint prefix_of (p s : list Z) : bool :=
  match p, s with
  | [], _ => true
  | x :: p, y :: s => (x =? y) && prefix_of p s
  | _, [] => false
  end.
(** The rest of [s] from the first [p] on: [strstr]. *)
Fixpoint strstr (s p : list Z) : option (list Z) :=
  if prefix_of p s then Some s
  else match s with [] => None | _ :: s => strstr s p end.
(** [strncmp(s, p, strlen(p)) == 0] is [prefix_of p s]. *)
Fixpoint until (c : Z) (s : list Z) : list Z :=
  match s with
  | [] => []
  | b :: s => if b =? c then [] else b :: until c s
  end.
Fixpoint count (c : Z) (s : list Z) : Z :=
  match s with [] => 0 | b :: s => (if b =? c then 1 else 0) + count c s end.

Section wpa.
Variable ctrl : list (list Z) -> list Z -> option (list Z).

(** * wpa.c *)

(** The reply as a string; at most [len - 1] bytes of it. *)
Definition request (log : list (list Z)) (cmd : list Z) (len : Z) : option (list Z) * list (list Z) :=
  (match ctrl log cmd with
   | Some r => Some (c_str (ztake (len - 1) r))
   | None => None
   end, log ++ [cmd]).

Definition request_ok (log : list (list Z)) (cmd : list Z) : bool * list (list Z) :=
  let '(r, log) := request log cmd 64 in
  (match r with Some r => prefix_of (cstr "OK"%string) r | None => false end, log).

Definition wpa_networks (log : list (list Z)) : Z * list (list Z) :=
  let '(r, log) := request log (cstr "LIST_NETWORKS"%string) 2048 in
  (match r with
   | None => -1
   | Some r => let n := count 10 r - 1 in if n <? 0 then 0 else n
   end, log).

Definition wpa_finish (log : list (list Z)) (id : Z) (keep : bool) : Z * list (list Z) :=
  let log := if keep then log
             else snd (request_ok log (snprintf 32 (cstr "REMOVE_NETWORK "%string ++ dec id))) in
  let log := snd (request_ok log (cstr "ENABLE_NETWORK all"%string)) in
  if keep then
    let '(ok, log) := request_ok log (cstr "SAVE_CONFIG"%string) in ((if ok then 0 else -1), log)
  else (0, log).

(** The loop that writes the SSID in hex behind [cmd]. *)
Fixpoint ssid_loop (ssid cmd : list Z) : list Z :=
  match ssid with
  | [] => cmd
  | b :: ssid => if zlen cmd + 3 <? 160 then ssid_loop ssid (cmd ++ hex2 b) else cmd
  end.
Definition set_network (id : Z) (what : list Z) : list Z :=
  cstr "SET_NETWORK "%string ++ dec id ++ what.
Definition cmd_ssid (id : Z) (ssid : list Z) : list Z :=
  ssid_loop ssid (snprintf 160 (set_network id (cstr " ssid "%string))).
Definition cmd_psk (id : Z) (pass : list Z) : list Z :=
  snprintf 160 (set_network id (cstr " psk "%string ++ [34] ++ pass ++ [34])).
Definition cmd_key_mgmt (id : Z) (pass : list Z) : list Z :=
  snprintf 160 (set_network id
    (if zlen pass =? 0 then cstr " key_mgmt NONE"%string else cstr " key_mgmt WPA-PSK SAE"%string)).
Definition cmd_select (id : Z) : list Z := snprintf 160 (cstr "SELECT_NETWORK "%string ++ dec id).

(** [goto fail] after a step that fails. *)
Definition join_fail (log : list (list Z)) (id : Z) : option (Z * list (list Z)) :=
  Some (-1, snd (wpa_finish log id false)).
Definition wpa_join (log : list (list Z)) (ssid pass : list Z) : option (Z * list (list Z)) :=
  let '(r, log) := request log (cstr "ADD_NETWORK"%string) 32 in
  match r with
  | None => Some (-1, log)
  | Some r =>
      if negb (match r with b :: _ => is_digit b | [] => false end) then Some (-1, log)
      else
        id ← atoi r;
        let '(ok, log) := request_ok log (cmd_ssid id ssid) in
        if negb ok then join_fail log id
        else
          let '(ok, log) := if zlen pass =? 0 then (true, log) else request_ok log (cmd_psk id pass) in
          if negb ok then join_fail log id
          else
            let '(ok, log) := request_ok log (cmd_key_mgmt id pass) in
            if negb ok then join_fail log id
            else
              let '(ok, log) := request_ok log (cmd_select id) in
              if negb ok then join_fail log id else Some (id, log)
  end.

(** The result and [ip], a buffer of [len] bytes. *)
Definition wpa_connected (log : list (list Z)) (len : Z) : Z * list Z * list (list Z) :=
  let '(r, log) := request log (cstr "STATUS"%string) 1024 in
  match r with
  | None => (-1, [], log)
  | Some r =>
      match strstr r (cstr "wpa_state=COMPLETED"%string ++ [10]), strstr r (10 :: cstr "ip_address="%string) with
      | Some _, Some p => (1, snprintf len (until 10 (zdrop 12 p)), log)
      | _, _ => (0, [], log)
      end
  end.

(** * The commands of a join *)

(** The steps after ADD_NETWORK. *)
Definition join_script (id : Z) (ssid pass : list Z) : list (list Z) :=
  cmd_ssid id ssid :: (if zlen pass =? 0 then [] else [cmd_psk id pass]) ++ [cmd_key_mgmt id pass; cmd_select id].
(** The steps that wpa_supplicant takes, up to the first that it does not. *)
Fixpoint accepted (log : list (list Z)) (script : list (list Z)) : nat :=
  match script with
  | [] => O
  | cmd :: script => if fst (request_ok log cmd) then S (accepted (log ++ [cmd]) script) else O
  end.
Definition undo (id : Z) : list (list Z) :=
  [snprintf 32 (cstr "REMOVE_NETWORK "%string ++ dec id); cstr "ENABLE_NETWORK all"%string].

Lemma request_ok_eq log cmd : request_ok log cmd = (fst (request_ok log cmd), log ++ [cmd]).
Proof. unfold request_ok, request. by destruct (ctrl log cmd). Qed.
Lemma wpa_finish_undo log id : snd (wpa_finish log id false) = log ++ undo id.
Proof.
  unfold wpa_finish. rewrite request_ok_eq. cbn [snd]. rewrite request_ok_eq. cbn [snd].
  unfold undo. by rewrite <- app_assoc.
Qed.
End wpa.

Lemma dec_loop_len n v acc : zlen (dec_loop n v acc) <= Z.of_nat n + zlen acc.
Proof.
  revert v acc. induction n as [|n IH]; intros v acc; cbn [dec_loop]; [llia|].
  if_goal; [llia|]. pose proof (IH (v / 10) ((48 + v mod 10) :: acc)). llia.
Qed.
Lemma dec_len id : 0 <= id -> zlen (dec id) <= 10.
Proof.
  intros H. unfold dec. destruct (Z.ltb_spec id 0); [lia|].
  pose proof (dec_loop_len 10 id []). rewrite zlen_nil in *. lia.
Qed.
Lemma hex2_len b : zlen (hex2 b) = 2.
Proof. done. Qed.
Lemma ssid_loop_eq ssid cmd :
  zlen cmd + 2 * zlen ssid <= 158 -> ssid_loop ssid cmd = cmd ++ mjoin (hex2 <$> ssid).
Proof.
  revert cmd. induction ssid as [|b l IH]; intros cmd H; cbn [ssid_loop]; [by rewrite app_nil_r|].
  rewrite zlen_cons in H. pose proof (zlen_nonneg l). rewrite (proj2 (Z.ltb_lt _ _)) by lia.
  rewrite IH by (rewrite zlen_app, hex2_len; lia). rewrite <- app_assoc. done.
Qed.
Lemma snprintf_fits size s : zlen s < size -> snprintf size s = s.
Proof. intros. unfold snprintf. apply ztake_ge. lia. Qed.

(** The commands are not cut for the strings that Improv takes. *)
Lemma cmd_ssid_full id ssid : 0 <= id -> zlen ssid <= 32 ->
  cmd_ssid id ssid = set_network id (cstr " ssid "%string ++ mjoin (hex2 <$> ssid)).
Proof.
  intros Hi Hs. pose proof (dec_len id Hi). unfold cmd_ssid, set_network.
  assert (zlen (cstr "SET_NETWORK "%string) = 12) as L1 by done.
  assert (zlen (cstr " ssid "%string) = 6) as L2 by done.
  rewrite snprintf_fits by (rewrite !zlen_app, L1, L2; lia).
  rewrite ssid_loop_eq by (rewrite !zlen_app, L1, L2; lia). by rewrite <- !app_assoc.
Qed.
Lemma cmd_psk_full id pass : 0 <= id -> zlen pass <= 63 ->
  cmd_psk id pass = set_network id (cstr " psk "%string ++ [34] ++ pass ++ [34]).
Proof.
  intros Hi Hs. pose proof (dec_len id Hi). unfold cmd_psk, set_network.
  assert (zlen (cstr "SET_NETWORK "%string) = 12) as L1 by done.
  assert (zlen (cstr " psk "%string) = 5) as L2 by done.
  apply snprintf_fits. rewrite !zlen_app, L1, L2. change (zlen [34]) with 1. lia.
Qed.
Lemma pass_ok_len p : pass_ok p -> zlen p <= 63.
Proof. intros [[->|H] _]; [rewrite zlen_nil|]; lia. Qed.

(** The id in a reply to ADD_NETWORK. *)
Definition new_id (r : option (list Z)) : option Z :=
  match r with
  | Some (b :: l) => if is_digit b then atoi (b :: l) else None
  | _ => None
  end.
Lemma digits_nonneg s acc : 0 <= acc -> 0 <= digits s acc.
Proof.
  revert acc. induction s as [|b l IH]; intros acc H; cbn [digits]; [done|].
  unfold is_digit. if_goal; [|done]. apply IH. lia.
Qed.
Lemma new_id_nonneg r id : new_id r = Some id -> 0 <= id.
Proof.
  unfold new_id, atoi. destruct r as [[|b l]|]; try done. intros H. if_hyp H; [|done]. if_hyp H; [|done].
  injection H as <-. exact (digits_nonneg (b :: l) 0 ltac:(lia)).
Qed.

(** With an id from wpa_supplicant, wpa_join() sends the commands that set
    up this network and no other, each one complete with the whole SSID in hex
    and the whole passphrase, up to the first that is refused; it returns the
    id when all are taken, and else -1 after it removed the network again and
    enabled the others: no half set up network stays. *)
Theorem wpa_join_correct ctrl log ssid pass id :
  ssid_ok ssid -> pass_ok pass ->
  new_id (fst (request ctrl log (cstr "ADD_NETWORK"%string) 32)) = Some id ->
  let add := log ++ [cstr "ADD_NETWORK"%string] in
  let script :=
    [set_network id (cstr " ssid "%string ++ mjoin (hex2 <$> ssid))] ++
    (if zlen pass =? 0 then [] else [set_network id (cstr " psk "%string ++ [34] ++ pass ++ [34])]) ++
    [cmd_key_mgmt id pass; cmd_select id] in
  let k := accepted ctrl add script in
  wpa_join ctrl log ssid pass = Some
    (if decide (k = length script) then (id, add ++ script)
     else (-1, add ++ take (S k) script ++ undo id)).
Proof.
  intros [Hs _] Hp%pass_ok_len Hn add script. pose proof (new_id_nonneg _ _ Hn) as Hi. cbv zeta.
  assert (script = join_script id ssid pass) as ->.
  { unfold script, join_script. rewrite cmd_ssid_full, cmd_psk_full by (done || lia). done. }
  unfold wpa_join, join_fail, new_id in *. unfold request in *. cbn [fst] in Hn. fold add.
  destruct (ctrl log _) as [r|]; [|done]. set (rs := c_str _) in *.
  destruct rs as [|b l]; [done|]. destruct (is_digit b); [|done]. cbn [negb]. rewrite Hn. cbn [mbind option_bind].
  unfold join_script.
  destruct (zlen pass =? 0); cbn [app accepted length];
    repeat (rewrite request_ok_eq, ?wpa_finish_undo;
      match goal with |- context [fst (request_ok ?c ?l ?x)] => destruct (fst (request_ok c l x)) end;
      cbn [negb]);
    rewrite ?wpa_finish_undo; cbn [take app];
    ((case_decide; [lia|]) || case_decide); rewrite <- ?app_assoc; done || lia.
Qed.

(** wpa_supplicant numbers its networks with an [int]. *)
Definition ctrl_int (ctrl : list (list Z) -> list Z -> option (list Z)) : Prop :=
  forall log r, fst (request ctrl log (cstr "ADD_NETWORK"%string) 32) = Some r -> is_Some (atoi r).
Lemma wpa_join_total ctrl log ssid pass : ctrl_int ctrl ->
  exists id log', wpa_join ctrl log ssid pass = Some (id, log') /\ -1 <= id.
Proof.
  intros Hc. specialize (Hc log). unfold wpa_join, join_fail. unfold request in *. cbn [fst] in Hc.
  destruct (ctrl log _) as [r|]; [|eexists; eexists; split; [done|lia]].
  specialize (Hc _ eq_refl) as [id E].
  if_goal; [eexists; eexists; split; [done|lia]|]. rewrite E. cbn [mbind option_bind].
  assert (-1 <= id) as Hi.
  { unfold atoi in E. if_hyp E; [|done]. injection E as <-. pose proof (digits_nonneg (c_str (ztake (32 - 1) r)) 0). lia. }
  destruct (zlen pass =? 0);
    repeat (rewrite request_ok_eq; try (if_goal; [eexists; eexists; split; [done|lia]|]));
    eexists; eexists; (split; [done|done]).
Qed.

Definition ctrl0 (log : list (list Z)) (cmd : list Z) : option (list Z) :=
  if prefix_of (cstr "ADD"%string) cmd then Some (cstr "2"%string)
  else if prefix_of (cstr "SELECT"%string) cmd then Some (cstr "FAIL"%string) else Some (cstr "OK"%string).
Lemma wpa_join_witness :
  exists log, wpa_join ctrl0 [] [110; 101; 116] [] = Some (-1, log) /\ length log = 6%nat.
Proof.
  eexists. split.
  - rewrite (wpa_join_correct ctrl0 [] [110; 101; 116] [] 2).
    + vm_compute. reflexivity.
    + split; [vm_compute; split; congruence|]. repeat constructor; discriminate.
    + split; [by left|constructor].
    + reflexivity.
  - reflexivity.
Defined.
