(* ===== verification/BleState.v ===== *)
(** The state of ble-ha: the variable [s] of tools/ble-ha/ble-ha.c, with the
    world around it.

    [hci_out], [wlog] and [sent] are the packets written to the adapter, the
    commands given to wpa_supplicant and the bytes sent to the clients, oldest
    first; [clock] is the monotonic clock in ms, as now_ms() gives it; [led] is
    true while the LED blinks.  [nbatch] is the length of [batch]. *)

From S2P Require Import Prelude Api Gatt.

Definition MAX_CLIENTS : Z := 4.
Definition JOIN_SECONDS : Z := 30.

(** [fd] is -1 for a free place; [buf] has 1024 bytes. *)
Record client := Client { fd : Z; buf : list Z; len : Z; subscribed : bool }.

Record st := St {
  hci_out : list (list Z);
  clock : Z;
  wlog : list (list Z);
  led : bool;
  acl_len : Z;
  acl_credits : Z;
  conn_sent : Z;
  bdaddr : list Z;
  scanning : bool;
  batch : list adv;
  batch_ms : Z;
  improv : bool;
  advertising : bool;
  adv_dirty : bool;
  conn : Z;
  l2 : list Z;
  l2_len : Z;
  rpc : list Z;
  rpc_len : Z;
  gatt_ : gatt;
  join_id : Z;
  join_end : Z;
  identify_end : Z;
  done_at : Z;
  check_at : Z;
  clients : list client;
  info : api_info;
  dev_name : list Z;
  sent : list (Z * list Z) }.

Definition set_hci_out (v : list (list Z)) (s : st) : st :=
  St v (clock s) (wlog s) (led s) (acl_len s) (acl_credits s) (conn_sent s) (bdaddr s) (scanning s)
    (batch s) (batch_ms s) (improv s) (advertising s) (adv_dirty s) (conn s) (l2 s) (l2_len s) (rpc s)
    (rpc_len s) (gatt_ s) (join_id s) (join_end s) (identify_end s) (done_at s) (check_at s) (clients s)
    (info s) (dev_name s) (sent s).
Definition set_clock (v : Z) (s : st) : st :=
  St (hci_out s) v (wlog s) (led s) (acl_len s) (acl_credits s) (conn_sent s) (bdaddr s) (scanning s)
    (batch s) (batch_ms s) (improv s) (advertising s) (adv_dirty s) (conn s) (l2 s) (l2_len s) (rpc s)
    (rpc_len s) (gatt_ s) (join_id s) (join_end s) (identify_end s) (done_at s) (check_at s) (clients s)
    (info s) (dev_name s) (sent s).
Definition set_wlog (v : list (list Z)) (s : st) : st :=
  St (hci_out s) (clock s) v (led s) (acl_len s) (acl_credits s) (conn_sent s) (bdaddr s) (scanning s)
    (batch s) (batch_ms s) (improv s) (advertising s) (adv_dirty s) (conn s) (l2 s) (l2_len s) (rpc s)
    (rpc_len s) (gatt_ s) (join_id s) (join_end s) (identify_end s) (done_at s) (check_at s) (clients s)
    (info s) (dev_name s) (sent s).
Definition set_led (v : bool) (s : st) : st :=
  St (hci_out s) (clock s) (wlog s) v (acl_len s) (acl_credits s) (conn_sent s) (bdaddr s) (scanning s)
    (batch s) (batch_ms s) (improv s) (advertising s) (adv_dirty s) (conn s) (l2 s) (l2_len s) (rpc s)
    (rpc_len s) (gatt_ s) (join_id s) (join_end s) (identify_end s) (done_at s) (check_at s) (clients s)
    (info s) (dev_name s) (sent s).
Definition set_acl_len (v : Z) (s : st) : st :=
  St (hci_out s) (clock s) (wlog s) (led s) v (acl_credits s) (conn_sent s) (bdaddr s) (scanning s)
    (batch s) (batch_ms s) (improv s) (advertising s) (adv_dirty s) (conn s) (l2 s) (l2_len s) (rpc s)
    (rpc_len s) (gatt_ s) (join_id s) (join_end s) (identify_end s) (done_at s) (check_at s) (clients s)
    (info s) (dev_name s) (sent s).
Definition set_acl_credits (v : Z) (s : st) : st :=
  St (hci_out s) (clock s) (wlog s) (led s) (acl_len s) v (conn_sent s) (bdaddr s) (scanning s) (batch s)
    (batch_ms s) (improv s) (advertising s) (adv_dirty s) (conn s) (l2 s) (l2_len s) (rpc s) (rpc_len s)
    (gatt_ s) (join_id s) (join_end s) (identify_end s) (done_at s) (check_at s) (clients s) (info s)
    (dev_name s) (sent s).
Definition set_conn_sent (v : Z) (s : st) : st :=
  St (hci_out s) (clock s) (wlog s) (led s) (acl_len s) (acl_credits s) v (bdaddr s) (scanning s) (batch
    s) (batch_ms s) (improv s) (advertising s) (adv_dirty s) (conn s) (l2 s) (l2_len s) (rpc s) (rpc_len
    s) (gatt_ s) (join_id s) (join_end s) (identify_end s) (done_at s) (check_at s) (clients s) (info s)
    (dev_name s) (sent s).
Definition set_bdaddr (v : list Z) (s : st) : st :=
  St (hci_out s) (clock s) (wlog s) (led s) (acl_len s) (acl_credits s) (conn_sent s) v (scanning s)
    (batch s) (batch_ms s) (improv s) (advertising s) (adv_dirty s) (conn s) (l2 s) (l2_len s) (rpc s)
    (rpc_len s) (gatt_ s) (join_id s) (join_end s) (identify_end s) (done_at s) (check_at s) (clients s)
    (info s) (dev_name s) (sent s).
Definition set_scanning (v : bool) (s : st) : st :=
  St (hci_out s) (clock s) (wlog s) (led s) (acl_len s) (acl_credits s) (conn_sent s) (bdaddr s) v (batch
    s) (batch_ms s) (improv s) (advertising s) (adv_dirty s) (conn s) (l2 s) (l2_len s) (rpc s) (rpc_len
    s) (gatt_ s) (join_id s) (join_end s) (identify_end s) (done_at s) (check_at s) (clients s) (info s)
    (dev_name s) (sent s).
Definition set_batch (v : list adv) (s : st) : st :=
  St (hci_out s) (clock s) (wlog s) (led s) (acl_len s) (acl_credits s) (conn_sent s) (bdaddr s)
    (scanning s) v (batch_ms s) (improv s) (advertising s) (adv_dirty s) (conn s) (l2 s) (l2_len s) (rpc
    s) (rpc_len s) (gatt_ s) (join_id s) (join_end s) (identify_end s) (done_at s) (check_at s) (clients
    s) (info s) (dev_name s) (sent s).
Definition set_batch_ms (v : Z) (s : st) : st :=
  St (hci_out s) (clock s) (wlog s) (led s) (acl_len s) (acl_credits s) (conn_sent s) (bdaddr s)
    (scanning s) (batch s) v (improv s) (advertising s) (adv_dirty s) (conn s) (l2 s) (l2_len s) (rpc s)
    (rpc_len s) (gatt_ s) (join_id s) (join_end s) (identify_end s) (done_at s) (check_at s) (clients s)
    (info s) (dev_name s) (sent s).
Definition set_improv (v : bool) (s : st) : st :=
  St (hci_out s) (clock s) (wlog s) (led s) (acl_len s) (acl_credits s) (conn_sent s) (bdaddr s)
    (scanning s) (batch s) (batch_ms s) v (advertising s) (adv_dirty s) (conn s) (l2 s) (l2_len s) (rpc
    s) (rpc_len s) (gatt_ s) (join_id s) (join_end s) (identify_end s) (done_at s) (check_at s) (clients
    s) (info s) (dev_name s) (sent s).
Definition set_advertising (v : bool) (s : st) : st :=
  St (hci_out s) (clock s) (wlog s) (led s) (acl_len s) (acl_credits s) (conn_sent s) (bdaddr s)
    (scanning s) (batch s) (batch_ms s) (improv s) v (adv_dirty s) (conn s) (l2 s) (l2_len s) (rpc s)
    (rpc_len s) (gatt_ s) (join_id s) (join_end s) (identify_end s) (done_at s) (check_at s) (clients s)
    (info s) (dev_name s) (sent s).
Definition set_adv_dirty (v : bool) (s : st) : st :=
  St (hci_out s) (clock s) (wlog s) (led s) (acl_len s) (acl_credits s) (conn_sent s) (bdaddr s)
    (scanning s) (batch s) (batch_ms s) (improv s) (advertising s) v (conn s) (l2 s) (l2_len s) (rpc s)
    (rpc_len s) (gatt_ s) (join_id s) (join_end s) (identify_end s) (done_at s) (check_at s) (clients s)
    (info s) (dev_name s) (sent s).
Definition set_conn (v : Z) (s : st) : st :=
  St (hci_out s) (clock s) (wlog s) (led s) (acl_len s) (acl_credits s) (conn_sent s) (bdaddr s)
    (scanning s) (batch s) (batch_ms s) (improv s) (advertising s) (adv_dirty s) v (l2 s) (l2_len s) (rpc
    s) (rpc_len s) (gatt_ s) (join_id s) (join_end s) (identify_end s) (done_at s) (check_at s) (clients
    s) (info s) (dev_name s) (sent s).
Definition set_l2 (v : list Z) (s : st) : st :=
  St (hci_out s) (clock s) (wlog s) (led s) (acl_len s) (acl_credits s) (conn_sent s) (bdaddr s)
    (scanning s) (batch s) (batch_ms s) (improv s) (advertising s) (adv_dirty s) (conn s) v (l2_len s)
    (rpc s) (rpc_len s) (gatt_ s) (join_id s) (join_end s) (identify_end s) (done_at s) (check_at s)
    (clients s) (info s) (dev_name s) (sent s).
Definition set_l2_len (v : Z) (s : st) : st :=
  St (hci_out s) (clock s) (wlog s) (led s) (acl_len s) (acl_credits s) (conn_sent s) (bdaddr s)
    (scanning s) (batch s) (batch_ms s) (improv s) (advertising s) (adv_dirty s) (conn s) (l2 s) v (rpc
    s) (rpc_len s) (gatt_ s) (join_id s) (join_end s) (identify_end s) (done_at s) (check_at s) (clients
    s) (info s) (dev_name s) (sent s).
Definition set_rpc (v : list Z) (s : st) : st :=
  St (hci_out s) (clock s) (wlog s) (led s) (acl_len s) (acl_credits s) (conn_sent s) (bdaddr s)
    (scanning s) (batch s) (batch_ms s) (improv s) (advertising s) (adv_dirty s) (conn s) (l2 s) (l2_len
    s) v (rpc_len s) (gatt_ s) (join_id s) (join_end s) (identify_end s) (done_at s) (check_at s)
    (clients s) (info s) (dev_name s) (sent s).
Definition set_rpc_len (v : Z) (s : st) : st :=
  St (hci_out s) (clock s) (wlog s) (led s) (acl_len s) (acl_credits s) (conn_sent s) (bdaddr s)
    (scanning s) (batch s) (batch_ms s) (improv s) (advertising s) (adv_dirty s) (conn s) (l2 s) (l2_len
    s) (rpc s) v (gatt_ s) (join_id s) (join_end s) (identify_end s) (done_at s) (check_at s) (clients s)
    (info s) (dev_name s) (sent s).
Definition set_gatt_ (v : gatt) (s : st) : st :=
  St (hci_out s) (clock s) (wlog s) (led s) (acl_len s) (acl_credits s) (conn_sent s) (bdaddr s)
    (scanning s) (batch s) (batch_ms s) (improv s) (advertising s) (adv_dirty s) (conn s) (l2 s) (l2_len
    s) (rpc s) (rpc_len s) v (join_id s) (join_end s) (identify_end s) (done_at s) (check_at s) (clients
    s) (info s) (dev_name s) (sent s).
Definition set_join_id (v : Z) (s : st) : st :=
  St (hci_out s) (clock s) (wlog s) (led s) (acl_len s) (acl_credits s) (conn_sent s) (bdaddr s)
    (scanning s) (batch s) (batch_ms s) (improv s) (advertising s) (adv_dirty s) (conn s) (l2 s) (l2_len
    s) (rpc s) (rpc_len s) (gatt_ s) v (join_end s) (identify_end s) (done_at s) (check_at s) (clients s)
    (info s) (dev_name s) (sent s).
Definition set_join_end (v : Z) (s : st) : st :=
  St (hci_out s) (clock s) (wlog s) (led s) (acl_len s) (acl_credits s) (conn_sent s) (bdaddr s)
    (scanning s) (batch s) (batch_ms s) (improv s) (advertising s) (adv_dirty s) (conn s) (l2 s) (l2_len
    s) (rpc s) (rpc_len s) (gatt_ s) (join_id s) v (identify_end s) (done_at s) (check_at s) (clients s)
    (info s) (dev_name s) (sent s).
Definition set_identify_end (v : Z) (s : st) : st :=
  St (hci_out s) (clock s) (wlog s) (led s) (acl_len s) (acl_credits s) (conn_sent s) (bdaddr s)
    (scanning s) (batch s) (batch_ms s) (improv s) (advertising s) (adv_dirty s) (conn s) (l2 s) (l2_len
    s) (rpc s) (rpc_len s) (gatt_ s) (join_id s) (join_end s) v (done_at s) (check_at s) (clients s)
    (info s) (dev_name s) (sent s).
Definition set_done_at (v : Z) (s : st) : st :=
  St (hci_out s) (clock s) (wlog s) (led s) (acl_len s) (acl_credits s) (conn_sent s) (bdaddr s)
    (scanning s) (batch s) (batch_ms s) (improv s) (advertising s) (adv_dirty s) (conn s) (l2 s) (l2_len
    s) (rpc s) (rpc_len s) (gatt_ s) (join_id s) (join_end s) (identify_end s) v (check_at s) (clients s)
    (info s) (dev_name s) (sent s).
Definition set_check_at (v : Z) (s : st) : st :=
  St (hci_out s) (clock s) (wlog s) (led s) (acl_len s) (acl_credits s) (conn_sent s) (bdaddr s)
    (scanning s) (batch s) (batch_ms s) (improv s) (advertising s) (adv_dirty s) (conn s) (l2 s) (l2_len
    s) (rpc s) (rpc_len s) (gatt_ s) (join_id s) (join_end s) (identify_end s) (done_at s) v (clients s)
    (info s) (dev_name s) (sent s).
Definition set_clients (v : list client) (s : st) : st :=
  St (hci_out s) (clock s) (wlog s) (led s) (acl_len s) (acl_credits s) (conn_sent s) (bdaddr s)
    (scanning s) (batch s) (batch_ms s) (improv s) (advertising s) (adv_dirty s) (conn s) (l2 s) (l2_len
    s) (rpc s) (rpc_len s) (gatt_ s) (join_id s) (join_end s) (identify_end s) (done_at s) (check_at s) v
    (info s) (dev_name s) (sent s).
Definition set_sent (v : list (Z * list Z)) (s : st) : st :=
  St (hci_out s) (clock s) (wlog s) (led s) (acl_len s) (acl_credits s) (conn_sent s) (bdaddr s)
    (scanning s) (batch s) (batch_ms s) (improv s) (advertising s) (adv_dirty s) (conn s) (l2 s) (l2_len
    s) (rpc s) (rpc_len s) (gatt_ s) (join_id s) (join_end s) (identify_end s) (done_at s) (check_at s)
    (clients s) (info s) (dev_name s) v.

(** [now()]. *)
Definition now (s : st) : Z := clock s / 1000.

(** A field of an updated state. *)
Ltac st_simpl :=
  repeat match goal with
  | |- context [?p (?f ?v ?s)] =>
      lazymatch type of s with st => lazymatch type of (f v s) with st =>
        first [change (p (f v s)) with (p s) | change (p (f v s)) with v] end end
  | H : context [?p (?f ?v ?s)] |- _ =>
      lazymatch type of s with st => lazymatch type of (f v s) with st =>
        first [change (p (f v s)) with (p s) in H | change (p (f v s)) with v in H] end end
  end.
(** An invariant whose fields are those of another state. *)
Ltac st_case H := destruct H; by constructor.
