(* ===== verification/BleHa.v ===== *)
(** The program ble-ha: the adapter, Improv, the packets of the adapter and the
    main loop of tools/ble-ha/ble-ha.c.  The API clients are in BleApi.v.

    A handler is a function on the state [st]; [None] is an access outside of a
    buffer of the state or of a local array ([in_array]).  The adapter and wpa_supplicant are parameters: [hci_write out p]
    tells whether the adapter takes the packet [p] after the packets [out], and
    [ctrl] gives the replies of wpa_supplicant (Wpa.v).  The clock does not
    move while a handler runs. *)

From Stdlib Require Import Ascii String.
From S2P Require Import Prelude Api Hci Improv Gatt Wpa BleState.

Section ble.
Variable hci_write : list (list Z) -> list Z -> bool.
Variable ctrl : list (list Z) -> list Z -> option (list Z).

(** * Sending *)

Definition write_packet (s : st) (p : list Z) : bool * st :=
  if hci_write (hci_out s) p then (true, set_hci_out (hci_out s ++ [p]) s) else (false, s).

Definition acl_send (s : st) (cid : Z) (data : list Z) : option st :=
  let n := zlen data in
  if (conn s <? 0) || (n + 4 >? acl_len s) || (n + 9 >? 300) then Some s
  else if acl_credits s =? 0 then Some s
  else
    pkt ← in_array 300 (hci_acl_frame (conn s) cid data);
    let '(ok, s) := write_packet s pkt in
    Some (if ok : bool then
            set_conn_sent (u16 (conn_sent s + 1)) (set_acl_credits (u16 (acl_credits s - 1)) s)
          else s).

(** * Improv *)

Definition notify (s : st) (handle : Z) (v : list Z) : option st :=
  on ← gatt_notify_enabled (gatt_ s) handle;
  if negb on then Some s
  else
    let n := zlen v in
    let n := if n + 3 >? mtu (gatt_ s) then mtu (gatt_ s) - 3 else n in
    let n := if n + 3 >? 80 then 80 - 3 else n in
    part ← slice v 0 n;
    pdu ← in_array 80 ([0x1b; Z.land handle 0xff; u8 (Z.shiftr handle 8)] ++ part);
    acl_send s 4 pdu.

Definition set_state (s : st) (v err : Z) : option st :=
  s ← (if negb (err =? error (gatt_ s))
       then notify (set_gatt_ (with_error err (gatt_ s)) s) GATT_ERROR_VALUE [err] else Some s);
  if negb (v =? state (gatt_ s)) then
    s ← notify (set_gatt_ (with_state v (gatt_ s)) s) GATT_STATE_VALUE [v];
    Some (set_adv_dirty true s)
  else Some s.

Definition set_result (s : st) (cmd : Z) (str : list (list Z)) : option st :=
  '(r, n) ← improv_result (result (gatt_ s)) cmd str;
  let s := set_gatt_ (with_result r n (gatt_ s)) s in
  v ← slice r 0 n;
  notify s GATT_RESULT_VALUE v.

(** The LED's files are left out. *)
Definition identify (s : st) (on : bool) : st :=
  set_identify_end (if on then now s + 5 else 0) (set_led on s).

Definition improv_command (s : st) (c : improv_cmd) : option st :=
  if i_cmd c =? IMPROV_CMD_WIFI then
    if negb (state (gatt_ s) =? IMPROV_AUTHORIZED) then Some s
    else
      s ← set_state s IMPROV_PROVISIONING IMPROV_ERR_NONE;
      '(id, log) ← wpa_join ctrl (wlog s) (c_str (i_ssid c)) (c_str (i_pass c));
      let s := set_join_id id (set_wlog log s) in
      if join_id s <? 0 then set_state s IMPROV_AUTHORIZED IMPROV_ERR_OTHER
      else Some (set_join_end (now s + JOIN_SECONDS) s)
  else if i_cmd c =? IMPROV_CMD_IDENTIFY then
    if nz (Z.land (caps (gatt_ s)) IMPROV_CAP_IDENTIFY) then Some (identify s true) else Some s
  else if i_cmd c =? IMPROV_CMD_INFO then
    set_result s IMPROV_CMD_INFO
      [cstr "ble-ha"%string; cstr "1"%string; cstr "ESP32-S31"%string; dev_name s]
  else Some s.

(** The command record on the stack is not initialised; improv_parse() fills
    what is used of it. *)
Definition cmd_buf : improv_cmd := ImprovCmd 0 (zeros 33) (zeros 64).

Definition rpc_write (s : st) (data : list Z) : option st :=
  if rpc_len s + zlen data >? 128 then
    set_state (set_rpc_len 0 s) (state (gatt_ s)) IMPROV_ERR_INVALID
  else
    b ← blit (rpc s) (rpc_len s) data;
    let s := set_rpc_len (rpc_len s + zlen data) (set_rpc b s) in
    pkt ← slice (rpc s) 0 (rpc_len s);
    '(r, c) ← improv_parse pkt cmd_buf;
    if r =? 1 then Some s
    else
      b ← blit (rpc s) 0 (zeros (rpc_len s));
      let s := set_rpc_len 0 (set_rpc b s) in
      if nz r then set_state s (state (gatt_ s)) (u8 r)
      else
        s ← set_state s (state (gatt_ s)) IMPROV_ERR_NONE;
        improv_command s c.

Definition join_poll (s : st) : option st :=
  let '(r, ip, log) := wpa_connected ctrl (wlog s) 48 in
  let s := set_wlog log s in
  if r =? 1 then
    let s := set_join_id (-1) (set_wlog (snd (wpa_finish ctrl (wlog s) (join_id s) true)) s) in
    s ← set_result s IMPROV_CMD_WIFI [];
    s ← set_state s IMPROV_PROVISIONED IMPROV_ERR_NONE;
    Some (set_done_at (now s + 10) s)
  else if now s >=? join_end s then
    let s := set_join_id (-1) (set_wlog (snd (wpa_finish ctrl (wlog s) (join_id s) false)) s) in
    set_state s IMPROV_AUTHORIZED IMPROV_ERR_CONNECT
  else Some s.

(** * Packets of the adapter *)

(** The callback of the ATT server, which works on the server in [s]. *)
Definition rpc_callback (g : gatt) (s : st) (d : list Z) : option (gatt * st) :=
  s ← rpc_write (set_gatt_ g s) d; Some (gatt_ s, s).

Definition l2cap_frame (s : st) (cid : Z) (p : list Z) : option st :=
  let max := acl_len s - 4 in
  let max := if max >? 256 then 256 else max in
  if cid =? 4 then
    '(g, s, rsp) ← gatt_handle rpc_callback (gatt_ s) s p max;
    let s := set_gatt_ g s in
    rsp ← in_array 256 rsp;
    if nz (zlen rsp) then acl_send s 4 rsp else Some s
  else if (cid =? 5) && (zlen p >=? 4) then
    b0 ← rd p 0;
    if Z.land b0 1 =? 0 then
      b1 ← rd p 1; acl_send s 5 [0x01; b1; 0x02; 0x00; 0x00; 0x00]
    else Some s
  else if (cid =? 6) && (zlen p >=? 1) then
    b0 ← rd p 0;
    if (b0 =? 0x01) || (b0 =? 0x0b) then acl_send s 6 [0x05; 0x05] else Some s
  else Some s.

Definition handle_acl (s : st) (p : list Z) : option st :=
  if zlen p <? 5 then Some s
  else
    b2 ← rd p 2;
    b3 ← rd p 3;
    b4 ← rd p 4;
    let dl := of_le16 b3 b4 in
    if dl + 5 >? zlen p then Some s
    else
      let s := if negb (Z.land (Z.shiftr b2 4) 3 =? 1) then set_l2_len 0 s else s in
      if l2_len s + dl >? 256 then Some (set_l2_len 0 s)
      else
        d ← slice p 5 dl;
        b ← blit (l2 s) (l2_len s) d;
        let s := set_l2_len (l2_len s + dl) (set_l2 b s) in
        if l2_len s <? 4 then Some s
        else
          n ← get16 (l2 s) 0;
          let need := n + 4 in
          if l2_len s <? need then Some s
          else
            cid ← get16 (l2 s) 2;
            f ← slice (l2 s) 4 (need - 4);
            s ← l2cap_frame s cid f;
            Some (set_l2_len 0 s).

(** [for (i = 0; i < n && s.nbatch < ADV_BATCH; i++)]. *)
Fixpoint fill_batch (b ads : list adv) : list adv :=
  match ads with
  | [] => b
  | a :: ads => if zlen b <? ADV_BATCH then fill_batch (b ++ [a]) ads else b
  end.

Definition le_meta (s : st) (ev : list Z) : option st :=
  if zlen ev <? 3 then Some s
  else
    b2 ← rd ev 2;
    if (b2 =? 0x02) && scanning s then
      ads ← hci_parse_adv_reports ev 8;
      ads ← in_array 8 ads;
      let s := if nz (zlen ads) && (zlen (batch s) =? 0) then set_batch_ms (clock s) s else s in
      Some (set_batch (fill_batch (batch s) ads) s)
    else if (b2 =? 0x01) && (zlen ev >=? 6) then
      b3 ← rd ev 3;
      if negb (b3 =? 0) then Some s
      else
        c ← get16 ev 4;
        let s := set_advertising false (set_conn (Z.land c 0x0fff) s) in
        let s := set_rpc_len 0 (set_l2_len 0 s) in
        let g := gatt_ s in
        Some (set_gatt_ (with_prep (prep g) 0 (with_cccd [0; 0; 0] (with_mtu 23 g))) s)
    else Some s.

Definition handle_packet (s : st) (p : list Z) : option st :=
  if zlen p <? 3 then Some s
  else
    b0 ← rd p 0;
    if b0 =? HCI_ACL then handle_acl s p
    else if negb (b0 =? HCI_EVT) then Some s
    else
      b1 ← rd p 1;
      if b1 =? 0x3e then le_meta s (zdrop 1 p)
      else if b1 =? 0x05 then
        if zlen p >=? 6 then
          h ← get16 p 4;
          if Z.land h 0x0fff =? conn s then
            let s := set_acl_credits (u16 (acl_credits s + conn_sent s)) s in
            Some (set_adv_dirty true (set_conn (-1) (set_conn_sent 0 s)))
          else Some s
        else Some s
      else if b1 =? 0x13 then
        if zlen p >=? 8 then
          n ← get16 p 6;
          let s := set_acl_credits (u16 (acl_credits s + n)) s in
          Some (set_conn_sent (conn_sent s - (if n <? conn_sent s then n else conn_sent s)) s)
        else Some s
      else Some s.

(** * Commands of the adapter *)

(** What read() leaves of a packet in a buffer of [len] bytes. *)
Definition hci_read (len : Z) (p : list Z) : list Z := ztake len p.
(** The wait for the answer to [op]; [inbox] holds the packets that come until
    the deadline.  The result is the status with the return parameters, or -1. *)
Fixpoint hci_wait (s : st) (op : Z) (inbox : list (list Z)) : option (Z * list Z * st * list (list Z)) :=
  match inbox with
  | [] => Some (-1, [], s, [])
  | p :: inbox =>
      let p := hci_read 260 p in
      if zlen p =? 0 then hci_wait s op inbox
      else
        b0 ← rd p 0;
        let evt := (b0 =? HCI_EVT) && (zlen p >=? 7) in
        done ← (if evt then
                  b1 ← rd p 1; h4 ← get16 p 4; h5 ← get16 p 5;
                  Some (if (b1 =? 0x0e) && (h4 =? op) then 1 else if (b1 =? 0x0f) && (h5 =? op) then 2 else 0)
                else Some 0);
        if done =? 1 then st ← rd p 6; Some (st, zdrop 6 p, s, inbox)
        else if done =? 2 then st ← rd p 3; Some (st, [], s, inbox)
        else s ← handle_packet s p; hci_wait s op inbox
  end.
Definition hci_cmd (s : st) (op : Z) (param : list Z) (inbox : list (list Z)) :
    option (Z * list Z * st * list (list Z)) :=
  pkt ← in_array 260 ([HCI_CMD; Z.land op 0xff; u8 (Z.shiftr op 8); u8 (zlen param)] ++ param);
  let '(ok, s) := write_packet s pkt in
  if ok : bool then hci_wait s op inbox else Some (-1, [], s, inbox).
(** [memcpy(ret, ..)] of at most 16 bytes into [r]. *)
Definition hci_ret (r ret : list Z) : option (list Z) := blit r 0 (ztake 16 ret).

Definition set_scan (s : st) (on : bool) (inbox : list (list Z)) : option (st * list (list Z)) :=
  if Bool.eqb on (scanning s) then Some (s, inbox)
  else
    '(r, _, s, inbox) ← (if on then hci_cmd s 0x200b [0x01; 0x00; 0x02; 0x30; 0x00; 0x00; 0x00] inbox
                         else Some (0, [], s, inbox));
    if nz r then Some (s, inbox)
    else
      '(r, _, s, inbox) ← hci_cmd s 0x200c [b2z on; 0x00] inbox;
      Some (if r =? 0 then set_scanning on s else s, inbox).

(** The 32 bytes of a data command: the length, the data, then zeros. *)
Definition adv_param (d : list Z) : option (list Z) :=
  d ← in_array 31 d; Some ([u8 (zlen d)] ++ d ++ zeros (31 - zlen d)).
Definition set_advertising_ (s : st) (on : bool) (inbox : list (list Z)) : option (st * list (list Z)) :=
  '(s, inbox) ←
    (if on then
       data ← adv_param (hci_improv_adv_data (state (gatt_ s)) (caps (gatt_ s)));
       '(_, _, s, inbox) ← hci_cmd s 0x2008 data inbox;
       if negb (advertising s) then
         data ← adv_param (hci_name_data (dev_name s));
         '(_, _, s, inbox) ← hci_cmd s 0x2009 data inbox;
         '(_, _, s, inbox) ←
           hci_cmd s 0x2006 [0xa0; 0x00; 0x40; 0x01; 0x00; 0x00; 0x00; 0; 0; 0; 0; 0; 0; 0x07; 0x00] inbox;
         Some (s, inbox)
       else Some (s, inbox)
     else Some (s, inbox));
  '(s, inbox) ←
    (if negb (Bool.eqb on (advertising s)) then
       '(r, _, s, inbox) ← hci_cmd s 0x200a [b2z on] inbox;
       Some (if r =? 0 then set_advertising on s else s, inbox)
     else Some (s, inbox));
  Some (set_adv_dirty false s, inbox).

(** [r] is what the stack holds. *)
Definition hci_init (s : st) (r : list Z) (inbox : list (list Z)) : option (Z * st) :=
  '(e, _, s, inbox) ← hci_cmd s 0x0c03 [] inbox;
  if nz e then Some (-1, s)
  else
  '(e, _, s, inbox) ← hci_cmd s 0x0c01 [0xff; 0xff; 0xff; 0xff; 0xff; 0x1f; 0x00; 0x20] inbox;
  if nz e then Some (-1, s)
  else
  '(e, _, s, inbox) ← hci_cmd s 0x2001 [0x1f; 0; 0; 0; 0; 0; 0; 0] inbox;
  if nz e then Some (-1, s)
  else
  '(e, ret, s, inbox) ← hci_cmd s 0x1009 [] inbox;
  if nz e then Some (-1, s)
  else
  r ← hci_ret r ret;
  addr ← slice r 1 6;
  let s := set_bdaddr addr s in
  '(e, ret, s, inbox) ← hci_cmd s 0x2002 [] inbox;
  r ← hci_ret r ret;
  n ← get16 r 1;
  '(s, inbox) ←
    (if (e =? 0) && nz n then
       c ← rd r 3; Some (set_acl_credits c (set_acl_len n s), inbox)
     else
       '(e, ret, s, inbox) ← hci_cmd s 0x1005 [] inbox;
       r ← hci_ret r ret;
       if e =? 0 then
         n ← get16 r 1; c ← get16 r 4; Some (set_acl_credits c (set_acl_len n s), inbox)
       else Some (s, inbox));
  Some (0, if acl_len s <? 27 then set_acl_len 27 s else s).
End ble.

(** * The well-formed state *)

(** What a step of the transmitter may do to the credits and to the packets
    that the controller still has. *)
Definition send_closed (P : Z -> Z -> Prop) : Prop :=
  forall c n, 0 < c < 65536 -> 0 <= n < 65536 -> P c n -> P (c - 1) (u16 (n + 1)).

Record st_ok (P : Z -> Z -> Prop) (s : st) : Prop := {
  sok_gatt : gatt_ok (gatt_ s);
  sok_l2 : zlen (l2 s) = 256 /\ bytes (l2 s) /\ 0 <= l2_len s <= 256;
  sok_rpc : zlen (rpc s) = 128 /\ bytes (rpc s) /\ 0 <= rpc_len s <= 128;
  sok_acl : 27 <= acl_len s < 65536;
  sok_credits : 0 <= acl_credits s < 65536 /\ 0 <= conn_sent s < 65536 /\ P (acl_credits s) (conn_sent s);
  sok_conn : -1 <= conn s <= 4095;
  sok_batch : zlen (batch s) <= ADV_BATCH;
  sok_name : bytes (dev_name s) }.

Section safe.
Variable hci_write : list (list Z) -> list Z -> bool.
Variable ctrl : list (list Z) -> list Z -> option (list Z).
Hypothesis Hctrl : ctrl_int ctrl.
Variable P : Z -> Z -> Prop.
Hypothesis HP : send_closed P.

(** [s'] is [s] after some packets went out. *)
Definition after_sends (s s' : st) : Prop :=
  exists o c n, s' = set_conn_sent n (set_acl_credits c (set_hci_out o s)).

Lemma after_sends_refl s : after_sends s s.
Proof. exists (hci_out s), (acl_credits s), (conn_sent s). by destruct s. Qed.
Lemma after_sends_trans s1 s2 s3 : after_sends s1 s2 -> after_sends s2 s3 -> after_sends s1 s3.
Proof. intros (o & c & n & ->) (o' & c' & n' & ->). by exists o', c', n'. Qed.

Lemma acl_frame_len h cid d : zlen (hci_acl_frame h cid d) = 9 + zlen d.
Proof. unfold hci_acl_frame. llia. Qed.
Lemma acl_send_ok s cid d :
  st_ok P s -> exists s', acl_send hci_write s cid d = Some s' /\ after_sends s s' /\ st_ok P s'.
Proof using HP.
  intros Hs. unfold acl_send, write_packet.
  assert (exists s', Some s = Some s' /\ after_sends s s' /\ st_ok P s') as Same.
  { exists s. split; [done|]. split; [apply after_sends_refl|done]. }
  if_goal; [done|]. if_goal; [done|]. bool_prop. rewrite in_array_Some by (rewrite acl_frame_len; lia). cbn [mbind option_bind].
  if_goal; [|done]. eexists. split; [done|]. st_simpl.
  split.
  - exists (hci_out s ++ [hci_acl_frame (conn s) cid d]), (u16 (acl_credits s - 1)), (u16 (conn_sent s + 1)). done.
  - destruct Hs as [? ? ? ? (C1 & C2 & C3) ? ? ?]. constructor; try done. st_simpl.
    rewrite (u16_small (acl_credits s - 1)) by lia. split_and!; try lia; try apply u16_range.
    apply HP; [lia|lia|done].
Qed.

Lemma st_ok_gatt s g : gatt_ok g -> st_ok P s -> st_ok P (set_gatt_ g s).
Proof. intros ? []. by constructor. Qed.
Lemma st_ok_dirty s b : st_ok P s -> st_ok P (set_adv_dirty b s).
Proof. intros []. by constructor. Qed.
Lemma st_ok_l2_len s n : 0 <= n <= 256 -> st_ok P s -> st_ok P (set_l2_len n s).
Proof. intros ? [? (? & ? & ?)]. constructor; try done. Qed.
Lemma st_ok_l2 s b : zlen b = 256 -> bytes b -> st_ok P s -> st_ok P (set_l2 b s).
Proof. intros ? ? [? (? & ? & ?)]. constructor; try done. Qed.
Lemma st_ok_rpc s b n : zlen b = 128 -> bytes b -> 0 <= n <= 128 -> st_ok P s -> st_ok P (set_rpc_len n (set_rpc b s)).
Proof. intros ? ? ? []. constructor; try done. Qed.
Lemma st_ok_rpc_len s n : 0 <= n <= 128 -> st_ok P s -> st_ok P (set_rpc_len n s).
Proof. intros ? [? ? (? & ? & ?)]. constructor; try done. Qed.

Lemma gatt_ok_state g v : is_byte v -> gatt_ok g -> gatt_ok (with_state v g).
Proof. intros ? [? (? & ? & ?)]. by constructor. Qed.
Lemma gatt_ok_error g v : is_byte v -> gatt_ok g -> gatt_ok (with_error v g).
Proof. intros ? [? (? & ? & ?)]. by constructor. Qed.
Lemma gatt_ok_result g r n : zlen r = 64 -> bytes r -> 0 <= n <= 64 -> gatt_ok g -> gatt_ok (with_result r n g).
Proof. intros ? ? ? []. by constructor. Qed.

Lemma notify_enabled_ok g h : gatt_ok g -> exists b, gatt_notify_enabled g h = Some b.
Proof.
  intros Hg. unfold gatt_notify_enabled. if_goal; [|eauto].
  destruct (cccd_rd g (cccd_index (h + 1)) Hg) as (c & -> & _); [|eauto].
  revert Heqb. unfold cccd_index. repeat if_goal; lia.
Qed.
Lemma notify_ok s h v : st_ok P s -> zlen v <= 64 ->
  exists s', notify hci_write s h v = Some s' /\ after_sends s s' /\ st_ok P s'.
Proof using HP.
  intros Hs Hv. pose proof (sok_gatt _ _ Hs) as Hg. pose proof (ok_mtu _ Hg) as [Mt _].
  unfold notify. destruct (notify_enabled_ok (gatt_ s) h Hg) as (b & ->). cbn [mbind option_bind].
  destruct b; cbn [negb]; [|exists s; split_and!; [done|apply after_sends_refl|done]].
  set (n := if zlen v + 3 >? _ then _ else _). set (n' := if n + 3 >? 80 then _ else _).
  assert (0 <= n' <= zlen v) as Hn.
  { pose proof (zlen_nonneg v). assert (0 <= n <= zlen v) by (unfold n; if_goal; lia). unfold n'. if_goal; lia. }
  assert (n' <= 77) by (unfold n'; if_goal; lia).
  rewrite slice_Some by lia. cbn [mbind option_bind]. rewrite in_array_Some by (rewrite zdrop_0; llia). cbn [mbind option_bind]. by apply acl_send_ok.
Qed.

(** [set_state] changes the state and the error value, and nothing else. *)
Lemma set_state_ok s v err :
  st_ok P s -> is_byte v -> is_byte err ->
  exists s' o c n d, set_state hci_write s v err = Some s' /\ st_ok P s' /\
    s' = set_conn_sent n (set_acl_credits c (set_hci_out o
           (set_adv_dirty d (set_gatt_ (with_state v (with_error err (gatt_ s))) s)))).
Proof using HP.
  intros Hs Hv He. unfold set_state. pose proof (sok_gatt _ _ Hs) as Hg.
  assert (exists s1 o c n, (if negb (err =? error (gatt_ s))
      then notify hci_write (set_gatt_ (with_error err (gatt_ s)) s) GATT_ERROR_VALUE [err] else Some s) = Some s1 /\
      st_ok P s1 /\ s1 = set_conn_sent n (set_acl_credits c (set_hci_out o (set_gatt_ (with_error err (gatt_ s)) s))))
    as (s1 & o & c & n & -> & S1 & E1).
  { destruct (Z.eqb_spec err (error (gatt_ s))) as [->|Ne]; cbn [negb].
    - exists s, (hci_out s), (acl_credits s), (conn_sent s). split_and!; [done|done|]. destruct s as [].
      cbn. f_equal. by destruct gatt_.
    - destruct (notify_ok (set_gatt_ (with_error err (gatt_ s)) s) GATT_ERROR_VALUE [err])
        as (s1 & -> & (o & c & n & E) & S1); [|llia|].
      { apply st_ok_gatt; [by apply gatt_ok_error|done]. }
      exists s1, o, c, n. done. }
  cbn [mbind option_bind]. assert (gatt_ s1 = with_error err (gatt_ s)) as G1 by (by subst s1).
  destruct (Z.eqb_spec v (state (gatt_ s1))) as [E|E]; cbn [negb].
  - exists s1, o, c, n, (adv_dirty s). split_and!; [done|done|]. subst v s1. destruct s as []. cbn. f_equal.
  - destruct (notify_ok (set_gatt_ (with_state v (gatt_ s1)) s1) GATT_STATE_VALUE [v])
      as (s2 & -> & (o2 & c2 & n2 & E2) & S2); [|llia|].
    { apply st_ok_gatt; [apply gatt_ok_state; [done|by rewrite G1; apply gatt_ok_error]|done]. }
    cbn [mbind option_bind]. exists (set_adv_dirty true s2), o2, c2, n2, true.
    split_and!; [done|by apply st_ok_dirty|]. subst s2 s1. done.
Qed.

Lemma set_result_ok s cmd str :
  st_ok P s -> is_byte cmd -> Forall bytes str ->
  exists s', set_result hci_write s cmd str = Some s' /\ st_ok P s' /\
    exists g, after_sends (set_gatt_ g s) s' /\ state g = state (gatt_ s) /\ error g = error (gatt_ s).
Proof using HP.
  intros Hs Hc Hb. unfold set_result. pose proof (sok_gatt _ _ Hs) as Hg.
  pose proof (ok_result _ Hg) as (R1 & R2 & R3).
  destruct (improv_result_spec (result (gatt_ s)) cmd str R1) as (r & E & L & B & T). cbv zeta in *.
  set (d := encode_strings _) in *. pose proof (zlen_nonneg d). rewrite E. cbn [mbind option_bind].
  apply improv_result_bytes in E; [|done..]. rewrite slice_Some by lia. cbn [mbind option_bind].
  set (g := with_result r (3 + zlen d) (gatt_ s)).
  destruct (notify_ok (set_gatt_ g s) GATT_RESULT_VALUE (ztake (3 + zlen d) (zdrop 0 r)))
    as (s' & -> & A & S'); [|rewrite zdrop_0; llia|].
  { apply st_ok_gatt; [apply gatt_ok_result; done || lia|done]. }
  exists s'. split_and!; [done|done|]. exists g. done.
Qed.

(** The Improv part only moves the fields of Improv: the state of the packets
    stays. *)
Definition same_link (s s' : st) : Prop :=
  l2 s' = l2 s /\ l2_len s' = l2_len s /\ batch s' = batch s /\ conn s' = conn s /\ acl_len s' = acl_len s.
Lemma after_sends_link s g s' : after_sends (set_gatt_ g s) s' -> same_link s s'.
Proof. intros (o & c & n & ->). done. Qed.

Lemma improv_command_ok s c :
  st_ok P s ->
  exists s', improv_command hci_write ctrl s c = Some s' /\ st_ok P s' /\ same_link s s'.
Proof using HP Hctrl.
  intros Hs. unfold improv_command.
  if_goal; [if_goal|if_goal; [if_goal|if_goal]]; try (exists s; split_and!; done).
  - destruct (set_state_ok s IMPROV_PROVISIONING IMPROV_ERR_NONE Hs) as (s1 & o & m & n & d & -> & S1 & E1);
      [unfold is_byte, IMPROV_PROVISIONING; lia|unfold is_byte, IMPROV_ERR_NONE; lia|].
    cbn [mbind option_bind].
    destruct (wpa_join_total ctrl (wlog s1) (c_str (i_ssid c)) (c_str (i_pass c)) Hctrl) as (id & log & -> & _).
    cbn [mbind option_bind]. set (s2 := set_join_id id (set_wlog log s1)).
    assert (st_ok P s2) as S2 by st_case S1.
    assert (same_link s s2) as K by (unfold s2; by subst s1).
    if_goal.
    + destruct (set_state_ok s2 IMPROV_AUTHORIZED IMPROV_ERR_OTHER S2) as (s3 & ? & ? & ? & ? & -> & S3 & E3);
        [unfold is_byte, IMPROV_AUTHORIZED; lia|unfold is_byte, IMPROV_ERR_OTHER; lia|].
      exists s3. split_and!; [done|done|]. by subst s3.
    + eexists. split; [done|]. split; [st_case S2|exact K].
  - exists (identify s true). split_and!; [done|st_case Hs|done].
  - destruct (set_result_ok s IMPROV_CMD_INFO [cstr "ble-ha"%string; cstr "1"%string; cstr "ESP32-S31"%string; dev_name s])
      as (s' & -> & S' & g & A & _); [done|unfold is_byte, IMPROV_CMD_INFO; lia| |].
    { do 3 (apply Forall_cons_2; [by apply is_bytes_spec|]).
      apply Forall_cons_2; [apply Hs|apply Forall_nil_2]. }
    exists s'. split_and!; [done|done|by eapply after_sends_link].
Qed.

Lemma cmd_buf_len : zlen (i_ssid cmd_buf) = 33 /\ zlen (i_pass cmd_buf) = 64.
Proof. done. Qed.

Lemma rpc_write_ok s data :
  st_ok P s -> bytes data ->
  exists s', rpc_write hci_write ctrl s data = Some s' /\ st_ok P s' /\ same_link s s'.
Proof using HP Hctrl.
  intros Hs Hd. pose proof (ok_bytes _ (sok_gatt _ _ Hs)) as (B1 & _). unfold rpc_write.
  pose proof (sok_rpc _ _ Hs) as (R1 & R2 & R3). pose proof (zlen_nonneg data).
  if_goal.
  { destruct (set_state_ok (set_rpc_len 0 s) (state (gatt_ s)) IMPROV_ERR_INVALID)
      as (s' & ? & ? & ? & ? & -> & S' & E); [apply st_ok_rpc_len; [lia|done]|done|unfold is_byte, IMPROV_ERR_INVALID; lia|].
    exists s'. split_and!; [done|done|]. by subst s'. }
  destruct (blit (rpc s) (rpc_len s) data) as [b|] eqn:E; [|rewrite blit_Some in E; [done|lia|lia]].
  cbn [mbind option_bind]. pose proof (blit_len _ _ _ _ E) as L. pose proof (blit_bytes _ _ _ _ R2 Hd E) as Bb.
  set (s1 := set_rpc_len _ _). assert (st_ok P s1) as S1 by (apply st_ok_rpc; done || lia).
  change (rpc s1) with b. change (rpc_len s1) with (rpc_len s + zlen data).
  rewrite slice_Some by lia. cbn [mbind option_bind].
  destruct (improv_parse_spec (ztake (rpc_len s + zlen data) (zdrop 0 b)) cmd_buf) as (r & c & -> & V);
    [auto with port|done|done|].
  cbn [mbind option_bind]. if_goal; [exists s1; split_and!; done|].
  rewrite blit_Some by (rewrite ?zlen_zeros by lia; lia). cbn [mbind option_bind].
  set (s2 := set_rpc_len 0 _). assert (st_ok P s2) as S2.
  { apply st_ok_rpc; [rewrite ztake_0; cbn [app]; llia| |lia|done]. rewrite !bytes_app. auto with port. }
  if_goal.
  { destruct (set_state_ok s2 (state (gatt_ s2)) (u8 r) S2) as (s' & ? & ? & ? & ? & -> & S' & E');
      [done|apply u8_range|]. exists s'. split_and!; [done|done|]. by subst s'. }
  destruct (set_state_ok s2 (state (gatt_ s2)) IMPROV_ERR_NONE S2) as (s3 & ? & ? & ? & ? & -> & S3 & E3);
    [done|unfold is_byte, IMPROV_ERR_NONE; lia|]. cbn [mbind option_bind].
  destruct (improv_command_ok s3 c S3) as (s4 & -> & S4 & K). exists s4. split_and!; [done|done|].
  subst s3. exact K.
Qed.

(** * The callback *)

#[local] Instance rpc_handler : RpcHandler (st_ok P) (rpc_callback hci_write ctrl).
Proof using HP Hctrl.
  intros g s d Hg Hs Hd. unfold rpc_callback.
  destruct (rpc_write_ok (set_gatt_ g s) d (st_ok_gatt _ _ Hg Hs) Hd) as (s' & -> & S' & _).
  cbn [mbind option_bind]. exists (gatt_ s'), s'. split; [done|]. split; [apply S'|done].
Qed.

Lemma l2cap_frame_ok s cid p :
  st_ok P s -> bytes p -> exists s', l2cap_frame hci_write ctrl s cid p = Some s' /\ st_ok P s'.
Proof using HP Hctrl.
  intros Hs Hp. unfold l2cap_frame. pose proof (sok_acl _ _ Hs) as Ha.
  set (max := if acl_len s - 4 >? 256 then 256 else acl_len s - 4).
  assert (23 <= max) as Hm by (unfold max; if_goal; lia).
  if_goal.
  { destruct (gatt_handle_ok (st_ok P) (rpc_callback hci_write ctrl) (gatt_ s) s p max)
      as (g & s' & rsp & -> & G & S' & Lr & _); [apply Hs|done|done|done|]. cbn [mbind option_bind].
    rewrite in_array_Some by (revert Lr; unfold max; if_goal; lia). cbn [mbind option_bind].
    pose proof (st_ok_gatt s' g G S') as S1. if_goal; [|by eexists].
    destruct (acl_send_ok _ 4 rsp S1) as (s2 & -> & _ & S2). by exists s2. }
  if_goal; [|if_goal]; [| |by exists s].
  - rewrite (rd_Some p 0), (rd_Some p 1) by lia. cbn [mbind option_bind].
    if_goal; [|by exists s]. destruct (acl_send_ok s 5 [0x01; get p 1; 0x02; 0x00; 0x00; 0x00] Hs) as (s2 & -> & _ & S2). by exists s2.
  - rewrite (rd_Some p 0) by lia. cbn [mbind option_bind].
    destruct ((get p 0 =? 1) || (get p 0 =? 11)); [|by exists s]. destruct (acl_send_ok s 6 [0x05; 0x05] Hs) as (s2 & -> & _ & S2). by exists s2.
Qed.

Lemma handle_acl_ok s p :
  st_ok P s -> bytes p -> exists s', handle_acl hci_write ctrl s p = Some s' /\ st_ok P s'.
Proof using HP Hctrl.
  intros Hs Hp. unfold handle_acl. if_goal; [by exists s|].
  rewrite (rd_Some p 2), (rd_Some p 3), (rd_Some p 4) by lia. cbn [mbind option_bind].
  pose proof (get_byte p 3 Hp). pose proof (get_byte p 4 Hp). rewrite of_le16_add by done.
  set (dl := get p 3 + 256 * get p 4). assert (0 <= dl) by (unfold is_byte in *; lia).
  if_goal; [by exists s|].
  set (s1 := if negb _ then set_l2_len 0 s else s).
  assert (st_ok P s1) as S1 by (unfold s1; if_goal; [apply st_ok_l2_len; [lia|done]|done]).
  pose proof (sok_l2 _ _ S1) as (L1 & L2 & L3).
  if_goal; [eexists; split; [done|]; apply st_ok_l2_len; [lia|done]|].
  rewrite slice_Some by lia. cbn [mbind option_bind].
  set (d := ztake dl (zdrop 5 p)). assert (zlen d = dl) as Ld by (unfold d; llia).
  destruct (blit (l2 s1) (l2_len s1) d) as [b|] eqn:E; [|rewrite blit_Some in E; [done|lia|lia]].
  cbn [mbind option_bind]. pose proof (blit_len _ _ _ _ E) as Lb.
  assert (bytes b) as Bb by (refine (blit_bytes _ _ _ _ L2 _ E); unfold d; auto with port).
  set (s2 := set_l2_len _ _). assert (st_ok P s2) as S2 by (apply st_ok_l2_len; [lia|apply st_ok_l2; done || lia]).
  change (l2 s2) with b. change (l2_len s2) with (l2_len s1 + dl).
  if_goal; [by exists s2|].
  destruct (get16_ok b 0) as (n & -> & Wn); [done|lia..|]. cbn [mbind option_bind]. unfold word16 in Wn.
  if_goal; [by exists s2|].
  destruct (get16_ok b 2) as (cid & -> & _); [done|lia..|]. rewrite slice_Some by lia. cbn [mbind option_bind].
  destruct (l2cap_frame_ok s2 cid (ztake (n + 4 - 4) (zdrop 4 b))) as (s3 & -> & S3); [done|auto with port|].
  cbn [mbind option_bind]. eexists. split; [done|]. apply st_ok_l2_len; [lia|done].
Qed.

Lemma fill_batch_len b ads : zlen b <= ADV_BATCH -> zlen (fill_batch b ads) <= ADV_BATCH.
Proof.
  revert b. induction ads as [|a ads IH]; intros b Hb; cbn [fill_batch]; [done|].
  if_goal; [|done]. apply IH. unfold ADV_BATCH in *. llia.
Qed.

Lemma le_meta_ok s ev :
  st_ok P s -> bytes ev -> exists s', le_meta s ev = Some s' /\ st_ok P s'.
Proof.
  intros Hs He. unfold le_meta. if_goal; [by exists s|].
  rewrite (rd_Some ev 2) by lia. cbn [mbind option_bind]. if_goal.
  - destruct (hci_parse_safe ev 8 He ltac:(lia)) as (ads & -> & _ & La). cbn [mbind option_bind].
    rewrite in_array_Some by done. cbn [mbind option_bind]. eexists. split; [done|]. destruct Hs. if_goal; (constructor; try done; by apply fill_batch_len).
  - destruct ((get ev 2 =? 1) && (zlen ev >=? 6)) eqn:C; [|by exists s].
    apply andb_prop in C as [_ C]. bool_prop.
    rewrite (rd_Some ev 3) by lia. cbn [mbind option_bind]. if_goal; [by exists s|].
    destruct (get16_ok ev 4) as (h & -> & _); [done|lia..|]. cbn [mbind option_bind].
    eexists. split; [done|]. destruct Hs as [G L R ? ? ? ? ?]. constructor; try done; st_simpl.
    + apply gatt_ok_prep; [apply G|apply G|lia|]. apply gatt_ok_cccd; [done| |].
      { repeat constructor; vm_compute; congruence. }
      apply gatt_ok_mtu; [|done]. pose proof (ok_mtu _ G). lia.
    + destruct L as (? & ? & _). split_and!; done || lia.
    + destruct R as (? & ? & _). split_and!; done || lia.
    + change (-1 <= Z.land h (Z.ones 12) <= 4095). rewrite Z.land_ones by lia. change (2 ^ 12) with 4096. pose proof (Z.mod_pos_bound h 4096). lia.
Qed.

(** The count of a Number of Completed Packets event. *)
Definition completed (p : list Z) : option Z :=
  if (8 <=? zlen p) && (get p 0 =? HCI_EVT) && (get p 1 =? 0x13)
  then Some (get p 6 + 256 * get p 7) else None.

Lemma handle_packet_ok s p :
  (forall c n, 0 <= c < 65536 -> 0 <= n < 65536 -> P c n -> P (u16 (c + n)) 0) ->
  st_ok P s -> bytes p ->
  (forall n, completed p = Some n -> P (u16 (acl_credits s + n)) (conn_sent s - Z.min n (conn_sent s))) ->
  exists s', handle_packet hci_write ctrl s p = Some s' /\ st_ok P s'.
Proof using HP Hctrl.
  intros HD Hs Hp Hc. unfold handle_packet. if_goal; [by exists s|].
  rewrite (rd_Some p 0), (rd_Some p 1) by lia. cbn [mbind option_bind].
  if_goal; [by apply handle_acl_ok|]. if_goal; [by exists s|].
  if_goal; [apply le_meta_ok; auto with port|].
  pose proof (sok_credits _ _ Hs) as (C1 & C2 & C3).
  if_goal; [|if_goal; [|by exists s]].
  - if_goal; [|by exists s]. destruct (get16_ok p 4) as (h & -> & _); [done|lia..|]. cbn [mbind option_bind].
    if_goal; [|by exists s]. eexists. split; [done|]. destruct Hs. constructor; try done; st_simpl.
    split_and!; try lia; try apply u16_range. by apply HD.
  - destruct (Z.geb_spec (zlen p) 8) as [L|L]; [|by exists s].
    rewrite get16_eq by (done || lia). cbn [mbind option_bind].
    set (n := get p 6 + 256 * get p (6 + 1)).
    assert (completed p = Some n) as E.
    { unfold completed. rewrite (proj2 (Z.leb_le 8 _)), (proj2 (Z.eqb_eq (get p 0) _)), (proj2 (Z.eqb_eq (get p 1) _))
        by done. done. }
    pose proof (get_byte p 6 Hp). pose proof (get_byte p (6 + 1) Hp).
    assert (0 <= n) by (unfold n, is_byte in *; lia). specialize (Hc n E).
    eexists. split; [done|]. destruct Hs. constructor; try done. st_simpl.
    replace (if n <? conn_sent s then n else conn_sent s) with (Z.min n (conn_sent s)) by (if_goal; lia).
    split_and!; try lia; try apply u16_range. exact Hc.
Qed.
End safe.

(** * Safety *)

Definition any (c n : Z) : Prop := True.

(** Whatever the adapter sends, ACL data with any ATT, signaling or SMP
    requests, LE events or other events, the handler never leaves a buffer and
    keeps the state well-formed: the reassembly and RPC buffers, the batch of
    at most 16 advertisements, the credits in 16 bits, the ATT server. *)
Theorem handle_packet_safe hci_write ctrl s p :
  ctrl_int ctrl -> st_ok any s -> bytes p ->
  exists s', handle_packet hci_write ctrl s p = Some s' /\ st_ok any s'.
Proof. intros Hc Hs Hp. by apply handle_packet_ok. Qed.

(** * Credits *)

Section credits.
Variable hci_write : list (list Z) -> list Z -> bool.
Variable ctrl : list (list Z) -> list Z -> option (list Z).

Fixpoint run_packets (s : st) (ps : list (list Z)) : option st :=
  match ps with
  | [] => Some s
  | p :: ps => s ← handle_packet hci_write ctrl s p; run_packets s ps
  end.
(** The controller reports no more packets than it got. *)
Fixpoint honest (s : st) (ps : list (list Z)) : Prop :=
  match ps with
  | [] => True
  | p :: ps => (forall n, completed p = Some n -> n <= conn_sent s) /\
      (forall s', handle_packet hci_write ctrl s p = Some s' -> honest s' ps)
  end.
Definition total (N c n : Z) : Prop := c + n = N.

Lemma total_closed N : N < 65536 -> send_closed (total N).
Proof. intros HN c n Hc Hn H. unfold total in *. rewrite u16_small by lia. lia. Qed.

(** C16: over any packets of an honest controller the free buffers and the
    packets that it still has add up to its N buffers: each packet takes one
    credit, completed packets and the end of the connection give all of them
    back, and no packet goes out without a buffer. *)
Theorem acl_credits_conserved N s ps :
  ctrl_int ctrl -> N < 65536 -> st_ok (total N) s -> Forall bytes ps -> honest s ps ->
  exists s', run_packets s ps = Some s' /\ st_ok (total N) s' /\
    acl_credits s' + conn_sent s' = N /\ 0 <= conn_sent s' <= N.
Proof.
  intros Hc HN Hs Hb. revert s Hs. induction Hb as [|p ps Hp _ IH]; intros s Hs Hh.
  - exists s. pose proof (sok_credits _ _ Hs) as (C1 & C2 & C3). unfold total in C3. split_and!; done || lia.
  - destruct Hh as [Hn Hh]. pose proof (sok_credits _ _ Hs) as (C1 & C2 & C3). unfold total in C3.
    destruct (handle_packet_ok hci_write ctrl Hc (total N) (total_closed N HN) s p) as (s1 & E & S1);
      [..|done|done| |].
    + intros c n ? ? T. unfold total in *. rewrite u16_small by lia. lia.
    + intros n En. specialize (Hn n En). unfold total.
      assert (0 <= n).
      { unfold completed in En. if_hyp En; [|done]. injection En as <-.
        pose proof (get_byte p 6 Hp). pose proof (get_byte p 7 Hp). unfold is_byte in *. lia. }
      rewrite u16_small by lia. lia.
    + cbn [run_packets]. rewrite E. cbn [mbind option_bind]. apply IH; [done|]. by apply Hh.
Qed.
End credits.

(** * Reassembly *)

Lemma blit_blit l off a b l1 l2 :
  blit l off a = Some l1 -> blit l1 (off + zlen a) b = Some l2 -> blit l off (a ++ b) = Some l2.
Proof.
  intros (H1 & H2 & ->)%blit_inv (H3 & H4 & ->)%blit_inv.
  pose proof (zlen_nonneg a). pose proof (zlen_nonneg b).
  assert (zlen (ztake off l ++ a ++ zdrop (off + zlen a) l) = zlen l) as L by llia.
  rewrite L in H4. rewrite blit_Some by llia. f_equal.
  rewrite zlen_app. rewrite (app_assoc (ztake off l) a) at 1.
  rewrite ztake_app_len by llia. rewrite <- !app_assoc. do 3 f_equal.
  rewrite app_assoc, zdrop_app_ge by llia. rewrite zdrop_zdrop by llia. f_equal. llia.
Qed.
Lemma blit_nil l off : 0 <= off <= zlen l -> blit l off [] = Some l.
Proof.
  intros H. rewrite blit_Some by (rewrite ?zlen_nil; lia). rewrite zlen_nil, Z.add_0_r. cbn [app].
  by rewrite ztake_zdrop.
Qed.
Lemma set_same_l2 s : set_l2_len (l2_len s) (set_l2 (l2 s) s) = s.
Proof. by destruct s. Qed.
Lemma last_split {A} (l : list A) : l <> [] -> exists l' x, l = l' ++ [x].
Proof. intros H. destruct (exists_last H) as (l' & x & ->). eauto. Qed.

(** An ACL packet of the adapter with a fragment of an L2CAP frame. *)
Definition acl_frag (handle : Z) (first : bool) (d : list Z) : list Z :=
  [HCI_ACL; Z.land handle 0xff; Z.shiftr handle 8 + (if first then 0x20 else 0x10)] ++ le16 (zlen d) ++ d.
Fixpoint acl_frags (handle : Z) (first : bool) (ds : list (list Z)) : list (list Z) :=
  match ds with
  | [] => []
  | d :: ds => acl_frag handle first d :: acl_frags handle false ds
  end.
Definition l2cap_bytes (cid : Z) (payload : list Z) : list Z := le16 (zlen payload) ++ le16 cid ++ payload.

Lemma mjoin_pos (ds : list (list Z)) : List.last ds [] <> [] -> 0 < zlen (mjoin ds).
Proof.
  intros H. destruct ds as [|d ds]; [done|].
  destruct (exists_last (l := d :: ds) ltac:(done)) as (l' & x & El). rewrite El in H |- *.
  rewrite List.last_last in H. rewrite join_app. cbn. rewrite app_nil_r, zlen_app.
  pose proof (zlen_nonneg (mjoin l')). destruct x; [done|]. llia.
Qed.

Lemma bytes_mjoin (ds : list (list Z)) : Forall bytes ds -> bytes (mjoin ds).
Proof.
  induction 1 as [|d ds Hd _ IH]; [constructor|]. change (bytes (d ++ mjoin ds)). by rewrite bytes_app.
Qed.

Section reassembly.
Variable hci_write : list (list Z) -> list Z -> bool.
Variable ctrl : list (list Z) -> list Z -> option (list Z).
Variables (handle cid : Z) (payload : list Z).
Hypothesis Hh : 0 <= handle < 4096.
Hypothesis Hcid : word16 cid.
Hypothesis Hpl : bytes payload.
Hypothesis Hfit : zlen payload + 4 <= 256.

Fixpoint run_acl (s : st) (ps : list (list Z)) : option st :=
  match ps with
  | [] => Some s
  | p :: ps => s ← handle_acl hci_write ctrl s p; run_acl s ps
  end.

Lemma of_le16_get v : word16 v -> of_le16 (get (le16 v) 0) (get (le16 v) 1) = v.
Proof.
  unfold word16. intros Hv. change (get (le16 v) 0) with (Z.land v 255).
  change (get (le16 v) 1) with (u8 (Z.shiftr v 8)).
  rewrite land_255, Z.shiftr_div_pow2 by lia. change (2 ^ 8) with 256.
  rewrite of_le16_add by apply u8_range. zlia.
Qed.
(** One fragment, after [have] of the frame. *)
Lemma handle_acl_frag s (first : bool) d have :
  zlen (l2 s) = 256 -> bytes (l2 s) -> bytes d -> 0 <= l2_len s <= 256 ->
  (if first then have = [] else ztake (l2_len s) (l2 s) = have) ->
  zlen have + zlen d <= 256 ->
  exists b, ztake (zlen have + zlen d) b = have ++ d /\ zlen b = 256 /\ bytes b /\
    let s1 := set_l2_len (zlen have + zlen d) (set_l2 b s) in
    (zlen (have ++ d) < 4 \/ (exists n, get16 (have ++ d) 0 = Some n /\ zlen (have ++ d) < n + 4) ->
      handle_acl hci_write ctrl s (acl_frag handle first d) = Some s1) /\
    (have ++ d = l2cap_bytes cid payload ->
      handle_acl hci_write ctrl s (acl_frag handle first d) =
        (s2 ← l2cap_frame hci_write ctrl s1 cid payload; Some (set_l2_len 0 s2))).
Proof using Hh Hcid Hpl Hfit.
  intros L2 B2 Bd HL Hhave Hsum. pose proof (zlen_nonneg d). pose proof (zlen_nonneg have).
  set (p := acl_frag handle first d).
  assert (zlen p = 5 + zlen d) as Lp by (unfold p, acl_frag; llia).
  assert (Z.shiftr handle 8 = handle / 256) as Sh by (rewrite Z.shiftr_div_pow2 by lia; done).
  assert (0 <= handle / 256 < 16) as Hd by (Z.div_mod_to_equations; lia).
  set (s0 := if first then set_l2_len 0 s else s).
  assert (l2_len s0 = zlen have) as L0.
  { unfold s0. destruct first; [subst have; done|]. rewrite <- Hhave. rewrite zlen_ztake by lia. lia. }
  assert (l2 s0 = l2 s) as E0 by (unfold s0; by destruct first).
  destruct (blit (l2 s) (zlen have) d) as [b|] eqn:E; [|rewrite blit_Some in E; [done|lia|lia]].
  assert (ztake (zlen have + zlen d) b = have ++ d) as Tb.
  { rewrite (blit_append _ _ _ _ E). f_equal. destruct first; [subst have; done|].
    rewrite <- Hhave at 2. f_equal. by rewrite <- L0. }
  pose proof (blit_len _ _ _ _ E) as Lb. pose proof (blit_bytes _ _ _ _ B2 Bd E) as Bb.
  exists b. split; [exact Tb|]. split; [lia|]. split; [exact Bb|]. cbv zeta.
  assert (forall i n, 0 <= i -> i + 2 <= zlen (have ++ d) -> get16 (have ++ d) i = Some n -> get16 b i = Some n) as G.
  { intros i n Hi Hl Hg. rewrite <- (ztake_zdrop (zlen have + zlen d) b), Tb. rewrite <- Hg.
    unfold get16. rewrite !rd_Some by llia. by rewrite (get_app_l (have ++ d) _ i), (get_app_l (have ++ d) _ (i + 1)) by lia. }
  assert (handle_acl hci_write ctrl s p =
    let s1 := set_l2_len (zlen have + zlen d) (set_l2 b s) in
    if zlen have + zlen d <? 4 then Some s1
    else n ← get16 b 0; let need := n + 4 in
      if zlen have + zlen d <? need then Some s1
      else cid ← get16 b 2; f ← slice b 4 (need - 4);
        s ← l2cap_frame hci_write ctrl s1 cid f; Some (set_l2_len 0 s)) as ->.
  { unfold handle_acl. rewrite (proj2 (Z.ltb_ge (zlen p) 5)) by lia.
    rewrite (rd_Some p 2), (rd_Some p 3), (rd_Some p 4) by lia. cbn [mbind option_bind].
    assert (of_le16 (get p 3) (get p 4) = zlen d) as ->.
    { change (get p 3) with (get (le16 (zlen d)) 0). change (get p 4) with (get (le16 (zlen d)) 1).
      apply of_le16_get. unfold word16. lia. }
    change (get p 2) with (Z.shiftr handle 8 + (if first then 0x20 else 0x10)).
    destruct (Z.gtb_spec (zlen d + 5) (zlen p)) as [?|_]; [lia|].
    assert (negb (Z.land (Z.shiftr (Z.shiftr handle 8 + (if first then 0x20 else 0x10)) 4) 3 =? 1) = first) as ->.
    { rewrite Sh, (Z.shiftr_div_pow2 _ 4) by lia. change (2 ^ 4) with 16.
      destruct first; [replace ((handle / 256 + 32) / 16) with 2|replace ((handle / 256 + 16) / 16) with 1];
        try done; Z.div_mod_to_equations; lia. }
    fold s0. rewrite L0, E0. destruct (Z.gtb_spec (zlen have + zlen d) 256) as [?|_]; [lia|].
    rewrite slice_Some by lia. cbn [mbind option_bind].
    change (zdrop 5 p) with d. rewrite (ztake_ge (zlen d) d) by lia. rewrite E. cbn [mbind option_bind].
    assert (set_l2_len (zlen have + zlen d) (set_l2 b s0) = set_l2_len (zlen have + zlen d) (set_l2 b s)) as ->
      by (unfold s0; by destruct first).
    done. }
  cbv zeta. rewrite zlen_app. split.
  - intros [H1|(n & Hn & H1)]; [by rewrite (proj2 (Z.ltb_lt _ _)) by lia|].
    if_goal; [done|]. rewrite (G 0 n) by (rewrite ?zlen_app; done || lia). cbn [mbind option_bind].
    by rewrite (proj2 (Z.ltb_lt _ (n + 4))) by lia.
  - intros Hf. assert (zlen have + zlen d = zlen payload + 4) as Ls.
    { rewrite <- zlen_app, Hf. unfold l2cap_bytes. llia. }
    pose proof (zlen_nonneg payload).
    rewrite (proj2 (Z.ltb_ge _ 4)) by lia.
    rewrite (G 0 (zlen payload)); [|lia|rewrite zlen_app; lia|].
    2: { rewrite Hf. apply (get16_at []); [done|unfold word16; lia]. }
    cbn [mbind option_bind]. rewrite (proj2 (Z.ltb_ge _ (zlen payload + 4))) by lia.
    rewrite (G 2 cid); [|lia|rewrite zlen_app; lia|].
    2: { rewrite Hf. apply (get16_at (le16 (zlen payload))); done. }
    cbn [mbind option_bind]. rewrite slice_Some by lia. cbn [mbind option_bind].
    replace (zlen payload + 4 - 4) with (zlen payload) by lia.
    assert (ztake (zlen payload) (zdrop 4 b) = payload) as ->; [|done].
    rewrite <- (ztake_zdrop (zlen have + zlen d) b), Tb, Hf. unfold l2cap_bytes.
    rewrite zdrop_app_le by llia. change (zdrop 4 (le16 _ ++ le16 cid ++ payload)) with payload.
    by apply ztake_app_len.
Qed.

Lemma get16_prefix (l k : list Z) : 2 <= zlen l -> get16 l 0 = get16 (l ++ k) 0.
Proof.
  intros H. unfold get16. rewrite !rd_Some by llia.
  by rewrite (get_app_l l k 0), (get_app_l l k (0 + 1)) by lia.
Qed.
Lemma run_frags ds : forall s (first : bool) have,
  zlen (l2 s) = 256 -> bytes (l2 s) -> 0 <= l2_len s <= 256 -> Forall bytes ds ->
  (if first then have = [] else ztake (l2_len s) (l2 s) = have) ->
  List.last ds [] <> [] -> have ++ mjoin ds = l2cap_bytes cid payload ->
  exists b, zlen b = 256 /\ bytes b /\ run_acl s (acl_frags handle first ds) =
    (s2 ← l2cap_frame hci_write ctrl (set_l2_len (zlen payload + 4) (set_l2 b s)) cid payload;
     Some (set_l2_len 0 s2)).
Proof using Hh Hcid Hpl Hfit.
  assert (zlen (l2cap_bytes cid payload) = zlen payload + 4) as Lt by (unfold l2cap_bytes; llia).
  induction ds as [|d ds IH]; intros s first have L2 B2 HL Hb Hhave Hlast Hj; [done|].
  pose proof (Forall_inv Hb) as Bd. pose proof (Forall_inv_tail Hb) as Bds. clear Hb.
  assert (mjoin (d :: ds) = d ++ mjoin ds) as J by done. rewrite J, app_assoc in Hj.
  pose proof (zlen_nonneg (mjoin ds)) as Hm. pose proof Hj as Hl. apply (f_equal zlen) in Hl.
  rewrite Lt, !zlen_app in Hl.
  destruct (handle_acl_frag s first d have) as (b & Tb & Lb & Bb & H1 & H2); [done|done|done|done|done|lia|].
  cbv zeta in *. cbn [acl_frags run_acl]. destruct ds as [|d' ds].
  - exists b. split; [done|]. split; [done|]. change (mjoin (@nil (list Z))) with (@nil Z) in *. rewrite app_nil_r in Hj. rewrite zlen_nil in Hl.
    rewrite (H2 Hj). replace (zlen have + zlen d) with (zlen payload + 4) by lia.
    set (o := l2cap_frame _ _ _ _ _). destruct o as [s9|]; cbn [mbind option_bind]; reflexivity.
  - assert (0 < zlen (mjoin (d' :: ds))) as Hpos by (by apply mjoin_pos).
    rewrite H1.
    2: { destruct (Z.lt_ge_cases (zlen (have ++ d)) 4); [by left|]. right. exists (zlen payload).
         split; [|rewrite zlen_app; lia]. rewrite (get16_prefix _ (mjoin (d' :: ds))) by lia. rewrite Hj.
         apply (get16_at []); [done|]. unfold word16. pose proof (zlen_nonneg payload). lia. }
    cbn [mbind option_bind].
    destruct (IH (set_l2_len (zlen have + zlen d) (set_l2 b s)) false (have ++ d)) as (b' & Lb' & Bb' & R);
      st_simpl; try done.
    { pose proof (zlen_nonneg d). pose proof (zlen_nonneg have). lia. }
    exists b'. split; [done|]. split; [done|]. rewrite R. done.
Qed.
End reassembly.

(** An L2CAP frame of up to 256 bytes that comes in any ACL fragments, after
    whatever was left in the buffer, is handled exactly once, when its last
    fragment comes, with its channel and its payload, and the buffer is empty
    after. *)
Theorem handle_acl_reassembly hci_write ctrl s handle cid payload ds :
  0 <= handle < 4096 -> word16 cid -> bytes payload -> zlen payload + 4 <= 256 ->
  st_ok any s -> Forall bytes ds -> List.last ds [] <> [] -> mjoin ds = l2cap_bytes cid payload ->
  exists b, zlen b = 256 /\ run_acl hci_write ctrl s (acl_frags handle true ds) =
    (s2 ← l2cap_frame hci_write ctrl (set_l2_len (zlen payload + 4) (set_l2 b s)) cid payload;
     Some (set_l2_len 0 s2)).
Proof.
  intros Hh Hc Hp Hf Hs Hb Hl Hj. pose proof (sok_l2 _ _ Hs) as (L1 & L2 & L3).
  destruct (run_frags hci_write ctrl handle cid payload Hh Hc Hp Hf ds s true []) as (b & Lb & _ & R); try done.
  exists b. done.
Qed.

(** * Writes of the RPC command *)

Section rpc.
Variable hci_write : list (list Z) -> list Z -> bool.
Variable ctrl : list (list Z) -> list Z -> option (list Z).

Fixpoint run_rpc (s : st) (ds : list (list Z)) : option st :=
  match ds with
  | [] => Some s
  | d :: ds => s ← rpc_write hci_write ctrl s d; run_rpc s ds
  end.

(** What is in the buffer before [data] comes. *)
Definition held (s : st) : list Z := ztake (rpc_len s) (rpc s).

Lemma improv_parse_incomplete l c : bytes l -> ~ complete l -> improv_parse l c = Some (1, c).
Proof.
  intros Hb Hc. unfold complete in Hc. unfold improv_parse. if_goal; [done|].
  rewrite (rd_Some l 1) by lia. cbn [mbind option_bind]. if_goal; [done|]. lia.
Qed.
Lemma complete_app a b : complete a -> complete (a ++ b).
Proof.
  unfold complete. intros [H1 H2]. rewrite get_app_l by lia. pose proof (zlen_nonneg b). rewrite zlen_app. lia.
Qed.

Lemma rpc_write_incomplete s d :
  st_ok any s -> bytes d -> rpc_len s + zlen d <= 128 -> ~ complete (held s ++ d) ->
  exists b, rpc_write hci_write ctrl s d = Some (set_rpc_len (rpc_len s + zlen d) (set_rpc b s)) /\
    blit (rpc s) (rpc_len s) d = Some b.
Proof.
  intros Hs Hd Hl Hn. pose proof (sok_rpc _ _ Hs) as (R1 & R2 & R3). pose proof (zlen_nonneg d). unfold rpc_write.
  destruct (Z.gtb_spec (rpc_len s + zlen d) 128) as [?|_]; [lia|].
  destruct (blit (rpc s) (rpc_len s) d) as [b|] eqn:E; [|rewrite blit_Some in E; [done|lia|lia]].
  pose proof (blit_bytes _ _ _ _ R2 Hd E). pose proof (blit_len _ _ _ _ E).
  exists b. split; [|done]. cbn [mbind option_bind]. st_simpl. rewrite slice_Some by lia. rewrite zdrop_0.
  cbn [mbind option_bind]. rewrite (blit_append _ _ _ _ E). fold (held s).
  rewrite improv_parse_incomplete; [done| |done]. rewrite bytes_app. unfold held. auto with port.
Qed.

(** A write can be cut in two where the packet is not complete. *)
Lemma rpc_write_cut s a d :
  st_ok any s -> bytes a -> bytes d -> rpc_len s + zlen a + zlen d <= 128 -> ~ complete (held s ++ a) ->
  rpc_write hci_write ctrl s (a ++ d) =
    (s1 ← rpc_write hci_write ctrl s a; rpc_write hci_write ctrl s1 d).
Proof.
  intros Hs Ha Hd Hl Hn. pose proof (sok_rpc _ _ Hs) as (R1 & R2 & R3).
  pose proof (zlen_nonneg d). pose proof (zlen_nonneg a).
  destruct (rpc_write_incomplete s a) as (b & -> & E); [done|done|lia|done|]. cbn [mbind option_bind].
  unfold rpc_write. st_simpl. rewrite zlen_app, Z.add_assoc.
  destruct (Z.gtb_spec (rpc_len s + zlen a + zlen d) 128) as [?|_]; [lia|].
  pose proof (blit_len _ _ _ _ E).
  destruct (blit b (rpc_len s + zlen a) d) as [b2|] eqn:E2; [|rewrite blit_Some in E2; [done|lia|lia]].
  rewrite (blit_blit _ _ _ _ _ _ E E2). reflexivity.
Qed.

Lemma packet_prefix_incomplete a d cmd p :
  bytes a -> a ++ d = improv_packet cmd p -> 0 < zlen d -> ~ complete a.
Proof.
  intros Ha E Hd [H1 H2]. destruct (improv_packet_fields cmd p) as (_ & F & _).
  pose proof (improv_packet_len cmd p) as L. rewrite <- E in F, L.
  rewrite get_app_l in F by lia. rewrite zlen_app in L. lia.
Qed.
Lemma run_rpc_eq cmd p ds : forall s,
  st_ok any s -> Forall bytes ds -> rpc_len s + zlen (mjoin ds) <= 128 -> List.last ds [] <> [] ->
  held s ++ mjoin ds = improv_packet cmd p -> run_rpc s ds = rpc_write hci_write ctrl s (mjoin ds).
Proof.
  induction ds as [|d ds IH]; intros s Hs Hb Hl Hlast Hp; [done|].
  pose proof (Forall_inv Hb) as Bd. pose proof (Forall_inv_tail Hb) as Bds. clear Hb.
  assert (mjoin (d :: ds) = d ++ mjoin ds) as J by done. rewrite J, zlen_app in *.
  pose proof (sok_rpc _ _ Hs) as (R1 & R2 & R3). destruct ds as [|d' ds].
  - cbn [run_rpc]. change (mjoin (@nil (list Z))) with (@nil Z). rewrite app_nil_r.
    by destruct (rpc_write hci_write ctrl s d).
  - assert (0 < zlen (mjoin (d' :: ds))) as Hpos by (by apply mjoin_pos).
    assert (~ complete (held s ++ d)) as Hc.
    { apply (packet_prefix_incomplete _ (mjoin (d' :: ds)) cmd p); [|by rewrite <- app_assoc|done].
      rewrite bytes_app. unfold held. auto with port. }
    assert (bytes (mjoin (d' :: ds))) as Bj by (by apply bytes_mjoin).
    rewrite rpc_write_cut by (done || lia). cbn [run_rpc].
    destruct (rpc_write_incomplete s d) as (b & -> & E); [done|done|lia|done|]. cbn [mbind option_bind].
    pose proof (zlen_nonneg d). pose proof (blit_len _ _ _ _ E).
    apply IH; st_simpl; [|done|lia|done|].
    + apply st_ok_rpc; [lia|by apply (blit_bytes _ _ _ _ R2 Bd E)|lia|done].
    + unfold held. st_simpl. rewrite (blit_append _ _ _ _ E). by rewrite <- app_assoc.
Qed.

(** A command that comes in several writes of the RPC characteristic has
    the effect of one write of the whole packet, however it is cut: nothing
    happens before it is complete. *)
Theorem rpc_write_chunks s cmd d ds :
  st_ok any s -> rpc_len s = 0 -> Forall bytes ds -> zlen (improv_packet cmd d) <= 128 ->
  List.last ds [] <> [] -> mjoin ds = improv_packet cmd d ->
  run_rpc s ds = rpc_write hci_write ctrl s (improv_packet cmd d).
Proof.
  intros Hs H0 Hb Hl Hlast E. rewrite <- E in *. apply (run_rpc_eq cmd d); try done; [lia|].
  unfold held. rewrite H0. exact E.
Qed.

(** C26: a complete packet that is not valid stays in the buffer without an error,
    since IMPROV_ERR_INVALID is the value for an incomplete one, and what comes
    next has no effect either while it fits the buffer. *)
Theorem rpc_write_deaf s pkt c d :
  st_ok any s -> rpc_len s = 0 -> bytes pkt -> bytes d -> 0 < zlen d -> zlen pkt + zlen d <= 128 ->
  complete pkt -> improv_parse pkt cmd_buf = Some (IMPROV_ERR_INVALID, c) ->
  exists b b', rpc_write hci_write ctrl s pkt = Some (set_rpc_len (zlen pkt) (set_rpc b s)) /\
    rpc_write hci_write ctrl (set_rpc_len (zlen pkt) (set_rpc b s)) d =
      Some (set_rpc_len (zlen pkt + zlen d) (set_rpc b' s)).
Proof.
  intros Hs H0 Hp Hd Hpos Hl Hc Hi. pose proof (sok_rpc _ _ Hs) as (R1 & R2 & R3).
  pose proof (zlen_nonneg pkt).
  destruct (blit (rpc s) 0 pkt) as [b|] eqn:E; [|rewrite blit_Some in E; [done|lia|lia]].
  pose proof (blit_len _ _ _ _ E) as Lb. pose proof (blit_append _ _ _ _ E) as T.
  rewrite Z.add_0_l, ztake_0 in T. cbn [app] in T.
  destruct (blit b (zlen pkt) d) as [b'|] eqn:E'; [|rewrite blit_Some in E'; [done|lia|lia]].
  exists b, b'. unfold rpc_write. st_simpl. rewrite H0, Z.add_0_l.
  destruct (Z.gtb_spec (zlen pkt) 128) as [?|_]; [lia|].
  destruct (Z.gtb_spec (zlen pkt + zlen d) 128) as [?|_]; [lia|].
  rewrite E, E'. cbn [mbind option_bind]. st_simpl. split.
  { rewrite slice_Some by lia. rewrite zdrop_0, T. cbn [mbind option_bind]. rewrite Hi. done. }
  pose proof (blit_len _ _ _ _ E') as Lb'. rewrite slice_Some by lia. rewrite zdrop_0.
  rewrite (blit_append _ _ _ _ E'), T. cbn [mbind option_bind].
  assert (improv_parse (pkt ++ d) cmd_buf = Some (1, cmd_buf)) as ->; [|done].
  destruct Hc as [C1 C2]. unfold improv_parse. pose proof (get_byte pkt 1 Hp) as B1. unfold is_byte in B1.
  rewrite zlen_app, (proj2 (Z.ltb_ge _ 3)) by lia. rewrite (rd_Some (pkt ++ d) 1) by llia.
  rewrite get_app_l by lia. cbn [mbind option_bind].
    rewrite (proj2 (Z.ltb_ge _ (get pkt 1 + 3))) by lia.
  destruct (Z.gtb_spec (zlen pkt + zlen d) (get pkt 1 + 3)) as [_|?]; [done|lia].
Qed.
End rpc.

(** * Instances *)

Definition st0 : st :=
  St [] 0 [] false 251 4 0 (zeros 6) true [] 0 true false false 64 (zeros 256) 0 (zeros 128) 0
    (with_mtu_max 247 gatt0) (-1) 0 0 0 0 [] (ApiInfo None None None None) [98; 111] [].
Definition write0 (out : list (list Z)) (p : list Z) : bool := true.
Lemma st0_ok P : P 4 0 -> st_ok P st0.
Proof.
  intros HP. constructor; cbn; try lia; try done.
  - destruct gatt0_ok. constructor; try done; cbn; lia.
  - split; [done|]. split; [by apply is_bytes_spec|lia].
  - split; [done|]. split; [by apply is_bytes_spec|lia].
  - by apply is_bytes_spec.
Qed.
Lemma ctrl0_int : ctrl_int ctrl0.
Proof. intros log r [= <-]. vm_compute. eauto. Qed.
(** An MTU request of a client, and its confirmation by the controller. *)
Definition acl0 : list Z := acl_frag 64 true (l2cap_bytes 4 [0x02; 0xf7; 0x00]).
Definition done0 : list Z := [HCI_EVT; 0x13; 5; 1; 64; 0; 1; 0].

Lemma handle_packet_safe_witness : exists s', handle_packet write0 ctrl0 st0 acl0 = Some s' /\ acl_credits s' = 3.
Proof.
  destruct (handle_packet_safe write0 ctrl0 st0 acl0 ctrl0_int (st0_ok any I) (is_bytes_spec acl0 eq_refl))
    as (s' & E & _).
  exists s'. split; [exact E|]. vm_compute in E. injection E as <-. reflexivity.
Defined.
Lemma acl_credits_conserved_witness : exists s', run_packets write0 ctrl0 st0 [acl0; done0] = Some s' /\
  acl_credits s' + conn_sent s' = 4.
Proof.
  assert (honest write0 ctrl0 st0 [acl0; done0]) as Hh.
  { split; [discriminate|]. intros s' E. vm_compute in E. injection E as <-. split; [|done].
    intros n E. vm_compute in E. injection E as <-. vm_compute. congruence. }
  destruct (acl_credits_conserved write0 ctrl0 4 st0 [acl0; done0] ctrl0_int ltac:(lia) (st0_ok (total 4) eq_refl)
    (Forall_cons_2 _ _ _ (is_bytes_spec acl0 eq_refl)
      (Forall_cons_2 _ _ _ (is_bytes_spec done0 eq_refl) (Forall_nil_2 _))) Hh) as (s' & E & _ & T & _).
  exists s'. split; [exact E|exact T].
Defined.
Definition frags0 : list (list Z) := [[3; 0; 4]; [0; 2]; [0xf7; 0]].
Lemma frags0_bytes : Forall bytes frags0.
Proof. repeat (apply Forall_cons_2; [by apply is_bytes_spec|]). apply Forall_nil_2. Qed.
Lemma handle_acl_reassembly_witness : exists b, zlen b = 256 /\
  run_acl write0 ctrl0 st0 (acl_frags 64 true frags0) =
    (s2 ← l2cap_frame write0 ctrl0 (set_l2_len 7 (set_l2 b st0)) 4 [2; 0xf7; 0]; Some (set_l2_len 0 s2)).
Proof.
  exact (handle_acl_reassembly write0 ctrl0 st0 64 4 [2; 0xf7; 0] frags0 ltac:(lia) ltac:(unfold word16; lia)
    (is_bytes_spec [2; 0xf7; 0] eq_refl) ltac:(vm_compute; congruence) (st0_ok any I) frags0_bytes
    ltac:(discriminate) eq_refl).
Defined.
Definition chunks0 : list (list Z) := [[3]; [0; 3]].
Lemma chunks0_bytes : Forall bytes chunks0.
Proof. repeat (apply Forall_cons_2; [by apply is_bytes_spec|]). apply Forall_nil_2. Qed.
Lemma rpc_write_chunks_witness :
  run_rpc write0 ctrl0 st0 chunks0 = rpc_write write0 ctrl0 st0 (improv_packet 3 []).
Proof.
  exact (rpc_write_chunks write0 ctrl0 st0 3 [] chunks0 (st0_ok any I) eq_refl chunks0_bytes
    ltac:(vm_compute; congruence) ltac:(discriminate) eq_refl).
Defined.
Lemma rpc_write_deaf_witness : exists b b',
  rpc_write write0 ctrl0 st0 [3; 0; 4] = Some (set_rpc_len 3 (set_rpc b st0)) /\
  rpc_write write0 ctrl0 (set_rpc_len 3 (set_rpc b st0)) [3; 0; 3] = Some (set_rpc_len 6 (set_rpc b' st0)).
Proof.
  exact (rpc_write_deaf write0 ctrl0 st0 [3; 0; 4] cmd_buf [3; 0; 3] (st0_ok any I) eq_refl
    (is_bytes_spec [3; 0; 4] eq_refl) (is_bytes_spec [3; 0; 3] eq_refl) ltac:(vm_compute; congruence)
    ltac:(vm_compute; congruence) ltac:(vm_compute; split; congruence) eq_refl).
Defined.
