(* ===== verification/BleApi.v ===== *)
(** The API clients, the timers and the main loop of tools/ble-ha/ble-ha.c.

    [sock_send log fd b] tells whether the socket [fd] takes all of [b] after
    the messages [log]; [None] is an access outside of a buffer.  What poll()
    and the sockets give to one round of the loop is its argument. *)

From Stdlib Require Import Ascii String.
From S2P Require Import Prelude Api Hci Improv Gatt Wpa BleState BleHa.

Section api.
Variable sock_send : list (Z * list Z) -> Z -> list Z -> bool.

(** * A client *)

Definition client_close (c : client) : client := Client (-1) (buf c) 0 false.

Definition client_send (log : list (Z * list Z)) (c : client) (type : Z) (msg : list Z) :
    option (list (Z * list Z) * client) :=
  if zlen msg + 12 >? 1200 then Some (log, c)
  else
    b ← in_array 1200 (api_frame type msg);
    Some (if sock_send log (fd c) b then (log ++ [(fd c, b)], c) else (log, client_close c)).

Definition with_subscribed (b : bool) (c : client) : client := Client (fd c) (buf c) (len c) b.
Definition with_buf (b : list Z) (n : Z) (c : client) : client := Client (fd c) b n (subscribed c).

Definition client_message (inf : api_info) (log : list (Z * list Z)) (c : client) (type : Z) :
    option (list (Z * list Z) * client) :=
  if type =? 1 then m ← in_array 512 (api_hello inf); client_send log c 2 m
  else if type =? 5 then
    '(log, c) ← client_send log c 6 [];
    Some (log, if fd c >=? 0 then client_close c else c)
  else if type =? 7 then client_send log c 8 []
  else if type =? 9 then m ← in_array 512 (api_device_info inf); client_send log c 10 m
  else if type =? 11 then client_send log c 19 []
  else if type =? 66 then Some (log, with_subscribed true c)
  else if type =? 87 then Some (log, with_subscribed false c)
  else if type =? 80 then client_send log c 81 []
  else Some (log, c).

(** The result of recv(): nothing now, the end or an error, or bytes. *)
Inductive received := RAgain | RClosed | RData (d : list Z).

(** The loop over the messages: [r], [used], the log and the client. *)
Fixpoint read_loop (fuel : nat) (inf : api_info) (log : list (Z * list Z)) (c : client) (r used : Z) :
    option (Z * Z * list (Z * list Z) * client) :=
  match fuel with
  | O => None
  | S fuel =>
      if fd c <? 0 then Some (r, used, log, c)
      else
        part ← slice (buf c) used (len c - used);
        '(r, m) ← api_next part;
        match m with
        | Some (type, _) =>
            '(log, c) ← client_message inf log c type;
            read_loop fuel inf log c r (used + r)
        | None => Some (r, used, log, c)
        end
  end.

(** Each message takes three bytes or more, so the bytes and one bound the
    rounds; the length of a closed client is 0 and stops the loop before. *)
Definition client_read (inf : api_info) (log : list (Z * list Z)) (c : client) (n : received) :
    option (list (Z * list Z) * client) :=
  match n with
  | RAgain => Some (log, c)
  | RClosed => Some (log, client_close c)
  | RData d =>
      b ← blit (buf c) (len c) d;
      let c := with_buf b (len c + zlen d) c in
      '(r, used, log, c) ← read_loop (S (Z.to_nat (len c))) inf log c 0 0;
      if fd c <? 0 then Some (log, c)
      else if (r <? 0) || ((used =? 0) && (len c =? 1024)) then Some (log, client_close c)
      else
        rest ← slice (buf c) used (len c - used);
        b ← blit (buf c) 0 rest;
        Some (log, with_buf b (len c - used) c)
  end.

(** The first free place; without one the connection is closed. *)
Fixpoint accept_client (cs : list client) (f : Z) : list client :=
  match cs with
  | [] => []
  | c :: cs => if fd c <? 0 then Client f (buf c) (len c) (subscribed c) :: cs else c :: accept_client cs f
  end.

Fixpoint flush_loop (log : list (Z * list Z)) (cs : list client) (msg : list Z) :
    option (list (Z * list Z) * list client) :=
  match cs with
  | [] => Some (log, [])
  | c :: cs =>
      '(log, c) ← (if (fd c >=? 0) && subscribed c then client_send log c 93 msg else Some (log, c));
      '(log, cs) ← flush_loop log cs msg;
      Some (log, c :: cs)
  end.
Definition flush_batch (s : st) : option st :=
  if zlen (batch s) =? 0 then Some s
  else
    m ← api_adv_batch (batch s);
    m ← in_array (ADV_BATCH * 48) m;
    '(log, cs) ← flush_loop (sent s) (clients s) m;
    Some (set_clients cs (set_sent log (set_batch [] s))).

Definition subscribers (s : st) : Z :=
  zlen (List.filter (fun c => (fd c >=? 0) && subscribed c) (clients s)).

(** * The loop *)

Definition poll_timeout (s : st) : Z :=
  let left := batch_ms s + 100 - clock s in
  if nz (zlen (batch s)) then (if left >? 0 then left else 0)
  else if (join_id s >=? 0) || nz (identify_end s) || nz (done_at s) then 1000
  else if improv s then 5000 else -1.

Variable hci_write : list (list Z) -> list Z -> bool.
Variable ctrl : list (list Z) -> list Z -> option (list Z).

(** The packets that come while a command waits are [inbox]. *)
Definition timers (s : st) (inbox : list (list Z)) : option st :=
  s ← (if nz (zlen (batch s)) && (clock s >=? batch_ms s + 100) then flush_batch s else Some s);
  s ← (if join_id s >=? 0 then join_poll hci_write ctrl s else Some s);
  let s := if nz (identify_end s) && (now s >=? identify_end s) then identify s false else s in
  '(s, inbox) ←
    (if nz (done_at s) && (now s >=? done_at s) && (conn s <? 0) then
       set_advertising_ hci_write ctrl (set_done_at 0 (set_improv false s)) false inbox
     else Some (s, inbox));
  if improv s && (join_id s <? 0) && negb (nz (done_at s)) && (conn s <? 0) && (now s >=? check_at s) then
    let s := set_check_at (now s + 5) s in
    let '(n, log) := wpa_networks ctrl (wlog s) in
    let s := set_wlog log s in
    if n >? 0 then
      '(s, _) ← set_advertising_ hci_write ctrl (set_improv false s) false inbox; Some s
    else Some s
  else Some s.

(** What one round of the loop gets: the packets for the commands before
    poll(), the time after it, the packet of the adapter, a new connection, the
    bytes of the clients, and the packets for the commands of the timers. *)
Record input := Input {
  in_setup : list (list Z); in_clock : Z; in_packet : option (list Z); in_accept : option Z;
  in_clients : list (option received); in_timers : list (list Z) }.

Fixpoint read_clients (inf : api_info) (log : list (Z * list Z)) (cs : list client) (ins : list (option received)) :
    option (list (Z * list Z) * list client) :=
  match cs, ins with
  | c :: cs, i :: ins =>
      '(log, c) ← (match i with
                   | Some n => if fd c >=? 0 then client_read inf log c n else Some (log, c)
                   | None => Some (log, c)
                   end);
      '(log, cs) ← read_clients inf log cs ins;
      Some (log, c :: cs)
  | _, _ => Some (log, cs)
  end.

Definition run_round (s : st) (i : input) : option st :=
  '(s, inbox) ← (if adv_dirty s && improv s && (conn s <? 0)
                 then set_advertising_ hci_write ctrl s true (in_setup i) else Some (s, in_setup i));
  '(s, _) ← set_scan hci_write ctrl s (subscribers s >? 0) inbox;
  let s := set_clock (in_clock i) s in
  s ← (match in_packet i with Some p => handle_packet hci_write ctrl s (hci_read 300 p) | None => Some s end);
  let s := match in_accept i with Some f => set_clients (accept_client (clients s) f) s | None => s end in
  '(log, cs) ← read_clients (info s) (sent s) (clients s) (in_clients i);
  let s := set_clients cs (set_sent log s) in
  s ← (if zlen (batch s) >=? ADV_BATCH then flush_batch s else Some s);
  timers s (in_timers i).
End api.

(** * The message stream of a client *)

Section stream.
Variable sock_send : list (Z * list Z) -> Z -> list Z -> bool.
Variable inf : api_info.
Hypothesis Hinf : info_ok inf.

(** The client without its buffer. *)
Definition canon (c : client) : client := Client (fd c) [] 0 (subscribed c).

(** The messages in order, until the client is closed. *)
Fixpoint handle_all (log : list (Z * list Z)) (c : client) (msgs : list (Z * list Z)) :
    option (list (Z * list Z) * client) :=
  match msgs with
  | [] => Some (log, c)
  | (type, _) :: msgs =>
      if fd c <? 0 then Some (log, c)
      else '(log, c) ← client_message sock_send inf log c type; handle_all log c msgs
  end.

Definition canon_snd (x : list (Z * list Z) * client) : list (Z * list Z) * client := (fst x, canon (snd x)).
Lemma client_send_canon log c t m :
  client_send sock_send log (canon c) t m = canon_snd <$> client_send sock_send log c t m.
Proof.
  unfold client_send. if_goal; [done|]. destruct (in_array _ _); [|done]. cbn [mbind option_bind fd canon]. if_goal; done.
Qed.
Lemma client_message_canon log c t :
  client_message sock_send inf log (canon c) t =
    ('(l, c') ← client_message sock_send inf log c t; Some (l, canon c')).
Proof.
  assert (forall o : option (list (Z * list Z) * client), canon_snd <$> o = ('(l, c') ← o; Some (l, canon c'))) as Y by (by intros [[]|]).
  unfold client_message. rewrite !client_send_canon, !Y.
  assert (forall (o : option (list Z)) k, (m ← o; client_send sock_send log (canon c) k m) =
    ('(l, c') ← (m ← o; client_send sock_send log c k m); Some (l, canon c'))) as X.
  { intros [m|] k; [|done]. cbn [mbind option_bind]. by rewrite client_send_canon, Y. }
  rewrite !X. if_goal; [done|]. if_goal.
  { destruct (client_send sock_send log c 6 []) as [[l c']|]; [|done]. cbn [fst snd mbind option_bind fd canon].
    destruct (fd c' >=? 0); done. }
  repeat (if_goal; [done|]). done.
Qed.
Lemma client_send_ok log c t m : 0 <= t < 4294967296 ->
  exists l c', client_send sock_send log c t m = Some (l, c') /\ (fd c' = -1 \/ c' = c).
Proof.
  intros Ht. unfold client_send. if_goal; [exists log, c; auto|]. bool_prop. pose proof (zlen_nonneg m).
  assert (zlen (pb_varint (zlen m)) <= 5) by (apply (varint_len 10 _ 5); cbn; lia).
  assert (zlen (pb_varint t) <= 5) by (apply (varint_len 10 _ 5); cbn; lia).
  rewrite in_array_Some by (rewrite api_frame_len; lia). cbn [mbind option_bind]. if_goal; eexists _, _; auto.
Qed.
Lemma client_message_ok log c t :
  exists l c', client_message sock_send inf log c t = Some (l, c') /\
    (fd c' = -1 \/ exists b, c' = with_subscribed b c).
Proof using Hinf.
  assert (forall t m, 0 <= t < 4294967296 -> exists l c', client_send sock_send log c t m = Some (l, c') /\
    (fd c' = -1 \/ exists b, c' = with_subscribed b c)) as X.
  { intros k m Hk. destruct (client_send_ok log c k m Hk) as (l & c' & -> & H). exists l, c'. split; [done|].
    destruct H as [?| ->]; [by left|]. right. exists (subscribed c). by destruct c. }
  unfold client_message. pose proof (api_hello_len inf Hinf). pose proof (api_device_info_len inf Hinf).
  rewrite !in_array_Some by lia. cbn [mbind option_bind].
  if_goal; [by apply X|]. if_goal.
  { destruct (X 6 []) as (l & c' & -> & H'); [lia|]. cbn [mbind option_bind]. eexists _, _. split; [done|].
    if_goal; [by left|exact H']. }
  repeat (if_goal; [first [by apply X|eexists _, _; split; [done|]; right; by eexists]|]).
  eexists _, _. split; [done|]. right. exists (subscribed c). by destruct c.
Qed.
Lemma handle_all_closed log c msgs : fd c < 0 -> handle_all log c msgs = Some (log, c).
Proof. intros H. destruct msgs as [|[t m] msgs]; [done|]. cbn. by rewrite (proj2 (Z.ltb_lt _ _)). Qed.
Lemma handle_all_app log c ms1 ms2 :
  handle_all log c (ms1 ++ ms2) = ('(log, c) ← handle_all log c ms1; handle_all log c ms2).
Proof.
  revert log c. induction ms1 as [|[t m] ms1 IH]; intros log c; [done|]. cbn [app handle_all].
  if_goal; [cbn [mbind option_bind]; by rewrite handle_all_closed|].
  destruct (client_message sock_send inf log c t) as [[l c']|]; [|done]. cbn [mbind option_bind]. apply IH.
Qed.

(** A message that can come over the stream. *)
Definition msg_ok (m : Z * list Z) : Prop :=
  0 <= m.1 < 4294967296 /\ zlen (api_frame m.1 m.2) <= 1024.
Definition frame (m : Z * list Z) : list Z := api_frame m.1 m.2.
Definition frames (ms : list (Z * list Z)) : list Z := mjoin (frame <$> ms).

Lemma frames_cons m ms : frames (m :: ms) = frame m ++ frames ms.
Proof. done. Qed.
Lemma msg_ok_len m : msg_ok m -> zlen m.2 <= 4096.
Proof.
  intros [_ H]. rewrite api_frame_len in H. pose proof (zlen_nonneg (pb_varint (zlen m.2))).
  pose proof (zlen_nonneg (pb_varint m.1)). lia.
Qed.
Lemma frame_pos m : 1 <= zlen (frame m).
Proof.
  unfold frame. rewrite api_frame_len. pose proof (zlen_nonneg (pb_varint (zlen m.2))).
  pose proof (zlen_nonneg (pb_varint m.1)). pose proof (zlen_nonneg m.2). lia.
Qed.

(** A partial frame: nothing, or less than the next frame. *)
Definition partial (p : list Z) (ms : list (Z * list Z)) : Prop :=
  match ms with [] => p = [] | m :: _ => zlen p < zlen (frame m) end.

Lemma split_frames msgs : forall l stream,
  l ++ stream = frames msgs ->
  exists ms1 ms2 p, msgs = ms1 ++ ms2 /\ l = frames ms1 ++ p /\ p ++ stream = frames ms2 /\ partial p ms2.
Proof.
  induction msgs as [|m msgs IH]; intros l stream E.
  - exists [], [], []. change (frames []) with (@nil Z) in *. apply app_eq_nil in E as [-> ->]. done.
  - rewrite frames_cons in E. destruct (Z.lt_ge_cases (zlen l) (zlen (frame m))) as [H|H].
    + exists [], (m :: msgs), l. rewrite frames_cons. done.
    + assert (l = frame m ++ zdrop (zlen (frame m)) l) as El.
      { rewrite <- (ztake_zdrop (zlen (frame m)) l) at 1. f_equal.
        rewrite <- (ztake_app_le _ l stream) by lia. rewrite E. by apply ztake_app_len. }
      rewrite El, <- app_assoc in E. apply app_inv_head in E.
      destruct (IH _ _ E) as (ms1 & ms2 & p & -> & E1 & E2 & Hp).
      exists (m :: ms1), ms2, p. rewrite frames_cons, <- app_assoc, <- E1. done.
Qed.
Lemma partial_next p stream ms :
  Forall msg_ok ms -> p ++ stream = frames ms -> partial p ms -> api_next p = Some (0, None) /\ zlen p < 1024.
Proof.
  intros Hm E Hp. destruct ms as [|m ms]; unfold partial in Hp; [by subst p|].
  pose proof (Forall_inv Hm) as M. rewrite frames_cons in E. pose proof (zlen_nonneg p). split.
  - assert (p = ztake (zlen p) (frame m)) as ->.
    { rewrite <- (ztake_app_le _ (frame m) (frames ms)) by lia. rewrite <- E. symmetry. by apply ztake_app_len. }
    apply api_next_short; [apply M|by apply msg_ok_len|]. unfold frame in *. lia.
  - destruct M as [_ M]. unfold frame in Hp. lia.
Qed.

Lemma read_loop_frames p ms : api_next p = Some (0, None) -> forall fuel log c r used,
  Forall msg_ok ms -> 0 <= used -> used <= len c <= zlen (buf c) ->
  ztake (len c - used) (zdrop used (buf c)) = frames ms ++ p -> (length ms < fuel)%nat ->
  exists r' used' log' c', read_loop sock_send fuel inf log c r used = Some (r', used', log', c') /\
    handle_all log (canon c) ms = Some (log', canon c') /\
    (fd c' < 0 \/ r' = 0 /\ used' = used + zlen (frames ms) /\ buf c' = buf c /\ len c' = len c).
Proof using Hinf.
  intros Hp. induction ms as [|[t m] ms IH]; intros fuel log c r used Hm Hu Hl E Hf;
    (destruct fuel as [|fuel]; [cbn [length] in Hf; lia|]); cbn [read_loop].
  - if_goal; [exists r, used, log, c; split_and!; [done|done|by left]|].
    rewrite slice_Some by lia. cbn [mbind option_bind]. rewrite E.
    change (frames [] ++ p) with p. rewrite Hp. cbn [mbind option_bind].
    exists 0, used, log, c. split_and!; [done|done|]. right. split_and!; try done.
    change (zlen (frames [])) with 0. lia.
  - pose proof (Forall_inv Hm) as M. pose proof (Forall_inv_tail Hm) as Ms. cbn [handle_all fd canon].
    if_goal; [exists r, used, log, c; split_and!; [done|done|by left]|].
    rewrite slice_Some by lia. cbn [mbind option_bind]. rewrite E, frames_cons, <- app_assoc. unfold frame.
    cbn [fst snd]. rewrite api_next_frame; [|apply M|by apply (msg_ok_len _ M)]. cbn [mbind option_bind].
    destruct (client_message_ok log c t) as (l & c' & Ec & Hc). rewrite client_message_canon, Ec.
    cbn [mbind option_bind].
    assert (zlen (api_frame t m) + zlen (frames ms ++ p) = len c - used) as Ls.
    { apply (f_equal zlen) in E. rewrite zlen_ztake, zlen_zdrop in E by lia.
      rewrite frames_cons, <- app_assoc, zlen_app in E. unfold frame in E. cbn [fst snd] in E. lia. }
    pose proof (zlen_nonneg (frames ms ++ p)). pose proof (zlen_nonneg (api_frame t m)).
    destruct (decide (fd c' < 0)) as [C|C].
    { destruct fuel as [|fuel]; [cbn [length] in Hf; lia|]. cbn [read_loop]. rewrite (proj2 (Z.ltb_lt _ _)) by done.
      eexists _, _, l, c'. split; [done|]. split; [|by left]. by apply handle_all_closed. }
    destruct Hc as [Hc|[b ->]]; [lia|].
    destruct (IH fuel l (with_subscribed b c) (zlen (api_frame t m)) (used + zlen (api_frame t m)))
      as (r' & used' & log' & c' & R & Ha & Hc); [done|lia|cbn [len buf with_subscribed]; lia| |cbn [length] in Hf; lia|].
    + cbn [len buf with_subscribed]. replace (used + zlen (api_frame t m)) with (zlen (api_frame t m) + used) by lia.
      rewrite <- zdrop_zdrop by lia.
      replace (len c - (zlen (api_frame t m) + used)) with (zlen (frames ms ++ p)) by lia.
      pose proof (ztake_zdrop (len c - used) (zdrop used (buf c))) as Z. rewrite E, frames_cons in Z.
      unfold frame in Z. cbn [fst snd] in Z. rewrite <- Z, <- !app_assoc. rewrite zdrop_app_len by done.
      rewrite app_assoc. by apply ztake_app_len.
    + exists r', used', log', c'. split; [exact R|]. split; [exact Ha|].
      destruct Hc as [?|(H1 & H2 & H3 & H4)]; [by left|]. right. split; [exact H1|].
      split; [|split; [exact H3|exact H4]]. rewrite H2, zlen_app. lia.
Qed.

Lemma frames_len ms : Z.of_nat (length ms) <= zlen (frames ms).
Proof.
  induction ms as [|m ms IH]; [unfold zlen; cbn; lia|]. rewrite frames_cons, zlen_app. pose proof (frame_pos m).
  cbn [length]. lia.
Qed.
Lemma Forall_app_r {A} (Q : A -> Prop) l k : Forall Q (l ++ k) -> Forall Q l /\ Forall Q k.
Proof. apply Forall_app. Qed.

(** One recv(): the client holds [ztake (len c) (buf c)] of the stream before. *)
Lemma client_read_frames log c d stream msgs :
  0 <= fd c -> zlen (buf c) = 1024 -> 0 <= len c -> len c + zlen d <= 1024 -> Forall msg_ok msgs ->
  (ztake (len c) (buf c) ++ d) ++ stream = frames msgs ->
  exists log' c' ms1 ms2, client_read sock_send inf log c (RData d) = Some (log', c') /\
    msgs = ms1 ++ ms2 /\ handle_all log (canon c) ms1 = Some (log', canon c') /\
    (fd c' < 0 \/ 0 <= fd c' /\ zlen (buf c') = 1024 /\ 0 <= len c' < 1024 /\
      ztake (len c') (buf c') ++ stream = frames ms2 /\ partial (ztake (len c') (buf c')) ms2).
Proof using Hinf.
  intros Hf Hb Hl Hd Hm E. pose proof (zlen_nonneg d).
  destruct (split_frames _ _ _ E) as (ms1 & ms2 & p & -> & E1 & E2 & Hp).
  apply Forall_app_r in Hm as [M1 M2]. destruct (partial_next _ _ _ M2 E2 Hp) as [Hn Lp].
  unfold client_read. destruct (blit (buf c) (len c) d) as [b|] eqn:B; [|rewrite blit_Some in B; [done|lia|lia]].
  cbn [mbind option_bind]. pose proof (blit_len _ _ _ _ B) as Lb. pose proof (blit_append _ _ _ _ B) as T.
  rewrite E1 in T. set (c1 := with_buf b (len c + zlen d) c).
  assert (zlen (frames ms1) + zlen p = len c + zlen d) as Ls.
  { rewrite <- zlen_app, <- T. rewrite zlen_ztake by lia. lia. }
  pose proof (frames_len ms1) as F1. pose proof (zlen_nonneg p).
  destruct (read_loop_frames p ms1 Hn (S (Z.to_nat (len c1))) log c1 0 0)
    as (r & used & log' & c' & -> & Ha & Hc); [done|lia|cbn [c1 len buf with_buf]; lia| |cbn [c1 len with_buf]; lia|].
  { rewrite zdrop_0, Z.sub_0_r. exact T. }
  cbn [mbind option_bind]. change (canon c1) with (canon c) in Ha.
  destruct (Z.ltb_spec (fd c') 0) as [C|C].
  { exists log', c', ms1, ms2. split_and!; try done. by left. }
  destruct Hc as [?|(-> & -> & Eb & El)]; [lia|]. rewrite Z.add_0_l, Eb, El.
  change (buf c1) with b. change (len c1) with (len c + zlen d). cbn [Z.ltb Z.compare orb].
  assert ((zlen (frames ms1) =? 0) && (len c + zlen d =? 1024) = false) as ->.
  { apply andb_false_iff. destruct (Z.eqb_spec (zlen (frames ms1)) 0); [right|by left]. apply Z.eqb_neq. lia. }
  pose proof (zlen_nonneg (frames ms1)). rewrite slice_Some by lia. cbn [mbind option_bind].
  replace (len c + zlen d - zlen (frames ms1)) with (zlen p) by lia.
  assert (ztake (zlen p) (zdrop (zlen (frames ms1)) b) = p) as ->.
  { rewrite <- (ztake_zdrop (len c + zlen d) b), T, <- app_assoc, zdrop_app_len by done. by apply ztake_app_len. }
  rewrite blit_Some by lia. cbn [mbind option_bind]. rewrite ztake_0, Z.add_0_l. cbn [app].
  eexists _, _, ms1, ms2. split; [done|]. split; [done|]. split; [exact Ha|]. right. cbn [fd buf len with_buf].
  rewrite ztake_app_len by done. split_and!; try done; try lia. llia.
Qed.

(** The connection over several rounds: recv() gives at most [n] bytes and at
    most what the buffer has room for, until nothing is left. *)
Fixpoint run_stream (log : list (Z * list Z)) (c : client) (stream : list Z) (sizes : list Z) :
    option (list (Z * list Z) * client) :=
  match sizes with
  | [] => Some (log, c)
  | n :: sizes =>
      if (fd c <? 0) || (zlen stream =? 0) then Some (log, c)
      else
        let k := Z.min n (1024 - len c) in
        '(log, c) ← client_read sock_send inf log c (RData (ztake k stream));
        run_stream log c (zdrop k stream) sizes
  end.

Lemma run_stream_eq sizes : forall log c stream msgs,
  zlen (buf c) = 1024 -> 0 <= len c < 1024 -> Forall msg_ok msgs ->
  ztake (len c) (buf c) ++ stream = frames msgs -> partial (ztake (len c) (buf c)) msgs ->
  Forall (fun n => 1 <= n) sizes -> zlen stream <= zlen sizes ->
  exists log' c', run_stream log c stream sizes = Some (log', c') /\
    handle_all log (canon c) msgs = Some (log', canon c').
Proof using Hinf.
  induction sizes as [|n sizes IH]; intros log c stream msgs Hb Hl Hm E Hp Hn Hs.
  - exists log, c. split; [done|]. rewrite zlen_nil in Hs. pose proof (zlen_nonneg stream).
    rewrite (zlen_0_nil stream), app_nil_r in E by lia. destruct msgs as [|m msgs]; [done|].
    cbn [partial] in Hp. rewrite E, frames_cons, zlen_app in Hp. pose proof (zlen_nonneg (frames msgs)). lia.
  - cbn [run_stream]. pose proof (Forall_inv Hn) as N. pose proof (Forall_inv_tail Hn) as Ns. cbv beta in N.
    rewrite zlen_cons in Hs. destruct (Z.ltb_spec (fd c) 0) as [C|C]; cbn [orb].
    { exists log, c. split; [done|]. by apply handle_all_closed. }
    destruct (Z.eqb_spec (zlen stream) 0) as [Z0|Z0].
    { exists log, c. split; [done|]. rewrite (zlen_0_nil stream), app_nil_r in E by lia.
      destruct msgs as [|m msgs]; [done|].
      cbn [partial] in Hp. rewrite E, frames_cons, zlen_app in Hp. pose proof (zlen_nonneg (frames msgs)). lia. }
    set (k := Z.min n (1024 - len c)). pose proof (zlen_nonneg stream).
    destruct (client_read_frames log c (ztake k stream) (zdrop k stream) msgs)
      as (log' & c' & ms1 & ms2 & -> & -> & Ha & Hc); [done|done|lia| |done| |].
    { rewrite zlen_ztake by lia. lia. }
    { by rewrite <- app_assoc, ztake_zdrop. }
    cbn [mbind option_bind]. rewrite handle_all_app, Ha. cbn [mbind option_bind].
    apply Forall_app_r in Hm as [M1 M2].
    destruct Hc as [C'|(C' & Hb' & Hl' & E' & Hp')].
    + exists log', c'. split; [|by apply handle_all_closed].
      destruct sizes; [done|]. cbn [run_stream]. by rewrite (proj2 (Z.ltb_lt _ _)).
    + apply IH; try done. rewrite zlen_zdrop by lia. lia.
Qed.

(** The requests of a client are answered in their order, each once, however
    TCP cuts their bytes into parts: after enough rounds all complete messages
    are handled and nothing is left in the buffer, or the client is closed at
    the message that closed it. *)
Theorem client_stream log c msgs sizes :
  0 <= fd c -> zlen (buf c) = 1024 -> len c = 0 -> Forall msg_ok msgs ->
  Forall (fun n => 1 <= n) sizes -> zlen (frames msgs) <= zlen sizes ->
  exists log' c', run_stream log c (frames msgs) sizes = Some (log', c') /\
    handle_all log (canon c) msgs = Some (log', canon c').
Proof using Hinf.
  intros Hf Hb H0 Hm Hn Hs. apply run_stream_eq; try done; rewrite H0; [lia| |].
  - by rewrite ztake_0.
  - rewrite ztake_0. destruct msgs as [|m msgs]; [done|]. cbn [partial]. rewrite zlen_nil.
    pose proof (frame_pos m). lia.
Qed.
End stream.

(** * The batch *)

Section batch.
Variable sock_send : list (Z * list Z) -> Z -> list Z -> bool.

Lemma flush_loop_spec log cs m :
  zlen m + 12 <= 1200 ->
  exists r, flush_loop sock_send log cs m = Some r /\
  (exists out, fst r = log ++ out /\ Forall (fun x => exists c, c ∈ cs /\ 0 <= fd c /\ subscribed c = true /\
      x = (fd c, api_frame 93 m)) out) /\
  length (snd r) = length cs /\
  Forall2 (fun c c' => c' = c \/ subscribed c = true /\ c' = client_close c) cs (snd r).
Proof.
  intros Hm. revert log. induction cs as [|c cs IH]; intros log; cbn [flush_loop].
  { eexists. split; [done|]. split; [exists []; by rewrite app_nil_r|]. done. }
  set (t := if (fd c >=? 0) && subscribed c then client_send sock_send log c 93 m else Some (log, c)).
  assert (exists out c', t = Some (log ++ out, c') /\
    Forall (fun x => 0 <= fd c /\ subscribed c = true /\ x = (fd c, api_frame 93 m)) out /\
    (c' = c \/ subscribed c = true /\ c' = client_close c)) as (out & c' & -> & Ho & Hc).
  { unfold t. destruct (fd c >=? 0) eqn:F; cbn [andb]; [destruct (subscribed c) eqn:S|].
    - unfold client_send. destruct (Z.gtb_spec (zlen m + 12) 1200) as [?|_]; [lia|]. bool_prop.
      pose proof (zlen_nonneg m). assert (zlen (pb_varint (zlen m)) <= 5) by (apply (varint_len 10 _ 5); cbn; lia).
      rewrite in_array_Some by (rewrite api_frame_len; change (zlen (pb_varint 93)) with 1; lia). cbn [mbind option_bind].
      if_goal; [exists [(fd c, api_frame 93 m)], c|exists [], (client_close c)]; rewrite ?app_nil_r;
        split_and!; auto; repeat constructor; done.
    - exists [], c. rewrite app_nil_r. split_and!; auto; constructor.
    - exists [], c. rewrite app_nil_r. split_and!; auto; constructor. }
  cbn [mbind option_bind]. destruct (IH (log ++ out)) as ([log' cs'] & -> & (out' & E & Ho') & L & F2).
  cbn [mbind option_bind fst snd] in *. subst log'. eexists. split; [done|]. cbn [fst snd]. split_and!.
  - exists (out ++ out'). rewrite app_assoc. split; [done|]. apply Forall_app. split.
    + clear -Ho. induction Ho as [|x l (H1 & H2 & H3) _ IH]; constructor; [|exact IH]. exists c. split_and!; try done. left.
    + clear -Ho'. induction Ho' as [|x l (c0 & H0 & H1) _ IH]; constructor; [|exact IH]. exists c0. split; [by right|done].
  - cbn. lia.
  - by constructor.
Qed.
End batch.

(** A batch of advertisements with address types below 128 goes out once,
    in one message of at most 780 bytes, to the clients that subscribe and to
    no other; a client that does not take it is closed; the batch is empty
    after. *)
Theorem flush_batch_correct sock_send s :
  Forall adv_ok (batch s) -> Forall (fun a => addr_type a < 128) (batch s) -> zlen (batch s) <= ADV_BATCH ->
  exists out cs, flush_batch sock_send s = Some (set_clients cs (set_sent (sent s ++ out) (set_batch [] s))) /\
    Forall (fun x => exists c, c ∈ clients s /\ 0 <= fd c /\ subscribed c = true /\
      x = (fd c, api_frame 93 (batch_bytes (batch s))) /\ batch s <> []) out /\
    Forall2 (fun c c' => c' = c \/ subscribed c = true /\ c' = client_close c) (clients s) cs.
Proof.
  intros Ha Ht Hl. unfold flush_batch. unfold ADV_BATCH in *.
  destruct (Z.eqb_spec (zlen (batch s)) 0) as [Z0|Z0].
  { exists [], (clients s). split; [|split; [constructor|]].
    - rewrite app_nil_r. apply zlen_0_nil in Z0. destruct s as []. cbn in *. by subst.
    - induction (clients s) as [|c cs IH]; constructor; auto. }
  rewrite api_adv_batch_eq by done. cbn [mbind option_bind].
  assert (zlen (batch_bytes (batch s)) <= 48 * zlen (batch s)) as L.
  { apply batch_bytes_len. clear -Ha Ht. induction (batch s) as [|a l IH]; [constructor|].
    pose proof (Forall_inv Ha) as A. pose proof (Forall_inv Ht) as T. cbv beta in T.
    constructor; [|apply IH; [exact (Forall_inv_tail Ha)|exact (Forall_inv_tail Ht)]].
    pose proof (adv_entry_len a A) as L. by rewrite (proj2 (Z.ltb_lt _ _)) in L. }
  rewrite in_array_Some by lia. cbn [mbind option_bind].
  destruct (flush_loop_spec sock_send (sent s) (clients s) (batch_bytes (batch s)) ltac:(lia))
    as ([log cs] & -> & (out & E & Ho) & _ & F2). cbn [mbind option_bind fst snd] in *.
  exists out, cs. subst log. split; [done|]. split; [|done].
  clear -Ho Z0. induction Ho as [|x l (c & H1 & H2 & H3 & H4) _ IH]; constructor; [|exact IH].
  exists c. split_and!; try done. intros E. by rewrite E in Z0.
Qed.

(** * Instances *)

Definition sock0 (log : list (Z * list Z)) (f : Z) (b : list Z) : bool := true.
Definition client0 : client := Client 5 (zeros 1024) 0 false.

Lemma client_stream_witness : exists log' c',
  run_stream sock0 info0 [] client0 (frames [(7, []); (66, [])]) [1; 2; 1; 1; 1; 1; 1] = Some (log', c') /\
  handle_all sock0 info0 [] (canon client0) [(7, []); (66, [])] = Some (log', canon c').
Proof.
  assert (info_ok info0) as Hi by (unfold info_ok; cbn; repeat split; vm_compute; congruence).
  assert (Forall msg_ok [(7, []); (66, [])]) as Hm.
  { apply Forall_cons_2; [|apply Forall_cons_2; [|apply Forall_nil_2]]; unfold msg_ok; cbn [fst snd];
      (split; [lia|vm_compute; congruence]). }
  assert (Forall (fun n => 1 <= n) [1; 2; 1; 1; 1; 1; 1]) as Hn by (repeat (apply Forall_cons_2; [lia|]); apply Forall_nil_2).
  exact (client_stream sock0 info0 Hi [] client0 [(7, []); (66, [])] [1; 2; 1; 1; 1; 1; 1] ltac:(cbn; lia)
    eq_refl eq_refl Hm Hn ltac:(vm_compute; congruence)).
Defined.

Definition st1 : st := set_clients [with_subscribed true client0] (set_batch [adv0] st0).
Lemma flush_batch_witness : exists out cs,
  flush_batch sock0 st1 = Some (set_clients cs (set_sent out (set_batch [] st1))).
Proof.
  assert (Forall adv_ok (batch st1)) as Ha by (apply Forall_cons_2; [exact adv0_ok|apply Forall_nil_2]).
  assert (Forall (fun a => addr_type a < 128) (batch st1)) as Ht by (apply Forall_cons_2; [reflexivity|apply Forall_nil_2]).
  destruct (flush_batch_correct sock0 st1 Ha Ht ltac:(vm_compute; congruence)) as (out & cs & E & _).
  exists out, cs. exact E.
Defined.

(** Six reports with the address type 255, an event of 250 bytes. *)
Definition report255 : Z * adv := (0, Adv 0xffffffffffff 255 (-128) (zeros 31)).
Definition event255 : list Z := HCI_EVT :: adv_event 248 (replicate 6 report255).
(** The address type of a report is not checked: sixteen reports with type 255
    and full data take 784 bytes of the 768 of flush_batch(). *)
Theorem flush_batch_overflow :
  zlen event255 <= 300 /\
  exists s, run_packets write0 ctrl0 (set_scanning true st0) [event255; event255; event255] = Some s /\
    zlen (batch s) = ADV_BATCH /\ flush_batch sock0 s = None.
Proof.
  split; [vm_compute; congruence|]. eexists. split; [vm_compute; reflexivity|]. split; reflexivity.
Qed.
