(* ===== verification/BleJoin.v ===== *)
(** The states of Improv in tools/ble-ha/ble-ha.c: a join of a network starts
    with a command of the client and ends with its connection or its timeout. *)

From Stdlib Require Import Ascii String.
From S2P Require Import Prelude Api Hci Improv Gatt Wpa BleState BleHa.

Section join.
Variable hci_write : list (list Z) -> list Z -> bool.
Variable ctrl : list (list Z) -> list Z -> option (list Z).
Hypothesis Hctrl : ctrl_int ctrl.

(** * The machine *)

(** A packet of the adapter, the clock, or the poll of timers(). *)
Inductive event := EPacket (p : list Z) | EClock (t : Z) | EPoll.
Definition join_step (s : st) (e : event) : option st :=
  match e with
  | EPacket p => handle_packet hci_write ctrl s p
  | EClock t => Some (set_clock t s)
  | EPoll => if join_id s >=? 0 then join_poll hci_write ctrl s else Some s
  end.
Fixpoint join_run (s : st) (es : list event) : option st :=
  match es with
  | [] => Some s
  | e :: es => s ← join_step s e; join_run s es
  end.

Definition st_state (s : st) : Z := state (gatt_ s).

(** A network of wpa_supplicant waits for its connection exactly in the
    provisioning state. *)
Definition join_inv (s : st) : Prop :=
  (st_state s = IMPROV_AUTHORIZED /\ join_id s < 0) \/
  (st_state s = IMPROV_PROVISIONING /\ 0 <= join_id s /\ join_end s <= now s + JOIN_SECONDS) \/
  (st_state s = IMPROV_PROVISIONED /\ join_id s < 0).

(** * What the handlers do to it *)

Definition unchanged (s s' : st) : Prop :=
  st_state s' = st_state s /\ join_id s' = join_id s /\ join_end s' = join_end s /\ clock s' = clock s.
(** Nothing, the start of a join, or a join that wpa_supplicant refused. *)
Definition joins (s s' : st) : Prop :=
  unchanged s s' \/
  (st_state s = IMPROV_AUTHORIZED /\ clock s' = clock s /\
   ((st_state s' = IMPROV_PROVISIONING /\ 0 <= join_id s' /\ join_end s' = now s + JOIN_SECONDS) \/
    (st_state s' = IMPROV_AUTHORIZED /\ join_id s' < 0))).

Lemma unchanged_refl s : unchanged s s.
Proof. done. Qed.
Lemma joins_unchanged s1 s2 s3 : joins s1 s2 -> unchanged s2 s3 -> joins s1 s3.
Proof.
  unfold joins, unchanged. intros [(E1 & E2 & E3 & E4)|(E1 & E2 & H)] (U1 & U2 & U3 & U4).
  - left. split_and!; congruence.
  - right. split; [done|]. split; [congruence|]. rewrite U1, U2, U3. exact H.
Qed.
Lemma unchanged_joins s1 s2 s3 : unchanged s1 s2 -> joins s2 s3 -> joins s1 s3.
Proof.
  unfold joins, unchanged, now. intros (U1 & U2 & U3 & U4) [(E1 & E2 & E3 & E4)|(E1 & E2 & H)].
  - left. split_and!; congruence.
  - right. split; [congruence|]. split; [congruence|]. rewrite <- U4. exact H.
Qed.
Lemma joins_inv s s' : joins s s' -> join_inv s -> join_inv s'.
Proof.
  unfold joins, unchanged, join_inv, now. intros [(E1 & E2 & E3 & E4)|(E1 & E2 & H)].
  - rewrite E1, E2, E3, E4. done.
  - intros _. rewrite E2. destruct H as [(H1 & H2 & H3)|(H1 & H2)]; [right; left|left]; split_and!; done || lia.
Qed.

Lemma acl_send_unchanged s cid d s' : acl_send hci_write s cid d = Some s' -> unchanged s s'.
Proof.
  unfold acl_send, write_packet. if_goal; [by intros [= <-]|]. if_goal; [by intros [= <-]|].
  destruct (in_array 300 _); [|done]. cbn [mbind option_bind]. if_goal; by intros [= <-].
Qed.

Lemma improv_command_joins s c s' :
  st_ok any s -> improv_command hci_write ctrl s c = Some s' -> joins s s'.
Proof using Hctrl.
  intros Hs. unfold improv_command.
  if_goal; [if_goal; [intros [= <-]; by left|]|if_goal; [if_goal; intros [= <-]; by left|
    if_goal; [|intros [= <-]; by left]]].
  - destruct (set_state_ok hci_write any ltac:(done) s IMPROV_PROVISIONING IMPROV_ERR_NONE Hs)
      as (s1 & o & m & n & d & -> & S1 & E1);
      [unfold is_byte, IMPROV_PROVISIONING; lia|unfold is_byte, IMPROV_ERR_NONE; lia|].
    cbn [mbind option_bind].
    destruct (wpa_join_total ctrl (wlog s1) (c_str (i_ssid c)) (c_str (i_pass c)) Hctrl) as (id & log & -> & Hid).
    cbn [mbind option_bind]. set (s2 := set_join_id id (set_wlog log s1)).
    assert (st_ok any s2) as S2 by st_case S1.
    change (join_id s2) with id. if_goal.
    + destruct (set_state_ok hci_write any ltac:(done) s2 IMPROV_AUTHORIZED IMPROV_ERR_OTHER S2)
        as (s3 & ? & ? & ? & ? & -> & S3 & E3);
        [unfold is_byte, IMPROV_AUTHORIZED; lia|unfold is_byte, IMPROV_ERR_OTHER; lia|].
      intros [= <-]. right. subst s3. split; [done|]. split; [unfold s2; by subst s1|]. right. split; [done|].
      change (id < 0). lia.
    + intros [= <-]. right. split; [done|]. split; [unfold s2; by subst s1|]. left.
      split; [unfold s2; by subst s1|]. split; [change (0 <= id); lia|]. unfold s2. by subst s1.
  - intros E. left. destruct (set_result_ok hci_write any ltac:(done) s IMPROV_CMD_INFO
      [cstr "ble-ha"%string; cstr "1"%string; cstr "ESP32-S31"%string; dev_name s])
      as (s1 & E1 & S1 & g & (o & c' & n & ->) & G & _); [done|unfold is_byte, IMPROV_CMD_INFO; lia| |].
    { do 3 (apply Forall_cons_2; [by apply is_bytes_spec|]). apply Forall_cons_2; [apply Hs|apply Forall_nil_2]. }
    rewrite E1 in E. injection E as <-. split_and!; done.
Qed.

Lemma rpc_write_joins s d s' :
  st_ok any s -> bytes d -> rpc_write hci_write ctrl s d = Some s' -> joins s s'.
Proof using Hctrl.
  intros Hs Hd. pose proof (ok_bytes _ (sok_gatt _ _ Hs)) as (B1 & _).
  pose proof (sok_rpc _ _ Hs) as (R1 & R2 & R3). pose proof (zlen_nonneg d). unfold rpc_write. if_goal.
  { destruct (set_state_ok hci_write any ltac:(done) (set_rpc_len 0 s) (state (gatt_ s)) IMPROV_ERR_INVALID)
      as (s1 & ? & ? & ? & ? & -> & _ & E); [apply st_ok_rpc_len; [lia|done]|done|unfold is_byte, IMPROV_ERR_INVALID; lia|].
    intros [= <-]. left. by subst s1. }
  destruct (blit (rpc s) (rpc_len s) d) as [b|] eqn:E; [|done]. cbn [mbind option_bind].
  pose proof (blit_len _ _ _ _ E) as L. pose proof (blit_bytes _ _ _ _ R2 Hd E) as Bb.
  set (s1 := set_rpc_len _ _). change (rpc s1) with b. change (rpc_len s1) with (rpc_len s + zlen d).
  destruct (slice b 0 _) as [pkt|]; [|done]. cbn [mbind option_bind].
  destruct (improv_parse pkt cmd_buf) as [[r c]|]; [|done]. cbn [mbind option_bind].
  if_goal; [intros [= <-]; by left|].
  destruct (blit b 0 (zeros (rpc_len s + zlen d))) as [b2|] eqn:E2; [|done]. cbn [mbind option_bind].
  pose proof (blit_len _ _ _ _ E2). set (s2 := set_rpc_len 0 _).
  assert (st_ok any s2) as S2.
  { apply st_ok_rpc; [lia|exact (blit_bytes _ _ _ _ Bb (bytes_zeros _) E2)|lia|]. apply st_ok_rpc; done || lia. }
  if_goal.
  { destruct (set_state_ok hci_write any ltac:(done) s2 (state (gatt_ s2)) (u8 r) S2) as (s3 & ? & ? & ? & ? & -> & _ & E3);
      [done|apply u8_range|]. intros [= <-]. left. by subst s3. }
  destruct (set_state_ok hci_write any ltac:(done) s2 (state (gatt_ s2)) IMPROV_ERR_NONE S2)
    as (s3 & ? & ? & ? & ? & -> & S3 & E3); [done|unfold is_byte, IMPROV_ERR_NONE; lia|]. cbn [mbind option_bind].
  intros J. apply improv_command_joins in J; [|done]. eapply unchanged_joins; [|exact J]. by subst s3.
Qed.

Lemma set_gatt_id s : set_gatt_ (gatt_ s) s = s.
Proof. by destruct s. Qed.

Lemma l2cap_frame_joins s cid p s' :
  st_ok any s -> bytes p -> l2cap_frame hci_write ctrl s cid p = Some s' -> joins s s'.
Proof using Hctrl.
  intros Hs Hp. unfold l2cap_frame. if_goal.
  - set (max := if acl_len s - 4 >? 256 then 256 else acl_len s - 4).
    destruct (gatt_handle (rpc_callback hci_write ctrl) (gatt_ s) s p max) as [[[g w] rsp]|] eqn:E; [|done].
    cbn [mbind option_bind]. apply gatt_handle_effect in E; [|done|apply Hs].
    assert (joins s (set_gatt_ g w)) as J.
    { destruct E as [(-> & E)|(d & g1 & Hd & E & Eg)]; [left; done|]. unfold rpc_callback in E. rewrite set_gatt_id in E.
      destruct (rpc_write hci_write ctrl s d) as [s1|] eqn:R; [|done]. injection E as <- <-.
      apply rpc_write_joins in R; [|done|done]. eapply joins_unchanged; [exact R|done]. }
    destruct (in_array 256 rsp); [|done]. cbn [mbind option_bind].
    if_goal; [intros A; eapply joins_unchanged; [exact J|exact (acl_send_unchanged _ _ _ _ A)]|by intros [= <-]].
  - if_goal; [|if_goal; [|intros [= <-]; by left]].
    + destruct (rd p 0); [|done]. cbn [mbind option_bind]. if_goal; [|intros [= <-]; by left].
      destruct (rd p 1); [|done]. intros A. left. exact (acl_send_unchanged _ _ _ _ A).
    + destruct (rd p 0); [|done]. cbn [mbind option_bind]. destruct (_ || _); [intros A; left; exact (acl_send_unchanged _ _ _ _ A)|].
      intros [= <-]. by left.
Qed.

Lemma handle_acl_joins s p s' :
  st_ok any s -> bytes p -> handle_acl hci_write ctrl s p = Some s' -> joins s s'.
Proof using Hctrl.
  intros Hs Hp. unfold handle_acl. if_goal; [intros [= <-]; by left|].
  destruct (rd p 2) as [b2|]; [|done]. destruct (rd p 3) as [b3|] eqn:E3; [|done].
  destruct (rd p 4) as [b4|] eqn:E4; [|done]. cbn [mbind option_bind].
  apply rd_inv in E3 as [_ ->]. apply rd_inv in E4 as [_ ->].
  pose proof (get_byte p 3 Hp). pose proof (get_byte p 4 Hp). rewrite of_le16_add by done.
  set (dl := get p 3 + 256 * get p 4). assert (0 <= dl) by (unfold is_byte in *; lia).
  if_goal; [intros [= <-]; by left|]. set (s1 := if negb _ then set_l2_len 0 s else s).
  assert (st_ok any s1 /\ unchanged s s1) as [S1 U1].
  { unfold s1. if_goal; [split; [apply st_ok_l2_len; [lia|done]|done]|done]. }
  pose proof (sok_l2 _ _ S1) as (L1 & L2 & L3).
  if_goal; [intros [= <-]; left; exact U1|].
  destruct (slice p 5 dl) as [d|] eqn:Ed; [|done]. cbn [mbind option_bind].
  pose proof (bytes_slice _ _ _ _ Hp Ed) as Bd. apply slice_len in Ed.
  destruct (blit (l2 s1) (l2_len s1) d) as [b|] eqn:E; [|done]. cbn [mbind option_bind].
  pose proof (blit_len _ _ _ _ E) as Lb. pose proof (blit_bytes _ _ _ _ L2 Bd E) as Bb.
  set (s2 := set_l2_len _ _). assert (st_ok any s2) as S2 by (apply st_ok_l2_len; [lia|apply st_ok_l2; done || lia]).
  change (l2 s2) with b. change (l2_len s2) with (l2_len s1 + dl).
  if_goal; [intros [= <-]; left; exact U1|].
  destruct (get16 b 0) as [n|]; [|done]. cbn [mbind option_bind]. if_goal; [intros [= <-]; left; exact U1|].
  destruct (get16 b 2) as [cid|]; [|done]. cbn [mbind option_bind].
  destruct (slice b 4 (n + 4 - 4)) as [f|] eqn:Ef; [|done]. cbn [mbind option_bind].
  destruct (l2cap_frame hci_write ctrl s2 cid f) as [s3|] eqn:F; [|done]. intros [= <-].
  apply l2cap_frame_joins in F; [|done|exact (bytes_slice _ _ _ _ Bb Ef)].
  eapply joins_unchanged; [|done]. eapply unchanged_joins; [|exact F]. exact U1.
Qed.

Lemma handle_packet_joins s p s' :
  st_ok any s -> bytes p -> handle_packet hci_write ctrl s p = Some s' -> joins s s'.
Proof using Hctrl.
  intros Hs Hp. unfold handle_packet. if_goal; [intros [= <-]; by left|].
  destruct (rd p 0) as [b0|]; [|done]. cbn [mbind option_bind].
  if_goal; [by apply handle_acl_joins|]. if_goal; [intros [= <-]; by left|].
  destruct (rd p 1) as [b1|]; [|done]. cbn [mbind option_bind].
  if_goal; [|if_goal; [|if_goal; [|intros [= <-]; by left]]].
  - unfold le_meta. if_goal; [intros [= <-]; by left|].
    destruct (rd (zdrop 1 p) 2) as [b2|]; [|done]. cbn [mbind option_bind]. if_goal.
    + destruct (hci_parse_adv_reports _ _) as [ads|]; [|done]. cbn [mbind option_bind].
      destruct (in_array 8 ads) as [ads'|]; [|done]. cbn [mbind option_bind].
      intros [= <-]. left. by if_goal.
    + destruct (_ && _); [|intros [= <-]; by left]. destruct (rd (zdrop 1 p) 3); [|done]. cbn [mbind option_bind].
      if_goal; [intros [= <-]; by left|]. destruct (get16 (zdrop 1 p) 4); [|done]. intros [= <-]. by left.
  - if_goal; [|intros [= <-]; by left]. destruct (get16 p 4); [|done]. cbn [mbind option_bind].
    if_goal; intros [= <-]; by left.
  - if_goal; [|intros [= <-]; by left]. destruct (get16 p 6); [|done]. intros [= <-]. by left.
Qed.

(** * The poll *)

Lemma join_poll_ok s :
  st_ok any s -> exists s', join_poll hci_write ctrl s = Some s' /\ st_ok any s' /\ clock s' = clock s /\
    ((st_state s' = IMPROV_PROVISIONED /\ join_id s' < 0) \/
     (st_state s' = IMPROV_AUTHORIZED /\ join_id s' < 0 /\ join_end s <= now s) \/
     (unchanged s s' /\ now s < join_end s)).
Proof.
  intros Hs. unfold join_poll. destruct (wpa_connected ctrl (wlog s) 48) as [[r ip] log]. if_goal.
  - set (s1 := set_join_id (-1) _). assert (st_ok any s1) as S1 by st_case Hs.
    destruct (set_result_ok hci_write any ltac:(done) s1 IMPROV_CMD_WIFI [] S1)
      as (s2 & -> & S2 & g & (o & c & n & E2) & G & _); [unfold is_byte, IMPROV_CMD_WIFI; lia|constructor|].
    cbn [mbind option_bind].
    destruct (set_state_ok hci_write any ltac:(done) s2 IMPROV_PROVISIONED IMPROV_ERR_NONE S2)
      as (s3 & ? & ? & ? & ? & -> & S3 & E3);
      [unfold is_byte, IMPROV_PROVISIONED; lia|unfold is_byte, IMPROV_ERR_NONE; lia|]. cbn [mbind option_bind].
    eexists. split; [done|]. split; [st_case S3|]. subst s3 s2. split; [done|]. left. done.
  - if_goal.
    + set (s1 := set_join_id (-1) _). assert (st_ok any s1) as S1 by st_case Hs.
      destruct (set_state_ok hci_write any ltac:(done) s1 IMPROV_AUTHORIZED IMPROV_ERR_CONNECT S1)
        as (s3 & ? & ? & ? & ? & -> & S3 & E3);
        [unfold is_byte, IMPROV_AUTHORIZED; lia|unfold is_byte, IMPROV_ERR_CONNECT; lia|].
      exists s3. subst s3. split_and!; try done. right. left. done.
    + eexists. split; [done|]. split; [st_case Hs|]. split; [done|]. right. right. split; [done|]. exact Heqb0.
Qed.

Definition event_ok (s : st) (e : event) : Prop :=
  match e with EPacket p => bytes p | EClock t => clock s <= t | EPoll => True end.
(** The clock does not go back. *)
Fixpoint events_ok (s : st) (es : list event) : Prop :=
  match es with
  | [] => True
  | e :: es => event_ok s e /\ forall s', join_step s e = Some s' -> events_ok s' es
  end.

Lemma join_step_ok s e :
  st_ok any s -> join_inv s -> event_ok s e ->
  exists s', join_step s e = Some s' /\ st_ok any s' /\ join_inv s'.
Proof using Hctrl.
  intros Hs Hi He. destruct e as [p|t|]; cbn [join_step].
  - destruct (handle_packet_ok hci_write ctrl Hctrl any ltac:(done) s p) as (s' & E & S'); try done.
    exists s'. split; [done|]. split; [done|]. apply handle_packet_joins in E; [|done|done]. by eapply joins_inv.
  - exists (set_clock t s). split; [done|]. split; [st_case Hs|]. cbn in He.
    unfold join_inv, now in *. st_simpl. change (st_state (set_clock t s)) with (st_state s).
    destruct Hi as [H|[(H1 & H2 & H3)|H]]; [by left| |by right; right]. right. left.
    split_and!; try done. pose proof (Z.div_le_mono (clock s) t 1000). lia.
  - destruct (Z.geb_spec (join_id s) 0) as [J|J]; [|exists s; done].
    destruct (join_poll_ok s Hs) as (s' & -> & S' & Ck & H). exists s'. split; [done|]. split; [done|].
    unfold join_inv, now in *. destruct H as [(H1 & H2)|[(H1 & H2 & _)|((U1 & U2 & U3 & U4) & _)]].
    + right. right. done.
    + left. done.
    + rewrite U1, U2, U3, U4. exact Hi.
Qed.
Lemma join_run_ok es : forall s,
  st_ok any s -> join_inv s -> events_ok s es -> exists s', join_run s es = Some s' /\ st_ok any s' /\ join_inv s'.
Proof using Hctrl.
  induction es as [|e es IH]; intros s Hs Hi He; [by exists s|]. destruct He as [H1 H2].
  destruct (join_step_ok s e Hs Hi H1) as (s1 & E & S1 & I1). cbn [join_run]. rewrite E. cbn [mbind option_bind].
  apply IH; [done|done|by apply H2].
Qed.
End join.

(** C19: over any packets, ticks and polls Improv is in one of its three states,
    with a network that waits for its connection exactly in the provisioning
    state; a join leaves that state at the latest with the first poll 30
    seconds after its start, whatever wpa_supplicant does. *)
Theorem improv_join_states hci_write ctrl s es t :
  ctrl_int ctrl -> st_ok any s -> join_inv s -> events_ok hci_write ctrl s es ->
  exists s', join_run hci_write ctrl s es = Some s' /\ join_inv s' /\
    (clock s' + (JOIN_SECONDS + 1) * 1000 <= t ->
     exists s'', join_run hci_write ctrl s' [EClock t; EPoll] = Some s'' /\ join_inv s'' /\
       st_state s'' <> IMPROV_PROVISIONING /\ join_id s'' < 0).
Proof.
  intros Hc Hs Hi He. destruct (join_run_ok hci_write ctrl Hc es s Hs Hi He) as (s' & E & S' & I').
  exists s'. split; [done|]. split; [done|]. intros Ht. unfold JOIN_SECONDS in Ht.
  cbn [join_run]. set (s1 := set_clock t s'). cbn [join_step mbind option_bind]. fold s1.
  destruct (join_step_ok hci_write ctrl Hc s' (EClock t) S' I') as (s1' & E1 & S1 & I1); [cbn; lia|].
  injection E1 as <-. fold s1 in S1, I1.
  destruct (Z.geb_spec (join_id s1) 0) as [J|J].
  - destruct (join_step_ok hci_write ctrl Hc s1 EPoll S1 I1 I) as (s2 & E2 & S2 & I2). cbn [join_step] in E2.
    rewrite Z.geb_leb, (proj2 (Z.leb_le 0 _)) in E2 by done. rewrite E2. cbn [mbind option_bind].
    exists s2. split; [done|]. split; [done|].
    destruct (join_poll_ok hci_write ctrl s1 S1) as (s3 & E3 & _ & _ & H3). rewrite E3 in E2. injection E2 as ->.
    destruct H3 as [(H1 & H2)|[(H1 & H2 & _)|(_ & H)]]; [rewrite H1; done|rewrite H1; done|].
    exfalso. assert (0 <= join_id s') as J' by done.
    destruct I' as [(_ & ?)|[(_ & _ & H3)|(_ & ?)]]; [lia| |lia].
    unfold now in *. change (clock s1) with t in H. change (join_end s1) with (join_end s') in H.
    unfold JOIN_SECONDS in H3. Z.div_mod_to_equations. lia.
  - cbn [mbind option_bind]. exists s1. split; [done|]. split; [done|].
    split; [|done]. intros E2. destruct I1 as [(H & _)|[(_ & H & _)|(H & _)]]; [by rewrite H in E2|lia|by rewrite H in E2].
Qed.

(** A client sends the network in one write; wpa_supplicant takes it and does
    not connect. *)
Definition ctrl1 (log : list (list Z)) (cmd : list Z) : option (list Z) :=
  if prefix_of (cstr "ADD"%string) cmd then Some (cstr "2"%string) else Some (cstr "OK"%string).
Lemma ctrl1_int : ctrl_int ctrl1.
Proof. intros log r [= <-]. vm_compute. eauto. Qed.
Definition join0 : list Z :=
  acl_frag 64 true (l2cap_bytes 4 (0x12 :: le16 14 ++ improv_packet 1 (wifi_data [110; 101; 116] []))).
Definition st2 : st := set_gatt_ (with_mtu 64 (gatt_ st0)) st0.
Lemma st2_ok : st_ok any st2.
Proof.
  apply st_ok_gatt; [|by apply st0_ok]. apply gatt_ok_mtu; [cbn; lia|]. apply (st0_ok any I).
Qed.
Lemma improv_join_states_witness : exists s', join_run write0 ctrl1 st2 [EPacket join0] = Some s' /\
  st_state s' = IMPROV_PROVISIONING /\ join_id s' = 2.
Proof.
  assert (events_ok write0 ctrl1 st2 [EPacket join0]) as He.
  { split; [by apply is_bytes_spec|done]. }
  destruct (improv_join_states write0 ctrl1 st2 [EPacket join0] 40000 ctrl1_int st2_ok
    (or_introl (conj eq_refl eq_refl)) He) as (s' & E & _).
  exists s'. split; [exact E|]. vm_compute in E. injection E as <-. done.
Defined.
