(* ===== verification/BleMain.v ===== *)
(** The program ble-ha from its start to its end: main(), run(), setup_info(),
    read_line(), running(), improv_needed() of tools/ble-ha/ble-ha.c, on the
    handlers of BleHa.v and BleApi.v.

    Files, the hostname, the names of processes, the signal and what poll() and the sockets give are
    arguments.  [None] is an access outside of a buffer. *)

From Stdlib Require Import Ascii String.
From S2P Require Import Prelude Api Hci Improv Gatt Wpa BleState BleHa BleApi BleJoin.

(** * Set up *)

Fixpoint until_nl (l : list Z) : list Z := match l with [] => [] | b :: l => if b =? 10 then [] else b :: until_nl l end.
(** What read_line() leaves in a buffer of [len] bytes. *)
Definition read_line (file : option (list Z)) (len : Z) : list Z :=
  match file with Some t => c_str (until_nl (ztake (len - 1) t)) | None => [] end.
Definition upper_hex (b : Z) : Z := if (97 <=? b) && (b <=? 102) then b - 32 else b.
Definition hex_char (d : Z) : Z := if d <? 10 then 48 + d else 55 + d.
(** "%02X". *)
Definition hex_byte (b : Z) : list Z := [hex_char (b / 16); hex_char (b mod 16)].
(** The address from its last byte to its first. *)
Definition mac_text (a : list Z) : list Z :=
  hex_byte (get a 5) ++ [58] ++ hex_byte (get a 4) ++ [58] ++ hex_byte (get a 3) ++ [58] ++ hex_byte (get a 2) ++ [58] ++ hex_byte (get a 1) ++ [58] ++ hex_byte (get a 0).
Definition set_info (i : api_info) (nm : list Z) (s : st) : st :=
  St (hci_out s) (clock s) (wlog s) (led s) (acl_len s) (acl_credits s) (conn_sent s) (bdaddr s) (scanning s) (batch s) (batch_ms s)
    (improv s) (advertising s) (adv_dirty s) (conn s) (l2 s) (l2_len s) (rpc s) (rpc_len s) (gatt_ s) (join_id s) (join_end s)
    (identify_end s) (done_at s) (check_at s) (clients s) i nm (sent s).
(** [hostname] is the name of the host; the files are those of the address and of the model. *)
Definition setup_info (hostname : list Z) (address model : option (list Z)) (s : st) : st :=
  let nm := c_str (ztake 63 hostname) in
  set_info (ApiInfo (Some nm) (Some (map upper_hex (read_line address 18))) (Some (mac_text (bdaddr s))) (Some (read_line model 64))) nm s.

(** The entries of /proc with what their comm file holds. *)
Fixpoint running (entries : list (list Z * option (list Z))) (name : list Z) : bool :=
  match entries with
  | [] => false
  | (d, comm) :: entries =>
      let c := get d 0 in
      if (c <? 49) || (c >? 57) then running entries name
      else if bool_decide (read_line comm 32 = name) then true else running entries name
  end.

(** [tries] tries with a second between them; [stops] is the signal after each. *)
Section needed.
Variable ctrl : list (list Z) -> list Z -> option (list Z).
Fixpoint needed_loop (tries : nat) (stops : list bool) (n : Z) (log : list (list Z)) : Z * list (list Z) :=
  match tries with
  | O => (n, log)
  | S tries =>
      let '(n, log) := wpa_networks ctrl log in
      if (n <? 0) && negb (default false (head stops)) then needed_loop tries (tail stops) n log else (n, log)
  end.
Definition improv_needed (stops : list bool) (log : list (list Z)) : bool * list (list Z) :=
  let '(n, log) := needed_loop 30 stops (-1) log in (n =? 0, log).
End needed.

(** * The program *)

(** The variable [s] before main(), and the free places for clients. *)
Definition gatt_zero : gatt := Gatt [] 0 0 0 (zeros 64) 0 [0; 0; 0] 0 0 (zeros 128) 0.
Definition boot_state (clk : Z) : st :=
  St [] clk [] false 0 0 0 (zeros 6) false [] 0 false false false (-1) (zeros 256) 0 (zeros 128) 0 gatt_zero (-1) 0 0 0 0
    (replicate (Z.to_nat MAX_CLIENTS) (Client (-1) (zeros 1024) 0 false)) (ApiInfo None None None None) [] [].

(** The options in the order of the command line. *)
Inductive opt := OptProxy | OptImprov | OptDev (n : Z) | OptHelp | OptBad.
Fixpoint main_options (l : list opt) (proxy want_improv : bool) (dev : Z) : Z + (bool * bool * Z) :=
  match l with
  | [] => inr (proxy, want_improv, dev)
  | OptProxy :: l => main_options l true want_improv dev
  | OptImprov :: l => main_options l proxy true dev
  | OptDev n :: l => main_options l proxy want_improv n
  | OptHelp :: _ => inl 0
  | OptBad :: _ => inl 2
  end.

(** What the world gives to main() before the loop. *)
Record world := World {
  w_stops : list bool; w_procs : list (list Z * option (list Z)); w_open : Z -> bool; w_stack : list Z; w_init : list (list Z);
  w_hostname : list Z; w_address : option (list Z); w_model : option (list Z); w_led : bool; w_listen : bool }.
(** A round of the loop, or one in which poll() or the adapter fails. *)
Inductive loop_in := Round (i : input) | Broken (setup : list (list Z)) (clk : Z).
(** The exit code, and the state at the end when the loop ran. *)
Inductive ble_end := Exits (code : Z) | Stopped (s : st).

Section program.
Variable sock_send : list (Z * list Z) -> Z -> list Z -> bool.
Variable hci_write : list (list Z) -> list Z -> bool.
Variable ctrl : list (list Z) -> list Z -> option (list Z).

(** The start of a round: what comes before poll(). *)
Definition round_setup (s : st) (inbox : list (list Z)) : option st :=
  '(s, inbox) ← (if adv_dirty s && improv s && (conn s <? 0) then set_advertising_ hci_write ctrl s true inbox else Some (s, inbox));
  '(s, _) ← set_scan hci_write ctrl s (subscribers s >? 0) inbox; Some s.
(** run(): until the list ends, which is the signal. *)
Fixpoint run (proxy : bool) (s : st) (ins : list loop_in) : option st :=
  if negb (proxy || improv s) then Some s
  else
    match ins with
    | [] => Some s
    | Broken setup clk :: _ => s ← round_setup s setup; Some (set_clock clk s)
    | Round i :: ins => s ← run_round sock_send hci_write ctrl s i; run proxy s ins
    end.
(** What main() does after the loop. *)
Definition main_finish (s : st) (inbox : list (list Z)) : option st :=
  '(s, inbox) ← set_scan hci_write ctrl s false inbox;
  '(s, _) ← set_advertising_ hci_write ctrl s false inbox;
  Some (if join_id s >=? 0 then set_wlog (snd (wpa_finish ctrl (wlog s) (join_id s) false)) s else s).
(** The state when the loop starts. *)
Definition ready (w : world) (s : st) : st :=
  let s := setup_info (w_hostname w) (w_address w) (w_model w) s in
  let g := gatt_init (dev_name s) (if w_led w then Z.lor IMPROV_CAP_INFO IMPROV_CAP_IDENTIFY else IMPROV_CAP_INFO) in
  set_gatt_ (with_mtu_max (if acl_len s - 4 <? 247 then acl_len s - 4 else 247) g) s.
(** main() up to the loop: the exit code, or whether there is the proxy, and the state. *)
Definition main_start (opts : list opt) (w : world) (clk : Z) : option (Z + (bool * st)) :=
  match main_options opts false false 0 with
  | inl code => Some (inl code)
  | inr (proxy, want_improv, dev) =>
      let s := boot_state clk in
      let '(imp, log) := if want_improv then improv_needed ctrl (w_stops w) (wlog s) else (false, wlog s) in
      let s := set_improv imp (set_wlog log s) in
      if negb proxy && negb imp then Some (inl 0)
      else if running (w_procs w) (cstr "bluetoothd"%string) then Some (inl 1)
      else if negb (w_open w dev) then Some (inl 1)
      else
        '(e, s) ← hci_init hci_write ctrl s (w_stack w) (w_init w);
        if nz e then Some (inl 1)
        else
          let s := ready w s in
          if proxy && negb (w_listen w) then Some (inl 1)
          else Some (inr (proxy, if improv s then set_adv_dirty true s else s))
  end.
Definition ble_main (opts : list opt) (w : world) (clk : Z) (ins : list loop_in) (last : list (list Z)) : option ble_end :=
  r ← main_start opts w clk;
  match r with
  | inl code => Some (Exits code)
  | inr (proxy, s) => s ← run proxy s ins; s ← main_finish s last; Some (Stopped s)
  end.
End program.

(** * What the handlers leave alone *)

(** All but the link, Improv and the adapter. *)
Definition rest (s s' : st) : Prop :=
  clients s' = clients s /\ info s' = info s /\ sent s' = sent s /\ dev_name s' = dev_name s /\ batch s' = batch s.
(** Go through a handler: each step of [H] that gives a result. *)
Ltac step_in H :=
  repeat (match type of H with
  | Some _ = Some _ => injection H as <- <- <-
  | Some _ = Some _ => injection H as <- <-
  | Some _ = Some _ => injection H as <-
  | None = Some _ => discriminate H
  | mbind _ ?o = Some _ => destruct o as [?|] eqn:?; cbn [mbind option_bind] in H
  | (if ?b then _ else _) = Some _ => destruct b eqn:?
  | (match ?p with (_, _) => _ end) = Some _ => destruct p eqn:?
  end; cbn beta iota zeta in H).
Ltac by_rest := unfold rest in *; st_simpl; intuition congruence.
Section keep.
Variable hci_write : list (list Z) -> list Z -> bool.
Variable ctrl : list (list Z) -> list Z -> option (list Z).
Lemma acl_send_rest s cid d s' : acl_send hci_write s cid d = Some s' -> rest s s'.
Proof.
  unfold acl_send, write_packet. if_goal; [by intros [= <-]|]. if_goal; [by intros [= <-]|].
  destruct (in_array 300 _); [|done]. cbn [mbind option_bind]. if_goal; by intros [= <-].
Qed.
Lemma notify_rest s h v s' : notify hci_write s h v = Some s' -> rest s s'.
Proof. unfold notify. intros H. step_in H; [done|]. by apply acl_send_rest in H. Qed.
Lemma set_state_rest s v e s' : set_state hci_write s v e = Some s' -> rest s s'.
Proof.
  unfold set_state. intros H.
  destruct (if negb (e =? error (gatt_ s)) then _ else _) as [s1|] eqn:E; [|done]. cbn [mbind option_bind] in H.
  assert (rest s s1) as R1 by (if_hyp E; [apply notify_rest in E; exact E|by injection E as <-]).
  step_in H; [|done]. match goal with E : notify _ _ _ _ = Some _ |- _ => apply notify_rest in E end. by_rest.
Qed.
Lemma set_result_rest s c str s' : set_result hci_write s c str = Some s' -> rest s s'.
Proof. unfold set_result. intros H. step_in H. apply notify_rest in H. exact H. Qed.
Lemma improv_command_rest s c s' : improv_command hci_write ctrl s c = Some s' -> rest s s'.
Proof.
  unfold improv_command. intros H. step_in H; try done.
  - match goal with E : set_state _ s _ _ = Some _ |- _ => apply set_state_rest in E; rename E into E1 end. apply set_state_rest in H. by_rest.
  - match goal with E : set_state _ s _ _ = Some _ |- _ => apply set_state_rest in E; exact E end.
  - apply set_result_rest in H. exact H.
Qed.
Lemma rpc_write_rest s d s' : rpc_write hci_write ctrl s d = Some s' -> rest s s'.
Proof.
  unfold rpc_write. intros H. step_in H; try done; try (apply set_state_rest in H; exact H).
  match goal with E : set_state _ _ _ _ = Some _ |- _ => apply set_state_rest in E; rename E into E1 end. apply improv_command_rest in H. by_rest.
Qed.
Lemma join_poll_rest s s' : join_poll hci_write ctrl s = Some s' -> rest s s'.
Proof.
  unfold join_poll. intros H. step_in H; try done.
  - match goal with E : set_state _ _ _ _ = Some _ |- _ => apply set_state_rest in E; rename E into E1 end.
    match goal with E : set_result _ _ _ _ = Some _ |- _ => apply set_result_rest in E; rename E into E2 end. by_rest.
  - apply set_state_rest in H. exact H.
Qed.
Lemma gatt_rest s p max g s0 rsp : bytes p -> bytes (prep (gatt_ s)) ->
  gatt_handle (rpc_callback hci_write ctrl) (gatt_ s) s p max = Some (g, s0, rsp) -> rest s (set_gatt_ g s0).
Proof.
  intros Hp Hr E. apply gatt_handle_effect in E as [(-> & F)|(d & g1 & Hd & F & Eg)]; [done| |done..]. unfold rpc_callback in F. step_in F.
  match goal with E : rpc_write _ _ _ _ = Some _ |- _ => apply rpc_write_rest in E; exact E end.
Qed.
Lemma l2cap_rest s cid p s' : bytes p -> bytes (prep (gatt_ s)) -> l2cap_frame hci_write ctrl s cid p = Some s' -> rest s s'.
Proof.
  intros Hp Hr. unfold l2cap_frame. intros H. step_in H; try done; try (by apply acl_send_rest in H).
  all: match goal with E : gatt_handle _ _ _ _ _ = Some _ |- _ => apply gatt_rest in E; [|done..]; rename E into R end.
  - apply acl_send_rest in H. by_rest.
  - exact R.
Qed.
Lemma handle_acl_rest s p s' : st_ok any s -> bytes p -> handle_acl hci_write ctrl s p = Some s' -> rest s s'.
Proof.
  intros Hs Hp. unfold handle_acl. intros H.
  assert (bytes (prep (gatt_ s))) as Hr by apply (sok_gatt _ _ Hs).
  pose proof (sok_l2 _ _ Hs) as (_ & L2 & _).
  step_in H; try done; try (by destruct (negb _)).
  match goal with E : l2cap_frame _ _ _ _ _ = Some _ |- _ => apply l2cap_rest in E; rename E into R end.
  - destruct (negb _); by_rest.
  - match goal with B : blit _ _ ?d = Some ?b, E : slice _ _ _ = Some ?f, D : slice p _ _ = Some ?d |- bytes ?f =>
      refine (bytes_slice _ _ _ _ _ E); refine (blit_bytes _ _ _ _ _ _ B); [by destruct (negb _)|exact (bytes_slice _ _ _ _ Hp D)] end.
  - by destruct (negb _).
Qed.
Lemma hci_parse_some ev ads : hci_parse_adv_reports ev 8 = Some ads -> bytes ev -> in_array 8 ads = Some ads.
Proof.
  intros E B. destruct (hci_parse_safe ev 8 B) as (ads' & E' & _ & L); [lia|]. apply in_array_Some. congruence.
Qed.
(** A report is kept in the batch; nothing else of the batch changes. *)
Lemma handle_packet_rest s p s' : st_ok any s -> bytes p -> handle_packet hci_write ctrl s p = Some s' ->
  clients s' = clients s /\ info s' = info s /\ sent s' = sent s /\ dev_name s' = dev_name s /\
  (batch s' = batch s \/ exists ads, hci_parse_adv_reports (zdrop 1 p) 8 = Some ads /\ batch s' = fill_batch (batch s) ads).
Proof.
  intros Hs Hp. unfold handle_packet, le_meta. intros H.
  assert (R : forall s', rest s s' -> clients s' = clients s /\ info s' = info s /\ sent s' = sent s /\ dev_name s' = dev_name s /\
    (batch s' = batch s \/ exists ads, hci_parse_adv_reports (zdrop 1 p) 8 = Some ads /\ batch s' = fill_batch (batch s) ads)).
  { intros s1 (? & ? & ? & ? & ?). auto 6. }
  step_in H; try by apply R; try done.
  - apply R. by apply handle_acl_rest in H.
  - match goal with E : in_array 8 _ = Some _ |- _ => apply in_array_inv in E as [-> _] end.
    split_and!; try by destruct (nz _ && _). right. eexists. split; [done|]. by destruct (nz _ && _).
Qed.
End keep.
Lemma fill_batch_Forall (P : adv -> Prop) b ads : Forall P b -> Forall P ads -> Forall P (fill_batch b ads).
Proof.
  intros Hb Ha. revert b Hb. induction Ha as [|a ads Pa _ IH]; intros b Hb; cbn [fill_batch]; [done|]. if_goal; [|done].
  apply IH. apply Forall_app_2; [done|]. by apply Forall_cons_2.
Qed.

(** * The whole state *)

Definition client_ok (c : client) : Prop := zlen (buf c) = 1024 /\ bytes (buf c) /\ 0 <= len c < 1024.
Definition low (a : adv) : Prop := adv_ok a /\ addr_type a < 128.
Record ble_ok (s : st) : Prop := {
  bo_st : st_ok any s;
  bo_batch : Forall low (batch s);
  bo_clients : Forall client_ok (clients s);
  bo_info : info_ok (info s) }.
(** A packet of an adapter: bytes, and no report in it has an address type of 128 or more; the standard
    has 0 to 3.  With others the message of a batch can leave its buffer ([flush_batch_overflow]). *)
Definition packet_ok (p : list Z) : Prop :=
  bytes p /\ forall ads, hci_parse_adv_reports (zdrop 1 p) 8 = Some ads -> Forall (fun a => addr_type a < 128) ads.

Lemma bytes_read n p : bytes p -> bytes (hci_read n p).
Proof. apply bytes_ztake. Qed.
Lemma packet_ok_read n p : 1 <= n -> packet_ok p -> packet_ok (hci_read n p).
Proof.
  intros Hn [B A]. split; [by apply bytes_read|]. intros ads' E'.
  destruct (hci_parse_safe (zdrop 1 p) 8) as (ads & E & _); [by apply bytes_zdrop|lia|].
  assert (zdrop 1 (hci_read n p) = ztake (n - 1) (zdrop 1 p)) as C.
  { unfold hci_read, zdrop, ztake. rewrite skipn_firstn_comm. f_equal. lia. }
  rewrite C in E'. by apply (hci_parse_ztake (fun a => addr_type a < 128) (n - 1) (zdrop 1 p) 8 ads ads' E E'), A.
Qed.

Section whole.
Variable sock_send : list (Z * list Z) -> Z -> list Z -> bool.
Variable hci_write : list (list Z) -> list Z -> bool.
Variable ctrl : list (list Z) -> list Z -> option (list Z).
Hypothesis Hctrl : ctrl_int ctrl.
Lemma handle_packet_ble s p : ble_ok s -> packet_ok p ->
  exists s', handle_packet hci_write ctrl s p = Some s' /\ ble_ok s' /\ clients s' = clients s.
Proof using Hctrl.
  intros [Hs Hb Hc Hi] [Hp Hl]. destruct (handle_packet_ok hci_write ctrl Hctrl any ltac:(done) s p) as (s' & E & S'); [done..|].
  exists s'. split; [done|]. destruct (handle_packet_rest hci_write ctrl s p s' Hs Hp E) as (C & I & _ & _ & B). split; [|done].
  constructor; [done| |by rewrite C|by rewrite I]. destruct B as [-> |(ads & P & ->)]; [done|]. apply fill_batch_Forall; [done|].
  destruct (hci_parse_safe (zdrop 1 p) 8) as (ads' & P' & A & _); [by apply bytes_zdrop|lia|]. rewrite P in P'. injection P' as <-.
  specialize (Hl ads P). clear -A Hl. induction A as [|a l A1 A2 IH]; [constructor|].
  apply Forall_cons_1 in Hl as [L1 L2]. apply Forall_cons_2; [by split|by apply IH].
Qed.

(** ** Commands of the adapter, for any invariant that the packets and the fields of the adapter keep *)
Section cmd.
Variable I : st -> Prop.
Variable Q : list Z -> Prop.
Hypothesis HQ : forall p, Q p -> bytes p.
Hypothesis HT : forall n p, 1 <= n -> Q p -> Q (hci_read n p).
Hypothesis HI : forall s p, I s -> Q p -> exists s', handle_packet hci_write ctrl s p = Some s' /\ I s'.
Hypothesis HO : forall s o, I s -> I (set_hci_out o s).
Lemma hci_wait_ok op inbox : forall s, I s -> Forall Q inbox -> exists r ret s' inbox',
  hci_wait hci_write ctrl s op inbox = Some (r, ret, s', inbox') /\ I s' /\ Forall Q inbox' /\ bytes ret.
Proof using HQ HI HT.
  induction inbox as [|p0 inbox IH]; intros s Hs F; cbn [hci_wait]; [exists (-1), [], s, []; split_and!; done || constructor|].
  apply Forall_cons_1 in F as [Qp F]. apply (HT 260) in Qp; [|lia]. set (p := hci_read 260 p0) in *. pose proof (HQ p Qp) as Bp. if_goal; [by apply IH|]. pose proof (zlen_nonneg p).
  rewrite (rd_Some p 0) by lia. cbn [mbind option_bind].
  assert (W : exists s', handle_packet hci_write ctrl s p = Some s' /\ I s') by by apply HI.
  destruct ((get p 0 =? HCI_EVT) && (zlen p >=? 7)) eqn:E.
  - apply andb_true_iff in E as [_ E]. apply Z.geb_le in E.
    rewrite (rd_Some p 1), (rd_Some p 6), (rd_Some p 3) by lia. destruct (get16_ok p 4) as (h & -> & _); [done|lia..|].
    destruct (get16_ok p 5) as (h5 & -> & _); [done|lia..|]. cbn [mbind option_bind].
    match goal with |- context [if ?d =? 1 then _ else _] => destruct (d =? 1); [|destruct (d =? 2)] end.
    { eexists _, _, s, inbox. split; [reflexivity|]. split; [done|]. split; [done|]. by apply bytes_zdrop. }
    { eexists _, _, s, inbox. split; [reflexivity|]. split; [done|]. split; [done|]. constructor. }
    destruct W as (s' & -> & I'). by apply IH.
  - cbn [mbind option_bind Z.eqb]. destruct W as (s' & -> & I'). by apply IH.
Qed.
Lemma hci_cmd_ok s op param inbox : I s -> Forall Q inbox -> zlen param <= 256 -> exists r ret s' inbox',
  hci_cmd hci_write ctrl s op param inbox = Some (r, ret, s', inbox') /\ I s' /\ Forall Q inbox' /\ bytes ret.
Proof using HQ HI HO HT.
  intros Hs F Lp. unfold hci_cmd, write_packet. rewrite in_array_Some by llia. cbn [mbind option_bind]. destruct (hci_write _ _); [apply hci_wait_ok; [by apply HO|done]|exists (-1), [], s, inbox; split_and!; done || constructor].
Qed.
Hypothesis HS : forall s b, I s -> I (set_scanning b s).
Hypothesis HA : forall s b, I s -> I (set_advertising b s).
Hypothesis HD : forall s b, I s -> I (set_adv_dirty b s).
Ltac cmd := match goal with Hs : I ?s, F : Forall Q ?l |- context [hci_cmd hci_write ctrl ?s ?op ?param ?l] =>
  let r := fresh "r" in let ret := fresh "ret" in let s' := fresh "s" in let l' := fresh "l" in
  destruct (hci_cmd_ok s op param l Hs F ltac:(first [lia|vm_compute; congruence])) as (r & ret & s' & l' & -> & ? & ? & ?); cbn [mbind option_bind] end.
Lemma set_scan_ok s on inbox : I s -> Forall Q inbox -> exists s' inbox',
  set_scan hci_write ctrl s on inbox = Some (s', inbox') /\ I s' /\ Forall Q inbox'.
Proof using HQ HI HO HS HT.
  intros Hs F. unfold set_scan. if_goal; [by exists s, inbox|]. destruct on.
  - cmd. if_goal; [by eexists _, _|]. cmd. eexists _, _. split; [done|]. split; [|done]. if_goal; [by apply HS|done].
  - cbn [mbind option_bind nz Z.eqb negb]. cmd. eexists _, _. split; [done|]. split; [|done]. if_goal; [by apply HS|done].
Qed.
Lemma adv_param_ok d : zlen d <= 31 -> exists x, adv_param d = Some x /\ zlen x = 32.
Proof.
  intros H. unfold adv_param. rewrite in_array_Some by done. cbn [mbind option_bind]. eexists. split; [done|]. pose proof (zlen_nonneg d).
  rewrite !zlen_app, zlen_zeros by lia. change (zlen [u8 (zlen d)]) with 1. lia.
Qed.
Lemma name_data_len nm : zlen (hci_name_data nm) <= 31.
Proof. unfold hci_name_data, ADV_MAX. rewrite zlen_app. change (zlen [_; _]) with 2. pose proof (zlen_nonneg nm). if_goal; rewrite zlen_ztake by lia; lia. Qed.
Lemma set_advertising_ok s on inbox : I s -> Forall Q inbox -> exists s' inbox',
  set_advertising_ hci_write ctrl s on inbox = Some (s', inbox') /\ I s' /\ Forall Q inbox'.
Proof using HQ HI HO HA HD HT.
  intros Hs F. unfold set_advertising_.
  match goal with |- context [mbind _ (if on then ?a else ?b)] => assert (G : exists s1 l1, (if on then a else b) = Some (s1, l1) /\ I s1 /\ Forall Q l1) end.
  { destruct on; [|by exists s, inbox]. destruct (adv_param_ok (hci_improv_adv_data (state (gatt_ s)) (caps (gatt_ s))) ltac:(done)) as (d1 & -> & L1).
    cbn [mbind option_bind]. cmd. if_goal; [|by eexists _, _].
    destruct (adv_param_ok (hci_name_data (dev_name s0)) (name_data_len _)) as (d2 & -> & L2). cbn [mbind option_bind]. cmd. cmd. by eexists _, _. }
  destruct G as (s1 & l1 & -> & I1 & F1). cbn [mbind option_bind].
  if_goal; [|cbn [mbind option_bind]; eexists _, _; split; [done|]; split; [by apply HD|done]].
  cmd. eexists _, _. split; [done|]. split; [|done]. apply HD. if_goal; [by apply HA|done].
Qed.
End cmd.

(** ** The clients *)
Definition recv_ok (c : client) (n : received) : Prop :=
  match n with RData d => 1 <= zlen d <= 1024 - len c /\ bytes d | _ => True end.
(** What recv() gives fits the room that is left. *)
Fixpoint fits (cs : list client) (ins : list (option received)) : Prop :=
  match cs, ins with
  | c :: cs, i :: ins => (match i with Some n => recv_ok c n | None => True end) /\ fits cs ins
  | _, _ => True
  end.
Lemma client_send_keeps log c t m l c' : client_send sock_send log c t m = Some (l, c') ->
  buf c' = buf c /\ ((fd c' = fd c /\ len c' = len c) \/ (fd c' = -1 /\ len c' = 0)).
Proof.
  unfold client_send. if_goal; [intros [= <- <-]; auto|]. destruct (in_array _ _); [|done]. cbn [mbind option_bind].
  if_goal; intros [= <- <-]; auto.
Qed.
(** A message leaves the buffer alone, and the length while the client is open. *)
Lemma client_message_keeps inf log c t l c' : client_message sock_send inf log c t = Some (l, c') ->
  buf c' = buf c /\ ((fd c' = fd c /\ len c' = len c) \/ (fd c' = -1 /\ len c' = 0)).
Proof.
  unfold client_message. intros H. repeat (if_hyp H; [try (by apply client_send_keeps in H)|]); try (by injection H as <- <-; auto).
  - destruct (in_array _ _); [|done]. by apply client_send_keeps in H.
  - destruct (client_send sock_send log c 6 []) as [[l1 c1]|] eqn:E; [|done]. apply client_send_keeps in E. injection H as <- <-.
    if_goal; [|done]. cbn. split; [apply E|by right].
  - destruct (in_array _ _); [|done]. by apply client_send_keeps in H.
Qed.
Lemma read_loop_ok inf : info_ok inf -> forall fuel log c r used B L, zlen B = 1024 -> bytes B -> L <= 1024 -> buf c = B ->
  0 <= used <= L -> (L - used < Z.of_nat fuel) -> (0 <= fd c -> len c = L) -> (fd c < 0 -> len c = 0) ->
  exists r' used' log' c', read_loop sock_send fuel inf log c r used = Some (r', used', log', c') /\ buf c' = B /\
    (fd c' < 0 -> len c' = 0) /\ (0 <= fd c' -> len c' = L /\ used <= used' <= L).
Proof.
  intros Hi. induction fuel as [|fuel IH]; intros log c r used B L HB Bb HL Eb Hu Hf Ho Hc; [lia|]. cbn [read_loop].
  if_goal; [eexists _, _, _, _; split; [done|]; split; [done|]; split; [done|lia]|]. rewrite Eb, Ho by lia.
  rewrite slice_Some by lia. cbn [mbind option_bind].
  destruct (api_next_any (ztake (L - used) (zdrop used B))) as (n & m & -> & Hm); [by apply bytes_ztake, bytes_zdrop|]. cbn [mbind option_bind].
  destruct m as [[t msg]|]; [|eexists _, _, _, _; split; [done|]; split; [done|]; split; [lia|split; [by apply Ho|lia]]].
  destruct Hm as (hdr & more & E & -> & H3 & _ & _).
  assert (zlen hdr + zlen msg <= L - used) as Hl.
  { apply (f_equal zlen) in E. rewrite zlen_ztake, zlen_zdrop, !zlen_app in E by lia. pose proof (zlen_nonneg more). lia. }
  pose proof (zlen_nonneg msg).
  destruct (client_message_ok sock_send inf Hi log c t) as (l & c1 & M & _). rewrite M. cbn [mbind option_bind].
  apply client_message_keeps in M as (Eb1 & M).
  destruct (IH l c1 (zlen hdr + zlen msg) (used + (zlen hdr + zlen msg)) B L) as (r' & used' & log' & c' & E' & B' & C' & O');
    [done..|by rewrite Eb1|lia|lia|intros X; destruct M as [[M1 M2]|[? ?]]; [rewrite M2; apply Ho; lia|lia]|intros X; destruct M as [[? ?]|[? ?]]; [lia|done]|].
  exists r', used', log', c'. split; [done|]. split; [done|]. split; [done|]. intros D. destruct (O' D). lia.
Qed.
Lemma client_read_ok inf log c n : info_ok inf -> client_ok c -> 0 <= fd c -> recv_ok c n ->
  exists log' c', client_read sock_send inf log c n = Some (log', c') /\ client_ok c'.
Proof.
  intros Hi (B1 & B2 & L) Hf Hn. unfold client_read. destruct n as [| |d]; [by exists log, c|exists log, (client_close c); split; [done|]; split_and!; done|].
  destruct Hn as [Hd Bd]. assert (exists b, blit (buf c) (len c) d = Some b) as (b & E) by (eexists; apply blit_Some; lia). rewrite E. cbn [mbind option_bind].
  pose proof (blit_len _ _ _ _ E) as Lb. pose proof (blit_bytes _ _ _ _ B2 Bd E) as Bb. set (c1 := with_buf b (len c + zlen d) c).
  destruct (read_loop_ok inf Hi (S (Z.to_nat (len c1))) log c1 0 0 b (len c + zlen d)) as (r & used & log' & c' & -> & Eb & Cl & Op);
    [lia|done|lia|done|lia|cbn [c1 with_buf len]; lia|done|cbn [c1 with_buf fd]; lia|]. cbn [mbind option_bind].
  destruct (Z.ltb_spec (fd c') 0) as [D|D]; [exists log', c'; split; [done|]; split_and!; rewrite ?Eb, ?(Cl D); done || lia|].
  destruct (Op D) as [Lc Hu]. destruct ((r <? 0) || ((used =? 0) && (len c' =? 1024))) eqn:F.
  { eexists _, _. split; [done|]. split_and!; cbn [client_close buf len]; rewrite ?Eb; done || lia. }
  apply orb_false_iff in F as [_ F]. rewrite Lc, Eb in *. rewrite slice_Some by lia. cbn [mbind option_bind].
  assert (exists b2, blit b 0 (ztake (len c + zlen d - used) (zdrop used b)) = Some b2) as (b2 & E2) by (eexists; apply blit_Some; llia).
  rewrite E2. cbn [mbind option_bind].
  eexists _, _. split; [done|]. pose proof (blit_len _ _ _ _ E2). split_and!; cbn [with_buf buf len]; [lia| |lia|].
  - refine (blit_bytes _ _ _ _ Bb _ E2). by apply bytes_ztake, bytes_zdrop.
  - destruct (Z.eqb_spec used 0), (Z.eqb_spec (len c + zlen d) 1024); cbn in F; done || lia.
Qed.
Lemma read_clients_ok inf cs : info_ok inf -> forall log ins, Forall client_ok cs -> fits cs ins ->
  exists log' cs', read_clients sock_send inf log cs ins = Some (log', cs') /\ Forall client_ok cs'.
Proof.
  intros Hi. induction cs as [|c cs IH]; intros log ins Hc Hf; cbn [read_clients]; [by exists log, []|].
  destruct ins as [|i ins]; [by exists log, (c :: cs)|]. apply Forall_cons_1 in Hc as [H1 H2]. destruct Hf as [F1 F2].
  assert (exists log1 c1, (match i with Some n => if fd c >=? 0 then client_read sock_send inf log c n else Some (log, c) | None => Some (log, c) end) = Some (log1, c1) /\ client_ok c1)
    as (log1 & c1 & -> & C1).
  { destruct i as [n|]; [|by exists log, c]. destruct (Z.geb_spec (fd c) 0); [by apply client_read_ok|by exists log, c]. }
  cbn [mbind option_bind]. destruct (IH log1 ins H2 F2) as (log' & cs' & -> & C2). cbn [mbind option_bind].
  eexists _, _. split; [done|]. by apply Forall_cons_2.
Qed.
Lemma accept_keeps_fits f cs : Forall client_ok cs -> Forall client_ok (accept_client cs f) /\ forall ins, fits cs ins -> fits (accept_client cs f) ins.
Proof.
  induction 1 as [|c cs H1 H2 [IH1 IH2]]; [done|]. cbn [accept_client]. if_goal.
  - split; [by apply Forall_cons_2|]. intros [|i ins]; [done|]. intros [F1 F2]. split; [|done]. by destruct i.
  - split; [by apply Forall_cons_2|]. intros [|i ins]; [done|]. intros [F1 F2]. split; [done|by apply IH2].
Qed.
Lemma flush_batch_ok s : ble_ok s -> exists s', flush_batch sock_send s = Some s' /\ ble_ok s'.
Proof.
  intros [Hs Hb Hc Hi]. destruct (flush_batch_correct sock_send s) as (out & cs & -> & _ & F).
  - clear -Hb. induction Hb as [|a l [A _] _ IH]; [constructor|by apply Forall_cons_2].
  - clear -Hb. induction Hb as [|a l [_ A] _ IH]; [constructor|by apply Forall_cons_2].
  - apply Hs.
  - eexists. split; [done|]. constructor; [|constructor| |done].
    + destruct Hs. by constructor.
    + st_simpl. clear -F Hc. induction F as [|c c' l l' E _ IH]; [constructor|]. apply Forall_cons_1 in Hc as [C1 C2].
      apply Forall_cons_2; [|by apply IH]. destruct E as [-> |[_ ->]]; [done|]. destruct C1 as (? & ? & ?). split_and!; done.
Qed.

(** ** A round of the loop *)
Ltac branch := match goal with |- context [if ?b then _ else _] => destruct b end.
Ltac keep H := destruct H as [[] ? ? ?]; constructor; [by constructor|done..].
Definition whole_is (cs : list client) (s : st) : Prop := ble_ok s /\ clients s = cs.
Lemma whole_packet cs s p : whole_is cs s -> packet_ok p -> exists s', handle_packet hci_write ctrl s p = Some s' /\ whole_is cs s'.
Proof using Hctrl. intros [H E] Q. destruct (handle_packet_ble s p H Q) as (s' & E1 & H' & C). exists s'. split; [done|]. split; [done|congruence]. Qed.
Lemma scan_ok cs s on inbox : whole_is cs s -> Forall packet_ok inbox -> exists s' inbox',
  set_scan hci_write ctrl s on inbox = Some (s', inbox') /\ whole_is cs s' /\ Forall packet_ok inbox'.
Proof using Hctrl.
  apply (set_scan_ok (whole_is cs) packet_ok); [by intros ? []|apply packet_ok_read|apply whole_packet|intros ? ? [H ?]; split; [keep H|done]..].
Qed.
Lemma adv_set_ok cs s on inbox : whole_is cs s -> Forall packet_ok inbox -> exists s' inbox',
  set_advertising_ hci_write ctrl s on inbox = Some (s', inbox') /\ whole_is cs s' /\ Forall packet_ok inbox'.
Proof using Hctrl.
  apply (set_advertising_ok (whole_is cs) packet_ok); [by intros ? []|apply packet_ok_read|apply whole_packet|intros ? ? [H ?]; split; [keep H|done]..].
Qed.
Lemma round_setup_parts cs s inbox : whole_is cs s -> Forall packet_ok inbox -> exists s1 inbox1 s2 inbox2,
  (if adv_dirty s && improv s && (conn s <? 0) then set_advertising_ hci_write ctrl s true inbox else Some (s, inbox)) = Some (s1, inbox1) /\
  set_scan hci_write ctrl s1 (subscribers s1 >? 0) inbox1 = Some (s2, inbox2) /\ whole_is cs s2.
Proof using Hctrl.
  intros H F. assert (exists s1 inbox1, (if adv_dirty s && improv s && (conn s <? 0) then set_advertising_ hci_write ctrl s true inbox else Some (s, inbox)) = Some (s1, inbox1) /\
    whole_is cs s1 /\ Forall packet_ok inbox1) as (s1 & l1 & E1 & H1 & F1) by (branch; [by apply adv_set_ok|by exists s, inbox]).
  destruct (scan_ok cs s1 (subscribers s1 >? 0) l1 H1 F1) as (s2 & l2 & E2 & H2 & _). by exists s1, l1, s2, l2.
Qed.
Lemma join_poll_ble s : ble_ok s -> exists s', join_poll hci_write ctrl s = Some s' /\ ble_ok s'.
Proof using Hctrl.
  intros [Hs Hb Hc Hi]. destruct (join_poll_ok hci_write ctrl s Hs) as (s' & E & S' & _). exists s'. split; [done|].
  apply join_poll_rest in E as (C & I & _ & _ & B). constructor; [done|by rewrite B|by rewrite C|by rewrite I].
Qed.
Lemma timers_ok s inbox : ble_ok s -> Forall packet_ok inbox -> exists s', timers sock_send hci_write ctrl s inbox = Some s' /\ ble_ok s'.
Proof using Hctrl.
  intros H F. unfold timers.
  assert (exists s1, (if nz (zlen (batch s)) && (clock s >=? batch_ms s + 100) then flush_batch sock_send s else Some s) = Some s1 /\ ble_ok s1) as (s1 & -> & H1)
    by (branch; [by apply flush_batch_ok|by exists s]). cbn [mbind option_bind].
  assert (exists s2, (if join_id s1 >=? 0 then join_poll hci_write ctrl s1 else Some s1) = Some s2 /\ ble_ok s2) as (s2 & -> & H2)
    by (branch; [by apply join_poll_ble|by exists s1]). cbn [mbind option_bind].
  set (s3 := if nz (identify_end s2) && _ then identify s2 false else s2).
  assert (ble_ok s3) as H3 by (unfold s3; branch; [unfold identify; keep H2|done]).
  assert (exists s4 l4, (if nz (done_at s3) && (now s3 >=? done_at s3) && (conn s3 <? 0) then
      set_advertising_ hci_write ctrl (set_done_at 0 (set_improv false s3)) false inbox else Some (s3, inbox)) = Some (s4, l4) /\ ble_ok s4 /\ Forall packet_ok l4)
    as (s4 & l4 & -> & H4 & F4).
  { branch; [|by exists s3, inbox]. destruct (adv_set_ok (clients s3) (set_done_at 0 (set_improv false s3)) false inbox) as (s4 & l4 & E & [H4 _] & F4);
      [split; [keep H3|done]|done|]. by exists s4, l4. }
  cbn [mbind option_bind]. branch; [|by exists s4].
  destruct (wpa_networks ctrl (wlog (set_check_at (now s4 + 5) s4))) as [n log]. branch; [|eexists; split; [done|]; keep H4].
  destruct (adv_set_ok (clients s4) (set_improv false (set_wlog log (set_check_at (now s4 + 5) s4))) false l4) as (s5 & l5 & E & [H5 _] & F5);
    [split; [keep H4|done]|done|]. st_simpl. rewrite E. cbn [mbind option_bind]. by exists s5.
Qed.
(** What the world gives to a round. *)
Record input_ok (s : st) (i : input) : Prop := {
  io_setup : Forall packet_ok (in_setup i);
  io_packet : match in_packet i with Some p => packet_ok p | None => True end;
  io_clients : fits (clients s) (in_clients i);
  io_timers : Forall packet_ok (in_timers i) }.
Lemma run_round_ok s i : ble_ok s -> input_ok s i -> exists s', run_round sock_send hci_write ctrl s i = Some s' /\ ble_ok s'.
Proof using Hctrl.
  intros H [I1 I2 I3 I4]. unfold run_round.
  destruct (round_setup_parts (clients s) s (in_setup i)) as (s1 & l1 & s2 & l2 & E1 & E2 & [H2 C2]); [done..|].
  rewrite E1. cbn [mbind option_bind]. rewrite E2. cbn [mbind option_bind].
  assert (ble_ok (set_clock (in_clock i) s2)) as H3 by keep H2.
  assert (exists s4, (match in_packet i with Some p => handle_packet hci_write ctrl (set_clock (in_clock i) s2) (hci_read 300 p) | None => Some (set_clock (in_clock i) s2) end) = Some s4 /\
    ble_ok s4 /\ clients s4 = clients s) as (s4 & -> & H4 & C4).
  { destruct (in_packet i) as [p|]; [|eexists; split; [done|]; by split]. destruct (handle_packet_ble (set_clock (in_clock i) s2) (hci_read 300 p) H3 (packet_ok_read 300 p ltac:(lia) I2)) as (s4 & E & H4 & C4).
    exists s4. split; [done|]. split; [done|]. by rewrite C4. }
  cbn [mbind option_bind]. set (s5 := match in_accept i with Some f => _ | None => s4 end).
  assert (ble_ok s5 /\ fits (clients s5) (in_clients i)) as [H5 F5].
  { rewrite <- C4 in I3. unfold s5. destruct (in_accept i) as [f|]; [|done]. destruct (accept_keeps_fits f (clients s4) (bo_clients _ H4)) as [A1 A2].
    split; [|by apply A2]. destruct H4 as [[] ? ? ?]; constructor; [by constructor|done..]. }
  destruct (read_clients_ok (info s5) (clients s5) (bo_info _ H5) (sent s5) (in_clients i) (bo_clients _ H5) F5) as (log & cs & -> & C6).
  cbn [mbind option_bind]. set (s6 := set_clients cs (set_sent log s5)).
  assert (ble_ok s6) as H6 by (destruct H5 as [[] ? ? ?]; constructor; [by constructor|done..]).
  assert (exists s7, (if zlen (batch s6) >=? ADV_BATCH then flush_batch sock_send s6 else Some s6) = Some s7 /\ ble_ok s7) as (s7 & -> & H7)
    by (branch; [by apply flush_batch_ok|by exists s6]).
  cbn [mbind option_bind]. by apply timers_ok.
Qed.
(** What the world gives to the loop, round by round. *)
Fixpoint inputs_ok (s : st) (ins : list loop_in) : Prop :=
  match ins with
  | [] => True
  | Broken setup _ :: _ => Forall packet_ok setup
  | Round i :: ins => input_ok s i /\ forall s', run_round sock_send hci_write ctrl s i = Some s' -> inputs_ok s' ins
  end.
Lemma run_ok proxy ins : forall s, ble_ok s -> inputs_ok s ins -> exists s', run sock_send hci_write ctrl proxy s ins = Some s' /\ ble_ok s'.
Proof using Hctrl.
  induction ins as [|i ins IH]; intros s H F; cbn [run]; (branch; [by exists s|]); [by exists s|]. destruct i as [i|setup clk].
  - destruct F as [F1 F2]. destruct (run_round_ok s i H F1) as (s1 & E & H1). rewrite E. cbn [mbind option_bind]. apply IH; [done|by apply F2].
  - cbn [inputs_ok] in F. destruct (round_setup_parts (clients s) s setup) as (s1 & l1 & s2 & l2 & E1 & E2 & [H2 C2]); [done..|].
    unfold round_setup. rewrite E1. cbn [mbind option_bind]. rewrite E2. cbn [mbind option_bind]. eexists. split; [done|]. keep H2.
Qed.
Lemma main_finish_ok s inbox : ble_ok s -> Forall packet_ok inbox -> exists s', main_finish hci_write ctrl s inbox = Some s' /\ ble_ok s'.
Proof using Hctrl.
  intros H F. unfold main_finish. destruct (scan_ok (clients s) s false inbox) as (s1 & l1 & -> & H1 & F1); [done..|]. cbn [mbind option_bind].
  destruct (adv_set_ok (clients s) s1 false l1 H1 F1) as (s2 & l2 & -> & [H2 _] & _). cbn [mbind option_bind].
  eexists. split; [done|]. branch; [keep H2|done].
Qed.

(** ** The start *)
(** Before the adapter is set up: no scan and no server yet. *)
Record init_ok (s : st) : Prop := {
  in_scan : scanning s = false;
  in_batch : batch s = [];
  in_places : Forall client_ok (clients s);
  in_l2 : zlen (l2 s) = 256 /\ bytes (l2 s) /\ 0 <= l2_len s <= 256;
  in_rpc : zlen (rpc s) = 128 /\ bytes (rpc s) /\ 0 <= rpc_len s <= 128;
  in_acl : 0 <= acl_len s < 65536;
  in_credits : 0 <= acl_credits s < 65536 /\ 0 <= conn_sent s < 65536;
  in_conn : -1 <= conn s <= 4095 }.
(** A packet while the adapter starts, which has just been reset: there is no connection and so no data.  The
    code needs it: before gatt_init() a request would use the callback and the name of the server, null pointers. *)
Definition init_packet (p : list Z) : Prop := bytes p /\ get p 0 <> HCI_ACL.
Lemma init_handle s p : init_ok s -> init_packet p -> exists s', handle_packet hci_write ctrl s p = Some s' /\ init_ok s'.
Proof.
  intros H [Hp Na]. unfold handle_packet. destruct (Z.ltb_spec (zlen p) 3); [by exists s|].
  rewrite (rd_Some p 0), (rd_Some p 1) by lia. cbn [mbind option_bind]. rewrite (proj2 (Z.eqb_neq _ _) Na).
  branch; [by exists s|]. destruct (get p 1 =? 62); [|destruct (get p 1 =? 5); [|branch; [|by exists s]]].
  - unfold le_meta. destruct (Z.ltb_spec (zlen (zdrop 1 p)) 3); [by exists s|]. rewrite (rd_Some (zdrop 1 p) 2) by lia. cbn [mbind option_bind].
    rewrite (in_scan _ H), andb_false_r. destruct ((get (zdrop 1 p) 2 =? 1) && (zlen (zdrop 1 p) >=? 6)) eqn:C; [|by exists s].
    apply andb_true_iff in C as [_ C]. apply Z.geb_le in C. rewrite (rd_Some (zdrop 1 p) 3) by lia. cbn [mbind option_bind]. branch; [by exists s|].
    destruct (get16_ok (zdrop 1 p) 4) as (h & -> & _); [by apply bytes_zdrop|lia..|]. cbn [mbind option_bind]. eexists. split; [done|].
    destruct H as [? ? ? (? & ? & ?) (? & ? & ?) ? ? ?]. constructor; st_simpl; try done; try (split_and!; done || lia).
    change (-1 <= Z.land h (Z.ones 12) <= 4095). rewrite Z.land_ones by lia. pose proof (Z.mod_pos_bound h (2 ^ 12) ltac:(lia)). change (2 ^ 12) with 4096 in *. lia.
  - destruct (Z.geb_spec (zlen p) 6); [|by exists s]. destruct (get16_ok p 4) as (h & -> & _); [done|lia..|]. cbn [mbind option_bind]. branch; [|by exists s].
    eexists. split; [done|]. destruct H. constructor; st_simpl; try done. split; [apply u16_range|lia].
  - destruct (Z.geb_spec (zlen p) 8); [|by exists s]. rewrite get16_eq by (done || lia). cbn [mbind option_bind].
    pose proof (get_byte p 6 Hp). pose proof (get_byte p (6 + 1) Hp). eexists. split; [done|]. unfold is_byte in *.
    destruct H as [? ? ? ? ? ? [? ?] ?]. constructor; st_simpl; try done. split; [apply u16_range|].
    match goal with |- context [?a <? ?b] => destruct (Z.ltb_spec a b) end; lia.
Qed.
Lemma init_packet_read n p : 1 <= n -> init_packet p -> init_packet (hci_read n p).
Proof. intros Hn [B N]. split; [by apply bytes_read|]. unfold hci_read. by rewrite get_ztake by lia. Qed.
Lemma init_cmd s op param inbox : init_ok s -> Forall init_packet inbox -> zlen param <= 256 -> exists r ret s' inbox',
  hci_cmd hci_write ctrl s op param inbox = Some (r, ret, s', inbox') /\ init_ok s' /\ Forall init_packet inbox' /\ bytes ret.
Proof. apply (hci_cmd_ok init_ok init_packet); [by intros ? []|apply init_packet_read|apply init_handle|intros ? ? []; by constructor]. Qed.
Lemma ret_ok r ret : zlen r = 16 -> bytes r -> bytes ret -> exists x, hci_ret r ret = Some x /\ zlen x = 16 /\ bytes x.
Proof.
  intros L B1 B2. unfold hci_ret. pose proof (zlen_nonneg ret). destruct (blit r 0 (ztake 16 ret)) as [x|] eqn:E; [|rewrite blit_Some in E; [done|lia|llia]].
  exists x. split; [done|]. split; [by rewrite (blit_len _ _ _ _ E)|]. refine (blit_bytes _ _ _ _ B1 _ E). by apply bytes_ztake.
Qed.
Lemma hci_init_ok s r inbox : init_ok s -> Forall init_packet inbox -> zlen r = 16 -> bytes r ->
  exists e s', hci_init hci_write ctrl s r inbox = Some (e, s') /\ init_ok s' /\ (e = 0 -> 27 <= acl_len s').
Proof.
  intros H F L B. unfold hci_init.
  assert (C : forall s op param inbox, init_ok s -> Forall init_packet inbox -> zlen param <= 256 -> exists r ret s' inbox',
    hci_cmd hci_write ctrl s op param inbox = Some (r, ret, s', inbox') /\ init_ok s' /\ Forall init_packet inbox' /\ bytes ret) by (intros; by apply init_cmd).
  destruct (C s 0x0c03 [] inbox H F ltac:(done)) as (e1 & t1 & s1 & l1 & -> & H1 & F1 & _). cbn [mbind option_bind]. branch; [by eexists _, _|].
  match goal with |- context [hci_cmd _ _ s1 ?o ?p l1] => destruct (C s1 o p l1 H1 F1 ltac:(vm_compute; congruence)) as (e2 & t2 & s2 & l2 & -> & H2 & F2 & _) end.
  cbn [mbind option_bind]. branch; [by eexists _, _|].
  match goal with |- context [hci_cmd _ _ s2 ?o ?p l2] => destruct (C s2 o p l2 H2 F2 ltac:(vm_compute; congruence)) as (e3 & t3 & s3 & l3 & -> & H3 & F3 & _) end.
  cbn [mbind option_bind]. branch; [by eexists _, _|].
  match goal with |- context [hci_cmd _ _ s3 ?o ?p l3] => destruct (C s3 o p l3 H3 F3 ltac:(vm_compute; congruence)) as (e4 & t4 & s4 & l4 & -> & H4 & F4 & B4) end.
  cbn [mbind option_bind]. branch; [by eexists _, _|].
  destruct (ret_ok r t4 L B B4) as (r4 & -> & L4 & R4). cbn [mbind option_bind]. rewrite slice_Some by lia. cbn [mbind option_bind].
  set (s5 := set_bdaddr _ s4). assert (H5 : init_ok s5) by (destruct H4; by constructor).
  destruct (C s5 0x2002 [] l4 H5 F4 ltac:(done)) as (e6 & t6 & s6 & l6 & -> & H6 & F6 & B6). cbn [mbind option_bind].
  destruct (ret_ok r4 t6 L4 R4 B6) as (r6 & -> & L6 & R6). cbn [mbind option_bind]. destruct (get16_ok r6 1) as (n & -> & Hn); [done|lia..|]. cbn [mbind option_bind].
  assert (E : exists s7 l7, (if (e6 =? 0) && nz n then c ← rd r6 3; Some (set_acl_credits c (set_acl_len n s6), l6)
     else '(e, ret, s, inbox) ← hci_cmd hci_write ctrl s6 0x1005 [] l6;
       r ← hci_ret r6 ret;
       if e =? 0 then n ← get16 r 1; c ← get16 r 4; Some (set_acl_credits c (set_acl_len n s), inbox) else Some (s, inbox)) = Some (s7, l7) /\ init_ok s7).
  { branch.
    - rewrite (rd_Some r6 3) by lia. cbn [mbind option_bind]. eexists _, _. split; [done|]. pose proof (get_byte r6 3 R6) as G. unfold is_byte in G.
      unfold word16 in Hn. destruct H6 as [? ? ? ? ? ? [? ?] ?]. constructor; st_simpl; try done; lia.
    - destruct (C s6 0x1005 [] l6 H6 F6 ltac:(done)) as (e7 & t7 & s7 & l7 & -> & H7 & F7 & B7). cbn [mbind option_bind]. destruct (ret_ok r6 t7 L6 R6 B7) as (r7 & -> & L7 & R7). cbn [mbind option_bind].
      branch; [|by eexists _, _]. destruct (get16_ok r7 1) as (n7 & -> & N7); [done|lia..|]. destruct (get16_ok r7 4) as (c7 & -> & C7); [done|lia..|].
      cbn [mbind option_bind]. eexists _, _. split; [done|]. unfold word16 in *. destruct H7 as [? ? ? ? ? ? [? ?] ?]. constructor; st_simpl; try done; lia. }
  destruct E as (s7 & l7 & E & H7). rewrite E. cbn [mbind option_bind]. eexists _, _. split; [done|].
  destruct (Z.ltb_spec (acl_len s7) 27); [|by split]. split; [|done]. destruct H7. by constructor.
Qed.
End whole.

Lemma c_str_len l : zlen (c_str l) <= zlen l.
Proof. induction l as [|b l IH]; cbn [c_str]; [done|]. rewrite zlen_cons. destruct (_ =? 0); [rewrite zlen_nil; pose proof (zlen_nonneg l); lia|rewrite zlen_cons; lia]. Qed.
Lemma c_str_bytes l : bytes l -> bytes (c_str l).
Proof. induction l as [|b l IH]; intros H; cbn [c_str]; [done|]. apply bytes_cons in H as [? ?]. destruct (_ =? 0); [constructor|]. apply bytes_cons. auto. Qed.
Lemma until_nl_len l : zlen (until_nl l) <= zlen l.
Proof. induction l as [|b l IH]; cbn [until_nl]; [done|]. rewrite zlen_cons. destruct (_ =? 10); [rewrite zlen_nil; pose proof (zlen_nonneg l); lia|rewrite zlen_cons; lia]. Qed.
(** read_line() never leaves its buffer: there is room for the NUL. *)
Lemma read_line_len file len : 1 <= len -> zlen (read_line file len) <= len - 1.
Proof.
  intros H. unfold read_line. destruct file as [t|]; [|rewrite zlen_nil; lia].
  pose proof (c_str_len (until_nl (ztake (len - 1) t))). pose proof (until_nl_len (ztake (len - 1) t)). pose proof (zlen_nonneg t).
  rewrite zlen_ztake in * by lia. lia.
Qed.
(** The tries of improv_needed() end at the first answer or signal, at the latest after 30. *)
Lemma start_ok clk imp log : init_ok (set_improv imp (set_wlog log (boot_state clk))).
Proof.
  constructor; try done.
  - apply Forall_replicate. split_and!; [done|by apply is_bytes_spec|done..].
  - split_and!; [done|by apply is_bytes_spec|done..].
  - split_and!; [done|by apply is_bytes_spec|done..].
Qed.
Lemma ready_ok w s : init_ok s -> 27 <= acl_len s -> bytes (w_hostname w) -> ble_ok (ready w s).
Proof.
  intros H Ha Hb. unfold ready, setup_info. set (nm := c_str (ztake 63 (w_hostname w))).
  assert (bytes nm) as Bn by by apply c_str_bytes, bytes_ztake.
  assert (zlen nm <= 63) as Ln by (unfold nm; pose proof (c_str_len (ztake 63 (w_hostname w))); pose proof (zlen_nonneg (w_hostname w)); rewrite zlen_ztake in * by lia; lia).
  destruct H as [Sc Ba Pl L2 Rp Ac Cr Co]. constructor; [|cbn; rewrite Ba; constructor|done|].
  - constructor; cbn; try done; [|lia|by destruct Cr|by rewrite Ba].
    constructor; cbn; try done.
    + unfold is_byte. destruct (w_led w); vm_compute; split_and!; congruence.
    + split_and!; [done|by apply is_bytes_spec|lia..].
    + split; [done|]. repeat constructor; vm_compute; congruence.
    + destruct (Z.ltb_spec (acl_len s - 4) 247); lia.
    + split_and!; [done|by apply is_bytes_spec|lia..].
  - unfold info_ok. cbn. pose proof (read_line_len (w_address w) 18). pose proof (read_line_len (w_model w) 64).
    split_and!; [done|unfold zlen in *; rewrite length_map; lia|done|lia].
Qed.
Record world_ok (w : world) : Prop := {
  wo_hostname : bytes (w_hostname w);
  wo_stack : zlen (w_stack w) = 16 /\ bytes (w_stack w);
  wo_init : Forall init_packet (w_init w) }.
Lemma options_code l : forall proxy want dev code, main_options l proxy want dev = inl code -> 0 <= code <= 2.
Proof. induction l as [|o l IH]; intros proxy want dev code; cbn [main_options]; [done|]. destruct o; try apply IH; intros [= <-]; lia. Qed.
Lemma main_start_ok hci_write ctrl opts w clk : ctrl_int ctrl -> world_ok w ->
  exists r, main_start hci_write ctrl opts w clk = Some r /\ match r with inl code => 0 <= code <= 2 | inr (_, s) => ble_ok s end.
Proof.
  intros Hc [Wh [Wl Ws] Wi]. unfold main_start. destruct (main_options opts false false 0) as [code|[[proxy want] dev]] eqn:O.
  { exists (inl code). split; [done|]. by apply options_code in O. }
  destruct (if want then improv_needed ctrl (w_stops w) (wlog (boot_state clk)) else (false, wlog (boot_state clk))) as [imp log].
  set (s0 := set_improv imp (set_wlog log (boot_state clk))).
  destruct (negb proxy && negb imp); [by eexists|]. destruct (running _ _); [by eexists|]. destruct (negb (w_open w dev)); [by eexists|].
  destruct (hci_init_ok hci_write ctrl s0 (w_stack w) (w_init w)) as (e & s1 & -> & H1 & A1); [apply start_ok|done..|]. cbn [mbind option_bind].
  destruct (Z.eqb_spec e 0) as [->|N]; cbn [nz Z.eqb negb]; [|apply Z.eqb_neq in N; unfold nz; rewrite N; by eexists].
  destruct (proxy && negb (w_listen w)); [by eexists|]. eexists. split; [done|]. cbn beta iota zeta.
  pose proof (ready_ok w s1 H1 (A1 eq_refl) Wh) as R. destruct (improv (ready w s1)); [|done]. destruct R as [[] ? ? ?]. constructor; [by constructor|done..].
Qed.

(** C15: the whole program, from main() to its end, for all options: no handler leaves a buffer, and the state
    stays well-formed (the link, the ATT server, the batch, the buffers of the clients, the texts of the device).
    The buffers are those of the state and the local arrays, each with its size: the packets (300 and 260 bytes), the
    PDU of a notification (80), the response (256), the values and types of the server (64, 16, 16), the data of a
    command (31), the answer to one (16), the reports (8, each with 31), and the messages to the clients (1200, 512, 768, 64).
    The clients send any bytes in any cut, the adapter packets of any length and content that may or may not answer,
    sockets and writes may fail.  What the code needs of its world is in the hypotheses, and it does not hold without:
    no report has an address type of 128 or more ([packet_ok]; the standard has types up to 3, and [flush_batch_overflow]
    is the overflow with others); no ACL data comes before hci_init() has ended ([init_packet]: until gatt_init() the server has
    no callback and no name); the number of a network fits an int ([ctrl_int], for atoi()); recv() gives no more than it is
    asked for ([inputs_ok]). *)
Theorem ble_ha_safe sock_send hci_write ctrl (opts : list opt) (w : world) (clk : Z) (ins : list loop_in) (last : list (list Z))
    (C : ctrl_int ctrl) (W : world_ok w) (L : Forall packet_ok last)
    (I : forall proxy s, main_start hci_write ctrl opts w clk = Some (inr (proxy, s)) -> inputs_ok sock_send hci_write ctrl s ins) :
  exists e, ble_main sock_send hci_write ctrl opts w clk ins last = Some e /\
    match e with Exits code => 0 <= code <= 2 | Stopped s => ble_ok s end.
Proof.
  destruct (main_start_ok hci_write ctrl opts w clk C W) as (r & E & H). unfold ble_main. rewrite E. cbn [mbind option_bind].
  destruct r as [code|[proxy s]]; [by exists (Exits code)|].
  destruct (run_ok sock_send hci_write ctrl C proxy ins s H (I proxy s E)) as (s1 & -> & H1). cbn [mbind option_bind].
  destruct (main_finish_ok hci_write ctrl C s1 last H1 L) as (s2 & -> & H2). by exists (Stopped s2).
Qed.
(** A proxy with Improv: the adapter starts, a client connects and says hello in two pieces, and a
    report comes. *)
Definition world0 : world :=
  World [] [([49], Some (cstr "init"%string))] (fun _ => true) (zeros 16)
    [[4; 14; 4; 1; 3; 12; 0]; [4; 14; 4; 1; 1; 12; 0]; [4; 14; 4; 1; 1; 32; 0]; [4; 14; 10; 1; 9; 16; 0; 1; 2; 3; 4; 5; 6]; [4; 14; 7; 1; 2; 32; 0; 251; 0; 4]]
    (cstr "board"%string) (Some (cstr "aa:bb"%string)) None true true.
Definition rounds0 : list loop_in :=
  [Round (Input [] 1 None (Some 7) [] []); Round (Input [] 2 None None [Some (RData [0; 0])] []);
   Round (Input [[4; 14; 4; 1; 11; 32; 0]; [4; 14; 4; 1; 12; 32; 0]] 3 None None [Some (RData [66])] []);
   Round (Input [[4; 14; 4; 1; 11; 32; 0]; [4; 14; 4; 1; 12; 32; 0]] 4 (Some (HCI_EVT :: adv_event 14 [(0, adv0)])) None [] []);
   Broken [] 5].
Lemma ble_ha_safe_witness : exists s, ble_main sock0 write0 ctrl0 [OptProxy; OptImprov] world0 0 rounds0 [] = Some (Stopped s) /\ ble_ok s /\
  scanning s = true /\ zlen (batch s) = 1.
Proof.
  assert (W : world_ok world0).
  { constructor; [by apply is_bytes_spec|split; [done|by apply is_bytes_spec]|]. cbn.
    repeat (apply Forall_cons_2; [split; [by apply is_bytes_spec|vm_compute; congruence]|]). constructor. }
  assert (P : forall l, is_bytes l = true -> match hci_parse_adv_reports (zdrop 1 l) 8 with Some ads => forallb (fun a => addr_type a <? 128) ads | None => true end = true -> packet_ok l).
  { intros l Bl Al. split; [by apply is_bytes_spec|]. intros ads E. rewrite E in Al. apply List.Forall_forall. rewrite forallb_forall in Al.
    intros a Ia. specialize (Al a Ia). lia. }
  assert (I : forall proxy s, main_start write0 ctrl0 [OptProxy; OptImprov] world0 0 = Some (inr (proxy, s)) -> inputs_ok sock0 write0 ctrl0 s rounds0).
  { intros proxy s E. vm_compute in E. injection E as <- <-. unfold rounds0.
    repeat lazymatch goal with
    | |- inputs_ok _ _ _ _ (Round _ :: _) => split; [constructor; cbn; try exact Logic.I; repeat constructor; try (apply P; reflexivity); try (vm_compute; congruence); by apply is_bytes_spec|
        let s' := fresh in let R := fresh in intros s' R; vm_compute in R; injection R as <-]
    | |- _ => idtac
    end. all: apply List.Forall_nil. }
  destruct (ble_ha_safe sock0 write0 ctrl0 [OptProxy; OptImprov] world0 0 rounds0 [] ctrl0_int W ltac:(constructor) I) as (e & E & H).
  destruct e as [code|s]; [vm_compute in E; discriminate|]. exists s. split; [exact E|]. split; [exact H|]. vm_compute in E. injection E as <-. by split.
Defined.
