(* ===== verification/I2c.v ===== *)
(** The I2C master: linux/drivers/i2c/busses/i2c-esp32s31.c.

    A function that writes registers gives its writes, oldest first, as pairs
    of an offset and a value.  What the driver calls of the kernel (the address
    byte of a message, the reset lines, the clock) is a parameter.  [bus] is
    what a command list means on the bus, as the comment at the top of the
    driver describes it. *)

From S2P Require Import Prelude.

(** * Registers *)

Definition I2C_SCL_LOW_PERIOD : Z := 0x00.
Definition I2C_CTR : Z := 0x04.
Definition I2C_TO : Z := 0x0c.
Definition I2C_FIFO_CONF : Z := 0x18.
Definition I2C_DATA : Z := 0x1c.
Definition I2C_INT_CLR : Z := 0x24.
Definition I2C_INT_ENA : Z := 0x28.
Definition I2C_SDA_HOLD : Z := 0x30.
Definition I2C_SDA_SAMPLE : Z := 0x34.
Definition I2C_SCL_HIGH_PERIOD : Z := 0x38.
Definition I2C_SCL_START_HOLD : Z := 0x40.
Definition I2C_SCL_RSTART_SETUP : Z := 0x44.
Definition I2C_SCL_STOP_HOLD : Z := 0x48.
Definition I2C_SCL_STOP_SETUP : Z := 0x4c.
Definition I2C_SCL_ST_TIME_OUT : Z := 0x78.
Definition I2C_SCL_MAIN_ST_TIME_OUT : Z := 0x7c.
Definition I2C_FILTER_CFG : Z := 0x50.
Definition I2C_COMD (n : Z) : Z := 0x58 + n * 4.
Definition I2C_SCL_SP_CONF : Z := 0x80.

Definition I2C_CTR_MS_MODE : Z := BIT 4.
Definition I2C_CTR_TRANS_START : Z := BIT 5.
Definition I2C_CTR_FSM_RST : Z := BIT 10.
Definition I2C_CTR_CONF_UPGATE : Z := BIT 11.
Definition I2C_TO_VALUE : Z := GENMASK 4 0.
Definition I2C_TO_EN : Z := BIT 5.
Definition I2C_FIFO_RX_RST : Z := BIT 12.
Definition I2C_FIFO_TX_RST : Z := BIT 13.
Definition I2C_SCL_WAIT_HIGH : Z := GENMASK 15 9.
Definition I2C_FILTER_SCL_THRES : Z := GENMASK 3 0.
Definition I2C_FILTER_SDA_THRES : Z := GENMASK 7 4.
Definition I2C_FILTER_SCL_EN : Z := BIT 8.
Definition I2C_FILTER_SDA_EN : Z := BIT 9.
Definition I2C_SCL_RST_SLV_EN : Z := BIT 0.
Definition I2C_SCL_RST_SLV_NUM : Z := GENMASK 5 1.
Definition I2C_INT_END_DETECT : Z := BIT 3.
Definition I2C_INT_ARB_LOST : Z := BIT 5.
Definition I2C_INT_TRANS_COMPLETE : Z := BIT 7.
Definition I2C_INT_TIME_OUT : Z := BIT 8.
Definition I2C_INT_NACK : Z := BIT 10.
Definition I2C_INT_SCL_ST_TO : Z := BIT 13.
Definition I2C_INT_SCL_MAIN_ST_TO : Z := BIT 14.
Definition I2C_INT_TIMEOUTS : Z := Z.lor (Z.lor I2C_INT_TIME_OUT I2C_INT_SCL_ST_TO) I2C_INT_SCL_MAIN_ST_TO.
Definition I2C_INT_MASK : Z :=
  Z.lor (Z.lor (Z.lor (Z.lor I2C_INT_END_DETECT I2C_INT_ARB_LOST) I2C_INT_TRANS_COMPLETE) I2C_INT_NACK) I2C_INT_TIMEOUTS.
Definition I2C_CMD_BYTES : Z := GENMASK 7 0.
Definition I2C_CMD_ACK_CHECK : Z := BIT 8.
Definition I2C_CMD_ACK_VALUE : Z := BIT 10.
Definition I2C_CMD_OP : Z := GENMASK 13 11.
Definition I2C_OP_WRITE : Z := 1.
Definition I2C_OP_STOP : Z := 2.
Definition I2C_OP_READ : Z := 3.
Definition I2C_OP_END : Z := 4.
Definition I2C_OP_RSTART : Z := 6.
Definition I2C_NCMDS : Z := 8.
Definition I2C_FIFO_SIZE : Z := 32.
Definition I2C_FILTER_CYCLES : Z := 7.

(** * State *)

(** [struct i2c_msg]; [m_rd] and [m_ten] are its flags I2C_M_RD and I2C_M_TEN,
    and [m_buf] has [len] bytes. *)
Record i2c_msg := I2cMsg { m_addr : Z; m_rd : bool; m_ten : bool; m_buf : list Z }.
Definition m_len (m : i2c_msg) : Z := zlen (m_buf m).

(** [struct esp32s31_i2c_rx]: the place is the message and the offset in it. *)
Record i2c_rx := I2cRx { rx_msg : Z; rx_off : Z; rx_len : Z }.

(** [nrx] is the length of [rx]. *)
Record i2c := I2c { msgs : list i2c_msg; msg : Z; pos : Z; addressed : bool; rx : list i2c_rx; err : Z }.
Definition num (i : i2c) : Z := zlen (msgs i).
Record i2c_batch := I2cBatch { b_cmd : Z; b_tx : Z; b_rx : Z }.

Abbreviation writes := (list (Z * Z)).

Section i2c.
(** [i2c_8bit_addr_from_msg()], of the address and the direction of a message. *)
Variable addr8 : Z -> bool -> Z.

(** * The command list *)

Definition i2c_cmd (n op bytes flags : Z) : writes :=
  [(I2C_COMD n, Z.lor (Z.lor (FIELD_PREP I2C_CMD_OP op) (FIELD_PREP I2C_CMD_BYTES bytes)) flags)].

Definition next_msg (i : i2c) : i2c := I2c (msgs i) (msg i + 1) 0 false (rx i) (err i).

(** The result of a queue function: [false] is [None]. *)
Definition queue_addr (i : i2c) (b : i2c_batch) (m : i2c_msg) : option (i2c * i2c_batch * writes) :=
  if (b_cmd b + 3 >? I2C_NCMDS - 1) || (b_tx b =? I2C_FIFO_SIZE) then None
  else Some (I2c (msgs i) (msg i) (pos i) true (rx i) (err i),
             I2cBatch (b_cmd b + 2) (b_tx b + 1) (b_rx b),
             i2c_cmd (b_cmd b) I2C_OP_RSTART 0 0 ++ [(I2C_DATA, addr8 (m_addr m) (m_rd m))] ++
             i2c_cmd (b_cmd b + 1) I2C_OP_WRITE 1 I2C_CMD_ACK_CHECK).

Definition queue_read (i : i2c) (b : i2c_batch) (m : i2c_msg) : option (i2c * i2c_batch * writes) :=
  let left := m_len m - pos i in
  let n := Z.min left (I2C_FIFO_SIZE - b_rx b) in
  let last := n =? left in
  let bulk := n - b2z last in
  if (n =? 0) || (b_cmd b + b2z (nz bulk) + b2z last >? I2C_NCMDS - 1) then None
  else
    let c := b_cmd b in
    Some (I2c (msgs i) (msg i) (pos i + n) (addressed i) (rx i ++ [I2cRx (msg i) (pos i) n]) (err i),
          I2cBatch (c + b2z (nz bulk) + b2z last) (b_tx b) (b_rx b + n),
          (if nz bulk then i2c_cmd c I2C_OP_READ bulk 0 else []) ++
          (if last then i2c_cmd (c + b2z (nz bulk)) I2C_OP_READ 1 I2C_CMD_ACK_VALUE else [])).

Definition queue_write (i : i2c) (b : i2c_batch) (m : i2c_msg) : option (i2c * i2c_batch * writes) :=
  let n := Z.min (m_len m - pos i) (I2C_FIFO_SIZE - b_tx b) in
  if (n =? 0) || (b_cmd b + 1 >? I2C_NCMDS - 1) then None
  else Some (I2c (msgs i) (msg i) (pos i + n) (addressed i) (rx i) (err i),
             I2cBatch (b_cmd b + 1) (b_tx b + n) (b_rx b),
             i2c_cmd (b_cmd b) I2C_OP_WRITE n I2C_CMD_ACK_CHECK ++
             ((fun x => (I2C_DATA, x)) <$> ztake n (zdrop (pos i) (m_buf m)))).

Definition queue (i : i2c) (b : i2c_batch) (m : i2c_msg) : option (i2c * i2c_batch * writes) :=
  if negb (addressed i) then queue_addr i b m
  else if m_rd m then queue_read i b m else queue_write i b m.

(** The loop, with the writes.  Each round but the last uses a command slot, so
    eight rounds are enough. *)
Fixpoint fill_loop (fuel : nat) (i : i2c) (b : i2c_batch) : option (i2c * i2c_batch * writes) :=
  match fuel with
  | O => None
  | S fuel =>
      match msgs i !! Z.to_nat (msg i) with
      | None => Some (i, b, [])
      | Some m =>
          match queue i b m with
          | None => Some (i, b, [])
          | Some (i, b, w) =>
              let i := if pos i =? m_len m then next_msg i else i in
              '(i, b, w') ← fill_loop fuel i b; Some (i, b, w ++ w')
          end
      end
  end.
Definition fill (i : i2c) : option (i2c * writes) :=
  let i := I2c (msgs i) (msg i) (pos i) (addressed i) [] (err i) in
  '(i, b, w) ← fill_loop 8 i (I2cBatch 0 0 0);
  Some (i, w ++ i2c_cmd (b_cmd b) (if msg i <? num i then I2C_OP_END else I2C_OP_STOP) 0 0).

(** [ctr] is what I2C_CTR reads. *)
Definition start (ctr : Z) : writes := [(I2C_CTR, Z.lor ctr I2C_CTR_TRANS_START)].

(** * Received bytes *)

(** [rx[i].buf[j] = v]. *)
Definition store_rx (ms : list i2c_msg) (r : i2c_rx) (d : list Z) : option (list i2c_msg) :=
  m ← ms !! Z.to_nat (rx_msg r);
  b ← blit (m_buf m) (rx_off r) d;
  Some (<[Z.to_nat (rx_msg r) := I2cMsg (m_addr m) (m_rd m) (m_ten m) b]> ms).
(** The bytes that I2C_DATA reads are [data]; the rest stays in the FIFO. *)
Fixpoint drain_loop (rs : list i2c_rx) (ms : list i2c_msg) (data : list Z) : option (list i2c_msg * list Z) :=
  match rs with
  | [] => Some (ms, data)
  | r :: rs =>
      d ← slice data 0 (rx_len r);
      ms ← store_rx ms r d;
      drain_loop rs ms (zdrop (rx_len r) data)
  end.
Definition drain (i : i2c) (data : list Z) : option (i2c * list Z) :=
  '(ms, rest) ← drain_loop (rx i) (msgs i) data;
  Some (I2c ms (msg i) (pos i) (addressed i) [] (err i), rest).

(** * The interrupt handler *)

(** [None] is an access outside of a buffer; the flag is complete(&done). *)
Definition irq (i : i2c) (status ctr : Z) (data : list Z) : option (i2c * writes * bool) :=
  if status =? 0 then Some (i, [], false)
  else
    let w := [(I2C_INT_CLR, status)] in
    let e := if nz (Z.land status I2C_INT_NACK) then - ENXIO
             else if nz (Z.land status I2C_INT_ARB_LOST) then - EAGAIN
             else if nz (Z.land status I2C_INT_TIMEOUTS) then - ETIMEDOUT else err i in
    let i := I2c (msgs i) (msg i) (pos i) (addressed i) (rx i) e in
    if (e =? 0) && nz (Z.land status I2C_INT_END_DETECT) then
      '(i, _) ← drain i data;
      '(i, w') ← fill i;
      Some (i, w ++ w' ++ start ctr, false)
    else if nz e || nz (Z.land status I2C_INT_TRANS_COMPLETE) then
      '(i, _) ← (if e =? 0 then drain i data else Some (i, data));
      Some (i, w ++ [(I2C_INT_ENA, 0)], true)
    else Some (i, w, false).

(** * Set up *)

Definition reset_fifos (conf : Z) : writes :=
  let m := Z.lor I2C_FIFO_RX_RST I2C_FIFO_TX_RST in
  [(I2C_FIFO_CONF, Z.lor (Z.lor conf I2C_FIFO_RX_RST) I2C_FIFO_TX_RST); (I2C_FIFO_CONF, Z.land conf (not32 m))].

Definition order_base_2 (n : Z) : Z := Z.log2_up n.
Definition set_timing (rate bus_freq : Z) : writes :=
  let half := u32 (DIV_ROUND_UP rate (u32 (2 * bus_freq))) in
  let wait := if bus_freq >=? 80000 then u32 (half / 2 - 2) else half / 4 in
  [(I2C_SCL_LOW_PERIOD, u32 (half - 1));
   (I2C_SCL_HIGH_PERIOD, Z.lor (u32 (half - wait)) (FIELD_PREP I2C_SCL_WAIT_HIGH wait));
   (I2C_SDA_HOLD, u32 (half / 4 - 1));
   (I2C_SDA_SAMPLE, u32 (half / 2 - 1));
   (I2C_SCL_START_HOLD, u32 (half - 1));
   (I2C_SCL_RSTART_SETUP, u32 (half - 1));
   (I2C_SCL_STOP_HOLD, u32 (half - 1));
   (I2C_SCL_STOP_SETUP, u32 (half - 1));
   (I2C_TO, Z.lor (FIELD_PREP I2C_TO_VALUE (Z.min (order_base_2 (rate / 400)) 31)) I2C_TO_EN);
   (I2C_SCL_ST_TIME_OUT, 23);
   (I2C_SCL_MAIN_ST_TIME_OUT, 23)].

(** [rst] is the result of the two reset calls, [idle] that of the poll. *)
Definition init (rate bus_freq rst idle : Z) (clear_bus : bool) : Z * writes :=
  if nz rst then (rst, [])
  else
    let w :=
      [(I2C_CTR, I2C_CTR_MS_MODE);
       (I2C_FILTER_CFG,
         Z.lor (Z.lor (Z.lor (FIELD_PREP I2C_FILTER_SCL_THRES I2C_FILTER_CYCLES)
                             (FIELD_PREP I2C_FILTER_SDA_THRES I2C_FILTER_CYCLES)) I2C_FILTER_SCL_EN) I2C_FILTER_SDA_EN)] ++
      set_timing rate bus_freq ++
      [(I2C_INT_CLR, I2C_INT_MASK); (I2C_INT_ENA, 0); (I2C_CTR, Z.lor I2C_CTR_MS_MODE I2C_CTR_CONF_UPGATE)] in
    if negb clear_bus then (0, w)
    else (idle, w ++ [(I2C_SCL_SP_CONF, Z.lor I2C_SCL_RST_SLV_EN (FIELD_PREP I2C_SCL_RST_SLV_NUM 9));
                      (I2C_CTR, Z.lor I2C_CTR_MS_MODE I2C_CTR_CONF_UPGATE)]).

(** xfer() up to its wait: the error without one, or the running transfer. *)
Definition xfer_start (ms : list i2c_msg) (conf ctr : Z) : option (Z + i2c * writes) :=
  if existsb m_ten ms then Some (inl (- EOPNOTSUPP))
  else
    let i := I2c ms 0 0 false [] 0 in
    '(i, w) ← fill i;
    Some (inr (i, reset_fifos conf ++ [(I2C_INT_CLR, I2C_INT_MASK)] ++ w ++ [(I2C_INT_ENA, I2C_INT_MASK)] ++ start ctr)).
(** What comes after the wait, [done] or its timeout. *)
Definition xfer_end (i : i2c) (done : bool) (ctr rate bus_freq rst idle : Z) : Z * writes :=
  let e := if done then err i else - ETIMEDOUT in
  let w := if done then [] else [(I2C_INT_ENA, 0)] in
  let w' := if e =? - ENXIO then [(I2C_CTR, Z.lor ctr I2C_CTR_FSM_RST)]
            else if nz e then snd (init rate bus_freq rst idle true) else [] in
  (if nz e then e else num i, w ++ w').

(** The clock that probe() takes. *)
Definition probe_rate_ok (bus_freq rate : Z) : bool :=
  (0 <? bus_freq) && (bus_freq <=? 1000000) && negb ((rate <? bus_freq * 8) || (rate >? bus_freq * 1023)).
End i2c.

(** * The bus *)

(** What goes over the bus: a start, a byte that must be acknowledged, a byte
    of the target with our acknowledgement or without it, a stop. *)
Inductive sym := SStart | STx (checked : bool) (b : Z) | SRx (ack : bool) | SStop.

(** A command list with the bytes of the TX FIFO; [None] when the list does not
    end with END or STOP, or needs more or fewer bytes than the FIFO has. *)
Fixpoint bus (cmds tx : list Z) : option (list sym) :=
  match cmds with
  | [] => None
  | v :: cmds =>
      let op := FIELD_GET I2C_CMD_OP v in
      let n := FIELD_GET I2C_CMD_BYTES v in
      if op =? I2C_OP_RSTART then s ← bus cmds tx; Some (SStart :: s)
      else if op =? I2C_OP_WRITE then
        t ← slice tx 0 n; s ← bus cmds (zdrop n tx); Some ((STx (Z.testbit v 8) <$> t) ++ s)
      else if op =? I2C_OP_READ then
        s ← bus cmds tx; Some (replicate (Z.to_nat n) (SRx (negb (Z.testbit v 10))) ++ s)
      else if op =? I2C_OP_END then match cmds, tx with [], [] => Some [] | _, _ => None end
      else if op =? I2C_OP_STOP then match cmds, tx with [], [] => Some [SStop] | _, _ => None end
      else None
  end.

Definition is_cmd (x : Z * Z) : bool := (I2C_COMD 0 <=? fst x) && (fst x <? I2C_COMD 8).
Definition cmds_of (w : writes) : list (Z * Z) := List.filter is_cmd w.
Definition tx_of (w : writes) : list Z := snd <$> List.filter (fun x => fst x =? I2C_DATA) w.
Definition bus_of (w : writes) : option (list sym) := bus (snd <$> cmds_of w) (tx_of w).

(** What messages mean on the bus. *)
Definition reads (n : Z) : list sym :=
  if n =? 0 then [] else replicate (Z.to_nat (n - 1)) (SRx true) ++ [SRx false].
Definition data_syms (m : i2c_msg) (off : Z) : list sym :=
  if m_rd m then reads (m_len m - off) else STx true <$> zdrop off (m_buf m).
Section spec.
Variable addr8 : Z -> bool -> Z.
Definition msg_syms (m : i2c_msg) : list sym := SStart :: STx true (addr8 (m_addr m) (m_rd m)) :: data_syms m 0.
Definition transfer_syms (ms : list i2c_msg) : list sym := mjoin (msg_syms <$> ms) ++ [SStop].
(** What is left of a transfer. *)
Definition left_syms (i : i2c) : list sym :=
  match drop (Z.to_nat (msg i)) (msgs i) with
  | [] => [SStop]
  | m :: ms => (if addressed i then data_syms m (pos i) else msg_syms m) ++ transfer_syms ms
  end.

Record i_ok (i : i2c) : Prop := {
  iok_msg : 0 <= msg i <= num i;
  iok_pos : match msgs i !! Z.to_nat (msg i) with
            | Some m => if addressed i then 0 <= pos i < m_len m else pos i = 0
            | None => pos i = 0 /\ addressed i = false
            end }.
Definition batch_ok (b : i2c_batch) : Prop :=
  0 <= b_cmd b <= 7 /\ 0 <= b_tx b <= I2C_FIFO_SIZE /\ 0 <= b_rx b <= I2C_FIFO_SIZE.
End spec.

(** A command word and its fields. *)
Lemma cmd_fields op n f :
  In op [1; 2; 3; 4; 6] -> 0 <= n <= 32 -> In f [0; I2C_CMD_ACK_CHECK; I2C_CMD_ACK_VALUE] ->
  let v := Z.lor (Z.lor (FIELD_PREP I2C_CMD_OP op) (FIELD_PREP I2C_CMD_BYTES n)) f in
  FIELD_GET I2C_CMD_OP v = op /\ FIELD_GET I2C_CMD_BYTES v = n /\
  Z.testbit v 8 = (f =? I2C_CMD_ACK_CHECK) /\ Z.testbit v 10 = (f =? I2C_CMD_ACK_VALUE).
Proof.
  intros Ho Hn Hf. cbv zeta.
  set (Q := fun op f n => let v := Z.lor (Z.lor (FIELD_PREP I2C_CMD_OP op) (FIELD_PREP I2C_CMD_BYTES n)) f in
    (FIELD_GET I2C_CMD_OP v =? op) && (FIELD_GET I2C_CMD_BYTES v =? n) &&
    Bool.eqb (Z.testbit v 8) (f =? I2C_CMD_ACK_CHECK) && Bool.eqb (Z.testbit v 10) (f =? I2C_CMD_ACK_VALUE)).
  assert (forallb (fun op => forallb (fun f => forallb (Q op f) (seqZ 0 33))
    [0; I2C_CMD_ACK_CHECK; I2C_CMD_ACK_VALUE]) [1; 2; 3; 4; 6] = true) as H by (vm_compute; reflexivity).
  rewrite forallb_forall in H. specialize (H op ltac:(done)).
  rewrite forallb_forall in H. specialize (H f ltac:(done)).
  rewrite forallb_forall in H. specialize (H n ltac:(apply list_elem_of_In, elem_of_seqZ; lia)).
  unfold Q in H. bool_prop. apply eqb_prop in H0, H1. done.
Qed.

Lemma cmds_of_app w w' : cmds_of (w ++ w') = cmds_of w ++ cmds_of w'.
Proof. apply List.filter_app. Qed.
Lemma tx_of_app w w' : tx_of (w ++ w') = tx_of w ++ tx_of w'.
Proof. unfold tx_of. rewrite List.filter_app. apply fmap_app. Qed.
Lemma cmds_of_cmd n op bytes f : 0 <= n <= 7 -> cmds_of (i2c_cmd n op bytes f) = i2c_cmd n op bytes f.
Proof.
  intros Hn. unfold cmds_of, i2c_cmd. cbn [List.filter is_cmd fst]. unfold is_cmd, I2C_COMD. cbn [fst].
  rewrite (proj2 (Z.leb_le _ _)), (proj2 (Z.ltb_lt _ _)) by lia. done.
Qed.
Lemma tx_of_cmd n op bytes f : 0 <= n <= 7 -> tx_of (i2c_cmd n op bytes f) = [].
Proof.
  intros Hn. unfold tx_of, i2c_cmd. cbn [List.filter fst]. unfold I2C_COMD, I2C_DATA.
  rewrite (proj2 (Z.eqb_neq _ _)) by lia. done.
Qed.
Lemma cmds_of_data d : cmds_of ((fun x => (I2C_DATA, x)) <$> d) = [].
Proof. induction d as [|x d IH]; [done|]. cbn [fmap list_fmap]. unfold cmds_of in *. cbn. exact IH. Qed.
Lemma tx_of_data d : tx_of ((fun x => (I2C_DATA, x)) <$> d) = d.
Proof. induction d as [|x d IH]; [done|]. unfold tx_of in *. cbn. by rewrite IH. Qed.

Lemma i_ok_current i m : i_ok i -> msgs i !! Z.to_nat (msg i) = Some m ->
  msg i < num i /\ (if addressed i then 0 <= pos i < m_len m else pos i = 0) /\
  drop (Z.to_nat (msg i)) (msgs i) = m :: drop (Z.to_nat (msg i + 1)) (msgs i).
Proof.
  intros [H1 H2] E. rewrite E in H2. split_and!; [|done|].
  - apply lookup_lt_Some in E. unfold num, zlen in *. lia.
  - rewrite (drop_S _ _ _ E). do 2 f_equal. lia.
Qed.

Ltac in_tac := cbn; intuition.

(** Commands and FIFO bytes that put [p] before the rest of a list, in the
    slots from [c0] to [c1]. *)
Definition emits (cs : writes) (t : list Z) (c0 c1 : Z) (p : list sym) : Prop :=
  fst <$> cs = I2C_COMD <$> seqZ c0 (c1 - c0) /\ c0 <= c1 /\
  forall c t' s, bus c t' = Some s -> bus ((snd <$> cs) ++ c) (t ++ t') = Some (p ++ s).

Lemma emits_nil c : emits [] [] c c [].
Proof. split; [|split; [lia|done]]. by rewrite Z.sub_diag. Qed.
Lemma emits_app cs cs' t t' c0 c1 c2 p p' :
  emits cs t c0 c1 p -> emits cs' t' c1 c2 p' -> emits (cs ++ cs') (t ++ t') c0 c2 (p ++ p').
Proof.
  intros (H1 & L1 & B1) (H2 & L2 & B2). split; [|split; [lia|]].
  - rewrite fmap_app, H1, H2, <- fmap_app. f_equal.
    replace (c2 - c0) with ((c1 - c0) + (c2 - c1)) by lia. rewrite seqZ_app by lia. do 2 f_equal. lia.
  - intros c k s H. rewrite fmap_app, <- !app_assoc. apply B1, B2, H.
Qed.
Lemma seqZ_one c : seqZ c (c + 1 - c) = [c].
Proof. replace (c + 1 - c) with 1 by lia. unfold seqZ. cbn. f_equal; lia. Qed.
Lemma emits_start c : emits (i2c_cmd c I2C_OP_RSTART 0 0) [] c (c + 1) [SStart].
Proof.
  split; [by rewrite seqZ_one|]. split; [lia|]. intros cs t s H.
  unfold i2c_cmd. cbn [fmap list_fmap fst snd app bus].
  destruct (cmd_fields I2C_OP_RSTART 0 0) as (-> & -> & _); [vm_compute; auto 10|lia|in_tac|].
  cbn [Z.eqb Pos.eqb I2C_OP_RSTART]. rewrite H. done.
Qed.
Lemma emits_write c d : zlen d <= 32 ->
  emits (i2c_cmd c I2C_OP_WRITE (zlen d) I2C_CMD_ACK_CHECK) d c (c + 1) (STx true <$> d).
Proof.
  intros Hd. pose proof (zlen_nonneg d). split; [by rewrite seqZ_one|]. split; [lia|]. intros cs t s H'.
  unfold i2c_cmd. cbn [fmap list_fmap fst snd app bus].
  destruct (cmd_fields I2C_OP_WRITE (zlen d) I2C_CMD_ACK_CHECK) as (-> & -> & -> & _); [vm_compute; auto 10|lia|in_tac|].
  cbn [Z.eqb Pos.eqb I2C_OP_WRITE I2C_OP_RSTART]. rewrite slice_Some by llia. rewrite zdrop_0.
  cbn [mbind option_bind]. rewrite ztake_app_len, zdrop_app_len by done. rewrite H'. done.
Qed.
Lemma emits_read c n f : 0 <= n <= 32 -> f = 0 \/ f = I2C_CMD_ACK_VALUE ->
  emits (i2c_cmd c I2C_OP_READ n f) [] c (c + 1) (replicate (Z.to_nat n) (SRx (f =? 0))).
Proof.
  intros Hn Hf. split; [by rewrite seqZ_one|]. split; [lia|]. intros cs t s H.
  unfold i2c_cmd. cbn [fmap list_fmap fst snd app bus].
  destruct (cmd_fields I2C_OP_READ n f) as (-> & -> & _ & ->); [vm_compute; auto 10|lia|in_tac|].
  cbn [Z.eqb Pos.eqb I2C_OP_READ I2C_OP_WRITE I2C_OP_RSTART]. rewrite H. cbn [mbind option_bind].
  destruct Hf as [->| ->]; done.
Qed.
Lemma bus_end c f : f = I2C_OP_END \/ f = I2C_OP_STOP ->
  bus (snd <$> i2c_cmd c f 0 0) [] = Some (if f =? I2C_OP_END then [] else [SStop]).
Proof. intros [->| ->]; reflexivity. Qed.

(** The bytes that are received. *)
Definition count_rx (p : list sym) : Z :=
  zlen (List.filter (fun x => match x with SRx _ => true | _ => false end) p).
Lemma count_rx_app p q : count_rx (p ++ q) = count_rx p + count_rx q.
Proof. unfold count_rx. by rewrite List.filter_app, zlen_app. Qed.
Lemma count_rx_tx d : count_rx (STx true <$> d) = 0.
Proof. unfold count_rx. induction d as [|x d IH]; [done|]. exact IH. Qed.
Lemma count_rx_rep n a : count_rx (replicate n (SRx a)) = Z.of_nat n.
Proof.
  induction n as [|n IH]; [done|]. change (count_rx ([SRx a] ++ replicate n (SRx a)) = Z.of_nat (S n)).
  rewrite count_rx_app, IH. change (count_rx [SRx a]) with 1. lia.
Qed.
Lemma count_rx_reads k : 0 <= k -> count_rx (reads k) = k.
Proof.
  intros H. unfold reads. destruct (Z.eqb_spec k 0) as [->|]; [done|]. rewrite count_rx_app, count_rx_rep.
  change (count_rx [SRx false]) with 1. lia.
Qed.

(** Reading [n] of [k] bytes. *)
Lemma reads_cut k n : 0 < n < k -> reads k = replicate (Z.to_nat n) (SRx true) ++ reads (k - n).
Proof.
  intros H. unfold reads. rewrite (proj2 (Z.eqb_neq k 0)), (proj2 (Z.eqb_neq (k - n) 0)) by lia.
  rewrite app_assoc, <- replicate_add. do 2 f_equal. lia.
Qed.

(** * Where the received bytes go *)

Definition set_buf (m : i2c_msg) (b : list Z) : i2c_msg := I2cMsg (m_addr m) (m_rd m) (m_ten m) b.
Definition rx_total (rs : list i2c_rx) : Z := foldr (fun r n => rx_len r + n) 0 rs.
(** The messages with the received bytes [d] in their reads, in order. *)
Fixpoint fill_all (ms : list i2c_msg) (d : list Z) : list i2c_msg :=
  match ms with
  | [] => []
  | m :: ms =>
      if m_rd m then set_buf m (ztake (m_len m) d) :: fill_all ms (zdrop (m_len m) d) else m :: fill_all ms d
  end.
(** The same from byte [p] of message [k] on. *)
Definition fill_from (k : nat) (p : Z) (ms : list i2c_msg) (d : list Z) : list i2c_msg :=
  match drop k ms with
  | [] => ms
  | m :: post =>
      take k ms ++
      if m_rd m then set_buf m (ztake p (m_buf m) ++ ztake (m_len m - p) d) :: fill_all post (zdrop (m_len m - p) d)
      else m :: fill_all post d
  end.

(** Equal but for the bytes of the reads. *)
Definition same_msg (m m' : i2c_msg) : Prop :=
  m_addr m' = m_addr m /\ m_rd m' = m_rd m /\ m_ten m' = m_ten m /\ m_len m' = m_len m /\
  (m_rd m = false -> m_buf m' = m_buf m).
Definition same_msgs : list i2c_msg -> list i2c_msg -> Prop := Forall2 same_msg.

Lemma same_msg_refl m : same_msg m m.
Proof. done. Qed.
Lemma same_msg_trans m1 m2 m3 : same_msg m1 m2 -> same_msg m2 m3 -> same_msg m1 m3.
Proof.
  intros (A1 & A2 & A3 & A4 & A5) (B1 & B2 & B3 & B4 & B5). split_and!; try congruence.
  intros H. rewrite B5 by congruence. by apply A5.
Qed.
Lemma same_msgs_refl ms : same_msgs ms ms.
Proof. unfold same_msgs. induction ms; constructor; [apply same_msg_refl|done]. Qed.
Lemma same_msgs_trans l1 l2 l3 : same_msgs l1 l2 -> same_msgs l2 l3 -> same_msgs l1 l3.
Proof.
  unfold same_msgs. intros H. revert l3. induction H as [|x y l k Hxy _ IH]; intros l3 H3.
  - by inversion H3.
  - inversion H3 as [|y' z k' l3' Hyz Hk]; subst. constructor; [by eapply same_msg_trans|by apply IH].
Qed.
Lemma same_msgs_lookup ms ms' k m : same_msgs ms ms' -> ms !! k = Some m ->
  exists m', ms' !! k = Some m' /\ same_msg m m'.
Proof. intros H E. destruct (Forall2_lookup_l _ _ _ _ _ H E) as (m' & ? & ?). by exists m'. Qed.

Lemma fill_from_0 ms d : fill_from 0 0 ms d = fill_all ms d.
Proof.
  unfold fill_from. rewrite drop_0. destruct ms as [|m ms]; [done|]. cbn [take app fill_all].
  rewrite ztake_0, Z.sub_0_r. done.
Qed.
Lemma drop_lookup (ms : list i2c_msg) k m : ms !! k = Some m -> drop k ms = m :: drop (S k) ms.
Proof. intros E. by apply drop_S. Qed.
Lemma fill_from_write ms k m p p' d :
  ms !! k = Some m -> m_rd m = false -> fill_from k p ms d = fill_from k p' ms d.
Proof. intros E R. unfold fill_from. by rewrite (drop_lookup _ _ _ E), R. Qed.
Lemma fill_from_next ms k m p d :
  ms !! k = Some m -> p = m_len m -> fill_from k p ms d = fill_from (S k) 0 ms d.
Proof.
  intros E ->. unfold fill_from. rewrite (drop_lookup _ _ _ E), Z.sub_diag, ztake_0, zdrop_0, app_nil_r.
  rewrite (ztake_ge (m_len m) (m_buf m)) by (unfold m_len; lia).
  assert (set_buf m (m_buf m) = m) as -> by (by destruct m).
  assert (forall (x : list i2c_msg), take k ms ++ m :: x = take (S k) ms ++ x) as X.
  { intros x. rewrite (take_S_r _ _ _ E), <- app_assoc. done. }
  replace (if m_rd m then m :: fill_all (drop (S k) ms) d else m :: fill_all (drop (S k) ms) d)
    with (m :: fill_all (drop (S k) ms) d) by (by destruct (m_rd m)).
  rewrite X. destruct (drop (S k) ms) as [|m' post] eqn:D.
  - cbn. rewrite app_nil_r. rewrite <- (app_nil_r (take (S k) ms)), <- D. apply take_drop.
  - rewrite ztake_0, Z.sub_0_r. done.
Qed.
Lemma store_rx_ok ms k m p n d :
  ms !! Z.to_nat k = Some m -> m_rd m = true -> 0 <= p -> 0 <= n -> p + n <= m_len m -> n <= zlen d ->
  exists ms', store_rx ms (I2cRx k p n) (ztake n d) = Some ms' /\ same_msgs ms ms' /\
    fill_from (Z.to_nat k) p ms d = fill_from (Z.to_nat k) (p + n) ms' (zdrop n d).
Proof.
  intros E R Hp Hn Hl Hd. unfold store_rx. cbn [rx_msg rx_off]. rewrite E. cbn [mbind option_bind].
  assert (zlen (ztake n d) = n) as Ln by llia. unfold m_len in Hl.
  destruct (blit (m_buf m) p (ztake n d)) as [b|] eqn:B; [|rewrite blit_Some in B; [done|lia|lia]].
  cbn [mbind option_bind]. pose proof (blit_len _ _ _ _ B) as Lb. pose proof (blit_append _ _ _ _ B) as T.
  rewrite Ln in T. set (m' := I2cMsg _ _ _ b). eexists. split; [done|].
  pose proof (lookup_lt_Some _ _ _ E) as Hlt. split.
  - unfold same_msgs. apply Forall2_lookup. intros j. destruct (decide (j = Z.to_nat k)) as [->|Ne].
    + rewrite E, list_lookup_insert_eq by done. constructor. unfold same_msg, m_len, m'. cbn.
      split_and!; try done. by rewrite R.
    + rewrite list_lookup_insert_ne by done. destruct (ms !! j); constructor. apply same_msg_refl.
  - unfold fill_from. rewrite (drop_lookup _ _ _ E).
    rewrite (drop_lookup (<[Z.to_nat k:=m']> ms) (Z.to_nat k) m') by (by apply list_lookup_insert_eq).
    rewrite take_insert_ge by lia. rewrite drop_insert_lt by lia.
    change (m_rd m') with (m_rd m). rewrite R. change (m_buf m') with b.
    assert (m_len m' = m_len m) as -> by done. rewrite T.
    replace (m_len m - (p + n)) with (m_len m - p - n) by lia. unfold m_len in *.
    f_equal. f_equal.
    + unfold set_buf. cbn. f_equal. rewrite <- app_assoc. f_equal.
      replace (zlen (m_buf m) - p) with (n + (zlen (m_buf m) - p - n)) at 1 by lia. by rewrite ztake_add by lia.
    + f_equal. rewrite zdrop_zdrop by lia. f_equal. lia.
Qed.

(** From [i] to [i'] [n] bytes are received, and draining puts them where they
    belong. *)
Definition rx_ok (i i' : i2c) (n : Z) : Prop :=
  exists rs, rx i' = rx i ++ rs /\ rx_total rs = n /\ 0 <= n /\
    forall ms d, same_msgs (msgs i) ms -> rx_total rs <= zlen d ->
      exists ms', drain_loop rs ms d = Some (ms', zdrop (rx_total rs) d) /\ same_msgs ms ms' /\
        fill_from (Z.to_nat (msg i)) (pos i) ms d =
          fill_from (Z.to_nat (msg i')) (pos i') ms' (zdrop (rx_total rs) d).

Section steps.
Variable addr8 : Z -> bool -> Z.

(** A part of the list: the progress that every queue function makes. *)
Record step_ok (i : i2c) (b : i2c_batch) (i' : i2c) (b' : i2c_batch) (w : writes) : Prop := {
  so_msgs : msgs i' = msgs i /\ err i' = err i;
  so_batch : batch_ok b' /\ b_cmd b < b_cmd b';
  so_ok : i_ok i';
  so_syms : exists p, p <> [] /\ left_syms addr8 i = p ++ left_syms addr8 i' /\
    emits (cmds_of w) (tx_of w) (b_cmd b) (b_cmd b') p /\ count_rx p = b_rx b' - b_rx b;
  so_tx : zlen (tx_of w) = b_tx b' - b_tx b;
  so_rx : rx_ok i i' (b_rx b' - b_rx b) }.

Definition advance (i : i2c) (m : i2c_msg) : i2c := if pos i =? m_len m then next_msg i else i.

(** The state after [n] bytes of the data of the current message. *)
Lemma advance_left i m n r :
  i_ok i -> msgs i !! Z.to_nat (msg i) = Some m -> 0 <= n ->
  (if addressed i then 0 < n else n = 0) -> pos i + n <= m_len m ->
  let i' := advance (I2c (msgs i) (msg i) (pos i + n) true r (err i)) m in
  i_ok i' /\ left_syms addr8 i' = data_syms m (pos i + n) ++ transfer_syms addr8 (drop (Z.to_nat (msg i + 1)) (msgs i)).
Proof.
  intros Hi E Hn Hn' Hl. destruct (i_ok_current i m Hi E) as (M1 & M2 & M3). cbv zeta. unfold advance.
  cbn [pos]. pose proof Hi as [I1 I2].
  destruct (Z.eqb_spec (pos i + n) (m_len m)) as [E1|E1].
  - split.
    + constructor; unfold next_msg, num in *; cbn [msgs msg pos addressed] in *; [lia|].
      destruct (msgs i !! Z.to_nat (msg i + 1)); done.
    + unfold left_syms, next_msg. cbn [msgs msg pos addressed].
      assert (data_syms m (pos i + n) = []) as ->.
      { unfold data_syms, reads. rewrite E1, Z.sub_diag. destruct (m_rd m); [done|].
        rewrite zdrop_ge; [done|unfold m_len; lia]. }
      cbn [app]. destruct (drop (Z.to_nat (msg i + 1)) (msgs i)) as [|m' ms]; [done|].
      unfold transfer_syms. cbn [fmap list_fmap mjoin list_join]. by rewrite <- app_assoc.
  - split.
    + constructor; cbn [msgs msg pos addressed]; [unfold num in *; cbn [msgs]; lia|]. rewrite E.
      assert (0 <= pos i) by (destruct (addressed i); lia). lia.
    + unfold left_syms. cbn [msgs msg pos addressed]. by rewrite M3.
Qed.

(** The place after [n] bytes, as [advance] takes it. *)
Lemma advance_place i m n r ms d :
  i_ok i -> msgs i !! Z.to_nat (msg i) = Some m -> same_msgs (msgs i) ms ->
  let i' := advance (I2c (msgs i) (msg i) (pos i + n) true r (err i)) m in
  fill_from (Z.to_nat (msg i)) (pos i + n) ms d = fill_from (Z.to_nat (msg i')) (pos i') ms d.
Proof.
  intros Hi E Hs. cbv zeta. unfold advance. cbn [pos].
  destruct (Z.eqb_spec (pos i + n) (m_len m)) as [E1|E1]; [|done].
  destruct (same_msgs_lookup _ _ _ _ Hs E) as (m' & E' & (_ & _ & _ & L & _)). pose proof (iok_msg _ Hi).
  unfold next_msg. cbn [msg pos]. rewrite (fill_from_next _ _ _ _ _ E') by congruence.
  replace (Z.to_nat (msg i + 1)) with (S (Z.to_nat (msg i))) by lia. done.
Qed.
(** A step without received bytes. *)
Lemma advance_no_rx i m n r :
  i_ok i -> msgs i !! Z.to_nat (msg i) = Some m -> n = 0 \/ m_rd m = false -> r = rx i ->
  let i' := advance (I2c (msgs i) (msg i) (pos i + n) true r (err i)) m in
  rx_ok i i' 0.
Proof.
  intros Hi E Hn ->. cbv zeta. exists []. split; [rewrite app_nil_r; unfold advance; by if_goal|]. split; [done|]. split; [done|].
  intros ms d Hs _. exists ms. split; [done|]. split; [apply same_msgs_refl|]. cbn [rx_total foldr]. rewrite zdrop_0.
  rewrite <- (advance_place i m n (rx i) ms d Hi E Hs).
  destruct Hn as [->|R]; [by rewrite Z.add_0_r|].
  destruct (same_msgs_lookup _ _ _ _ Hs E) as (m' & E' & (_ & R' & _)).
  apply (fill_from_write _ _ _ _ _ _ E'). congruence.
Qed.

Lemma queue_addr_step i b m :
  i_ok i -> batch_ok b -> msgs i !! Z.to_nat (msg i) = Some m -> addressed i = false ->
  match queue_addr addr8 i b m with
  | None => b_cmd b <> 0 \/ b_tx b <> 0
  | Some (i', b', w) => step_ok i b (advance i' m) b' w
  end.
Proof.
  intros Hi (B1 & B2 & B3) E Ea. destruct (i_ok_current i m Hi E) as (M1 & M2 & M3). rewrite Ea in M2.
  unfold queue_addr, I2C_NCMDS, I2C_FIFO_SIZE in *.
  destruct ((b_cmd b + 3 >? 8 - 1) || (b_tx b =? 32)) eqn:C.
  { apply orb_prop in C as [C|C]; bool_prop; lia. }
  bool_prop. pose proof (zlen_nonneg (m_buf m)).
  destruct (advance_left i m 0 (rx i) Hi E ltac:(lia)) as [O L]; [by rewrite Ea|unfold m_len; lia|].
  rewrite Z.add_0_r in O, L.
  constructor.
  - unfold advance. by if_goal.
  - cbn [b_cmd b_tx b_rx]. unfold batch_ok, I2C_FIFO_SIZE. cbn. lia.
  - exact O.
  - exists [SStart; STx true (addr8 (m_addr m) (m_rd m))]. split; [done|]. split; [|split; [|cbn [b_rx]; rewrite Z.sub_diag; done]].
    + rewrite L. unfold left_syms. rewrite M3, Ea, M2. done.
    + rewrite !cmds_of_app, !tx_of_app, !cmds_of_cmd, !tx_of_cmd by lia. cbn [b_cmd].
      change (cmds_of [(I2C_DATA, addr8 (m_addr m) (m_rd m))]) with (@nil (Z * Z)).
      change (tx_of [(I2C_DATA, addr8 (m_addr m) (m_rd m))]) with [addr8 (m_addr m) (m_rd m)]. cbn [app].
      change [SStart; STx true (addr8 (m_addr m) (m_rd m))] with ([SStart] ++ (STx true <$> [addr8 (m_addr m) (m_rd m)])).
      replace (b_cmd b + 2) with (b_cmd b + 1 + 1) by lia.
      apply (emits_app _ _ [] [addr8 (m_addr m) (m_rd m)] _ (b_cmd b + 1)); [apply emits_start|].
      apply (emits_write (b_cmd b + 1) [addr8 (m_addr m) (m_rd m)]). vm_compute. congruence.
  - rewrite !tx_of_app, !tx_of_cmd by lia. cbn [b_tx]. match goal with |- zlen ?l = _ => change (zlen l) with 1 end. lia.
  - rewrite Z.sub_diag. pose proof (advance_no_rx i m 0 (rx i) Hi E ltac:(by left) eq_refl) as X.
    by rewrite Z.add_0_r in X.
Qed.

Lemma queue_write_step i b m :
  i_ok i -> batch_ok b -> msgs i !! Z.to_nat (msg i) = Some m -> addressed i = true -> m_rd m = false ->
  match queue_write i b m with
  | None => b_cmd b <> 0 \/ b_tx b <> 0
  | Some (i', b', w) => step_ok i b (advance i' m) b' w
  end.
Proof.
  intros Hi (B1 & B2 & B3) E Ea Er. destruct (i_ok_current i m Hi E) as (M1 & M2 & M3). rewrite Ea in M2.
  unfold queue_write, I2C_NCMDS, I2C_FIFO_SIZE in *.
  set (n := Z.min (m_len m - pos i) (32 - b_tx b)).
  destruct ((n =? 0) || (b_cmd b + 1 >? 8 - 1)) eqn:C.
  { apply orb_prop in C as [C|C]; bool_prop; subst n; lia. }
  bool_prop. assert (0 < n <= m_len m - pos i /\ n <= 32 - b_tx b) as (N1 & N2) by (subst n; lia). set (d := ztake n (zdrop (pos i) (m_buf m))).
  assert (zlen d = n) as Ld by (unfold d, m_len in *; rewrite zlen_ztake, zlen_zdrop by lia; lia).
  destruct (advance_left i m n (rx i) Hi E ltac:(lia)) as [O L]; [rewrite Ea; lia|lia|]. rewrite <- Ea in O, L.
  constructor.
  - unfold advance. by if_goal.
  - unfold batch_ok, I2C_FIFO_SIZE. cbn. lia.
  - exact O.
  - exists (STx true <$> d). split; [destruct d; [rewrite zlen_nil in Ld; lia|done]|].
    split; [|split; [|cbn [b_rx]; rewrite Z.sub_diag; apply count_rx_tx]].
    + rewrite L. unfold left_syms. rewrite M3, Ea. rewrite app_assoc. f_equal. unfold data_syms. rewrite Er.
      rewrite <- fmap_app. f_equal. unfold d. rewrite <- (ztake_zdrop n (zdrop (pos i) (m_buf m))) at 1.
      f_equal. rewrite zdrop_zdrop by lia. f_equal. lia.
    + rewrite !cmds_of_app, !tx_of_app, !cmds_of_cmd, !tx_of_cmd, cmds_of_data, tx_of_data by lia.
      cbn [b_cmd app]. rewrite app_nil_r. fold d. rewrite <- Ld at 1. apply emits_write. lia.
  - rewrite !tx_of_app, !tx_of_cmd, tx_of_data by lia. cbn [app b_tx]. fold d. lia.
  - rewrite Z.sub_diag. pose proof (advance_no_rx i m n (rx i) Hi E ltac:(by right) eq_refl) as X.
    rewrite <- Ea in X. exact X.
Qed.

Lemma queue_read_step i b m :
  i_ok i -> batch_ok b -> msgs i !! Z.to_nat (msg i) = Some m -> addressed i = true -> m_rd m = true ->
  match queue_read i b m with
  | None => b_cmd b <> 0 \/ b_rx b <> 0
  | Some (i', b', w) => step_ok i b (advance i' m) b' w
  end.
Proof.
  intros Hi (B1 & B2 & B3) E Ea Er. destruct (i_ok_current i m Hi E) as (M1 & M2 & M3). rewrite Ea in M2.
  unfold queue_read, I2C_NCMDS, I2C_FIFO_SIZE in *.
  set (left := m_len m - pos i). set (n := Z.min left (32 - b_rx b)). set (last := n =? left).
  destruct ((n =? 0) || (b_cmd b + b2z (nz (n - b2z last)) + b2z last >? 8 - 1)) eqn:C.
  { apply orb_prop in C as [C|C]; bool_prop; [lia|]. unfold b2z in C. repeat (if_hyp C); lia. }
  apply orb_false_elim in C as [C1 C2]. bool_prop. assert (0 < n) by lia.
  destruct (advance_left i m n (rx i ++ [I2cRx (msg i) (pos i) n]) Hi E ltac:(lia)) as [O L];
    [rewrite Ea; lia|lia|]. rewrite <- Ea in O, L.
  constructor.
  - unfold advance. by if_goal.
  - unfold batch_ok, I2C_FIFO_SIZE. cbn [b_cmd b_tx b_rx]. unfold b2z in *.
    destruct last; destruct (nz _) eqn:N; try lia; try (apply nz_false in N; lia).
  - exact O.
  - exists (if last then reads left else replicate (Z.to_nat n) (SRx true)). cbn [b_cmd]. split; [|split; [|split]].
    + destruct last eqn:El.
      * unfold reads. rewrite (proj2 (Z.eqb_neq left 0)) by lia. by destruct (replicate _ _).
      * destruct (Z.to_nat n) eqn:N; [lia|done].
    + rewrite L. unfold left_syms. rewrite M3, Ea. rewrite app_assoc. f_equal. unfold data_syms. rewrite Er.
      fold left. destruct last eqn:El; unfold last in El; bool_prop.
      * assert (m_len m - (pos i + n) = 0) as -> by lia. cbn. by rewrite app_nil_r.
      * rewrite (reads_cut left n) by lia. do 2 f_equal. lia.
    + rewrite cmds_of_app, tx_of_app. unfold last in *.
      destruct (Z.eqb_spec n left) as [El|El]; cbn [b2z] in *.
      * assert (reads left = replicate (Z.to_nat (n - 1)) (SRx true) ++ [SRx false]) as ->.
        { unfold reads. rewrite (proj2 (Z.eqb_neq left 0)) by lia. by rewrite El. }
        destruct (nz (n - 1)) eqn:N; cbn [b2z] in *.
        -- apply nz_true in N. rewrite !cmds_of_cmd, !tx_of_cmd by lia.
           apply (emits_app _ _ [] [] _ (b_cmd b + 1)); [apply (emits_read _ (n - 1) 0); [lia|auto]|].
           apply (emits_read _ 1 I2C_CMD_ACK_VALUE); [lia|auto].
        -- apply nz_false in N. rewrite N, Z.add_0_r. rewrite cmds_of_cmd, tx_of_cmd by lia.
           apply (emits_read _ 1 I2C_CMD_ACK_VALUE); [lia|auto].
      * rewrite Z.sub_0_r, Z.add_0_r in *. rewrite (proj2 (nz_true n)) in * by lia. cbn [b2z] in *.
        rewrite cmds_of_cmd, tx_of_cmd by lia. change (cmds_of []) with (@nil (Z * Z)). change (tx_of []) with (@nil Z).
        rewrite app_nil_r. apply (emits_read _ n 0); [lia|auto].
    + cbn [b_rx]. unfold last. destruct (Z.eqb_spec n left) as [El|El]; [rewrite count_rx_reads by lia|rewrite count_rx_rep]; lia.
  - rewrite tx_of_app. cbn [b_tx]. rewrite Z.sub_diag.
    destruct (nz (n - b2z last)), last; cbn [b2z] in *; rewrite ?tx_of_cmd by lia; done.
  - exists [I2cRx (msg i) (pos i) n]. split; [unfold advance; by if_goal|].
    assert (rx_total [I2cRx (msg i) (pos i) n] = n) as -> by (cbn; lia). split; [cbn [b_rx]; lia|]. split; [cbn [b_rx]; lia|].
    intros ms d Hs Hd. destruct (same_msgs_lookup _ _ _ _ Hs E) as (m' & E' & (_ & R' & _ & L' & _)).
    destruct (store_rx_ok ms (msg i) m' (pos i) n d E') as (ms' & Es & Sm & Fs); [congruence|lia..|lia|].
    exists ms'. cbn [drain_loop rx_len]. rewrite slice_Some by lia. rewrite zdrop_0. cbn [mbind option_bind].
    rewrite Es. split; [done|]. split; [done|]. rewrite Fs.
    pose proof (advance_place i m n (rx i ++ [I2cRx (msg i) (pos i) n]) ms' (zdrop n d) Hi E
      (same_msgs_trans _ _ _ Hs Sm)) as X. rewrite <- Ea in X. exact X.
Qed.

(** * A list *)

(** Several steps. *)
Record part_ok (i : i2c) (b : i2c_batch) (i' : i2c) (b' : i2c_batch) (w : writes) (p : list sym) : Prop := {
  po_msgs : msgs i' = msgs i /\ err i' = err i;
  po_batch : batch_ok b';
  po_ok : i_ok i';
  po_syms : left_syms addr8 i = p ++ left_syms addr8 i' /\
    emits (cmds_of w) (tx_of w) (b_cmd b) (b_cmd b') p /\ count_rx p = b_rx b' - b_rx b;
  po_tx : zlen (tx_of w) = b_tx b' - b_tx b;
  po_rx : rx_ok i i' (b_rx b' - b_rx b) }.

Lemma rx_total_app rs rs' : rx_total (rs ++ rs') = rx_total rs + rx_total rs'.
Proof. unfold rx_total. induction rs as [|r rs IH]; cbn; [done|]. rewrite IH. lia. Qed.
Lemma drain_loop_app rs rs' ms d :
  drain_loop (rs ++ rs') ms d = ('(ms, d) ← drain_loop rs ms d; drain_loop rs' ms d).
Proof.
  revert ms d. induction rs as [|r rs IH]; intros ms d; [done|]. cbn [app drain_loop].
  destruct (slice d 0 (rx_len r)) as [x|]; [|done]. cbn [mbind option_bind].
  destruct (store_rx ms r x); [|done]. cbn [mbind option_bind]. apply IH.
Qed.
Lemma part_refl i b : i_ok i -> batch_ok b -> part_ok i b i b [] [].
Proof.
  intros Hi Hb. constructor; try done.
  - split; [done|]. split; [apply emits_nil|]. by rewrite Z.sub_diag.
  - rewrite Z.sub_diag. done.
  - exists []. rewrite app_nil_r, Z.sub_diag. split; [done|]. split; [done|]. split; [done|]. intros ms d _ _. exists ms.
    split; [done|]. split; [apply same_msgs_refl|]. done.
Qed.
Lemma rx_ok_trans i i1 i2 n m : msgs i1 = msgs i -> rx_ok i i1 n -> rx_ok i1 i2 m -> rx_ok i i2 (n + m).
Proof.
  intros M1 (rs & R1 & N1 & P1 & F1) (rs2 & R2 & N2 & P2 & F2).
  exists (rs ++ rs2). split; [rewrite R2, R1; by rewrite app_assoc|]. rewrite rx_total_app.
  split; [lia|]. split; [lia|]. intros ms d Hs Hd.
  destruct (F1 ms d Hs) as (ms1 & D1 & S1' & G1); [lia|].
  destruct (F2 ms1 (zdrop (rx_total rs) d)) as (ms2 & D2 & S2' & G2).
  { rewrite M1. by eapply same_msgs_trans. }
  { rewrite zlen_zdrop by lia. lia. }
  exists ms2. rewrite drain_loop_app, D1. cbn [mbind option_bind]. rewrite D2. rewrite zdrop_zdrop in * by lia.
  rewrite (Z.add_comm (rx_total rs)). split; [done|]. split; [by eapply same_msgs_trans|]. by rewrite G1, G2.
Qed.
Lemma step_part i b i1 b1 w1 i2 b2 w2 p2 :
  step_ok i b i1 b1 w1 -> part_ok i1 b1 i2 b2 w2 p2 ->
  exists p, p <> [] /\ part_ok i b i2 b2 (w1 ++ w2) p.
Proof.
  intros [[M1 E1] [B1 C1] O1 (p & P1 & L1 & S1 & K1) T1 R1] [[M2 E2] B2 O2 (L2 & S2 & K2) T2 R2].
  exists (p ++ p2). split; [by destruct p|]. constructor; try done.
  - split; congruence.
  - split; [rewrite L1, L2; by rewrite app_assoc|]. split; [|rewrite count_rx_app; lia].
    rewrite cmds_of_app, tx_of_app. by eapply emits_app.
  - rewrite tx_of_app, zlen_app. lia.
  - replace (b_rx b2 - b_rx b) with (b_rx b1 - b_rx b + (b_rx b2 - b_rx b1)) by lia. by eapply rx_ok_trans.
Qed.

Lemma queue_step i b m :
  i_ok i -> batch_ok b -> msgs i !! Z.to_nat (msg i) = Some m ->
  match queue addr8 i b m with
  | None => b_cmd b <> 0 \/ b_tx b <> 0 \/ b_rx b <> 0
  | Some (i', b', w) => step_ok i b (advance i' m) b' w
  end.
Proof.
  intros Hi Hb E. unfold queue. destruct (addressed i) eqn:Ea; cbn [negb]; [destruct (m_rd m) eqn:Er|].
  - pose proof (queue_read_step i b m Hi Hb E Ea Er) as H. destruct (queue_read i b m) as [[[? ?] ?]|]; [done|tauto].
  - pose proof (queue_write_step i b m Hi Hb E Ea Er) as H. destruct (queue_write i b m) as [[[? ?] ?]|]; [done|tauto].
  - pose proof (queue_addr_step i b m Hi Hb E Ea) as H. destruct (queue_addr addr8 i b m) as [[[? ?] ?]|]; [done|tauto].
Qed.

Lemma fill_loop_ok fuel : forall i b,
  i_ok i -> batch_ok b -> 7 - b_cmd b < Z.of_nat fuel ->
  exists i' b' w p, fill_loop addr8 fuel i b = Some (i', b', w) /\ part_ok i b i' b' w p /\
    (b_cmd b = 0 -> b_tx b = 0 -> b_rx b = 0 -> msg i < num i -> p <> []).
Proof.
  induction fuel as [|fuel IH]; intros i b Hi Hb Hf; [destruct Hb as [? _]; lia|]. cbn [fill_loop].
  destruct (msgs i !! Z.to_nat (msg i)) as [m|] eqn:E.
  2: { exists i, b, [], []. split; [done|]. split; [by apply part_refl|]. intros _ _ _ H.
       apply lookup_ge_None in E. destruct Hi as [I _]. unfold num, zlen in *. lia. }
  pose proof (queue_step i b m Hi Hb E) as S. destruct (queue addr8 i b m) as [[[i1 b1] w1]|].
  2: { exists i, b, [], []. split; [done|]. split; [by apply part_refl|]. intros. lia. }
  fold (advance i1 m). pose proof (so_batch _ _ _ _ _ S) as [B1 C1].
  destruct (IH (advance i1 m) b1) as (i2 & b2 & w2 & p2 & -> & P2 & _); [apply S|done|lia|].
  cbn [mbind option_bind]. destruct (step_part _ _ _ _ _ _ _ _ _ S P2) as (p & Hp & P).
  exists i2, b2, (w1 ++ w2), p. done.
Qed.

(** One list of the driver. *)
Definition list_ok (w : writes) (n : Z) : Prop :=
  1 <= n <= I2C_NCMDS /\ fst <$> cmds_of w = I2C_COMD <$> seqZ 0 n /\ zlen (tx_of w) <= I2C_FIFO_SIZE.

Lemma fill_ok i : i_ok i ->
  exists i' w p n, fill addr8 i = Some (i', w) /\ msgs i' = msgs i /\ err i' = err i /\ i_ok i' /\
    list_ok w n /\ bus_of w = Some (p ++ if msg i' <? num i' then [] else [SStop]) /\
    left_syms addr8 i = p ++ left_syms addr8 i' /\ (msg i < num i -> p <> []) /\
    rx_total (rx i') = count_rx p /\ count_rx p <= I2C_FIFO_SIZE /\
    rx_ok (I2c (msgs i) (msg i) (pos i) (addressed i) [] (err i)) i' (rx_total (rx i')).
Proof.
  intros Hi. unfold fill. set (i0 := I2c (msgs i) (msg i) (pos i) (addressed i) [] (err i)).
  assert (i_ok i0) as H0 by (by destruct Hi).
  destruct (fill_loop_ok 8 i0 (I2cBatch 0 0 0) H0) as (i' & b & w & p & -> & [[M E] B O (L & (S1 & S2 & S3) & K) T R] & Hp);
    [unfold batch_ok, I2C_FIFO_SIZE; cbn; lia|cbn; lia|].
  cbn [mbind option_bind b_cmd b_tx b_rx] in *. rewrite Z.sub_0_r in *.
  set (f := if msg i' <? num i' then I2C_OP_END else I2C_OP_STOP).
  assert (f = I2C_OP_END \/ f = I2C_OP_STOP) as Hf by (unfold f; if_goal; auto).
  destruct B as (B1 & B2 & B3).
  exists i', (w ++ i2c_cmd (b_cmd b) f 0 0), p, (b_cmd b + 1).
  assert (rx_total (rx i') = b_rx b) as Rx.
  { destruct R as (rs & R1 & R2 & _). rewrite R1. cbn [rx i0 app]. exact R2. }
  split; [done|]. split; [done|]. split; [done|]. split; [done|]. split; [|split; [|split; [exact L|split; [|split; [|split]]]]].
  - unfold list_ok, I2C_NCMDS. split; [lia|]. rewrite cmds_of_app, tx_of_app, cmds_of_cmd, tx_of_cmd by lia.
    rewrite app_nil_r, fmap_app, S1. split; [|unfold I2C_FIFO_SIZE in *; lia].
    rewrite seqZ_app by lia. by rewrite fmap_app.
  - unfold bus_of. rewrite cmds_of_app, tx_of_app, cmds_of_cmd, tx_of_cmd by lia. rewrite fmap_app.
    rewrite (S3 _ [] _ (bus_end (b_cmd b) f Hf)). unfold f. by destruct (msg i' <? num i').
  - intros H. apply Hp; try done.
  - lia.
  - lia.
  - rewrite Rx. exact R.
Qed.

(** * A transfer *)

(** The controller runs the list of the writes [w], gets the bytes of its reads,
    and raises END or the end of the transfer; the handler starts the next
    list.  The result is the writes of each list and the final state. *)
Fixpoint run_lists (fuel : nat) (ctr : Z) (i : i2c) (w : writes) (data : list Z) : option (list writes * i2c) :=
  match fuel with
  | O => None
  | S fuel =>
      let k := rx_total (rx i) in
      if msg i <? num i then
        '(i, w', _) ← irq addr8 i I2C_INT_END_DETECT ctr (ztake k data);
        '(ws, i) ← run_lists fuel ctr i w' (zdrop k data);
        Some (w :: ws, i)
      else
        '(i, _, c) ← irq addr8 i I2C_INT_TRANS_COMPLETE ctr (ztake k data);
        if c : bool then Some ([w], i) else None
  end.

Lemma same_num ms ms' : same_msgs ms ms' -> zlen ms' = zlen ms.
Proof. intros H. apply Forall2_length in H. unfold zlen. lia. Qed.

(** The handler sees other bytes in the reads than the list was made from: what
    it does next does not depend on them. *)
Lemma transfer_syms_same ms ms' : same_msgs ms ms' -> transfer_syms addr8 ms' = transfer_syms addr8 ms.
Proof.
  unfold transfer_syms. intros H. f_equal. induction H as [|m m' l l' (A & R & _ & L & B) _ IH]; [done|].
  cbn [fmap list_fmap mjoin list_join]. change (mjoin (msg_syms addr8 <$> l')) with (mjoin (msg_syms addr8 <$> l')) in IH.
  f_equal; [|exact IH]. unfold msg_syms, data_syms. rewrite A, R, L. destruct (m_rd m); [done|]. by rewrite B.
Qed.
Lemma left_syms_same i ms : same_msgs (msgs i) ms ->
  left_syms addr8 (I2c ms (msg i) (pos i) (addressed i) [] (err i)) = left_syms addr8 i.
Proof.
  intros H. unfold left_syms. cbn [msgs msg pos addressed].
  pose proof (Forall2_drop _ _ _ (Z.to_nat (msg i)) H) as D.
  destruct D as [|m m' l l' (A & R & T & L & B) Hl]; [done|].
  rewrite (transfer_syms_same l l' Hl). f_equal. unfold msg_syms, data_syms. rewrite A, R, L.
  destruct (m_rd m); [done|]. by rewrite B.
Qed.
Lemma i_ok_same i ms : same_msgs (msgs i) ms -> i_ok i ->
  i_ok (I2c ms (msg i) (pos i) (addressed i) [] (err i)).
Proof.
  intros H [I1 I2]. constructor; unfold num in *; cbn [msgs msg pos addressed].
  - by rewrite (same_num _ _ H).
  - pose proof (proj1 (Forall2_lookup _ _ _) H (Z.to_nat (msg i))) as D.
    destruct D as [m m' (_ & _ & _ & L & _)|]; [|done]. by rewrite L.
Qed.
Lemma drain_loop_more rs e : forall ms d ms' r,
  drain_loop rs ms d = Some (ms', r) -> drain_loop rs ms (d ++ e) = Some (ms', r ++ e).
Proof.
  induction rs as [|x rs IH]; intros ms d ms' r; cbn [drain_loop]; [by intros [= <- <-]|].
  destruct (slice d 0 (rx_len x)) as [y|] eqn:E; [|done]. apply slice_inv in E as (_ & H1 & H2 & ->).
  rewrite (slice_Some (d ++ e)) by llia. cbn [mbind option_bind]. rewrite !zdrop_0, ztake_app_le, zdrop_app_le by lia.
  destruct (store_rx ms x (ztake (rx_len x) d)) as [ms1|]; [|done]. cbn [mbind option_bind]. apply IH.
Qed.

Lemma irq_end i ctr d : err i = 0 ->
  irq addr8 i I2C_INT_END_DETECT ctr d =
    ('(i1, _) ← drain i d; '(i2, w) ← fill addr8 i1;
     Some (i2, [(I2C_INT_CLR, I2C_INT_END_DETECT)] ++ w ++ start ctr, false)).
Proof. intros E. destruct i as [? ? ? ? ? e]. cbn [err] in E. subst e. reflexivity. Qed.
Lemma irq_done i ctr d : err i = 0 ->
  irq addr8 i I2C_INT_TRANS_COMPLETE ctr d =
    ('(i1, _) ← drain i d; Some (i1, [(I2C_INT_CLR, I2C_INT_TRANS_COMPLETE)] ++ [(I2C_INT_ENA, 0)], true)).
Proof. intros E. destruct i as [? ? ? ? ? e]. cbn [err] in E. subst e. reflexivity. Qed.

(** Writes that are not of the list. *)
Definition framed (w pre post : writes) : writes := pre ++ w ++ post.
Lemma framed_list w pre post :
  cmds_of pre = [] -> cmds_of post = [] -> tx_of pre = [] -> tx_of post = [] ->
  cmds_of (framed w pre post) = cmds_of w /\ tx_of (framed w pre post) = tx_of w.
Proof.
  intros A B C D. unfold framed. rewrite !cmds_of_app, !tx_of_app, A, B, C, D. cbn. by rewrite !app_nil_r.
Qed.

(** The bytes of the running list go where they belong. *)
Definition will_drain (i : i2c) (data : list Z) (target : list i2c_msg) : Prop :=
  0 <= rx_total (rx i) <= zlen data /\
  exists ms', drain_loop (rx i) (msgs i) (ztake (rx_total (rx i)) data) = Some (ms', []) /\ same_msgs (msgs i) ms' /\
    fill_from (Z.to_nat (msg i)) (pos i) ms' (zdrop (rx_total (rx i)) data) = target.

(** What a fill promises to the next round. *)
Lemma fill_will_drain i i' n data target :
  rx i = [] -> rx_ok i i' n -> msgs i' = msgs i -> n = rx_total (rx i') -> n <= zlen data ->
  fill_from (Z.to_nat (msg i)) (pos i) (msgs i) data = target -> will_drain i' data target.
Proof.
  intros R0 (rs & R1 & R2 & R3 & F) M -> Hd Ht. rewrite R0 in R1. cbn [app] in R1. rewrite R1 in *.
  destruct (F (msgs i) data (same_msgs_refl _) Hd) as (ms' & D & S & G).
  destruct (F (msgs i) (ztake (rx_total rs) data) (same_msgs_refl _)) as (ms2 & D2 & S2 & _);
    [rewrite zlen_ztake by lia; lia|].
  rewrite (zdrop_ge (rx_total rs)) in D2 by llia.
  pose proof (drain_loop_more rs (zdrop (rx_total rs) data) _ _ _ _ D2) as D3. rewrite ztake_zdrop, D in D3.
  injection D3 as ->. split; [rewrite R1; lia|]. exists ms2. rewrite R1, M. split; [done|]. split; [done|].
  rewrite <- G. exact Ht.
Qed.

Lemma run_lists_ok fuel ctr : forall i w n p data target,
  i_ok i -> err i = 0 -> list_ok w n -> bus_of w = Some (p ++ if msg i <? num i then [] else [SStop]) ->
  will_drain i data target -> zlen data = rx_total (rx i) + count_rx (left_syms addr8 i) ->
  zlen (left_syms addr8 i) <= Z.of_nat fuel ->
  exists ws i' ss, run_lists fuel ctr i w data = Some (ws, i') /\ mapM bus_of ws = Some ss /\
    mjoin ss = p ++ left_syms addr8 i /\ Forall (fun w => exists n, list_ok w n) ws /\
    msgs i' = target /\ err i' = 0.
Proof.
  induction fuel as [|fuel IH]; intros i w n p data target Hi He Hw Hb (Hk & ms' & D & S & G) Hd Hf.
  { exfalso. unfold left_syms in Hf. destruct (drop _ _); [unfold zlen in Hf; cbn in Hf; lia|].
    rewrite zlen_app in Hf. unfold transfer_syms in Hf. rewrite zlen_app in Hf.
    change (zlen [SStop]) with 1 in Hf. pose proof (zlen_nonneg (mjoin (msg_syms addr8 <$> l))).
    pose proof (zlen_nonneg (if addressed i then data_syms i0 (pos i) else msg_syms addr8 i0)). lia. }
  cbn [run_lists]. pose proof (iok_msg _ Hi) as Hm. unfold drain in *.
  destruct (Z.ltb_spec (msg i) (num i)) as [L|L].
  - rewrite irq_end by done. unfold drain. rewrite D. cbn [mbind option_bind].
    set (i1 := I2c ms' (msg i) (pos i) (addressed i) [] (err i)).
    pose proof (i_ok_same i ms' S Hi) as I1. fold i1 in I1.
    destruct (fill_ok i1 I1) as (i2 & w2 & p2 & n2 & -> & M2 & E2 & I2 & W2 & B2 & L2 & N2 & K2 & C2 & R2).
    cbn [mbind option_bind]. pose proof (left_syms_same i ms' S) as Ls. fold i1 in Ls.
    destruct (framed_list w2 [(I2C_INT_CLR, I2C_INT_END_DETECT)] (start ctr)) as [F1 F2]; [done..|].
    unfold framed in F1, F2.
    assert (zlen data - rx_total (rx i) = rx_total (rx i2) + count_rx (left_syms addr8 i2)) as Hc.
    { rewrite <- Ls, L2, count_rx_app in Hd. lia. }
    assert (msg i1 < num i1) as L1.
    { unfold num, i1. cbn [msgs msg]. rewrite (same_num _ _ S). exact L. }
    pose proof (zlen_nonneg (List.filter (fun x => match x with SRx _ => true | _ => false end) (left_syms addr8 i2))) as Hc0.
    destruct (IH i2 ([(I2C_INT_CLR, I2C_INT_END_DETECT)] ++ w2 ++ start ctr) n2 p2 (zdrop (rx_total (rx i)) data) target)
      as (ws & i' & ss & -> & Es & Ej & Fw & Em & Ee); try done.
    + by rewrite E2.
    + unfold list_ok in *. by rewrite F1, F2.
    + unfold bus_of in *. by rewrite F1, F2.
    + apply (fill_will_drain i1 i2 (rx_total (rx i2))); [done|exact R2|done|done| |exact G].
      rewrite zlen_zdrop by lia. unfold count_rx in Hc. lia.
    + rewrite zlen_zdrop by lia. lia.
    + rewrite <- Ls, L2, zlen_app in Hf. specialize (N2 L1). destruct p2; [done|]. rewrite zlen_cons in Hf.
      pose proof (zlen_nonneg p2). lia.
    + cbn [mbind option_bind]. eexists (w :: ws), i', (p :: ss). split; [done|].
      rewrite app_nil_r in Hb. cbn [mapM mbind option_bind]. rewrite Hb. cbn [mbind option_bind]. rewrite Es.
      split; [done|]. split; [|split; [constructor; [by exists n|done]|done]].
      change (mjoin (p :: ss)) with (p ++ mjoin ss). rewrite Ej. f_equal. rewrite <- Ls. by rewrite L2.
  - rewrite irq_done by done. unfold drain. rewrite D. cbn [mbind option_bind].
    assert (drop (Z.to_nat (msg i)) (msgs i) = []) as Dr by (apply drop_ge; unfold num, zlen in *; lia).
    assert (left_syms addr8 i = [SStop]) as Ls by (unfold left_syms; by rewrite Dr).
    eexists [w], _, [p ++ [SStop]]. split; [done|]. cbn [mapM mbind option_bind]. rewrite Hb.
    split; [done|]. split; [rewrite Ls; cbn; by rewrite app_nil_r|]. split; [constructor; [by exists n|constructor]|].
    split; [|done]. cbn [msgs]. rewrite <- G. unfold fill_from. rewrite drop_ge; [done|].
    pose proof (same_num _ _ S). unfold num, zlen in *. lia.
Qed.
End steps.

Definition reads_total (ms : list i2c_msg) : Z := foldr (fun m n => (if m_rd m then m_len m else 0) + n) 0 ms.
Lemma count_transfer addr8 ms : count_rx (transfer_syms addr8 ms) = reads_total ms.
Proof.
  unfold transfer_syms. rewrite count_rx_app. change (count_rx [SStop]) with 0. rewrite Z.add_0_r.
  induction ms as [|m ms IH]; [done|]. change (mjoin (msg_syms addr8 <$> m :: ms))
    with (msg_syms addr8 m ++ mjoin (msg_syms addr8 <$> ms)).
  rewrite count_rx_app, IH. cbn [reads_total foldr]. f_equal. unfold msg_syms.
  change (count_rx (data_syms m 0) = if m_rd m then m_len m else 0). unfold data_syms.
  destruct (m_rd m); [|apply count_rx_tx]. rewrite Z.sub_0_r. apply count_rx_reads. apply zlen_nonneg.
Qed.

(** C21: for any messages, of any number and length, the lists that the driver
    gives to the controller, one after each END, together are exactly the
    transfer on the bus: for each message a start, its address and its bytes,
    each one acknowledged but the last byte of a read, then the stop; each list
    has at most 8 commands in the slots from 0 on, of which END or STOP is the
    last, and at most 32 bytes in each FIFO; the transfer ends; and then each
    read has the bytes that the target sent for it, in order, and the result is
    the number of messages. *)
Theorem i2c_transfer addr8 ms conf ctr data :
  existsb m_ten ms = false -> zlen data = reads_total ms ->
  exists i w ws i' ss, xfer_start addr8 ms conf ctr = Some (inr (i, w)) /\
    run_lists addr8 (length (transfer_syms addr8 ms)) ctr i w data = Some (ws, i') /\
    mapM bus_of ws = Some ss /\ mjoin ss = transfer_syms addr8 ms /\
    Forall (fun w => exists n, list_ok w n) ws /\ msgs i' = fill_all ms data /\
    (forall rate freq rst idle, xfer_end i' true ctr rate freq rst idle = (zlen ms, [])).
Proof.
  intros Ht Hd. unfold xfer_start. rewrite Ht. set (i0 := I2c ms 0 0 false [] 0).
  assert (i_ok i0) as I0.
  { constructor; unfold num, i0; cbn [msgs msg pos addressed]; [pose proof (zlen_nonneg ms); lia|].
    by destruct (ms !! Z.to_nat 0). }
  assert (left_syms addr8 i0 = transfer_syms addr8 ms) as L0.
  { unfold left_syms. cbn [msgs msg addressed i0]. rewrite drop_0. destruct ms as [|m ms]; [done|].
    unfold transfer_syms. cbn [fmap list_fmap mjoin list_join]. by rewrite <- app_assoc. }
  destruct (fill_ok addr8 i0 I0) as (i & w & p & n & -> & M & E & I & W & B & L & N & K & C & R).
  cbn [mbind option_bind]. rewrite L0 in L.
  set (pre := reset_fifos conf ++ [(I2C_INT_CLR, I2C_INT_MASK)]).
  set (post := [(I2C_INT_ENA, I2C_INT_MASK)] ++ start ctr).
  destruct (framed_list w pre post) as [F1 F2]; [done..|].
  set (w0 := reset_fifos conf ++ [(I2C_INT_CLR, I2C_INT_MASK)] ++ w ++ [(I2C_INT_ENA, I2C_INT_MASK)] ++ start ctr).
  assert (framed w pre post = w0) as Ew by (unfold framed, pre, post, w0; by rewrite <- !app_assoc).
  rewrite Ew in F1, F2. pose proof (count_transfer addr8 ms) as Ct. rewrite L, count_rx_app in Ct.
  pose proof (zlen_nonneg (List.filter (fun x => match x with SRx _ => true | _ => false end) (left_syms addr8 i))) as C0.
  destruct (run_lists_ok addr8 (length (transfer_syms addr8 ms)) ctr i w0 n p data (fill_all ms data))
    as (ws & i' & ss & Er & Es & Ej & Fw & Em & Ee); try done.
  - unfold list_ok in *. by rewrite F1, F2.
  - unfold bus_of in *. by rewrite F1, F2.
  - apply (fill_will_drain i0 i (rx_total (rx i))); [done|exact R|done|done| |].
    + unfold count_rx in *. lia.
    + cbn [msg pos msgs i0]. apply fill_from_0.
  - lia.
  - rewrite L. rewrite length_app. unfold zlen. lia.
  - exists i, w0, ws, i', ss. split; [done|]. split; [exact Er|]. split; [done|]. split; [by rewrite Ej, <- L|].
    split; [done|]. split; [done|]. intros. unfold xfer_end. rewrite Ee. cbn. unfold num. rewrite Em. f_equal.
    clear. unfold zlen. f_equal. revert data. induction ms as [|m ms IH]; intros data; [done|]. cbn [fill_all].
    by destruct (m_rd m); cbn [length]; rewrite IH.
Qed.

(** Two bytes written to a register of the target 0x14, then three read back. *)
Lemma i2c_transfer_witness :
  let ms := [I2cMsg 0x14 false false [0x81; 0x4e]; I2cMsg 0x14 true false [0; 0; 0]] in
  exists i w ws i' ss, xfer_start (fun a r => 2 * a + b2z r) ms 0 0x10 = Some (inr (i, w)) /\
    run_lists (fun a r => 2 * a + b2z r) (length (transfer_syms (fun a r => 2 * a + b2z r) ms)) 0x10 i w [7; 8; 9] =
      Some (ws, i') /\
    mapM bus_of ws = Some ss /\ mjoin ss = transfer_syms (fun a r => 2 * a + b2z r) ms /\
    Forall (fun w => exists n, list_ok w n) ws /\ msgs i' = fill_all ms [7; 8; 9] /\
    (forall rate freq rst idle, xfer_end i' true 0x10 rate freq rst idle = (zlen ms, [])).
Proof. apply (i2c_transfer (fun a r => 2 * a + b2z r)); reflexivity. Defined.

Example i2c_transfer_syms :
  transfer_syms (fun a r => 2 * a + b2z r)
    [I2cMsg 0x14 false false [0x81; 0x4e]; I2cMsg 0x14 true false [0; 0; 0]] =
  [SStart; STx true 0x28; STx true 0x81; STx true 0x4e;
   SStart; STx true 0x29; SRx true; SRx true; SRx false; SStop].
Proof. reflexivity. Qed.

(** * The timing of SCL *)

(** The value of a register after the writes. *)
Definition reg_after (w : writes) (off : Z) : option Z := foldl (fun r p => if fst p =? off then Some (snd p) else r) None w.

Definition timing_wait (fast : bool) (half : Z) : Z := if fast then half / 2 - 2 else half / 4.
(** What the SCL_HIGH_PERIOD register holds for the high time and the rise. *)
Definition timing_high_ok (fast : bool) (half : Z) : bool :=
  let wait := timing_wait fast half in
  let v := Z.lor (half - wait) (FIELD_PREP I2C_SCL_WAIT_HIGH wait) in
  (Z.land v (GENMASK 8 0) =? half - wait) && (FIELD_GET I2C_SCL_WAIT_HIGH v =? wait mod 128) && (0 <=? wait) &&
  Bool.eqb (wait <? 128) (half <? if fast then 260 else 512).
Lemma timing_high fast half : 4 <= half <= 512 -> timing_high_ok fast half = true.
Proof.
  intros H. assert (forallb (timing_high_ok fast) (seqZ 4 509) = true) as A by (by destruct fast; vm_compute).
  rewrite forallb_forall in A. apply A. apply list_elem_of_In, elem_of_seqZ. lia.
Qed.

Lemma probe_rate_half bus_freq rate : probe_rate_ok bus_freq rate = true ->
  let half := DIV_ROUND_UP rate (2 * bus_freq) in
  0 < bus_freq <= 1000000 /\ 4 <= half <= 512 /\ rate <= half * (2 * bus_freq) < rate + 2 * bus_freq.
Proof.
  unfold probe_rate_ok, DIV_ROUND_UP. rewrite !andb_true_iff, negb_true_iff, orb_false_iff.
  intros ((H1 & H2) & H3 & H4). apply Z.ltb_lt in H1. apply Z.leb_le in H2. apply Z.ltb_ge in H3.
  rewrite Z.gtb_ltb in H4. apply Z.ltb_ge in H4. cbn zeta.
  pose proof (Z.div_mod (rate + 2 * bus_freq - 1) (2 * bus_freq)) as D.
  pose proof (Z.mod_pos_bound (rate + 2 * bus_freq - 1) (2 * bus_freq)) as B.
  split; [lia|]. split; [split|nia].
  - apply Z.div_le_lower_bound; lia.
  - apply Z.lt_succ_r, Z.div_lt_upper_bound; lia.
Qed.

(** With any clock that probe() accepts, every SCL time fits its field of
    nine bits: half, half an SCL period rounded up to a source cycle, is from 4
    to 512, the low time is half, the times of start and stop are half, the
    hold and the sample times lie inside of it, and the high time and the rise
    add up to half.  The rise is in a field of seven bits: it is right just
    when half is less than 260 from 80 kHz on, and less than 512 below. *)
Theorem i2c_timing rate bus_freq : probe_rate_ok bus_freq rate = true ->
  exists half wait high, let reg := reg_after (set_timing rate bus_freq) in
    rate <= half * (2 * bus_freq) < rate + 2 * bus_freq /\ 4 <= half <= 512 /\
    reg I2C_SCL_LOW_PERIOD = Some (half - 1) /\ reg I2C_SCL_START_HOLD = Some (half - 1) /\
    reg I2C_SCL_RSTART_SETUP = Some (half - 1) /\ reg I2C_SCL_STOP_HOLD = Some (half - 1) /\
    reg I2C_SCL_STOP_SETUP = Some (half - 1) /\
    (exists hold sample, reg I2C_SDA_HOLD = Some hold /\ reg I2C_SDA_SAMPLE = Some sample /\
      0 <= hold < sample /\ sample < half) /\
    reg I2C_SCL_HIGH_PERIOD = Some high /\ Z.land high (GENMASK 8 0) + wait = half /\ 0 <= wait < half /\
    FIELD_GET I2C_SCL_WAIT_HIGH high = wait mod 128 /\
    (FIELD_GET I2C_SCL_WAIT_HIGH high = wait <-> half < if bus_freq >=? 80000 then 260 else 512).
Proof.
  intros H. apply probe_rate_half in H as (H1 & H2 & H3). set (half := DIV_ROUND_UP rate (2 * bus_freq)) in *.
  pose proof (timing_high (bus_freq >=? 80000) half H2) as T. unfold timing_high_ok in T.
  set (wait := timing_wait (bus_freq >=? 80000) half) in *.
  exists half, wait, (Z.lor (half - wait) (FIELD_PREP I2C_SCL_WAIT_HIGH wait)).
  rewrite !andb_true_iff in T. destruct T as [[[T1 T2] T3] T4].
  apply Z.eqb_eq in T1, T2. apply Z.leb_le in T3. apply eqb_prop in T4.
  assert (wait < half) as Hw by (unfold wait, timing_wait; clear -H2; clearbody half; destruct (bus_freq >=? 80000);
      Z.to_euclidean_division_equations; lia).
  unfold set_timing. rewrite (u32_small (2 * bus_freq)) by lia. fold half. rewrite (u32_small half) by lia.
  fold (timing_wait (bus_freq >=? 80000) half).
  assert ((if bus_freq >=? 80000 then u32 (half / 2 - 2) else half / 4) = wait) as ->.
  { unfold wait, timing_wait. destruct (bus_freq >=? 80000); [|done]. apply u32_small. clear -H2. clearbody half.
    Z.to_euclidean_division_equations. lia. }
  rewrite !u32_small by (clear -H2 T3 Hw; clearbody half wait; Z.to_euclidean_division_equations; lia).
  split; [exact H3|]. split; [exact H2|].
  do 5 (split; [reflexivity|]). split.
  { exists (half / 4 - 1), (half / 2 - 1). do 2 (split; [reflexivity|]). clear -H2. clearbody half.
    Z.to_euclidean_division_equations. lia. }
  split; [reflexivity|]. split; [lia|]. split; [lia|]. split; [exact T2|]. rewrite T2.
  destruct (Z.ltb_spec wait 128) as [W|W]; destruct (Z.ltb_spec half (if bus_freq >=? 80000 then 260 else 512)); try done.
  - rewrite Z.mod_small by lia. lia.
  - pose proof (Z.mod_pos_bound wait 128). lia.
Qed.

(** 39.12 kHz of a 40 MHz clock, where the field has 0 for 128. *)
Lemma i2c_timing_witness :
  exists half wait high, let reg := reg_after (set_timing 40000000 39120) in
    40000000 <= half * (2 * 39120) < 40000000 + 2 * 39120 /\ 4 <= half <= 512 /\
    reg I2C_SCL_LOW_PERIOD = Some (half - 1) /\ reg I2C_SCL_START_HOLD = Some (half - 1) /\
    reg I2C_SCL_RSTART_SETUP = Some (half - 1) /\ reg I2C_SCL_STOP_HOLD = Some (half - 1) /\
    reg I2C_SCL_STOP_SETUP = Some (half - 1) /\
    (exists hold sample, reg I2C_SDA_HOLD = Some hold /\ reg I2C_SDA_SAMPLE = Some sample /\
      0 <= hold < sample /\ sample < half) /\
    reg I2C_SCL_HIGH_PERIOD = Some high /\ Z.land high (GENMASK 8 0) + wait = half /\ 0 <= wait < half /\
    FIELD_GET I2C_SCL_WAIT_HIGH high = wait mod 128 /\
    (FIELD_GET I2C_SCL_WAIT_HIGH high = wait <-> half < if 39120 >=? 80000 then 260 else 512).
Proof. apply (i2c_timing 40000000 39120). reflexivity. Defined.
Example timing_400k : FIELD_GET I2C_SCL_WAIT_HIGH <$> reg_after (set_timing 40000000 400000) I2C_SCL_HIGH_PERIOD = Some 23.
Proof. reflexivity. Qed.
Example timing_39k : FIELD_GET I2C_SCL_WAIT_HIGH <$> reg_after (set_timing 40000000 39120) I2C_SCL_HIGH_PERIOD = Some 0.
Proof. reflexivity. Qed.
