(* ===== verification/Device.v ===== *)
(** Programs over a device: the effects that the drivers and OpenSBI share.

    A program of [io] takes what its reads of the device give, in their order,
    and gives what it did to the device, oldest first, and the reads that are
    left.  [None] is a program that still waits when the reads are used up. *)

From S2P Require Import Prelude.

(** * The device *)

Inductive act :=
  | W32 (a v : Z) | W8 (a v : Z) | R32 (a v : Z) | R8 (a v : Z)
  | CsrW (n v : Z) | CsrS (n v : Z)
  | Xchg (a v old : Z) | SetBit (a n : Z)
  | AddMemrange (base size align flags : Z)
  | Wfi.

Definition io (A : Type) : Type := list Z -> option (A * list act * list Z).
#[global] Instance io_ret : MRet io := fun A x ins => Some (x, [], ins).
#[global] Instance io_bind : MBind io := fun A B k m ins =>
  match m ins with
  | Some (x, tr, ins) =>
      match k x ins with
      | Some (y, tr', ins) => Some (y, tr ++ tr', ins)
      | None => None
      end
  | None => None
  end.
Definition emit (x : act) : io unit := fun ins => Some (tt, [x], ins).
Definition dev_input (f : Z -> act) : io Z := fun ins =>
  match ins with [] => None | v :: ins => Some (v, [f v], ins) end.

(** A loop that ends when its body gives a value; each round of every loop here
    reads the device, so the reads bound the rounds. *)
Fixpoint rounds {A} (fuel : nat) (body : io (option A)) : io A :=
  match fuel with
  | O => fun _ => None
  | S fuel => r ← body; match r with Some x => mret x | None => rounds fuel body end
  end.
Definition wait_until {A} (body : io (option A)) : io A := fun ins => rounds (S (length ins)) body ins.

(** The nearest quotient, DIV_ROUND_CLOSEST of the kernel for numbers that are not negative. *)
Definition DIV_ROUND_CLOSEST (n d : Z) : Z := (n + d / 2) / d.

(** * Laws of the programs *)

Lemma io_bind_Some {A B} (m : io A) (k : A -> io B) ins x tr rest :
  m ins = Some (x, tr, rest) ->
  mbind k m ins = match k x rest with Some (y, tr', r) => Some (y, tr ++ tr', r) | None => None end.
Proof. unfold mbind, io_bind. by intros ->. Qed.

(** Evaluate a program on the reads that are there. *)
Ltac io_run :=
  unfold dev_input, emit,
    mbind, io_bind, mret, io_ret; cbn.

(** The rounds of a loop over the reads: [polled] says that some reads wait,
    and the next one ends the loop. *)
Inductive polled (ok : Z -> bool) : list Z -> list Z -> Prop :=
  | polled_now v rest : ok v = true -> polled ok (v :: rest) rest
  | polled_wait v l rest : ok v = false -> polled ok l rest -> polled ok (v :: l) rest.
Lemma polled_length ok l rest : polled ok l rest -> (length rest < length l)%nat.
Proof. induction 1; cbn [length]; lia. Qed.

(** What a loop of one read does to the device: the same read again and again. *)
Lemma until_polled (f : Z -> act) (g : Z -> option unit) (ok : Z -> bool) (l rest : list Z) :
  (forall v, g v = if ok v then Some tt else None) -> polled ok l rest ->
  exists vs v, l = vs ++ v :: rest /\ ok v = true /\ Forall (fun v => ok v = false) vs /\
    wait_until (v ← dev_input f; mret (g v)) l = Some (tt, f <$> (vs ++ [v]), rest).
Proof.
  intros G. unfold wait_until. enough (forall n, (length l < n)%nat -> polled ok l rest ->
    exists vs v, l = vs ++ v :: rest /\ ok v = true /\ Forall (fun v => ok v = false) vs /\
    rounds n (v ← dev_input f; mret (g v)) l = Some (tt, f <$> (vs ++ [v]), rest)) as H.
  { intros P. apply H; [lia|done]. }
  intros n Hn P. revert n Hn. induction P as [v rest E|v l rest E P IH]; intros n Hn; (destruct n; [lia|]).
  - exists [], v. do 3 (split; [done|]). cbn [rounds]. io_run. by rewrite G, E.
  - cbn [length] in Hn. destruct (IH n ltac:(lia)) as (vs & u & -> & Hu & Hvs & R).
    exists (v :: vs), u. split; [done|]. split; [done|]. split; [by constructor|].
    cbn [rounds]. revert R. io_run. intros R. rewrite G, E. by rewrite R.
Qed.

Lemma div_round_closest n d : 0 < d -> 0 <= n ->
  let q := DIV_ROUND_CLOSEST n d in 0 <= q /\ 2 * (n - q * d) <= d /\ - d <= 2 * (n - q * d).
Proof.
  intros Hd Hn. unfold DIV_ROUND_CLOSEST. cbn zeta.
  pose proof (Z.div_mod (n + d / 2) d) as E. pose proof (Z.mod_pos_bound (n + d / 2) d) as B.
  pose proof (Z.div_mod d 2) as E2. pose proof (Z.mod_pos_bound d 2) as B2.
  pose proof (Z.div_pos (n + d / 2) d) as P. pose proof (Z.div_pos d 2). nia.
Qed.

(** * Register fields *)

(** A field of [w] bits at bit [s]. *)
Lemma FIELD_PREP_eq m w s v : Z.shiftl (Z.ones w) s = m -> bf_shf m = s -> 0 <= w -> 0 <= s ->
  FIELD_PREP m v = Z.shiftl (v mod 2 ^ w) s.
Proof. intros <- E Hw Hs. unfold FIELD_PREP. rewrite E, <- Z.shiftl_land. f_equal. by apply Z.land_ones. Qed.
Lemma FIELD_GET_eq m w s v : Z.shiftl (Z.ones w) s = m -> bf_shf m = s -> 0 <= w -> 0 <= s ->
  FIELD_GET m v = v / 2 ^ s mod 2 ^ w.
Proof.
  intros <- E Hw Hs. unfold FIELD_GET. rewrite E, Z.shiftr_land, Z.shiftr_shiftl_l, Z.sub_diag by lia.
  rewrite Z.shiftl_0_r, Z.land_ones, Z.shiftr_div_pow2 by lia. done.
Qed.

(** New bits in the place of the old ones: the bits of a mask inside of the
    place are the new ones, and the others are as they were. *)
Lemma land_update x m k f : Z.land (not32 m) f = 0 ->
  Z.land (Z.lor (Z.land x (not32 m)) k) f = Z.land k f.
Proof. intros H. by rewrite Z.land_lor_distr_l, <- Z.land_assoc, H, Z.land_0_r. Qed.
Lemma land_keep x m k f : Z.land k f = 0 -> Z.land (not32 m) f = f ->
  Z.land (Z.lor (Z.land x (not32 m)) k) f = Z.land x f.
Proof. intros H1 H2. by rewrite Z.land_lor_distr_l, <- Z.land_assoc, H1, H2, Z.lor_0_r. Qed.
Lemma FIELD_GET_update x m k f : Z.land (not32 m) f = 0 ->
  FIELD_GET f (Z.lor (Z.land x (not32 m)) k) = FIELD_GET f k.
Proof. intros H. unfold FIELD_GET. by rewrite land_update. Qed.
Lemma land_u32 x m : 0 <= x < 4294967296 -> 0 <= m -> 0 <= Z.land x m < 4294967296.
Proof.
  intros H Hm. split; [apply Z.land_nonneg; lia|].
  destruct (decide (Z.land x m = 0)) as [->|N]; [lia|].
  pose proof (proj2 (Z.land_nonneg x m) ltac:(lia)). change 4294967296 with (2 ^ 32).
  apply Z.log2_lt_pow2; [lia|]. pose proof (Z.log2_land x m ltac:(lia) ltac:(lia)).
  assert (Z.log2 x < 32); [|lia]. destruct (decide (x = 0)) as [->|]; [done|]. apply Z.log2_lt_pow2; lia.
Qed.

(** * Bits of a register *)

Lemma u32_testbit x i : 0 <= i < 32 -> Z.testbit (u32 x) i = Z.testbit x i.
Proof. intros H. unfold u32. change 4294967296 with (2 ^ 32). apply Z.mod_pow2_bits_low. lia. Qed.
Lemma not32_testbit x i : 0 <= i < 32 -> Z.testbit (not32 x) i = negb (Z.testbit x i).
Proof.
  intros H. unfold not32. rewrite Z.lxor_spec. change 4294967295 with (Z.ones 32).
  rewrite Z.ones_spec_low by lia. by destruct (Z.testbit x i).
Qed.
Lemma BIT_testbit k i : 0 <= k -> 0 <= i -> Z.testbit (BIT k) i = (i =? k).
Proof.
  intros Hk Hi. unfold BIT. rewrite Z.shiftl_1_l. destruct (Z.eqb_spec i k) as [->|N].
  - by apply Z.pow2_bits_true.
  - apply Z.pow2_bits_false. lia.
Qed.
Lemma nz_BIT x k : 0 <= k -> nz (Z.land x (BIT k)) = Z.testbit x k.
Proof.
  intros Hk. destruct (Z.testbit x k) eqn:T.
  - apply nz_true. intros N. apply (f_equal (fun y => Z.testbit y k)) in N.
    by rewrite Z.land_spec, T, BIT_testbit, Z.eqb_refl, Z.bits_0 in N by lia.
  - apply nz_false, Z.bits_inj'. intros i Hi. rewrite Z.land_spec, Z.bits_0, BIT_testbit by lia.
    destruct (Z.eqb_spec i k) as [->|]; [by rewrite T|apply andb_false_r].
Qed.
(** A mask that takes the low bits off. *)
Lemma align_down x n : 0 <= x < 4294967296 -> 0 <= n <= 32 -> Z.land x (not32 (Z.ones n)) = x / 2 ^ n * 2 ^ n.
Proof.
  intros H Hn. rewrite <- Z.shiftl_mul_pow2, <- Z.shiftr_div_pow2 by lia. apply Z.bits_inj'. intros i Hi.
  rewrite Z.land_spec, Z.shiftl_spec by lia. destruct (Z.ltb_spec i n) as [L|L].
  - rewrite (Z.testbit_neg_r _ (i - n)), not32_testbit, Z.ones_spec_low by lia. apply andb_false_r.
  - rewrite Z.shiftr_spec by lia. replace (i - n + n) with i by lia. destruct (Z.ltb_spec i 32) as [L2|L2].
    + by rewrite not32_testbit, Z.ones_spec_high, andb_true_r by lia.
    + replace (Z.testbit x i) with false; [done|]. symmetry. apply Z.testbit_false; [lia|]. rewrite Z.div_small; [done|].
      split; [lia|]. apply Z.lt_le_trans with (2 ^ 32); [lia|]. apply Z.pow_le_mono_r; lia.
Qed.
