(* ===== verification/Platform.v ===== *)
(** OpenSBI on the ESP32-S31: opensbi/platform/esp32s31/platform.c.

    An operation is a program of [Device.io].  The calls of the OpenSBI library (the number of the hart, the size of the
    firmware, the regions of the root domain) are arguments.  The RISC-V CPU
    has 32 bits, so [unsigned long] is a [u32]. *)

From Stdlib Require Import Sorting.Sorted.
From S2P Require Import Prelude Ring Device.

(** * Accesses *)

Definition reg_write (addr val : Z) : io unit := emit (W32 addr (u32 val)).
Definition reg_read (addr : Z) : io Z := dev_input (fun v => R32 addr v).
Definition reg_write8 (addr val : Z) : io unit := emit (W8 addr (u8 val)).
Definition csr_write (n v : Z) : io unit := emit (CsrW n v).
Definition csr_set (n v : Z) : io unit := emit (CsrS n v).
Definition atomic_raw_xchg (a v : Z) : io Z := dev_input (fun old => Xchg a v old).

(** * Registers *)

Definition UART0_BASE : Z := 0x2038a000.
Definition UART_FIFO : Z := 0x00.
Definition UART_STATUS : Z := 0x1c.
Definition UART_RXFIFO_CNT_MASK : Z := 0xff.
Definition UART_TXFIFO_CNT_SHIFT : Z := 16.
Definition UART_TXFIFO_CNT_MASK : Z := 0xff.
Definition UART_TXFIFO_LIMIT : Z := 120.
Definition USB_SERIAL_JTAG_BASE : Z := 0x20391000.
Definition USB_SERIAL_JTAG_EP1 : Z := 0x00.
Definition USB_SERIAL_JTAG_EP1_CONF : Z := 0x04.
Definition USB_SERIAL_JTAG_WR_DONE : Z := BIT 0.
Definition USB_SERIAL_JTAG_TX_FREE : Z := BIT 1.
Definition HP_MEM_APM_ATTR0 : Z := 0x2050480c.
Definition APM_REE_TEE_RWX : Z := 0x7777.
Definition APM_TEE_RWX : Z := 0x7000.
Definition APM_LOCK : Z := BIT 16.
Definition HP_APM_BASE : Z := 0x20504400.
Definition HP_APM_FILTER_EN : Z := HP_APM_BASE.
Definition HP_APM_START (n : Z) : Z := HP_APM_BASE + 0x04 + 0x0c * n.
Definition HP_APM_END (n : Z) : Z := HP_APM_BASE + 0x08 + 0x0c * n.
Definition HP_APM_ATTR (n : Z) : Z := HP_APM_BASE + 0x0c + 0x0c * n.
Definition FW_BASE : Z := 0x50f00000.
Definition FW_SIZE : Z := 0x00030000.
Definition TEE_APM_BASE : Z := 0x20504000.
Definition TEE_APM_SIZE : Z := 0x1000.
Definition CPU_APM_BASE : Z := 0x20504c00.
Definition CPU_APM_FILTER_EN : Z := CPU_APM_BASE + 0x00.
Definition CPU_APM_REGION0_START : Z := CPU_APM_BASE + 0x04.
Definition CPU_APM_REGION0_END : Z := CPU_APM_BASE + 0x08.
Definition CPU_APM_ATTR0 : Z := CPU_APM_BASE + 0x0c.
Definition CPU_APM_FUNC_CTRL : Z := CPU_APM_BASE + 0xc4.
Definition PMAADDR0 : Z := 0xbd0.
Definition PMACFG0 : Z := 0xbc0.
Definition PMA_NAPOT (base size : Z) : Z := Z.shiftr (Z.lor base (Z.shiftr size 1 - 1)) 2.
Definition PMA_RWX : Z := 0xc000001d.
Definition PMA_RW_UNCACHED : Z := 0xc8000019.
Definition PSRAM_BASE : Z := 0x50000000.
Definition PSRAM_SIZE : Z := 0x01000000.

(** * Protection *)

Definition apm_init : io unit :=
  let fw_end := FW_BASE + FW_SIZE in
  reg_write (HP_APM_START 2) fw_end;;
  reg_write (HP_APM_END 2) 0xffffffff;;
  reg_write (HP_APM_ATTR 2) (Z.lor APM_REE_TEE_RWX APM_LOCK);;
  reg_write (HP_APM_START 1) FW_BASE;;
  reg_write (HP_APM_END 1) (fw_end - 1);;
  reg_write (HP_APM_ATTR 1) (Z.lor APM_TEE_RWX APM_LOCK);;
  reg_write HP_APM_FILTER_EN 0x7;;
  reg_write (HP_APM_START 0) 0;;
  reg_write (HP_APM_END 0) (FW_BASE - 1);;
  reg_write (HP_APM_ATTR 0) (Z.lor APM_REE_TEE_RWX APM_LOCK);;
  reg_write HP_MEM_APM_ATTR0 APM_REE_TEE_RWX;;
  reg_write CPU_APM_REGION0_START 0x00000000;;
  reg_write CPU_APM_REGION0_END 0xffffffff;;
  reg_write CPU_APM_ATTR0 APM_REE_TEE_RWX;;
  reg_write CPU_APM_FILTER_EN 1;;
  reg_write CPU_APM_FUNC_CTRL 0x0f.

(** [fb_uncached] is ESP32S31_FB_UNCACHED. *)
Definition pma_init (fb_uncached : bool) : io unit :=
  csr_write (PMAADDR0 + 2) (PMA_NAPOT PSRAM_BASE PSRAM_SIZE);;
  csr_write (PMACFG0 + 2) PMA_RWX;;
  if fb_uncached then
    csr_write PMAADDR0 (PMA_NAPOT 0x50f40000 0x00040000);;
    csr_write PMACFG0 PMA_RW_UNCACHED;;
    csr_write (PMAADDR0 + 1) (PMA_NAPOT 0x50f80000 0x00080000);;
    csr_write (PMACFG0 + 1) PMA_RW_UNCACHED
  else mret tt.

(** * The console *)

(** The static [host_absent] is an argument and the result. *)
Fixpoint usb_serial_jtag_poll (limit : nat) (ch : Z) : io bool :=
  match limit with
  | O => mret true
  | S limit =>
      v ← reg_read (USB_SERIAL_JTAG_BASE + USB_SERIAL_JTAG_EP1_CONF);
      if nz (Z.land v USB_SERIAL_JTAG_TX_FREE) then
        reg_write (USB_SERIAL_JTAG_BASE + USB_SERIAL_JTAG_EP1) (u8 ch);;
        reg_write (USB_SERIAL_JTAG_BASE + USB_SERIAL_JTAG_EP1_CONF) USB_SERIAL_JTAG_WR_DONE;;
        mret false
      else usb_serial_jtag_poll limit ch
  end.
Definition usb_serial_jtag_putc (host_absent : bool) (ch : Z) : io bool :=
  usb_serial_jtag_poll (if host_absent then 1 else Z.to_nat 100000) ch.

(** [usb] is ESP32S31_USB_SERIAL_JTAG_CONSOLE. *)
Definition console_putc (usb host_absent : bool) (ch : Z) : io bool :=
  wait_until (status ← reg_read (UART0_BASE + UART_STATUS);
              let count := Z.land (Z.shiftr status UART_TXFIFO_CNT_SHIFT) UART_TXFIFO_CNT_MASK in
              mret (if count >=? UART_TXFIFO_LIMIT then None else Some tt));;
  reg_write (UART0_BASE + UART_FIFO) (u8 ch);;
  if usb then usb_serial_jtag_putc host_absent ch else mret host_absent.

Definition console_getc : io Z :=
  status ← reg_read (UART0_BASE + UART_STATUS);
  if negb (nz (Z.land status UART_RXFIFO_CNT_MASK)) then mret (-1)
  else v ← reg_read (UART0_BASE + UART_FIFO); mret (Z.land v 0xff).

(** * Reset and power off *)

Definition LP_SYS_CTRL : Z := 0x20700008.
Definition LP_SYS_SW_RST : Z := BIT 1.
Definition DOORBELL_TO_FW : Z := 0x20586014.
Definition ESP_SHM_ADDR : Z := 0x2f050000.
(** The types of a reset, the numbers of the SBI specification. *)
Definition SBI_SRST_RESET_TYPE_SHUTDOWN : Z := 0.
Definition SBI_SRST_RESET_TYPE_COLD_REBOOT : Z := 1.
Definition SBI_SRST_RESET_TYPE_WARM_REBOOT : Z := 2.
Definition CSR_MIE : Z := 0x304.
Definition CSR_MSTATUS : Z := 0x300.
Definition MSTATUS_SPIE : Z := BIT 5.

Definition system_reset_check (type reason : Z) : bool :=
  (type =? SBI_SRST_RESET_TYPE_SHUTDOWN) || (type =? SBI_SRST_RESET_TYPE_COLD_REBOOT) ||
  (type =? SBI_SRST_RESET_TYPE_WARM_REBOOT).
Definition request_poweroff : io unit :=
  emit (SetBit (ESP_SHM_ADDR + ESP_SHM_CTRL + ESP_SHM_HOST_REQ_OFF) (bf_shf ESP_SHM_REQ_POWEROFF));;
  reg_write DOORBELL_TO_FW 1.
(** It does not return: [Wfi] is its loop. *)
Definition system_reset (type reason : Z) : io unit :=
  (if type =? SBI_SRST_RESET_TYPE_SHUTDOWN then request_poweroff
   else v ← reg_read LP_SYS_CTRL; reg_write LP_SYS_CTRL (Z.lor v LP_SYS_SW_RST));;
  csr_write CSR_MIE 0;;
  emit Wfi.

(** The error numbers of OpenSBI, and the result of a call of its library. *)
Inductive sbi_result := SBI_OK | SBI_ENOTSUPP | SBI_EINVAL | SBI_ENOMEM | SBI_RET (r : Z).

(** [fw_size] is that of the scratch area, [add_memrange] the result of
    sbi_domain_root_add_memrange() and [flags] the access of the region. *)
Definition early_init (fb_uncached cold_boot : bool) (fw_size flags add_memrange : Z) : io sbi_result :=
  apm_init;;
  pma_init fb_uncached;;
  if negb cold_boot then mret SBI_OK
  else if fw_size >? FW_SIZE - 4 then mret SBI_ENOMEM
  else emit (AddMemrange TEE_APM_BASE TEE_APM_SIZE TEE_APM_SIZE flags);; mret (SBI_RET add_memrange).
Definition final_init (cold_boot : bool) : io unit :=
  if negb cold_boot then mret tt else csr_set CSR_MSTATUS MSTATUS_SPIE.

(** * The timer *)

Definition MTIMER_BASE : Z := 0x10000000.
Definition MTIMECMP_LO : Z := MTIMER_BASE + 0x4000.
Definition MTIMECMP_HI : Z := MTIMER_BASE + 0x4004.
Definition MTIMECTL : Z := MTIMER_BASE + 0x4010.
Definition MTIME_LO : Z := MTIMER_BASE + 0xbff8.
Definition MTIME_HI : Z := MTIMER_BASE + 0xbffc.
Definition MCLICCFG : Z := 0x10800000.
Definition MCLICCFG_VALUE : Z := Z.lor (Z.shiftl 3 0) (Z.shiftl 2 4).
Definition CLIC_CTRL_BASE : Z := 0x10801000.
Definition CLIC_IP (id : Z) : Z := CLIC_CTRL_BASE + 4 * id + 0.
Definition CLIC_IE (id : Z) : Z := CLIC_CTRL_BASE + 4 * id + 1.
Definition CLIC_ATTR (id : Z) : Z := CLIC_CTRL_BASE + 4 * id + 2.
Definition CLIC_CTL (id : Z) : Z := CLIC_CTRL_BASE + 4 * id + 3.
Definition CLIC_ATTR_TRIG_EDGE : Z := Z.shiftl 1 1.
Definition CLIC_ATTR_MODE_S : Z := Z.shiftl 1 6.
Definition CLIC_ATTR_MODE_M : Z := Z.shiftl 3 6.
Definition CLIC_ATTR_M_EDGE : Z := Z.lor CLIC_ATTR_MODE_M CLIC_ATTR_TRIG_EDGE.
Definition CLIC_ATTR_S_EDGE : Z := Z.lor CLIC_ATTR_MODE_S CLIC_ATTR_TRIG_EDGE.
Definition CLIC_ATTR_S_LEVEL : Z := CLIC_ATTR_MODE_S.
Definition CLIC_CTL_MAX : Z := 0xff.
Definition CLIC_EXT_MIN_ID : Z := 16.
Definition CLIC_NUM_INT : Z := 48.
Definition CLIC_MTIMER_ID : Z := 7.
Definition CLIC_SSOFT_ID : Z := 1.
Definition CLIC_STIMER_ID : Z := 5.
Definition CSR_MINTTHRESH : Z := 0x347.
Definition CSR_SINTTHRESH : Z := 0x147.

Definition timer_round : io (option Z) :=
  hi ← reg_read MTIME_HI;
  lo ← reg_read MTIME_LO;
  tmp ← reg_read MTIME_HI;
  mret (if hi =? tmp then Some (Z.lor (Z.shiftl hi 32) lo) else None).
Definition timer_value : io Z := wait_until timer_round.

Definition timer_event_start (next_event : Z) : io unit :=
  reg_write8 (CLIC_IP CLIC_MTIMER_ID) 0;;
  reg_write MTIMECMP_HI 0xffffffff;;
  reg_write MTIMECMP_LO next_event;;
  reg_write MTIMECMP_HI (Z.shiftr next_event 32).
Definition timer_event_stop : io unit :=
  reg_write MTIMECMP_HI 0xffffffff;;
  reg_write MTIMECMP_LO 0xffffffff;;
  reg_write8 (CLIC_IP CLIC_MTIMER_ID) 0.

Definition sbi_timer_plat_sirq_set : io unit := reg_write8 (CLIC_IP CLIC_STIMER_ID) 1.
Definition sbi_timer_plat_sirq_clear : io unit := reg_write8 (CLIC_IP CLIC_STIMER_ID) 0.
Definition sbi_ipi_plat_sirq_set : io unit := reg_write8 (CLIC_IP CLIC_SSOFT_ID) 1.
Definition sbi_ipi_plat_sirq_clear : io unit := reg_write8 (CLIC_IP CLIC_SSOFT_ID) 0.

Definition clic_setup (id attr : Z) : io unit :=
  reg_write8 (CLIC_IP id) 0;;
  reg_write8 (CLIC_ATTR id) attr;;
  reg_write8 (CLIC_CTL id) CLIC_CTL_MAX;;
  reg_write8 (CLIC_IE id) 1.
Fixpoint clic_inputs (ids : list Z) : io unit :=
  match ids with
  | [] => mret tt
  | i :: ids => reg_write8 (CLIC_IE i) 0;; reg_write8 (CLIC_ATTR i) CLIC_ATTR_S_LEVEL;; clic_inputs ids
  end.
Definition timer_init : io Z :=
  reg_write MCLICCFG MCLICCFG_VALUE;;
  csr_write CSR_MINTTHRESH 0;;
  csr_write CSR_SINTTHRESH 0;;
  clic_inputs (seqZ CLIC_EXT_MIN_ID (CLIC_NUM_INT - CLIC_EXT_MIN_ID));;
  clic_setup CLIC_MTIMER_ID CLIC_ATTR_M_EDGE;;
  clic_setup CLIC_STIMER_ID CLIC_ATTR_S_EDGE;;
  clic_setup CLIC_SSOFT_ID CLIC_ATTR_S_EDGE;;
  reg_write MTIMECTL 1;;
  timer_event_stop;;
  mret 0.

(** * The cache *)

Definition CACHE_BASE : Z := 0x2c000000.
Definition CACHE_SYNC_CTRL : Z := CACHE_BASE + 0x9c.
Definition CACHE_SYNC_MAP : Z := CACHE_BASE + 0xa0.
Definition CACHE_SYNC_ADDR : Z := CACHE_BASE + 0xa4.
Definition CACHE_SYNC_SIZE : Z := CACHE_BASE + 0xa8.
Definition CACHE_INVALIDATE : Z := BIT 0.
Definition CACHE_WRITEBACK : Z := BIT 2.
Definition CACHE_WRITEBACK_INV : Z := BIT 3.
Definition CACHE_SYNC_DONE : Z := BIT 4.
Definition CACHE_MAP_L1_ICACHE (hart : Z) : Z := Z.shiftl 1 hart.
Definition CACHE_MAP_L1_DCACHE : Z := BIT 4.
Definition SBI_CACHE_WBACK_ALL : Z := 0.
Definition SBI_CACHE_INV : Z := 1.
Definition SBI_CACHE_WBACK : Z := 2.
Definition SBI_CACHE_WBACK_INV : Z := 3.
Definition SBI_ICACHE_SYNC : Z := 4.
Definition CACHE_LOCK : Z := ESP_SHM_ADDR + ESP_SHM_CTRL + ESP_SHM_CACHE_LOCK_OFF.

Definition cache_lock : io unit := wait_until (old ← atomic_raw_xchg CACHE_LOCK 1; mret (if nz old then None else Some tt)).
Definition cache_wait : io unit :=
  wait_until (v ← reg_read CACHE_SYNC_CTRL; mret (if nz (Z.land v CACHE_SYNC_DONE) then Some tt else None)).
Fixpoint cache_passes (passes : nat) (op : Z) : io unit :=
  match passes with
  | O => mret tt
  | S passes => reg_write CACHE_SYNC_CTRL op;; cache_wait;; cache_passes passes op
  end.
Definition cache_sync (map op addr size : Z) : io unit :=
  let passes := if op =? CACHE_INVALIDATE then 1%nat else 2%nat in
  cache_lock;;
  reg_write CACHE_SYNC_MAP map;;
  reg_write CACHE_SYNC_ADDR addr;;
  reg_write CACHE_SYNC_SIZE size;;
  cache_passes passes op;;
  _ ← atomic_raw_xchg CACHE_LOCK 0;
  mret tt.

(** The pair of a D-cache and an I-cache operation at each function number. *)
Definition cache_ops : list (Z * Z) :=
  [(CACHE_WRITEBACK, 0); (CACHE_INVALIDATE, 0); (CACHE_WRITEBACK, 0); (CACHE_WRITEBACK_INV, 0);
   (CACHE_WRITEBACK, CACHE_INVALIDATE)].
Definition cache_op_allowed (op addr size : Z) : bool :=
  let end_ := u32 (addr + size) in
  if negb (op =? CACHE_INVALIDATE) then true
  else nz size && (end_ >? addr) && ((end_ <=? FW_BASE) || (addr >=? FW_BASE + FW_SIZE)).

(** [a0] and [a1] are the registers of the caller, [hart] its hart. *)
Definition vendor_ext (hart funcid a0 a1 : Z) : io sbi_result :=
  let all := funcid =? SBI_CACHE_WBACK_ALL in
  let addr := if all then 0 else a0 in
  let size := if all then 0 else a1 in
  if funcid <? 0 then mret SBI_ENOTSUPP
  else match cache_ops !! Z.to_nat funcid with
  | None => mret SBI_ENOTSUPP
  | Some (dcache_op, icache_op) =>
      if negb (cache_op_allowed dcache_op addr size) then mret SBI_EINVAL
      else
        cache_sync CACHE_MAP_L1_DCACHE dcache_op addr size;;
        (if nz icache_op then cache_sync (CACHE_MAP_L1_ICACHE hart) icache_op addr size else mret tt);;
        mret SBI_OK
  end.

(** Evaluate a program of this file on the reads that are there. *)
Ltac io_run ::=
  unfold reg_read, reg_write, reg_write8, csr_write, csr_set, atomic_raw_xchg, dev_input, emit,
    mbind, io_bind, mret, io_ret; cbn.

(** * The clock *)

(** The 64-bit counter has the values [ts] at the reads, in their order. *)
Fixpoint mtime_reads (ts : list Z) : list Z :=
  match ts with
  | a :: b :: c :: ts => Z.shiftr a 32 :: u32 b :: Z.shiftr c 32 :: mtime_reads ts
  | _ => []
  end.

Lemma shiftr32 x : Z.shiftr x 32 = x / 4294967296.
Proof. by rewrite Z.shiftr_div_pow2 by lia. Qed.
Lemma join32 x : Z.lor (Z.shiftl (Z.shiftr x 32) 32) (u32 x) = x.
Proof.
  unfold u32. change 4294967296 with (2 ^ 32). rewrite <- Z.land_ones by lia.
  apply Z.bits_inj'. intros n Hn. rewrite Z.lor_spec, Z.land_spec, Z.shiftl_spec by lia.
  destruct (Z.ltb_spec n 32).
  - rewrite Z.ones_spec_low, Z.testbit_neg_r by lia. by rewrite andb_true_r.
  - rewrite Z.ones_spec_high, Z.shiftr_spec, andb_false_r, orb_false_r by lia. f_equal. lia.
Qed.

Lemma timer_round_run x y z ins : timer_round (x :: y :: z :: ins) =
  Some (if x =? z then Some (Z.lor (Z.shiftl x 32) y) else None, [R32 MTIME_HI x; R32 MTIME_LO y; R32 MTIME_HI z], ins).
Proof. reflexivity. Qed.

(** One round: the value of the counter at the read of the low word, when the
    two reads of the high word agree. *)
Lemma timer_round_S n a b c ts : a <= b <= c ->
  rounds (S n) timer_round (mtime_reads (a :: b :: c :: ts)) =
    let tr := [R32 MTIME_HI (Z.shiftr a 32); R32 MTIME_LO (u32 b); R32 MTIME_HI (Z.shiftr c 32)] in
    if Z.shiftr a 32 =? Z.shiftr c 32 then Some (b, tr, mtime_reads ts)
    else match rounds n timer_round (mtime_reads ts) with
         | Some (v, tr', r) => Some (v, tr ++ tr', r)
         | None => None
         end.
Proof.
  intros H. cbn [mtime_reads rounds]. rewrite (io_bind_Some _ _ _ _ _ _ (timer_round_run _ _ _ _)).
  destruct (Z.eqb_spec (Z.shiftr a 32) (Z.shiftr c 32)) as [E|E]; [|done]. cbn.
  assert (Z.shiftr a 32 = Z.shiftr b 32) as ->.
  { rewrite !shiftr32 in *. apply Z.le_antisymm; [apply Z.div_le_mono; lia|]. rewrite E. apply Z.div_le_mono; lia. }
  by rewrite join32.
Qed.

Lemma sorted_3 a b c ts : Sorted Z.le (a :: b :: c :: ts) -> a <= b <= c /\ Sorted Z.le ts.
Proof.
  intros H. apply Sorted_inv in H as [H Ha]. apply Sorted_inv in H as [H Hb]. apply Sorted_inv in H as [H _].
  apply HdRel_inv in Ha, Hb. split; [lia|exact H].
Qed.

Lemma timer_rounds_safe n : forall ts v tr rest, Sorted Z.le ts ->
  rounds n timer_round (mtime_reads ts) = Some (v, tr, rest) -> exists k, ts !! (3 * k + 1)%nat = Some v.
Proof.
  induction n as [|n IH]; intros ts v tr rest Hs; [done|].
  destruct ts as [|a [|b [|c ts]]]; try done. destruct (sorted_3 _ _ _ _ Hs) as [H Hs'].
  rewrite timer_round_S by done. cbn zeta. if_goal; [by intros [= <- _ _]; exists 0%nat|].
  destruct (rounds n timer_round (mtime_reads ts)) as [[[w tr'] r]|] eqn:E; [|done].
  intros [= <- _ _]. apply IH in E as (k & E); [|done]. exists (S k).
  replace (3 * S k + 1)%nat with (S (S (S (3 * k + 1))))%nat by lia. exact E.
Qed.

(** C25: the 64-bit clock of two 32-bit registers is never torn: whatever the
    counter does between the reads, a value that timer_value() returns is the
    value that the counter had at one of its reads; and a counter that passes
    less than 2^32 ticks (13.4 s at 320 MHz) in six reads gives the value of the
    second or the fifth of them, so the loop has two rounds at most. *)
Theorem timer_value_correct ts : Sorted Z.le ts ->
  (forall v tr rest, timer_value (mtime_reads ts) = Some (v, tr, rest) -> exists k, ts !! (3 * k + 1)%nat = Some v) /\
  (forall a b c d e f ts', ts = a :: b :: c :: d :: e :: f :: ts' -> f - a < 4294967296 ->
    exists v tr rest, timer_value (mtime_reads ts) = Some (v, tr, rest) /\ (v = b \/ v = e) /\ zlen tr <= 6).
Proof.
  intros Hs. split; [intros v tr rest; by apply timer_rounds_safe|].
  intros a b c d e f ts' -> Hf. destruct (sorted_3 _ _ _ _ Hs) as [H1 Hs']. destruct (sorted_3 _ _ _ _ Hs') as [H2 _].
  assert (c <= d) by (apply Sorted_inv in Hs as [Hs _]; destruct (sorted_3 _ _ _ _ Hs) as [? _]; lia).
  assert (forall a b c ts, length (mtime_reads (a :: b :: c :: ts)) = S (S (S (length (mtime_reads ts))))) as L by done.
  unfold timer_value, wait_until. rewrite !L, timer_round_S by done. cbn zeta.
  destruct (Z.eqb_spec (Z.shiftr a 32) (Z.shiftr c 32)) as [E|E]; [repeat eexists; [by left|done]|].
  rewrite timer_round_S by done. cbn zeta.
  assert ((Z.shiftr d 32 =? Z.shiftr f 32) = true) as ->.
  { apply Z.eqb_eq. rewrite !shiftr32 in *. Z.to_euclidean_division_equations. lia. }
  repeat eexists; [by right|done].
Qed.

(** The low word wraps between the reads of the first round. *)
Lemma timer_value_correct_witness :
  let ts := [4294967290; 4294967295; 4294967300; 4294967310; 4294967320; 4294967330] in
  (forall v tr rest, timer_value (mtime_reads ts) = Some (v, tr, rest) -> exists k, ts !! (3 * k + 1)%nat = Some v) /\
  (forall a b c d e f ts', ts = a :: b :: c :: d :: e :: f :: ts' -> f - a < 4294967296 ->
    exists v tr rest, timer_value (mtime_reads ts) = Some (v, tr, rest) /\ (v = b \/ v = e) /\ zlen tr <= 6).
Proof. apply timer_value_correct. repeat constructor; lia. Defined.
Example timer_value_wrap :
  (fun r => fst (fst r)) <$> timer_value (mtime_reads [4294967290; 4294967295; 4294967300; 4294967310; 4294967320; 4294967330])
    = Some 4294967320.
Proof. reflexivity. Qed.

(** * The compare register *)

(** mtimecmp after the writes, from its two words. *)
Definition cmp_step (m : Z * Z) (x : act) : Z * Z :=
  match x with
  | W32 a v => if a =? MTIMECMP_HI then (v, snd m) else if a =? MTIMECMP_LO then (fst m, v) else m
  | _ => m
  end.
Definition cmp_value (m : Z * Z) : Z := fst m * 4294967296 + snd m.

Lemma cmp_ip m v : cmp_step m (W8 (CLIC_IP CLIC_MTIMER_ID) v) = m.
Proof. reflexivity. Qed.
Lemma cmp_hi m v : cmp_step m (W32 MTIMECMP_HI v) = (v, snd m).
Proof. reflexivity. Qed.
Lemma cmp_lo m v : cmp_step m (W32 MTIMECMP_LO v) = (fst m, v).
Proof. reflexivity. Qed.

(** A new event does not match before its time: until the last write the
    compare value is in the future, for any clock below the last 13 s of its
    1800 years, and then it is the event. *)
Theorem timer_event_start_correct next hi lo now :
  0 <= next < 18446744073709551616 -> 0 <= hi < 4294967296 -> 0 <= lo < 4294967296 ->
  0 <= now < 4294967295 * 4294967296 ->
  exists x0 x1 x2 x3, (forall ins, timer_event_start next ins = Some (tt, [x0; x1; x2; x3], ins)) /\
    x0 = W8 (CLIC_IP CLIC_MTIMER_ID) 0 /\
    now < cmp_value (foldl cmp_step (hi, lo) [x0; x1]) /\
    now < cmp_value (foldl cmp_step (hi, lo) [x0; x1; x2]) /\
    cmp_value (foldl cmp_step (hi, lo) [x0; x1; x2; x3]) = next.
Proof.
  intros H1 H2 H3 H4. unfold timer_event_start. repeat eexists; unfold cmp_value; cbn [foldl];
    rewrite ?cmp_ip, ?cmp_hi, ?cmp_lo; cbn [fst snd]; change (u32 0xffffffff) with 4294967295; unfold u32.
  - lia.
  - pose proof (Z.mod_pos_bound next 4294967296). lia.
  - rewrite shiftr32, (Z.mod_small (next / 4294967296)) by (Z.to_euclidean_division_equations; lia).
    pose proof (Z.div_mod next 4294967296). lia.
Qed.

(** * Who owns an address *)

(** HP_APM with the three regions that the code uses, as docs/internals.md
    (Protection) describes it: a region also has the last word below its start,
    and the region of the highest number has an address of two. *)
Record region := Region { r_start : Z; r_end : Z; r_attr : Z }.
Record apm := Apm { a_en : Z; a_0 : region; a_1 : region; a_2 : region }.
Definition set_region (r : region) (base a v : Z) : region :=
  if a =? base then Region v (r_end r) (r_attr r)
  else if a =? base + 4 then Region (r_start r) v (r_attr r)
  else if a =? base + 8 then Region (r_start r) (r_end r) v
  else r.
Definition apm_step (m : apm) (x : act) : apm :=
  match x with
  | W32 a v =>
      if a =? HP_APM_FILTER_EN then Apm v (a_0 m) (a_1 m) (a_2 m)
      else Apm (a_en m) (set_region (a_0 m) (HP_APM_START 0) a v) (set_region (a_1 m) (HP_APM_START 1) a v)
             (set_region (a_2 m) (HP_APM_START 2) a v)
  | _ => m
  end.
Definition covers (r : region) (a : Z) : bool := (r_start r - 4 <=? a) && (a <=? r_end r).
Definition owner (m : apm) (a : Z) : option region :=
  if Z.testbit (a_en m) 2 && covers (a_2 m) a then Some (a_2 m)
  else if Z.testbit (a_en m) 1 && covers (a_1 m) a then Some (a_1 m)
  else if Z.testbit (a_en m) 0 && covers (a_0 m) a then Some (a_0 m)
  else None.
(** The attributes of the DMA masters and of S-mode (REE), and of M-mode (TEE). *)
Definition ree_attr (r : region) : Z := Z.land (r_attr r) 0x0777.
Definition tee_attr (r : region) : Z := Z.land (r_attr r) 0x7000.
Definition locked (r : region) : bool := nz (Z.land (r_attr r) APM_LOCK).

(** The memory that only M-mode has: the firmware, a word below. *)
Definition fw_area (a : Z) : Prop := FW_BASE - 4 <= a < FW_BASE + FW_SIZE - 4.
(** All of the others have the memory outside of it. *)
Definition others_open (m : apm) : Prop :=
  forall a, 0 <= a <= 0xffffffff -> ~ fw_area a -> exists r, owner m a = Some r /\ ree_attr r = 0x0777.
Fixpoint always (P : apm -> Prop) (m : apm) (tr : list act) : Prop :=
  P m /\ match tr with [] => True | x :: tr => always P (apm_step m x) tr end.

(** The state from before apm_init(): region 0 gives all of the memory to all. *)
Definition apm_open (m : apm) : Prop :=
  a_en m = 1 /\ r_start (a_0 m) = 0 /\ r_end (a_0 m) = 0xffffffff /\ ree_attr (a_0 m) = 0x0777.

Lemma covers_spec r a : BoolSpec (r_start r - 4 <= a <= r_end r) (~ r_start r - 4 <= a <= r_end r) (covers r a).
Proof. unfold covers. destruct (Z.leb_spec (r_start r - 4) a), (Z.leb_spec a (r_end r)); constructor; lia. Qed.

Lemma others_open_1 m : apm_open m -> others_open m.
Proof.
  intros (E & S & N & A) a Ha _. exists (a_0 m). unfold owner. rewrite E. cbn [Z.testbit andb].
  split; [|exact A]. destruct (covers_spec (a_0 m) a); [done|lia].
Qed.

(** The filter with the two new regions on, and region 0 of one end or another. *)
Lemma others_open_7 m :
  a_en m = 7 -> r_start (a_0 m) = 0 -> FW_BASE - 1 <= r_end (a_0 m) -> ree_attr (a_0 m) = 0x0777 ->
  a_1 m = Region FW_BASE (FW_BASE + FW_SIZE - 1) (Z.lor APM_TEE_RWX APM_LOCK) ->
  a_2 m = Region (FW_BASE + FW_SIZE) 0xffffffff (Z.lor APM_REE_TEE_RWX APM_LOCK) -> others_open m.
Proof.
  intros E S N A E1 E2 a Ha Hf. unfold owner, fw_area, FW_BASE, FW_SIZE in *. rewrite E.
  cbn [Z.testbit Pos.testbit andb].
  destruct (covers_spec (a_2 m) a) as [C|C]; [eexists; split; [done|by rewrite E2]|].
  destruct (covers_spec (a_1 m) a) as [C'|C']; rewrite E1, E2 in *; cbn [r_start r_end] in *; [lia|].
  destruct (covers_spec (a_0 m) a); [by eexists|lia].
Qed.

(** The writes of apm_init() to the regions, and what has no effect on them. *)
Definition apm_writes : list act :=
  match apm_init [] with Some (_, tr, _) => ztake 10 tr | None => [] end.
Definition inert (x : act) : Prop := forall m, apm_step m x = m.
Lemma always_inert P m tr : P m -> Forall inert tr -> always P m tr /\ foldl apm_step m tr = m.
Proof. intros H. induction 1 as [|x tr Hx _ IH]; cbn [always foldl]; [done|]. rewrite Hx. tauto. Qed.
Lemma always_app P tr' tr : forall m,
  always P m tr -> always P (foldl apm_step m tr) tr' -> always P m (tr ++ tr').
Proof. induction tr as [|x tr IH]; intros m; cbn [always foldl app]; [done|]. intros [? H] H'. auto. Qed.

Definition apm_final : apm :=
  Apm 7 (Region 0 (FW_BASE - 1) (Z.lor APM_REE_TEE_RWX APM_LOCK))
    (Region FW_BASE (FW_BASE + FW_SIZE - 1) (Z.lor APM_TEE_RWX APM_LOCK))
    (Region (FW_BASE + FW_SIZE) 0xffffffff (Z.lor APM_REE_TEE_RWX APM_LOCK)).
Lemma apm_writes_ok m : apm_open m -> always others_open m apm_writes /\ foldl apm_step m apm_writes = apm_final.
Proof.
  destruct m as [en [s0 e0 t0] [s1 e1 t1] [s2 e2 t2]]. intros (E & S & N & A). cbn in E, S, N. subst en s0 e0.
  split; [|lazy; reflexivity]. lazy -[others_open].
  do 7 (split; [apply others_open_1; repeat split; exact A|]).
  do 4 (split; [apply others_open_7; try reflexivity; first [exact A|cbn; unfold FW_BASE; lia]|]). exact I.
Qed.
Lemma apm_final_fw a : fw_area a -> exists r, owner apm_final a = Some r /\ ree_attr r = 0 /\ tee_attr r = 0x7000 /\ locked r = true.
Proof.
  unfold fw_area, owner, apm_final, FW_BASE, FW_SIZE. intros H. cbn [a_en a_0 a_1 a_2 Z.testbit Pos.testbit andb].
  match goal with |- context [covers ?r a] => destruct (covers_spec r a) as [C|C]; cbn [r_start r_end] in C; [lia|] end.
  match goal with |- context [covers ?r a] => destruct (covers_spec r a) as [C'|C']; cbn [r_start r_end] in C'; [|lia] end.
  by eexists.
Qed.

Lemma apm_final_locked a r : owner apm_final a = Some r -> locked r = true.
Proof. unfold owner. do 3 (if_goal; [by intros [= <-]|]). done. Qed.

(** What early_init() does after these writes. *)
Lemma early_init_run fb cold fw_size flags ret :
  exists rest res, early_init fb cold fw_size flags ret [] = Some (res, apm_writes ++ rest, []) /\ Forall inert rest /\
    (cold = true -> res <> SBI_ENOMEM -> fw_size <= FW_SIZE - 4).
Proof.
  destruct fb, cold, (fw_size >? FW_SIZE - 4) eqn:E; eexists _, _;
    (split; [unfold early_init; cbn [negb]; rewrite ?E; reflexivity|]);
    (split; [repeat first [apply Forall_nil_2|apply Forall_cons_2; [intros [? [] [] []]; reflexivity|]]|]); intros; first [done|rewrite Z.gtb_ltb in E; apply Z.ltb_ge in E; lia].
Qed.

(** C22: apm_init() and early_init() keep the memory of OpenSBI for M-mode: from
    a filter that gives all memory to all, through every single write of them,
    S-mode and the DMA masters keep all of the memory outside of it (no gap
    while the regions change), and then all of its words but the last, and the
    word below, are of a locked region of M-mode only.  A cold boot fails just
    when the firmware has more than these words. *)
Theorem apm_protects m fb cold fw_size flags ret : apm_open m ->
  exists tr res, early_init fb cold fw_size flags ret [] = Some (res, tr, []) /\
    always others_open m tr /\
    let m' := foldl apm_step m tr in
    (forall a, fw_area a -> exists r, owner m' a = Some r /\ ree_attr r = 0 /\ tee_attr r = 0x7000 /\ locked r = true) /\
    (forall a, 0 <= a <= 0xffffffff -> exists r, owner m' a = Some r /\ locked r = true) /\
    (cold = true -> res <> SBI_ENOMEM -> forall a, FW_BASE <= a < FW_BASE + fw_size -> fw_area a).
Proof.
  intros Hm. destruct (early_init_run fb cold fw_size flags ret) as (rest & res & E & I & F).
  destruct (apm_writes_ok m Hm) as [W W']. exists (apm_writes ++ rest), res. split; [exact E|].
  assert (others_open apm_final) as O by (apply others_open_7; try reflexivity; lia).
  destruct (always_inert others_open apm_final rest O I) as [I1 I2].
  split; [apply always_app; [exact W|by rewrite W']|]. rewrite foldl_app, W', I2. cbn zeta.
  split; [apply apm_final_fw|]. split.
  - intros a Ha. destruct (Z_le_dec (FW_BASE - 4) a), (Z_lt_dec a (FW_BASE + FW_SIZE - 4)).
    + destruct (apm_final_fw a) as (r & ? & _ & _ & ?); [by split|]. by exists r.
    + destruct (O a Ha) as (r & Hr & _); [unfold fw_area; lia|]. exists r. split; [done|]. by apply apm_final_locked in Hr.
    + destruct (O a Ha) as (r & Hr & _); [unfold fw_area; lia|]. exists r. split; [done|]. by apply apm_final_locked in Hr.
    + destruct (O a Ha) as (r & Hr & _); [unfold fw_area; lia|]. exists r. split; [done|]. by apply apm_final_locked in Hr.
  - intros Hc Hr a Ha. specialize (F Hc Hr). unfold fw_area. lia.
Qed.

(** A cold boot with 190 KiB of firmware. *)
Lemma apm_protects_witness :
  let m := Apm 1 (Region 0 0xffffffff 0x7777) (Region 0 0 0) (Region 0 0 0) in
  exists tr res, early_init true true 194560 0 0 [] = Some (res, tr, []) /\
    always others_open m tr /\
    let m' := foldl apm_step m tr in
    (forall a, fw_area a -> exists r, owner m' a = Some r /\ ree_attr r = 0 /\ tee_attr r = 0x7000 /\ locked r = true) /\
    (forall a, 0 <= a <= 0xffffffff -> exists r, owner m' a = Some r /\ locked r = true) /\
    (true = true -> res <> SBI_ENOMEM -> forall a, FW_BASE <= a < FW_BASE + 194560 -> fw_area a).
Proof. apply apm_protects. repeat split. Defined.
