(* ===== verification/Cache.v ===== *)
(** DMA and the cache: linux/drivers/cache/esp32s31-cache.c asks for an
    operation, OpenSBI ([Platform.vendor_ext]) gives it to the sync engine.

    [eng] is the engine with its lock word, as docs/internals.md (Cache and DMA)
    describes it: one set of registers that holds one operation at a time, and
    that only the owner of the lock writes. *)

From S2P Require Import Prelude Ring Device Platform.

(** * The driver *)

Definition CACHE_LINE_SIZE : Z := 64.
Definition CACHE_EXTRAM_BASE : Z := 0x50000000.
Definition CACHE_EXTRAM_SIZE : Z := 0x04000000.
Definition ALIGN_DOWN (x a : Z) : Z := Z.land x (not32 (a - 1)).
Definition ALIGN (x a : Z) : Z := Z.land (u32 (x + (a - 1))) (not32 (a - 1)).

(** The arguments of sbi_ecall(): the function, a0 and a1. *)
Definition icache_sync (paddr size : Z) : Z * Z * Z := (SBI_ICACHE_SYNC, paddr, size).
Definition dma_cache_sync (paddr size funcid : Z) : option (Z * Z * Z) :=
  let end_ := u32 (paddr + size) in
  let paddr := ALIGN_DOWN paddr CACHE_LINE_SIZE in
  let size := ALIGN (u32 (end_ - paddr)) CACHE_LINE_SIZE in
  if negb (nz size) || (paddr <? CACHE_EXTRAM_BASE) ||
     (u32 (paddr + size) >? CACHE_EXTRAM_BASE + CACHE_EXTRAM_SIZE)
  then None else Some (funcid, paddr, size).
Definition cache_wback (paddr size : Z) := dma_cache_sync paddr size SBI_CACHE_WBACK.
Definition cache_inv (paddr size : Z) := dma_cache_sync paddr size SBI_CACHE_INV.
Definition cache_wback_inv (paddr size : Z) := dma_cache_sync paddr size SBI_CACHE_WBACK_INV.

(** esp32s31_cache_init(): whether the device tree has the cache, and what sbi_probe_extension() gives; the result
    and whether the operations are registered. *)
Definition esp32s31_cache_init (available : bool) (extension : Z) : Z * bool :=
  if negb available then (- ENODEV, false) else if extension <=? 0 then (- ENODEV, false) else (0, true).

(** The call through OpenSBI: [None] of the driver is no call. *)
Definition ecall (hart : Z) (c : option (Z * Z * Z)) : io sbi_result :=
  match c with Some (f, a0, a1) => vendor_ext hart f a0 a1 | None => mret SBI_OK end.

(** * The engine *)

Record sync := Sync { s_map : Z; s_op : Z; s_addr : Z; s_size : Z }.
Record eng := Eng { e_map : Z; e_addr : Z; e_size : Z; e_held : bool; e_busy : bool }.
(** [None] is a use of the engine that is not allowed: without the lock, or
    while it runs. *)
Definition eng_step (e : eng) (x : act) : option (eng * list sync) :=
  let idle := e_held e && negb (e_busy e) in
  match x with
  | W32 a v =>
      if a =? CACHE_SYNC_MAP then if idle then Some (Eng v (e_addr e) (e_size e) true false, []) else None
      else if a =? CACHE_SYNC_ADDR then if idle then Some (Eng (e_map e) v (e_size e) true false, []) else None
      else if a =? CACHE_SYNC_SIZE then if idle then Some (Eng (e_map e) (e_addr e) v true false, []) else None
      else if a =? CACHE_SYNC_CTRL then
        if idle then Some (Eng (e_map e) (e_addr e) (e_size e) true true, [Sync (e_map e) v (e_addr e) (e_size e)]) else None
      else Some (e, [])
  | R32 a v =>
      if a =? CACHE_SYNC_CTRL then
        if e_held e then Some (Eng (e_map e) (e_addr e) (e_size e) true (e_busy e && negb (nz (Z.land v CACHE_SYNC_DONE))), [])
        else None
      else Some (e, [])
  | Xchg a v old =>
      if a =? CACHE_LOCK then
        if nz v then
          if e_held e then None else Some (Eng (e_map e) (e_addr e) (e_size e) (negb (nz old)) (e_busy e), [])
        else if idle then Some (Eng (e_map e) (e_addr e) (e_size e) false false, []) else None
      else Some (e, [])
  | _ => Some (e, [])
  end.
Fixpoint eng_run (e : eng) (tr : list act) : option (eng * list sync) :=
  match tr with
  | [] => Some (e, [])
  | x :: tr => '(e, s) ← eng_step e x; '(e, s') ← eng_run e tr; Some (e, s ++ s')
  end.

(** The answers of the lock word and of the engine to one operation: the lock
    gets free, each pass gets done, and the last exchange has any old value. *)
Definition done_bit (v : Z) : bool := nz (Z.land v CACHE_SYNC_DONE).
Fixpoint passes_done (n : nat) (ins rest : list Z) : Prop :=
  match n with
  | O => ins = rest
  | S n => exists mid, polled done_bit ins mid /\ passes_done n mid rest
  end.
Definition passes (op : Z) : nat := if op =? CACHE_INVALIDATE then 1 else 2.
Definition answers (op : Z) (ins rest : list Z) : Prop :=
  exists i j v, polled (fun v => v =? 0) ins i /\ passes_done (passes op) i j /\ j = v :: rest.

(** * One operation *)

Lemma eng_run_app e e1 s1 tr tr' : eng_run e tr = Some (e1, s1) ->
  eng_run e (tr ++ tr') = ('(e2, s2) ← eng_run e1 tr'; Some (e2, s1 ++ s2)).
Proof.
  revert e s1. induction tr as [|x tr IH]; intros e s1; cbn [eng_run app].
  - intros [= <- <-]. by destruct (eng_run e tr') as [[? ?]|].
  - destruct (eng_step e x) as [[e2 s2]|]; [|done]. cbn [mbind option_bind].
    destruct (eng_run e2 tr) as [[e3 s3]|] eqn:E; [|done]. cbn [mbind option_bind]. intros [= -> <-].
    rewrite (IH _ _ E). destruct (eng_run e1 tr') as [[? ?]|]; [|done]. cbn [mbind option_bind]. by rewrite app_assoc.
Qed.

(** Reads that wait, and then the one that ends the loop. *)
Lemma eng_run_polls (f : Z -> act) e e' vs v :
  (forall u, In u vs -> eng_step e (f u) = Some (e, [])) -> eng_step e (f v) = Some (e', []) ->
  eng_run e (f <$> (vs ++ [v])) = Some (e', []).
Proof.
  intros H Hv. induction vs as [|u vs IH]; cbn [app fmap list_fmap eng_run].
  - by rewrite Hv.
  - rewrite H by (by left). cbn [mbind option_bind]. by rewrite IH by (intros; apply H; by right).
Qed.

Lemma lock_run ins rest m a s : polled (fun v => v =? 0) ins rest ->
  exists tr, cache_lock ins = Some (tt, tr, rest) /\ eng_run (Eng m a s false false) tr = Some (Eng m a s true false, []).
Proof.
  intros P. edestruct (until_polled (fun old => Xchg CACHE_LOCK 1 old) (fun old => if nz old then None else Some tt))
    as (vs & v & _ & Hv & Hvs & E); [|exact P|]; [intros v; cbn; unfold nz; by destruct (v =? 0)|].
  eexists. split; [exact E|]. rewrite Forall_forall in Hvs. apply eng_run_polls.
  - intros u Hu. apply Hvs in Hu. cbn. unfold nz. by rewrite Hu.
  - cbn. unfold nz. by rewrite Hv.
Qed.
Lemma wait_run ins rest m a s : polled done_bit ins rest ->
  exists tr, cache_wait ins = Some (tt, tr, rest) /\ eng_run (Eng m a s true true) tr = Some (Eng m a s true false, []).
Proof.
  intros P. edestruct (until_polled (fun v => R32 CACHE_SYNC_CTRL v) (fun v => if nz (Z.land v CACHE_SYNC_DONE) then Some tt else None))
    as (vs & v & _ & Hv & Hvs & E); [|exact P|]; [done|].
  eexists. split; [exact E|]. rewrite Forall_forall in Hvs. unfold done_bit in *. apply eng_run_polls.
  - intros u Hu. apply Hvs in Hu. cbn. by rewrite Hu.
  - cbn. by rewrite Hv.
Qed.
Lemma run_ctrl m a s v tr : eng_run (Eng m a s true false) (W32 CACHE_SYNC_CTRL v :: tr) =
  ('(e, l) ← eng_run (Eng m a s true true) tr; Some (e, Sync m v a s :: l)).
Proof. reflexivity. Qed.
Lemma run_setup m a s m' a' s' tr :
  eng_run (Eng m a s true false) ([W32 CACHE_SYNC_MAP m'; W32 CACHE_SYNC_ADDR a'; W32 CACHE_SYNC_SIZE s'] ++ tr) =
    eng_run (Eng m' a' s' true false) tr.
Proof.
  cbn [app eng_run]. change (eng_step (Eng m a s true false) (W32 CACHE_SYNC_MAP m')) with (Some (Eng m' a s true false, @nil sync)).
  cbn [mbind option_bind].
  change (eng_step (Eng m' a s true false) (W32 CACHE_SYNC_ADDR a')) with (Some (Eng m' a' s true false, @nil sync)).
  cbn [mbind option_bind].
  change (eng_step (Eng m' a' s true false) (W32 CACHE_SYNC_SIZE s')) with (Some (Eng m' a' s' true false, @nil sync)).
  cbn [mbind option_bind]. by destruct (eng_run _ tr) as [[? ?]|].
Qed.
Lemma run_unlock m a s v :
  eng_run (Eng m a s true false) [Xchg CACHE_LOCK 0 v] = Some (Eng m a s false false, []).
Proof. reflexivity. Qed.
Lemma passes_run n op m a s : forall ins rest, passes_done n ins rest ->
  exists tr, cache_passes n op ins = Some (tt, tr, rest) /\
    eng_run (Eng m a s true false) tr = Some (Eng m a s true false, replicate n (Sync m (u32 op) a s)).
Proof.
  induction n as [|n IH]; intros ins rest; cbn [passes_done]; [intros ->; by exists []|].
  intros (mid & P & H). destruct (wait_run _ _ m a s P) as (tr1 & E1 & R1). destruct (IH _ _ H) as (tr2 & E2 & R2).
  exists (W32 CACHE_SYNC_CTRL (u32 op) :: tr1 ++ tr2). split.
  - cbn [cache_passes]. rewrite (io_bind_Some _ _ ins tt [W32 CACHE_SYNC_CTRL (u32 op)] ins) by done.
    by rewrite (io_bind_Some _ _ _ _ _ _ E1), E2.
  - by rewrite run_ctrl, (eng_run_app _ _ _ _ _ R1), R2.
Qed.

(** An operation of the engine takes the lock, runs its passes one after the
    other and gives the lock back. *)
Lemma cache_sync_run map op addr size ins rest e : answers op ins rest ->
  e_held e = false -> e_busy e = false ->
  exists tr e', cache_sync map op addr size ins = Some (tt, tr, rest) /\
    eng_run e tr = Some (e', replicate (passes op) (Sync (u32 map) (u32 op) (u32 addr) (u32 size))) /\
    e_held e' = false /\ e_busy e' = false.
Proof.
  intros (i & j & v & P & H & ->) Hh Hb. destruct e as [m a s ? ?]; cbn in Hh, Hb; subst.
  destruct (lock_run _ _ m a s P) as (tr1 & E1 & R1).
  destruct (passes_run _ op (u32 map) (u32 addr) (u32 size) _ _ H) as (tr2 & E2 & R2).
  exists (tr1 ++ [W32 CACHE_SYNC_MAP (u32 map); W32 CACHE_SYNC_ADDR (u32 addr); W32 CACHE_SYNC_SIZE (u32 size)] ++ tr2 ++
    [Xchg CACHE_LOCK 0 v]), (Eng (u32 map) (u32 addr) (u32 size) false false). split; [|split; [|done]].
  - unfold cache_sync. fold (passes op). rewrite (io_bind_Some _ _ _ _ _ _ E1).
    rewrite (io_bind_Some _ _ i tt [W32 CACHE_SYNC_MAP (u32 map)] i) by done.
    rewrite (io_bind_Some _ _ i tt [W32 CACHE_SYNC_ADDR (u32 addr)] i) by done.
    rewrite (io_bind_Some _ _ i tt [W32 CACHE_SYNC_SIZE (u32 size)] i) by done.
    by rewrite (io_bind_Some _ _ _ _ _ _ E2).
  - rewrite (eng_run_app _ _ _ _ _ R1), run_setup, (eng_run_app _ _ _ _ _ R2), run_unlock.
    cbn [mbind option_bind]. by rewrite app_nil_r.
Qed.

(** * The SBI extension *)

(** The ranges that may be invalidated: not empty, without a wrap, and no byte
    of the memory of OpenSBI. *)
Definition inv_safe (addr size : Z) : Prop :=
  0 < size /\ addr + size < 4294967296 /\
  forall x, addr <= x < addr + size -> ~ FW_BASE <= x < FW_BASE + FW_SIZE.
Lemma cache_op_allowed_inv addr size : 0 <= addr < 4294967296 -> 0 <= size < 4294967296 ->
  cache_op_allowed CACHE_INVALIDATE addr size = true <-> inv_safe addr size.
Proof.
  intros Ha Hs. unfold cache_op_allowed, inv_safe, nz. change (CACHE_INVALIDATE =? CACHE_INVALIDATE) with true.
  cbn [negb]. rewrite !andb_true_iff, orb_true_iff, negb_true_iff, Z.eqb_neq, Z.gtb_lt, Z.leb_le, Z.geb_le.
  unfold u32. destruct (Z_lt_dec (addr + size) 4294967296) as [H|H].
  - rewrite Z.mod_small by lia. split.
    + intros ((H1 & H2) & H3). split; [lia|]. split; [lia|]. intros x Hx. lia.
    + intros (H1 & _ & H3). split; [lia|]. specialize (H3 (Z.max addr FW_BASE)). unfold FW_SIZE, FW_BASE in *. lia.
  - split; [|lia]. rewrite <- (Z.mod_add _ (-1)), Z.mod_small by lia. lia.
Qed.

(** What the engine runs for each function. *)
Definition dcache (op addr size : Z) : list sync := replicate (passes op) (Sync CACHE_MAP_L1_DCACHE op addr size).
Definition expected (hart funcid a0 a1 : Z) : list sync :=
  if funcid =? SBI_CACHE_WBACK_ALL then dcache CACHE_WRITEBACK 0 0
  else if funcid =? SBI_CACHE_INV then dcache CACHE_INVALIDATE a0 a1
  else if funcid =? SBI_CACHE_WBACK then dcache CACHE_WRITEBACK a0 a1
  else if funcid =? SBI_CACHE_WBACK_INV then dcache CACHE_WRITEBACK_INV a0 a1
  else dcache CACHE_WRITEBACK a0 a1 ++ [Sync (CACHE_MAP_L1_ICACHE hart) CACHE_INVALIDATE a0 a1].
Definition answered (funcid : Z) (ins rest : list Z) : Prop :=
  if funcid =? SBI_CACHE_INV then answers CACHE_INVALIDATE ins rest
  else if funcid =? SBI_CACHE_WBACK_INV then answers CACHE_WRITEBACK_INV ins rest
  else if funcid =? SBI_ICACHE_SYNC then
    exists mid, answers CACHE_WRITEBACK ins mid /\ answers CACHE_INVALIDATE mid rest
  else answers CACHE_WRITEBACK ins rest.

Definition in_u32 (x : Z) : Prop := 0 <= x < 4294967296.
(** The engine is free, and a run of it ends so. *)
Definition free (e : eng) : Prop := e_held e = false /\ e_busy e = false.
Definition runs (e : eng) (tr : list act) (l : list sync) : Prop := exists e', eng_run e tr = Some (e', l) /\ free e'.

(** The program of a function that passes the checks. *)
Lemma vendor_ext_ops hart funcid a0 a1 dop iop :
  0 <= funcid -> cache_ops !! Z.to_nat funcid = Some (dop, iop) ->
  let addr := if funcid =? SBI_CACHE_WBACK_ALL then 0 else a0 in
  let size := if funcid =? SBI_CACHE_WBACK_ALL then 0 else a1 in
  cache_op_allowed dop addr size = true ->
  vendor_ext hart funcid a0 a1 =
    (cache_sync CACHE_MAP_L1_DCACHE dop addr size;;
     (if nz iop then cache_sync (CACHE_MAP_L1_ICACHE hart) iop addr size else mret tt);; mret SBI_OK).
Proof.
  intros Hf E addr size Ha. unfold vendor_ext. destruct (Z.ltb_spec funcid 0); [lia|]. rewrite E. fold addr size. by rewrite Ha.
Qed.

Lemma one_op map op addr size ins rest e : answers op ins rest -> free e ->
  in_u32 map -> in_u32 op -> in_u32 addr -> in_u32 size ->
  exists tr, (cache_sync map op addr size;; mret tt;; mret SBI_OK) ins = Some (SBI_OK, tr, rest) /\
    runs e tr (replicate (passes op) (Sync map op addr size)).
Proof.
  intros A [H1 H2] R1 R2 R3 R4. destruct (cache_sync_run map op addr size _ _ e A H1 H2) as (tr & e' & E & R & F).
  rewrite !u32_small in R by done. exists tr. split; [|by exists e'].
  rewrite (io_bind_Some _ _ _ _ _ _ E). io_run. by rewrite app_nil_r.
Qed.

Lemma vendor_ext_ok hart funcid a0 a1 e ins rest :
  in_u32 a0 -> in_u32 a1 -> 0 <= hart < 32 -> 0 <= funcid <= 4 ->
  (funcid = SBI_CACHE_INV -> inv_safe a0 a1) -> answered funcid ins rest -> free e ->
  exists tr, vendor_ext hart funcid a0 a1 ins = Some (SBI_OK, tr, rest) /\ runs e tr (expected hart funcid a0 a1).
Proof.
  intros R0 R1 Hh Hf Hi Ha He. assert (in_u32 0) as Z0 by (unfold in_u32; lia).
  assert (funcid = 0 \/ funcid = 1 \/ funcid = 2 \/ funcid = 3 \/ funcid = 4) as C by lia.
  destruct C as [->|[->|[->|[->| ->]]]].
  - rewrite (vendor_ext_ops hart 0 a0 a1 CACHE_WRITEBACK 0) by done. by apply one_op.
  - rewrite (vendor_ext_ops hart 1 a0 a1 CACHE_INVALIDATE 0); [by apply one_op|done|done|].
    by apply cache_op_allowed_inv, Hi.
  - rewrite (vendor_ext_ops hart 2 a0 a1 CACHE_WRITEBACK 0) by done. by apply one_op.
  - rewrite (vendor_ext_ops hart 3 a0 a1 CACHE_WRITEBACK_INV 0) by done. by apply one_op.
  - rewrite (vendor_ext_ops hart 4 a0 a1 CACHE_WRITEBACK CACHE_INVALIDATE) by done.
    destruct Ha as (mid & A1 & A2).
    destruct (cache_sync_run CACHE_MAP_L1_DCACHE CACHE_WRITEBACK a0 a1 _ _ e A1) as (tr1 & e1 & E1 & S1 & F1); [apply He..|].
    assert (in_u32 (CACHE_MAP_L1_ICACHE hart)) as Rm.
    { unfold in_u32, CACHE_MAP_L1_ICACHE. rewrite Z.shiftl_1_l. split; [apply Z.pow_nonneg; lia|].
      change 4294967296 with (2 ^ 32). apply Z.pow_lt_mono_r; lia. }
    destruct (one_op (CACHE_MAP_L1_ICACHE hart) CACHE_INVALIDATE a0 a1 _ _ e1 A2 F1 Rm) as (tr2 & E2 & e2 & S2 & F2); [done..|].
    rewrite !u32_small in S1 by done. exists (tr1 ++ tr2). split.
    + rewrite (io_bind_Some _ _ _ _ _ _ E1). change (nz CACHE_INVALIDATE) with true. cbn iota.
      cbn [mbind] in *. revert E2. io_run. destruct (cache_sync _ _ _ _ mid) as [[[? ?] ?]|]; [|done]. by intros [= <- <-].
    + exists e2. split; [|done]. rewrite (eng_run_app _ _ _ _ _ S1), S2. reflexivity.
Qed.

Lemma expected_safe hart funcid a0 a1 : 0 <= hart < 4 -> (funcid = SBI_CACHE_INV -> inv_safe a0 a1) ->
  Forall (fun s => s_map s = CACHE_MAP_L1_DCACHE -> s_op s = CACHE_INVALIDATE -> inv_safe (s_addr s) (s_size s))
    (expected hart funcid a0 a1).
Proof.
  intros Hh Hi. unfold expected, dcache. repeat if_goal; try by apply Forall_replicate.
  - apply Forall_replicate. intros _ _. by apply Hi.
  - apply Forall_app. split; [by apply Forall_replicate|]. apply Forall_cons_2; [|by apply Forall_nil_2].
    cbn [s_map]. intros E _. exfalso.
    assert (hart = 0 \/ hart = 1 \/ hart = 2 \/ hart = 3) as C by lia. by destruct C as [->|[->|[->| ->]]].
Qed.

(** C23: the cache extension of OpenSBI.  A wrong function does nothing; an
    invalidate of an empty range, of one past the end of the address space or
    of one with a byte of OpenSBI's memory does nothing; all the others take
    the lock, run just their operations, one at a time and a write-back twice,
    and give the lock back.  So no invalidate of the D-cache has a dirty line
    of OpenSBI. *)
Theorem vendor_ext_correct hart funcid a0 a1 :
  in_u32 a0 -> in_u32 a1 -> 0 <= hart < 4 ->
  (~ 0 <= funcid <= 4 -> forall ins, vendor_ext hart funcid a0 a1 ins = Some (SBI_ENOTSUPP, [], ins)) /\
  (funcid = SBI_CACHE_INV -> ~ inv_safe a0 a1 ->
    forall ins, vendor_ext hart funcid a0 a1 ins = Some (SBI_EINVAL, [], ins)) /\
  (0 <= funcid <= 4 -> (funcid = SBI_CACHE_INV -> inv_safe a0 a1) ->
    (forall e ins rest, answered funcid ins rest -> free e ->
      exists tr, vendor_ext hart funcid a0 a1 ins = Some (SBI_OK, tr, rest) /\ runs e tr (expected hart funcid a0 a1)) /\
    Forall (fun s => s_map s = CACHE_MAP_L1_DCACHE -> s_op s = CACHE_INVALIDATE -> inv_safe (s_addr s) (s_size s))
      (expected hart funcid a0 a1)).
Proof.
  intros R0 R1 Hh. split; [|split].
  - intros Hf ins. unfold vendor_ext. destruct (Z.ltb_spec funcid 0); [done|].
    rewrite lookup_ge_None_2; [done|]. cbn. lia.
  - intros -> Hi ins. unfold vendor_ext. change (SBI_CACHE_INV <? 0) with false.
    change (cache_ops !! Z.to_nat SBI_CACHE_INV) with (Some (CACHE_INVALIDATE, 0)).
    change (SBI_CACHE_INV =? SBI_CACHE_WBACK_ALL) with false. cbn iota beta zeta.
    destruct (cache_op_allowed CACHE_INVALIDATE a0 a1) eqn:E; [|done]. by apply cache_op_allowed_inv in E.
  - intros Hf Hi. split; [|by apply expected_safe]. intros e ins rest A F. apply vendor_ext_ok; try done. lia.
Qed.

(** An I-cache sync of a page: the lock is busy once, each pass has one wait. *)
Lemma vendor_ext_correct_witness :
  (~ 0 <= 4 <= 4 -> forall ins, vendor_ext 1 4 0x50100000 0x1000 ins = Some (SBI_ENOTSUPP, [], ins)) /\
  (4 = SBI_CACHE_INV -> ~ inv_safe 0x50100000 0x1000 ->
    forall ins, vendor_ext 1 4 0x50100000 0x1000 ins = Some (SBI_EINVAL, [], ins)) /\
  (0 <= 4 <= 4 -> (4 = SBI_CACHE_INV -> inv_safe 0x50100000 0x1000) ->
    (forall e ins rest, answered 4 ins rest -> free e ->
      exists tr, vendor_ext 1 4 0x50100000 0x1000 ins = Some (SBI_OK, tr, rest) /\ runs e tr (expected 1 4 0x50100000 0x1000)) /\
    Forall (fun s => s_map s = CACHE_MAP_L1_DCACHE -> s_op s = CACHE_INVALIDATE -> inv_safe (s_addr s) (s_size s))
      (expected 1 4 0x50100000 0x1000)).
Proof. apply vendor_ext_correct; unfold in_u32; lia. Defined.
Example vendor_ext_run :
  (fun r => eng_run (Eng 0 0 0 false false) (snd (fst r))) <$>
    vendor_ext 1 4 0x50100000 0x1000 [1; 0; 0; 16; 0; 16; 1; 0; 0; 16; 1] =
  Some (Some (Eng 2 0x50100000 0x1000 false false,
    [Sync 16 4 0x50100000 0x1000; Sync 16 4 0x50100000 0x1000; Sync 2 1 0x50100000 0x1000])).
Proof. reflexivity. Qed.

(** * A DMA buffer *)

Lemma align_mask x : in_u32 x -> Z.land x 4294967232 = x / 64 * 64.
Proof.
  intros H. exact (align_down x 6 H ltac:(lia)).
Qed.

(** The lines of a buffer: the first and the one after the last. *)
Definition line_first (paddr : Z) : Z := paddr / 64 * 64.
Definition line_end (paddr size : Z) : Z := (paddr + size + 63) / 64 * 64.
Definition in_psram (paddr size : Z) : Prop :=
  CACHE_EXTRAM_BASE <= line_first paddr /\ line_end paddr size <= CACHE_EXTRAM_BASE + CACHE_EXTRAM_SIZE.

Lemma dma_cache_sync_lines paddr size f :
  0 <= paddr -> 0 < size -> paddr + size < 4294967232 ->
  (in_psram paddr size -> dma_cache_sync paddr size f =
     Some (f, line_first paddr, line_end paddr size - line_first paddr)) /\
  (~ in_psram paddr size -> dma_cache_sync paddr size f = None).
Proof.
  intros Hp Hs He. unfold dma_cache_sync, ALIGN_DOWN, ALIGN. change (not32 (CACHE_LINE_SIZE - 1)) with 4294967232.
  change (CACHE_LINE_SIZE - 1) with 63. rewrite (align_mask paddr) by (unfold in_u32; lia). fold (line_first paddr).
  assert (0 <= line_first paddr <= paddr /\ paddr < line_first paddr + 64) as L.
  { unfold line_first. Z.to_euclidean_division_equations. lia. }
  rewrite (u32_small (paddr + size)), (u32_small (paddr + size - line_first paddr)) by lia.
  rewrite (u32_small (_ + 63)) by lia. rewrite align_mask by (unfold in_u32; lia).
  replace ((paddr + size - line_first paddr + 63) / 64 * 64) with (line_end paddr size - line_first paddr).
  2: { unfold line_end, line_first. Z.to_euclidean_division_equations. lia. }
  assert (paddr + size <= line_end paddr size < paddr + size + 64) as L'.
  { unfold line_end. Z.to_euclidean_division_equations. lia. }
  replace (line_first paddr + (line_end paddr size - line_first paddr)) with (line_end paddr size) by lia.
  rewrite u32_small by lia. unfold in_psram, nz. destruct (Z.eqb_spec (line_end paddr size - line_first paddr) 0); [lia|].
  cbn [negb orb]. rewrite Z.gtb_ltb.
  destruct (Z.ltb_spec (line_first paddr) CACHE_EXTRAM_BASE), (Z.ltb_spec (CACHE_EXTRAM_BASE + CACHE_EXTRAM_SIZE) (line_end paddr size));
    cbn [orb]; (split; intros; [first [done|lia]|first [done|lia]]).
Qed.

(** C24: a DMA operation of the kernel on a buffer reaches the engine through
    OpenSBI as whole cache lines: just the lines that the buffer touches, with
    the operation of the callback, a write-back twice.  A buffer out of the
    PSRAM does nothing.  An invalidate needs a buffer outside of the memory of
    OpenSBI, which no buffer of the kernel shares a line with. *)
Theorem dma_cache_sync_correct hart f paddr size e ins rest :
  0 <= hart < 4 -> SBI_CACHE_INV <= f <= SBI_CACHE_WBACK_INV ->
  0 <= paddr -> 0 < size -> paddr + size < 4294967232 -> answered f ins rest -> free e ->
  (f = SBI_CACHE_INV -> paddr + size <= FW_BASE \/ FW_BASE + FW_SIZE <= paddr) ->
  exists first last, first <= paddr < first + 64 /\ last - 64 < paddr + size <= last /\
    first mod 64 = 0 /\ last mod 64 = 0 /\
    (CACHE_EXTRAM_BASE <= first -> last <= CACHE_EXTRAM_BASE + CACHE_EXTRAM_SIZE ->
      exists tr, ecall hart (dma_cache_sync paddr size f) ins = Some (SBI_OK, tr, rest) /\
        runs e tr (expected hart f first (last - first))) /\
    (first < CACHE_EXTRAM_BASE \/ CACHE_EXTRAM_BASE + CACHE_EXTRAM_SIZE < last ->
      ecall hart (dma_cache_sync paddr size f) ins = Some (SBI_OK, [], ins)).
Proof.
  intros Hh Hf Hp Hs He A F Hfw. destruct (dma_cache_sync_lines paddr size f Hp Hs He) as [L1 L2].
  assert (line_first paddr <= paddr < line_first paddr + 64) as B1.
  { unfold line_first. Z.to_euclidean_division_equations. lia. }
  assert (line_end paddr size - 64 < paddr + size <= line_end paddr size) as B2.
  { unfold line_end. Z.to_euclidean_division_equations. lia. }
  assert (0 <= line_first paddr) as B0 by (unfold line_first; Z.to_euclidean_division_equations; lia).
  exists (line_first paddr), (line_end paddr size). split; [exact B1|]. split; [exact B2|].
  split; [apply Z.mod_mul; lia|]. split; [apply Z.mod_mul; lia|]. split.
  - intros H1 H2. rewrite L1 by done. cbn [ecall]. unfold SBI_CACHE_INV, SBI_CACHE_WBACK_INV in *.
    apply vendor_ext_ok; try done; unfold in_u32; try lia. intros E. split; [lia|]. split; [lia|].
    intros x Hx. specialize (Hfw E). unfold line_first, line_end, FW_BASE, FW_SIZE in *. Z.to_euclidean_division_equations. lia.
  - intros H. rewrite L2; [done|]. unfold in_psram. lia.
Qed.

(** A receive buffer of 1536 bytes in the middle of a line. *)
Lemma dma_cache_sync_correct_witness :
  exists first last, first <= 0x50200010 < first + 64 /\ last - 64 < 0x50200010 + 1536 <= last /\
    first mod 64 = 0 /\ last mod 64 = 0 /\
    (CACHE_EXTRAM_BASE <= first -> last <= CACHE_EXTRAM_BASE + CACHE_EXTRAM_SIZE ->
      exists tr, ecall 1 (dma_cache_sync 0x50200010 1536 1) [0; 16; 1] = Some (SBI_OK, tr, []) /\
        runs (Eng 0 0 0 false false) tr (expected 1 1 first (last - first))) /\
    (first < CACHE_EXTRAM_BASE \/ CACHE_EXTRAM_BASE + CACHE_EXTRAM_SIZE < last ->
      ecall 1 (dma_cache_sync 0x50200010 1536 1) [0; 16; 1] = Some (SBI_OK, [], [0; 16; 1])).
Proof.
  apply dma_cache_sync_correct; try (unfold FW_BASE, SBI_CACHE_INV, SBI_CACHE_WBACK_INV; lia); try done.
  exists [16; 1], [1], 1. split; [by constructor|]. split; [|done]. exists [1]. split; [by constructor|done].
Defined.
