(* ===== verification/CacheLock.v ===== *)
(** The cache sync engine with both harts: the lock word that cache_locked() of the
    firmware (shm_flash.c) and esp32s31_cache_sync() of OpenSBI (platform.c) take.

    Hart 0 has a task and an interrupt handler, which can both engine_call the wrapped
    ROM functions; hart 1 is OpenSBI in M-mode, which nothing interrupts.
    Every access to the lock and to the engine is a step, and the harts
    interleave in any order.  The accesses of the ROM functions are not here: any
    list of accesses that waits for the engine before it goes on or ends ([calm]).
    The loader shares the lock before it starts hart 1 ([Loader.app_main]). *)

From stdpp Require Import relations.
From S2P Require Import Prelude Device Platform Cache.

Inductive access := SetMap (v : Z) | SetAddr (v : Z) | SetSize (v : Z) | Start (op : Z) | WaitDone.
(** The accesses of esp32s31_cache_sync() between its two exchanges. *)
Fixpoint pass_accesses (n : nat) (op : Z) : list access :=
  match n with O => [] | S n => Start op :: WaitDone :: pass_accesses n op end.
Definition sync_accesses (x : sync) : list access :=
  [SetMap (s_map x); SetAddr (s_addr x); SetSize (s_size x)] ++ pass_accesses (passes (s_op x)) (s_op x).

(** What an action of OpenSBI does to the engine. *)
Definition access_of (x : act) : option access :=
  match x with
  | W32 a v =>
      if a =? CACHE_SYNC_MAP then Some (SetMap v) else if a =? CACHE_SYNC_ADDR then Some (SetAddr v)
      else if a =? CACHE_SYNC_SIZE then Some (SetSize v) else if a =? CACHE_SYNC_CTRL then Some (Start v) else None
  | R32 a v => if (a =? CACHE_SYNC_CTRL) && done_bit v then Some WaitDone else None
  | _ => None
  end.

(** The registers of the engine. *)
Record engine := Engine { g_map : Z; g_addr : Z; g_size : Z; g_busy : bool }.
(** An access: the registers after it, and the operation that it starts.  [None] is
    a write to an engine that runs. *)
Definition access_step (a : access) (g : engine) : option (engine * list sync) :=
  match a with
  | SetMap v => if g_busy g then None else Some (Engine v (g_addr g) (g_size g) false, [])
  | SetAddr v => if g_busy g then None else Some (Engine (g_map g) v (g_size g) false, [])
  | SetSize v => if g_busy g then None else Some (Engine (g_map g) (g_addr g) v false, [])
  | Start op => if g_busy g then None else Some (Engine (g_map g) (g_addr g) (g_size g) true, [Sync (g_map g) op (g_addr g) (g_size g)])
  | WaitDone => Some (g, [])
  end.

(** A caller: before the lock is taken, with it (what it was asked to do, what is left, the
    operations that it started), and before its interrupts come back. *)
Inductive caller :=
  | Out | Spin (p : list access) | In (p rest : list access) (st : list sync) | Leave.
Record locked := Locked {
  k_lock : bool;
  k_masked : bool;                   (** the interrupts of hart 0 *)
  k_engine : engine;
  k_task : caller; k_isr : caller; k_sbi : caller;
  k_bad : bool;                      (** an access to an engine that runs *)
  k_log : list (list access * list sync) }.  (** the calls that ended *)

(** A step of one caller on the lock, the engine and the log: an access waits for the engine
    to be done. *)
Inductive caller_step : bool * engine * caller * bool * list (list access * list sync) -> bool * engine * caller * bool * list (list access * list sync) -> Prop :=
| k_spin g p bad lg :
    caller_step (false, g, Spin p, bad, lg) (true, g, In p p [], bad, lg)
| k_act g p a rest st g' s bad lg : (a = WaitDone -> g_busy g = false) -> access_step a g = Some (g', s) ->
    caller_step (true, g, In p (a :: rest) st, bad, lg) (true, g', In p rest (st ++ s), bad, lg)
| k_corrupt g p a rest st bad lg : access_step a g = None ->
    caller_step (true, g, In p (a :: rest) st, bad, lg) (true, g, In p rest st, true, lg)
| k_unlock g p st bad lg :
    caller_step (true, g, In p [] st, bad, lg) (false, g, Leave, bad, lg ++ [(p, st)]).

(** What goes on without new calls: the callers and the engine.  A failed try of
    the spin is no step. *)
Inductive engine_work : locked -> locked -> Prop :=
| w_task l g c l' g' c' msk i h bad lg bad' lg' : caller_step (l, g, c, bad, lg) (l', g', c', bad', lg') ->
    i = Out -> engine_work (Locked l msk g c i h bad lg) (Locked l' msk g' c' i h bad' lg')
| w_unmask l g msk h bad lg : engine_work (Locked l msk g Leave Out h bad lg) (Locked l false g Out Out h bad lg)
| w_isr l g c l' g' c' msk t h bad lg bad' lg' : caller_step (l, g, c, bad, lg) (l', g', c', bad', lg') ->
    engine_work (Locked l msk g t c h bad lg) (Locked l' msk g' t c' h bad' lg')
| w_isr_leave l g msk t h bad lg : engine_work (Locked l msk g t Leave h bad lg) (Locked l msk g t Out h bad lg)
| w_sbi l g c l' g' c' msk t i bad lg bad' lg' : caller_step (l, g, c, bad, lg) (l', g', c', bad', lg') ->
    engine_work (Locked l msk g t i c bad lg) (Locked l' msk g' t i c' bad' lg')
| w_sbi_leave l g msk t i bad lg : engine_work (Locked l msk g t i Leave bad lg) (Locked l msk g t i Out bad lg)
| w_done l msk g t i h bad lg : g_busy g = true ->
    engine_work (Locked l msk g t i h bad lg) (Locked l msk (Engine (g_map g) (g_addr g) (g_size g) false) t i h bad lg).

(** Waits for the engine before it writes again, and at the end. *)
Fixpoint calm (busy : bool) (p : list access) : bool :=
  match p with
  | [] => negb busy
  | Start _ :: p => negb busy && calm true p
  | WaitDone :: p => calm false p
  | _ :: p => negb busy && calm busy p
  end.
(** New calls: the task masks its interrupts first; the handler comes when they are not masked. *)
Inductive engine_call : locked -> locked -> Prop :=
| c_task l msk g h bad lg p : calm false p = true -> engine_call (Locked l msk g Out Out h bad lg) (Locked l true g (Spin p) Out h bad lg)
| c_isr l g t h bad lg p : calm false p = true -> engine_call (Locked l false g t Out h bad lg) (Locked l false g t (Spin p) h bad lg)
| c_sbi l msk g t i bad lg x : engine_call (Locked l msk g t i Out bad lg) (Locked l msk g t i (Spin (sync_accesses x)) bad lg).
(** shm_flash_share_cache() has cleared the lock. *)
Definition shared (g : engine) : locked := Locked false false g Out Out Out false [].
Inductive lock_reachable (g : engine) : locked -> Prop :=
| lr_init : lock_reachable g (shared g)
| lr_work a b : lock_reachable g a -> engine_work a b -> lock_reachable g b
| lr_call a b : lock_reachable g a -> engine_call a b -> lock_reachable g b.

(** * What a list of accesses starts when nobody else uses the engine *)

Fixpoint alone (m a s : Z) (p : list access) : list sync :=
  match p with
  | [] => []
  | SetMap v :: p => alone v a s p
  | SetAddr v :: p => alone m v s p
  | SetSize v :: p => alone m a v p
  | Start op :: p => Sync m op a s :: alone m a s p
  | WaitDone :: p => alone m a s p
  end.
Lemma pass_alone n m op a s : alone m a s (pass_accesses n op) = replicate n (Sync m op a s).
Proof. induction n as [|n IH]; cbn; [done|by rewrite IH]. Qed.
Lemma sync_alone x m a s : alone m a s (sync_accesses x) = replicate (passes (s_op x)) x.
Proof. destruct x. unfold sync_accesses. cbn. apply pass_alone. Qed.
Lemma pass_calm n op : calm false (pass_accesses n op) = true.
Proof. induction n as [|n IH]; cbn; done. Qed.
Lemma sync_calm x : calm false (sync_accesses x) = true.
Proof. cbn. apply pass_calm. Qed.

(** The program of OpenSBI makes just these accesses, between the two exchanges. *)
Lemma omap_none {A B} (f : A -> option B) (l : list A) : Forall (fun x => f x = None) l -> omap f l = [].
Proof. induction 1 as [|x l E _ IH]; [done|]. cbn. by rewrite E. Qed.
Lemma cache_passes_accesses n op : forall ins rest, passes_done n ins rest ->
  exists tr, cache_passes n op ins = Some (tt, tr, rest) /\ omap access_of tr = pass_accesses n (u32 op).
Proof.
  induction n as [|n IH]; intros ins rest; cbn [passes_done]; [intros ->; by exists []|].
  intros (mid & P & H). destruct (IH _ _ H) as (tr2 & E2 & R2).
  edestruct (until_polled (fun v => R32 CACHE_SYNC_CTRL v) (fun v => if nz (Z.land v CACHE_SYNC_DONE) then Some tt else None))
    as (vs & v & _ & Hv & Hvs & E); [|exact P|]; [done|].
  exists (W32 CACHE_SYNC_CTRL (u32 op) :: (R32 CACHE_SYNC_CTRL <$> (vs ++ [v])) ++ tr2). split.
  - cbn [cache_passes]. rewrite (io_bind_Some _ _ ins tt [W32 CACHE_SYNC_CTRL (u32 op)] ins) by done. unfold cache_wait.
    by rewrite (io_bind_Some _ _ _ _ _ _ E), E2.
  - cbn [omap list_omap access_of pass_accesses]. rewrite !Z.eqb_refl. change (CACHE_SYNC_CTRL =? CACHE_SYNC_MAP) with false.
    change (CACHE_SYNC_CTRL =? CACHE_SYNC_ADDR) with false. change (CACHE_SYNC_CTRL =? CACHE_SYNC_SIZE) with false. cbv iota. f_equal.
    rewrite fmap_app, <- app_assoc, omap_app, omap_none, app_nil_l by (apply Forall_fmap; refine (Forall_impl _ _ Hvs); intros u Hu; cbn; by rewrite Hu).
    cbn [fmap list_fmap app omap list_omap access_of]. rewrite Z.eqb_refl, Hv. cbn [andb]. by rewrite R2.
Qed.
Lemma cache_sync_accesses map op addr size ins rest : answers op ins rest -> 0 <= op < 4294967296 ->
  exists tr, cache_sync map op addr size ins = Some (tt, tr, rest) /\
    omap access_of tr = sync_accesses (Sync (u32 map) op (u32 addr) (u32 size)).
Proof.
  intros (i & j & v & P & H & ->) Hop.
  edestruct (until_polled (fun old => Xchg CACHE_LOCK 1 old) (fun old => if nz old then None else Some tt))
    as (vs & w & _ & Hw & Hvs & E1); [|exact P|]; [intros u; unfold nz; by destruct (u =? 0)|].
  destruct (cache_passes_accesses _ op _ _ H) as (tr2 & E2 & R2). rewrite (u32_small op) in R2 by done.
  exists ((Xchg CACHE_LOCK 1 <$> (vs ++ [w])) ++ [W32 CACHE_SYNC_MAP (u32 map); W32 CACHE_SYNC_ADDR (u32 addr); W32 CACHE_SYNC_SIZE (u32 size)] ++ tr2 ++ [Xchg CACHE_LOCK 0 v]). split.
  - unfold cache_sync, cache_lock. fold (passes op). rewrite (io_bind_Some _ _ _ _ _ _ E1).
    rewrite (io_bind_Some _ _ i tt [W32 CACHE_SYNC_MAP (u32 map)] i) by done.
    rewrite (io_bind_Some _ _ i tt [W32 CACHE_SYNC_ADDR (u32 addr)] i) by done.
    rewrite (io_bind_Some _ _ i tt [W32 CACHE_SYNC_SIZE (u32 size)] i) by done.
    by rewrite (io_bind_Some _ _ _ _ _ _ E2).
  - rewrite omap_app, omap_none, app_nil_l by (apply Forall_fmap, Forall_true; done).
    rewrite !omap_app, R2. cbn [omap list_omap access_of app sync_accesses s_map s_op s_addr s_size].
    rewrite !Z.eqb_refl. change (CACHE_SYNC_ADDR =? CACHE_SYNC_MAP) with false. change (CACHE_SYNC_SIZE =? CACHE_SYNC_MAP) with false.
    change (CACHE_SYNC_SIZE =? CACHE_SYNC_ADDR) with false. cbv iota. by rewrite app_nil_r.
Qed.

(** * The invariant *)

Definition inside (c : caller) : bool := match c with In _ _ _ => true | _ => false end.
(** The owner of the lock runs as if it were alone; [w]: an operation that it has not waited for. *)
Definition caller_ok (g : engine) (c : caller) : Prop :=
  match c with
  | Spin p => calm false p = true
  | In p rest st => (exists m a s, alone m a s p = st ++ alone (g_map g) (g_addr g) (g_size g) rest) /\
      exists w, calm w rest = true /\ (g_busy g = true -> w = true)
  | _ => True
  end.
Definition log_ok (x : list access * list sync) : Prop := exists m a s, snd x = alone m a s (fst x).
Record lock_inv (k : locked) : Prop := {
  li_bad : k_bad k = false;
  li_count : (if k_lock k then 1 else 0) = b2z (inside (k_task k)) + b2z (inside (k_isr k)) + b2z (inside (k_sbi k));
  li_idle : k_lock k = false -> g_busy (k_engine k) = false;
  li_task : caller_ok (k_engine k) (k_task k);
  li_isr : caller_ok (k_engine k) (k_isr k);
  li_sbi : caller_ok (k_engine k) (k_sbi k);
  li_log : Forall log_ok (k_log k);
  li_mask : k_task k <> Out -> k_isr k = Out /\ k_masked k = true;
}.

(** A caller that is not inside does not depend on the engine. *)
Lemma outside_ok g g' c : inside c = false -> caller_ok g c -> caller_ok g' c.
Proof. by destruct c. Qed.
Lemma caller_step_ok l g c bad lg l' g' c' bad' lg' :
  caller_step (l, g, c, bad, lg) (l', g', c', bad', lg') ->
  caller_ok g c -> (l = false -> g_busy g = false) -> Forall log_ok lg ->
  bad' = bad /\ caller_ok g' c' /\ (l' = false -> g_busy g' = false) /\ Forall log_ok lg' /\
  (if l' then 1 else 0) - b2z (inside c') = (if l then 1 else 0) - b2z (inside c) /\
  (l = false -> inside c' = true /\ g' = g) /\ (l = true -> inside c = true).
Proof.
  intros H O Z L. inversion H as [g0 p bad0 lg0|g0 p a rest st g1 s bad0 lg0 W A|g0 p a rest st bad0 lg0 A|g0 p st bad0 lg0]; subst.
  - split_and!; try done. cbn. split; [by exists (g_map g'), (g_addr g'), (g_size g')|]. exists false. split; [exact O|]. by rewrite Z.
  - destruct O as ((m & ad & sz & E) & w & Cw & Bw). split_and!; try done.
    destruct a; cbn [access_step alone calm] in A, E, Cw; try (destruct (g_busy g) eqn:B; [done|]); injection A as <- <-; cbn [caller_ok g_map g_addr g_size g_busy];
      (split; [exists m, ad, sz; by rewrite <- ?app_assoc, ?app_nil_r|]).
    + apply andb_prop in Cw as [_ Cw]. by exists w.
    + apply andb_prop in Cw as [_ Cw]. by exists w.
    + apply andb_prop in Cw as [_ Cw]. by exists w.
    + apply andb_prop in Cw as [_ Cw]. by exists true.
    + exists false. by rewrite W.
  - exfalso. destruct O as (_ & w & Cw & Bw). destruct a; cbn [access_step calm] in A, Cw; try done; destruct (g_busy g'); try done;
      rewrite Bw in Cw by done; done.
  - destruct O as ((m & ad & sz & E) & w & Cw & Bw). cbn in Cw. split_and!; try done.
    + intros _. destruct (g_busy g'); [|done]. by rewrite Bw in Cw.
    + apply Forall_app. split; [done|]. constructor; [|done]. exists m, ad, sz. cbn. by rewrite E, app_nil_r.
Qed.
Lemma b2z_01 (b : bool) : 0 <= b2z b <= 1.
Proof. by destruct b. Qed.
(** The other callers while one steps. *)
Lemma others_ok (l : bool) (g g' : engine) (c d : caller) (rest : Z) :
  0 <= rest -> (if l then 1 else 0) = b2z (inside c) + b2z (inside d) + rest ->
  (l = false -> g' = g) -> (l = true -> inside c = true) -> caller_ok g d -> caller_ok g' d.
Proof.
  intros R E H1 H2 O. destruct l; [|by rewrite H1]. rewrite H2 in E by done. cbn in E. apply (outside_ok g); [|done].
  destruct (inside d); [|done]. cbn in E. lia.
Qed.
Lemma calm_off_engine (g : engine) (c : caller) : caller_ok g c -> caller_ok (Engine (g_map g) (g_addr g) (g_size g) false) c.
Proof. destruct c; try done. intros (A & w & C & _). split; [exact A|]. by exists w. Qed.

Lemma inv_work a b : lock_inv a -> engine_work a b -> lock_inv b.
Proof.
  intros [B N Z T I S L M] H. destruct H as [l g c l' g' c' msk i h bad lg bad' lg' C Ei|l g msk h bad lg|l g c l' g' c' msk t h bad lg bad' lg' C|
    l g msk t h bad lg|l g c l' g' c' msk t i bad lg bad' lg' C|l g msk t i bad lg|l msk g t i h bad lg Bz];
    cbn [k_lock k_masked k_engine k_task k_isr k_sbi k_bad k_log] in *.
  - pose proof (b2z_01 (inside i)). pose proof (b2z_01 (inside h)).
    destruct (caller_step_ok _ _ _ _ _ _ _ _ _ _ C T Z L) as (-> & T' & Z' & L' & D & U & V). split; cbn; try done.
    + lia.
    + apply (others_ok l g g' c i (b2z (inside h))); first [done|lia|intros E; by apply U].
    + apply (others_ok l g g' c h (b2z (inside i))); first [done|lia|intros E; by apply U].
    + intros _. split; [done|]. apply M. intros ->. inversion C.
  - split; cbn; try done.
  - pose proof (b2z_01 (inside t)). pose proof (b2z_01 (inside h)).
    destruct (caller_step_ok _ _ _ _ _ _ _ _ _ _ C I Z L) as (-> & T' & Z' & L' & D & U & V). split; cbn; try done.
    + lia.
    + apply (others_ok l g g' c t (b2z (inside h))); first [done|lia|intros E; by apply U].
    + apply (others_ok l g g' c h (b2z (inside t))); first [done|lia|intros E; by apply U].
    + intros E. destruct (M E) as [-> _]. inversion C.
  - split; cbn; try done. intros E. by destruct (M E).
  - pose proof (b2z_01 (inside t)). pose proof (b2z_01 (inside i)).
    destruct (caller_step_ok _ _ _ _ _ _ _ _ _ _ C S Z L) as (-> & T' & Z' & L' & D & U & V). split; cbn; try done.
    + lia.
    + apply (others_ok l g g' c t (b2z (inside i))); first [done|lia|intros E; by apply U].
    + apply (others_ok l g g' c i (b2z (inside t))); first [done|lia|intros E; by apply U].
  - split; cbn; try done.
  - split; cbn; try done; by apply calm_off_engine.
Qed.
Lemma inv_call_lock a b : lock_inv a -> engine_call a b -> lock_inv b.
Proof.
  intros [B N Z T I S L M] H. destruct H; cbn [k_lock k_masked k_engine k_task k_isr k_sbi k_bad k_log] in *; split; cbn; try done.
  - intros E. by destruct (M E).
  - apply pass_calm.
Qed.
Lemma lock_inv_reachable g k : g_busy g = false -> lock_reachable g k -> lock_inv k.
Proof.
  intros G H. induction H as [|a b _ I H|a b _ I H]; [by split|by apply (inv_work a)|by apply (inv_call_lock a)].
Qed.

(** What is left to do: each step of [engine_work] takes some of it. *)
Definition todo (c : caller) : nat :=
  match c with Out => 0 | Spin p => 2 * length p + 3 | In _ rest _ => 2 * length rest + 2 | Leave => 1 end.
Definition todo_all (k : locked) : nat := todo (k_task k) + todo (k_isr k) + todo (k_sbi k) + (if g_busy (k_engine k) then 1 else 0).
Lemma caller_step_todo l g c bad lg l' g' c' bad' lg' : caller_step (l, g, c, bad, lg) (l', g', c', bad', lg') ->
  (todo c' + (if g_busy g' then 1 else 0) < todo c + (if g_busy g then 1 else 0))%nat.
Proof.
  intros H. inversion H as [| |g0 p a rest st bad0 lg0 A|]; subst; cbn [todo length]; try lia.
  destruct (g_busy g), (g_busy g'); lia.
Qed.
Lemma work_todo a b : engine_work a b -> (todo_all b < todo_all a)%nat.
Proof.
  intros H. destruct H as [? ? ? ? ? ? ? ? ? ? ? ? ? C ?| |? ? ? ? ? ? ? ? ? ? ? ? ? C| |? ? ? ? ? ? ? ? ? ? ? ? ? C| |? ? ? ? ? ? ? ? B];
    unfold todo_all; cbn [k_engine k_task k_isr k_sbi todo g_busy]; try apply caller_step_todo in C; try lia. rewrite B. lia.
Qed.

(** A caller that is at work can go on. *)
Lemma in_steps g p rest st bad lg : g_busy g = false -> exists x, caller_step (true, g, In p rest st, bad, lg) x.
Proof.
  intros B. destruct rest as [|a rest]; [eexists; apply k_unlock|].
  destruct (access_step a g) as [[g' s]|] eqn:E; [eexists; by apply k_act|eexists; by apply k_corrupt].
Qed.
Lemma lock_stuck k : lock_inv k -> (forall b, ~ engine_work k b) ->
  k_task k = Out /\ k_isr k = Out /\ k_sbi k = Out /\ k_lock k = false /\ g_busy (k_engine k) = false.
Proof.
  intros I N. destruct k as [l msk g t i h bad lg].
  assert (B : g_busy g = false). { destruct (g_busy g) eqn:E; [|done]. exfalso. eapply N. by apply w_done. }
  assert (T : forall p rest st, t = In p rest st -> l = true -> False).
  { intros p rest st -> ->. destruct (in_steps g p rest st bad lg B) as [[[[[l' g'] c'] b'] lg'] S]. destruct (li_mask _ I) as [Ei _]; [done|]. cbn in Ei.
    eapply N. by eapply w_task. }
  assert (J : forall p rest st, i = In p rest st -> l = true -> False).
  { intros p rest st -> ->. destruct (in_steps g p rest st bad lg B) as [[[[[l' g'] c'] b'] lg'] S]. eapply N. by eapply w_isr. }
  assert (S : forall p rest st, h = In p rest st -> l = true -> False).
  { intros p rest st -> ->. destruct (in_steps g p rest st bad lg B) as [[[[[l' g'] c'] b'] lg'] S]. eapply N. by eapply w_sbi. }
  pose proof (li_count _ I) as C. cbn in C.
  assert (l = false) as ->.
  { destruct l; [|done]. exfalso. destruct t; [| |by eapply T|]; (destruct i; [| |by eapply J|]); (destruct h; [| |by eapply S|]); cbn in C; lia. }
  assert (t = Out) as ->.
  { destruct t; [done|exfalso..]; (destruct (li_mask _ I) as [Ei _]; [done|]; cbn in Ei; subst i).
    - eapply N. eapply w_task; [apply k_spin|done].
    - cbn in C. pose proof (b2z_01 (inside h)). lia.
    - eapply N. apply w_unmask. }
  assert (i = Out) as ->.
  { destruct i; [done|exfalso..]; [eapply N; eapply w_isr, k_spin| |eapply N; apply w_isr_leave]. cbn in C. pose proof (b2z_01 (inside h)). lia. }
  assert (h = Out) as ->.
  { destruct h; [done|exfalso..]; [eapply N; eapply w_sbi, k_spin| |eapply N; apply w_sbi_leave]. cbn in C. lia. }
  done.
Qed.

(** * Properties *)

(** C13: the lock keeps the engine for one caller.  In every interleaving of hart 0's task and
    interrupt handler with OpenSBI no access goes to an engine that runs, at most one
    caller is inside, and each call that ended started exactly the
    operations that it starts when nobody else uses the engine. *)
Theorem cache_lock_exclusive g k : g_busy g = false -> lock_reachable g k ->
  k_bad k = false /\ b2z (inside (k_task k)) + b2z (inside (k_isr k)) + b2z (inside (k_sbi k)) <= 1 /\
  Forall (fun x => exists m a s, snd x = alone m a s (fst x)) (k_log k) /\
  forall x st, (sync_accesses x, st) ∈ k_log k -> st = replicate (passes (s_op x)) x.
Proof.
  intros G R. pose proof (lock_inv_reachable g k G R) as I. split_and!; [apply I| |apply I|].
  - rewrite <- (li_count _ I). destruct (k_lock k); lia.
  - intros x st H. pose proof (li_log _ I) as L. rewrite Forall_forall in L. apply list_elem_of_In, L in H as (m & a & s & E). cbn [fst snd] in E. by rewrite E, sync_alone.
Qed.

(** C14: no caller is left at the lock.  From every reachable state each run without new calls ends,
    after at most the number of steps that is left to do, and it can only end with every
    caller back, the lock free and the engine idle: neither hart, nor the handler that
    interrupts its task, can block the others. *)
Theorem cache_lock_free g k : g_busy g = false -> lock_reachable g k ->
  (forall n b, nsteps engine_work n k b -> (n <= todo_all k)%nat) /\
  forall b, rtc engine_work k b -> (forall b', ~ engine_work b b') ->
    k_task b = Out /\ k_isr b = Out /\ k_sbi b = Out /\ k_lock b = false /\ g_busy (k_engine b) = false.
Proof.
  intros G R. split.
  - intros n b H. induction H as [|n a b c H _ IH]; [lia|]. apply work_todo in H as L. specialize (IH (lr_work g a b R H)). lia.
  - intros b H. induction H as [k|a b c H _ IH]; [apply lock_stuck, (lock_inv_reachable g); done|]. apply IH. by apply lr_work with a.
Qed.

(** * Witnesses: a write-back of Linux, with the firmware at the lock. *)

Definition wback : sync := Sync CACHE_MAP_L1_DCACHE CACHE_WRITEBACK 0x50000000 64.
Definition rom_access : list access := [SetMap 16; SetAddr 0x40000000; SetSize 32; Start CACHE_INVALIDATE; WaitDone].
Definition engine0 : engine := Engine 0 0 0 false.
Definition both_spin : locked := Locked false true engine0 (Spin rom_access) Out (Spin (sync_accesses wback)) false [].
Lemma both_spin_reachable : lock_reachable engine0 both_spin.
Proof. eapply lr_call; [|apply c_sbi]. eapply lr_call; [apply lr_init|]. by apply c_task. Qed.
Definition wback_done : locked := Locked false true (Engine 16 0x50000000 64 false) (Spin rom_access) Out Leave false [(sync_accesses wback, [wback; wback])].
Lemma wback_runs : rtc engine_work both_spin wback_done.
Proof.
  unfold both_spin, wback_done. eapply rtc_l; [eapply w_sbi, k_spin|]. unfold sync_accesses at 2. cbn [app passes wback s_map s_op s_addr s_size].
  change (passes CACHE_WRITEBACK) with 2%nat. cbn [pass_accesses].
  do 3 (eapply rtc_l; [eapply w_sbi, k_act; [done|reflexivity]|]).
  do 2 (eapply rtc_l; [eapply w_sbi, k_act; [done|reflexivity]|]; eapply rtc_l; [by apply w_done|]; eapply rtc_l; [eapply w_sbi, k_act; [done|reflexivity]|]).
  eapply rtc_l; [eapply w_sbi, k_unlock|]. apply rtc_refl.
Qed.
Lemma wback_reachable : lock_reachable engine0 wback_done.
Proof.
  assert (X : forall a b, rtc engine_work a b -> lock_reachable engine0 a -> lock_reachable engine0 b).
  { intros a b H. induction H as [|a1 a2 a3 H1 H2 IH]; [done|]. intros R. apply IH. by apply lr_work with a1. }
  apply (X both_spin); [exact wback_runs|exact both_spin_reachable].
Qed.
Lemma cache_lock_exclusive_witness : k_bad wback_done = false /\ [wback; wback] = replicate (passes (s_op wback)) wback.
Proof.
  destruct (cache_lock_exclusive engine0 wback_done eq_refl wback_reachable) as (B & _ & _ & L). split; [exact B|].
  apply L. cbn [k_log wback_done]. by apply list_elem_of_singleton.
Defined.
Lemma cache_lock_free_witness : exists n, forall b, nsteps engine_work n both_spin b -> (n <= todo_all both_spin)%nat.
Proof. exists 3%nat. exact (proj1 (cache_lock_free engine0 both_spin eq_refl both_spin_reachable) 3%nat). Defined.
