(* ===== verification/Loader.v ===== *)
(** The boot loader on hart 0: bootloader/main/main.c.

    It opens the permission filters, copies OpenSBI and the kernel from flash to
    PSRAM, starts the firmware, hands hart 1 over and locks itself out of the
    memory of Linux.  What it does besides memory writes is a list of events, in
    their order.  ESP-IDF is a parameter: the partitions, what a read of the
    flash gives, the CRC of the ROM, the size of the PSRAM. *)

From Stdlib Require Import Ascii String.
From S2P Require Import Prelude Mem.

Open Scope Z_scope.

Definition PSRAM_BASE : Z := 0x50000000.
Definition OPENSBI_LOAD_ADDR : Z := 0x50F00000.
Definition KERNEL_LOAD_ADDR : Z := 0x50000000.
Definition KERNEL_IMAGE_SIZE_OFFSET : Z := 0x10.
Definition KERNEL_MAGIC2_OFFSET : Z := 0x38.
Definition KERNEL_MAGIC2 : Z := 0x05435352.
Definition KERNEL_SIZE_MAGIC : Z := 0x455A4953.
Definition PSRAM_PMA_SIZE : Z := 0x01000000.
Definition PSRAM_UNCACHED_BASE : Z := 0xC0000000.
Definition LINUX_HART : Z := 1.
Definition FW_PSRAM_HEAP_ADDR : Z := 0x50E80000.
Definition FW_PSRAM_HEAP_SIZE : Z := 0x00040000.
Definition LINUX_DMA_POOL_ADDR : Z := 0x2F040000.
Definition LINUX_DMA_POOL_SIZE : Z := 0x00010000.

(** * Events *)

(** The address of a PMP entry: one bound of a TOR range, or a NAPOT range. *)
Inductive pmp_addr := Bound (a : Z) | Napot (first end_ : Z).
(** A register of ESP-IDF is its name and an offset; [Call] is a call of a
    function of ESP-IDF or of another component. *)
Inductive ev :=
  | Reg (name : string) (off v : Z)
  | Call (f : string) (arg : Z)
  | PmaSetNapot (n base size flags : Z)
  | Jump (a0 a1 pc : Z)
  | PmpSet (n : Z) (a : pmp_addr) (cfg : Z)
  | PmpResetSet (n : Z) (a : pmp_addr) (cfg : Z).

(** [struct kernel_size_manifest]. *)
Record manifest := Manifest { magic : Z; image_size : Z; image_crc32 : Z }.
Definition manifest_size : Z := 12.
Definition to_manifest (b : list Z) : manifest :=
  Manifest (of_le (ztake 4 b)) (of_le (ztake 4 (zdrop 4 b))) (of_le (ztake 4 (zdrop 8 b))).

(** A partition of ESP-IDF: its size, and the error and the bytes that a read of
    an offset and a length gives. *)
Record partition := Partition { p_size : Z; p_read : Z -> Z -> Z * list Z }.
Definition ESP_OK : Z := 0.

Section loader.
Variable find : string -> option partition.
Variable crc32 : list Z -> Z.
Variable psram_size : Z.

(** * Hardware set up *)


(** Where hart 1 starts; [flags] is PMA_NAPOT | PMA_EN | PMA_R | PMA_W | PMA_X. *)
Definition linux_hart_entry (flags : Z) : list ev :=
  [PmaSetNapot 2 PSRAM_BASE PSRAM_PMA_SIZE flags; Jump LINUX_HART 0 OPENSBI_LOAD_ADDR].

(** * Protection *)

(** The bits of a PMP configuration. *)
Definition PMP_L : Z := 0x80.
Definition PMP_TOR : Z := 0x08.
Definition PMP_NAPOT : Z := 0x18.
Definition PMP_NO_ACCESS : Z := Z.lor PMP_L PMP_NAPOT.
Definition PMP_NO_ACCESS_TOR : Z := Z.lor PMP_L PMP_TOR.
Definition protect_linux_memory : list ev :=
  [PmpSet 10 (Bound PSRAM_BASE) 0;
   PmpResetSet 11 (Bound FW_PSRAM_HEAP_ADDR) PMP_NO_ACCESS_TOR;
   PmpSet 12 (Bound (FW_PSRAM_HEAP_ADDR + FW_PSRAM_HEAP_SIZE)) 0;
   PmpResetSet 13 (Bound (PSRAM_BASE + PSRAM_PMA_SIZE)) PMP_NO_ACCESS_TOR;
   PmpResetSet 14 (Napot PSRAM_UNCACHED_BASE (PSRAM_UNCACHED_BASE + PSRAM_PMA_SIZE)) PMP_NO_ACCESS;
   PmpResetSet 15 (Napot LINUX_DMA_POOL_ADDR (LINUX_DMA_POOL_ADDR + LINUX_DMA_POOL_SIZE)) PMP_NO_ACCESS].

(** * The images *)

(** esp_partition_read() to memory writes the bytes that it gives, also when it
    fails. *)
Definition read_partition (part : partition) (m : mem) (addr size : Z) : bool * mem :=
  let r := p_read part 0 size in
  (fst r =? ESP_OK, store_bytes m addr (snd r)).

Definition load_kernel_partition (m : mem) : bool * mem :=
  match find "linux" with
  | None => (false, m)
  | Some part =>
      let r := p_read part (u32 (p_size part - manifest_size)) manifest_size in
      let man := to_manifest (snd r) in
      if negb (fst r =? ESP_OK) || negb (magic man =? KERNEL_SIZE_MAGIC) ||
         (image_size man <? KERNEL_MAGIC2_OFFSET + 4) || (image_size man >? u32 (p_size part - manifest_size))
      then (false, m)
      else
        let size := image_size man in
        if u32 (KERNEL_LOAD_ADDR + size) >? u32 (PSRAM_BASE + psram_size) then (false, m)
        else
          let '(ok, m) := read_partition part m KERNEL_LOAD_ADDR size in
          if negb ok then (false, m)
          else if negb (crc32 (load_bytes m KERNEL_LOAD_ADDR size) =? image_crc32 man) then (false, m)
          else if negb (load32 m (KERNEL_LOAD_ADDR + KERNEL_MAGIC2_OFFSET) =? KERNEL_MAGIC2) then (false, m)
          else
            let memory_size := of_le (load_bytes m (KERNEL_LOAD_ADDR + KERNEL_IMAGE_SIZE_OFFSET) 8) in
            if (memory_size <? size) || (u64 (KERNEL_LOAD_ADDR + memory_size) >? FW_PSRAM_HEAP_ADDR) then (false, m)
            else (true, m)
  end.


(** * The main program *)

End loader.

(** * Loading *)



(** A kernel partition that loads: a manifest in its last bytes, an image that
    fits the partition and the PSRAM, with the CRC of the manifest and the magic
    of a RISC-V image, and a memory size that is not below the size of the
    image and that keeps the kernel below the heap. *)
Definition the_manifest (p : partition) : manifest := to_manifest (snd (p_read p (p_size p - manifest_size) manifest_size)).
Definition the_image (p : partition) : list Z := snd (p_read p 0 (image_size (the_manifest p))).
Definition memory_size (img : list Z) : Z := of_le (ztake 8 (zdrop KERNEL_IMAGE_SIZE_OFFSET img)).


Section load.
Variable find : string -> option partition.
Variable crc32 : list Z -> Z.
Variable psram_size : Z.
Hypothesis psram_range : 0 <= psram_size <= 0x04000000.





End load.

(** * The lock of hart 0 *)

(** The PMP of a hart, as the RISC-V privileged architecture defines it: an entry
    has an address and a configuration, of which bits 0 to 2 give read, write
    and execute access, bits 3 and 4 the kind of the range and bit 7 the lock. *)
Definition pmp := Z -> pmp_addr * Z.
Definition pmp_upd (P : pmp) (n : Z) (e : pmp_addr * Z) : pmp := fun k => if k =? n then e else P k.
Definition pmp_step (P : pmp) (e : ev) : pmp :=
  match e with
  | PmpSet n a cfg => pmp_upd P n (a, Z.lor (snd (P n)) cfg)
  | PmpResetSet n a cfg => pmp_upd P n (a, cfg)
  | _ => P
  end.
Definition pmp_kind (cfg : Z) : Z := Z.land cfg 0x18.
Definition matches (P : pmp) (n a : Z) : bool :=
  let '(ad, cfg) := P n in
  if pmp_kind cfg =? PMP_TOR then
    match fst (P (n - 1)), ad with Bound lo, Bound hi => (lo <=? a) && (a <? hi) | _, _ => false end
  else if pmp_kind cfg =? PMP_NAPOT then
    match ad with Napot lo hi => (lo <=? a) && (a <? hi) | Bound _ => false end
  else false.
(** No access for M-mode either: locked, and without read, write and execute. *)
Definition no_access (P : pmp) (n : Z) : Prop := Z.land (snd (P n)) 0x87 = PMP_L.
Definition linux_entries : list Z := [10; 11; 12; 13; 14; 15].

(** The memory of Linux, with its alias that is not cached and its DMA pool. *)
Definition linux_memory (a : Z) : Prop :=
  (range PSRAM_BASE PSRAM_PMA_SIZE a /\ ~ range FW_PSRAM_HEAP_ADDR FW_PSRAM_HEAP_SIZE a) \/
  range PSRAM_UNCACHED_BASE PSRAM_PMA_SIZE a \/ range LINUX_DMA_POOL_ADDR LINUX_DMA_POOL_SIZE a.

Definition one_match (P : pmp) : Prop :=
  forall a n k, In n linux_entries -> In k linux_entries -> matches P n a = true -> matches P k a = true -> n = k.

Fixpoint pmp_always (Q : pmp -> Prop) (P : pmp) (l : list ev) : Prop :=
  Q P /\ match l with [] => True | e :: l => pmp_always Q (pmp_step P e) l end.

Lemma match_tor P n a lo hi cfg : P n = (Bound hi, cfg) -> fst (P (n - 1)) = Bound lo -> pmp_kind cfg = PMP_TOR ->
  matches P n a = true <-> lo <= a < hi.
Proof. intros E1 E2 E3. unfold matches. rewrite E1, E2, E3. cbn. rewrite andb_true_iff, Z.leb_le, Z.ltb_lt. done. Qed.
Lemma match_napot P n a lo hi cfg : P n = (Napot lo hi, cfg) -> pmp_kind cfg = PMP_NAPOT ->
  matches P n a = true <-> lo <= a < hi.
Proof. intros E1 E3. unfold matches. rewrite E1, E3. cbn. rewrite andb_true_iff, Z.leb_le, Z.ltb_lt. done. Qed.
Lemma match_off P n a : pmp_kind (snd (P n)) = 0 -> matches P n a = true <-> False.
Proof. intros E. unfold matches. destruct (P n) as [ad cfg]. cbn in E. rewrite E. done. Qed.

(** The ranges of the six entries, as far as they are set. *)
Definition set_ranges (b11 b13 b14 b15 : bool) (P : pmp) : Prop := forall a,
  (matches P 10 a = true <-> False) /\
  (matches P 11 a = true <-> if b11 then PSRAM_BASE <= a < FW_PSRAM_HEAP_ADDR else False) /\
  (matches P 12 a = true <-> False) /\
  (matches P 13 a = true <-> if b13 then FW_PSRAM_HEAP_ADDR + FW_PSRAM_HEAP_SIZE <= a < PSRAM_BASE + PSRAM_PMA_SIZE else False) /\
  (matches P 14 a = true <-> if b14 then PSRAM_UNCACHED_BASE <= a < PSRAM_UNCACHED_BASE + PSRAM_PMA_SIZE else False) /\
  (matches P 15 a = true <-> if b15 then LINUX_DMA_POOL_ADDR <= a < LINUX_DMA_POOL_ADDR + LINUX_DMA_POOL_SIZE else False).
Lemma set_ranges_one b11 b13 b14 b15 P : set_ranges b11 b13 b14 b15 P -> one_match P.
Proof.
  intros S a n k Hn Hk Mn Mk. destruct (S a) as (S10 & S11 & S12 & S13 & S14 & S15).
  unfold PSRAM_BASE, PSRAM_PMA_SIZE, FW_PSRAM_HEAP_ADDR, FW_PSRAM_HEAP_SIZE, PSRAM_UNCACHED_BASE, LINUX_DMA_POOL_ADDR,
    LINUX_DMA_POOL_SIZE in *.
  repeat (destruct Hn as [<-|Hn]; [|]); try done; repeat (destruct Hk as [<-|Hk]; [|]); try done; exfalso;
    (first [apply S10 in Mn|apply S11 in Mn|apply S12 in Mn|apply S13 in Mn|apply S14 in Mn|apply S15 in Mn]);
    (first [apply S10 in Mk|apply S11 in Mk|apply S12 in Mk|apply S13 in Mk|apply S14 in Mk|apply S15 in Mk]);
    destruct b11, b13, b14, b15; lia.
Qed.

Definition linux_off (P : pmp) : Prop := forall n, In n linux_entries -> pmp_kind (snd (P n)) = 0.
Lemma kind_lor_0 x : pmp_kind x = 0 -> pmp_kind (Z.lor x 0) = 0.
Proof. by rewrite Z.lor_0_r. Qed.
Ltac range_iff H := first
  [ apply match_off; first [apply H; cbn; tauto|apply kind_lor_0, H; cbn; tauto]
  | apply (match_tor _ _ _ _ _ PMP_NO_ACCESS_TOR); reflexivity
  | apply (match_napot _ _ _ _ _ PMP_NO_ACCESS); reflexivity ].

Ltac ranges_are H := intros a; do 5 (split; [range_iff H|]); range_iff H.

Lemma protect_one P : linux_off P -> pmp_always one_match P protect_linux_memory.
Proof.
  intros H. cbn [pmp_always protect_linux_memory].
  split; [apply (set_ranges_one false false false false); ranges_are H|].
  split; [apply (set_ranges_one false false false false); ranges_are H|].
  split; [apply (set_ranges_one true false false false); ranges_are H|].
  split; [apply (set_ranges_one true false false false); ranges_are H|].
  split; [apply (set_ranges_one true true false false); ranges_are H|].
  split; [apply (set_ranges_one true true true false); ranges_are H|].
  split; [apply (set_ranges_one true true true true); ranges_are H|done].
Qed.
Lemma protect_final P : linux_off P -> set_ranges true true true true (foldl pmp_step P protect_linux_memory).
Proof. intros H. cbn [foldl protect_linux_memory]. ranges_are H. Qed.

(** C28: Protect_linux_memory() sets the six PMP entries so that no two of them
    match one address after any of its steps, which faults on this CPU; and
    then hart 0 has no access to just the memory of Linux: the PSRAM without
    the heap of the firmware, the alias of the PSRAM and the DMA pool, each by
    a locked entry.  The other entries stay as they were. *)
Theorem pmp_protects P : linux_off P ->
  pmp_always one_match P protect_linux_memory /\
  let P' := foldl pmp_step P protect_linux_memory in
  (forall a, linux_memory a <-> exists n, In n linux_entries /\ matches P' n a = true) /\
  (forall a n, In n linux_entries -> matches P' n a = true -> no_access P' n) /\
  (forall n, n < 10 \/ 15 < n -> P' n = P n).
Proof.
  intros H. split; [by apply protect_one|]. pose proof (protect_final P H) as F. cbn zeta.
  set (P' := foldl pmp_step P protect_linux_memory) in *. split; [|split].
  - intros a. destruct (F a) as (S10 & S11 & S12 & S13 & S14 & S15). unfold linux_memory, range. split.
    + intros L. destruct L as [[L1 L2]|[L|L]].
      * destruct (Z_lt_dec a FW_PSRAM_HEAP_ADDR); [exists 11|exists 13]; (split; [cbn; tauto|]); [apply S11|apply S13]; lia.
      * exists 14. split; [cbn; tauto|]. by apply S14.
      * exists 15. split; [cbn; tauto|]. by apply S15.
    + intros (n & Hn & M). unfold PSRAM_BASE, PSRAM_PMA_SIZE, FW_PSRAM_HEAP_ADDR, FW_PSRAM_HEAP_SIZE, PSRAM_UNCACHED_BASE,
        LINUX_DMA_POOL_ADDR, LINUX_DMA_POOL_SIZE in *.
      repeat (destruct Hn as [<-|Hn]; [|]); try done;
        (first [apply S10 in M|apply S11 in M|apply S12 in M|apply S13 in M|apply S14 in M|apply S15 in M]); lia.
  - intros a n Hn M. destruct (F a) as (S10 & _ & S12 & _).
    repeat (destruct Hn as [<-|Hn]; [|]); try done; first [by apply S10 in M|by apply S12 in M|reflexivity].
  - intros n Hn. unfold P', protect_linux_memory. cbn [foldl pmp_step]. unfold pmp_upd.
    assert (forall k, 10 <= k <= 15 -> (n =? k) = false) as E by (intros; apply Z.eqb_neq; lia).
    by rewrite (E 15), (E 14), (E 13), (E 12), (E 11), (E 10) by lia.
Qed.

(** After a reset every entry is off. *)
Lemma pmp_protects_witness :
  let P := fun _ => (Bound 0, 0) in
  pmp_always one_match P protect_linux_memory /\
  let P' := foldl pmp_step P protect_linux_memory in
  (forall a, linux_memory a <-> exists n, In n linux_entries /\ matches P' n a = true) /\
  (forall a n, In n linux_entries -> matches P' n a = true -> no_access P' n) /\
  (forall n, n < 10 \/ 15 < n -> P' n = P n).
Proof. apply pmp_protects. intros n _. reflexivity. Defined.

(** * A small flash *)

(** A partition that holds [data]: what esp_partition_read() does with it. *)
Definition part_of (data : list Z) : partition :=
  Partition (zlen data) (fun off n => match slice data off n with Some b => (ESP_OK, b) | None => (1, []) end).

(** An image of 64 bytes with the memory size [ms] and a manifest of the CRC 7. *)
Definition small_image (ms : list Z) : list Z :=
  zeros 16 ++ ms ++ zeros 32 ++ le32 KERNEL_MAGIC2 ++ zeros 4.
Definition small_kernel (ms : list Z) : partition :=
  part_of (small_image ms ++ zeros 100 ++ le32 KERNEL_SIZE_MAGIC ++ le32 64 ++ le32 7).
Definition find2 (p q : partition) (name : string) : option partition :=
  if String.eqb name "linux" then Some p else if String.eqb name "opensbi" then Some q else None.


(** A memory size of the 64-bit kind wraps: an image whose header says 2^64 - 1
    bytes loads, although no memory has them. *)
Lemma load_kernel_wrap :
  let p := small_kernel (replicate 8 255) in
  memory_size (the_image p) = 18446744073709551615 /\
  fst (load_kernel_partition (find2 p p) (fun _ => 7) 0x01000000 (fun _ => 0)) = true.
Proof. split; vm_compute; reflexivity. Qed.
