(* ===== verification/Uart.v ===== *)
(** The serial port: linux/drivers/tty/serial/esp32_uart.c.

    A function that accesses the port is a program of [Device.io] over the
    offsets of its registers.  The serial core is a parameter: what it takes
    from the transmit buffer, whether a character is a SysRq character, and the
    baud rate that it finds for a range.  A wait with a time limit takes the
    number of its reads before the limit. *)

From S2P Require Import Prelude Device.

(** * Registers *)

Definition ESP32_UART_TX_FIFO_SIZE : Z := 127.
Definition ESP32_UART_RX_FLOW_THRHD : Z := 120.
Definition UART_FIFO_REG : Z := 0x00.
Definition UART_INT_ST_REG : Z := 0x08.
Definition UART_INT_ENA_REG : Z := 0x0c.
Definition UART_INT_CLR_REG : Z := 0x10.
Definition UART_RXFIFO_FULL_INT : Z := BIT 0.
Definition UART_TXFIFO_EMPTY_INT : Z := BIT 1.
Definition UART_BRK_DET_INT : Z := BIT 7.
Definition UART_RXFIFO_TOUT_INT : Z := BIT 8.
Definition UART_CLKDIV_SYNC_REG : Z := 0x14.
Definition UART_CLKDIV : Z := GENMASK 11 0.
Definition UART_CLKDIV_FRAG : Z := GENMASK 23 20.
Definition UART_STATUS_REG : Z := 0x1c.
Definition UART_RXFIFO_CNT : Z := GENMASK 7 0.
Definition UART_DSRN : Z := BIT 13.
Definition UART_CTSN : Z := BIT 14.
Definition UART_TXFIFO_CNT : Z := GENMASK 23 16.
Definition UART_CONF0_SYNC_REG : Z := 0x20.
Definition UART_PARITY : Z := BIT 0.
Definition UART_PARITY_EN : Z := BIT 1.
Definition UART_BIT_NUM : Z := GENMASK 3 2.
Definition UART_BIT_NUM_5 : Z := 0.
Definition UART_BIT_NUM_6 : Z := 1.
Definition UART_BIT_NUM_7 : Z := 2.
Definition UART_BIT_NUM_8 : Z := 3.
Definition UART_STOP_BIT_NUM : Z := GENMASK 5 4.
Definition UART_STOP_BIT_NUM_1 : Z := 1.
Definition UART_STOP_BIT_NUM_2 : Z := 3.
Definition UART_LOOPBACK : Z := BIT 12.
Definition UART_TX_FLOW_EN : Z := BIT 13.
Definition UART_SW_RTS : Z := BIT 21.
Definition UART_CONF1_REG : Z := 0x24.
Definition UART_RXFIFO_FULL_THRHD : Z := GENMASK 7 0.
Definition UART_TXFIFO_EMPTY_THRHD : Z := GENMASK 15 8.
Definition UART_RTS_INV : Z := BIT 18.
Definition UART_DTR_INV : Z := BIT 19.
Definition UART_SW_DTR : Z := BIT 20.
Definition UART_HWFC_CONF_SYNC_REG : Z := 0x2c.
Definition UART_RX_FLOW_THRHD : Z := GENMASK 7 0.
Definition UART_RX_FLOW_EN : Z := BIT 8.
Definition UART_TOUT_CONF_SYNC_REG : Z := 0x64.
Definition UART_RX_TOUT_EN : Z := BIT 0.
Definition UART_RX_TOUT_THRHD : Z := GENMASK 11 2.
Definition UART_CLK_CONF_REG : Z := 0x88.
Definition UART_TX_SCLK_EN : Z := BIT 24.
Definition UART_RX_SCLK_EN : Z := BIT 25.
Definition UART_REG_UPDATE_REG : Z := 0x98.
Definition UART_REG_UPDATE : Z := BIT 0.
Definition ESP32_UART_RX_THRHD : Z := 64.
Definition ESP32_UART_RX_TOUT : Z := 10.
Definition ESP32_UART_RX_INTS : Z := Z.lor (Z.lor UART_RXFIFO_FULL_INT UART_RXFIFO_TOUT_INT) UART_BRK_DET_INT.
Definition ESP32_UART_DIV16_MIN : Z := 16 * 8.
Definition ESP32_UART_DIV16_MAX : Z := 16 * UART_CLKDIV + 15.

(** * Accesses *)

Definition esp32_uart_write (reg v : Z) : io unit := emit (W32 reg (u32 v)).
Definition esp32_uart_read (reg : Z) : io Z := dev_input (fun v => R32 reg v).
(** [x &= ~m] *)
Definition clear_bits (x m : Z) : Z := Z.land x (not32 m).

(** readl_poll_timeout_atomic(): the first read, and [n] more at most. *)
Fixpoint poll_update (n : nat) : io unit :=
  v ← esp32_uart_read UART_REG_UPDATE_REG;
  if negb (nz (Z.land v UART_REG_UPDATE)) then mret tt
  else match n with O => mret tt | S n => poll_update n end.
Definition esp32_uart_update (n : nat) : io unit :=
  esp32_uart_write UART_REG_UPDATE_REG UART_REG_UPDATE;; poll_update n.

Definition esp32_uart_tx_fifo_cnt : io Z :=
  status ← esp32_uart_read UART_STATUS_REG; mret (FIELD_GET UART_TXFIFO_CNT status).
Definition esp32_uart_rx_fifo_cnt : io Z :=
  status ← esp32_uart_read UART_STATUS_REG; mret (FIELD_GET UART_RXFIFO_CNT status).
(** TIOCSER_TEMT is [true]. *)
Definition esp32_uart_tx_empty : io bool := n ← esp32_uart_tx_fifo_cnt; mret (negb (nz n)).

(** The modem lines of TIOCMSET. *)
Record mctrl := Mctrl { m_rts : bool; m_dtr : bool; m_loop : bool }.
Definition set_if (b : bool) (x m : Z) : Z := if b then Z.lor x m else x.
Definition esp32_uart_set_mctrl (n : nat) (m : mctrl) : io unit :=
  conf0 ← esp32_uart_read UART_CONF0_SYNC_REG;
  conf1 ← esp32_uart_read UART_CONF1_REG;
  let conf0 := clear_bits conf0 (Z.lor UART_LOOPBACK UART_SW_RTS) in
  let conf1 := clear_bits conf1 (Z.lor (Z.lor UART_SW_DTR UART_RTS_INV) UART_DTR_INV) in
  let conf0 := set_if (m_rts m) conf0 UART_SW_RTS in
  let conf1 := set_if (m_dtr m) conf1 UART_SW_DTR in
  let conf0 := set_if (m_loop m) conf0 UART_LOOPBACK in
  esp32_uart_write UART_CONF0_SYNC_REG conf0;;
  esp32_uart_write UART_CONF1_REG conf1;;
  esp32_uart_update n.
(** The lines CAR, DSR and CTS. *)
Definition esp32_uart_get_mctrl : io (bool * bool * bool) :=
  status ← esp32_uart_read UART_STATUS_REG;
  mret (true, nz (Z.land status UART_DSRN), nz (Z.land status UART_CTSN)).

Definition esp32_uart_stop_tx : io unit :=
  int_ena ← esp32_uart_read UART_INT_ENA_REG;
  esp32_uart_write UART_INT_ENA_REG (clear_bits int_ena UART_TXFIFO_EMPTY_INT).
Definition esp32_uart_stop_rx : io unit :=
  int_ena ← esp32_uart_read UART_INT_ENA_REG;
  esp32_uart_write UART_INT_ENA_REG (clear_bits int_ena (Z.lor UART_RXFIFO_FULL_INT UART_RXFIFO_TOUT_INT)).

Definition esp32_uart_put_char (c : Z) : io unit := esp32_uart_write UART_FIFO_REG c.

(** * Receive *)

Section rx.
(** uart_handle_sysrq_char(): the character is not for the terminal. *)
Variable sysrq : Z -> bool.

(** What the terminal gets: a character, or a break. *)
Inductive rx_event := RxChar (c : Z) | RxBreak.
Fixpoint rxint_loop (n : nat) : io (list rx_event) :=
  match n with
  | O => mret []
  | S n =>
      rx ← esp32_uart_read UART_FIFO_REG;
      brk ← (if nz rx then mret false
             else st ← esp32_uart_read UART_INT_ST_REG; mret (nz (Z.land st UART_BRK_DET_INT)));
      if brk : bool then
        esp32_uart_write UART_INT_CLR_REG UART_BRK_DET_INT;;
        l ← rxint_loop n; mret (RxBreak :: l)
      else if sysrq (u8 rx) then rxint_loop n
      else l ← rxint_loop n; mret (RxChar (u8 rx) :: l)
  end.
Definition esp32_uart_rxint : io (list rx_event) :=
  rx_fifo_cnt ← esp32_uart_rx_fifo_cnt;
  if negb (nz rx_fifo_cnt) then mret [] else rxint_loop (Z.to_nat rx_fifo_cnt).
End rx.

(** * Transmit *)

(** [n] is the number of reads in a second. *)
Fixpoint esp32_uart_put_char_sync (n : nat) (c : Z) : io unit :=
  cnt ← esp32_uart_tx_fifo_cnt;
  if cnt >=? ESP32_UART_TX_FIFO_SIZE then
    match n with O => mret tt | S n => esp32_uart_put_char_sync n c end
  else esp32_uart_put_char c.
(** [chars] is what uart_console_write() gives of the text, character by
    character; the lock of the port is not of the model. *)
Fixpoint put_sync_all (n : nat) (l : list Z) : io unit :=
  match l with [] => mret tt | c :: l => esp32_uart_put_char_sync n c;; put_sync_all n l end.
Definition esp32_uart_console_write (chars : list Z -> list Z) (n : nat) (s : list Z) : io unit :=
  put_sync_all n (chars s).
Fixpoint put_chars (l : list Z) : io unit :=
  match l with [] => mret tt | c :: l => esp32_uart_put_char c;; put_chars l end.

(** What uart_port_tx_limited() takes of the transmit buffer: the characters for
    the port, those that stay, and whether it calls stop_tx(). *)
Class TxLimited (tx : Type) := {
  tx_data : tx -> list Z;
  tx_limited : tx -> Z -> list Z * tx * bool }.

Section tx.
Context {tx : Type} `{TxLimited tx}.

Definition esp32_uart_transmit_buffer (t : tx) : io tx :=
  tx_fifo_used ← esp32_uart_tx_fifo_cnt;
  if tx_fifo_used >=? ESP32_UART_TX_FIFO_SIZE then mret t
  else
    let '(chars, t, stop) := tx_limited t (ESP32_UART_TX_FIFO_SIZE - tx_fifo_used) in
    put_chars chars;;
    (if stop : bool then esp32_uart_stop_tx else mret tt);;
    if nz (zlen (tx_data t)) then
      int_ena ← esp32_uart_read UART_INT_ENA_REG;
      esp32_uart_write UART_INT_ENA_REG (Z.lor int_ena UART_TXFIFO_EMPTY_INT);;
      mret t
    else mret t.

(** IRQ_RETVAL(status) is [true] for IRQ_HANDLED. *)
Definition esp32_uart_int (sysrq : Z -> bool) (t : tx) : io (list rx_event * tx * bool) :=
  status ← esp32_uart_read UART_INT_ST_REG;
  rx ← (if nz (Z.land status ESP32_UART_RX_INTS) then esp32_uart_rxint sysrq else mret []);
  t ← (if nz (Z.land status UART_TXFIFO_EMPTY_INT) then esp32_uart_transmit_buffer t else mret t);
  esp32_uart_write UART_INT_CLR_REG status;;
  mret (rx, t, nz status).
End tx.

(** * Set up *)

(** [clk] and [irq] are the results of clk_prepare_enable() and request_irq(). *)
Definition esp32_uart_startup (n : nat) (clk irq : Z) : io Z :=
  if nz clk then mret clk
  else if nz irq then mret irq
  else
    v ← esp32_uart_read UART_CLK_CONF_REG;
    esp32_uart_write UART_CLK_CONF_REG (Z.lor (Z.lor v UART_TX_SCLK_EN) UART_RX_SCLK_EN);;
    conf1 ← esp32_uart_read UART_CONF1_REG;
    let conf1 := clear_bits conf1 (Z.lor UART_RXFIFO_FULL_THRHD UART_TXFIFO_EMPTY_THRHD) in
    esp32_uart_write UART_CONF1_REG
      (Z.lor conf1 (Z.lor (FIELD_PREP UART_RXFIFO_FULL_THRHD ESP32_UART_RX_THRHD) (FIELD_PREP UART_TXFIFO_EMPTY_THRHD 1)));;
    esp32_uart_write UART_TOUT_CONF_SYNC_REG
      (Z.lor (FIELD_PREP UART_RX_TOUT_THRHD ESP32_UART_RX_TOUT) UART_RX_TOUT_EN);;
    esp32_uart_update n;;
    esp32_uart_write UART_INT_CLR_REG ESP32_UART_RX_INTS;;
    esp32_uart_write UART_INT_ENA_REG ESP32_UART_RX_INTS;;
    mret 0.
Definition esp32_uart_shutdown : io unit := esp32_uart_write UART_INT_ENA_REG 0.

Definition esp32_uart_set_baud (uartclk baud : Z) : io bool :=
  if baud =? 0 then mret false
  else
    let div16 := u32 (DIV_ROUND_CLOSEST (u32 (uartclk * 16)) baud) in
    if (div16 <? ESP32_UART_DIV16_MIN) || (div16 >? ESP32_UART_DIV16_MAX) then mret false
    else
      esp32_uart_write UART_CLKDIV_SYNC_REG
        (Z.lor (FIELD_PREP UART_CLKDIV (Z.shiftr div16 4)) (FIELD_PREP UART_CLKDIV_FRAG (Z.land div16 15)));;
      mret true.

(** The flags of [termios->c_cflag] that the driver reads. *)
Inductive csize := CS5 | CS6 | CS7 | CS8.
Record cflag := Cflag { PARENB : bool; PARODD : bool; CSIZE : csize; CSTOPB : bool; CRTSCTS : bool }.
Definition bit_num (c : csize) : Z :=
  match c with CS5 => UART_BIT_NUM_5 | CS6 => UART_BIT_NUM_6 | CS7 => UART_BIT_NUM_7 | CS8 => UART_BIT_NUM_8 end.
Definition termios_conf0 (conf0 : Z) (c : cflag) : Z :=
  let conf0 := clear_bits conf0
    (Z.lor (Z.lor (Z.lor (Z.lor UART_PARITY_EN UART_PARITY) UART_BIT_NUM) UART_STOP_BIT_NUM) UART_TX_FLOW_EN) in
  let conf0 := set_if (PARENB c) conf0 UART_PARITY_EN in
  let conf0 := set_if (PARENB c && PARODD c) conf0 UART_PARITY in
  let conf0 := Z.lor conf0 (FIELD_PREP UART_BIT_NUM (bit_num (CSIZE c))) in
  let conf0 := Z.lor conf0 (FIELD_PREP UART_STOP_BIT_NUM (if CSTOPB c then UART_STOP_BIT_NUM_2 else UART_STOP_BIT_NUM_1)) in
  set_if (CRTSCTS c) conf0 UART_TX_FLOW_EN.
(** [get_baud] is uart_get_baud_rate() of the range; the result is the rate that
    the terminal has then, of uart_update_timeout() and of the termios. *)
Definition esp32_uart_set_termios (n : nat) (uartclk : Z) (get_baud : Z -> Z -> Z) (c : cflag) : io Z :=
  let baud := get_baud (DIV_ROUND_UP (u32 (uartclk * 16)) ESP32_UART_DIV16_MAX) (u32 (uartclk * 16) / ESP32_UART_DIV16_MIN) in
  conf0 ← esp32_uart_read UART_CONF0_SYNC_REG;
  let hwfc := if CRTSCTS c
              then Z.lor (FIELD_PREP UART_RX_FLOW_THRHD ESP32_UART_RX_FLOW_THRHD) UART_RX_FLOW_EN else 0 in
  esp32_uart_write UART_CONF0_SYNC_REG (termios_conf0 conf0 c);;
  esp32_uart_write UART_HWFC_CONF_SYNC_REG hwfc;;
  ok ← esp32_uart_set_baud uartclk baud;
  baud ← (if ok : bool then mret baud
          else ok ← esp32_uart_set_baud uartclk 115200; mret (if ok : bool then 115200 else baud));
  esp32_uart_update n;;
  mret baud.

(** NO_POLL_CHAR is [None]. *)
Definition esp32_uart_poll_get_char : io (option Z) :=
  n ← esp32_uart_rx_fifo_cnt;
  if nz n then v ← esp32_uart_read UART_FIFO_REG; mret (Some v) else mret None.
Fixpoint earlycon_read (n : nat) : io (list Z) :=
  match n with
  | O => mret []
  | S n =>
      c ← esp32_uart_poll_get_char;
      match c with None => mret [] | Some c => l ← earlycon_read n; mret (u8 c :: l) end
  end.
(** [uartclk] and [baud] are of the earlycon device. *)
Definition early_console_setup (n : nat) (membase : bool) (uartclk baud : Z) : io Z :=
  if negb membase then mret (- ENODEV)
  else if nz uartclk && nz baud then
    ok ← esp32_uart_set_baud uartclk baud;
    (if ok : bool then esp32_uart_update n else mret tt);; mret 0
  else mret 0.

(** * The divider *)

Definition baud_min (uartclk : Z) : Z := DIV_ROUND_UP (uartclk * 16) ESP32_UART_DIV16_MAX.
Definition baud_max (uartclk : Z) : Z := uartclk * 16 / ESP32_UART_DIV16_MIN.
Lemma div16_range uartclk baud : 0 < uartclk -> 0 < baud -> baud_min uartclk <= baud <= baud_max uartclk ->
  ESP32_UART_DIV16_MIN <= DIV_ROUND_CLOSEST (uartclk * 16) baud <= ESP32_UART_DIV16_MAX.
Proof.
  unfold baud_min, baud_max, DIV_ROUND_UP. change ESP32_UART_DIV16_MAX with 65535. change ESP32_UART_DIV16_MIN with 128.
  intros Hc Hb [H1 H2]. pose proof (div_round_closest (uartclk * 16) baud ltac:(lia) ltac:(lia)) as (_ & A & B).
  cbn zeta in A, B. set (q := DIV_ROUND_CLOSEST (uartclk * 16) baud) in *.
  pose proof (Z.div_mod (uartclk * 16 + 65535 - 1) 65535) as E1. pose proof (Z.mod_pos_bound (uartclk * 16 + 65535 - 1) 65535) as B1.
  pose proof (Z.div_mod (uartclk * 16) 128) as E2. pose proof (Z.mod_pos_bound (uartclk * 16) 128) as B2.
  assert (128 * baud <= uartclk * 16 <= 65535 * baud) as [L U] by lia. split; nia.
Qed.

(** The two fields of the divider give it back. *)
Lemma clkdiv_fields d : 0 <= d <= 65535 ->
  let v := Z.lor (FIELD_PREP UART_CLKDIV (Z.shiftr d 4)) (FIELD_PREP UART_CLKDIV_FRAG (Z.land d 15)) in
  0 <= v < 4294967296 /\ FIELD_GET UART_CLKDIV v * 16 + FIELD_GET UART_CLKDIV_FRAG v = d.
Proof.
  intros H. cbn zeta.
  rewrite (FIELD_PREP_eq UART_CLKDIV 12 0), (FIELD_PREP_eq UART_CLKDIV_FRAG 4 20) by done.
  rewrite (FIELD_GET_eq UART_CLKDIV 12 0), (FIELD_GET_eq UART_CLKDIV_FRAG 4 20) by done.
  rewrite Z.shiftl_0_r, Z.shiftr_div_pow2 by lia. change 15 with (Z.ones 4). rewrite Z.land_ones by lia.
  change (2 ^ 12) with 4096. change (2 ^ 4) with 16. change (2 ^ 20) with 1048576. change (2 ^ 0) with 1.
  rewrite (lor_add _ _ 20 1048576) by (try lia; Z.to_euclidean_division_equations; lia).
  Z.to_euclidean_division_equations. lia.
Qed.

(** What set_baud() does. *)
Lemma set_baud_ok uartclk baud ins : 0 < uartclk -> uartclk * 16 < 4294967296 -> 0 < baud ->
  ESP32_UART_DIV16_MIN <= DIV_ROUND_CLOSEST (uartclk * 16) baud <= ESP32_UART_DIV16_MAX ->
  exists v, esp32_uart_set_baud uartclk baud ins = Some (true, [W32 UART_CLKDIV_SYNC_REG v], ins) /\
    FIELD_GET UART_CLKDIV v * 16 + FIELD_GET UART_CLKDIV_FRAG v = DIV_ROUND_CLOSEST (uartclk * 16) baud.
Proof.
  change ESP32_UART_DIV16_MAX with 65535. change ESP32_UART_DIV16_MIN with 128. intros Hc Hw Hb R. unfold esp32_uart_set_baud.
  destruct (Z.eqb_spec baud 0); [lia|]. rewrite (u32_small (uartclk * 16)) by lia.
  set (d := DIV_ROUND_CLOSEST (uartclk * 16) baud) in *. rewrite (u32_small d) by lia.
  change ESP32_UART_DIV16_MAX with 65535. change ESP32_UART_DIV16_MIN with 128.
  destruct (Z.ltb_spec d 128); [lia|]. rewrite Z.gtb_ltb. destruct (Z.ltb_spec 65535 d); [lia|]. cbn [orb].
  destruct (clkdiv_fields d ltac:(lia)) as [V E]. eexists. split; [reflexivity|]. by rewrite u32_small.
Qed.

(** * The frame *)

(** The frame of a configuration: the parity (odd is [true]), the number of bits,
    the stop bits of the register and the flow control of CTS. *)
Definition frame_of (conf0 : Z) : option bool * Z * Z * bool :=
  (if nz (FIELD_GET UART_PARITY_EN conf0) then Some (nz (FIELD_GET UART_PARITY conf0)) else None,
   FIELD_GET UART_BIT_NUM conf0 + 5, FIELD_GET UART_STOP_BIT_NUM conf0, nz (FIELD_GET UART_TX_FLOW_EN conf0)).
Definition frame_of_cflag (c : cflag) : option bool * Z * Z * bool :=
  (if PARENB c then Some (PARODD c) else None,
   match CSIZE c with CS5 => 5 | CS6 => 6 | CS7 => 7 | CS8 => 8 end,
   if CSTOPB c then UART_STOP_BIT_NUM_2 else UART_STOP_BIT_NUM_1, CRTSCTS c).
Definition frame_mask : Z :=
  Z.lor (Z.lor (Z.lor (Z.lor UART_PARITY_EN UART_PARITY) UART_BIT_NUM) UART_STOP_BIT_NUM) UART_TX_FLOW_EN.
(** The new bits of the register. *)
Definition frame_bits (c : cflag) : Z := termios_conf0 0 c.

Lemma set_if_lor b x m : set_if b x m = Z.lor x (set_if b 0 m).
Proof. destruct b; cbn [set_if]; by rewrite ?Z.lor_0_r. Qed.
Lemma termios_update x c : termios_conf0 x c = Z.lor (Z.land x (not32 frame_mask)) (frame_bits c).
Proof.
  unfold frame_bits, termios_conf0. fold frame_mask. unfold clear_bits. rewrite Z.land_0_l.
  repeat rewrite (set_if_lor _ (Z.lor _ _)). repeat rewrite (set_if_lor _ (Z.land _ _)).
  rewrite (set_if_lor _ (Z.lor _ _)), (set_if_lor _ (set_if _ _ _)). by rewrite !Z.lor_assoc.
Qed.
Lemma termios_frame x c : frame_of (termios_conf0 x c) = frame_of_cflag c.
Proof.
  rewrite termios_update. unfold frame_of. rewrite !FIELD_GET_update by reflexivity.
  by destruct c as [[] [] [] [] []].
Qed.
Lemma termios_keep x c : Z.land (termios_conf0 x c) (not32 frame_mask) = Z.land x (not32 frame_mask).
Proof. rewrite termios_update. apply land_keep; [by destruct c as [[] [] [] [] []]|reflexivity]. Qed.
Lemma frame_bits_range c : 0 <= frame_bits c < 4294967296.
Proof. destruct c as [[] [] [] [] []]; vm_compute; split; congruence. Qed.

Lemma poll_update_run n : forall l, (n < length l)%nat ->
  exists vs rest, poll_update n l = Some (tt, R32 UART_REG_UPDATE_REG <$> vs, rest).
Proof.
  induction n as [|n IH]; intros [|v l] Hl; cbn [length] in Hl; try lia; cbn [poll_update].
  - destruct (nz (Z.land v UART_REG_UPDATE)) eqn:E; exists [v], l; io_run; by rewrite E.
  - destruct (nz (Z.land v UART_REG_UPDATE)) eqn:E.
    + destruct (IH l ltac:(lia)) as (vs & rest & R). exists (v :: vs), rest. io_run. rewrite E. cbn. by rewrite R.
    + exists [v], l. io_run. by rewrite E.
Qed.

Lemma conf_range x c : 0 <= x < 4294967296 -> 0 <= termios_conf0 x c < 4294967296.
Proof.
  intros H. rewrite termios_update. apply lor_u32; [|apply frame_bits_range].
  by apply land_u32.
Qed.

(** A termios of any frame, with a rate that the core finds in the range of
    the driver: the configuration has exactly its frame and keeps its other
    bits, RTS works with the flow control, the divider is the nearest one to the
    rate, so that 16 times the clock is within half a bit of it, and the new
    values are latched last. *)
Theorem uart_set_termios_correct n uartclk get_baud c conf0 l :
  0 < uartclk -> uartclk * 16 < 4294967296 -> 0 <= conf0 < 4294967296 ->
  (forall lo hi, lo <= hi -> lo <= get_baud lo hi <= hi) -> baud_min uartclk <= baud_max uartclk -> (n < length l)%nat ->
  exists baud conf hwfc v vs rest,
    esp32_uart_set_termios n uartclk get_baud c (conf0 :: l) =
      Some (baud, [R32 UART_CONF0_SYNC_REG conf0; W32 UART_CONF0_SYNC_REG conf; W32 UART_HWFC_CONF_SYNC_REG hwfc;
                   W32 UART_CLKDIV_SYNC_REG v; W32 UART_REG_UPDATE_REG UART_REG_UPDATE] ++ (R32 UART_REG_UPDATE_REG <$> vs), rest) /\
    baud = get_baud (baud_min uartclk) (baud_max uartclk) /\
    frame_of conf = frame_of_cflag c /\ Z.land conf (not32 frame_mask) = Z.land conf0 (not32 frame_mask) /\
    (nz (Z.land hwfc UART_RX_FLOW_EN) = CRTSCTS c) /\
    (CRTSCTS c = true -> FIELD_GET UART_RX_FLOW_THRHD hwfc = ESP32_UART_RX_FLOW_THRHD) /\
    - baud <= 2 * (16 * uartclk - (FIELD_GET UART_CLKDIV v * 16 + FIELD_GET UART_CLKDIV_FRAG v) * baud) <= baud.
Proof.
  intros Hc Hw Hx Hg Hr Hl. set (baud := get_baud (baud_min uartclk) (baud_max uartclk)).
  assert (baud_min uartclk <= baud <= baud_max uartclk) as B by (by apply Hg).
  assert (0 < baud_min uartclk) as B0.
  { unfold baud_min, DIV_ROUND_UP. change ESP32_UART_DIV16_MAX with 65535. Z.to_euclidean_division_equations. lia. }
  destruct (set_baud_ok uartclk baud l Hc Hw ltac:(lia) (div16_range uartclk baud Hc ltac:(lia) B)) as (v & E & V).
  destruct (poll_update_run n l Hl) as (vs & rest & R).
  destruct (div_round_closest (uartclk * 16) baud ltac:(lia) ltac:(lia)) as (_ & D1 & D2).
  exists baud, (termios_conf0 conf0 c), (if CRTSCTS c then Z.lor (FIELD_PREP UART_RX_FLOW_THRHD ESP32_UART_RX_FLOW_THRHD) UART_RX_FLOW_EN else 0),
    v, vs, rest.
  split; [|split; [done|]; split; [apply termios_frame|]; split; [apply termios_keep|]; split; [by destruct (CRTSCTS c)|];
    split; [intros ->; done|rewrite V; cbn zeta in D1, D2; lia]].
  unfold esp32_uart_set_termios. rewrite (u32_small (uartclk * 16)) by lia.
  fold (baud_min uartclk) (baud_max uartclk). fold baud.
  rewrite (io_bind_Some _ _ (conf0 :: l) conf0 [R32 UART_CONF0_SYNC_REG conf0] l) by done.
  rewrite (io_bind_Some _ _ l tt [W32 UART_CONF0_SYNC_REG (termios_conf0 conf0 c)] l)
    by (unfold esp32_uart_write; by rewrite (u32_small (termios_conf0 conf0 c)) by (by apply conf_range)).
  rewrite (io_bind_Some _ _ l tt [W32 UART_HWFC_CONF_SYNC_REG _] l)
    by (unfold esp32_uart_write; rewrite u32_small by (destruct (CRTSCTS c); vm_compute; split; congruence); reflexivity).
  rewrite (io_bind_Some _ _ _ _ _ _ E), (io_bind_Some _ _ l baud [] l) by done.
  unfold esp32_uart_update.
  erewrite (io_bind_Some _ _ l tt); [|rewrite (io_bind_Some _ _ l tt [W32 UART_REG_UPDATE_REG UART_REG_UPDATE] l) by done;
    rewrite R; reflexivity].
  cbn. by rewrite app_nil_r.
Qed.

(** 115200 8N1 with flow control of a 40 MHz clock. *)
Lemma uart_set_termios_correct_witness :
  exists baud conf hwfc v vs rest,
    esp32_uart_set_termios 3 40000000 (fun lo hi => Z.max lo (Z.min hi 115200)) (Cflag false false CS8 false true) [0x1234; 0; 0; 0; 0] =
      Some (baud, [R32 UART_CONF0_SYNC_REG 0x1234; W32 UART_CONF0_SYNC_REG conf; W32 UART_HWFC_CONF_SYNC_REG hwfc;
                   W32 UART_CLKDIV_SYNC_REG v; W32 UART_REG_UPDATE_REG UART_REG_UPDATE] ++ (R32 UART_REG_UPDATE_REG <$> vs), rest) /\
    frame_of conf = (None, 8, UART_STOP_BIT_NUM_1, true).
Proof.
  destruct (uart_set_termios_correct 3 40000000 (fun lo hi => Z.max lo (Z.min hi 115200)) (Cflag false false CS8 false true) 0x1234
    [0; 0; 0; 0]) as (baud & conf & hwfc & v & vs & rest & E & _ & F & _); try lia; [vm_compute; congruence|cbn; lia|].
  by exists baud, conf, hwfc, v, vs, rest.
Defined.
(** With a clock of 40 MHz the range starts at 9766 baud. *)
Example baud_range_40 : baud_min 40000000 = 9766 /\ baud_max 40000000 = 5000000.
Proof. done. Qed.

(** * Transmit *)

(** The laws of uart_port_tx_limited(): it takes the first characters of the
    buffer, as many as it may (fewer when the line is stopped), and calls
    stop_tx() only with an empty buffer. *)
Class TxLaws (tx : Type) `{TxLimited tx} := {
  tx_take t n : 0 <= n -> let '(c, t', _) := tx_limited t n in tx_data t = c ++ tx_data t' /\ zlen c <= n;
  tx_stop t n : 0 <= n -> let '(c, t', stop) := tx_limited t n in stop = true -> tx_data t' = [] }.

(** The characters that go to the FIFO, and the enable bit of the interrupt of
    an empty FIFO after the accesses. *)
Definition fifo_step (x : act) : list Z :=
  match x with W32 a v => if a =? UART_FIFO_REG then [v] else [] | _ => [] end.
Definition fifo_writes (tr : list act) : list Z := mjoin (fifo_step <$> tr).
Definition tx_int_step (b : bool) (x : act) : bool :=
  match x with W32 a v => if a =? UART_INT_ENA_REG then nz (Z.land v UART_TXFIFO_EMPTY_INT) else b | _ => b end.
Definition tx_int (b : bool) (tr : list act) : bool := foldl tx_int_step b tr.

Lemma fifo_writes_app tr tr' : fifo_writes (tr ++ tr') = fifo_writes tr ++ fifo_writes tr'.
Proof. unfold fifo_writes. by rewrite fmap_app, join_app. Qed.
Lemma tx_int_app b tr tr' : tx_int b (tr ++ tr') = tx_int (tx_int b tr) tr'.
Proof. apply foldl_app. Qed.

Lemma put_chars_run l ins : bytes l ->
  exists tr, put_chars l ins = Some (tt, tr, ins) /\ fifo_writes tr = l /\ forall b, tx_int b tr = b.
Proof.
  induction l as [|c l IH]; intros Hb; [by exists []|]. apply bytes_cons in Hb as [Hc Hl].
  destruct (IH Hl) as (tr & E & F & I). exists (W32 UART_FIFO_REG (u32 c) :: tr). split; [|split].
  - cbn [put_chars]. by rewrite (io_bind_Some _ _ ins tt [W32 UART_FIFO_REG (u32 c)] ins), E by done.
  - change (fifo_writes (?x :: tr)) with (fifo_writes ([x] ++ tr)). rewrite fifo_writes_app, F.
    unfold is_byte in Hc. rewrite u32_small by lia. done.
  - exact I.
Qed.

Section tx_spec.
Context {tx : Type} `{TxLaws tx}.

(** One call of the transmit function: with a full FIFO it does nothing at all;
    else what it takes fits the FIFO, and the interrupt is on when characters
    stay. *)
Lemma transmit_run (t : tx) status ena1 ena2 ins b :
  bytes (tx_data t) -> 0 <= ena1 < 4294967296 -> 0 <= ena2 < 4294967296 ->
  let used := FIELD_GET UART_TXFIFO_CNT status in
  (ESP32_UART_TX_FIFO_SIZE <= used ->
    esp32_uart_transmit_buffer t (status :: ena1 :: ena2 :: ins) = Some (t, [R32 UART_STATUS_REG status], ena1 :: ena2 :: ins)) /\
  (used < ESP32_UART_TX_FIFO_SIZE -> exists t' tr rest,
    esp32_uart_transmit_buffer t (status :: ena1 :: ena2 :: ins) = Some (t', tr, rest) /\
    tx_limited t (ESP32_UART_TX_FIFO_SIZE - used) = (fifo_writes tr, t', snd (tx_limited t (ESP32_UART_TX_FIFO_SIZE - used))) /\
    (tx_data t' <> [] -> tx_int b tr = true)).
Proof.
  intros Hb He1 He2. cbn zeta. unfold esp32_uart_transmit_buffer.
  rewrite (io_bind_Some _ _ (status :: ena1 :: ena2 :: ins) (FIELD_GET UART_TXFIFO_CNT status) [R32 UART_STATUS_REG status] (ena1 :: ena2 :: ins)) by done.
  set (used := FIELD_GET UART_TXFIFO_CNT status). rewrite Z.geb_leb.
  destruct (Z.leb_spec ESP32_UART_TX_FIFO_SIZE used) as [U|U]; (split; intros U'; [|]); try lia; [done|].
  pose proof (tx_take t (ESP32_UART_TX_FIFO_SIZE - used) ltac:(lia)) as T.
  pose proof (tx_stop t (ESP32_UART_TX_FIFO_SIZE - used) ltac:(lia)) as S.
  destruct (tx_limited t (ESP32_UART_TX_FIFO_SIZE - used)) as [[c t'] stop]. destruct T as [T1 T2].
  rewrite T1 in Hb. apply bytes_app in Hb as [Hb _].
  destruct (put_chars_run c (ena1 :: ena2 :: ins) Hb) as (tr & E & F & I).
  rewrite (io_bind_Some _ _ _ _ _ _ E). unfold esp32_uart_stop_tx. destruct stop.
  - rewrite S by done. eexists t', _, _. split; [reflexivity|]. cbn [snd]. split; [|intros N; by destruct (N (S eq_refl))].
    rewrite !fifo_writes_app, F. do 2 f_equal. symmetry. exact (app_nil_r c).
  - destruct (tx_data t') as [|x l] eqn:D.
    + eexists t', _, _. split; [reflexivity|]. cbn [snd]. split; [|done].
      rewrite !fifo_writes_app, F. do 2 f_equal. symmetry. exact (app_nil_r c).
    + assert (nz (zlen (x :: l)) = true) as -> by (apply nz_true; llia).
      eexists t', _, _. split; [reflexivity|]. cbn [snd]. split; [rewrite !fifo_writes_app, F; do 2 f_equal; symmetry; exact (app_nil_r c)|].
      intros _. rewrite !tx_int_app. cbn [tx_int foldl tx_int_step].
      change (UART_INT_ENA_REG =? UART_INT_ENA_REG) with true. cbn iota.
      rewrite u32_small by (apply lor_u32; [done|vm_compute; split; congruence]).
      apply nz_true. rewrite Z.land_lor_distr_l. intros N. apply Z.lor_eq_0_iff in N as [_ N]. done.
Qed.

(** The transmit function, once for each interrupt of the empty FIFO: [rs] is
    what it reads of the port, the status and the enabled interrupts. *)
Fixpoint tx_rounds (t : tx) (b : bool) (rs : list (Z * Z * Z)) : option (list (list Z) * tx * bool) :=
  match rs with
  | [] => Some ([], t, b)
  | (status, ena1, ena2) :: rs =>
      '(t, tr, _) ← esp32_uart_transmit_buffer t [status; ena1; ena2];
      '(l, t, b) ← tx_rounds t (tx_int b tr) rs;
      Some (fifo_writes tr :: l, t, b)
  end.
Definition tx_used (r : Z * Z * Z) : Z := FIELD_GET UART_TXFIFO_CNT (fst (fst r)).
Definition round_ok (r : Z * Z * Z) : Prop :=
  tx_used r < ESP32_UART_TX_FIFO_SIZE /\ 0 <= snd (fst r) < 4294967296 /\ 0 <= snd r < 4294967296.
(** The line is not stopped: a character that may go, goes. *)
Definition running : Prop := forall t n, 0 < n -> tx_data t <> [] -> fst (fst (tx_limited t n)) <> [].

Lemma tx_rounds_run rs : forall t b, bytes (tx_data t) -> Forall round_ok rs ->
  exists l t' b', tx_rounds t b rs = Some (l, t', b') /\ mjoin l ++ tx_data t' = tx_data t /\
    Forall2 (fun r c => tx_used r + zlen c <= ESP32_UART_TX_FIFO_SIZE) rs l /\
    (tx_data t' <> [] -> rs <> [] -> b' = true) /\
    (running -> zlen (tx_data t') <= Z.max 0 (zlen (tx_data t) - zlen rs)).
Proof.
  induction rs as [|[[status e1] e2] rs IH]; intros t b Hb Hr.
  { exists [], t, b. do 2 (split; [done|]). split; [constructor|]. split; [done|]. intros _. change (zlen []) with 0. lia. }
  pose proof (Forall_inv Hr) as (U & R1 & R2). cbn [fst snd] in R1, R2. apply Forall_inv_tail in Hr.
  destruct (transmit_run t status e1 e2 [] b Hb R1 R2) as [_ T]. destruct (T U) as (t1 & tr & rest & E & L & I).
  pose proof (tx_take t (ESP32_UART_TX_FIFO_SIZE - FIELD_GET UART_TXFIFO_CNT status)) as K. rewrite L in K.
  unfold tx_used in U. cbn [fst] in U. destruct K as [K1 K2]; [lia|].
  rewrite K1 in Hb. apply bytes_app in Hb as [_ Hb].
  destruct (IH t1 (tx_int b tr) Hb Hr) as (l & t' & b' & E' & J & F & B & D).
  exists (fifo_writes tr :: l), t', b'. split; [|split; [|split; [|split]]].
  - cbn [tx_rounds]. rewrite E. cbn [mbind option_bind]. by rewrite E'.
  - change (mjoin (?x :: l)) with (x ++ mjoin l). by rewrite <- app_assoc, J.
  - constructor; [unfold tx_used; cbn [fst]; lia|exact F].
  - intros N _. destruct rs as [|r rs']; [|by apply B]. cbn in E'. injection E' as <- <- <-. by apply I.
  - intros Run. specialize (D Run). rewrite zlen_cons. pose proof (zlen_nonneg rs).
    destruct (tx_data t) as [|x dt] eqn:Dt.
    + symmetry in K1. apply app_eq_nil in K1 as [_ K1]. rewrite K1 in D. change (zlen []) with 0 in *. lia.
    + assert (fifo_writes tr <> []) as N.
      { pose proof (Run t (ESP32_UART_TX_FIFO_SIZE - FIELD_GET UART_TXFIFO_CNT status) ltac:(lia)) as N. rewrite Dt, L in N. by apply N. }
      rewrite K1, zlen_app. destruct (fifo_writes tr); [done|]. rewrite zlen_cons. pose proof (zlen_nonneg l0). lia.
Qed.

(** C29: The transmit buffer goes to the FIFO in its order, without a loss and
    never more than has room; while characters stay the interrupt of the empty
    FIFO is on, and as many interrupts as characters send all of them.  But a
    FIFO that is full at the start gets nothing, and the interrupt stays off:
    the characters wait for the next start. *)
Theorem uart_transmit_correct (t : tx) rs : bytes (tx_data t) -> Forall round_ok rs ->
  (exists l t' b', tx_rounds t false rs = Some (l, t', b') /\ mjoin l ++ tx_data t' = tx_data t /\
    Forall2 (fun r c => tx_used r + zlen c <= ESP32_UART_TX_FIFO_SIZE) rs l /\
    (tx_data t' <> [] -> rs <> [] -> b' = true) /\
    (running -> zlen (tx_data t) <= zlen rs -> tx_data t' = [])) /\
  (forall status ins, ESP32_UART_TX_FIFO_SIZE <= FIELD_GET UART_TXFIFO_CNT status ->
    exists tr, esp32_uart_transmit_buffer t (status :: ins) = Some (t, tr, ins) /\ fifo_writes tr = [] /\ tx_int false tr = false).
Proof.
  intros Hb Hr. split.
  - destruct (tx_rounds_run rs t false Hb Hr) as (l & t' & b' & E & J & F & B & D). exists l, t', b'.
    do 4 (split; [done|]). intros Run Hl. specialize (D Run). apply zlen_0_nil. pose proof (zlen_nonneg (tx_data t')). lia.
  - intros status ins U. exists [R32 UART_STATUS_REG status]. split; [|done]. unfold esp32_uart_transmit_buffer.
    rewrite (io_bind_Some _ _ (status :: ins) (FIELD_GET UART_TXFIFO_CNT status) [R32 UART_STATUS_REG status] ins) by done.
    rewrite Z.geb_leb. by rewrite (proj2 (Z.leb_le _ _) U).
Qed.
End tx_spec.

(** The core with a plain list as the transmit buffer. *)
#[local] Instance list_tx : TxLimited (list Z) := {
  tx_data t := t;
  tx_limited t n := (ztake n t, zdrop n t, negb (nz (zlen (zdrop n t)))) }.
#[local] Instance list_laws : TxLaws (list Z).
Proof.
  split.
  - intros t n Hn. cbn. rewrite ztake_zdrop. split; [done|]. rewrite zlen_ztake by lia. lia.
  - intros t n Hn. cbn. intros E. apply negb_true_iff, nz_false in E. by apply zlen_0_nil.
Qed.
Definition hello_rounds : list (Z * Z * Z) := [(124 * 65536, 0, 0); (125 * 65536, 2, 2); (0, 2, 2); (0, 2, 2); (0, 0, 0)].
Lemma uart_transmit_correct_witness :
  (exists l t' b', tx_rounds [104; 101; 108; 108; 111] false hello_rounds = Some (l, t', b') /\
    mjoin l ++ t' = [104; 101; 108; 108; 111] /\ t' = []) /\
  (forall status ins, ESP32_UART_TX_FIFO_SIZE <= FIELD_GET UART_TXFIFO_CNT status ->
    exists tr, esp32_uart_transmit_buffer [104; 101; 108; 108; 111] (status :: ins) = Some ([104; 101; 108; 108; 111], tr, ins) /\
      fifo_writes tr = [] /\ tx_int false tr = false).
Proof.
  destruct (uart_transmit_correct [104; 101; 108; 108; 111] hello_rounds) as [(l & t' & b' & E & J & _ & _ & D) F].
  - by apply is_bytes_spec.
  - repeat (apply Forall_cons_2; [vm_compute; repeat split; congruence|]). apply Forall_nil_2.
  - split; [|exact F]. exists l, t', b'. split; [exact E|]. split; [exact J|]. apply D; [|done].
    intros t n Hn Ht. cbn. destruct t; [done|]. unfold ztake. destruct (Z.to_nat n) eqn:N; [lia|done].
Defined.
Example hello_batches : (fun r => fst (fst r)) <$> tx_rounds [104; 101; 108; 108; 111] false hello_rounds =
  Some [[104; 101; 108]; [108; 111]; []; []; []].
Proof. reflexivity. Qed.

(** * Receive *)

(** A character of the FIFO as the port gives it: one that is not 0, or a 0 and
    the interrupt status after it, which tells a break. *)
Inductive rx_in := InChar (c : Z) | InZero (st : Z).
Definition rx_reads (i : rx_in) : list Z := match i with InChar c => [c] | InZero st => [0; st] end.
Definition rx_ok (i : rx_in) : Prop := match i with InChar c => 0 < c < 256 | InZero _ => True end.
Definition rx_events (sysrq : Z -> bool) (i : rx_in) : list rx_event :=
  match i with
  | InChar c => if sysrq c then [] else [RxChar c]
  | InZero st => if nz (Z.land st UART_BRK_DET_INT) then [RxBreak] else if sysrq 0 then [] else [RxChar 0]
  end.
Definition break_clears (tr : list act) : list act :=
  List.filter (fun x => match x with W32 a _ => a =? UART_INT_CLR_REG | _ => false end) tr.
Definition is_break (e : rx_event) : bool := match e with RxBreak => true | _ => false end.

Lemma rxint_loop_run sysrq l : forall rest, Forall rx_ok l ->
  exists tr, rxint_loop sysrq (length l) (mjoin (rx_reads <$> l) ++ rest) = Some (mjoin (rx_events sysrq <$> l), tr, rest) /\
    break_clears tr = (fun _ => W32 UART_INT_CLR_REG UART_BRK_DET_INT) <$> List.filter is_break (mjoin (rx_events sysrq <$> l)).
Proof.
  induction l as [|i l IH]; intros rest H; [by exists []|]. pose proof (Forall_inv H) as Hi. apply Forall_inv_tail in H.
  destruct (IH rest H) as (tr & E & B). cbn [length rxint_loop].
  change (mjoin (rx_reads <$> i :: l)) with (rx_reads i ++ mjoin (rx_reads <$> l)).
  change (mjoin (rx_events sysrq <$> i :: l)) with (rx_events sysrq i ++ mjoin (rx_events sysrq <$> l)).
  rewrite <- app_assoc. destruct i as [c|st]; cbn [rx_reads rx_events app].
  - rewrite (io_bind_Some _ _ (c :: mjoin (rx_reads <$> l) ++ rest) c [R32 UART_FIFO_REG c] _) by done.
    cbn in Hi. rewrite (proj2 (nz_true c)), (u8_small c) by lia. rewrite (io_bind_Some _ _ _ false [] _) by done. cbn iota.
    destruct (sysrq c).
    + eexists. split; [by rewrite E|]. exact B.
    + eexists. split; [by rewrite (io_bind_Some _ _ _ _ _ _ E)|]. cbn. rewrite app_nil_r. exact B.
  - rewrite (io_bind_Some _ _ (0 :: st :: mjoin (rx_reads <$> l) ++ rest) 0 [R32 UART_FIFO_REG 0] _) by done.
    change (nz 0) with false. cbn iota.
    rewrite (io_bind_Some _ _ (st :: mjoin (rx_reads <$> l) ++ rest) (nz (Z.land st UART_BRK_DET_INT)) [R32 UART_INT_ST_REG st] (mjoin (rx_reads <$> l) ++ rest)) by done.
    destruct (nz (Z.land st UART_BRK_DET_INT)); cbn iota; [|change (u8 0) with 0; destruct (sysrq 0)].
    + eexists. split.
      * rewrite (io_bind_Some _ _ _ tt [W32 UART_INT_CLR_REG UART_BRK_DET_INT] (mjoin (rx_reads <$> l) ++ rest)) by done.
        by rewrite (io_bind_Some _ _ _ _ _ _ E).
      * cbn. rewrite app_nil_r. by rewrite <- B.
    + eexists. split; [by rewrite E|]. exact B.
    + eexists. split; [by rewrite (io_bind_Some _ _ _ _ _ _ E)|]. cbn. rewrite app_nil_r. exact B.
Qed.

(** The receive interrupt gives the terminal each character of the FIFO, in its
    order, as a character or as a break, without those of SysRq, and clears the
    interrupt of each break. *)
Theorem uart_rxint_correct sysrq status l rest :
  Forall rx_ok l -> FIELD_GET UART_RXFIFO_CNT status = zlen l ->
  exists tr, esp32_uart_rxint sysrq (status :: mjoin (rx_reads <$> l) ++ rest) = Some (mjoin (rx_events sysrq <$> l), tr, rest) /\
    break_clears tr = (fun _ => W32 UART_INT_CLR_REG UART_BRK_DET_INT) <$> List.filter is_break (mjoin (rx_events sysrq <$> l)).
Proof.
  intros H C. unfold esp32_uart_rxint.
  rewrite (io_bind_Some _ _ (status :: mjoin (rx_reads <$> l) ++ rest) (FIELD_GET UART_RXFIFO_CNT status) [R32 UART_STATUS_REG status] (mjoin (rx_reads <$> l) ++ rest)) by done.
  rewrite C. destruct (rxint_loop_run sysrq l rest H) as (tr & E & B). destruct l as [|i l].
  - eexists. split; [reflexivity|done].
  - assert (nz (zlen (i :: l)) = true) as -> by (apply nz_true; llia). cbn [negb].
    assert (Z.to_nat (zlen (i :: l)) = length (i :: l)) as -> by (unfold zlen; lia).
    exists ([R32 UART_STATUS_REG status] ++ tr). rewrite E. split; [done|exact B].
Qed.
