(* ===== verification/Clic.v ===== *)
(** The interrupt controller: linux/drivers/irqchip/irq-esp32s31-clic.c.

    The byte accesses of [Device.io] are to the window of the CLIC, the word
    accesses to the interrupt matrix of the hart, both by their offset.  The
    kernel's interrupt core is what the handler gives: [dispatch] says where an
    interrupt goes.  [step] is the work of irq_work, as a step relation: a raise
    can come at any time, also between the steps of the handler. *)

From S2P Require Import Prelude Device.

(** * Registers *)

Definition ESP32S31_CLIC_CTRL_OFF : Z := 0x1000.
Definition ESP32S31_CLIC_INT_STRIDE : Z := 4.
Definition ESP32S31_CLIC_INT_IP : Z := 0x0.
Definition ESP32S31_CLIC_INT_IE : Z := 0x1.
Definition ESP32S31_CLIC_INT_ATTR : Z := 0x2.
Definition ESP32S31_CLIC_INT_CTL : Z := 0x3.
Definition CLIC_EXT_MIN_ID : Z := 16.
Definition CLIC_NR_IRQS : Z := 48.
Definition ESP32S31_CLIC_IRQ_WORK_ID : Z := CLIC_EXT_MIN_ID.
Definition CLIC_CAUSE_EXCCODE_MASK : Z := 0xfff.
Definition ESP32S31_CLICINTCTLBITS : Z := 3.
Definition ESP32S31_CLICNLBITS : Z := 1.
Definition ESP32S31_MAX_PRIORITY : Z := 3.
Definition CSR_SINTTHRESH : Z := 0x147.
Definition CLICCTL_MAKE (level prio : Z) : Z :=
  Z.lor (Z.shiftl level (8 - ESP32S31_CLICNLBITS)) (Z.shiftl prio (8 - ESP32S31_CLICINTCTLBITS)).
Definition CLIC_ATTR_TRIG_LEVEL : Z := 0x00.
Definition CLIC_ATTR_TRIG_EDGE : Z := 0x02.
Definition CLIC_ATTR_MODE_S : Z := 0x40.
Definition ESP32S31_INTMATRIX_CORE_STRIDE : Z := 0x800.
Definition ESP32S31_INTMATRIX_MAP_MASK : Z := 0x3f.
Definition ESP32S31_INTMATRIX_PASS_LEVEL_SHIFT : Z := 8.
Definition ESP32S31_INTMATRIX_PASS_LEVEL_MASK : Z := Z.shiftl 0x3 ESP32S31_INTMATRIX_PASS_LEVEL_SHIFT.
Definition ESP32S31_INTMATRIX_PASS_LEVEL_S : Z := Z.shiftl 1 ESP32S31_INTMATRIX_PASS_LEVEL_SHIFT.
(** The numbers of linux/irq.h, and the interrupt bit of a 32-bit cause. *)
Definition IRQ_TYPE_NONE : Z := 0.
Definition IRQ_TYPE_LEVEL_MASK : Z := 0xc.
Definition IRQ_TYPE_SENSE_MASK : Z := 0xf.
Definition CAUSE_IRQ_FLAG : Z := 0x80000000.

Definition clic_reg (irq_id byte_off : Z) : Z := ESP32S31_CLIC_CTRL_OFF + irq_id * ESP32S31_CLIC_INT_STRIDE + byte_off.
Definition clic_readb (irq_id byte_off : Z) : io Z := dev_input (fun v => R8 (clic_reg irq_id byte_off) v).
Definition clic_writeb (irq_id byte_off v : Z) : io unit := emit (W8 (clic_reg irq_id byte_off) (u8 v)).

(** * The chip *)

Definition esp32s31_clic_irq_enable (hwirq enable : Z) : io unit := clic_writeb hwirq ESP32S31_CLIC_INT_IE enable.
Definition esp32s31_clic_irq_mask (hwirq : Z) : io unit := esp32s31_clic_irq_enable hwirq 0.
Definition esp32s31_clic_irq_unmask (hwirq : Z) : io unit := esp32s31_clic_irq_enable hwirq 1.
Definition esp32s31_clic_set_type (hwirq flow_type : Z) : io Z :=
  if negb (nz (Z.land flow_type IRQ_TYPE_LEVEL_MASK)) then mret (- EINVAL)
  else clic_writeb hwirq ESP32S31_CLIC_INT_ATTR (Z.lor CLIC_ATTR_MODE_S CLIC_ATTR_TRIG_LEVEL);; mret 0.

(** The local interrupts; [clic] is false before the probe. *)
Definition esp32s31_intc_clic_irq_mask (hwirq : Z) : io unit := clic_writeb hwirq ESP32S31_CLIC_INT_IE 0.
Definition esp32s31_intc_clic_irq_unmask (hwirq : Z) : io unit := clic_writeb hwirq ESP32S31_CLIC_INT_IE 1.

Definition arch_irq_work_raise (clic : bool) : io unit :=
  if negb clic then mret tt else clic_writeb ESP32S31_CLIC_IRQ_WORK_ID ESP32S31_CLIC_INT_IP 1.
(** Up to irq_work_run(). *)
Definition esp32s31_irq_work_interrupt : io unit := clic_writeb ESP32S31_CLIC_IRQ_WORK_ID ESP32S31_CLIC_INT_IP 0.
(** [virq] and [ret] are the results of irq_create_mapping() and request_irq(). *)
Definition esp32s31_irq_work_init (virq ret : Z) : io Z :=
  clic_writeb ESP32S31_CLIC_IRQ_WORK_ID ESP32S31_CLIC_INT_IP 0;;
  clic_writeb ESP32S31_CLIC_IRQ_WORK_ID ESP32S31_CLIC_INT_ATTR (Z.lor CLIC_ATTR_MODE_S CLIC_ATTR_TRIG_EDGE);;
  clic_writeb ESP32S31_CLIC_IRQ_WORK_ID ESP32S31_CLIC_INT_CTL (CLICCTL_MAKE 1 ESP32S31_MAX_PRIORITY);;
  if virq =? 0 then mret (- ENOMEM)
  else if nz ret then mret ret
  else clic_writeb ESP32S31_CLIC_IRQ_WORK_ID ESP32S31_CLIC_INT_IP 1;; mret 0.

(** * The domain *)

Definition esp32s31_intmatrix_route (source hwirq : Z) : io unit :=
  if source >=? ESP32S31_INTMATRIX_CORE_STRIDE / 4 then mret tt
  else
    val ← dev_input (fun v => R32 (source * 4) v);
    let val := Z.land val (not32 (Z.lor ESP32S31_INTMATRIX_MAP_MASK ESP32S31_INTMATRIX_PASS_LEVEL_MASK)) in
    let val := Z.lor val (Z.lor (Z.land hwirq ESP32S31_INTMATRIX_MAP_MASK) ESP32S31_INTMATRIX_PASS_LEVEL_S) in
    emit (W32 (source * 4) (u32 val)).
(** The parameters of an interrupt in the device tree. *)
Definition esp32s31_clic_parse_fwspec (params : list Z) : option (Z * Z * Z) :=
  match params with
  | [p0; p1; p2] => Some (p0, p1, Z.land p2 IRQ_TYPE_SENSE_MASK)
  | _ => None
  end.
Definition esp32s31_clic_domain_translate (params : list Z) : option (Z * Z) :=
  '(hwirq, _, type) ← esp32s31_clic_parse_fwspec params; Some (hwirq, type).
Definition esp32s31_clic_domain_alloc (params : list Z) : io Z :=
  match esp32s31_clic_parse_fwspec params with
  | None => mret (- EINVAL)
  | Some (hwirq, source, type) =>
      if hwirq >=? CLIC_NR_IRQS then mret (- EINVAL)
      else
        esp32s31_intmatrix_route source hwirq;;
        clic_writeb hwirq ESP32S31_CLIC_INT_CTL (CLICCTL_MAKE 1 ESP32S31_MAX_PRIORITY);;
        (if negb (type =? IRQ_TYPE_NONE) then _ ← esp32s31_clic_set_type hwirq type; mret tt else mret tt);;
        mret 0
  end.

(** * The handler *)

(** Where an interrupt goes: a warning, the handler of the local interrupts with
    a cause, or the interrupt of the domain. *)
Inductive dispatch := NoClic | Local (cause : Z) | LocalNone | Spurious (id : Z) | Domain (id : Z).
(** [fallback] says that there is a handler for the local interrupts; the result
    has regs->cause at the end. *)
Definition esp32s31_clic_handle_irq (clic fallback : bool) (raw_cause : Z) : io (dispatch * Z) :=
  if negb clic then mret (NoClic, raw_cause)
  else
    let irq_id := Z.land raw_cause CLIC_CAUSE_EXCCODE_MASK in
    if irq_id <? CLIC_EXT_MIN_ID then
      attr ← clic_readb irq_id ESP32S31_CLIC_INT_ATTR;
      (if nz (Z.land attr CLIC_ATTR_TRIG_EDGE) then clic_writeb irq_id ESP32S31_CLIC_INT_IP 0 else mret tt);;
      mret (if fallback then Local (Z.lor CAUSE_IRQ_FLAG irq_id) else LocalNone, raw_cause)
    else if irq_id >=? CLIC_NR_IRQS then mret (Spurious irq_id, raw_cause)
    else mret (Domain irq_id, raw_cause).

(** * Set up *)

Fixpoint init_inputs (ids : list Z) : io unit :=
  match ids with
  | [] => mret tt
  | i :: ids =>
      clic_writeb i ESP32S31_CLIC_INT_IP 0;;
      clic_writeb i ESP32S31_CLIC_INT_IE 0;;
      clic_writeb i ESP32S31_CLIC_INT_ATTR (Z.lor CLIC_ATTR_MODE_S CLIC_ATTR_TRIG_LEVEL);;
      clic_writeb i ESP32S31_CLIC_INT_CTL (CLICCTL_MAKE 1 ESP32S31_MAX_PRIORITY);;
      init_inputs ids
  end.
Definition esp32s31_clic_init_cpu : io unit :=
  emit (CsrW CSR_SINTTHRESH 0);;
  init_inputs (seqZ CLIC_EXT_MIN_ID (CLIC_NR_IRQS - CLIC_EXT_MIN_ID)).

(** * Laws *)

Ltac clic_run :=
  unfold esp32s31_clic_irq_enable, clic_writeb, clic_readb; io_run.

(** A cause goes where its number says, whatever the level bits above say: a
    local one below 16 to the handler of the local interrupts, with the cause
    of a RISC-V interrupt, after its edge is cleared when it is edge triggered;
    an external one to its interrupt of the domain; and all others nowhere.
    The cause of the caller is as before. *)
Theorem clic_handle_irq_correct level id fallback attr ins :
  0 <= level -> 0 <= id < 4096 ->
  let cause := level * 4096 + id in
  exists d tr rest, esp32s31_clic_handle_irq true fallback cause (attr :: ins) = Some ((d, cause), tr, rest) /\
    (id < 16 -> rest = ins /\ d = (if fallback then Local (0x80000000 + id) else LocalNone) /\
      tr = R8 (0x1000 + id * 4 + 2) attr :: if Z.testbit attr 1 then [W8 (0x1000 + id * 4) 0] else []) /\
    (16 <= id < 48 -> d = Domain id /\ tr = []) /\
    (48 <= id -> d = Spurious id /\ tr = []).
Proof.
  intros Hl Hi. cbn zeta. unfold esp32s31_clic_handle_irq. cbn [negb].
  assert (Z.land (level * 4096 + id) CLIC_CAUSE_EXCCODE_MASK = id) as ->.
  { change CLIC_CAUSE_EXCCODE_MASK with (Z.ones 12). rewrite Z.land_ones by lia. change (2 ^ 12) with 4096.
    rewrite Z.add_comm, Z.mod_add by lia. apply Z.mod_small. lia. }
  unfold CLIC_EXT_MIN_ID, CLIC_NR_IRQS. rewrite Z.geb_leb.
  destruct (Z.ltb_spec id 16) as [L|L]; [|destruct (Z.leb_spec 48 id)].
  - assert (nz (Z.land attr CLIC_ATTR_TRIG_EDGE) = Z.testbit attr 1) as E.
    { change CLIC_ATTR_TRIG_EDGE with (2 ^ 1). destruct (Z.testbit attr 1) eqn:T.
      - apply nz_true. intros N. apply (f_equal (fun x => Z.testbit x 1)) in N. rewrite Z.land_spec, T in N. done.
      - apply nz_false, Z.bits_inj'. intros n Hn. rewrite Z.land_spec, Z.bits_0. destruct (decide (n = 1)) as [->|].
        + by rewrite T.
        + rewrite Z.pow2_bits_false by lia. apply andb_false_r. }
    assert (Z.lor CAUSE_IRQ_FLAG id = 0x80000000 + id) as F.
    { rewrite Z.lor_comm. change CAUSE_IRQ_FLAG with (Z.shiftl 1 31). rewrite (lor_add id 1 31 2147483648) by (done || lia). lia. }
    exists (if fallback then Local (0x80000000 + id) else LocalNone),
      (R8 (0x1000 + id * 4 + 2) attr :: if Z.testbit attr 1 then [W8 (0x1000 + id * 4) 0] else []), ins.
    split; [|split; [done|lia]]. set (b := Z.testbit attr 1) in *. clearbody b. clic_run. rewrite E, F. unfold clic_reg.
    destruct b; cbn; [|done]. rewrite Z.add_0_r. done.
  - eexists _, [], (attr :: ins). split; [reflexivity|]. split; [lia|]. split; [lia|done].
  - eexists _, [], (attr :: ins). split; [reflexivity|]. split; [lia|]. split; [done|lia].
Qed.

(** The line above as a level of 0xff of input 9, the UART. *)
Lemma clic_handle_irq_correct_witness :
  let cause := 0xff000 * 4096 + 32 in
  exists d tr rest, esp32s31_clic_handle_irq true true cause [0] = Some ((d, cause), tr, rest) /\
    (32 < 16 -> rest = [] /\ d = Local (0x80000000 + 32) /\
      tr = R8 (0x1000 + 32 * 4 + 2) 0 :: if Z.testbit 0 1 then [W8 (0x1000 + 32 * 4) 0] else []) /\
    (16 <= 32 < 48 -> d = Domain 32 /\ tr = []) /\
    (48 <= 32 -> d = Spurious 32 /\ tr = []).
Proof. apply (clic_handle_irq_correct 0xff000 32 true 0 []); lia. Defined.

(** * irq_work *)

(** The pending bit of input 16 after the accesses. *)
Definition ip_step (b : bool) (x : act) : bool :=
  match x with
  | W8 a v => if a =? clic_reg ESP32S31_CLIC_IRQ_WORK_ID ESP32S31_CLIC_INT_IP then nz v else b
  | _ => b
  end.
Definition ip_after (b : bool) (p : io unit) : bool :=
  match p [] with Some (_, tr, _) => foldl ip_step b tr | None => b end.

(** The handler: not active, after its clear of IP, or in irq_work_run() with the
    items that it still has to run. *)
Inductive phase := Idle | Cleared | Running (l : list nat).
(** [w_raising] counts the calls of irq_work_queue() between the item that they
    add and their arch_irq_work_raise(); [w_added] and [w_ran] are all items. *)
Record work := Work { w_queue : list nat; w_ip : bool; w_raising : nat; w_phase : phase; w_added : list nat; w_ran : list nat }.

(** irq_work_queue() adds an item at any time. *)
Inductive add : work -> work -> Prop :=
  | do_add x s : add s (Work (x :: w_queue s) (w_ip s) (S (w_raising s)) (w_phase s) (x :: w_added s) (w_ran s)).
(** What goes on by itself: the raise after an item, the interrupt of a pending
    input, which clears IP first, irq_work_run(), which takes the queue and
    runs each item, and its end. *)
Inductive internal : work -> work -> Prop :=
  | do_raise q ip n p a r : internal (Work q ip (S n) p a r) (Work q (ip_after ip (arch_irq_work_raise true)) n p a r)
  | do_interrupt q n a r : internal (Work q true n Idle a r) (Work q (ip_after true esp32s31_irq_work_interrupt) n Cleared a r)
  | do_take q ip n a r : internal (Work q ip n Cleared a r) (Work [] ip n (Running q) a r)
  | do_run q ip n x l a r : internal (Work q ip n (Running (x :: l)) a r) (Work q ip n (Running l) a (x :: r))
  | do_end q ip n a r : internal (Work q ip n (Running []) a r) (Work q ip n Idle a r).
(** After the probe: IP is set for what came before it. *)
Definition boot (items : list nat) : work := Work items true 0 Idle items [].
Inductive reachable : work -> Prop :=
  | reach_boot items : reachable (boot items)
  | reach_add s s' : reachable s -> add s s' -> reachable s'
  | reach_internal s s' : reachable s -> internal s s' -> reachable s'.

Definition in_handler (p : phase) : list nat := match p with Running l => l | _ => [] end.
Record work_ok (s : work) : Prop := {
  wk_pending : w_queue s <> [] -> w_ip s = true \/ w_phase s = Cleared \/ (0 < w_raising s)%nat;
  wk_items : Permutation (w_added s) (w_ran s ++ in_handler (w_phase s) ++ w_queue s) }.

Lemma raise_ip b : ip_after b (arch_irq_work_raise true) = true.
Proof. reflexivity. Qed.
Lemma interrupt_ip b : ip_after b esp32s31_irq_work_interrupt = false.
Proof. reflexivity. Qed.

Lemma reachable_ok s : reachable s -> work_ok s.
Proof.
  induction 1 as [items|s s' _ IH A|s s' _ IH A].
  - constructor; cbn; [by left|done].
  - destruct A as [x s]. destruct IH as [P I]. constructor; cbn in *; [intros _; right; right; lia|].
    rewrite I. rewrite !app_assoc. by rewrite Permutation_middle.
  - destruct IH as [P I]. destruct A as [q ip n p a r|q n a r|q ip n a r|q ip n x l a r|q ip n a r]; cbn in P, I;
      constructor; cbn [w_queue w_ip w_raising w_phase w_added w_ran in_handler app].
    + intros _. left. apply raise_ip.
    + exact I.
    + intros _. right. by left.
    + exact I.
    + done.
    + by rewrite app_nil_r.
    + intros N. destruct (P N) as [?|[?|?]]; [by left|done|tauto].
    + rewrite I. by rewrite <- Permutation_middle.
    + intros N. destruct (P N) as [?|[?|?]]; [by left|done|tauto].
    + exact I.
Qed.

(** How many steps are left. *)
Definition phase_steps (p : phase) : nat := match p with Idle => 0 | Cleared => 2 | Running l => 1 + length l end.
Definition steps_left (s : work) : nat :=
  4 * w_raising s + (if w_ip s then 3 else 0) + phase_steps (w_phase s) + length (w_queue s).
Lemma internal_decreases s s' : internal s s' -> (steps_left s' < steps_left s)%nat.
Proof.
  destruct 1; unfold steps_left; cbn [w_queue w_ip w_raising w_phase phase_steps length]; rewrite ?raise_ip, ?interrupt_ip;
    repeat match goal with |- context [if ?b then _ else _] => destruct b end; lia.
Qed.

(** Nothing goes on any more. *)
Definition quiet (s : work) : Prop := w_phase s = Idle /\ w_ip s = false /\ w_raising s = 0%nat.
Lemma progress s : quiet s \/ exists s', internal s s'.
Proof.
  destruct s as [q ip n p a r]. destruct n as [|n]; [|right; eexists; constructor].
  destruct p as [| |[|x l]]; [|right; eexists; constructor..]. destruct ip; [right; eexists; constructor|by left].
Qed.

Inductive runs_of : nat -> work -> work -> Prop :=
  | runs_0 s : runs_of 0 s s
  | runs_S n s s' s'' : internal s s' -> runs_of n s' s'' -> runs_of (S n) s s''.
Lemma runs_reachable n s s' : reachable s -> runs_of n s s' -> reachable s'.
Proof. intros R. induction 1 as [|n s s1 s2 A _ IH]; [done|]. apply IH. by eapply reach_internal. Qed.
Lemma runs_bound n s s' : runs_of n s s' -> (n + steps_left s' <= steps_left s)%nat.
Proof. induction 1 as [|n s s1 s2 A _ IH]; [lia|]. apply internal_decreases in A. lia. Qed.
Lemma runs_end s : exists n s', runs_of n s s' /\ quiet s'.
Proof.
  remember (steps_left s) as k eqn:K. revert s K. induction (lt_wf k) as [k _ IH]. intros s ->.
  destruct (progress s) as [Q|(s1 & A)]; [by exists 0%nat, s; repeat constructor; apply Q|].
  destruct (IH _ (internal_decreases _ _ A) s1 eq_refl) as (n & s' & R & Q). exists (S n), s'. split; [|done]. by econstructor.
Qed.

(** C30: No item of irq_work is lost, wherever its raise comes between the steps
    of the handler: when nothing goes on any more every item has run, once, and
    the queue is empty; and from any state this comes about after a bounded
    number of steps, whichever of them the CPU takes. *)
Theorem irq_work_not_lost s : reachable s ->
  (quiet s -> w_queue s = [] /\ Permutation (w_ran s) (w_added s)) /\
  (forall n s', runs_of n s s' -> (n <= steps_left s)%nat /\ (quiet s' \/ exists s'', internal s' s'')) /\
  (exists n s', runs_of n s s' /\ quiet s' /\ w_queue s' = [] /\ Permutation (w_ran s') (w_added s')).
Proof.
  assert (forall s, reachable s -> quiet s -> w_queue s = [] /\ Permutation (w_ran s) (w_added s)) as Q.
  { intros s0 R (Q1 & Q2 & Q3). destruct (reachable_ok s0 R) as [P I]. rewrite Q1, Q2, Q3 in *. cbn in *.
    destruct (w_queue s0) as [|x q]; [by rewrite app_nil_r in I|]. destruct P as [?|[?|?]]; [done..|lia]. }
  intros R. split; [by apply Q|]. split.
  - intros n s' H. split; [apply runs_bound in H; lia|apply progress].
  - destruct (runs_end s) as (n & s' & H & Hq). exists n, s'. do 2 (split; [done|]). apply Q; [|done]. by eapply runs_reachable.
Qed.

(** Two items before the probe, and a third whose raise comes after the handler
    has cleared IP. *)
Lemma irq_work_not_lost_witness :
  let s := Work [3; 2; 1]%nat true 0 Cleared [3; 2; 1]%nat [] in
  (quiet s -> w_queue s = [] /\ Permutation (w_ran s) (w_added s)) /\
  (forall n s', runs_of n s s' -> (n <= steps_left s)%nat /\ (quiet s' \/ exists s'', internal s' s'')) /\
  (exists n s', runs_of n s s' /\ quiet s' /\ w_queue s' = [] /\ Permutation (w_ran s') (w_added s')).
Proof.
  apply irq_work_not_lost. eapply reach_internal; [|apply (do_raise [3; 2; 1]%nat false 0 Cleared [3; 2; 1]%nat [])].
  eapply reach_add; [|apply (do_add 3%nat (Work [2; 1]%nat false 0 Cleared [2; 1]%nat []))].
  eapply reach_internal; [|apply (do_interrupt [2; 1]%nat 0 [2; 1]%nat [])]. apply (reach_boot [2; 1]%nat).
Defined.

(** * Allocation *)

Definition route_mask : Z := Z.lor ESP32S31_INTMATRIX_MAP_MASK ESP32S31_INTMATRIX_PASS_LEVEL_MASK.
Lemma route_bits hwirq : 0 <= hwirq < 64 ->
  let k := Z.lor (Z.land hwirq ESP32S31_INTMATRIX_MAP_MASK) ESP32S31_INTMATRIX_PASS_LEVEL_S in
  (0 <= k < 4294967296) /\ Z.land k ESP32S31_INTMATRIX_MAP_MASK = hwirq /\
  Z.land k ESP32S31_INTMATRIX_PASS_LEVEL_MASK = ESP32S31_INTMATRIX_PASS_LEVEL_S /\ Z.land k (not32 route_mask) = 0.
Proof.
  intros H.
  assert (forallb (fun h => let k := Z.lor (Z.land h ESP32S31_INTMATRIX_MAP_MASK) ESP32S31_INTMATRIX_PASS_LEVEL_S in
    (0 <=? k) && (k <? 4294967296) && (Z.land k ESP32S31_INTMATRIX_MAP_MASK =? h) &&
    (Z.land k ESP32S31_INTMATRIX_PASS_LEVEL_MASK =? ESP32S31_INTMATRIX_PASS_LEVEL_S) && (Z.land k (not32 route_mask) =? 0))
    (seqZ 0 64) = true) as A by (vm_compute; reflexivity).
  rewrite forallb_forall in A. specialize (A hwirq ltac:(apply list_elem_of_In, elem_of_seqZ; lia)). cbn zeta in *.
  rewrite !andb_true_iff, Z.leb_le, Z.ltb_lt, !Z.eqb_eq in A. tauto.
Qed.

Lemma set_type_run hwirq type ins :
  ((if negb (Z.land type IRQ_TYPE_SENSE_MASK =? IRQ_TYPE_NONE)
    then _ ← esp32s31_clic_set_type hwirq (Z.land type IRQ_TYPE_SENSE_MASK); mret tt else mret tt);; mret 0) ins =
  Some (0, if nz (Z.land type IRQ_TYPE_LEVEL_MASK) then [W8 (clic_reg hwirq ESP32S31_CLIC_INT_ATTR) 0x40] else [], ins).
Proof.
  assert (Z.land (Z.land type IRQ_TYPE_SENSE_MASK) IRQ_TYPE_LEVEL_MASK = Z.land type IRQ_TYPE_LEVEL_MASK) as E
    by (by rewrite <- Z.land_assoc).
  unfold esp32s31_clic_set_type. rewrite E. destruct (Z.eqb_spec (Z.land type IRQ_TYPE_SENSE_MASK) IRQ_TYPE_NONE) as [N|N].
  - rewrite <- E, N. done.
  - cbn [negb]. by destruct (nz (Z.land type IRQ_TYPE_LEVEL_MASK)).
Qed.

(** An interrupt of the device tree: a wrong number of parameters or a number
    that is too high changes nothing; else the matrix gives the source to the
    input as an S-mode interrupt and keeps the other bits of its word, and the
    input gets its priority and, for a level type, its attributes. *)
Theorem clic_domain_alloc_correct hwirq source type val ins :
  0 <= hwirq -> 0 <= source < 512 -> 0 <= val < 4294967296 ->
  (48 <= hwirq -> esp32s31_clic_domain_alloc [hwirq; source; type] (val :: ins) = Some (- EINVAL, [], val :: ins)) /\
  (hwirq < 48 -> exists v,
    esp32s31_clic_domain_alloc [hwirq; source; type] (val :: ins) =
      Some (0, [R32 (source * 4) val; W32 (source * 4) v; W8 (clic_reg hwirq ESP32S31_CLIC_INT_CTL) 0xe0] ++
        (if nz (Z.land type IRQ_TYPE_LEVEL_MASK) then [W8 (clic_reg hwirq ESP32S31_CLIC_INT_ATTR) 0x40] else []), ins) /\
    Z.land v ESP32S31_INTMATRIX_MAP_MASK = hwirq /\
    Z.land v ESP32S31_INTMATRIX_PASS_LEVEL_MASK = ESP32S31_INTMATRIX_PASS_LEVEL_S /\
    Z.land v (not32 route_mask) = Z.land val (not32 route_mask)) /\
  (forall params, length params <> 3%nat -> esp32s31_clic_domain_alloc params ins = Some (- EINVAL, [], ins)).
Proof.
  intros Hh Hs Hv. unfold esp32s31_clic_domain_alloc. split; [|split].
  - intros H. cbn [esp32s31_clic_parse_fwspec]. unfold CLIC_NR_IRQS. rewrite Z.geb_leb. by rewrite (proj2 (Z.leb_le _ _) H).
  - intros H. cbn [esp32s31_clic_parse_fwspec]. unfold CLIC_NR_IRQS. rewrite Z.geb_leb, (proj2 (Z.leb_gt _ _) H).
    destruct (route_bits hwirq ltac:(lia)) as (K0 & K1 & K2 & K3). fold route_mask in *.
    set (k := Z.lor (Z.land hwirq ESP32S31_INTMATRIX_MAP_MASK) ESP32S31_INTMATRIX_PASS_LEVEL_S) in *.
    exists (Z.lor (Z.land val (not32 route_mask)) k). split; [|split; [|split]].
    + unfold esp32s31_intmatrix_route. change (ESP32S31_INTMATRIX_CORE_STRIDE / 4) with 512. rewrite Z.geb_leb.
      rewrite (proj2 (Z.leb_gt _ _)) by lia. fold route_mask k.
      assert (0 <= Z.lor (Z.land val (not32 route_mask)) k < 4294967296) as V.
      { apply lor_u32; [by apply land_u32|done]. }
      rewrite (io_bind_Some _ _ (val :: ins) tt [R32 (source * 4) val; W32 (source * 4) (Z.lor (Z.land val (not32 route_mask)) k)] ins)
        by (io_run; by rewrite (u32_small _ V)).
      rewrite (io_bind_Some _ _ ins tt [W8 (clic_reg hwirq ESP32S31_CLIC_INT_CTL) 0xe0] ins) by done.
      rewrite set_type_run. done.
    + unfold k. rewrite land_update by done. exact K1.
    + unfold k. rewrite land_update by done. exact K2.
    + apply land_keep; [exact K3|done].
  - intros params H. destruct params as [|? [|? [|? [|? ?]]]]; done.
Qed.
