(* ===== verification/Clk.v ===== *)
(** Clocks and resets: linux/drivers/clk/clk-esp32s31.c.

    The rates that the driver computes itself: the MPLL, the fractional dividers
    of the root clocks and the divider of the SD host, on the value of their
    register; and the reset bits.  The gates, muxes and plain dividers belong to
    the clock core; ClkTree.v has their registration.
    [unsigned long] is a [u32]. *)

From Stdlib Require Import Ascii String.
From S2P Require Import Prelude Device.

Open Scope Z_scope.

Definition LP_MSPI_DIV : Z := 0x54.
Definition LP_MSPI_REF_DIV : Z := GENMASK 2 0.
Definition LP_MSPI_FB_DIV : Z := GENMASK 7 3.
Definition HP_SOC_CLK_SEL : Z := 0x00.
Definition HP_CPU_FREQ_CTRL0 : Z := 0x04.
Definition HP_SYS_FREQ_CTRL0 : Z := 0x0c.
Definition HP_APB_FREQ_CTRL0 : Z := 0x10.
Definition HP_RMT_CTRL0 : Z := 0xbc.
Definition HP_SDIO_HOST_CTRL0 : Z := 0xc0.
Definition HP_SDIO_LS_CLK_EN : Z := 3.
Definition HP_SDIO_HOST_FUNC_CTRL0 : Z := 0xc4.
Definition HP_SDIO_EDGE_UPDATE : Z := BIT 0.
Definition HP_SDIO_EDGE_L : Z := GENMASK 4 1.
Definition HP_SDIO_EDGE_H : Z := GENMASK 8 5.
Definition HP_SDIO_EDGE_N : Z := GENMASK 12 9.
Definition HP_SDIO_DRV_EDGE_SEL : Z := GENMASK 18 16.
Definition HP_SDIO_PHASE_CLK_EN : Z := GENMASK 24 22.
Definition HP_SDIO_DIV_MAX : Z := 16.
Definition HP_EMAC_CTRL0 : Z := 0xc8.
Definition HP_I2C_CTRL0 (n : Z) : Z := 0xdc + n * 4.
Definition HP_PERIPH_BUS_CLK_EN : Z := 0.
Definition HP_PERIPH_RST_EN : Z := BIT 1.
Definition HP_FREQ_DIV_NUM : Z := GENMASK 7 0.
Definition HP_FREQ_NUMERATOR : Z := GENMASK 10 8.
Definition HP_FREQ_DENOMINATOR : Z := GENMASK 13 11.
Definition CNNT_SDMMC_CTRL : Z := 0x38.
Definition CNNT_SDMMC_RST_EN : Z := BIT 30.
Definition CNNT_EMAC_CTRL : Z := 0x3c.
Definition CNNT_EMAC_RST_EN : Z := BIT 1.
Definition CNNT_EMAC_REF_CTRL : Z := 0x40.

(** * Rates *)

Definition esp32s31_mpll_recalc_rate (val parent_rate : Z) : Z :=
  u32 (parent_rate * (FIELD_GET LP_MSPI_FB_DIV val + 1)) / (FIELD_GET LP_MSPI_REF_DIV val + 1).

(** mult_frac() of linux/math.h: the quotient and the remainder apart. *)
Definition mult_frac (x n d : Z) : Z :=
  let q := x / d in
  let r := x mod d in
  u32 (u32 (q * n) + u32 (r * n) / d).
Definition esp32s31_frac_recalc_rate (val parent_rate : Z) : Z :=
  let div := FIELD_GET HP_FREQ_DIV_NUM val + 1 in
  let num := FIELD_GET HP_FREQ_NUMERATOR val in
  let den := FIELD_GET HP_FREQ_DENOMINATOR val in
  if den =? 0 then parent_rate / div else mult_frac parent_rate den (u32 (div * den + num)).

Definition esp32s31_sdio_div (rate parent_rate : Z) : Z :=
  if rate =? 0 then HP_SDIO_DIV_MAX else clamp (u32 (parent_rate + rate - 1) / rate) 2 HP_SDIO_DIV_MAX.
Definition esp32s31_sdio_recalc_rate (val parent_rate : Z) : Z := parent_rate / (FIELD_GET HP_SDIO_EDGE_N val + 1).
Definition esp32s31_sdio_determine_rate (rate best_parent_rate : Z) : Z :=
  best_parent_rate / esp32s31_sdio_div rate best_parent_rate.
Definition sdio_val (div : Z) : Z :=
  Z.lor (Z.lor (Z.lor (Z.lor (FIELD_PREP HP_SDIO_EDGE_L (div - 1)) (FIELD_PREP HP_SDIO_EDGE_H (div / 2 - 1)))
    (FIELD_PREP HP_SDIO_EDGE_N (div - 1))) (FIELD_PREP HP_SDIO_DRV_EDGE_SEL 1)) HP_SDIO_PHASE_CLK_EN.
Definition esp32s31_sdio_set_rate (rate parent_rate : Z) : io Z :=
  let val := sdio_val (esp32s31_sdio_div rate parent_rate) in
  emit (W32 HP_SDIO_HOST_FUNC_CTRL0 (Z.lor val HP_SDIO_EDGE_UPDATE));;
  emit (W32 HP_SDIO_HOST_FUNC_CTRL0 val);;
  mret 0.

(** * Tables *)

(** The IDs of the bindings. *)
Definition ESP32S31_LP_CLK_MPLL : Z := 0.
Definition ESP32S31_CLK_CPU : Z := 0.
Definition ESP32S31_CLK_SYS : Z := 1.
Definition ESP32S31_CLK_APB : Z := 2.
Definition ESP32S31_CLK_EMAC_SYS : Z := 3.
Definition ESP32S31_CLK_I2C0_APB : Z := 4.
Definition ESP32S31_CLK_I2C0 : Z := 5.
Definition ESP32S31_CLK_I2C1_APB : Z := 6.
Definition ESP32S31_CLK_I2C1 : Z := 7.
Definition ESP32S31_CLK_RMT_SYS : Z := 8.
Definition ESP32S31_CLK_RMT : Z := 9.
Definition ESP32S31_CLK_SDMMC_SYS : Z := 10.
Definition ESP32S31_CLK_SDIO_LS : Z := 11.
Definition ESP32S31_CNNT_CLK_EMAC_REF : Z := 0.

Record esp32s31_periph := Periph { p_names : list string; p_offset : Z; p_bus : Z; p_nsrc : Z; p_sel_shift : Z; p_sel_width : Z;
  p_en_shift : Z; p_div_shift : Z; p_id : Z }.
Definition esp32s31_periphs : list esp32s31_periph :=
  [Periph ["i2c0-apb"; "i2c0-sel"; "i2c0-div"; "i2c0"] (HP_I2C_CTRL0 0) ESP32S31_CLK_APB 2 3 1 4 5 ESP32S31_CLK_I2C0_APB;
   Periph ["i2c1-apb"; "i2c1-sel"; "i2c1-div"; "i2c1"] (HP_I2C_CTRL0 1) ESP32S31_CLK_APB 2 3 1 4 5 ESP32S31_CLK_I2C1_APB;
   Periph ["rmt-sys"; "rmt-sel"; "rmt-div"; "rmt"] HP_RMT_CTRL0 ESP32S31_CLK_SYS 3 3 2 5 6 ESP32S31_CLK_RMT_SYS]%string.

(** * Resets *)

Record esp32s31_reset := Reset { r_offset : Z; r_mask : Z }.
(** In the order of the IDs: I2C0, I2C1, RMT; and EMAC, SDMMC. *)
Definition esp32s31_hp_resets : list esp32s31_reset :=
  [Reset (HP_I2C_CTRL0 0) HP_PERIPH_RST_EN; Reset (HP_I2C_CTRL0 1) HP_PERIPH_RST_EN; Reset HP_RMT_CTRL0 HP_PERIPH_RST_EN].
Definition esp32s31_cnnt_resets : list esp32s31_reset :=
  [Reset CNNT_EMAC_CTRL CNNT_EMAC_RST_EN; Reset CNNT_SDMMC_CTRL CNNT_SDMMC_RST_EN].
Definition esp32s31_reset_update (rst : esp32s31_reset) (assert : bool) : io Z :=
  v ← dev_input (fun v => R32 (r_offset rst) v);
  let val := Z.land v (not32 (r_mask rst)) in
  emit (W32 (r_offset rst) (Z.lor val (if assert then r_mask rst else 0)));;
  mret 0.
Definition esp32s31_reset_assert (rst : esp32s31_reset) : io Z := esp32s31_reset_update rst true.
Definition esp32s31_reset_deassert (rst : esp32s31_reset) : io Z := esp32s31_reset_update rst false.

(** * The fractional dividers *)

(** mult_frac() is the exact quotient, rounded down, when its parts fit. *)
Lemma mult_frac_exact x n d : 0 <= x < 4294967296 -> 0 <= n -> 0 < d -> n <= d -> d * n < 4294967296 ->
  mult_frac x n d = x * n / d.
Proof.
  intros Hx Hn Hd Hnd Hw. unfold mult_frac. pose proof (Z.div_mod x d ltac:(lia)) as E. pose proof (Z.mod_pos_bound x d Hd) as B.
  set (q := x / d) in *. set (r := x mod d) in *. assert (0 <= q) by (apply Z.div_pos; lia).
  assert (x * n / d = q * n + r * n / d) as F.
  { replace (x * n) with (r * n + (q * n) * d) by lia. rewrite Z.div_add by lia. lia. }
  assert (0 <= q * n <= x) by nia.
  assert (0 <= x * n / d <= x).
  { split; [apply Z.div_pos; nia|]. apply Z.div_le_upper_bound; nia. }
  assert (0 <= r * n < 4294967296) by nia. rewrite (u32_small (q * n)), (u32_small (r * n)) by lia.
  rewrite F in *. apply u32_small. lia.
Qed.

(** * The SD host *)

Lemma sdio_fields div : 2 <= div <= 16 ->
  FIELD_GET HP_SDIO_EDGE_N (sdio_val div) = div - 1 /\ FIELD_GET HP_SDIO_EDGE_L (sdio_val div) = div - 1 /\
  FIELD_GET HP_SDIO_EDGE_H (sdio_val div) = div / 2 - 1 /\ Z.testbit (sdio_val div) 0 = false.
Proof.
  intros H. assert (forallb (fun div => (FIELD_GET HP_SDIO_EDGE_N (sdio_val div) =? div - 1) &&
    (FIELD_GET HP_SDIO_EDGE_L (sdio_val div) =? div - 1) && (FIELD_GET HP_SDIO_EDGE_H (sdio_val div) =? div / 2 - 1) &&
    negb (Z.testbit (sdio_val div) 0)) (seqZ 2 15) = true) as A by (vm_compute; reflexivity).
  rewrite forallb_forall in A. specialize (A div ltac:(apply list_elem_of_In, elem_of_seqZ; lia)). cbv beta in A.
  rewrite !andb_true_iff, !Z.eqb_eq, negb_true_iff in A. tauto.
Qed.

Lemma sdio_div_range rate parent : 2 <= esp32s31_sdio_div rate parent <= 16.
Proof. unfold esp32s31_sdio_div, clamp, HP_SDIO_DIV_MAX. if_goal; lia. Qed.

(** The clock of the SD host.  The rate that the driver promises for a
    request is the one that its register gives after a set; it is not above
    the request unless even the largest divider is too fast; and no divider of
    the hardware that keeps the request is faster. *)
Theorem sdio_rate_correct rate parent :
  0 <= rate -> 0 <= parent -> parent + rate < 4294967296 ->
  exists v, (forall ins, esp32s31_sdio_set_rate rate parent ins =
      Some (0, [W32 HP_SDIO_HOST_FUNC_CTRL0 (Z.lor v HP_SDIO_EDGE_UPDATE); W32 HP_SDIO_HOST_FUNC_CTRL0 v], ins)) /\
    Z.testbit v 0 = false /\
    let actual := esp32s31_sdio_recalc_rate v parent in
    actual = esp32s31_sdio_determine_rate rate parent /\
    (0 < rate -> parent <= rate * HP_SDIO_DIV_MAX -> actual <= rate) /\
    (forall div, 2 <= div <= HP_SDIO_DIV_MAX -> parent <= rate * div -> parent / div <= actual).
Proof.
  intros Hr Hp Hw. exists (sdio_val (esp32s31_sdio_div rate parent)).
  pose proof (sdio_div_range rate parent) as R. destruct (sdio_fields _ R) as (F1 & _ & _ & F4).
  split; [done|]. split; [done|]. unfold esp32s31_sdio_recalc_rate, esp32s31_sdio_determine_rate. rewrite F1, Z.sub_add.
  split; [done|]. unfold esp32s31_sdio_div, HP_SDIO_DIV_MAX, clamp in *.
  destruct (Z.eqb_spec rate 0) as [->|N].
  { split; [lia|]. intros div Hd Hk. assert (parent = 0) as -> by lia. rewrite !Z.div_0_l by lia. lia. }
  rewrite (u32_small (parent + rate - 1)) in * by lia.
  pose proof (Z.div_mod (parent + rate - 1) rate ltac:(lia)) as E. pose proof (Z.mod_pos_bound (parent + rate - 1) rate ltac:(lia)) as B.
  set (q := (parent + rate - 1) / rate) in *. set (d := Z.min (Z.max q 2) 16) in *. split.
  - intros _ Hk. apply Z.div_le_upper_bound; [lia|]. assert (q <= 16) by nia. assert (q <= d) by lia. nia.
  - intros div Hd Hk. apply Z.div_le_compat_l; [lia|]. assert (q <= div) by nia. lia.
Qed.

(** 50 MHz of an MPLL of 500 MHz: divider 10. *)
Lemma sdio_rate_correct_witness :
  exists v, (forall ins, esp32s31_sdio_set_rate 50000000 500000000 ins =
      Some (0, [W32 HP_SDIO_HOST_FUNC_CTRL0 (Z.lor v HP_SDIO_EDGE_UPDATE); W32 HP_SDIO_HOST_FUNC_CTRL0 v], ins)) /\
    Z.testbit v 0 = false /\
    let actual := esp32s31_sdio_recalc_rate v 500000000 in
    actual = esp32s31_sdio_determine_rate 50000000 500000000 /\
    (0 < 50000000 -> 500000000 <= 50000000 * HP_SDIO_DIV_MAX -> actual <= 50000000) /\
    (forall div, 2 <= div <= HP_SDIO_DIV_MAX -> 500000000 <= 50000000 * div -> 500000000 / div <= actual).
Proof. apply sdio_rate_correct; lia. Defined.

(** The rate of a fractional divider is exact, rounded down, for each value of
    its register and each parent below 2^32. *)
Theorem frac_rate_correct val parent :
  0 <= val -> 0 <= parent < 4294967296 ->
  let div := FIELD_GET HP_FREQ_DIV_NUM val + 1 in
  let num := FIELD_GET HP_FREQ_NUMERATOR val in
  let den := FIELD_GET HP_FREQ_DENOMINATOR val in
  esp32s31_frac_recalc_rate val parent = if den =? 0 then parent / div else parent * den / (div * den + num).
Proof.
  intros Hv Hp. unfold esp32s31_frac_recalc_rate. cbn zeta.
  rewrite (FIELD_GET_eq HP_FREQ_DIV_NUM 8 0), (FIELD_GET_eq HP_FREQ_NUMERATOR 3 8), (FIELD_GET_eq HP_FREQ_DENOMINATOR 3 11) by done.
  pose proof (Z.mod_pos_bound (val / 2 ^ 0) (2 ^ 8) ltac:(lia)) as B1. pose proof (Z.mod_pos_bound (val / 2 ^ 8) (2 ^ 3) ltac:(lia)) as B2.
  pose proof (Z.mod_pos_bound (val / 2 ^ 11) (2 ^ 3) ltac:(lia)) as B3.
  set (a := val / 2 ^ 0 mod 2 ^ 8) in *. set (b := val / 2 ^ 8 mod 2 ^ 3) in *. set (c := val / 2 ^ 11 mod 2 ^ 3) in *.
  change (2 ^ 8) with 256 in *. change (2 ^ 3) with 8 in *. destruct (Z.eqb_spec c 0); [done|].
  rewrite (u32_small ((a + 1) * c + b)) by nia. apply mult_frac_exact; nia.
Qed.

(** * Resets *)

(** A reset line of the tables changes its own bit only: after an assert it
    is set, after a deassert it is clear, and the gates, the divider and the
    other bits of the register stay. *)
Theorem reset_update_correct rst assert v ins :
  In rst (esp32s31_hp_resets ++ esp32s31_cnnt_resets) -> 0 <= v < 4294967296 ->
  exists w, esp32s31_reset_update rst assert (v :: ins) = Some (0, [R32 (r_offset rst) v; W32 (r_offset rst) w], ins) /\
    nz (Z.land w (r_mask rst)) = assert /\ Z.land w (not32 (r_mask rst)) = Z.land v (not32 (r_mask rst)).
Proof.
  intros H Hv. eexists. split; [reflexivity|].
  repeat (destruct H as [<-|H]; [destruct assert; (split; [by rewrite land_update|by apply land_keep])|]). done.
Qed.
Lemma reset_update_correct_witness :
  exists w, esp32s31_reset_update (Reset HP_RMT_CTRL0 HP_PERIPH_RST_EN) true (0x29 :: []) =
      Some (0, [R32 HP_RMT_CTRL0 0x29; W32 HP_RMT_CTRL0 w], []) /\
    nz (Z.land w HP_PERIPH_RST_EN) = true /\ Z.land w (not32 HP_PERIPH_RST_EN) = Z.land 0x29 (not32 HP_PERIPH_RST_EN).
Proof. apply (reset_update_correct (Reset HP_RMT_CTRL0 HP_PERIPH_RST_EN)); [cbn; tauto|lia]. Defined.
