(* ===== verification/ClkTree.v ===== *)
(** The registration of the clocks: the tables and probe functions of
    linux/drivers/clk/clk-esp32s31.c.

    A clock is the tree of what it was registered from.  The clock core, the
    allocator and the other frameworks are parameters: [reg] is what a
    registration gives, 0 or an error, [alloc] whether the memory of a clock is
    there.  [None] is the use of a parent that is no clock. *)

From Stdlib Require Import Ascii String.
From S2P Require Import Prelude Device Clk.

Open Scope Z_scope.

Inductive reg_ops := esp32s31_mpll_ops | esp32s31_frac_ops | esp32s31_sdio_ops.
Inductive mux_flag := CLK_SET_RATE_NO_REPARENT | CLK_MUX_READ_ONLY.
Inductive clk :=
  | Input (fw_name : string)
  | RegClk (name : string) (parent : clk) (ops : reg_ops) (offset : Z)
  | MuxClk (name : string) (srcs : list string) (flags : mux_flag) (offset shift width : Z)
  | DivClk (name : string) (parent : clk) (offset shift width : Z)
  | GateClk (name : string) (parent : clk) (set_rate_parent : bool) (offset bit : Z).
(** A struct clk_hw pointer: an error or a clock; a slot of the table is NULL before it is set. *)
Definition hw : Type := Z + clk.
Definition slot : Type := option hw.

Section probe.
Context (alloc : string -> bool) (reg : clk -> Z).

Definition hw_register (c : clk) : hw := if reg c =? 0 then inr c else inl (reg c).
Definition esp32s31_reg_register (name : string) (parent : clk) (ops : reg_ops) (offset : Z) : hw :=
  if negb (alloc name) then inl (- ENOMEM) else hw_register (RegClk name parent ops offset).
Definition set_hw (hws : list slot) (id : Z) (h : hw) : list slot := <[Z.to_nat id := Some h]> hws.
Definition clock_of (hws : list slot) (id : Z) : option clk :=
  match hws !! Z.to_nat id with Some (Some (inr c)) => Some c | _ => None end.

Definition esp32s31_lp_init (hws : list slot) : option (Z * list slot) :=
  Some (0, set_hw hws ESP32S31_LP_CLK_MPLL (esp32s31_reg_register "mpll" (Input "xtal") esp32s31_mpll_ops LP_MSPI_DIV)).

Definition periph_src : list string := ["xtal"; "rc-fast"; "pll-f80m"]%string.
Definition esp32s31_periph_register (hws : list slot) (p : esp32s31_periph) : option (hw * list slot) :=
  let name k := nth k (p_names p) EmptyString in
  bus ← clock_of hws (p_bus p);
  let hws := set_hw hws (p_id p) (hw_register (GateClk (name 0%nat) bus false (p_offset p) HP_PERIPH_BUS_CLK_EN)) in
  match hw_register (MuxClk (name 1%nat) (ztake (p_nsrc p) periph_src) CLK_SET_RATE_NO_REPARENT (p_offset p) (p_sel_shift p) (p_sel_width p)) with
  | inl e => Some (inl e, hws)
  | inr mux =>
      match hw_register (DivClk (name 2%nat) mux (p_offset p) (p_div_shift p) 8) with
      | inl e => Some (inl e, hws)
      | inr div =>
          let h := hw_register (GateClk (name 3%nat) div true (p_offset p) (p_en_shift p)) in
          Some (h, set_hw hws (p_id p + 1) h)
      end
  end.
Fixpoint periphs_init (l : list esp32s31_periph) (hws : list slot) : option (Z * list slot) :=
  match l with
  | [] => Some (0, hws)
  | p :: l =>
      '(h, hws) ← esp32s31_periph_register hws p;
      match h with inl e => Some (e, hws) | inr _ => periphs_init l hws end
  end.

Definition root_src : list string := ["xtal"; "cpll"; "rc-fast"; "pll-f240m"]%string.
Definition hp_chain : list (string * Z * Z) :=
  [("cpu", ESP32S31_CLK_CPU, HP_CPU_FREQ_CTRL0); ("sys", ESP32S31_CLK_SYS, HP_SYS_FREQ_CTRL0);
   ("apb", ESP32S31_CLK_APB, HP_APB_FREQ_CTRL0)]%string.
Fixpoint chain_init (l : list (string * Z * Z)) (h : hw) (hws : list slot) : hw * list slot :=
  match l, h with
  | (name, id, offset) :: l, inr parent =>
      let h := esp32s31_reg_register name parent esp32s31_frac_ops offset in
      chain_init l h (set_hw hws id h)
  | _, _ => (h, hws)
  end.
Definition esp32s31_hp_init (hws : list slot) : option (Z * list slot) :=
  let root := hw_register (MuxClk "soc-root" root_src CLK_MUX_READ_ONLY HP_SOC_CLK_SEL 0 2) in
  let '(h, hws) := chain_init hp_chain root hws in
  match h with
  | inl e => Some (e, hws)
  | inr _ =>
      sys ← clock_of hws ESP32S31_CLK_SYS;
      let hws := set_hw hws ESP32S31_CLK_EMAC_SYS (hw_register (GateClk "emac-sys" sys false HP_EMAC_CTRL0 0)) in
      '(ret, hws) ← periphs_init esp32s31_periphs hws;
      if nz ret then Some (ret, hws)
      else
        sys ← clock_of hws ESP32S31_CLK_SYS;
        let hws := set_hw hws ESP32S31_CLK_SDMMC_SYS
          (hw_register (GateClk "sdmmc-sys" sys false HP_SDIO_HOST_CTRL0 HP_PERIPH_BUS_CLK_EN)) in
        match esp32s31_reg_register "sdio-ls-div" (Input "mpll") esp32s31_sdio_ops HP_SDIO_HOST_FUNC_CTRL0 with
        | inl e => Some (e, hws)
        | inr div =>
            Some (0, set_hw hws ESP32S31_CLK_SDIO_LS (hw_register (GateClk "sdio-ls" div true HP_SDIO_HOST_CTRL0 HP_SDIO_LS_CLK_EN)))
        end
  end.

(** [regmap] and [syscon]: what devm_regmap_init_mmio() and of_syscon_register_regmap() give. *)
Definition esp32s31_cnnt_init (regmap syscon : Z) (hws : list slot) : option (Z * list slot) :=
  match hw_register (MuxClk "emac-ref-mux" ["mpll"; "cpll"; "apll"] CLK_SET_RATE_NO_REPARENT CNNT_EMAC_REF_CTRL 0 2) with
  | inl e => Some (e, hws)
  | inr mux =>
      match hw_register (DivClk "emac-ref-div" mux CNNT_EMAC_REF_CTRL 8 8) with
      | inl e => Some (e, hws)
      | inr div =>
          let hws := set_hw hws ESP32S31_CNNT_CLK_EMAC_REF (hw_register (GateClk "emac-ref" div true CNNT_EMAC_REF_CTRL 2)) in
          if nz regmap then Some (regmap, hws) else Some (syscon, hws)
      end
  end%string.

Record esp32s31_clk_data := ClkData { nclks : Z; data_init : list slot -> option (Z * list slot); resets : list esp32s31_reset }.
Definition esp32s31_lp_data : esp32s31_clk_data := ClkData (ESP32S31_LP_CLK_MPLL + 1) esp32s31_lp_init [].
Definition esp32s31_hp_data : esp32s31_clk_data := ClkData (ESP32S31_CLK_SDIO_LS + 1) esp32s31_hp_init esp32s31_hp_resets.
Definition esp32s31_cnnt_data (regmap syscon : Z) : esp32s31_clk_data :=
  ClkData (ESP32S31_CNNT_CLK_EMAC_REF + 1) (esp32s31_cnnt_init regmap syscon) esp32s31_cnnt_resets.

(** What the frameworks give probe(): its two allocations, the resource and its
    mapping, and the registrations of the resets and of the provider. *)
Record env := Env { e_ec : bool; e_hws : bool; e_res : bool; e_map : bool; e_rcdev : Z; e_provider : Z }.
Fixpoint first_err (hws : list slot) : option Z :=
  match hws with
  | [] => None
  | Some (inl e) :: _ => Some e
  | _ :: hws => first_err hws
  end.
Definition esp32s31_clk_probe (e : env) (data : esp32s31_clk_data) : option (Z * list slot) :=
  if negb (e_ec e) then Some (- ENOMEM, [])
  else if negb (e_hws e) then Some (- ENOMEM, [])
  else if negb (e_res e) then Some (- EINVAL, [])
  else if negb (e_map e) then Some (- ENOMEM, [])
  else
    '(ret, hws) ← data_init data (replicate (Z.to_nat (nclks data)) None);
    if nz ret then Some (ret, hws)
    else match first_err hws with
    | Some err => Some (err, hws)
    | None =>
        if nz (zlen (resets data)) && nz (e_rcdev e) then Some (e_rcdev e, hws)
        else Some (e_provider e, hws)
    end.

End probe.

(** * What a block registers *)

#[local] Instance string_eq : EqDecision string := string_dec.
#[export] Instance reg_ops_eq : EqDecision reg_ops.
Proof. solve_decision. Defined.
#[export] Instance mux_flag_eq : EqDecision mux_flag.
Proof. solve_decision. Defined.
#[export] Instance clk_eq : EqDecision clk.
Proof. intros x y. red. decide equality; apply (decide (_ = _)). Defined.

(** A clock and its ancestors. *)
Fixpoint chain_of (c : clk) : list clk :=
  c :: match c with
       | Input _ | MuxClk _ _ _ _ _ _ => []
       | RegClk _ p _ _ | DivClk _ p _ _ _ | GateClk _ p _ _ _ => chain_of p
       end.
(** The registrations that a tree needs: an input is the clock of another device. *)
Definition registers (c : clk) : bool := match c with Input _ => false | _ => true end.
Definition nodes (l : list clk) : list clk := remove_dups (filter (fun c => registers c = true) (l ≫= chain_of)).
(** The bits of a block that a clock uses, as register and bit. *)
Definition field (offset m : Z) : list (Z * Z) := (fun i => (offset, i)) <$> filter (fun i => Z.testbit m i = true) (seqZ 0 32).
Definition range_bits (offset shift width : Z) : list (Z * Z) := (fun i => (offset, i)) <$> seqZ shift width.
Definition ops_bits (o : reg_ops) (offset : Z) : list (Z * Z) :=
  match o with
  | esp32s31_mpll_ops => field offset LP_MSPI_REF_DIV ++ field offset LP_MSPI_FB_DIV
  | esp32s31_frac_ops => field offset HP_FREQ_DIV_NUM ++ field offset HP_FREQ_NUMERATOR ++ field offset HP_FREQ_DENOMINATOR
  | esp32s31_sdio_ops => field offset HP_SDIO_EDGE_UPDATE ++ field offset HP_SDIO_EDGE_L ++ field offset HP_SDIO_EDGE_H ++
      field offset HP_SDIO_EDGE_N ++ field offset HP_SDIO_DRV_EDGE_SEL ++ field offset HP_SDIO_PHASE_CLK_EN
  end.
Definition clk_bits (c : clk) : list (Z * Z) :=
  match c with
  | Input _ => []
  | RegClk _ _ o offset => ops_bits o offset
  | MuxClk _ _ _ offset shift width | DivClk _ _ offset shift width => range_bits offset shift width
  | GateClk _ _ _ offset bit => [(offset, bit)]
  end.
Definition clk_name (c : clk) : string :=
  match c with Input n | RegClk n _ _ _ | MuxClk n _ _ _ _ _ | DivClk n _ _ _ _ | GateClk n _ _ _ _ => n end.

(** The clocks of a block, in the order of their IDs. *)
Definition frac (name : string) (parent : clk) (offset : Z) : clk := RegClk name parent esp32s31_frac_ops offset.
Definition cpu_clk : clk := frac "cpu" (MuxClk "soc-root" root_src CLK_MUX_READ_ONLY HP_SOC_CLK_SEL 0 2) HP_CPU_FREQ_CTRL0.
Definition sys_clk : clk := frac "sys" cpu_clk HP_SYS_FREQ_CTRL0.
Definition apb_clk : clk := frac "apb" sys_clk HP_APB_FREQ_CTRL0.
Definition func_clk (p : esp32s31_periph) : clk :=
  let name k := nth k (p_names p) EmptyString in
  GateClk (name 3%nat)
    (DivClk (name 2%nat)
      (MuxClk (name 1%nat) (ztake (p_nsrc p) periph_src) CLK_SET_RATE_NO_REPARENT (p_offset p) (p_sel_shift p) (p_sel_width p))
      (p_offset p) (p_div_shift p) 8) true (p_offset p) (p_en_shift p).
Definition bus_clk (p : esp32s31_periph) : clk :=
  GateClk (nth 0 (p_names p) EmptyString) (if p_bus p =? ESP32S31_CLK_APB then apb_clk else sys_clk) false (p_offset p) HP_PERIPH_BUS_CLK_EN.
Definition hp_clks : list clk :=
  [cpu_clk; sys_clk; apb_clk; GateClk "emac-sys" sys_clk false HP_EMAC_CTRL0 0] ++
  (esp32s31_periphs ≫= fun p => [bus_clk p; func_clk p]) ++
  [GateClk "sdmmc-sys" sys_clk false HP_SDIO_HOST_CTRL0 HP_PERIPH_BUS_CLK_EN;
   GateClk "sdio-ls" (RegClk "sdio-ls-div" (Input "mpll") esp32s31_sdio_ops HP_SDIO_HOST_FUNC_CTRL0) true HP_SDIO_HOST_CTRL0 HP_SDIO_LS_CLK_EN].
Definition lp_clks : list clk := [RegClk "mpll" (Input "xtal") esp32s31_mpll_ops LP_MSPI_DIV].
Definition cnnt_clks : list clk :=
  [GateClk "emac-ref" (DivClk "emac-ref-div" (MuxClk "emac-ref-mux" ["mpll"; "cpll"; "apll"]%string CLK_SET_RATE_NO_REPARENT CNNT_EMAC_REF_CTRL 0 2)
     CNNT_EMAC_REF_CTRL 8 8) true CNNT_EMAC_REF_CTRL 2].

(** No two clocks and resets of a block use a bit together, and every bit is one of its register. *)
Definition reset_bits (r : esp32s31_reset) : list (Z * Z) := field (r_offset r) (r_mask r).
Definition block_bits (cs : list clk) (rs : list esp32s31_reset) : list (Z * Z) := (nodes cs ≫= clk_bits) ++ (rs ≫= reset_bits).
Lemma bits_apart : NoDup (block_bits lp_clks []) /\ NoDup (block_bits hp_clks esp32s31_hp_resets) /\ NoDup (block_bits cnnt_clks esp32s31_cnnt_resets).
Proof. split; [|split]; apply (bool_decide_unpack _); by vm_compute. Qed.

Section probe_ok.
Context (alloc : string -> bool) (reg : clk -> Z).

Definition registered (c : clk) : bool := (reg c =? 0) && match c with RegClk n _ _ _ => alloc n | _ => true end.
Definition env_ok (e : env) (data : esp32s31_clk_data) : bool :=
  e_ec e && e_hws e && e_res e && e_map e && ((zlen (resets data) =? 0) || (e_rcdev e =? 0)) && (e_provider e =? 0).

Lemma hw_register_spec c : hw_register reg c = if reg c =? 0 then inr c else inl (reg c).
Proof. done. Qed.

(** What an init function does with its empty table. *)
Definition init_spec (init : list slot -> option (Z * list slot)) (cs : list clk) (also : bool) : Prop :=
  exists r hws, init (replicate (length cs) None) = Some (r, hws) /\
    ((r = 0 /\ first_err hws = None) <-> forallb registered (nodes cs) && also = true) /\
    (r = 0 -> first_err hws = None -> hws = (fun c => Some (inr c)) <$> cs) /\
    (r = 0 -> first_err hws <> Some 0).

Lemma hw_case c : match c with RegClk _ _ _ _ => False | _ => True end ->
  (registered c = true /\ hw_register reg c = inr c) \/ (registered c = false /\ exists e, e <> 0 /\ hw_register reg c = inl e).
Proof.
  intros H. unfold hw_register, registered. assert (match c with RegClk n _ _ _ => alloc n | _ => true end = true) as -> by by destruct c.
  rewrite andb_true_r. destruct (Z.eqb_spec (reg c) 0); [by left|right]. eauto.
Qed.
Lemma reg_case n p o f : let c := RegClk n p o f in
  (registered c = true /\ esp32s31_reg_register alloc reg n p o f = inr c) \/
  (registered c = false /\ exists e, e <> 0 /\ esp32s31_reg_register alloc reg n p o f = inl e).
Proof.
  cbn zeta. unfold esp32s31_reg_register, hw_register, registered. destruct (alloc n); cbn [negb].
  - rewrite andb_true_r. destruct (Z.eqb_spec (reg (RegClk n p o f)) 0); [by left|right]. eauto.
  - rewrite andb_false_r. right. split; [done|]. by exists (- ENOMEM).
Qed.
Lemma init_fail init cs also r hws c : init (replicate (length cs) None) = Some (r, hws) -> r <> 0 -> registered c = false ->
  bool_decide (c ∈ nodes cs) = true -> init_spec init cs also.
Proof.
  intros E Hr Hc Hn%bool_decide_eq_true. exists r, hws. split; [done|]. split; [|done]. split; [by intros []|].
  intros [H _]%andb_true_iff. rewrite forallb_forall in H. apply list_elem_of_In in Hn. apply H in Hn. congruence.
Qed.
Lemma init_ok init cs also hs : init (replicate (length cs) None) = Some (0, (Some <$> hs)) ->
  (first_err (Some <$> hs) = None <-> forallb registered (nodes cs) && also = true) ->
  (first_err (Some <$> hs) = None -> hs = inr <$> cs) -> first_err (Some <$> hs) <> Some 0 -> init_spec init cs also.
Proof.
  intros E H1 H2 H3. exists 0, (Some <$> hs). split; [done|]. split; [tauto|]. split; [|done].
  intros _ Hn. rewrite (H2 Hn), <- list_fmap_compose. done.
Qed.
Lemma lp_init : init_spec (esp32s31_lp_init alloc reg) lp_clks true.
Proof.
  destruct (reg_case "mpll" (Input "xtal") esp32s31_mpll_ops LP_MSPI_DIV) as [[R E]|(R & e & He & E)].
  - apply (init_ok _ _ _ [inr (RegClk "mpll" (Input "xtal") esp32s31_mpll_ops LP_MSPI_DIV)]); [|..|done|done].
    + unfold esp32s31_lp_init. by rewrite E.
    + change (nodes lp_clks) with [RegClk "mpll" (Input "xtal") esp32s31_mpll_ops LP_MSPI_DIV]. cbn [forallb]. by rewrite R.
  - apply (init_ok _ _ _ [inl e]); [|..|done|by intros [= ->]].
    + unfold esp32s31_lp_init. by rewrite E.
    + change (nodes lp_clks) with [RegClk "mpll" (Input "xtal") esp32s31_mpll_ops LP_MSPI_DIV]. cbn [forallb]. by rewrite R.
Qed.
(** A failed registration: the clock, and the error that is given. *)
Definition failed (cs : list clk) (e : Z) : Prop := exists c, registered c = false /\ c ∈ nodes cs /\ e <> 0.
Lemma failed_in cs c e : registered c = false -> bool_decide (c ∈ nodes cs) = true -> e <> 0 -> failed cs e.
Proof. intros R H%bool_decide_eq_true He. by exists c. Qed.
Lemma init_failed init cs also r hws : failed cs r -> init (replicate (length cs) None) = Some (r, hws) -> init_spec init cs also.
Proof. intros (c & R & H & He) E. eapply init_fail; [done..|]. by apply bool_decide_eq_true. Qed.

Lemma chain_ok hws : 
  let r := chain_init alloc reg hp_chain (hw_register reg (MuxClk "soc-root" root_src CLK_MUX_READ_ONLY HP_SOC_CLK_SEL 0 2)) hws in
  (forallb registered (chain_of apb_clk) = true /\
   r = (inr apb_clk, set_hw (set_hw (set_hw hws ESP32S31_CLK_CPU (inr cpu_clk)) ESP32S31_CLK_SYS (inr sys_clk)) ESP32S31_CLK_APB (inr apb_clk))) \/
  (exists e hws, failed hp_clks e /\ r = (inl e, hws)).
Proof.
  cbn zeta. unfold hp_chain.
  destruct (hw_case (MuxClk "soc-root" root_src CLK_MUX_READ_ONLY HP_SOC_CLK_SEL 0 2) I) as [[R0 ->]|(R0 & e & He & ->)]; cbn [chain_init].
  2: { right. do 2 eexists. split; [|done]. by eapply failed_in; [exact R0|vm_compute|]. }
  destruct (reg_case "cpu" (MuxClk "soc-root" root_src CLK_MUX_READ_ONLY HP_SOC_CLK_SEL 0 2) esp32s31_frac_ops HP_CPU_FREQ_CTRL0) as [[R1 ->]|(R1 & e & He & ->)]; cbn [chain_init].
  2: { right. do 2 eexists. split; [|done]. by eapply failed_in; [exact R1|vm_compute|]. }
  destruct (reg_case "sys" ltac:(let c := eval unfold cpu_clk, frac in cpu_clk in exact c) esp32s31_frac_ops HP_SYS_FREQ_CTRL0) as [[R2 ->]|(R2 & e & He & ->)]; cbn [chain_init].
  2: { right. do 2 eexists. split; [|done]. by eapply failed_in; [exact R2|vm_compute|]. }
  destruct (reg_case "apb" ltac:(let c := eval unfold sys_clk, cpu_clk, frac in sys_clk in exact c) esp32s31_frac_ops HP_APB_FREQ_CTRL0) as [[R3 ->]|(R3 & e & He & ->)].
  2: { right. do 2 eexists. split; [|done]. by eapply failed_in; [exact R3|vm_compute|]. }
  left. split; [|done]. cbn [forallb chain_of apb_clk sys_clk cpu_clk frac]. unfold apb_clk, sys_clk, cpu_clk, frac in *. by rewrite R0, R1, R2, R3.
Qed.
Lemma periph_ok hws p bus : In p esp32s31_periphs -> clock_of hws (p_bus p) = Some bus -> bus = (if p_bus p =? ESP32S31_CLK_APB then apb_clk else sys_clk) ->
  (forallb registered (chain_of (func_clk p)) = true /\
   esp32s31_periph_register reg hws p =
     Some (inr (func_clk p), set_hw (set_hw hws (p_id p) (hw_register reg (bus_clk p))) (p_id p + 1) (inr (func_clk p)))) \/
  (exists e hws', failed hp_clks e /\ esp32s31_periph_register reg hws p = Some (inl e, hws')).
Proof.
  intros Hp B ->. unfold esp32s31_periph_register. rewrite B. cbn [mbind option_bind]. fold (bus_clk p).
  set (m := MuxClk (nth 1 (p_names p) EmptyString) (ztake (p_nsrc p) periph_src) CLK_SET_RATE_NO_REPARENT (p_offset p) (p_sel_shift p) (p_sel_width p)).
  set (d := DivClk (nth 2 (p_names p) EmptyString) m (p_offset p) (p_div_shift p) 8).
  assert (D : GateClk (nth 3 (p_names p) EmptyString) d true (p_offset p) (p_en_shift p) = func_clk p) by done.
  change (chain_of (func_clk p)) with [func_clk p; d; m]. cbn [forallb].
  assert (K : forall c, In c [func_clk p; d; m] -> c ∈ nodes hp_clks).
  { subst m d. intros c Hc. assert (forallb (fun p => forallb (fun c => bool_decide (c ∈ nodes hp_clks)) (chain_of (func_clk p))) esp32s31_periphs = true) as A by by vm_compute.
    rewrite forallb_forall in A. specialize (A p Hp). rewrite forallb_forall in A. by apply (bool_decide_eq_true _), A. }
  destruct (hw_case m I) as [[R0 ->]|(R0 & e & He & ->)].
  2: { right. do 2 eexists. split; [|done]. exists m. split; [done|]. split; [apply K; cbn; tauto|done]. }
  cbv iota beta.
  fold d.
  destruct (hw_case d I) as [[R1 ->]|(R1 & e & He & ->)].
  2: { right. do 2 eexists. split; [|done]. exists d. split; [done|]. split; [apply K; cbn; tauto|done]. }
  cbv iota beta zeta. rewrite D.
  destruct (hw_case (func_clk p) I) as [[R2 ->]|(R2 & e & He & ->)].
  2: { right. do 2 eexists. split; [|done]. exists (func_clk p). split; [done|]. split; [apply K; cbn; tauto|done]. }
  left. split; [|done]. by rewrite R0, R1, R2.
Qed.
(** The table of the HP block when it is full, with the gates as they registered. *)
Definition p0 : esp32s31_periph := nth 0 esp32s31_periphs (Periph [] 0 0 0 0 0 0 0 0).
Definition p1 : esp32s31_periph := nth 1 esp32s31_periphs p0.
Definition p2 : esp32s31_periph := nth 2 esp32s31_periphs p0.
Definition emac_sys : clk := GateClk "emac-sys" sys_clk false HP_EMAC_CTRL0 0.
Definition sdmmc_sys : clk := GateClk "sdmmc-sys" sys_clk false HP_SDIO_HOST_CTRL0 HP_PERIPH_BUS_CLK_EN.
Definition sdio_div : clk := RegClk "sdio-ls-div" (Input "mpll") esp32s31_sdio_ops HP_SDIO_HOST_FUNC_CTRL0.
Definition sdio_ls : clk := GateClk "sdio-ls" sdio_div true HP_SDIO_HOST_CTRL0 HP_SDIO_LS_CLK_EN.
Definition hp_table : list hw :=
  [inr cpu_clk; inr sys_clk; inr apb_clk; hw_register reg emac_sys;
   hw_register reg (bus_clk p0); inr (func_clk p0); hw_register reg (bus_clk p1); inr (func_clk p1);
   hw_register reg (bus_clk p2); inr (func_clk p2); hw_register reg sdmmc_sys; hw_register reg sdio_ls].
Lemma hp_nodes : nodes hp_clks ≡ₚ chain_of apb_clk ++ [emac_sys] ++ (bus_clk p0 :: chain_of (func_clk p0)) ++
  (bus_clk p1 :: chain_of (func_clk p1)) ++ (bus_clk p2 :: chain_of (func_clk p2)) ++ [sdmmc_sys; sdio_div; sdio_ls].
Proof.
  apply NoDup_Permutation; [apply (bool_decide_unpack _); by vm_compute..|]. intros c.
  set (l := _ ++ _ : list clk). set (l' := nodes hp_clks).
  assert (A : forallb (fun c => bool_decide (c ∈ l)) l' = true) by by vm_compute.
  assert (B : forallb (fun c => bool_decide (c ∈ l')) l = true) by by vm_compute.
  rewrite forallb_forall in A, B. split; intros H%list_elem_of_In; apply (bool_decide_eq_true _); auto.
Qed.
Definition slots (n : nat) : list slot := (Some <$> take n hp_table) ++ replicate (12 - n) None.
Lemma periphs_ok :
  (forallb (fun p => forallb registered (chain_of (func_clk p))) esp32s31_periphs = true /\
   periphs_init reg esp32s31_periphs (slots 4) = Some (0, slots 10)) \/
  (exists e hws, failed hp_clks e /\ periphs_init reg esp32s31_periphs (slots 4) = Some (e, hws)).
Proof.
  change (periphs_init reg esp32s31_periphs) with (periphs_init reg [p0; p1; p2]). cbn [periphs_init].
  destruct (periph_ok (slots 4) p0 apb_clk) as [[R0 ->]|(e & hws & Hf & ->)]; [by cbn; tauto|done|done|..]; cbn [mbind option_bind];
    [|right; by exists e, hws].
  change (set_hw _ _ (inr (func_clk p0))) with (slots 6).
  destruct (periph_ok (slots 6) p1 apb_clk) as [[R1 ->]|(e & hws & Hf & ->)]; [by cbn; tauto|done|done|..]; cbn [mbind option_bind];
    [|right; by exists e, hws].
  change (set_hw _ _ (inr (func_clk p1))) with (slots 8).
  destruct (periph_ok (slots 8) p2 sys_clk) as [[R2 ->]|(e & hws & Hf & ->)]; [by cbn; tauto|done|done|..]; cbn [mbind option_bind];
    [|right; by exists e, hws].
  left. split; [|done]. change esp32s31_periphs with [p0; p1; p2]. cbn [forallb]. by rewrite R0, R1, R2.
Qed.
Lemma forallb_perm {A} (f : A -> bool) l l' : l ≡ₚ l' -> forallb f l = forallb f l'.
Proof. induction 1; cbn [forallb]; try congruence. by rewrite !andb_assoc, (andb_comm (f y)). Qed.
Lemma gate_ok c : registered c = true -> hw_register reg c = inr c.
Proof. unfold registered, hw_register. by intros [-> _]%andb_true_iff. Qed.
Lemma first_err_table : first_err (Some <$> hp_table) = None <->
  forallb registered [emac_sys; bus_clk p0; bus_clk p1; bus_clk p2; sdmmc_sys; sdio_ls] = true.
Proof.
  unfold hp_table, registered, hw_register. cbn [fmap list_fmap forallb].
  repeat match goal with |- context [reg ?c =? 0] => destruct (reg c =? 0); cbn end; by split.
Qed.
Lemma first_err_nz l : Forall (fun s => s <> Some (inl 0)) l -> first_err l <> Some 0.
Proof. induction 1 as [|s l Hs _ IH]; [done|]. destruct s as [[x|c]|]; cbn; congruence. Qed.
Lemma hw_nz c : hw_register reg c <> inl 0.
Proof. unfold hw_register. destruct (Z.eqb_spec (reg c) 0); congruence. Qed.
Lemma table_nz : first_err (Some <$> hp_table) <> Some 0.
Proof.
  apply first_err_nz. repeat (constructor; [intros [= E]; by apply hw_nz in E|]). constructor.
Qed.
Definition hp_tail (hws : list slot) : option (Z * list slot) :=
  sys ← clock_of hws ESP32S31_CLK_SYS;
  let hws := set_hw hws ESP32S31_CLK_SDMMC_SYS (hw_register reg (GateClk "sdmmc-sys" sys false HP_SDIO_HOST_CTRL0 HP_PERIPH_BUS_CLK_EN)) in
  match esp32s31_reg_register alloc reg "sdio-ls-div" (Input "mpll") esp32s31_sdio_ops HP_SDIO_HOST_FUNC_CTRL0 with
  | inl e => Some (e, hws)
  | inr div => Some (0, set_hw hws ESP32S31_CLK_SDIO_LS (hw_register reg (GateClk "sdio-ls" div true HP_SDIO_HOST_CTRL0 HP_SDIO_LS_CLK_EN)))
  end.
Lemma hp_init : init_spec (esp32s31_hp_init alloc reg) hp_clks true.
Proof.
  destruct (chain_ok (replicate (length hp_clks) None)) as [[R E]|(e & hws & Hf & E)].
  2: { eapply init_failed; [exact Hf|]. unfold esp32s31_hp_init. rewrite E. reflexivity. }
  assert (run : esp32s31_hp_init alloc reg (replicate (length hp_clks) None) =
    match periphs_init reg esp32s31_periphs (slots 4) with
    | Some (ret, hws) => if nz ret then Some (ret, hws) else hp_tail hws
    | None => None
    end) by (unfold esp32s31_hp_init; rewrite E; reflexivity).
  destruct periphs_ok as [[R1 E1]|(e & hws & Hf & E1)]; rewrite E1 in run.
  2: { destruct Hf as (c & ? & ? & He). pose proof (proj2 (nz_true e) He) as Hn. rewrite Hn in run.
    eapply init_failed; [|exact run]. by exists c. }
  cbn in run. unfold hp_tail in run.
  destruct (reg_case "sdio-ls-div" (Input "mpll") esp32s31_sdio_ops HP_SDIO_HOST_FUNC_CTRL0) as [[R2 E2]|(R2 & e & He & E2)];
    rewrite E2 in run; fold sdio_div in R2.
  - apply (init_ok _ _ _ hp_table); [exact run|..].
    + rewrite first_err_table, andb_true_r, (forallb_perm _ _ _ hp_nodes), !forallb_app.
      change esp32s31_periphs with [p0; p1; p2] in R1. cbn [forallb] in R1.
      apply andb_true_iff in R1 as [A0 [A1 [A2 _]%andb_true_iff]%andb_true_iff].
      cbn [forallb]. rewrite R, A0, A1, A2, R2. cbn [andb]. by rewrite !andb_true_r.
    + intros H%first_err_table. cbn [forallb] in H. unfold hp_table.
      repeat apply andb_true_iff in H as [?%gate_ok H].
      repeat match goal with E : hw_register reg _ = _ |- _ => rewrite E; clear E end. reflexivity.
    + apply table_nz.
  - eapply init_failed; [by eapply (failed_in _ sdio_div); [exact R2|vm_compute|exact He]|exact run].
Qed.
Definition emac_mux : clk := MuxClk "emac-ref-mux" ["mpll"; "cpll"; "apll"]%string CLK_SET_RATE_NO_REPARENT CNNT_EMAC_REF_CTRL 0 2.
Definition emac_div : clk := DivClk "emac-ref-div" emac_mux CNNT_EMAC_REF_CTRL 8 8.
Definition emac_ref : clk := GateClk "emac-ref" emac_div true CNNT_EMAC_REF_CTRL 2.
Lemma cnnt_init regmap syscon : init_spec (esp32s31_cnnt_init reg regmap syscon) cnnt_clks ((regmap =? 0) && (syscon =? 0)).
Proof.
  assert (N : nodes cnnt_clks = [emac_ref; emac_div; emac_mux]) by by vm_compute.
  destruct (hw_case emac_mux I) as [[R0 E0]|(R0 & e & He & E0)].
  2: { eapply (init_failed _ _ _ e); [by eapply (failed_in _ emac_mux); [exact R0|vm_compute|]|].
    unfold esp32s31_cnnt_init. fold emac_mux. by rewrite E0. }
  destruct (hw_case emac_div I) as [[R1 E1]|(R1 & e & He & E1)].
  2: { eapply (init_failed _ _ _ e); [by eapply (failed_in _ emac_div); [exact R1|vm_compute|]|].
    unfold esp32s31_cnnt_init. fold emac_mux. rewrite E0. fold emac_div. by rewrite E1. }
  assert (run : esp32s31_cnnt_init reg regmap syscon (replicate (length cnnt_clks) None) =
    Some (if nz regmap then regmap else syscon, [Some (hw_register reg emac_ref)])).
  { unfold esp32s31_cnnt_init. fold emac_mux. rewrite E0. fold emac_div. rewrite E1. fold emac_ref. by destruct (nz regmap). }
  do 2 eexists. split; [exact run|]. rewrite N. cbn [forallb]. rewrite R0, R1, andb_true_r.
  unfold registered, hw_register, nz. fold emac_ref.
  destruct (Z.eqb_spec regmap 0), (Z.eqb_spec syscon 0), (Z.eqb_spec (reg emac_ref) 0); cbn; split_and!; try done; try congruence; by split; [intros []|intros].
Qed.

(** What probe() does: no parent is ever missing, and it gives 0 just when each
    registration of the block and all of the rest succeeds; the table has then
    each clock at its ID. *)
Definition probe_spec (e : env) (data : esp32s31_clk_data) (cs : list clk) (also : bool) : Prop :=
  exists r hws, esp32s31_clk_probe e data = Some (r, hws) /\
    (r = 0 <-> env_ok e data && forallb registered (nodes cs) && also = true) /\
    (r = 0 -> hws = (fun c => Some (inr c)) <$> cs).
(** An init function that does this makes a probe that does this. *)
Lemma probe_of_init e data cs also : nclks data = zlen cs -> init_spec (data_init data) cs also -> probe_spec e data cs also.
Proof.
  intros L (r & hws & E & H1 & H2 & H3). unfold probe_spec, esp32s31_clk_probe, env_ok. rewrite L.
  replace (Z.to_nat (zlen cs)) with (length cs) by (unfold zlen; lia). rewrite E. cbn [mbind option_bind].
  destruct (e_ec e), (e_hws e), (e_res e), (e_map e); cbn [negb andb]; try (do 2 eexists; split; [done|]; split; done).
  destruct (nz r) eqn:Nr.
  { apply nz_true in Nr. exists r, hws. split; [done|]. split; [|done]. split; [done|].
    intros [H ->]%andb_true_iff. apply andb_true_iff in H as [_ H]. rewrite H in H1. cbn in H1. tauto. }
  apply nz_false in Nr. subst r. destruct (first_err hws) as [x|] eqn:F.
  { exists x, hws. split; [done|]. destruct (forallb registered (nodes cs) && also) eqn:B; [by destruct (proj2 H1 eq_refl)|].
    rewrite <- andb_assoc, B, andb_false_r. split; [split; [|done]|]; intros ->; by destruct H3. }
  destruct H1 as [H1 _]. specialize (H1 (conj eq_refl eq_refl)). rewrite <- andb_assoc, H1, andb_true_r. specialize (H2 eq_refl eq_refl).
  unfold nz. destruct (Z.eqb_spec (zlen (resets data)) 0), (Z.eqb_spec (e_rcdev e) 0); cbn [negb andb orb];
    do 2 eexists; (split; [done|]); (split; [|done]); by rewrite Z.eqb_eq || done.
Qed.
End probe_ok.

Definition block_clks (compatible : Z) : list clk := if compatible =? 0 then lp_clks else if compatible =? 1 then hp_clks else cnnt_clks.
Definition block_data (alloc : string -> bool) (reg : clk -> Z) (regmap syscon compatible : Z) : esp32s31_clk_data :=
  if compatible =? 0 then esp32s31_lp_data alloc reg else if compatible =? 1 then esp32s31_hp_data alloc reg
  else esp32s31_cnnt_data reg regmap syscon.
(** The names that the IDs of the bindings say. *)
Definition binding_names (compatible : Z) : list string :=
  if compatible =? 0 then ["mpll"]%string
   else if compatible =? 1 then
     ["cpu"; "sys"; "apb"; "emac-sys"; "i2c0-apb"; "i2c0"; "i2c1-apb"; "i2c1"; "rmt-sys"; "rmt"; "sdmmc-sys"; "sdio-ls"]%string
   else ["emac-ref"]%string.

(** C31: esp32s31_clk_probe() for each of the three blocks, with any outcome of
    the registrations: no parent is missing when it is used; it gives 0 just
    when the memory, each clock of the block, its resets, its regmap and its
    provider come up; each ID of the bindings has then the clock of
    its name, and no two clocks and resets of the block use a bit of a register together. *)
Theorem clk_probe_correct (alloc : string -> bool) (reg : clk -> Z) (e : env) (regmap syscon compatible : Z) :
  0 <= compatible < 3 ->
  let data := block_data alloc reg regmap syscon compatible in
  let cs := block_clks compatible in
  exists r hws, esp32s31_clk_probe e data = Some (r, hws) /\
    (r = 0 <-> env_ok e data && forallb (registered alloc reg) (nodes cs) &&
       ((compatible <? 2) || (regmap =? 0) && (syscon =? 0)) = true) /\
    (r = 0 -> hws = (fun c => Some (inr c)) <$> cs) /\
    clk_name <$> cs = binding_names compatible /\ NoDup (block_bits cs (resets data)).
Proof.
  intros H. cbn zeta. destruct bits_apart as (B0 & B1 & B2).
  assert (compatible = 0 \/ compatible = 1 \/ compatible = 2) as [->|[->| ->]] by lia.
  - destruct (probe_of_init alloc reg e (esp32s31_lp_data alloc reg) lp_clks true eq_refl (lp_init _ _)) as (r & hws & E & H1 & H2).
    by exists r, hws.
  - destruct (probe_of_init alloc reg e (esp32s31_hp_data alloc reg) hp_clks true eq_refl (hp_init _ _)) as (r & hws & E & H1 & H2).
    by exists r, hws.
  - destruct (probe_of_init alloc reg e (esp32s31_cnnt_data reg regmap syscon) cnnt_clks _ eq_refl (cnnt_init _ _ _ _)) as (r & hws & E & H1 & H2).
    by exists r, hws.
Qed.
Lemma clk_probe_correct_witness :
  let data := block_data (fun _ => true) (fun _ => 0) 0 0 1 in
  let cs := block_clks 1 in
  exists r hws, esp32s31_clk_probe (Env true true true true 0 0) data = Some (r, hws) /\
    (r = 0 <-> env_ok (Env true true true true 0 0) data && forallb (registered (fun _ => true) (fun _ => 0)) (nodes cs) &&
       ((1 <? 2) || (0 =? 0) && (0 =? 0)) = true) /\
    (r = 0 -> hws = (fun c => Some (inr c)) <$> cs) /\
    clk_name <$> cs = binding_names 1 /\ NoDup (block_bits cs (resets data)).
Proof. apply (clk_probe_correct (fun _ => true) (fun _ => 0) (Env true true true true 0 0) 0 0 1). lia. Defined.
