(* ===== verification/Ws2812.v ===== *)
(** The RGB LED: linux/drivers/leds/rgb/leds-esp32s31-ws2812.c.

    A frame is 24 words of the RMT RAM, one for each bit, and a word that ends
    it.  [decode] reads the words as the LED sees them on the wire.  The clock
    of the kernel is an argument, and the delay of a frame a result. *)

From S2P Require Import Prelude Device.

Definition RMT_CH0_CONF0 : Z := 0x20.
Definition RMT_CONF0_TX_START : Z := BIT 0.
Definition RMT_CONF0_MEM_RD_RST : Z := BIT 1.
Definition RMT_CONF0_APB_MEM_RST : Z := BIT 2.
Definition RMT_CONF0_IDLE_OUT_EN : Z := BIT 6.
Definition RMT_CONF0_DIV_CNT : Z := GENMASK 15 8.
Definition RMT_CONF0_MEM_SIZE : Z := GENMASK 19 16.
Definition RMT_CONF0_CONF_UPDATE : Z := BIT 24.
Definition RMT_INT_RAW : Z := 0x70.
Definition RMT_INT_CLR : Z := 0x7c.
Definition RMT_INT_CH0_TX_END : Z := BIT 0.
Definition RMT_SYS_CONF : Z := 0xc0.
Definition RMT_SYS_APB_FIFO_MASK : Z := BIT 0.
Definition RMT_CH0_RAM : Z := 0x800.
Definition RMT_MEM_LP_EN : Z := BIT 2.
Definition RMT_MEM_LP_FORCE_CTRL : Z := BIT 3.
Definition RMT_TICK_HZ : Z := 20000000.
Definition WS2812_T0H : Z := 8.
Definition WS2812_T0L : Z := 17.
Definition WS2812_T1H : Z := 16.
Definition WS2812_T1L : Z := 9.
Definition WS2812_RESET_US : Z := 300.
Definition RMT_WORD (d0 l0 d1 l1 : Z) : Z :=
  Z.lor (Z.lor (Z.lor d0 (Z.shiftl l0 15)) (Z.shiftl d1 16)) (Z.shiftl l1 31).

Definition rmt_read (reg : Z) : io Z := dev_input (fun v => R32 reg v).
Definition rmt_write (reg v : Z) : io unit := emit (W32 reg (u32 v)).
Definition esp32s31_ws2812_conf0 (set : Z) : io unit := v ← rmt_read RMT_CH0_CONF0; rmt_write RMT_CH0_CONF0 (Z.lor v set).

(** The word of bit [23 - i] of the color. *)
Definition rmt_word (grb i : Z) : Z :=
  if nz (Z.land grb (BIT (23 - i))) then RMT_WORD WS2812_T1H 1 WS2812_T1L 0 else RMT_WORD WS2812_T0H 1 WS2812_T0L 0.
Fixpoint write_words (grb : Z) (l : list Z) : io unit :=
  match l with
  | [] => mret tt
  | i :: l => rmt_write (RMT_CH0_RAM + 4 * i) (rmt_word grb i);; write_words grb l
  end.
(** readl_poll_timeout_atomic() with [n] reads more than one before its limit. *)
Fixpoint wait_end (n : nat) : io Z :=
  raw ← rmt_read RMT_INT_RAW;
  if nz (Z.land raw RMT_INT_CH0_TX_END) then mret 0
  else match n with O => mret (- ETIMEDOUT) | S n => wait_end n end.
(** The clock of the kernel in ns, and what a frame needs of it: [t_now] at its
    start and [t_later] at its end.  [delayed] is what the frame waits first, in us. *)
Record clock := { t_now : Z; t_later : Z }.
Record frame := { ret : Z; delayed : Z; sent' : Z }.
Definition ktime_us_delta (later earlier : Z) : Z := Z.quot (later - earlier) 1000.
Definition reset_delay (gap : Z) : Z := if (gap >=? 0) && (gap <? WS2812_RESET_US) then WS2812_RESET_US - gap else 0.
Definition esp32s31_ws2812_send (n : nat) (t : clock) (sent grb : Z) : io frame :=
  let gap := ktime_us_delta (t_now t) sent in
  write_words grb (seqZ 0 24);;
  rmt_write (RMT_CH0_RAM + 4 * 24) 0;;
  conf0 ← rmt_read RMT_CH0_CONF0;
  rmt_write RMT_CH0_CONF0 (Z.lor (Z.lor conf0 RMT_CONF0_MEM_RD_RST) RMT_CONF0_APB_MEM_RST);;
  rmt_write RMT_CH0_CONF0 (Z.land conf0 (not32 (Z.lor RMT_CONF0_MEM_RD_RST RMT_CONF0_APB_MEM_RST)));;
  rmt_write RMT_INT_CLR RMT_INT_CH0_TX_END;;
  esp32s31_ws2812_conf0 RMT_CONF0_CONF_UPDATE;;
  esp32s31_ws2812_conf0 RMT_CONF0_TX_START;;
  r ← wait_end n;
  rmt_write RMT_INT_CLR RMT_INT_CH0_TX_END;;
  mret {| ret := r; delayed := reset_delay gap; sent' := t_later t |}.
(** The brightness of red, green and blue, as led_mc_calc_color_components() gives it. *)
Definition grb_of (r g b : Z) : Z := Z.lor (Z.lor (Z.shiftl g 16) (Z.shiftl r 8)) b.
Definition esp32s31_ws2812_set (n : nat) (t : clock) (sent r g b : Z) : io frame :=
  esp32s31_ws2812_send n t sent (grb_of r g b).

(** The part of probe() that sets up the RMT: [rate] is its clock, [mem_lp] the
    register of the power of its RAM.  [priv] is new, so its [sent] is 0. *)
Definition rmt_div (rate : Z) : Z := DIV_ROUND_CLOSEST rate RMT_TICK_HZ.
Definition probe_rmt (n : nat) (t : clock) (mem_lp rate : Z) : io Z :=
  let div := rmt_div rate in
  if (div =? 0) || (div >? 255) then mret (- EINVAL)
  else
    v ← rmt_read mem_lp;
    rmt_write mem_lp (Z.land v (not32 (Z.lor RMT_MEM_LP_EN RMT_MEM_LP_FORCE_CTRL)));;
    v ← rmt_read RMT_SYS_CONF;
    rmt_write RMT_SYS_CONF (Z.lor v RMT_SYS_APB_FIFO_MASK);;
    rmt_write RMT_CH0_CONF0
      (Z.lor (Z.lor (FIELD_PREP RMT_CONF0_DIV_CNT div) (FIELD_PREP RMT_CONF0_MEM_SIZE 1)) RMT_CONF0_IDLE_OUT_EN);;
    f ← esp32s31_ws2812_send n t 0 0;
    mret (ret f).

(** * The wire *)

(** A word of the RMT: two pulses, each a duration in ticks and a level. *)
Definition pulses (w : Z) : (Z * bool) * (Z * bool) :=
  ((Z.land w 32767, Z.testbit w 15), (Z.land (Z.shiftr w 16) 32767, Z.testbit w 31)).
(** A bit of a WS2812B, in ticks of 50 ns: high for 0.25 to 0.55 us and low for
    0.7 to 1.0 us is a 0, high for 0.65 to 0.95 us and low for 0.3 to 0.6 us is
    a 1, the ranges of its data sheet. *)
Definition decode_bit (w : Z) : option bool :=
  match pulses w with
  | ((h, true), (l, false)) =>
      if (5 <=? h) && (h <=? 11) && (14 <=? l) && (l <=? 20) then Some false
      else if (13 <=? h) && (h <=? 19) && (6 <=? l) && (l <=? 12) then Some true
      else None
  | _ => None
  end.
(** The bits up to a word whose first duration is 0. *)
Fixpoint decode (ws : list Z) : option (list bool) :=
  match ws with
  | [] => None
  | w :: ws => if Z.land w 32767 =? 0 then Some [] else b ← decode_bit w; l ← decode ws; Some (b :: l)
  end.
(** The bits of a byte, the highest first, and the LED's order of the colors. *)
Definition byte_bits (x : Z) : list bool := (fun i => Z.testbit x (7 - i)) <$> seqZ 0 8.
Definition led_bits (r g b : Z) : list bool := byte_bits g ++ byte_bits r ++ byte_bits b.

(** The words of the RAM after the accesses, from the start of the channel. *)
Definition ram_word (tr : list act) (i : Z) : option Z :=
  foldl (fun r x => match x with W32 a v => if a =? RMT_CH0_RAM + 4 * i then Some v else r | _ => r end) None tr.

Lemma rmt_word_decode grb i : decode_bit (rmt_word grb i) = Some (nz (Z.land grb (BIT (23 - i)))) /\
  Z.land (rmt_word grb i) 32767 <> 0.
Proof. unfold rmt_word. by destruct (nz (Z.land grb (BIT (23 - i)))). Qed.
Lemma nz_bit x n : 0 <= n -> nz (Z.land x (BIT n)) = Z.testbit x n.
Proof.
  intros Hn. unfold BIT. rewrite Z.shiftl_1_l. destruct (Z.testbit x n) eqn:T.
  - apply nz_true. intros N. apply (f_equal (fun y => Z.testbit y n)) in N.
    rewrite Z.land_spec, T, Z.pow2_bits_true, Z.bits_0 in N by lia. done.
  - apply nz_false, Z.bits_inj'. intros k Hk. rewrite Z.land_spec, Z.bits_0. destruct (decide (k = n)) as [->|].
    + by rewrite T.
    + rewrite Z.pow2_bits_false by lia. apply andb_false_r.
Qed.

Lemma write_words_run grb l ins :
  write_words grb l ins = Some (tt, (fun i => W32 (RMT_CH0_RAM + 4 * i) (u32 (rmt_word grb i))) <$> l, ins).
Proof.
  revert ins. induction l as [|i l IH]; intros ins; [done|]. cbn [write_words fmap list_fmap].
  unfold rmt_write at 1, emit, mbind, io_bind. by rewrite IH.
Qed.
Definition no_end (v : Z) : Prop := Z.testbit v 0 = false.
Lemma wait_end_ok n vs v rest : Forall no_end vs -> (length vs <= n)%nat -> Z.testbit v 0 = true ->
  wait_end n (vs ++ v :: rest) = Some (0, R32 RMT_INT_RAW <$> (vs ++ [v]), rest).
Proof.
  intros H. revert n. induction H as [|u vs Hu H IH]; intros n Hn Hv.
  - destruct n; cbn [wait_end]; unfold RMT_INT_CH0_TX_END; io_run; rewrite (nz_bit v 0), Hv by lia; done.
  - destruct n; cbn [length] in Hn; [lia|]. cbn [wait_end app]. unfold RMT_INT_CH0_TX_END. io_run.
    rewrite (nz_bit u 0), Hu by lia. rewrite IH by (done || lia). done.
Qed.
Lemma wait_end_late n vs rest : Forall no_end vs -> length vs = S n ->
  wait_end n (vs ++ rest) = Some (- ETIMEDOUT, R32 RMT_INT_RAW <$> vs, rest).
Proof.
  intros H. revert n. induction H as [|u vs Hu H IH]; intros n Hn; [done|].
  destruct n; cbn [wait_end app]; unfold RMT_INT_CH0_TX_END; io_run; rewrite (nz_bit u 0), Hu by lia.
  - destruct vs; [done|]. done.
  - rewrite IH; [done|]. cbn [length] in Hn. lia.
Qed.

(** What a frame does to the device: the words of the color and the end, the
    read pointer, the start, and the polls of the end. *)
Definition start_acts (c1 c2 c3 : Z) : list act :=
  [R32 RMT_CH0_CONF0 c1; W32 RMT_CH0_CONF0 (u32 (Z.lor (Z.lor c1 RMT_CONF0_MEM_RD_RST) RMT_CONF0_APB_MEM_RST));
   W32 RMT_CH0_CONF0 (u32 (Z.land c1 (not32 (Z.lor RMT_CONF0_MEM_RD_RST RMT_CONF0_APB_MEM_RST))));
   W32 RMT_INT_CLR 1; R32 RMT_CH0_CONF0 c2; W32 RMT_CH0_CONF0 (u32 (Z.lor c2 RMT_CONF0_CONF_UPDATE));
   R32 RMT_CH0_CONF0 c3; W32 RMT_CH0_CONF0 (u32 (Z.lor c3 RMT_CONF0_TX_START))].
Definition color_acts (grb : Z) : list act :=
  ((fun i => W32 (RMT_CH0_RAM + 4 * i) (u32 (rmt_word grb i))) <$> seqZ 0 24) ++ [W32 (RMT_CH0_RAM + 4 * 24) 0].
Lemma send_run n t sent grb c1 c2 c3 ins r polls rest :
  wait_end n ins = Some (r, polls, rest) ->
  esp32s31_ws2812_send n t sent grb (c1 :: c2 :: c3 :: ins) =
    Some ({| ret := r; delayed := reset_delay (ktime_us_delta (t_now t) sent); sent' := t_later t |},
      color_acts grb ++ start_acts c1 c2 c3 ++ polls ++ [W32 RMT_INT_CLR 1], rest).
Proof.
  intros H. unfold esp32s31_ws2812_send, color_acts, start_acts. cbn zeta.
  rewrite (io_bind_Some _ _ _ _ _ _ (write_words_run grb (seqZ 0 24) _)), <- app_assoc.
  generalize ((fun i => W32 (RMT_CH0_RAM + 4 * i) (u32 (rmt_word grb i))) <$> seqZ 0 24). intros ws.
  unfold rmt_write, rmt_read, esp32s31_ws2812_conf0, rmt_read, rmt_write, dev_input, emit, mbind, io_bind, mret, io_ret.
  cbn [app]. rewrite H. done.
Qed.

Lemma rmt_word_u32 grb i : u32 (rmt_word grb i) = rmt_word grb i.
Proof. unfold rmt_word. by destruct (nz _). Qed.
(** The words that a frame leaves in the RAM, in the order the RMT sends them. *)
Lemma color_words grb : omap (ram_word (color_acts grb)) (seqZ 0 25) = (rmt_word grb <$> seqZ 0 24) ++ [0].
Proof.
  unfold color_acts.
  assert ((fun i => W32 (RMT_CH0_RAM + 4 * i) (u32 (rmt_word grb i))) <$> seqZ 0 24 =
    (fun i => W32 (RMT_CH0_RAM + 4 * i) (rmt_word grb i)) <$> seqZ 0 24) as ->.
  { apply list_fmap_ext. intros k i _. by rewrite rmt_word_u32. }
  generalize (rmt_word grb). intros F. reflexivity.
Qed.
Lemma decode_words grb l : (forall i, i ∈ l -> 0 <= i < 24) ->
  decode ((rmt_word grb <$> l) ++ [0]) = Some ((fun i => Z.testbit grb (23 - i)) <$> l).
Proof.
  induction l as [|i l IH]; intros H; [done|]. cbn [fmap list_fmap app decode].
  destruct (rmt_word_decode grb i) as [D N]. apply Z.eqb_neq in N. rewrite N, D. cbn [mbind option_bind].
  rewrite IH by (intros; apply H; by right). cbn [mbind option_bind].
  rewrite nz_bit; [done|]. specialize (H i ltac:(left)). lia.
Qed.
Lemma testbit_high x n : 0 <= x < 256 -> 8 <= n -> Z.testbit x n = false.
Proof.
  intros H Hn. destruct (decide (x = 0)) as [->|]; [by rewrite Z.bits_0|].
  apply Z.bits_above_log2; [lia|]. assert (Z.log2 x < 8); [|lia]. apply Z.log2_lt_pow2; change (2 ^ 8) with 256; lia.
Qed.
Lemma grb_bit r g b i : 0 <= r < 256 -> 0 <= g < 256 -> 0 <= b < 256 -> 0 <= i < 24 ->
  Z.testbit (grb_of r g b) (23 - i) =
    if i <? 8 then Z.testbit g (7 - i) else if i <? 16 then Z.testbit r (15 - i) else Z.testbit b (23 - i).
Proof.
  intros Hr Hg Hb Hi. unfold grb_of. rewrite !Z.lor_spec, !Z.shiftl_spec by lia.
  destruct (Z.ltb_spec i 8); [|destruct (Z.ltb_spec i 16)].
  - rewrite (testbit_high r), (testbit_high b) by lia. rewrite !orb_false_r. f_equal. lia.
  - rewrite (Z.testbit_neg_r g), (testbit_high b) by lia. rewrite orb_false_r. cbn [orb]. f_equal. lia.
  - by rewrite (Z.testbit_neg_r g), (Z.testbit_neg_r r) by lia.
Qed.
Lemma led_bits_grb r g b : 0 <= r < 256 -> 0 <= g < 256 -> 0 <= b < 256 ->
  (fun i => Z.testbit (grb_of r g b) (23 - i)) <$> seqZ 0 24 = led_bits r g b.
Proof.
  intros Hr Hg Hb. trans ((fun i => if i <? 8 then Z.testbit g (7 - i)
    else if i <? 16 then Z.testbit r (15 - i) else Z.testbit b (23 - i)) <$> seqZ 0 24); [|reflexivity].
  - apply list_fmap_ext. intros k i E. apply grb_bit; [done..|]. apply list_elem_of_lookup_2, elem_of_seqZ in E. lia.
Qed.

Lemma reset_delay_enough (t : clock) sent :
  let start := t_now t + 1000 * reset_delay (ktime_us_delta (t_now t) sent) in
  (sent <= t_now t -> WS2812_RESET_US * 1000 <= start - sent) /\ 0 <= reset_delay (ktime_us_delta (t_now t) sent) <= WS2812_RESET_US.
Proof.
  cbn zeta. unfold reset_delay, ktime_us_delta, WS2812_RESET_US.
  pose proof (Z.quot_rem (t_now t - sent) 1000 ltac:(lia)) as Q.
  set (q := Z.quot (t_now t - sent) 1000) in *. set (d := t_now t - sent) in *.
  assert (0 <= d -> 0 <= Z.rem d 1000 < 1000) by (intros; apply Z.rem_bound_pos; lia).
  if_goal; split; intros; lia.
Qed.

Lemma frame_ram grb c1 c2 c3 :
  omap (ram_word (color_acts grb ++ take 7 (start_acts c1 c2 c3))) (seqZ 0 25) = omap (ram_word (color_acts grb)) (seqZ 0 25).
Proof. unfold color_acts, start_acts. generalize (rmt_word grb) u32. intros F G. by vm_compute. Qed.
Lemma u32_bit0 x : Z.testbit (u32 x) 0 = Z.testbit x 0.
Proof. unfold u32. change 4294967296 with (2 ^ 32). by apply Z.mod_pow2_bits_low. Qed.
(** An access that neither starts the channel nor touches its RAM. *)
Definition inert (x : act) : Prop := (forall c, x = W32 RMT_CH0_CONF0 c -> Z.testbit c 0 = false) /\ (forall a c, x = W32 a c -> a < RMT_CH0_RAM).
Lemma polls_inert l : Forall inert ((R32 RMT_INT_RAW <$> l) ++ [W32 RMT_INT_CLR 1]).
Proof.
  apply Forall_app. split.
  - apply Forall_fmap, Forall_true. intros v. split; done.
  - constructor; [|constructor]. split; [done|]. by intros a c [= <- _].
Qed.
Lemma color_no_start grb : Forall (fun x => forall c, x = W32 RMT_CH0_CONF0 c -> Z.testbit c 0 = false) (color_acts grb).
Proof.
  apply Forall_app. split; [|by repeat constructor].
  apply Forall_fmap, Forall_forall. intros i Hi%list_elem_of_In%elem_of_seqZ c [= E _]. unfold RMT_CH0_RAM, RMT_CH0_CONF0 in E. lia.
Qed.

(** C32: Esp32s31_ws2812_set() of any color: when the end of the transmission is
    seen within the polls, it gives 0, and the words that were in the RAM of
    the channel before the start are, read as pulses in the ranges of the LED's
    data sheet, the 24 bits of green, red and blue, the highest bit first, and
    then an end; the start is the only write of the start bit, no word changes after it,
    and the frame starts no less than 300 us after the last one, with a wait of 300 us at most. *)
Theorem ws2812_frame_correct (n : nat) (t : clock) (sent r g b c1 c2 c3 : Z) (vs : list Z) (v : Z) (rest : list Z)
    (Hr : 0 <= r < 256) (Hg : 0 <= g < 256) (Hb : 0 <= b < 256) (Ht : sent <= t_now t)
    (Hc : Forall (fun c => 0 <= c < 4294967296 /\ Z.testbit c 0 = false) [c1; c2; c3])
    (Hvs : Forall no_end vs) (Hn : (length vs <= n)%nat) (Hv : Z.testbit v 0 = true) :
  exists pre start post f,
    esp32s31_ws2812_set n t sent r g b (c1 :: c2 :: c3 :: vs ++ v :: rest) = Some (f, pre ++ start :: post, rest) /\
    ret f = 0 /\ sent' f = t_later t /\ 0 <= delayed f <= WS2812_RESET_US /\
    WS2812_RESET_US * 1000 <= t_now t + 1000 * delayed f - sent /\
    decode (omap (ram_word pre) (seqZ 0 25)) = Some (led_bits r g b) /\
    (exists c, start = W32 RMT_CH0_CONF0 c /\ Z.testbit c 0 = true) /\
    Forall (fun x => forall c, x = W32 RMT_CH0_CONF0 c -> Z.testbit c 0 = false) (pre ++ post) /\
    Forall (fun x => forall a c, x = W32 a c -> a < RMT_CH0_RAM) post.
Proof.
  unfold esp32s31_ws2812_set. rewrite (send_run n t sent (grb_of r g b) c1 c2 c3 _ _ _ _ (wait_end_ok n vs v rest Hvs Hn Hv)).
  apply Forall_cons_1 in Hc as [[U1 B1] Hc]. apply Forall_cons_1 in Hc as [[U2 B2] Hc]. apply Forall_cons_1 in Hc as [[U3 B3] _].
  destruct (reset_delay_enough t sent) as [D1 D2].
  eexists (color_acts (grb_of r g b) ++ take 7 (start_acts c1 c2 c3)), _, _, _. split.
  { rewrite <- app_assoc. reflexivity. }
  split; [done|]. split; [done|]. split; [done|]. split; [by apply D1|]. split; [|split; [|split]].
  - rewrite frame_ram, color_words, decode_words by (intros i; rewrite elem_of_seqZ; lia). f_equal. by apply led_bits_grb.
  - eexists. split; [done|]. by rewrite u32_bit0, Z.lor_spec, orb_true_r.
  - apply Forall_app. split; [apply Forall_app; split|].
    + apply color_no_start.
    + repeat (constructor; [intros c [= <-]; rewrite u32_bit0, ?Z.lor_spec, ?Z.land_spec, ?B1, ?B2; done|]). constructor.
    + refine (Forall_impl _ _ (polls_inert (vs ++ [v]))). by intros x [H _].
  - refine (Forall_impl _ _ (polls_inert (vs ++ [v]))). by intros x [_ H].
Qed.
Lemma ws2812_frame_correct_witness :
  exists pre start post f,
    esp32s31_ws2812_set 2 {| t_now := 5100999; t_later := 5400000 |} 5000000 255 16 1 ([64; 64; 64] ++ [0; 0] ++ 1 :: [7]) = Some (f, pre ++ start :: post, [7]) /\
    ret f = 0 /\ sent' f = 5400000 /\ 0 <= delayed f <= WS2812_RESET_US /\
    WS2812_RESET_US * 1000 <= 5100999 + 1000 * delayed f - 5000000 /\
    decode (omap (ram_word pre) (seqZ 0 25)) = Some (led_bits 255 16 1) /\
    (exists c, start = W32 RMT_CH0_CONF0 c /\ Z.testbit c 0 = true) /\
    Forall (fun x => forall c, x = W32 RMT_CH0_CONF0 c -> Z.testbit c 0 = false) (pre ++ post) /\
    Forall (fun x => forall a c, x = W32 a c -> a < RMT_CH0_RAM) post.
Proof.
  apply (ws2812_frame_correct 2 {| t_now := 5100999; t_later := 5400000 |} 5000000 255 16 1 64 64 64 [0; 0] 1 [7]);
    try (by repeat constructor); cbn; lia.
Defined.

(** A frame whose end is not seen in the polls gives -ETIMEDOUT; the next one waits for it all the same. *)
Theorem ws2812_late n t sent grb c1 c2 c3 vs rest : Forall no_end vs -> length vs = S n ->
  exists f tr, esp32s31_ws2812_send n t sent grb (c1 :: c2 :: c3 :: vs ++ rest) = Some (f, tr, rest) /\
    ret f = - ETIMEDOUT /\ sent' f = t_later t.
Proof.
  intros H Hn. rewrite (send_run n t sent grb c1 c2 c3 _ _ _ _ (wait_end_late n vs rest H Hn)). by do 2 eexists.
Qed.
(** probe() takes the rates whose tick fits in the divider, and no others. *)
Theorem probe_rmt_ok n t mem_lp rate v1 v2 c1 c2 c3 vs v rest : 0 <= rate ->
  Forall no_end vs -> (length vs <= n)%nat -> Z.testbit v 0 = true ->
  exists tr ins r, probe_rmt n t mem_lp rate (v1 :: v2 :: c1 :: c2 :: c3 :: vs ++ v :: rest) = Some (r, tr, ins) /\
    (r = 0 <-> RMT_TICK_HZ / 2 <= rate < 255 * RMT_TICK_HZ + RMT_TICK_HZ / 2) /\
    (r = 0 -> exists c, In (W32 RMT_CH0_CONF0 c) tr /\ FIELD_GET RMT_CONF0_DIV_CNT c = rmt_div rate).
Proof.
  intros Hr Hvs Hn Hv. unfold probe_rmt. cbn zeta.
  assert (E : negb ((rmt_div rate =? 0) || (rmt_div rate >? 255)) = (RMT_TICK_HZ / 2 <=? rate) && (rate <? 255 * RMT_TICK_HZ + RMT_TICK_HZ / 2)).
  { unfold rmt_div, DIV_ROUND_CLOSEST, RMT_TICK_HZ. change (20000000 / 2) with 10000000.
    pose proof (Z.div_mod (rate + 10000000) 20000000). pose proof (Z.mod_pos_bound (rate + 10000000) 20000000).
    set (q := (rate + 10000000) / 20000000) in *. apply eq_true_iff_eq.
    rewrite negb_true_iff, andb_true_iff, orb_false_iff. lia. }
  destruct (_ || _) eqn:B; symmetry in E.
  - do 3 eexists. split; [done|]. split; [|done]. split; [done|]. intros W. cbn [negb] in E.
    apply andb_false_iff in E. lia.
  - unfold rmt_read, rmt_write, dev_input, emit, mbind, io_bind, mret, io_ret.
    rewrite (send_run n t 0 0 c1 c2 c3 _ _ _ _ (wait_end_ok n vs v rest Hvs Hn Hv)).
    do 3 eexists. split; [done|]. cbn [ret]. split; [split; [intros _; apply andb_true_iff in E; lia|done]|]. intros _.
    eexists. split; [rewrite in_app_iff; right; rewrite in_app_iff; right; rewrite in_app_iff; right; rewrite in_app_iff; right; left; reflexivity|].
    apply orb_false_iff in B as [B1 B2]. 
    assert (Hf : forallb (fun d => FIELD_GET RMT_CONF0_DIV_CNT (u32 (Z.lor (Z.lor (FIELD_PREP RMT_CONF0_DIV_CNT d) (FIELD_PREP RMT_CONF0_MEM_SIZE 1)) RMT_CONF0_IDLE_OUT_EN)) =? d) (seqZ 0 256) = true) by by vm_compute.
    rewrite forallb_forall in Hf. apply Z.eqb_eq, Hf, list_elem_of_In, elem_of_seqZ.
    unfold rmt_div, DIV_ROUND_CLOSEST, RMT_TICK_HZ in *. change (20000000 / 2) with 10000000 in *.
    pose proof (Z.div_pos (rate + 10000000) 20000000 ltac:(lia) ltac:(lia)). lia.
Qed.
