(* ===== verification/PinRegs.v ===== *)
(** The registers of the pins: the IO MUX page, the GPIO page with the matrix,
    and the CNNT word.  The kernel's driver (Pinctrl.v) and the pinctrl tool
    (PinTool.v) use the same ones.

    What the hardware does with an access is from tools/pinctrl/esp32s31.h and
    docs/internals.md ("GPIO interrupts"): the registers to set and to clear
    bits, and the status of an interrupt line.  A program gives its result, the
    registers after it, and the registers after each of its writes. *)

From S2P Require Import Prelude Device.

(** * The hardware *)

Definition NPINS : Z := 62.
Definition GPIO_OUT : Z := 0x04.
Definition GPIO_OUT1 : Z := 0x10.
Definition GPIO_ENABLE : Z := 0x34.
Definition GPIO_ENABLE1 : Z := 0x40.
Definition GPIO_W1TS : Z := 4.
Definition GPIO_W1TC : Z := 8.
Definition GPIO_IN : Z := 0x64.
Definition GPIO_IN1 : Z := 0x68.
Definition GPIO_STATUS : Z := 0x74.
Definition GPIO_STATUS1 : Z := 0x80.
Definition GPIO_PIN (n : Z) : Z := 0xf4 + 4 * n.
Definition GPIO_IN_SEL (s : Z) : Z := 0x2f4 + 4 * s.
Definition GPIO_OUT_SEL (n : Z) : Z := 0xaf4 + 4 * n.

(** The IO MUX by pin, the GPIO page by byte offset. *)
Record pins := Pins { iomux : Z -> Z; gpio : Z -> Z; cnnt : Z }.
Definition upd (f : Z -> Z) (k v : Z) : Z -> Z := fun x => if x =? k then v else f x.

Definition w1_bases : list Z := [GPIO_OUT; GPIO_OUT1; GPIO_ENABLE; GPIO_ENABLE1; GPIO_STATUS; GPIO_STATUS1].
Definition put_gpio (off v : Z) (g : Z -> Z) : Z -> Z :=
  if existsb (fun b => off =? b + GPIO_W1TS) w1_bases then upd g (off - GPIO_W1TS) (Z.lor (g (off - GPIO_W1TS)) v)
  else if existsb (fun b => off =? b + GPIO_W1TC) w1_bases then upd g (off - GPIO_W1TC) (Z.land (g (off - GPIO_W1TC)) (not32 v))
  else upd g off v.

(** The pins as a function of bits: the word whose bit [i] is [f i]. *)
Fixpoint word_of (f : Z -> bool) (n : nat) : Z :=
  match n with
  | O => 0
  | S n => Z.lor (word_of f n) (if f (Z.of_nat n) then BIT (Z.of_nat n) else 0)
  end.
(** The status of line [line] for bank [bank]: the pending pins that enable it. *)
Definition line_status (p : pins) (line bank : Z) : Z :=
  word_of (fun b => Z.testbit (gpio p (GPIO_STATUS + bank * 12)) b && Z.testbit (gpio p (GPIO_PIN (bank * 32 + b))) (13 + line)) 32.
Definition get_gpio (p : pins) (off : Z) : Z :=
  if (off >=? 0xa4) && (off <? 0xc4) then line_status p ((off - 0xa4) / 4 mod 4) ((off - 0xa4) / 16) else gpio p off.

(** * Programs *)

(** What a program does: its writes, with the registers after them, and its
    calls into the frameworks of the kernel that are about a pin. *)
Inductive ev := Wrote (p : pins) | GpiochipDisableIrq (n : Z) | GpiochipEnableIrq (n : Z) | SetHandler (n : Z) (level : bool) | DomainIrq (n : Z).
Definition M (A : Type) : Type := pins -> A * pins * list ev.
#[global] Instance M_ret : MRet M := fun A x p => (x, p, []).
#[global] Instance M_bind : MBind M := fun A B k m p =>
  let '(x, p, l) := m p in
  let '(y, p, l') := k x p in (y, p, l ++ l').
Definition write (f : pins -> pins) : M unit := fun p => (tt, f p, [Wrote (f p)]).
Definition call (e : ev) : M unit := fun p => (tt, p, [e]).
Definition read {A} (f : pins -> A) : M A := fun p => (f p, p, []).
Definition iomux_read (pin : Z) : M Z := read (fun p => iomux p pin).
Definition iomux_write (pin v : Z) : M unit := write (fun p => Pins (upd (iomux p) pin (u32 v)) (gpio p) (cnnt p)).
Definition gpio_read (off : Z) : M Z := read (fun p => get_gpio p off).
Definition gpio_write (off v : Z) : M unit := write (fun p => Pins (iomux p) (put_gpio off (u32 v) (gpio p)) (cnnt p)).
Definition cnnt_read : M Z := read cnnt.
Definition cnnt_write (v : Z) : M unit := write (fun p => Pins (iomux p) (gpio p) (u32 v)).
Definition result {A} (x : A * pins * list ev) : A := fst (fst x).
Definition final {A} (x : A * pins * list ev) : pins := snd (fst x).
Definition states {A} (x : A * pins * list ev) : list pins := omap (fun e => match e with Wrote p => Some p | _ => None end) (snd x).

(** * What a pin does *)

(** The state of a pin in the registers. *)
Record view := View {
  v_func : Z; v_ie : bool; v_wpu : bool; v_wpd : bool; v_drv : Z;   (* IO MUX *)
  v_od : bool; v_type : Z; v_lines : Z;                             (* GPIO_PINn *)
  v_sel : Z; v_oe : bool; v_out : bool; v_pending : bool            (* matrix, ENABLE, OUT, STATUS *)
}.
Definition bank_of (pin reg0 reg1 : Z) : Z := if pin <? 32 then reg0 else reg1.
Definition bit_of (p : pins) (pin reg0 reg1 : Z) : bool := Z.testbit (gpio p (bank_of pin reg0 reg1)) (pin mod 32).
Definition IOMUX_WPD : Z := BIT 7.
Definition IOMUX_WPU : Z := BIT 8.
Definition IOMUX_IE : Z := BIT 9.
Definition IOMUX_DRV_MASK : Z := GENMASK 11 10.
Definition IOMUX_MCU_MASK : Z := GENMASK 14 12.
Definition PIN_PAD_DRIVER : Z := BIT 2.
Definition PIN_INT_TYPE_MASK : Z := GENMASK 9 7.
Definition PIN_INT_ENA_MASK : Z := GENMASK 16 13.
Definition OUT_SEL_SIG : Z := 0x1ff.
Definition view_of (p : pins) (pin : Z) : view :=
  let m := iomux p pin in
  let n := gpio p (GPIO_PIN pin) in
  {| v_func := FIELD_GET IOMUX_MCU_MASK m; v_ie := nz (Z.land m IOMUX_IE); v_wpu := nz (Z.land m IOMUX_WPU);
     v_wpd := nz (Z.land m IOMUX_WPD); v_drv := FIELD_GET IOMUX_DRV_MASK m;
     v_od := nz (Z.land n PIN_PAD_DRIVER); v_type := FIELD_GET PIN_INT_TYPE_MASK n; v_lines := FIELD_GET PIN_INT_ENA_MASK n;
     v_sel := Z.land (gpio p (GPIO_OUT_SEL pin)) OUT_SEL_SIG;
     v_oe := bit_of p pin GPIO_ENABLE GPIO_ENABLE1; v_out := bit_of p pin GPIO_OUT GPIO_OUT1;
     v_pending := bit_of p pin GPIO_STATUS GPIO_STATUS1 |}.
(** The pin that an input signal reads, if it comes through the matrix. *)
Definition in_sel (p : pins) (sig : Z) : option Z :=
  let v := gpio p (GPIO_IN_SEL sig) in
  if nz (Z.land v (BIT 9)) then Some (Z.land v 0xff) else None.

(** * Laws of the registers *)

Lemma put_plain off v g : 0x8c <= off -> put_gpio off v g = upd g off v.
Proof.
  intros H. unfold put_gpio, w1_bases. cbn [existsb]. unfold GPIO_OUT, GPIO_OUT1, GPIO_ENABLE, GPIO_ENABLE1, GPIO_STATUS, GPIO_STATUS1, GPIO_W1TS, GPIO_W1TC.
  repeat match goal with |- context [off =? ?x] => rewrite (proj2 (Z.eqb_neq off x)) by lia end. done.
Qed.
Lemma get_plain p off : 0xc4 <= off -> get_gpio p off = gpio p off.
Proof. intros H. unfold get_gpio. rewrite (proj2 (Z.ltb_ge off 0xc4)) by lia. by rewrite andb_false_r. Qed.
Lemma upd_eq f k v : upd f k v k = v.
Proof. unfold upd. by rewrite Z.eqb_refl. Qed.
Lemma upd_neq f k v x : x <> k -> upd f k v x = f x.
Proof. intros H. unfold upd. by rewrite (proj2 (Z.eqb_neq x k)). Qed.

(** The families of registers with a bit for each pin. *)
Inductive family := FOut | FEnable | FStatus.
#[export] Instance family_eq : EqDecision family.
Proof. solve_decision. Defined.
Definition fam0 (f : family) : Z := match f with FOut => GPIO_OUT | FEnable => GPIO_ENABLE | FStatus => GPIO_STATUS end.
Definition fam1 (f : family) : Z := match f with FOut => GPIO_OUT1 | FEnable => GPIO_ENABLE1 | FStatus => GPIO_STATUS1 end.
Definition fam_reg (f : family) (hi : bool) : Z := if hi then fam1 f else fam0 f.
Definition w1_off (f : family) (pin : Z) (set : bool) : Z :=
  bank_of pin (fam0 f) (fam1 f) + if set then GPIO_W1TS else GPIO_W1TC.
Definition pin_ok (pin : Z) : Prop := 0 <= pin < NPINS.
Lemma put_w1 f b (set : bool) w g f' b' :
  put_gpio (fam_reg f b + if set then GPIO_W1TS else GPIO_W1TC) w g (fam_reg f' b') =
    if bool_decide (f = f') && eqb b b' then (if set then Z.lor (g (fam_reg f' b')) w else Z.land (g (fam_reg f' b')) (not32 w))
    else g (fam_reg f' b').
Proof. by destruct f, b, set, f', b'. Qed.
Lemma w1_bit f pin set g f' q : pin_ok pin -> pin_ok q ->
  Z.testbit (put_gpio (w1_off f pin set) (u32 (BIT (pin mod 32))) g (bank_of q (fam0 f') (fam1 f'))) (q mod 32) =
    if bool_decide (f = f') && (q =? pin) then set else Z.testbit (g (bank_of q (fam0 f') (fam1 f'))) (q mod 32).
Proof.
  intros Hp Hq. unfold pin_ok, NPINS in *.
  assert (Mq : 0 <= q mod 32 < 32) by (apply Z.mod_pos_bound; lia).
  assert (Mp : 0 <= pin mod 32 < 32) by (apply Z.mod_pos_bound; lia).
  assert (B : forall p r0 r1, bank_of p r0 r1 = if negb (p <? 32) then r1 else r0) by (intros p ??; unfold bank_of; by destruct (p <? 32)).
  unfold w1_off. rewrite !B. change (if negb (pin <? 32) then fam1 f else fam0 f) with (fam_reg f (negb (pin <? 32))).
  change (if negb (q <? 32) then fam1 f' else fam0 f') with (fam_reg f' (negb (q <? 32))). rewrite put_w1.
  destruct (bool_decide (f = f')); [|done]. cbn [andb].
  destruct (Z.ltb_spec pin 32), (Z.ltb_spec q 32); cbn [negb eqb]; try (rewrite (proj2 (Z.eqb_neq q pin)) by lia; done).
  all: assert (E : (q mod 32 =? pin mod 32) = (q =? pin)) by (apply eq_true_iff_eq; rewrite !Z.eqb_eq; zlia).
  all: destruct set; [rewrite Z.lor_spec|rewrite Z.land_spec, not32_testbit by lia]; rewrite u32_testbit, BIT_testbit, E by lia;
    destruct (q =? pin); rewrite ?orb_true_r, ?orb_false_r, ?andb_true_r, ?andb_false_r; done.
Qed.
Lemma w1_other f pin (set : bool) w g off : 0x8c <= off -> put_gpio (w1_off f pin set) w g off = g off.
Proof.
  intros H. unfold w1_off, bank_of. destruct (pin <? 32), f, set; cbn -[Z.lor Z.land not32]; apply upd_neq;
    unfold GPIO_OUT, GPIO_OUT1, GPIO_ENABLE, GPIO_ENABLE1, GPIO_STATUS, GPIO_STATUS1, GPIO_W1TS, GPIO_W1TC; lia.
Qed.
Lemma u32_land x m : Z.land (Z.ones 32) m = m -> Z.land (u32 x) m = Z.land x m.
Proof. intros H. unfold u32. change 4294967296 with (2 ^ 32). by rewrite <- Z.land_ones, <- Z.land_assoc, H by lia. Qed.

(** What a write to each register changes in the states of the pins. *)
Definition view_m (m : Z) (v : view) : view :=
  {| v_func := FIELD_GET IOMUX_MCU_MASK m; v_ie := nz (Z.land m IOMUX_IE); v_wpu := nz (Z.land m IOMUX_WPU);
     v_wpd := nz (Z.land m IOMUX_WPD); v_drv := FIELD_GET IOMUX_DRV_MASK m; v_od := v_od v; v_type := v_type v; v_lines := v_lines v;
     v_sel := v_sel v; v_oe := v_oe v; v_out := v_out v; v_pending := v_pending v |}.
Definition view_n (n : Z) (v : view) : view :=
  {| v_func := v_func v; v_ie := v_ie v; v_wpu := v_wpu v; v_wpd := v_wpd v; v_drv := v_drv v;
     v_od := nz (Z.land n PIN_PAD_DRIVER); v_type := FIELD_GET PIN_INT_TYPE_MASK n; v_lines := FIELD_GET PIN_INT_ENA_MASK n;
     v_sel := v_sel v; v_oe := v_oe v; v_out := v_out v; v_pending := v_pending v |}.
Definition view_sel (sel : Z) (v : view) : view :=
  {| v_func := v_func v; v_ie := v_ie v; v_wpu := v_wpu v; v_wpd := v_wpd v; v_drv := v_drv v;
     v_od := v_od v; v_type := v_type v; v_lines := v_lines v;
     v_sel := sel; v_oe := v_oe v; v_out := v_out v; v_pending := v_pending v |}.
Definition view_w1 (f : family) (b : bool) (v : view) : view :=
  {| v_func := v_func v; v_ie := v_ie v; v_wpu := v_wpu v; v_wpd := v_wpd v; v_drv := v_drv v;
     v_od := v_od v; v_type := v_type v; v_lines := v_lines v; v_sel := v_sel v;
     v_oe := if bool_decide (FEnable = f) then b else v_oe v; v_out := if bool_decide (FOut = f) then b else v_out v;
     v_pending := if bool_decide (FStatus = f) then b else v_pending v |}.
Lemma bank_low q r0 r1 : r0 < 0x8c -> r1 < 0x8c -> bank_of q r0 r1 < 0x8c.
Proof. unfold bank_of. by destruct (q <? 32). Qed.
Lemma view_iomux p pin w q :
  view_of (Pins (upd (iomux p) pin w) (gpio p) (cnnt p)) q = if q =? pin then view_m w (view_of p q) else view_of p q.
Proof. unfold view_of, view_m, upd, bit_of. cbn. by destruct (Z.eqb_spec q pin). Qed.
(** The other registers of the GPIO page are above the families. *)
Ltac off_neq :=
  first [assumption
        |unfold GPIO_PIN, GPIO_OUT_SEL, GPIO_IN_SEL, bank_of; repeat match goal with |- context [if ?c then _ else _] => destruct c end;
         unfold GPIO_OUT, GPIO_OUT1, GPIO_ENABLE, GPIO_ENABLE1, GPIO_STATUS, GPIO_STATUS1; lia].
Ltac gpio_upd := repeat match goal with |- context [upd ?g ?k ?v ?x] => rewrite (upd_neq g k v x) by off_neq end.
Lemma view_pin p pin w q : pin_ok pin -> pin_ok q ->
  view_of (Pins (iomux p) (put_gpio (GPIO_PIN pin) w (gpio p)) (cnnt p)) q = if q =? pin then view_n w (view_of p q) else view_of p q.
Proof.
  unfold pin_ok, NPINS. intros Hp Hq. rewrite put_plain by (unfold GPIO_PIN; lia). unfold view_of, view_n, bit_of. cbn [iomux gpio].
  gpio_upd. destruct (Z.eqb_spec q pin) as [->|N]; [by rewrite upd_eq|]. gpio_upd. done.
Qed.
Lemma view_out_sel p pin w q : pin_ok pin -> pin_ok q ->
  view_of (Pins (iomux p) (put_gpio (GPIO_OUT_SEL pin) w (gpio p)) (cnnt p)) q =
    if q =? pin then view_sel (Z.land w OUT_SEL_SIG) (view_of p q) else view_of p q.
Proof.
  unfold pin_ok, NPINS. intros Hp Hq. rewrite put_plain by (unfold GPIO_OUT_SEL; lia). unfold view_of, view_sel, bit_of. cbn [iomux gpio].
  gpio_upd. destruct (Z.eqb_spec q pin) as [->|N]; [by rewrite upd_eq|]. gpio_upd. done.
Qed.
Lemma view_in_sel p sig w q : 0 <= sig < 256 -> pin_ok q ->
  view_of (Pins (iomux p) (put_gpio (GPIO_IN_SEL sig) w (gpio p)) (cnnt p)) q = view_of p q.
Proof.
  unfold pin_ok, NPINS. intros Hp Hq. rewrite put_plain by (unfold GPIO_IN_SEL; lia). unfold view_of, bit_of. cbn [iomux gpio].
  gpio_upd. done.
Qed.
Lemma view_put_w1 p f pin set q : pin_ok pin -> pin_ok q ->
  view_of (Pins (iomux p) (put_gpio (w1_off f pin set) (u32 (BIT (pin mod 32))) (gpio p)) (cnnt p)) q =
    if q =? pin then view_w1 f set (view_of p q) else view_of p q.
Proof.
  intros Hp Hq. unfold view_of, view_w1, bit_of. cbn [iomux gpio].
  pose proof (w1_bit f pin set (gpio p) FOut q Hp Hq) as A. pose proof (w1_bit f pin set (gpio p) FEnable q Hp Hq) as B.
  pose proof (w1_bit f pin set (gpio p) FStatus q Hp Hq) as C. cbn [fam0 fam1] in A, B, C. rewrite A, B, C.
  unfold pin_ok, NPINS in *. rewrite !w1_other by (unfold GPIO_PIN, GPIO_OUT_SEL; lia).
  destruct (Z.eqb_spec q pin); cbn [v_func v_ie v_wpu v_wpd v_drv v_od v_type v_lines v_sel v_oe v_out v_pending]; by destruct f.
Qed.

(** What a write does to the selection of an input signal. *)
Lemma in_sel_iomux p f s c : in_sel (Pins f (gpio p) c) s = in_sel p s.
Proof. done. Qed.
Lemma in_sel_w1 p f pin set w s : 0 <= s -> in_sel (Pins (iomux p) (put_gpio (w1_off f pin set) w (gpio p)) (cnnt p)) s = in_sel p s.
Proof. intros Hs. unfold in_sel. cbn [gpio]. rewrite w1_other; [done|]. unfold GPIO_IN_SEL. lia. Qed.
Lemma in_sel_put p off w s : 0x8c <= off -> 0 <= s -> off <> GPIO_IN_SEL s ->
  in_sel (Pins (iomux p) (put_gpio off w (gpio p)) (cnnt p)) s = in_sel p s.
Proof. intros Ho Hs N. unfold in_sel. cbn [gpio]. rewrite put_plain by done. by rewrite upd_neq by (intros E; by apply N). Qed.
Lemma in_sel_put_eq p w s : 0 <= s ->
  in_sel (Pins (iomux p) (put_gpio (GPIO_IN_SEL s) w (gpio p)) (cnnt p)) s = if nz (Z.land w (BIT 9)) then Some (Z.land w 0xff) else None.
Proof. intros Hs. unfold in_sel. cbn [gpio]. by rewrite put_plain, upd_eq by (unfold GPIO_IN_SEL; lia). Qed.
