(* ===== verification/Pinctrl.v ===== *)
(** The pin and GPIO controller: linux/drivers/pinctrl/pinctrl-esp32s31.c.

    Every operation of the pin functions, the pin configuration, the GPIOs,
    their interrupts and the gpiomem device, on the registers of PinRegs.v.
    Groups, lines and the number of a pin come from the pin and GPIO cores. *)

From S2P Require Import Prelude Device PinRegs.

Definition ESP32S31_GPIO_OUT_W1TS : Z := 0x08.
Definition ESP32S31_GPIO_OUT_W1TC : Z := 0x0c.
Definition ESP32S31_GPIO_OUT1_W1TS : Z := 0x14.
Definition ESP32S31_GPIO_OUT1_W1TC : Z := 0x18.
Definition ESP32S31_GPIO_ENABLE : Z := 0x34.
Definition ESP32S31_GPIO_ENABLE_W1TS : Z := 0x38.
Definition ESP32S31_GPIO_ENABLE_W1TC : Z := 0x3c.
Definition ESP32S31_GPIO_ENABLE1 : Z := 0x40.
Definition ESP32S31_GPIO_ENABLE1_W1TS : Z := 0x44.
Definition ESP32S31_GPIO_ENABLE1_W1TC : Z := 0x48.
Definition ESP32S31_GPIO_IN : Z := 0x64.
Definition ESP32S31_GPIO_IN1 : Z := 0x68.
Definition ESP32S31_GPIO_STATUS_W1TC : Z := 0x7c.
Definition ESP32S31_GPIO_STATUS1_W1TC : Z := 0x88.
Definition ESP32S31_GPIO_INT (line bank : Z) : Z := 0xa4 + bank * 0x10 + line * 4.
Definition ESP32S31_GPIO_PIN (n : Z) : Z := 0xf4 + n * 4.
Definition ESP32S31_GPIO_FUNC_IN_SEL (s : Z) : Z := 0x2f4 + s * 4.
Definition ESP32S31_GPIO_FUNC_OUT_SEL (n : Z) : Z := 0xaf4 + n * 4.
Definition ESP32S31_PIN_PAD_DRIVER : Z := BIT 2.
Definition ESP32S31_PIN_INT_TYPE : Z := GENMASK 9 7.
Definition ESP32S31_PIN_INT_ENA (line : Z) : Z := BIT (13 + line).
Definition ESP32S31_IN_SEL_MATRIX : Z := BIT 9.
Definition ESP32S31_IN_SEL_IOMUX : Z := 0x80.
Definition ESP32S31_SIG_GPIO_OUT : Z := 256.
Definition ESP32S31_IOMUX_FUN_WPD : Z := BIT 7.
Definition ESP32S31_IOMUX_FUN_WPU : Z := BIT 8.
Definition ESP32S31_IOMUX_FUN_IE : Z := BIT 9.
Definition ESP32S31_IOMUX_FUN_DRV : Z := GENMASK 11 10.
Definition ESP32S31_IOMUX_MCU_SEL : Z := GENMASK 14 12.
Definition ESP32S31_FUNC_GPIO : Z := 1.
Definition ESP32S31_MUX_SIG : Z := GENMASK 8 0.
Definition ESP32S31_MUX_IN : Z := BIT 9.
Definition ESP32S31_MUX_OUT : Z := BIT 10.
Definition ESP32S31_MUX_FUNC : Z := GENMASK 13 11.
Definition ESP32S31_NPINS : Z := 62.
Definition ESP32S31_NBANKS : Z := 2.
Definition ESP32S31_IRQ_LINE0 : Z := 2.
Definition ESP32S31_NSIGS : Z := 256.
Definition ESP32S31_GPIOMEM_CNNT : Z := 0x2000.

Definition ENOTSUPP : Z := 524.
Definition EFAULT : Z := 14.

(** GPIO_PINn INT_TYPE *)
Definition ESP32S31_INT_RISING : Z := 1.
Definition ESP32S31_INT_FALLING : Z := 2.
Definition ESP32S31_INT_BOTH : Z := 3.
Definition ESP32S31_INT_LOW : Z := 4.
Definition ESP32S31_INT_HIGH : Z := 5.

Definition esp32s31_drive_ma : list Z := [5; 10; 20; 40].
(** The first and the last pin, the function and its select bit. *)
Definition esp32s31_cnnt_pads : list (Z * Z * Z * Z) := [(13, 19, 2, BIT 1); (20, 25, 4, BIT 0)].

(** * Pin functions *)

Definition rmw (x clr set : Z) : Z := Z.lor (Z.land x (not32 clr)) set.
Definition esp32s31_iomux_rmw (pin clr set : Z) : M unit := v ← iomux_read pin; iomux_write pin (rmw v clr set).
Definition esp32s31_pin_rmw (pin clr set : Z) : M unit :=
  v ← gpio_read (ESP32S31_GPIO_PIN pin); gpio_write (ESP32S31_GPIO_PIN pin) (rmw v clr set).
Definition esp32s31_bank (pin reg0 reg1 : Z) : Z := if pin <? 32 then reg0 else reg1.
Fixpoint cnnt_select_loop (pads : list (Z * Z * Z * Z)) (pin func : Z) : M unit :=
  match pads with
  | [] => mret tt
  | (first, last, f, sel) :: pads =>
      (if (pin <? first) || (pin >? last) || negb (func =? f) then mret tt
       else v ← cnnt_read; cnnt_write (Z.lor v sel));;
      cnnt_select_loop pads pin func
  end.
Definition esp32s31_cnnt_select (pin func : Z) : M unit := cnnt_select_loop esp32s31_cnnt_pads pin func.
Definition esp32s31_mux_one (pin mux : Z) : M Z :=
  let func := FIELD_GET ESP32S31_MUX_FUNC mux in
  let sig := FIELD_GET ESP32S31_MUX_SIG mux in
  let set := FIELD_PREP ESP32S31_IOMUX_MCU_SEL func in
  let matrix := func =? ESP32S31_FUNC_GPIO in
  if (pin >=? ESP32S31_NPINS) || (sig >=? ESP32S31_NSIGS) then mret (- EINVAL)
  else
    set ← (if nz (Z.land mux ESP32S31_MUX_IN) then
             gpio_write (ESP32S31_GPIO_FUNC_IN_SEL sig) (if matrix then Z.lor ESP32S31_IN_SEL_MATRIX pin else ESP32S31_IN_SEL_IOMUX);;
             mret (Z.lor set ESP32S31_IOMUX_FUN_IE)
           else mret set);
    (if nz (Z.land mux ESP32S31_MUX_OUT) then gpio_write (ESP32S31_GPIO_FUNC_OUT_SEL pin) sig else mret tt);;
    esp32s31_iomux_rmw pin ESP32S31_IOMUX_MCU_SEL set;;
    esp32s31_cnnt_select pin func;;
    mret 0.
(** The group of the core: its pins with their cells, or none. *)
Fixpoint mux_loop (l : list (Z * Z)) : M Z :=
  match l with
  | [] => mret 0
  | (pin, mux) :: l => ret ← esp32s31_mux_one pin mux; if nz ret then mret ret else mux_loop l
  end.
Definition esp32s31_set_mux (group : option (list (Z * Z))) : M Z :=
  match group with None => mret (- EINVAL) | Some l => mux_loop l end.
Definition esp32s31_gpio_request_enable (pin : Z) : M Z :=
  gpio_write (esp32s31_bank pin ESP32S31_GPIO_ENABLE_W1TC ESP32S31_GPIO_ENABLE1_W1TC) (BIT (pin mod 32));;
  gpio_write (ESP32S31_GPIO_FUNC_OUT_SEL pin) ESP32S31_SIG_GPIO_OUT;;
  esp32s31_iomux_rmw pin ESP32S31_IOMUX_MCU_SEL
    (Z.lor (FIELD_PREP ESP32S31_IOMUX_MCU_SEL ESP32S31_FUNC_GPIO) ESP32S31_IOMUX_FUN_IE);;
  mret 0.

(** * Pin configuration *)

Inductive pin_config_param :=
  | PIN_CONFIG_BIAS_DISABLE | PIN_CONFIG_BIAS_PULL_UP | PIN_CONFIG_BIAS_PULL_DOWN | PIN_CONFIG_INPUT_ENABLE
  | PIN_CONFIG_DRIVE_OPEN_DRAIN | PIN_CONFIG_DRIVE_PUSH_PULL | PIN_CONFIG_DRIVE_STRENGTH | PIN_CONFIG_OTHER (n : Z).
(** A config of the core: the parameter and its argument. *)
Definition config : Type := pin_config_param * Z.
Definition esp32s31_pin_config_get (pin : Z) (param : pin_config_param) : M (Z + config) :=
  iomux ← iomux_read pin;
  pad ← gpio_read (ESP32S31_GPIO_PIN pin);
  let give (on : bool) (arg : Z) := if negb on then inl (- EINVAL) else inr (param, arg) in
  mret (match param with
  | PIN_CONFIG_BIAS_DISABLE => give (negb (nz (Z.land iomux (Z.lor ESP32S31_IOMUX_FUN_WPU ESP32S31_IOMUX_FUN_WPD)))) 1
  | PIN_CONFIG_BIAS_PULL_UP => give (nz (Z.land iomux ESP32S31_IOMUX_FUN_WPU)) 1
  | PIN_CONFIG_BIAS_PULL_DOWN => give (nz (Z.land iomux ESP32S31_IOMUX_FUN_WPD)) 1
  | PIN_CONFIG_INPUT_ENABLE => give (nz (Z.land iomux ESP32S31_IOMUX_FUN_IE)) 1
  | PIN_CONFIG_DRIVE_OPEN_DRAIN => give (nz (Z.land pad ESP32S31_PIN_PAD_DRIVER)) 1
  | PIN_CONFIG_DRIVE_PUSH_PULL => give (negb (nz (Z.land pad ESP32S31_PIN_PAD_DRIVER))) 1
  | PIN_CONFIG_DRIVE_STRENGTH => give true (nth (Z.to_nat (FIELD_GET ESP32S31_IOMUX_FUN_DRV iomux)) esp32s31_drive_ma 0)
  | PIN_CONFIG_OTHER _ => inl (- ENOTSUPP)
  end).
Fixpoint drive_loop (l : list Z) (i ma : Z) : Z :=
  match l with
  | [] => - EINVAL
  | m :: l => if m =? ma then FIELD_PREP ESP32S31_IOMUX_FUN_DRV i else drive_loop l (i + 1) ma
  end.
Definition esp32s31_drive_field (ma : Z) : Z := drive_loop esp32s31_drive_ma 0 ma.
Definition esp32s31_config_one (pin : Z) (c : config) : M Z :=
  let arg := snd c in
  let pull := Z.lor ESP32S31_IOMUX_FUN_WPU ESP32S31_IOMUX_FUN_WPD in
  match fst c with
  | PIN_CONFIG_BIAS_DISABLE => esp32s31_iomux_rmw pin pull 0;; mret 0
  | PIN_CONFIG_BIAS_PULL_UP => esp32s31_iomux_rmw pin pull ESP32S31_IOMUX_FUN_WPU;; mret 0
  | PIN_CONFIG_BIAS_PULL_DOWN => esp32s31_iomux_rmw pin pull ESP32S31_IOMUX_FUN_WPD;; mret 0
  | PIN_CONFIG_INPUT_ENABLE =>
      esp32s31_iomux_rmw pin ESP32S31_IOMUX_FUN_IE (if nz arg then ESP32S31_IOMUX_FUN_IE else 0);; mret 0
  | PIN_CONFIG_DRIVE_STRENGTH =>
      let drv := esp32s31_drive_field arg in
      if drv <? 0 then mret drv else esp32s31_iomux_rmw pin ESP32S31_IOMUX_FUN_DRV drv;; mret 0
  | PIN_CONFIG_DRIVE_OPEN_DRAIN => esp32s31_pin_rmw pin 0 ESP32S31_PIN_PAD_DRIVER;; mret 0
  | PIN_CONFIG_DRIVE_PUSH_PULL => esp32s31_pin_rmw pin ESP32S31_PIN_PAD_DRIVER 0;; mret 0
  | PIN_CONFIG_OTHER _ => mret (- ENOTSUPP)
  end.
Fixpoint esp32s31_pin_config_set (pin : Z) (configs : list config) : M Z :=
  match configs with
  | [] => mret 0
  | c :: configs => ret ← esp32s31_config_one pin c; if nz ret then mret ret else esp32s31_pin_config_set pin configs
  end.
Fixpoint config_group_loop (group : list Z) (configs : list config) : M Z :=
  match group with
  | [] => mret 0
  | pin :: group => ret ← esp32s31_pin_config_set pin configs; if nz ret then mret ret else config_group_loop group configs
  end.
Definition esp32s31_pin_config_group_set (group : option (list Z)) (configs : list config) : M Z :=
  match group with None => mret (- EINVAL) | Some l => config_group_loop l configs end.

(** * GPIOs *)

Definition GPIO_LINE_DIRECTION_OUT : Z := 0.
Definition GPIO_LINE_DIRECTION_IN : Z := 1.
Definition esp32s31_gpio_set (offset value : Z) : M Z :=
  let reg := if nz value then esp32s31_bank offset ESP32S31_GPIO_OUT_W1TS ESP32S31_GPIO_OUT1_W1TS
             else esp32s31_bank offset ESP32S31_GPIO_OUT_W1TC ESP32S31_GPIO_OUT1_W1TC in
  gpio_write reg (BIT (offset mod 32));;
  mret 0.
Definition esp32s31_gpio_get (offset : Z) : M Z :=
  v ← gpio_read (esp32s31_bank offset ESP32S31_GPIO_IN ESP32S31_GPIO_IN1);
  mret (b2z (nz (Z.land v (BIT (offset mod 32))))).
Definition esp32s31_gpio_get_direction (offset : Z) : M Z :=
  v ← gpio_read (esp32s31_bank offset ESP32S31_GPIO_ENABLE ESP32S31_GPIO_ENABLE1);
  mret (if nz (Z.land v (BIT (offset mod 32))) then GPIO_LINE_DIRECTION_OUT else GPIO_LINE_DIRECTION_IN).
Definition esp32s31_gpio_direction_input (offset : Z) : M Z :=
  gpio_write (esp32s31_bank offset ESP32S31_GPIO_ENABLE_W1TC ESP32S31_GPIO_ENABLE1_W1TC) (BIT (offset mod 32));;
  mret 0.
Definition esp32s31_gpio_direction_output (offset value : Z) : M Z :=
  esp32s31_gpio_set offset value;;
  gpio_write (esp32s31_bank offset ESP32S31_GPIO_ENABLE_W1TS ESP32S31_GPIO_ENABLE1_W1TS) (BIT (offset mod 32));;
  mret 0.
Definition esp32s31_gpio_set_config (offset : Z) (c : config) : M Z := esp32s31_config_one offset c.

(** * Interrupts *)

Definition IRQ_TYPE_SENSE_MASK : Z := 0xf.
Definition IRQ_TYPE_LEVEL_MASK : Z := 0xc.
Definition esp32s31_irq_ena (hwirq : Z) : Z := ESP32S31_PIN_INT_ENA (ESP32S31_IRQ_LINE0 + hwirq / 32).
Definition esp32s31_irq_ack (hwirq : Z) : M unit :=
  gpio_write (esp32s31_bank hwirq ESP32S31_GPIO_STATUS_W1TC ESP32S31_GPIO_STATUS1_W1TC) (BIT (hwirq mod 32)).
Definition esp32s31_irq_mask (hwirq : Z) : M unit :=
  esp32s31_pin_rmw hwirq (esp32s31_irq_ena hwirq) 0;; call (GpiochipDisableIrq hwirq).
Definition esp32s31_irq_unmask (hwirq : Z) : M unit :=
  call (GpiochipEnableIrq hwirq);; esp32s31_pin_rmw hwirq 0 (esp32s31_irq_ena hwirq).
(** By IRQ_TYPE: none, rising 1, falling 2, both 3, high 4, low 8. *)
Definition int_type : list Z := [0; ESP32S31_INT_RISING; ESP32S31_INT_FALLING; ESP32S31_INT_BOTH; ESP32S31_INT_HIGH; 0; 0; 0; ESP32S31_INT_LOW].
Definition esp32s31_irq_set_type (hwirq type : Z) : M Z :=
  let type := Z.land type IRQ_TYPE_SENSE_MASK in
  if (type >=? zlen int_type) || negb (nz (nth (Z.to_nat type) int_type 0)) then mret (- EINVAL)
  else
    esp32s31_pin_rmw hwirq ESP32S31_PIN_INT_TYPE (FIELD_PREP ESP32S31_PIN_INT_TYPE (nth (Z.to_nat type) int_type 0));;
    esp32s31_irq_ack hwirq;;
    call (SetHandler hwirq (nz (Z.land type IRQ_TYPE_LEVEL_MASK)));;
    mret 0.
(** for_each_set_bit() over the status of the line. *)
Fixpoint handle_bits (bank pending : Z) (bits : list Z) : M unit :=
  match bits with
  | [] => mret tt
  | bit :: bits =>
      (if Z.testbit pending bit then call (DomainIrq (bank * 32 + bit)) else mret tt);; handle_bits bank pending bits
  end.
Definition esp32s31_gpio_irq_handler (bank : Z) : M unit :=
  pending ← gpio_read (ESP32S31_GPIO_INT (ESP32S31_IRQ_LINE0 + bank) bank);
  handle_bits bank pending (seqZ 0 32).
Fixpoint init_pins (l : list Z) : M unit :=
  match l with
  | [] => mret tt
  | i :: l =>
      esp32s31_pin_rmw i (Z.lor (ESP32S31_PIN_INT_ENA ESP32S31_IRQ_LINE0) (ESP32S31_PIN_INT_ENA (ESP32S31_IRQ_LINE0 + 1))) 0;;
      init_pins l
  end.
(** [irqs] is what the platform gives: the parent interrupts or an error; the result says whether the chip gets an irqchip. *)
Fixpoint first_neg (l : list Z) : option Z :=
  match l with [] => None | i :: l => if i <? 0 then Some i else first_neg l end.
Definition esp32s31_irq_init (count : Z) (irqs : list Z) : M (Z * bool) :=
  if count <? ESP32S31_NBANKS then mret (0, false)
  else match first_neg (take 2 irqs) with
  | Some e => mret (e, false)
  | None => init_pins (seqZ 0 ESP32S31_NPINS);; mret (0, true)
  end.

(** * The gpiomem device *)

(** [mmap]: the page that it maps, or an error; [pages] is the physical pages. *)
Definition PAGE_SIZE : Z := 4096.
Definition esp32s31_gpiomem_mmap (pages : list Z) (pgoff size : Z) : Z + Z :=
  if (pgoff >=? zlen pages) || negb (size =? PAGE_SIZE) then inl (- EINVAL) else inr (nth (Z.to_nat pgoff) pages 0 / PAGE_SIZE).
(** [fault]: the copy from or to the user fails. *)
Definition esp32s31_gpiomem_read (pos len : Z) (fault : bool) : M (Z + Z) :=
  if negb (pos =? ESP32S31_GPIOMEM_CNNT) || negb (len =? 4) then mret (inl (- EINVAL))
  else v ← cnnt_read; mret (if fault then inl (- EFAULT) else inr v).
Definition esp32s31_gpiomem_write (pos len : Z) (val : option Z) : M Z :=
  if negb (pos =? ESP32S31_GPIOMEM_CNNT) || negb (len =? 4) then mret (- EINVAL)
  else match val with None => mret (- EFAULT) | Some v => cnnt_write v;; mret 4 end.

(** * The operations on one pin, and what they promise *)

Inductive op :=
  | Mux (mux : Z) | RequestEnable | Config (c : config) | GpioSet (value : Z) | DirectionInput | DirectionOutput (value : Z)
  | IrqAck | IrqMask | IrqUnmask | IrqType (type : Z).
Definition exec (pin : Z) (o : op) : M Z :=
  match o with
  | Mux mux => esp32s31_mux_one pin mux
  | RequestEnable => esp32s31_gpio_request_enable pin
  | Config c => esp32s31_config_one pin c
  | GpioSet v => esp32s31_gpio_set pin v
  | DirectionInput => esp32s31_gpio_direction_input pin
  | DirectionOutput v => esp32s31_gpio_direction_output pin v
  | IrqAck => esp32s31_irq_ack pin;; mret 0
  | IrqMask => esp32s31_irq_mask pin;; mret 0
  | IrqUnmask => esp32s31_irq_unmask pin;; mret 0
  | IrqType t => esp32s31_irq_set_type pin t
  end.

(** The specification: the error of an operation, and the new state of its pin. *)
Definition drive_of (ma : Z) : option Z :=
  if ma =? 5 then Some 0 else if ma =? 10 then Some 1 else if ma =? 20 then Some 2 else if ma =? 40 then Some 3 else None.
Definition type_of (type : Z) : option Z :=
  match Z.land type 0xf with 1 => Some 1 | 2 => Some 2 | 3 => Some 3 | 4 => Some 5 | 8 => Some 4 | _ => None end.
Definition op_ret (o : op) : Z :=
  match o with
  | Mux mux => if FIELD_GET ESP32S31_MUX_SIG mux >=? 256 then - EINVAL else 0
  | Config (PIN_CONFIG_DRIVE_STRENGTH, ma) => match drive_of ma with Some _ => 0 | None => - EINVAL end
  | Config (PIN_CONFIG_OTHER _, _) => - ENOTSUPP
  | IrqType t => match type_of t with Some _ => 0 | None => - EINVAL end
  | _ => 0
  end.
Definition mux_in (mux : Z) : bool := Z.testbit mux 9.
Definition mux_out (mux : Z) : bool := Z.testbit mux 10.
(** The line of the driver for a pin, as a bit of [v_lines]. *)
Definition line_bit (pin : Z) : Z := BIT (2 + pin / 32).
Definition op_view (pin : Z) (o : op) (v : view) : view :=
  match v with View func ie wpu wpd drv od ty lines sel oe out pend =>
  match o with
  | Mux mux => View (FIELD_GET ESP32S31_MUX_FUNC mux) (ie || mux_in mux) wpu wpd drv od ty lines
                 (if mux_out mux then FIELD_GET ESP32S31_MUX_SIG mux else sel) oe out pend
  | RequestEnable => View 1 true wpu wpd drv od ty lines 256 false out pend
  | Config (c, arg) =>
      match c with
      | PIN_CONFIG_BIAS_DISABLE => View func ie false false drv od ty lines sel oe out pend
      | PIN_CONFIG_BIAS_PULL_UP => View func ie true false drv od ty lines sel oe out pend
      | PIN_CONFIG_BIAS_PULL_DOWN => View func ie false true drv od ty lines sel oe out pend
      | PIN_CONFIG_INPUT_ENABLE => View func (nz arg) wpu wpd drv od ty lines sel oe out pend
      | PIN_CONFIG_DRIVE_STRENGTH => View func ie wpu wpd (default 0 (drive_of arg)) od ty lines sel oe out pend
      | PIN_CONFIG_DRIVE_OPEN_DRAIN => View func ie wpu wpd drv true ty lines sel oe out pend
      | PIN_CONFIG_DRIVE_PUSH_PULL => View func ie wpu wpd drv false ty lines sel oe out pend
      | PIN_CONFIG_OTHER _ => v
      end
  | GpioSet x => View func ie wpu wpd drv od ty lines sel oe (nz x) pend
  | DirectionInput => View func ie wpu wpd drv od ty lines sel false out pend
  | DirectionOutput x => View func ie wpu wpd drv od ty lines sel true (nz x) pend
  | IrqAck => View func ie wpu wpd drv od ty lines sel oe out false
  | IrqMask => View func ie wpu wpd drv od ty (Z.land lines (Z.lnot (line_bit pin))) sel oe out pend
  | IrqUnmask => View func ie wpu wpd drv od ty (Z.lor lines (line_bit pin)) sel oe out pend
  | IrqType t => View func ie wpu wpd drv od (default 0 (type_of t)) lines sel oe out false
  end end.
(** The selection of the input signals, which only a pin function changes. *)
Definition op_in_sel (pin : Z) (o : op) (sig : Z) (old : option Z) : option Z :=
  match o with
  | Mux mux =>
      if mux_in mux && (sig =? FIELD_GET ESP32S31_MUX_SIG mux)
      then (if FIELD_GET ESP32S31_MUX_FUNC mux =? 1 then Some pin else None) else old
  | _ => old
  end.

(** * The operations implement the specification *)

Lemma iomux_rmw_run pin clr set p : let p' := Pins (upd (iomux p) pin (u32 (rmw (iomux p pin) clr set))) (gpio p) (cnnt p) in
  esp32s31_iomux_rmw pin clr set p = (tt, p', [Wrote p']).
Proof. done. Qed.
Lemma pin_rmw_run pin clr set p : pin_ok pin ->
  let p' := Pins (iomux p) (put_gpio (GPIO_PIN pin) (u32 (rmw (gpio p (GPIO_PIN pin)) clr set)) (gpio p)) (cnnt p) in
  esp32s31_pin_rmw pin clr set p = (tt, p', [Wrote p']).
Proof.
  unfold pin_ok, NPINS. intros Hp. cbn zeta. unfold esp32s31_pin_rmw, gpio_read, gpio_write, read, write, mbind, M_bind. cbn [app].
  replace (ESP32S31_GPIO_PIN pin) with (GPIO_PIN pin) by (unfold GPIO_PIN, ESP32S31_GPIO_PIN; lia).
  by rewrite get_plain by (unfold GPIO_PIN; lia).
Qed.
Lemma gpio_write_run off v p : let p' := Pins (iomux p) (put_gpio off (u32 v) (gpio p)) (cnnt p) in
  gpio_write off v p = (tt, p', [Wrote p']).
Proof. done. Qed.
Lemma enable_off pin (set : bool) : esp32s31_bank pin (if set then ESP32S31_GPIO_ENABLE_W1TS else ESP32S31_GPIO_ENABLE_W1TC)
  (if set then ESP32S31_GPIO_ENABLE1_W1TS else ESP32S31_GPIO_ENABLE1_W1TC) = w1_off FEnable pin set.
Proof. unfold esp32s31_bank, w1_off, bank_of. by destruct set, (pin <? 32). Qed.
Lemma out_off pin (set : bool) : (if set then esp32s31_bank pin ESP32S31_GPIO_OUT_W1TS ESP32S31_GPIO_OUT1_W1TS
  else esp32s31_bank pin ESP32S31_GPIO_OUT_W1TC ESP32S31_GPIO_OUT1_W1TC) = w1_off FOut pin set.
Proof. unfold esp32s31_bank, w1_off, bank_of. by destruct set, (pin <? 32). Qed.
Lemma status_off pin : esp32s31_bank pin ESP32S31_GPIO_STATUS_W1TC ESP32S31_GPIO_STATUS1_W1TC = w1_off FStatus pin false.
Proof. unfold esp32s31_bank, w1_off, bank_of. by destruct (pin <? 32). Qed.

(** A new field of a register that the programs read, change and write. *)
Lemma rmw_get x clr set f : Z.land (Z.ones 32) f = f -> Z.land (not32 clr) f = 0 -> Z.land (u32 (rmw x clr set)) f = Z.land set f.
Proof. intros H1 H2. rewrite u32_land by done. by apply land_update. Qed.
Lemma rmw_keep x clr set f : Z.land (Z.ones 32) f = f -> Z.land (not32 clr) f = f -> Z.land set f = 0 ->
  Z.land (u32 (rmw x clr set)) f = Z.land x f.
Proof. intros H1 H2 H3. rewrite u32_land by done. by apply land_keep. Qed.
Lemma rmw_or x clr set f : Z.land (Z.ones 32) f = f -> Z.land (not32 clr) f = f ->
  Z.land (u32 (rmw x clr set)) f = Z.lor (Z.land x f) (Z.land set f).
Proof. intros H1 H2. rewrite u32_land by done. unfold rmw. by rewrite Z.land_lor_distr_l, <- Z.land_assoc, H2. Qed.
Lemma nz_lor x y : nz (Z.lor x y) = nz x || nz y.
Proof. apply eq_true_iff_eq. rewrite orb_true_iff, !nz_true, Z.lor_eq_0_iff. lia. Qed.
Lemma prep_land m v f : Z.land (FIELD_PREP m v) f = Z.land (Z.shiftl v (bf_shf m)) (Z.land m f).
Proof. unfold FIELD_PREP. by rewrite Z.land_assoc. Qed.
Ltac fields :=
  unfold FIELD_GET;
  repeat (first
    [ rewrite rmw_get by reflexivity
    | rewrite rmw_keep by (first [reflexivity|rewrite ?Z.land_lor_distr_l, ?prep_land, ?Z.land_0_r; reflexivity]) ]).

Definition fits {A} (x : A * pins * list ev) (pin : Z) (f : view -> view) (p : pins) : Prop :=
  forall q, pin_ok q -> view_of (final x) q = if q =? pin then f (view_of p q) else view_of p q.
Lemma iomux_fits {A} pin clr set f p (r : A) l :
  view_m (u32 (rmw (iomux p pin) clr set)) (view_of p pin) = f (view_of p pin) ->
  fits (r, Pins (upd (iomux p) pin (u32 (rmw (iomux p pin) clr set))) (gpio p) (cnnt p), l) pin f p.
Proof. intros E q Hq. unfold final. cbn [fst snd]. rewrite view_iomux. by destruct (Z.eqb_spec q pin) as [->|]. Qed.
Lemma pin_fits {A} pin clr set f p (r : A) l : pin_ok pin ->
  view_n (u32 (rmw (gpio p (GPIO_PIN pin)) clr set)) (view_of p pin) = f (view_of p pin) ->
  fits (r, Pins (iomux p) (put_gpio (GPIO_PIN pin) (u32 (rmw (gpio p (GPIO_PIN pin)) clr set)) (gpio p)) (cnnt p), l) pin f p.
Proof. intros Hp E q Hq. unfold final. cbn [fst snd]. rewrite view_pin by done. by destruct (Z.eqb_spec q pin) as [->|]. Qed.
Lemma w1_fits {A} pin fam set p (r : A) l : pin_ok pin ->
  fits (r, Pins (iomux p) (put_gpio (w1_off fam pin set) (u32 (BIT (pin mod 32))) (gpio p)) (cnnt p), l) pin (view_w1 fam set) p.
Proof. intros Hp q Hq. unfold final. cbn [fst snd]. by apply view_put_w1. Qed.

Lemma M_bind_run {A B} (m : M A) (k : A -> M B) p x p' l : m p = (x, p', l) ->
  mbind k m p = let '(y, p'', l') := k x p' in (y, p'', l ++ l').
Proof. unfold mbind, M_bind. by intros ->. Qed.
Lemma drive_field ma : esp32s31_drive_field ma = match drive_of ma with Some i => FIELD_PREP ESP32S31_IOMUX_FUN_DRV i | None => - EINVAL end.
Proof.
  unfold esp32s31_drive_field, esp32s31_drive_ma, drive_of. cbn [drive_loop].
  by destruct (Z.eqb_spec 5 ma) as [<-|]; [|destruct (Z.eqb_spec 10 ma) as [<-|]; [|destruct (Z.eqb_spec 20 ma) as [<-|];
    [|destruct (Z.eqb_spec 40 ma) as [<-|]; [|rewrite !(proj2 (Z.eqb_neq ma _)) by lia]]]].
Qed.
Definition keeps {A} (x : A * pins * list ev) (p : pins) : Prop :=
  (forall s, 0 <= s < 256 -> in_sel (final x) s = in_sel p s) /\ cnnt (final x) = cnnt p.
Lemma config_ok pin c p : pin_ok pin ->
  let r := esp32s31_config_one pin c p in
  result r = op_ret (Config c) /\ (op_ret (Config c) <> 0 -> final r = p) /\
  (op_ret (Config c) = 0 -> fits r pin (op_view pin (Config c)) p) /\ keeps r p.
Proof.
  intros Hp. destruct c as [c arg]. cbn zeta.
  assert (K : forall w, keeps (0, Pins (iomux p) (put_gpio (GPIO_PIN pin) w (gpio p)) (cnnt p), []) p).
  { intros w. split; [|done]. intros s Hs. apply in_sel_put; unfold pin_ok, NPINS, GPIO_PIN, GPIO_IN_SEL in *; lia. }
  destruct c; cbn [esp32s31_config_one fst snd op_ret].
  1-3: split; [done|]; split; [done|]; split; [intros _|done]; apply iomux_fits; unfold view_m, view_of, op_view; f_equal; by fields.
  - split; [done|]; split; [done|]; split; [intros _|done]; apply iomux_fits; unfold view_m, view_of, op_view.
    destruct (nz arg); f_equal; by fields.
  - rewrite (M_bind_run _ _ _ _ _ _ (pin_rmw_run pin 0 ESP32S31_PIN_PAD_DRIVER p Hp)).
    split; [done|]. split; [done|]. split; [intros _|apply K]. apply pin_fits; [done|]. unfold view_n, view_of, op_view. f_equal; fields; try done.
    rewrite rmw_or by done. rewrite nz_lor. apply orb_true_r.
  - rewrite (M_bind_run _ _ _ _ _ _ (pin_rmw_run pin ESP32S31_PIN_PAD_DRIVER 0 p Hp)).
    split; [done|]. split; [done|]. split; [intros _|apply K]. apply pin_fits; [done|]. unfold view_n, view_of, op_view. f_equal; by fields.
  - rewrite drive_field. destruct (drive_of arg) as [i|] eqn:D; [|done].
    assert (I : i = 0 \/ i = 1 \/ i = 2 \/ i = 3) by (unfold drive_of in D; repeat (destruct (_ =? _); [injection D; lia|]); done).
    rewrite (proj2 (Z.ltb_ge (FIELD_PREP _ i) 0)) by (by destruct I as [->|[->|[->| ->]]]).
    split; [done|]. split; [done|]. split; [intros _|done]. apply iomux_fits. unfold view_m, view_of, op_view. rewrite D. cbn [default].
    f_equal; fields; try done. by destruct I as [->|[->|[->| ->]]].
  - done.
Qed.

Lemma fits_seq {A B} (x : A * pins * list ev) (y : B * pins * list ev) pin f g p :
  fits x pin f p -> fits y pin g (final x) -> fits y pin (fun v => g (f v)) p.
Proof. intros H1 H2 q Hq. rewrite (H2 q Hq), (H1 q Hq). by destruct (q =? pin). Qed.
Lemma fits_ext {A} (x : A * pins * list ev) pin f g p : (forall v, f v = g v) -> fits x pin f p -> fits x pin g p.
Proof. intros E H q Hq. rewrite (H q Hq). destruct (q =? pin); [apply E|done]. Qed.
Lemma keeps_w1 {A} fam pin set w p (r : A) l :
  keeps (r, Pins (iomux p) (put_gpio (w1_off fam pin set) w (gpio p)) (cnnt p), l) p.
Proof. split; [|done]. intros s Hs. apply in_sel_w1. lia. Qed.
Lemma keeps_seq {A B} (x : A * pins * list ev) (y : B * pins * list ev) p : keeps x p -> keeps y (final x) -> keeps y p.
Proof. intros [H1 H2] [H3 H4]. split; [intros s Hs; by rewrite (H3 s Hs), (H1 s Hs)|by rewrite H4, H2]. Qed.

Lemma gpio_set_run pin x p : let p' := Pins (iomux p) (put_gpio (w1_off FOut pin (nz x)) (u32 (BIT (pin mod 32))) (gpio p)) (cnnt p) in
  esp32s31_gpio_set pin x p = (0, p', [Wrote p']).
Proof. unfold esp32s31_gpio_set. rewrite (out_off pin (nz x)). done. Qed.
Lemma enable_run pin set p : let p' := Pins (iomux p) (put_gpio (w1_off FEnable pin set) (u32 (BIT (pin mod 32))) (gpio p)) (cnnt p) in
  gpio_write (esp32s31_bank pin (if set then ESP32S31_GPIO_ENABLE_W1TS else ESP32S31_GPIO_ENABLE_W1TC)
    (if set then ESP32S31_GPIO_ENABLE1_W1TS else ESP32S31_GPIO_ENABLE1_W1TC)) (BIT (pin mod 32)) p = (tt, p', [Wrote p']).
Proof. cbn zeta. by rewrite enable_off. Qed.
Lemma ack_run pin p : let p' := Pins (iomux p) (put_gpio (w1_off FStatus pin false) (u32 (BIT (pin mod 32))) (gpio p)) (cnnt p) in
  esp32s31_irq_ack pin p = (tt, p', [Wrote p']).
Proof. unfold esp32s31_irq_ack. by rewrite status_off. Qed.

(** What the operations other than Mux do. *)
Definition op_ok {A} (x : A * pins * list ev) (pin : Z) (o : op) (p : pins) : Prop := fits x pin (op_view pin o) p /\ keeps x p.
Lemma gpio_set_ok pin v p : pin_ok pin -> op_ok (esp32s31_gpio_set pin v p) pin (GpioSet v) p.
Proof.
  intros Hp. rewrite gpio_set_run. split; [|apply keeps_w1].
  eapply fits_ext; [|by apply w1_fits]. by intros [].
Qed.
Lemma direction_input_ok pin p : pin_ok pin -> op_ok (esp32s31_gpio_direction_input pin p) pin DirectionInput p.
Proof.
  intros Hp. unfold esp32s31_gpio_direction_input. rewrite (M_bind_run _ _ _ _ _ _ (enable_run pin false p)).
  split; [|apply keeps_w1]. eapply fits_ext; [|by apply w1_fits]. by intros [].
Qed.
Lemma direction_output_ok pin v p : pin_ok pin -> op_ok (esp32s31_gpio_direction_output pin v p) pin (DirectionOutput v) p.
Proof.
  intros Hp. unfold esp32s31_gpio_direction_output. rewrite (M_bind_run _ _ _ _ _ _ (gpio_set_run pin v p)).
  rewrite (M_bind_run _ _ _ _ _ _ (enable_run pin true _)). cbn [mret M_ret].
  split.
  - eapply fits_ext; [|eapply (fits_seq (0, _, [])); [by apply (w1_fits pin FOut (nz v))|by apply w1_fits]]. by intros [].
  - eapply (keeps_seq (0, _, [])); [apply (keeps_w1 FOut)|apply keeps_w1].
Qed.
Lemma out_sel_off pin : ESP32S31_GPIO_FUNC_OUT_SEL pin = GPIO_OUT_SEL pin.
Proof. unfold ESP32S31_GPIO_FUNC_OUT_SEL, GPIO_OUT_SEL. lia. Qed.
Lemma in_sel_off sig : ESP32S31_GPIO_FUNC_IN_SEL sig = GPIO_IN_SEL sig.
Proof. unfold ESP32S31_GPIO_FUNC_IN_SEL, GPIO_IN_SEL. lia. Qed.
Definition out_sel_pins (p : pins) (pin w : Z) : pins := Pins (iomux p) (put_gpio (GPIO_OUT_SEL pin) (u32 w) (gpio p)) (cnnt p).
Lemma out_sel_fits {A} pin w p (r : A) l : pin_ok pin -> 0 <= w < 512 -> fits (r, out_sel_pins p pin w, l) pin (view_sel w) p.
Proof.
  intros Hp Hw q Hq. unfold final. cbn [fst snd]. unfold out_sel_pins. rewrite view_out_sel by done.
  destruct (q =? pin); [|done]. rewrite u32_small by lia. f_equal. change OUT_SEL_SIG with (Z.ones 9). rewrite Z.land_ones by lia.
  apply Z.mod_small. change (2 ^ 9) with 512. lia.
Qed.
Lemma out_sel_keeps {A} pin w p (r : A) l : pin_ok pin -> keeps (r, out_sel_pins p pin w, l) p.
Proof.
  intros Hp. split; [|done]. intros s Hs. unfold pin_ok, NPINS in Hp.
  apply in_sel_put; unfold GPIO_OUT_SEL, GPIO_IN_SEL; lia.
Qed.
Lemma request_enable_ok pin p : pin_ok pin -> op_ok (esp32s31_gpio_request_enable pin p) pin RequestEnable p.
Proof.
  intros Hp. unfold esp32s31_gpio_request_enable. rewrite (M_bind_run _ _ _ _ _ _ (enable_run pin false p)).
  rewrite (M_bind_run _ _ _ _ _ _ (gpio_write_run _ _ _)), (M_bind_run _ _ _ _ _ _ (iomux_rmw_run _ _ _ _)), out_sel_off.
  set (p1 := Pins _ (put_gpio (w1_off _ _ _) _ _) _). fold (out_sel_pins p1 pin ESP32S31_SIG_GPIO_OUT). set (p2 := out_sel_pins p1 _ _).
  assert (F1 : op_ok (tt, p1, []) pin DirectionInput p).
  { split; [|apply keeps_w1]. eapply fits_ext; [|by apply w1_fits]. by intros []. }
  assert (F2 : fits (tt, p2, []) pin (view_sel 256) p1) by (by apply out_sel_fits).
  split.
  - eapply fits_ext; [|eapply (fits_seq (tt, p2, [])); [eapply (fits_seq (tt, p1, [])); [apply F1|exact F2]|]].
    2: { apply (iomux_fits _ _ _ (fun v => View 1 true (v_wpu v) (v_wpd v) (v_drv v) (v_od v) (v_type v) (v_lines v) (v_sel v) (v_oe v) (v_out v) (v_pending v)) p2).
      unfold view_m, view_of. cbn [v_func v_ie v_wpu v_wpd v_drv v_od v_type v_lines v_sel v_oe v_out v_pending]. f_equal; fields; try done.
      rewrite rmw_or by done. rewrite nz_lor. apply orb_true_r. }
    by intros [].
  - eapply (keeps_seq (tt, p1, [])); [apply F1|]. eapply (keeps_seq (tt, p2, [])); [by apply out_sel_keeps|]. done.
Qed.

Lemma lines_bit y i : 0 <= i -> Z.testbit (FIELD_GET PIN_INT_ENA_MASK y) i = (i <? 4) && Z.testbit y (i + 13).
Proof.
  intros Hi. unfold FIELD_GET. change (bf_shf PIN_INT_ENA_MASK) with 13. rewrite Z.shiftr_spec, Z.land_spec by lia.
  change PIN_INT_ENA_MASK with (Z.shiftl (Z.ones 4) 13). rewrite Z.shiftl_spec by lia. replace (i + 13 - 13) with i by lia.
  rewrite andb_comm. f_equal. destruct (Z.ltb_spec i 4); [by apply Z.ones_spec_low|by apply Z.ones_spec_high].
Qed.
Lemma rmw_testbit x clr set i : 0 <= i < 32 -> Z.testbit (u32 (rmw x clr set)) i = Z.testbit x i && negb (Z.testbit clr i) || Z.testbit set i.
Proof. intros Hi. rewrite u32_testbit by done. unfold rmw. by rewrite Z.lor_spec, Z.land_spec, not32_testbit by done. Qed.
Lemma irq_ena_bit pin : pin_ok pin -> esp32s31_irq_ena pin = BIT (13 + (2 + pin / 32)) /\ 0 <= pin / 32 < 2.
Proof.
  intros Hp. split; [done|]. unfold pin_ok, NPINS in Hp. split; [apply Z.div_pos; lia|]. apply Z.div_lt_upper_bound; lia.
Qed.
Lemma lines_mask pin n : pin_ok pin ->
  FIELD_GET PIN_INT_ENA_MASK (u32 (rmw n (esp32s31_irq_ena pin) 0)) = Z.land (FIELD_GET PIN_INT_ENA_MASK n) (Z.lnot (line_bit pin)).
Proof.
  intros Hp. destruct (irq_ena_bit pin Hp) as [-> B]. apply Z.bits_inj'. intros i Hi. unfold line_bit.
  rewrite Z.land_spec, Z.lnot_spec, !lines_bit, BIT_testbit by lia. destruct (Z.ltb_spec i 4); [|done].
  rewrite rmw_testbit, BIT_testbit, Z.bits_0, orb_false_r by lia. cbn [andb]. do 2 f_equal. apply eq_true_iff_eq. rewrite !Z.eqb_eq. lia.
Qed.
Lemma lines_unmask pin n : pin_ok pin ->
  FIELD_GET PIN_INT_ENA_MASK (u32 (rmw n 0 (esp32s31_irq_ena pin))) = Z.lor (FIELD_GET PIN_INT_ENA_MASK n) (line_bit pin).
Proof.
  intros Hp. destruct (irq_ena_bit pin Hp) as [-> B]. apply Z.bits_inj'. intros i Hi. unfold line_bit.
  rewrite Z.lor_spec, !lines_bit, BIT_testbit by lia. destruct (Z.ltb_spec i 4).
  - rewrite rmw_testbit, BIT_testbit, Z.bits_0, andb_true_r by lia. cbn [andb]. f_equal. apply eq_true_iff_eq. rewrite !Z.eqb_eq. lia.
  - cbn [andb orb]. symmetry. apply Z.eqb_neq. lia.
Qed.
Lemma ena_land pin f : pin_ok pin -> f = PIN_PAD_DRIVER \/ f = PIN_INT_TYPE_MASK ->
  Z.land (not32 (esp32s31_irq_ena pin)) f = f /\ Z.land (esp32s31_irq_ena pin) f = 0.
Proof.
  intros Hp Hf. destruct (irq_ena_bit pin Hp) as [-> B]. assert (pin / 32 = 0 \/ pin / 32 = 1) as [-> | ->] by lia; by destruct Hf as [-> | ->].
Qed.
Lemma irq_mask_ok pin p : pin_ok pin -> op_ok (esp32s31_irq_mask pin p) pin IrqMask p.
Proof.
  intros Hp. unfold esp32s31_irq_mask. rewrite (M_bind_run _ _ _ _ _ _ (pin_rmw_run pin _ _ p Hp)). cbn [call].
  destruct (ena_land pin PIN_PAD_DRIVER Hp) as [A _]; [by left|]. destruct (ena_land pin PIN_INT_TYPE_MASK Hp) as [B _]; [by right|].
  split.
  - apply pin_fits; [done|]. unfold view_n, view_of, op_view. rewrite lines_mask by done. unfold FIELD_GET. f_equal; by rewrite rmw_keep.
  - split; [|done]. intros s Hs. apply in_sel_put; unfold pin_ok, NPINS, GPIO_PIN, GPIO_IN_SEL in *; lia.
Qed.
Lemma irq_unmask_ok pin p : pin_ok pin -> op_ok (esp32s31_irq_unmask pin p) pin IrqUnmask p.
Proof.
  intros Hp. unfold esp32s31_irq_unmask, call. unfold mbind at 1, M_bind. rewrite (pin_rmw_run pin _ _ p Hp).
  destruct (ena_land pin PIN_PAD_DRIVER Hp) as [_ A]; [by left|]. destruct (ena_land pin PIN_INT_TYPE_MASK Hp) as [_ B]; [by right|].
  split.
  - apply pin_fits; [done|]. unfold view_n, view_of, op_view. rewrite lines_unmask by done. unfold FIELD_GET. f_equal; by rewrite rmw_keep.
  - split; [|done]. intros s Hs. apply in_sel_put; unfold pin_ok, NPINS, GPIO_PIN, GPIO_IN_SEL in *; lia.
Qed.
Lemma irq_ack_ok pin p : pin_ok pin -> op_ok (esp32s31_irq_ack pin p) pin IrqAck p.
Proof.
  intros Hp. rewrite ack_run. split; [|apply keeps_w1]. eapply fits_ext; [|by apply w1_fits]. by intros [].
Qed.
(** The table of the types, and the specification of it. *)
Lemma int_type_spec type : let t := Z.land type IRQ_TYPE_SENSE_MASK in
  ((t >=? zlen int_type) || negb (nz (nth (Z.to_nat t) int_type 0)) = match type_of type with Some _ => false | None => true end) /\
  (forall k, type_of type = Some k -> nth (Z.to_nat t) int_type 0 = k /\ 0 <= k < 8).
Proof.
  cbn zeta. unfold type_of, IRQ_TYPE_SENSE_MASK. assert (R : 0 <= Z.land type 15 < 16).
  { change 15 with (Z.ones 4). rewrite Z.land_ones by lia. apply Z.mod_pos_bound. lia. }
  set (t := Z.land type 15) in *. clearbody t.
  assert (H : In t (seqZ 0 16)) by (apply list_elem_of_In, elem_of_seqZ; lia). clear R. cbn in H.
  repeat destruct H as [<-|H]; try done; (split; [done|]; by intros k [= <-]).
Qed.
Lemma irq_set_type_ok pin type p : pin_ok pin ->
  let x := esp32s31_irq_set_type pin type p in
  result x = op_ret (IrqType type) /\ (op_ret (IrqType type) <> 0 -> final x = p) /\
  (op_ret (IrqType type) = 0 -> fits x pin (op_view pin (IrqType type)) p) /\ keeps x p.
Proof.
  intros Hp. cbn zeta. unfold esp32s31_irq_set_type. cbn zeta. destruct (int_type_spec type) as [-> K]. cbn [op_ret].
  destruct (type_of type) as [k|] eqn:T; [|done]. destruct (K k eq_refl) as [-> Hk].
  rewrite (M_bind_run _ _ _ _ _ _ (pin_rmw_run pin _ _ p Hp)), (M_bind_run _ _ _ _ _ _ (ack_run pin _)).
  set (p1 := Pins (iomux p) _ _). cbn [call mbind M_bind mret M_ret].
  assert (F1 : fits (tt, p1, []) pin (fun v => View (v_func v) (v_ie v) (v_wpu v) (v_wpd v) (v_drv v) (v_od v) k (v_lines v) (v_sel v) (v_oe v) (v_out v) (v_pending v)) p).
  { apply pin_fits; [done|]. unfold view_n, view_of. cbn [v_func v_ie v_wpu v_wpd v_drv v_od v_type v_lines v_sel v_oe v_out v_pending].
    f_equal; fields; try done. assert (In k (seqZ 0 8)) as Hin by (apply list_elem_of_In, elem_of_seqZ; lia). clear -Hin. cbn in Hin.
    by repeat destruct Hin as [<-|Hin]. }
  split; [done|]. split; [done|]. split; [intros _|].
  - eapply fits_ext; [|eapply (fits_seq (tt, p1, [])); [exact F1|by apply w1_fits]]. intros []. cbn [op_view]. by rewrite T.
  - eapply (keeps_seq (tt, p1, [])); [|apply keeps_w1]. split; [|done]. intros s Hs.
    apply in_sel_put; unfold pin_ok, NPINS, GPIO_PIN, GPIO_IN_SEL in *; lia.
Qed.

(** * Pin functions *)

(** The select bits of the CNNT pads: the GMAC is bit 1, the SD host bit 0. *)
Definition op_cnnt (pin : Z) (o : op) (c : Z) : Z :=
  match o with
  | Mux mux =>
      let func := FIELD_GET ESP32S31_MUX_FUNC mux in
      if (13 <=? pin) && (pin <=? 19) && (func =? 2) then u32 (Z.lor c (BIT 1))
      else if (20 <=? pin) && (pin <=? 25) && (func =? 4) then u32 (Z.lor c (BIT 0)) else c
  | _ => c
  end.
Lemma cnnt_select_run pin mux p : exists l,
  esp32s31_cnnt_select pin (FIELD_GET ESP32S31_MUX_FUNC mux) p = (tt, Pins (iomux p) (gpio p) (op_cnnt pin (Mux mux) (cnnt p)), l).
Proof.
  unfold esp32s31_cnnt_select, esp32s31_cnnt_pads, op_cnnt. cbn [cnnt_select_loop]. set (f := FIELD_GET _ mux).
  destruct p as [a b c]. destruct (Z.ltb_spec pin 13), (Z.gtb_spec pin 19), (Z.eqb_spec f 2), (Z.ltb_spec pin 20), (Z.gtb_spec pin 25), (Z.eqb_spec f 4);
    try lia; cbn [orb negb]; eexists; cbn;
    repeat match goal with
    | |- context [?x <=? ?y] => destruct (Z.leb_spec x y); [|try lia]; try lia
    | |- context [?x =? ?y] => rewrite ?(proj2 (Z.eqb_eq x y)), ?(proj2 (Z.eqb_neq x y)) by done
    end; try done.
Qed.
Lemma mux_fields mux : 0 <= FIELD_GET ESP32S31_MUX_FUNC mux < 8 /\ 0 <= FIELD_GET ESP32S31_MUX_SIG mux < 512.
Proof.
  rewrite (FIELD_GET_eq ESP32S31_MUX_FUNC 3 11) by (done || lia). rewrite (FIELD_GET_eq ESP32S31_MUX_SIG 9 0) by (done || lia).
  split; apply Z.mod_pos_bound; lia.
Qed.
(** The input signal of a cell, through the matrix or from the IO MUX. *)
Definition in_pins (p : pins) (pin sig func : Z) : pins :=
  Pins (iomux p) (put_gpio (GPIO_IN_SEL sig) (u32 (if func =? 1 then Z.lor ESP32S31_IN_SEL_MATRIX pin else ESP32S31_IN_SEL_IOMUX)) (gpio p)) (cnnt p).
Lemma in_pins_sel p pin sig func s : pin_ok pin -> 0 <= sig < 256 -> 0 <= s < 256 ->
  in_sel (in_pins p pin sig func) s = if s =? sig then (if func =? 1 then Some pin else None) else in_sel p s.
Proof.
  intros Hp Hsig Hs. unfold in_pins. destruct (Z.eqb_spec s sig) as [->|N].
  - rewrite in_sel_put_eq by lia. destruct (func =? 1); [|done].
    assert (E : forallb (fun pin => (u32 (Z.lor ESP32S31_IN_SEL_MATRIX pin) =? 512 + pin) && nz (Z.land (512 + pin) (BIT 9)) && (Z.land (512 + pin) 0xff =? pin)) (seqZ 0 62) = true) by by vm_compute.
    rewrite forallb_forall in E. specialize (E pin). unfold pin_ok, NPINS in Hp.
    rewrite list_elem_of_In, elem_of_seqZ in E || (assert (In pin (seqZ 0 62)) as I by (apply list_elem_of_In, elem_of_seqZ; lia); specialize (E I)).
    apply andb_true_iff in E as [[E1%Z.eqb_eq E2]%andb_true_iff E3%Z.eqb_eq]. by rewrite E1, E2, E3.
  - apply in_sel_put; unfold GPIO_IN_SEL; lia.
Qed.
Lemma mux_set pin mux p : pin_ok pin -> let func := FIELD_GET ESP32S31_MUX_FUNC mux in
  let set := if mux_in mux then Z.lor (FIELD_PREP ESP32S31_IOMUX_MCU_SEL func) ESP32S31_IOMUX_FUN_IE else FIELD_PREP ESP32S31_IOMUX_MCU_SEL func in
  view_m (u32 (rmw (iomux p pin) ESP32S31_IOMUX_MCU_SEL set)) (view_of p pin) =
    (fun v => View func (v_ie v || mux_in mux) (v_wpu v) (v_wpd v) (v_drv v) (v_od v) (v_type v) (v_lines v) (v_sel v) (v_oe v) (v_out v) (v_pending v)) (view_of p pin).
Proof.
  intros Hp. cbn zeta. unfold view_m, view_of. cbn [v_func v_ie v_wpu v_wpd v_drv v_od v_type v_lines v_sel v_oe v_out v_pending].
  destruct (mux_fields mux) as [F _]. set (func := FIELD_GET ESP32S31_MUX_FUNC mux) in *.
  assert (I : In func (seqZ 0 8)) by (apply list_elem_of_In, elem_of_seqZ; lia). clearbody func. clear F.
  cbn in I. destruct (mux_in mux); repeat destruct I as [<-|I]; try done; f_equal; fields; try done;
    rewrite ?orb_false_r, ?orb_true_r; try done; rewrite rmw_or by done; rewrite nz_lor; apply orb_true_r.
Qed.
Lemma mux_ok pin mux p : pin_ok pin ->
  let x := esp32s31_mux_one pin mux p in
  result x = op_ret (Mux mux) /\ (op_ret (Mux mux) <> 0 -> final x = p) /\
  (op_ret (Mux mux) = 0 -> fits x pin (op_view pin (Mux mux)) p /\
     (forall s, 0 <= s < 256 -> in_sel (final x) s = op_in_sel pin (Mux mux) s (in_sel p s)) /\
     cnnt (final x) = op_cnnt pin (Mux mux) (cnnt p)).
Proof.
  intros Hp. cbn zeta. unfold esp32s31_mux_one. cbn zeta. cbn [op_ret].
  destruct (mux_fields mux) as [F S]. unfold ESP32S31_NPINS, ESP32S31_NSIGS. pose proof Hp as Hp'. unfold pin_ok, NPINS in Hp'.
  assert ((pin >=? 62) = false) as -> by lia. cbn [orb]. destruct (Z.geb_spec (FIELD_GET ESP32S31_MUX_SIG mux) 256) as [|Hs]; [done|].
  set (func := FIELD_GET ESP32S31_MUX_FUNC mux) in *. set (sig := FIELD_GET ESP32S31_MUX_SIG mux) in *.
  unfold ESP32S31_FUNC_GPIO, ESP32S31_MUX_IN, ESP32S31_MUX_OUT. rewrite !nz_BIT by lia. fold (mux_in mux). fold (mux_out mux).
  set (p1 := if mux_in mux then in_pins p pin sig func else p).
  set (set' := if mux_in mux then Z.lor (FIELD_PREP ESP32S31_IOMUX_MCU_SEL func) ESP32S31_IOMUX_FUN_IE else FIELD_PREP ESP32S31_IOMUX_MCU_SEL func).
  set (m1 := if mux_in mux then _ else _ : M Z).
  assert (exists l1, m1 p = (set', p1, l1)) as [l1 E1].
  { subst m1 p1 set'. destruct (mux_in mux); [|by eexists]. rewrite (M_bind_run _ _ _ _ _ _ (gpio_write_run _ _ _)), in_sel_off. by eexists. }
  rewrite (M_bind_run _ _ _ _ _ _ E1). set (m2 := if mux_out mux then _ else _ : M unit).
  set (p2 := if mux_out mux then out_sel_pins p1 pin sig else p1).
  assert (exists l2, m2 p1 = (tt, p2, l2)) as [l2 E2].
  { subst m2 p2. destruct (mux_out mux); [|by eexists]. rewrite gpio_write_run, out_sel_off. by eexists. }
  rewrite (M_bind_run _ _ _ _ _ _ E2), (M_bind_run _ _ _ _ _ _ (iomux_rmw_run _ _ _ _)).
  set (p3 := Pins (upd _ _ _) _ _). destruct (cnnt_select_run pin mux p3) as [l4 E4]. rewrite (M_bind_run _ _ _ _ _ _ E4).
  split; [done|]. split; [done|]. intros _. unfold fits, final, result. cbn [fst snd].
  assert (G1 : forall q, pin_ok q -> view_of p1 q = view_of p q).
  { intros q Hq. subst p1. destruct (mux_in mux); [|done]. apply view_in_sel; [lia|done]. }
  assert (G2 : fits (tt, p2, []) pin (fun v => if mux_out mux then view_sel sig v else v) p1).
  { subst p2. destruct (mux_out mux); [by apply out_sel_fits|]. intros q Hq. by destruct (q =? pin). }
  assert (I1 : forall s, 0 <= s < 256 -> in_sel p1 s = op_in_sel pin (Mux mux) s (in_sel p s)).
  { intros s Hsr. subst p1. cbn [op_in_sel]. destruct (mux_in mux); [|done]. apply in_pins_sel; [done|lia|done]. }
  assert (I2 : forall s, 0 <= s < 256 -> in_sel p2 s = in_sel p1 s).
  { intros s Hsr. subst p2. destruct (mux_out mux); [|done]. by apply (out_sel_keeps (A := unit) pin sig p1 tt []). }
  split; [|split].
  - intros q Hq. change (view_of (Pins (iomux p3) (gpio p3) (op_cnnt pin (Mux mux) (cnnt p3))) q) with (view_of p3 q).
    pose proof (iomux_fits pin ESP32S31_IOMUX_MCU_SEL set' _ p2 tt [] (mux_set pin mux p2 Hp) q Hq) as V3. unfold final in V3. cbn [fst snd] in V3.
    trans (if q =? pin then (fun v => View func (v_ie v || mux_in mux) (v_wpu v) (v_wpd v) (v_drv v) (v_od v) (v_type v) (v_lines v) (v_sel v) (v_oe v) (v_out v) (v_pending v)) (view_of p2 q) else view_of p2 q); [exact V3|].
    clear V3. pose proof (G2 q Hq) as V2. unfold final in V2. cbn [fst snd] in V2. rewrite V2, (G1 q Hq).
    destruct (q =? pin); [|done]. destruct (view_of p q). cbn [op_view]. by destruct (mux_out mux).
  - intros s Hsr. rewrite <- I1, <- I2 by done. done.
  - subst p3 p2 p1. cbn [cnnt]. destruct (mux_out mux), (mux_in mux); done.
Qed.

(** * All operations, in any order *)

(** The specification's state: the pins, the selection of the input signals, and the CNNT word. *)
Record spec := Spec { s_view : Z -> view; s_in : Z -> option Z; s_cnnt : Z }.
Definition spec_step (s : spec) (pin : Z) (o : op) : Z * spec :=
  if nz (op_ret o) then (op_ret o, s)
  else (0, Spec (fun q => if q =? pin then op_view pin o (s_view s q) else s_view s q)
             (fun sig => op_in_sel pin o sig (s_in s sig)) (op_cnnt pin o (s_cnnt s))).
Definition agrees (p : pins) (s : spec) : Prop :=
  (forall q, pin_ok q -> view_of p q = s_view s q) /\ (forall sig, 0 <= sig < 256 -> in_sel p sig = s_in s sig) /\ cnnt p = s_cnnt s.
Fixpoint run_ops (l : list (Z * op)) (p : pins) : list Z * pins :=
  match l with
  | [] => ([], p)
  | (pin, o) :: l =>
      let x := exec pin o p in
      let '(rs, p') := run_ops l (final x) in (result x :: rs, p')
  end.
Fixpoint spec_ops (l : list (Z * op)) (s : spec) : list Z * spec :=
  match l with
  | [] => ([], s)
  | (pin, o) :: l =>
      let '(r, s) := spec_step s pin o in
      let '(rs, s') := spec_ops l s in (r :: rs, s')
  end.
Lemma exec_ok pin o p : pin_ok pin ->
  let x := exec pin o p in
  result x = op_ret o /\ (op_ret o <> 0 -> final x = p) /\
  (op_ret o = 0 -> fits x pin (op_view pin o) p /\
     (forall s, 0 <= s < 256 -> in_sel (final x) s = op_in_sel pin o s (in_sel p s)) /\ cnnt (final x) = op_cnnt pin o (cnnt p)).
Proof.
  intros Hp. cbn zeta. destruct o; cbn [exec].
  - by apply mux_ok.
  - destruct (request_enable_ok pin p Hp) as [F [K1 K2]]. done.
  - destruct (config_ok pin c p Hp) as (R & E & F & K1 & K2). split; [done|]. split; [done|]. intros H. split; [by apply F|done].
  - destruct (gpio_set_ok pin value p Hp) as [F [K1 K2]]. split; [by rewrite gpio_set_run|]. done.
  - destruct (direction_input_ok pin p Hp) as [F [K1 K2]]. done.
  - destruct (direction_output_ok pin value p Hp) as [F [K1 K2]]. done.
  - destruct (irq_ack_ok pin p Hp) as [F [K1 K2]]. done.
  - destruct (irq_mask_ok pin p Hp) as [F [K1 K2]]. done.
  - destruct (irq_unmask_ok pin p Hp) as [F [K1 K2]]. done.
  - destruct (irq_set_type_ok pin type p Hp) as (R & E & F & K1 & K2). split; [done|]. split; [done|]. intros H. split; [by apply F|done].
Qed.
Lemma exec_agrees pin o p s : pin_ok pin -> agrees p s ->
  result (exec pin o p) = fst (spec_step s pin o) /\ agrees (final (exec pin o p)) (snd (spec_step s pin o)).
Proof.
  intros Hp (A1 & A2 & A3). destruct (exec_ok pin o p Hp) as (R & E & F). unfold spec_step.
  destruct (nz (op_ret o)) eqn:N; cbn [fst snd].
  - apply nz_true in N. rewrite (E N). done.
  - apply nz_false in N. destruct (F N) as (F1 & F2 & F3). split; [congruence|]. split; [|split]; cbn [s_view s_in s_cnnt].
    + intros q Hq. rewrite (F1 q Hq), (A1 q Hq). done.
    + intros sig Hs. by rewrite (F2 sig Hs), (A2 sig Hs).
    + by rewrite F3, A3.
Qed.
Lemma run_agrees l : forall p s, Forall (fun x => pin_ok (fst x)) l -> agrees p s ->
  fst (run_ops l p) = fst (spec_ops l s) /\ agrees (snd (run_ops l p)) (snd (spec_ops l s)).
Proof.
  induction l as [|[pin o] l IH]; intros p s H A; [done|]. apply Forall_cons_1 in H as [Hp H]. cbn [fst] in Hp.
  destruct (exec_agrees pin o p s Hp A) as [R A']. cbn [run_ops spec_ops]. destruct (spec_step s pin o) as [r s']. cbn [fst snd] in *.
  destruct (IH _ _ H A') as [R2 A2]. destruct (run_ops l _) as [rs p']. destruct (spec_ops l s') as [rs2 s2]. cbn [fst snd] in *.
  split; [congruence|done].
Qed.
Definition spec_of (p : pins) : spec := Spec (view_of p) (in_sel p) (cnnt p).

(** C33: the driver implements its specification: after any sequence of
    operations on any pins, each operation gave the result that the specification says and
    every pin, every input signal and the CNNT word are as it says: an
    operation changes its own pin as [op_view] tells and no other pin, although the pins
    share registers, and one that is refused changes nothing. *)
Theorem pinctrl_refines (l : list (Z * op)) (p : pins) (H : Forall (fun x => pin_ok (fst x)) l) :
  fst (run_ops l p) = fst (spec_ops l (spec_of p)) /\ agrees (snd (run_ops l p)) (snd (spec_ops l (spec_of p))).
Proof. by apply run_agrees. Qed.
Lemma pinctrl_refines_witness :
  let l := [(13, Mux 0x11b2); (47, DirectionOutput 1); (46, IrqType 3); (46, IrqUnmask); (40, Config (PIN_CONFIG_DRIVE_STRENGTH, 7))] in
  let p := Pins (fun _ => 0x800) (fun _ => 0) 0 in
  fst (run_ops l p) = fst (spec_ops l (spec_of p)) /\ agrees (snd (run_ops l p)) (snd (spec_ops l (spec_of p))).
Proof. apply pinctrl_refines. repeat constructor; done. Defined.

(** * Configurations come back *)

Inductive class := Bias | Input | Driver | Strength | Other.
#[export] Instance class_eq : EqDecision class.
Proof. solve_decision. Defined.
Definition class_of (c : pin_config_param) : class :=
  match c with
  | PIN_CONFIG_BIAS_DISABLE | PIN_CONFIG_BIAS_PULL_UP | PIN_CONFIG_BIAS_PULL_DOWN => Bias
  | PIN_CONFIG_INPUT_ENABLE => Input
  | PIN_CONFIG_DRIVE_OPEN_DRAIN | PIN_CONFIG_DRIVE_PUSH_PULL => Driver
  | PIN_CONFIG_DRIVE_STRENGTH => Strength
  | PIN_CONFIG_OTHER _ => Other
  end.
(** What pin_config_get() gives for a state of the pin, and for a config that was just set. *)
Definition get_of (v : view) (c : pin_config_param) : Z + config :=
  let give (on : bool) (arg : Z) := if on then inr (c, arg) else inl (- EINVAL) in
  match c with
  | PIN_CONFIG_BIAS_DISABLE => give (negb (v_wpu v || v_wpd v)) 1
  | PIN_CONFIG_BIAS_PULL_UP => give (v_wpu v) 1
  | PIN_CONFIG_BIAS_PULL_DOWN => give (v_wpd v) 1
  | PIN_CONFIG_INPUT_ENABLE => give (v_ie v) 1
  | PIN_CONFIG_DRIVE_OPEN_DRAIN => give (v_od v) 1
  | PIN_CONFIG_DRIVE_PUSH_PULL => give (negb (v_od v)) 1
  | PIN_CONFIG_DRIVE_STRENGTH => give true (nth (Z.to_nat (v_drv v)) esp32s31_drive_ma 0)
  | PIN_CONFIG_OTHER _ => inl (- ENOTSUPP)
  end.
Definition shown (c : config) : Z + config :=
  match c with
  | (PIN_CONFIG_INPUT_ENABLE, arg) => if nz arg then inr (PIN_CONFIG_INPUT_ENABLE, 1) else inl (- EINVAL)
  | (PIN_CONFIG_DRIVE_STRENGTH, ma) => inr (PIN_CONFIG_DRIVE_STRENGTH, ma)
  | (c, _) => inr (c, 1)
  end.
Lemma config_get_run pin c p : pin_ok pin -> exists l, esp32s31_pin_config_get pin c p = (get_of (view_of p pin) c, p, l).
Proof.
  intros Hp. unfold pin_ok, NPINS in Hp. exists []. unfold esp32s31_pin_config_get, iomux_read, gpio_read, read, mbind, M_bind.
  rewrite get_plain by (unfold ESP32S31_GPIO_PIN; lia). cbn [app mret M_ret]. unfold get_of, view_of.
  replace (ESP32S31_GPIO_PIN pin) with (GPIO_PIN pin) by (unfold GPIO_PIN, ESP32S31_GPIO_PIN; lia). cbn [v_wpu v_wpd v_ie v_od v_drv].
  unfold ESP32S31_IOMUX_FUN_WPU, ESP32S31_IOMUX_FUN_WPD, ESP32S31_IOMUX_FUN_IE, ESP32S31_PIN_PAD_DRIVER, IOMUX_WPU, IOMUX_WPD, IOMUX_IE, PIN_PAD_DRIVER.
  rewrite Z.land_lor_distr_r, nz_lor.
  destruct c; rewrite ?negb_involutive; try done;
    match goal with |- context [negb ?b] => idtac | _ => idtac end;
    repeat match goal with |- context [nz ?x] => destruct (nz x) end; done.
Qed.
Lemma config_view_keep pin c d v : class_of (fst c) <> class_of d -> get_of (op_view pin (Config c) v) d = get_of v d.
Proof. destruct c as [c arg], v, c, d; cbn; try done. Qed.
Lemma config_view_set pin c v : op_ret (Config c) = 0 -> get_of (op_view pin (Config c) v) (fst c) = shown c.
Proof.
  destruct c as [c arg], v, c; cbn; try done. unfold drive_of.
  destruct (Z.eqb_spec arg 5) as [->|]; [done|]. destruct (Z.eqb_spec arg 10) as [->|]; [done|].
  destruct (Z.eqb_spec arg 20) as [->|]; [done|]. by destruct (Z.eqb_spec arg 40) as [->|].
Qed.
Definition config_view (pin : Z) (v : view) (l : list config) : view := foldl (fun v c => op_view pin (Config c) v) v l.
Lemma config_set_run pin l : forall p, pin_ok pin -> Forall (fun c => op_ret (Config c) = 0) l ->
  exists p' evs, esp32s31_pin_config_set pin l p = (0, p', evs) /\
    (forall q, pin_ok q -> view_of p' q = if q =? pin then config_view pin (view_of p q) l else view_of p q).
Proof.
  induction l as [|c l IH]; intros p Hp H.
  - exists p, []. split; [done|]. intros q Hq. by destruct (q =? pin).
  - apply Forall_cons_1 in H as [Hc H]. destruct (config_ok pin c p Hp) as (R & _ & F & _). specialize (F Hc).
    cbn [esp32s31_pin_config_set]. destruct (esp32s31_config_one pin c p) as [[r p1] l1] eqn:E. unfold result, fits, final in R, F. cbn [fst snd] in R, F.
    rewrite (M_bind_run _ _ _ _ _ _ E), R, Hc. cbn [nz]. change (nz 0) with false. cbv iota.
    destruct (IH p1 Hp H) as (p' & evs & E2 & V). rewrite E2. do 2 eexists. split; [done|]. intros q Hq. rewrite (V q Hq), (F q Hq).
    by destruct (q =? pin).
Qed.
Lemma config_view_last pin l c v : Forall (fun d => class_of (fst d) <> class_of c) l -> get_of (config_view pin v l) c = get_of v c.
Proof.
  intros H. revert v. induction H as [|d l Hd _ IH]; intros v; [done|]. unfold config_view in *. cbn [foldl]. rewrite IH. by apply config_view_keep.
Qed.

(** A list of configurations that the driver takes, set on a pin, gives 0, and
    each one comes back from pin_config_get() unless a later one of its
    kind (bias, input, driver, strength) replaced it; an input that was disabled comes back as not set, and
    no other pin changes. *)
Theorem pin_config_roundtrip (pin : Z) (before : list config) (c : config) (after : list config) (p : pins)
    (Hp : pin_ok pin) (Ht : Forall (fun d => op_ret (Config d) = 0) (before ++ c :: after))
    (Ha : Forall (fun d => class_of (fst d) <> class_of (fst c)) after) :
  exists p' evs, esp32s31_pin_config_set pin (before ++ c :: after) p = (0, p', evs) /\
    (exists l, esp32s31_pin_config_get pin (fst c) p' = (shown c, p', l)) /\
    (forall q, pin_ok q -> q <> pin -> view_of p' q = view_of p q).
Proof.
  destruct (config_set_run pin _ p Hp Ht) as (p' & evs & E & V). exists p', evs. split; [done|]. split.
  - destruct (config_get_run pin (fst c) p' Hp) as [l G]. exists l. rewrite G. do 2 f_equal. rewrite (V pin Hp), Z.eqb_refl.
    apply Forall_app in Ht as [_ [Hc _]%Forall_cons_1]. unfold config_view. rewrite foldl_app. cbn [foldl].
    change (foldl _ ?v after) with (config_view pin v after). rewrite config_view_last by done. by apply config_view_set.
  - intros q Hq N. rewrite (V q Hq). by rewrite (proj2 (Z.eqb_neq q pin)).
Qed.
Lemma pin_config_roundtrip_witness :
  exists p' evs, esp32s31_pin_config_set 40 ([(PIN_CONFIG_BIAS_PULL_UP, 1)] ++ (PIN_CONFIG_DRIVE_STRENGTH, 40) :: [(PIN_CONFIG_INPUT_ENABLE, 0)])
      (Pins (fun _ => 0x800) (fun _ => 0) 0) = (0, p', evs) /\
    (exists l, esp32s31_pin_config_get 40 (fst (PIN_CONFIG_DRIVE_STRENGTH, 40)) p' = (shown (PIN_CONFIG_DRIVE_STRENGTH, 40), p', l)) /\
    (forall q, pin_ok q -> q <> 40 -> view_of p' q = view_of (Pins (fun _ => 0x800) (fun _ => 0) 0) q).
Proof.
  apply (pin_config_roundtrip 40 [(PIN_CONFIG_BIAS_PULL_UP, 1)] (PIN_CONFIG_DRIVE_STRENGTH, 40) [(PIN_CONFIG_INPUT_ENABLE, 0)]);
    [done|by repeat constructor|by repeat constructor].
Defined.

(** * Interrupts and levels *)

Lemma word_of_bit f n i : 0 <= i -> Z.testbit (word_of f n) i = (i <? Z.of_nat n) && f i.
Proof.
  intros Hi. induction n as [|n IH]; cbn [word_of].
  - rewrite Z.bits_0. by rewrite (proj2 (Z.ltb_ge i (Z.of_nat 0))) by lia.
  - rewrite Z.lor_spec, IH. destruct (Z.ltb_spec i (Z.of_nat n)); cbn [andb orb].
    + rewrite (proj2 (Z.ltb_lt i (Z.of_nat (S n)))) by lia. cbn [andb].
      assert (Z.testbit (if f (Z.of_nat n) then BIT (Z.of_nat n) else 0) i = false) as ->; [|apply orb_false_r].
      destruct (f (Z.of_nat n)); [rewrite BIT_testbit by lia; apply Z.eqb_neq; lia|apply Z.bits_0].
    + destruct (Z.ltb_spec i (Z.of_nat (S n))); cbn [andb].
      * assert (i = Z.of_nat n) as -> by lia. destruct (f (Z.of_nat n)); [rewrite BIT_testbit by lia; apply Z.eqb_refl|apply Z.bits_0].
      * destruct (f (Z.of_nat n)); [rewrite BIT_testbit by lia; apply Z.eqb_neq; lia|apply Z.bits_0].
Qed.
(** The pin asks for an interrupt on the line of Linux for its bank. *)
Definition fires (p : pins) (bank q : Z) : bool := v_pending (view_of p q) && Z.testbit (v_lines (view_of p q)) (2 + bank).
Lemma handle_bits_run bank pending bits p :
  exists evs, handle_bits bank pending bits p = (tt, p, evs) /\
    evs = (fun b => DomainIrq (bank * 32 + b)) <$> filter (fun b => Z.testbit pending b = true) bits.
Proof.
  induction bits as [|b bits (evs & E & ->)]; [by eexists|]. cbn [handle_bits]. unfold mbind, M_bind in *.
  destruct (Z.testbit pending b) eqn:T; cbn [call mret M_ret]; rewrite E; eexists; (split; [done|]); cbn [app].
  - by rewrite filter_cons_True by done.
  - by rewrite filter_cons_False by congruence.
Qed.
Lemma line_status_bit p bank b : 0 <= bank < 2 -> 0 <= b < 32 ->
  Z.testbit (get_gpio p (ESP32S31_GPIO_INT (ESP32S31_IRQ_LINE0 + bank) bank)) b = fires p bank (bank * 32 + b).
Proof.
  intros Hk Hb. assert (get_gpio p (ESP32S31_GPIO_INT (ESP32S31_IRQ_LINE0 + bank) bank) = line_status p (2 + bank) bank) as ->.
  { by assert (bank = 0 \/ bank = 1) as [-> | ->] by lia. }
  unfold line_status. rewrite word_of_bit by lia. rewrite (proj2 (Z.ltb_lt b (Z.of_nat 32))) by lia. cbn [andb].
  unfold fires, view_of. cbn [v_pending v_lines]. rewrite lines_bit by lia. rewrite (proj2 (Z.ltb_lt (2 + bank) 4)) by lia. cbn [andb].
  unfold bit_of, bank_of. replace ((bank * 32 + b) mod 32) with b by zlia. f_equal; [|f_equal; lia].
  assert (bank = 0 \/ bank = 1) as [-> | ->] by lia.
  - by rewrite (proj2 (Z.ltb_lt (0 * 32 + b) 32)) by lia.
  - by rewrite (proj2 (Z.ltb_ge (1 * 32 + b) 32)) by lia.
Qed.
Lemma op_lines pin o v : 0 <= pin / 32 < 2 -> Z.land (v_lines (op_view pin o v)) 3 = Z.land (v_lines v) 3.
Proof.
  intros H. destruct v as [? ? ? ? ? ? ? lines ? ? ? ?], o; cbn; try done.
  - by destruct c as [[] ?].
  - rewrite <- Z.land_assoc. f_equal. unfold line_bit. by assert (pin / 32 = 0 \/ pin / 32 = 1) as [-> | ->] by lia.
  - rewrite Z.land_lor_distr_l. unfold line_bit. rewrite <- (Z.lor_0_r (Z.land lines 3)) at 2. f_equal.
    by assert (pin / 32 = 0 \/ pin / 32 = 1) as [-> | ->] by lia.
Qed.
Lemma spec_lines l : forall s q, Forall (fun x => pin_ok (fst x)) l -> Z.land (v_lines (s_view (snd (spec_ops l s)) q)) 3 = Z.land (v_lines (s_view s q)) 3.
Proof.
  induction l as [|[pin o] l IH]; intros s q H; [done|]. apply Forall_cons_1 in H as [Hp H]. cbn [spec_ops fst] in *.
  destruct (spec_step s pin o) as [r s'] eqn:E. destruct (spec_ops l s') as [rs s2] eqn:E2. cbn [snd].
  specialize (IH s' q H). rewrite E2 in IH. cbn [snd] in IH. rewrite IH. unfold spec_step in E.
  destruct (nz (op_ret o)); injection E as <- <-; [done|]. cbn [s_view]. destruct (Z.eqb_spec q pin) as [->|]; [|done].
  apply op_lines. by apply irq_ena_bit.
Qed.

(** C34: after any sequence of operations, the interrupt of a bank is handled for
    exactly the pins of the bank that are pending and enable the line of Linux for it,
    each once and in order, with no change of a register; and the enable bits of lines 0 and 1,
    which the firmware's hart uses, are on every pin as they were before the sequence. *)
Theorem gpio_irq_correct (l : list (Z * op)) (p : pins) (bank : Z) (H : Forall (fun x => pin_ok (fst x)) l) (Hb : 0 <= bank < 2) :
  let p' := snd (run_ops l p) in
  esp32s31_gpio_irq_handler bank p' = (tt, p', DomainIrq <$> filter (fun q => fires p' bank q = true) (seqZ (bank * 32) 32)) /\
  forall q, pin_ok q -> Z.land (v_lines (view_of p' q)) 3 = Z.land (v_lines (view_of p q)) 3.
Proof.
  cbn zeta. set (p' := snd (run_ops l p)). split.
  - unfold esp32s31_gpio_irq_handler, gpio_read, read. unfold mbind at 1, M_bind.
    destruct (handle_bits_run bank (get_gpio p' (ESP32S31_GPIO_INT (ESP32S31_IRQ_LINE0 + bank) bank)) (seqZ 0 32) p') as (evs & -> & ->).
    cbn [app]. f_equal. replace (seqZ (bank * 32) 32) with ((fun b => bank * 32 + b) <$> seqZ 0 32).
    2: { by assert (bank = 0 \/ bank = 1) as [-> | ->] by lia. }
    assert (A : forall b, b ∈ seqZ 0 32 -> 0 <= b < 32) by (intros b Hs; apply elem_of_seqZ in Hs; lia).
    revert A. generalize (seqZ 0 32). intros bs A. induction bs as [|b bs IH]; [done|].
    pose proof (line_status_bit p' bank b Hb (A b ltac:(left))) as L. cbn [fmap list_fmap].
    specialize (IH ltac:(intros; apply A; by right)). unfold fmap in IH.
    destruct (fires p' bank (bank * 32 + b)) eqn:Fi.
    + rewrite !filter_cons_True by done. cbn [fmap list_fmap]. by f_equal.
    + rewrite !filter_cons_False by congruence. done.
  - intros q Hq. destruct (run_agrees l p (spec_of p) H) as [_ (A & _)]; [done|]. fold p' in A. rewrite (A q Hq).
    by rewrite spec_lines.
Qed.
Lemma gpio_irq_correct_witness :
  let l := [(46, IrqType 3); (46, IrqUnmask); (3, IrqUnmask)] in
  let p := Pins (fun _ => 0x800) (fun _ => 0x4000) 0 in
  let p' := snd (run_ops l p) in
  esp32s31_gpio_irq_handler 1 p' = (tt, p', DomainIrq <$> filter (fun q => fires p' 1 q = true) (seqZ (1 * 32) 32)) /\
  forall q, pin_ok q -> Z.land (v_lines (view_of p' q)) 3 = Z.land (v_lines (view_of p q)) 3.
Proof. apply gpio_irq_correct; [by repeat constructor|lia]. Defined.

(** A new output starts at its level: while direction_output() runs, the driver
    of the pad is never on with another level, unless it was on before. *)
Theorem direction_output_clean pin v p : pin_ok pin ->
  Forall (fun p' => v_oe (view_of p' pin) = true -> v_oe (view_of p pin) = true \/ v_out (view_of p' pin) = nz v)
    (states (esp32s31_gpio_direction_output pin v p)).
Proof.
  intros Hp. unfold esp32s31_gpio_direction_output. rewrite (M_bind_run _ _ _ _ _ _ (gpio_set_run pin v p)).
  rewrite (M_bind_run _ _ _ _ _ _ (enable_run pin true _)). cbn [mret M_ret states snd omap list_omap app].
  set (p1 := Pins (iomux p) _ _). set (p2 := Pins (iomux p1) _ _).
  pose proof (view_put_w1 p FOut pin (nz v) pin Hp Hp) as V1. rewrite Z.eqb_refl in V1. fold p1 in V1.
  pose proof (view_put_w1 p1 FEnable pin true pin Hp Hp) as V2. rewrite Z.eqb_refl in V2. fold p2 in V2.
  apply Forall_cons_2; [|apply Forall_cons_2; [|apply Forall_nil_2]].
  - intros _. right. trans (v_out (view_of p1 pin)); [done|]. by rewrite V1.
  - intros _. right. trans (v_out (view_of p2 pin)); [done|]. by rewrite V2, V1.
Qed.

(** After the setup, no pin enables a line of Linux. *)
Definition no_lines (p : pins) (q : Z) : Prop := Z.testbit (v_lines (view_of p q)) 2 = false /\ Z.testbit (v_lines (view_of p q)) 3 = false.
Lemma init_pins_ok l q : forall p, pin_ok q -> Forall pin_ok l -> In q l \/ no_lines p q ->
  exists p' evs, init_pins l p = (tt, p', evs) /\ no_lines p' q.
Proof.
  induction l as [|i l IH]; intros p Hq H N.
  - exists p, []. split; [done|]. by destruct N as [[]|].
  - apply Forall_cons_1 in H as [Hi H]. cbn [init_pins]. rewrite (M_bind_run _ _ _ _ _ _ (pin_rmw_run i _ _ p Hi)).
    set (p1 := Pins (iomux p) _ _). destruct (IH p1 Hq H) as (p' & evs & -> & Hn); [|by do 2 eexists].
    destruct (Z.eqb_spec q i) as [->|Ne].
    + right. unfold no_lines, p1. rewrite view_pin, Z.eqb_refl by done. cbn [view_n v_lines].
      rewrite !lines_bit, !rmw_testbit by lia. split; by rewrite andb_false_r.
    + destruct N as [[->|N]|N]; [done|by left|right]. unfold no_lines, p1. rewrite view_pin by done. by rewrite (proj2 (Z.eqb_neq q i)).
Qed.
Theorem irq_init_quiet irqs p q : pin_ok q -> first_neg (take 2 irqs) = None ->
  exists p' evs, esp32s31_irq_init 2 irqs p = ((0, true), p', evs) /\ no_lines p' q.
Proof.
  intros Hq Hn. unfold esp32s31_irq_init. change (2 <? ESP32S31_NBANKS) with false. cbv iota. rewrite Hn.
  destruct (init_pins_ok (seqZ 0 ESP32S31_NPINS) q p Hq) as (p' & evs & E & N).
  - apply Forall_forall. intros i Hi. first [apply elem_of_seqZ in Hi|apply list_elem_of_In in Hi; apply elem_of_seqZ in Hi]. unfold pin_ok, NPINS, ESP32S31_NPINS in *. lia.
  - left. apply list_elem_of_In, elem_of_seqZ. unfold pin_ok, NPINS, ESP32S31_NPINS in *. lia.
  - rewrite (M_bind_run _ _ _ _ _ _ E). exists p', (evs ++ []). split; [reflexivity|exact N].
Qed.
