(* ===== verification/PinTool.v ===== *)
(** The pinctrl tool: what get finds (tools/pinctrl/esp32s31.c), what the set
    command of pinctrl.c writes and refuses, and the headers of board.c.

    The registers are those of PinRegs.v.  The names of the matrix signals are
    arguments here; Signals has the tables. *)

From Stdlib Require Import Ascii String.
From S2P Require Import Prelude Device PinRegs Pinctrl.

Open Scope Z_scope.

Definition NSIGS : Z := 256.
Definition NFUNCS : Z := 5.
Definition IOMUX_DRV_SHIFT : Z := 10.
Definition IOMUX_MCU_SHIFT : Z := 12.
Definition FUNC_GPIO : Z := 1.
Definition PIN_INT_TYPE_SHIFT : Z := 7.
Definition PIN_INT_ENA_SHIFT : Z := 13.
Definition IN_SEL_PIN : Z := 0xff.
Definition IN_SEL_MATRIX : Z := BIT 9.
Definition SIG_GPIO_OUT : Z := 256.

(** * Tables *)

(** The IO MUX functions of the pins that exist, F0 first; a missing one is NULL. *)
Definition iomux_funcs : list (Z * list (option string)) :=
  [(0, [Some "GPIO0"; Some "GPIO0"]);
   (1, [Some "GPIO1"; Some "GPIO1"]);
   (2, [Some "GPIO2"; Some "GPIO2"; None; Some "LCD_DATA19_OUT_PAD"]);
   (3, [Some "GPIO3"; Some "GPIO3"; None; Some "LCD_DATA20_OUT_PAD"]);
   (4, [Some "GPIO4"; Some "GPIO4"; None; Some "LCD_DATA21_OUT_PAD"]);
   (5, [Some "GPIO5"; Some "GPIO5"; None; Some "LCD_DATA22_OUT_PAD"]);
   (6, [Some "GPIO6"; Some "GPIO6"]);
   (7, [Some "GPIO7"; Some "GPIO7"; None; Some "LCD_DATA23_OUT_PAD"]);
   (8, [Some "GPIO8"; Some "GPIO8"; Some "GMAC_PHY_TXD0_PAD"; Some "LCD_DATA0_OUT_PAD"]);
   (9, [Some "SPI2_HOLD_PAD"; Some "GPIO9"; Some "GMAC_PHY_TXD1_PAD"; Some "LCD_DATA1_OUT_PAD"]);
   (10, [Some "SPI2_CS_PAD"; Some "GPIO10"; Some "GMAC_PHY_TXD2_PAD"; Some "LCD_DATA2_OUT_PAD"]);
   (11, [Some "SPI2_D_PAD"; Some "GPIO11"; Some "GMAC_PHY_TXD3_PAD"; Some "LCD_DATA3_OUT_PAD"]);
   (12, [Some "SPI2_CK_PAD"; Some "GPIO12"; Some "GMAC_PHY_TXEN_PAD"; Some "LCD_DATA4_OUT_PAD"]);
   (13, [Some "SPI2_Q_PAD"; Some "GPIO13"; Some "GMAC_RMII_CLK_PAD"; Some "LCD_DATA5_OUT_PAD"]);
   (14, [Some "SPI2_WP_PAD"; Some "GPIO14"; Some "GMAC_RX_CLK_PAD"; Some "LCD_DATA6_OUT_PAD"]);
   (15, [Some "SPI2_IO4_PAD"; Some "GPIO15"; Some "GMAC_PHY_RXDV_PAD"; Some "LCD_DATA7_OUT_PAD"]);
   (16, [Some "SPI2_IO5_PAD"; Some "GPIO16"; Some "GMAC_PHY_RXD3_PAD"; Some "LCD_DATA8_OUT_PAD"]);
   (17, [Some "SPI2_IO6_PAD"; Some "GPIO17"; Some "GMAC_PHY_RXD2_PAD"; Some "LCD_DATA9_OUT_PAD"]);
   (18, [Some "SPI2_IO7_PAD"; Some "GPIO18"; Some "GMAC_PHY_RXD1_PAD"; Some "LCD_DATA10_OUT_PAD"]);
   (19, [Some "SPI2_DQS_PAD"; Some "GPIO19"; Some "GMAC_PHY_RXD0_PAD"; Some "LCD_DATA11_OUT_PAD"]);
   (20, [Some "SDIO_DATA0"; Some "GPIO20"; Some "SPI2_CK_PAD"]);
   (21, [Some "SDIO_DATA1"; Some "GPIO21"; Some "SPI2_D_PAD"]);
   (22, [Some "SDIO_DATA2"; Some "GPIO22"; Some "SPI2_Q_PAD"]);
   (23, [Some "SDIO_DATA3"; Some "GPIO23"; Some "SPI2_CS_PAD"]);
   (24, [Some "SDIO_CLK"; Some "GPIO24"; Some "SPI2_HOLD_PAD"]);
   (25, [Some "SDIO_CMD"; Some "GPIO25"; Some "SPI2_WP_PAD"]);
   (26, [Some "SPICS"; Some "GPIO26"]);
   (27, [Some "SPIQ"; Some "GPIO27"]);
   (28, [Some "SPIWP"; Some "GPIO28"]);
   (30, [Some "SPIHD"; Some "GPIO30"]);
   (31, [Some "SPICLK"; Some "GPIO31"]);
   (32, [Some "SPID"; Some "GPIO32"]);
   (33, [Some "GPIO33"; Some "GPIO33"; None; Some "LCD_DATA12_OUT_PAD"]);
   (34, [Some "GPIO34"; Some "GPIO34"; None; Some "LCD_DATA13_OUT_PAD"]);
   (35, [Some "GPIO35"; Some "GPIO35"; Some "REF_GMAC_CLK_PAD"; Some "LCD_DATA14_OUT_PAD"; Some "SD2_CDATA0_PAD"]);
   (36, [Some "GPIO36"; Some "GPIO36"; None; Some "LCD_DATA15_OUT_PAD"; Some "SD2_CDATA1_PAD"]);
   (37, [Some "GPIO37"; Some "GPIO37"; None; Some "LCD_DATA16_OUT_PAD"; Some "SD2_CDATA2_PAD"]);
   (38, [Some "GPIO38"; Some "GPIO38"; None; Some "LCD_DATA17_OUT_PAD"; Some "SD2_CDATA3_PAD"]);
   (39, [Some "GPIO39"; Some "GPIO39"; None; Some "LCD_DATA18_OUT_PAD"; Some "SD2_CCLK_PAD"]);
   (40, [Some "GPIO40"; Some "GPIO40"; None; Some "LCD_PCLK_PAD"; Some "SD2_CCMD_PAD"]);
   (42, [Some "GPIO42"; Some "GPIO42"]);
   (43, [Some "GPIO43"; Some "GPIO43"; None; Some "LCD_H_ENABLE_PAD"]);
   (44, [Some "GPIO44"; Some "GPIO44"; None; Some "LCD_H_SYNC_PAD"]);
   (45, [Some "GPIO45"; Some "GPIO45"; None; Some "LCD_V_SYNC_PAD"]);
   (46, [Some "GPIO46"; Some "GPIO46"; None; Some "CAM_DATA0_IN_PAD"]);
   (47, [Some "GPIO47"; Some "GPIO47"; None; Some "CAM_DATA1_IN_PAD"]);
   (48, [Some "GPIO48"; Some "GPIO48"; None; Some "CAM_DATA2_IN_PAD"]);
   (49, [Some "GPIO49"; Some "GPIO49"; None; Some "CAM_DATA3_IN_PAD"]);
   (50, [Some "GPIO50"; Some "GPIO50"; None; Some "CAM_DATA4_IN_PAD"]);
   (51, [Some "GPIO51"; Some "GPIO51"; None; Some "CAM_DATA5_IN_PAD"]);
   (52, [Some "GPIO52"; Some "GPIO52"; Some "SPI2_CS_PAD"; Some "CAM_DATA6_IN_PAD"]);
   (53, [Some "GPIO53"; Some "GPIO53"; Some "SPI2_CK_PAD"; Some "CAM_DATA7_IN_PAD"]);
   (54, [Some "MTDO"; Some "GPIO54"; Some "SPI2_D_PAD"; Some "CAM_PCLK_PAD"]);
   (55, [Some "MTCK"; Some "GPIO55"; Some "SPI2_Q_PAD"; Some "CAM_XCLK_PAD"]);
   (56, [Some "MTDI"; Some "GPIO56"; Some "SPI2_HOLD_PAD"; Some "CAM_V_SYNC_PAD"]);
   (57, [Some "MTMS"; Some "GPIO57"; Some "SPI2_WP_PAD"; Some "CAM_H_SYNC_PAD"]);
   (58, [Some "UART0_TXD_PAD"; Some "GPIO58"]);
   (59, [Some "UART0_RXD_PAD"; Some "GPIO59"]);
   (60, [Some "GPIO60"; Some "GPIO60"]);
   (61, [Some "GPIO61"; Some "GPIO61"])]%string.
Definition drive_ma : list Z := [5; 10; 20; 40].
Definition int_types : list string := ["none"; "rising"; "falling"; "both"; "low"; "high"; "type6"; "type7"]%string.
(** The CNNT pads: first and last pin, function, select bit, block. *)
Definition cnnt_pads : list (Z * Z * Z * Z * string) := [(13, 19, 2, BIT 1, "GMAC"%string); (20, 25, 4, BIT 0, "SDHOST"%string)].

Definition func_row (pin : Z) : list (option string) :=
  match List.find (fun r => fst r =? pin) iomux_funcs with Some (_, l) => l | None => [] end.
Definition iomux_func_name (pin func : Z) : option string :=
  if (pin >=? NPINS) || (func >=? NFUNCS) then None else nth (Z.to_nat func) (func_row pin) None.
Definition pin_exists (pin : Z) : bool :=
  (pin <? NPINS) && match nth 1 (func_row pin) None with Some _ => true | None => false end.
Definition pin_is_flash (pin : Z) : bool := (pin >=? 26) && (pin <=? 32).
Definition pin_is_strapping (pin : Z) : bool := (pin =? 36) || (pin =? 37) || (pin =? 60) || (pin =? 61).
Definition int_type_name (type : Z) : string := nth (Z.to_nat (Z.land type 7)) int_types EmptyString.

(** * Names *)

(** The part of a string before the first of some characters, and the rest from there: strcspn(). *)
Fixpoint before (stop : ascii -> bool) (s : string) : string * string :=
  match s with
  | EmptyString => (EmptyString, EmptyString)
  | String c r => if stop c then (EmptyString, s) else let '(a, b) := before stop r in (String c a, b)
  end.
Definition tail1 (s : string) : string := match s with EmptyString => EmptyString | String _ r => r end.
Definition slen (s : string) : Z := Z.of_nat (String.length s).
(** What snprintf() leaves of [s] in [room] bytes. *)
Definition cut (s : string) (room : Z) : string := substring 0 (Z.to_nat (room - 1)) s.
Definition suffixes : list string := ["_PAD_IN"; "_PAD_OUT"; "_PAD"]%string.
Definition ends_with (s suffix : string) : bool :=
  (slen s >? slen suffix) && String.eqb (substring (String.length s - String.length suffix) (String.length suffix) s) suffix.
Definition strip (part : string) : string :=
  match List.find (ends_with part) suffixes with
  | Some x => substring 0 (String.length part - String.length x) part
  | None => part
  end.
(** [n] is the count of the characters printed so far, [buf] those that fit. *)
Fixpoint short_loop (fuel : nat) (raw buf : string) (n len : Z) : string :=
  match fuel, raw with
  | O, _ | _, EmptyString => buf
  | S fuel, _ =>
      if n + 1 >=? len then buf
      else
        let '(part, rest) := before (Ascii.eqb "/") raw in
        let piece := ((if nz n then "/" else "") ++ strip part)%string in
        short_loop fuel (tail1 rest) (buf ++ cut piece (len - n))%string (n + slen piece) len
  end.
Definition short_name (raw : string) (len : Z) : string := short_loop (String.length raw) raw EmptyString 0 len.
(** append(): a name once in a list with commas, in a buffer of [len] bytes. *)
Fixpoint listed (fuel : nat) (buf name : string) : bool :=
  match fuel, buf with
  | O, _ | _, EmptyString => false
  | S fuel, _ =>
      let '(item, rest) := before (Ascii.eqb ",") buf in
      String.eqb item name || listed fuel (tail1 rest) name
  end.
Definition append (buf : string) (len : Z) (raw : option string) : string :=
  let name := short_name (default "-"%string raw) 96 in
  if listed (String.length buf) buf name then buf
  else (buf ++ cut ((if nz (slen buf) then "," else "") ++ name) (len - slen buf))%string.

(** * The state of a pin *)

Inductive mode := MODE_A (n : Z) | MODE_IP | MODE_OP | MODE_NO | MODE_MX.
Inductive pull := PULL_NONE | PULL_DOWN | PULL_UP | PULL_BOTH.
Record pin_state := PinState { ps_mode : mode; ps_pull : pull; ps_out : Z; ps_level : Z; ps_drive_ma : Z; ps_open_drain : bool;
  ps_int_type : Z; ps_int_lines : Z; ps_int_pending : Z; ps_func : string }.

Definition gpio_rd (p : pins) (off : Z) : Z := get_gpio p off.
Definition bank (pin reg0 reg1 : Z) : Z := if pin <? 32 then reg0 else reg1.
Definition gpio_bit (p : pins) (pin reg0 reg1 : Z) : Z := Z.land (Z.shiftr (gpio_rd p (bank pin reg0 reg1)) (pin mod 32)) 1.
Definition pin_level (p : pins) (pin : Z) : Z :=
  if negb (nz (Z.land (iomux p pin) IOMUX_IE)) then -1 else gpio_bit p pin GPIO_IN GPIO_IN1.
Definition cnnt_block (p : pins) (pin func : Z) : option string :=
  match List.find (fun '(first, last, f, sel, _) => (pin >=? first) && (pin <=? last) && (func =? f) && nz (Z.land (cnnt p) sel)) cnnt_pads with
  | Some (_, _, _, _, block) => Some block
  | None => None
  end.

Section tool.
Context (sig_in_names sig_out_names : Z -> option string).

Fixpoint input_signals (p : pins) (pin : Z) (sigs : list Z) (buf : string) (len : Z) (found : bool) : string * bool :=
  match sigs with
  | [] => (buf, found)
  | sig :: sigs =>
      let v := gpio_rd p (GPIO_IN_SEL sig) in
      if nz (Z.land v IN_SEL_MATRIX) && (Z.land v IN_SEL_PIN =? pin)
      then input_signals p pin sigs (append buf len (sig_in_names sig)) len true
      else input_signals p pin sigs buf len found
  end.
Definition matrix_signals (p : pins) (pin len : Z) : string * bool :=
  let out := Z.land (gpio_rd p (GPIO_OUT_SEL pin)) OUT_SEL_SIG in
  let '(buf, found) :=
    if out =? SIG_GPIO_OUT then (EmptyString, false)
    else (append EmptyString len (if out <? NSIGS then sig_out_names out else None), true) in
  input_signals p pin (seqZ 0 NSIGS) buf len found.
Definition pin_get (p : pins) (pin : Z) : pin_state :=
  let mux := iomux p pin in
  let func := Z.shiftr (Z.land mux IOMUX_MCU_MASK) IOMUX_MCU_SHIFT in
  let ie := nz (Z.land mux IOMUX_IE) in
  let oe := nz (gpio_bit p pin GPIO_ENABLE GPIO_ENABLE1) in
  let '(m, f) :=
    if negb (func =? FUNC_GPIO) then
      let name := match iomux_func_name pin func with Some n => Some n | None => cnnt_block p pin func end in
      (if func <? NFUNCS then MODE_A func else MODE_NO, append EmptyString 128 name)
    else
      let '(f, found) := matrix_signals p pin 128 in
      if found : bool then (MODE_MX, f)
      else if oe then (MODE_OP, "output"%string)
      else if ie then (MODE_IP, "input"%string)
      else (MODE_NO, "none"%string) in
  {| ps_mode := m;
     ps_pull := match nz (Z.land mux IOMUX_WPU), nz (Z.land mux IOMUX_WPD) with
                | true, true => PULL_BOTH | true, false => PULL_UP | false, true => PULL_DOWN | false, false => PULL_NONE end;
     ps_out := gpio_bit p pin GPIO_OUT GPIO_OUT1;
     ps_level := pin_level p pin;
     ps_drive_ma := nth (Z.to_nat (Z.shiftr (Z.land mux IOMUX_DRV_MASK) IOMUX_DRV_SHIFT)) drive_ma 0;
     ps_open_drain := nz (Z.land (gpio_rd p (GPIO_PIN pin)) PIN_PAD_DRIVER);
     ps_int_type := Z.shiftr (Z.land (gpio_rd p (GPIO_PIN pin)) PIN_INT_TYPE_MASK) PIN_INT_TYPE_SHIFT;
     ps_int_lines := Z.shiftr (Z.land (gpio_rd p (GPIO_PIN pin)) PIN_INT_ENA_MASK) PIN_INT_ENA_SHIFT;
     ps_int_pending := gpio_bit p pin GPIO_STATUS GPIO_STATUS1;
     ps_func := f |}.

(** * Changes *)

(** The two backends of the tool: the registers, and a snapshot of them in memory. *)
Definition live_w1 (base mask : Z) (set : bool) : M unit := gpio_write (base + if set then GPIO_W1TS else GPIO_W1TC) mask.
Definition snap_w1 (base mask : Z) (set : bool) : M unit :=
  write (fun p => Pins (iomux p) (upd (gpio p) base (if set then Z.lor (gpio p base) mask else Z.land (gpio p base) (not32 mask))) (cnnt p)).
Definition gpio_w1 (pin reg0 reg1 : Z) (set : bool) : M unit := live_w1 (bank pin reg0 reg1) (BIT (pin mod 32)) set.
Definition gpio_wr (off v : Z) : M unit := gpio_write off v.
Definition iomux_update (pin clr set : Z) : M unit := v ← iomux_read pin; iomux_write pin (Z.lor (Z.land v (not32 clr)) set).
Fixpoint cnnt_loop (pads : list (Z * Z * Z * Z * string)) (pin func : Z) : M unit :=
  match pads with
  | [] => mret tt
  | (first, last, f, sel, _) :: pads =>
      (if (pin >=? first) && (pin <=? last) && (func =? f) then v ← cnnt_read; cnnt_write (Z.lor v sel) else mret tt);;
      cnnt_loop pads pin func
  end.
Definition cnnt_select (pin func : Z) : M unit := cnnt_loop cnnt_pads pin func.
Definition pin_set_mode (pin : Z) (m : mode) : M unit :=
  match m with
  | MODE_A n =>
      cnnt_select pin n;;
      iomux_update pin IOMUX_MCU_MASK (Z.lor (Z.shiftl n IOMUX_MCU_SHIFT) IOMUX_IE)
  | _ =>
      gpio_wr (GPIO_OUT_SEL pin) SIG_GPIO_OUT;;
      gpio_w1 pin GPIO_ENABLE GPIO_ENABLE1 (match m with MODE_OP => true | _ => false end);;
      iomux_update pin (Z.lor IOMUX_MCU_MASK IOMUX_IE)
        (Z.lor (Z.shiftl FUNC_GPIO IOMUX_MCU_SHIFT) (match m with MODE_NO => 0 | _ => IOMUX_IE end))
  end.
Definition pull_up (x : pull) : bool := match x with PULL_UP | PULL_BOTH => true | _ => false end.
Definition pull_down (x : pull) : bool := match x with PULL_DOWN | PULL_BOTH => true | _ => false end.
Definition pin_set_pull (pin : Z) (x : pull) : M unit :=
  iomux_update pin (Z.lor IOMUX_WPU IOMUX_WPD) (Z.lor (if pull_up x then IOMUX_WPU else 0) (if pull_down x then IOMUX_WPD else 0)).
Definition pin_set_out (pin : Z) (high : bool) : M unit := gpio_w1 pin GPIO_OUT GPIO_OUT1 high.

(** * The set command *)

Record pad_range := PadRange { pr_first : Z; pr_last : Z; pr_gpio : Z; pr_label : option string }.
Record board := Board { compatible : string; model : string; names : Z -> string; reserved : Z; used : Z; have_lines : bool; hdr_of : option (list pad_range) }.
Inductive refusal := Flash | NoLines | Reserved | Used | IrqEnabled.
Definition set_refusal (b : board) (force : bool) (p : pins) (gpio : Z) : option refusal :=
  if pin_is_flash gpio then Some Flash
  else if negb (have_lines b) then Some NoLines
  else if Z.testbit (reserved b) gpio then Some Reserved
  else if Z.testbit (used b) gpio && negb force then Some Used
  else if nz (ps_int_lines (pin_get p gpio)) then Some IrqEnabled
  else None.
(** What set says, and then 0 or 1: refused, not an output, or done with a word on a strapping pin. *)
Inductive set_answer := NoGpio | Label | Refused (r : refusal) | NotOutput | Done (strapping : bool).
Definition mode_is_op (m : mode) : bool := match m with MODE_OP => true | _ => false end.
Definition do_gpio_set (b : board) (force : bool) (gpio : Z) (fsparam : option mode) (drive : option bool) (x : option pull) : M set_answer :=
  if gpio =? -1 then mret Label
  else if gpio <? 0 then mret NoGpio
  else
    why ← read (fun p => set_refusal b force p gpio);
    match why with
    | Some r => mret (Refused r)
    | None =>
        st ← read (fun p => pin_get p gpio);
        let m := default (ps_mode st) fsparam in
        if (match drive with Some _ => true | None => false end) && negb (mode_is_op m) then mret NotOutput
        else
          (match drive with Some h => pin_set_out gpio h | None => mret tt end);;
          (match fsparam with Some m => pin_set_mode gpio m | None => mret tt end);;
          (match x with Some x => pin_set_pull gpio x | None => mret tt end);;
          mret (Done (pin_is_strapping gpio))
    end.
Definition set_ret (r : set_answer) : Z := match r with Done _ => 0 | _ => 1 end.

End tool.

(** * Headers *)

(** The pads of the module, and header J2 of the Function-CoreBoard-1. *)
Definition wroom3 : list pad_range :=
  [PadRange 1 2 (-1) (Some "gnd");
   PadRange 3 4 (-1) (Some "3v3");
   PadRange 5 5 (-1) (Some "en");
   PadRange 6 6 2 None;
   PadRange 7 7 3 None;
   PadRange 8 8 0 None;
   PadRange 9 9 1 None;
   PadRange 10 25 4 None;
   PadRange 26 26 (-1) (Some "gnd");
   PadRange 27 32 20 None;
   PadRange 33 39 (-1) (Some "nc");
   PadRange 40 40 (-1) (Some "usb_dp");
   PadRange 41 41 (-1) (Some "usb_dm");
   PadRange 42 46 33 None;
   PadRange 47 48 (-1) (Some "gnd");
   PadRange 49 51 38 None;
   PadRange 52 67 42 None;
   PadRange 68 71 58 None;
   PadRange 72 90 (-1) (Some "gnd");
   PadRange 91 91 (-1) (Some "nc");
   PadRange 92 94 (-1) (Some "gnd");
   PadRange 95 95 (-1) (Some "epad");
   PadRange 96 99 (-1) (Some "gnd")]%string.
Definition j2 : list pad_range :=
  [PadRange 1 2 (-1) (Some "gnd");
   PadRange 3 3 58 None;
   PadRange 4 4 59 None;
   PadRange 5 5 61 None;
   PadRange 6 6 60 None;
   PadRange 7 7 2 None;
   PadRange 8 8 (-1) (Some "gnd");
   PadRange 9 9 0 None;
   PadRange 10 10 3 None;
   PadRange 11 11 49 None;
   PadRange 12 12 1 None;
   PadRange 13 13 47 None;
   PadRange 14 14 48 None;
   PadRange 15 15 45 None;
   PadRange 16 16 46 None;
   PadRange 17 17 43 None;
   PadRange 18 18 44 None;
   PadRange 19 19 40 None;
   PadRange 20 20 42 None;
   PadRange 21 21 39 None;
   PadRange 22 22 38 None;
   PadRange 23 23 37 None;
   PadRange 24 24 36 None;
   PadRange 25 25 35 None;
   PadRange 26 31 20 None;
   PadRange 32 32 4 None;
   PadRange 33 34 (-1) (Some "gnd");
   PadRange 35 36 (-1) (Some "3v3");
   PadRange 37 38 (-1) (Some "gnd");
   PadRange 39 40 (-1) (Some "5v")]%string.
Definition headers : list (string * list pad_range) :=
  [("esp,esp32s31-function-coreboard-1", j2); ("esp,esp32s31-korvo-1", wroom3); ("esp,esp32s31-wroom-3", wroom3)]%string.
Definition board_header (compatible : string) : option (list pad_range) :=
  match List.find (fun h => String.eqb (fst h) compatible) headers with Some (_, r) => Some r | None => None end.
Definition header_npads (hdr : list pad_range) : Z := pr_last (List.last hdr (PadRange 0 0 0 None)).
(** The GPIO of a pad, or -1 and its label; -2 for no such pad. *)
Fixpoint pad_gpio (hdr : list pad_range) (pad : Z) : Z * option string :=
  match hdr with
  | [] => (-2, None)
  | pr :: hdr =>
      if (pad <? pr_first pr) || (pad >? pr_last pr) then pad_gpio hdr pad
      else (if pr_gpio pr <? 0 then -1 else pr_gpio pr + (pad - pr_first pr), pr_label pr)
  end.
Fixpoint pad_search (hdr : list pad_range) (gpio : Z) (pads : list Z) : Z :=
  match pads with
  | [] => -1
  | pad :: pads => if fst (pad_gpio hdr pad) =? gpio then pad else pad_search hdr gpio pads
  end.
Definition gpio_pad (hdr : list pad_range) (gpio : Z) : Z := pad_search hdr gpio (seqZ 1 (header_npads hdr)).
Definition num_to_gpio (pin_mode : option (list pad_range)) (num : Z) : Z :=
  match pin_mode with None => if pin_exists num then num else -2 | Some hdr => fst (pad_gpio hdr num) end.

(** * What the tool shows *)

(** The mode of a pin in a state, when [inputs] says that an input signal reads it. *)
Definition mode_of (v : view) (inputs : bool) : mode :=
  if negb (v_func v =? 1) then if v_func v <? 5 then MODE_A (v_func v) else MODE_NO
  else if negb (v_sel v =? 256) || inputs then MODE_MX
  else if v_oe v then MODE_OP else if v_ie v then MODE_IP else MODE_NO.
Definition pull_of (v : view) : pull :=
  match v_wpu v, v_wpd v with true, true => PULL_BOTH | true, false => PULL_UP | false, true => PULL_DOWN | false, false => PULL_NONE end.
Definition reads_pin (in_sig : Z -> option Z) (pin : Z) : bool := existsb (fun sig => bool_decide (in_sig sig = Some pin)) (seqZ 0 256).
(** The report of the tool agrees with a state of the pin. *)
Definition shows (st : pin_state) (v : view) (inputs : bool) : Prop :=
  ps_mode st = mode_of v inputs /\ ps_pull st = pull_of v /\ ps_out st = b2z (v_out v) /\
  ps_drive_ma st = nth (Z.to_nat (v_drv v)) drive_ma 0 /\ ps_open_drain st = v_od v /\
  ps_int_type st = v_type v /\ ps_int_lines st = v_lines v /\ ps_int_pending st = b2z (v_pending v).

Lemma gpio_bit_of p pin r0 r1 : bank_of pin r0 r1 < 0xa4 -> gpio_bit p pin r0 r1 = b2z (bit_of p pin r0 r1).
Proof.
  intros H. unfold gpio_bit, gpio_rd, bit_of. change (bank pin r0 r1) with (bank_of pin r0 r1).
  assert (get_gpio p (bank_of pin r0 r1) = gpio p (bank_of pin r0 r1)) as ->.
  { unfold get_gpio. destruct (Z.geb_spec (bank_of pin r0 r1) 0xa4); [lia|done]. }
  change 1 with (Z.ones 1). rewrite Z.land_ones by lia. change (2 ^ 1) with 2.
  assert (0 <= pin mod 32) by (apply Z.mod_pos_bound; lia). rewrite <- Z.bit0_mod, Z.shiftr_spec by lia. by rewrite Z.add_0_l.
Qed.
Lemma b2z_b2z (b : bool) : nz (b2z b) = b.
Proof. by destruct b. Qed.

Section shows.
Context (sig_in_names sig_out_names : Z -> option string).
Lemma input_signals_found p pin sigs : forall buf len found, Forall (fun s => 0 <= s) sigs ->
  snd (input_signals sig_in_names p pin sigs buf len found) = found || existsb (fun sig => bool_decide (in_sel p sig = Some pin)) sigs.
Proof.
  induction sigs as [|s sigs IH]; intros buf len found H; cbn [input_signals existsb]; [by rewrite orb_false_r|].
  apply Forall_cons_1 in H as [Hs H]. unfold gpio_rd. rewrite get_plain by (unfold GPIO_IN_SEL; lia).
  unfold in_sel, IN_SEL_MATRIX, IN_SEL_PIN. set (v := gpio p (GPIO_IN_SEL s)).
  destruct (nz (Z.land v (BIT 9))); cbn [andb].
  - destruct (Z.eqb_spec (Z.land v 255) pin) as [->|N]; rewrite IH by done.
    + rewrite bool_decide_true by done. cbn [orb]. by rewrite orb_true_r.
    + rewrite bool_decide_false by congruence. done.
  - by rewrite IH.
Qed.
Lemma pin_get_shows p pin : pin_ok pin ->
  shows (pin_get sig_in_names sig_out_names p pin) (view_of p pin) (reads_pin (in_sel p) pin).
Proof.
  intros Hp. assert (B : forall r0 r1, r0 < 0x8c -> r1 < 0x8c -> gpio_bit p pin r0 r1 = b2z (bit_of p pin r0 r1)).
  { intros r0 r1 H0 H1. apply gpio_bit_of. pose proof (bank_low pin r0 r1 H0 H1). lia. }
  unfold pin_ok, NPINS in Hp. unfold pin_get. rewrite !B by done. unfold gpio_rd. rewrite !get_plain by (unfold GPIO_PIN; lia).
  rewrite b2z_b2z. unfold shows. set (X := if negb (_ =? FUNC_GPIO) then _ else _ : mode * string).
  assert (M : fst X = mode_of (view_of p pin) (reads_pin (in_sel p) pin)).
  { subst X. unfold mode_of. cbn [v_func v_sel v_oe v_ie view_of]. unfold FUNC_GPIO, NFUNCS.
    change (Z.shiftr (Z.land (iomux p pin) IOMUX_MCU_MASK) IOMUX_MCU_SHIFT) with (FIELD_GET IOMUX_MCU_MASK (iomux p pin)).
    destruct (negb (FIELD_GET IOMUX_MCU_MASK (iomux p pin) =? 1)); [done|].
    unfold matrix_signals. unfold gpio_rd. rewrite get_plain by (unfold GPIO_OUT_SEL; lia). unfold SIG_GPIO_OUT.
    set (o := Z.land (gpio p (GPIO_OUT_SEL pin)) OUT_SEL_SIG).
    set (Y := if o =? 256 then _ else _ : string * bool). assert (snd Y = negb (o =? 256)) as EY by (subst Y; by destruct (o =? 256)).
    destruct Y as [buf found]. cbn [snd] in EY. subst found.
    pose proof (input_signals_found p pin (seqZ 0 NSIGS) buf 128 (negb (o =? 256))) as I.
    destruct (input_signals _ _ _ _ _ _ _) as [f b]. cbn [snd] in I.
    rewrite I. 2: { apply Forall_forall. intros s Hs. first [apply elem_of_seqZ in Hs|apply list_elem_of_In in Hs; apply elem_of_seqZ in Hs]. lia. }
    unfold reads_pin, NSIGS. destruct (_ || _); [done|]. by destruct (bit_of p pin GPIO_ENABLE GPIO_ENABLE1), (nz (Z.land (iomux p pin) IOMUX_IE)). }
  destruct X as [m f]. cbn [fst] in M. split; [done|]. done.
Qed.
End shows.

Lemma reads_pin_ext f g pin : (forall sig, 0 <= sig < 256 -> f sig = g sig) -> reads_pin f pin = reads_pin g pin.
Proof.
  intros E. unfold reads_pin. apply eq_true_iff_eq. rewrite !existsb_exists.
  split; intros (sig & Hs & B); exists sig; (split; [done|]); apply list_elem_of_In, elem_of_seqZ in Hs; [rewrite <- E by lia|rewrite E by lia]; done.
Qed.

(** After any sequence of operations of the kernel's driver, the tool reports
    for every pin the state that the specification of the driver has: the function and whether the matrix
    or the GPIO registers have the pin, pulls, level, strength, open drain, and the
    interrupt's type, lines and pending bit. *)
Theorem tool_shows_driver (sig_in_names sig_out_names : Z -> option string) (l : list (Z * op)) (p : pins) (pin : Z)
    (H : Forall (fun x => pin_ok (fst x)) l) (Hp : pin_ok pin) :
  let s := snd (spec_ops l (spec_of p)) in
  shows (pin_get sig_in_names sig_out_names (snd (run_ops l p)) pin) (s_view s pin) (reads_pin (s_in s) pin).
Proof.
  cbn zeta. destruct (run_agrees l p (spec_of p) H) as [_ (A1 & A2 & _)]; [done|].
  pose proof (pin_get_shows sig_in_names sig_out_names (snd (run_ops l p)) pin Hp) as S. rewrite (A1 pin Hp) in S.
  assert (reads_pin (in_sel (snd (run_ops l p))) pin = reads_pin (s_in (snd (spec_ops l (spec_of p)))) pin) as <-; [|done].
  apply reads_pin_ext. intros sig Hs. by apply A2.
Qed.
Lemma tool_shows_driver_witness :
  let l := [(47, RequestEnable); (47, DirectionOutput 1); (46, Mux 0xa44)] in
  let p := Pins (fun _ => 0x800) (fun _ => 0) 0 in
  let s := snd (spec_ops l (spec_of p)) in
  shows (pin_get (fun _ => None) (fun _ => None) (snd (run_ops l p)) 47) (s_view s 47) (reads_pin (s_in s) 47).
Proof. apply tool_shows_driver; [by repeat constructor|done]. Defined.

(** * What the set command does *)

Definition may_set (b : board) (force : bool) (v : view) (gpio : Z) : bool :=
  negb (pin_is_flash gpio) && have_lines b && negb (Z.testbit (reserved b) gpio) && (negb (Z.testbit (used b) gpio) || force) && (v_lines v =? 0).
(** The state of the pin after it. *)
Definition drive_view (d : option bool) (v : view) : view := match d with Some h => view_w1 FOut h v | None => v end.
Definition mode_view (m : option mode) (v : view) : view :=
  match m with
  | None => v
  | Some (MODE_A n) => View n true (v_wpu v) (v_wpd v) (v_drv v) (v_od v) (v_type v) (v_lines v) (v_sel v) (v_oe v) (v_out v) (v_pending v)
  | Some m => View 1 (match m with MODE_NO => false | _ => true end) (v_wpu v) (v_wpd v) (v_drv v) (v_od v) (v_type v) (v_lines v)
                256 (mode_is_op m) (v_out v) (v_pending v)
  end.
Definition pull_view (x : option pull) (v : view) : view :=
  match x with
  | None => v
  | Some x => View (v_func v) (v_ie v) (pull_up x) (pull_down x) (v_drv v) (v_od v) (v_type v) (v_lines v) (v_sel v) (v_oe v) (v_out v) (v_pending v)
  end.
Definition set_view (m : option mode) (d : option bool) (x : option pull) (v : view) : view := pull_view x (mode_view m (drive_view d v)).
(** What [set] takes for a mode. *)
Definition settable (m : option mode) : Prop :=
  match m with Some (MODE_A n) => 0 <= n < 5 | Some MODE_MX => False | _ => True end.
(** The two backends write the same registers. *)
Lemma backends_agree f hi mask (set : bool) p : 0 <= mask < 4294967296 ->
  let x := live_w1 (fam_reg f hi) mask set p in
  let y := snap_w1 (fam_reg f hi) mask set p in
  forall off, gpio (final x) off = gpio (final y) off /\ iomux (final x) off = iomux (final y) off /\ cnnt (final x) = cnnt (final y).
Proof.
  intros Hm. cbn zeta. intros off. unfold live_w1, gpio_write, snap_w1, write, final. cbn [fst snd gpio iomux cnnt].
  rewrite u32_small by done. split; [|done]. by destruct f, hi, set.
Qed.
Lemma w1_run f pin set p : let p' := Pins (iomux p) (put_gpio (w1_off f pin set) (u32 (BIT (pin mod 32))) (gpio p)) (cnnt p) in
  gpio_w1 pin (fam0 f) (fam1 f) set p = (tt, p', [Wrote p']).
Proof. done. Qed.
Lemma iomux_update_run pin clr set p : let p' := Pins (upd (iomux p) pin (u32 (rmw (iomux p pin) clr set))) (gpio p) (cnnt p) in
  iomux_update pin clr set p = (tt, p', [Wrote p']).
Proof. done. Qed.
Definition same_pins (p' p : pins) : Prop := iomux p' = iomux p /\ gpio p' = gpio p.
Lemma cnnt_run pin func p : exists p' l, cnnt_select pin func p = (tt, p', l) /\ same_pins p' p /\ Forall (fun p' => same_pins p' p) (states (tt, p', l)).
Proof.
  unfold cnnt_select, cnnt_pads. cbn [cnnt_loop]. destruct p as [a b c].
  destruct ((pin >=? 13) && _ && _), ((pin >=? 20) && _ && _); do 2 eexists; (split; [done|]); (split; [done|]); by repeat constructor.
Qed.
(** A part of the command that leaves the level of the pin as it is: what it does to the
    pins, the input signals, and the states the registers go through. *)
Definition sel_kept {A} (x : A * pins * list ev) (p : pins) : Prop := forall s, 0 <= s < 256 -> in_sel (final x) s = in_sel p s.
Definition steady (pin : Z) (p p' : pins) : Prop :=
  v_out (view_of p' pin) = v_out (view_of p pin) /\ forall q, pin_ok q -> q <> pin -> view_of p' q = view_of p q.
Definition quiet {A} (x : A * pins * list ev) (pin : Z) (f : view -> view) (p : pins) : Prop :=
  fits x pin f p /\ sel_kept x p /\ steady pin p (final x) /\ Forall (steady pin p) (states x).
Lemma steady_trans pin p p1 p2 : steady pin p p1 -> steady pin p1 p2 -> steady pin p p2.
Proof. intros [A1 B1] [A2 B2]. split; [by rewrite A2|]. intros q Hq N. by rewrite B2, B1. Qed.
Lemma same_view p' p q : same_pins p' p -> view_of p' q = view_of p q.
Proof. intros [E1 E2]. unfold view_of, bit_of. by rewrite E1, E2. Qed.
Lemma same_sel p' p s : same_pins p' p -> in_sel p' s = in_sel p s.
Proof. intros [_ E]. unfold in_sel. by rewrite E. Qed.
Lemma quiet_same {A} (r : A) p' p l pin : same_pins p' p -> Forall (fun p' => same_pins p' p) (states (r, p', l)) -> quiet (r, p', l) pin (fun v => v) p.
Proof.
  intros S F. split; [|split; [|split]].
  - intros q _. unfold final. cbn [fst snd]. rewrite (same_view p' p q S). by destruct (q =? pin).
  - intros s _. apply (same_sel p' p s S).
  - unfold steady, final. cbn [fst snd]. rewrite (same_view p' p pin S). split; [done|]. intros q _ _. apply (same_view p' p q S).
  - refine (Forall_impl _ _ F). intros p2 S2. unfold steady. rewrite (same_view p2 p pin S2). split; [done|]. intros q _ _. apply (same_view p2 p q S2).
Qed.
Lemma quiet_ret {A} (r : A) pin p : quiet (r, p, []) pin (fun v => v) p.
Proof. by apply quiet_same. Qed.
Lemma quiet_seq {B} (m : M unit) (k : M B) pin f g p :
  quiet (m p) pin f p -> (forall p1, quiet (k p1) pin g p1) -> quiet ((m;; k) p) pin (fun v => g (f v)) p.
Proof.
  intros (F1 & K1 & O1 & S1) H. destruct (m p) as [[[] p1] l1] eqn:E. rewrite (M_bind_run _ _ _ _ _ _ E).
  unfold final in *. cbn [fst snd] in *. destruct (H p1) as (F2 & K2 & O2 & S2). destruct (k p1) as [[x p2] l2]. unfold final in *. cbn [fst snd] in *.
  split; [|split; [|split]].
  - refine (fits_seq (tt, p1, l1) (x, p2, l1 ++ l2) pin f g p F1 _). exact F2.
  - intros s Hs. unfold final. cbn [fst snd]. unfold sel_kept, final in K1, K2. cbn [fst snd] in K1, K2. by rewrite K2, K1.
  - unfold final in *. cbn [fst snd] in *. by apply (steady_trans pin p p1).
  - unfold states in *. cbn [snd] in *. rewrite omap_app. apply Forall_app. split; [done|].
    refine (Forall_impl _ _ S2). intros p3 E3. by apply (steady_trans pin p p1).
Qed.
Lemma quiet_write p' pin f p : fits (tt, p', [Wrote p']) pin f p -> sel_kept (tt, p', [Wrote p']) p -> pin_ok pin ->
  (forall v, v_out (f v) = v_out v) -> quiet (tt, p', [Wrote p']) pin f p.
Proof.
  intros F K Hp O. assert (steady pin p p') as S.
  { unfold fits, final in F. cbn [fst snd] in F. split; [by rewrite (F pin Hp), Z.eqb_refl, O|].
    intros q Hq N. by rewrite (F q Hq), (proj2 (Z.eqb_neq q pin)). }
  split; [done|]. split; [done|]. split; [done|]. by apply Forall_cons_2.
Qed.
Lemma cnnt_quiet pin func p : quiet (cnnt_select pin func p) pin (fun v => v) p.
Proof. destruct (cnnt_run pin func p) as (p' & l & E & S & F). rewrite E. by apply quiet_same. Qed.
Lemma iomux_quiet pin clr set f p : pin_ok pin -> (forall v, v_out (f v) = v_out v) ->
  (forall p, view_m (u32 (rmw (iomux p pin) clr set)) (view_of p pin) = f (view_of p pin)) -> quiet (iomux_update pin clr set p) pin f p.
Proof.
  intros Hp O V. rewrite iomux_update_run. apply quiet_write; [|done..|done]. by apply iomux_fits.
Qed.
Lemma mode_a_set n x v : 0 <= n < 5 ->
  view_m (u32 (rmw x IOMUX_MCU_MASK (Z.lor (Z.shiftl n IOMUX_MCU_SHIFT) IOMUX_IE)))
    (View (FIELD_GET IOMUX_MCU_MASK x) (nz (Z.land x IOMUX_IE)) (nz (Z.land x IOMUX_WPU)) (nz (Z.land x IOMUX_WPD)) (FIELD_GET IOMUX_DRV_MASK x)
      (v_od v) (v_type v) (v_lines v) (v_sel v) (v_oe v) (v_out v) (v_pending v)) =
  View n true (nz (Z.land x IOMUX_WPU)) (nz (Z.land x IOMUX_WPD)) (FIELD_GET IOMUX_DRV_MASK x) (v_od v) (v_type v) (v_lines v) (v_sel v) (v_oe v) (v_out v) (v_pending v).
Proof.
  intros Hn. unfold view_m. cbn [v_od v_type v_lines v_sel v_oe v_out v_pending].
  assert (n = 0 \/ n = 1 \/ n = 2 \/ n = 3 \/ n = 4) as Hc by lia. clear Hn.
  repeat destruct Hc as [->|Hc]; try subst n; f_equal; fields; try done; rewrite rmw_or by done; rewrite nz_lor; apply orb_true_r.
Qed.
Lemma set_a_ok pin n p : pin_ok pin -> 0 <= n < 5 -> quiet (pin_set_mode pin (MODE_A n) p) pin (mode_view (Some (MODE_A n))) p.
Proof.
  intros Hp Hn. cbn [pin_set_mode]. refine (quiet_seq _ _ pin (fun v => v) (mode_view (Some (MODE_A n))) p (cnnt_quiet pin n p) _). intros p1.
  apply iomux_quiet; [done..|]. intros p2. exact (mode_a_set n (iomux p2 pin) (view_of p2 pin) Hn).
Qed.
Lemma gpio_mode_set (op no : bool) x v :
  let set := Z.lor (Z.shiftl FUNC_GPIO IOMUX_MCU_SHIFT) (if no then 0 else IOMUX_IE) in
  view_m (u32 (rmw x (Z.lor IOMUX_MCU_MASK IOMUX_IE) set))
    (View (FIELD_GET IOMUX_MCU_MASK x) (nz (Z.land x IOMUX_IE)) (nz (Z.land x IOMUX_WPU)) (nz (Z.land x IOMUX_WPD)) (FIELD_GET IOMUX_DRV_MASK x)
      (v_od v) (v_type v) (v_lines v) (v_sel v) (v_oe v) (v_out v) (v_pending v)) =
  View 1 (negb no) (nz (Z.land x IOMUX_WPU)) (nz (Z.land x IOMUX_WPD)) (FIELD_GET IOMUX_DRV_MASK x) (v_od v) (v_type v) (v_lines v) (v_sel v) (v_oe v) (v_out v) (v_pending v).
Proof. cbn zeta. unfold view_m. cbn [v_od v_type v_lines v_sel v_oe v_out v_pending]. destruct no; f_equal; by fields. Qed.
Lemma sel_quiet pin p : pin_ok pin -> quiet (gpio_wr (GPIO_OUT_SEL pin) SIG_GPIO_OUT p) pin (view_sel 256) p.
Proof.
  intros Hp. unfold gpio_wr. rewrite gpio_write_run. fold (out_sel_pins p pin SIG_GPIO_OUT).
  apply quiet_write; [by apply out_sel_fits| |done|done]. intros s Hs. unfold pin_ok, NPINS in Hp. apply in_sel_put; unfold GPIO_OUT_SEL, GPIO_IN_SEL; lia.
Qed.
Lemma enable_quiet pin set p : pin_ok pin -> quiet (gpio_w1 pin GPIO_ENABLE GPIO_ENABLE1 set p) pin (view_w1 FEnable set) p.
Proof.
  intros Hp. pose proof (w1_run FEnable pin set p) as E. cbn [fam0 fam1] in E. rewrite E.
  apply quiet_write; [by apply (w1_fits pin FEnable)| |done|done]. intros s Hs. apply in_sel_w1. lia.
Qed.
Lemma quiet_ext {A} (x : A * pins * list ev) pin f g p : (forall v, f v = g v) -> quiet x pin f p -> quiet x pin g p.
Proof. intros E (F & R). split; [by eapply fits_ext|done]. Qed.
Definition pad_view (no : bool) (v : view) : view :=
  View 1 (negb no) (v_wpu v) (v_wpd v) (v_drv v) (v_od v) (v_type v) (v_lines v) (v_sel v) (v_oe v) (v_out v) (v_pending v).
Lemma gpio_mode_ok pin (op no : bool) p : pin_ok pin ->
  quiet ((gpio_wr (GPIO_OUT_SEL pin) SIG_GPIO_OUT;;
    gpio_w1 pin GPIO_ENABLE GPIO_ENABLE1 op;;
    iomux_update pin (Z.lor IOMUX_MCU_MASK IOMUX_IE) (Z.lor (Z.shiftl FUNC_GPIO IOMUX_MCU_SHIFT) (if no then 0 else IOMUX_IE))) p)
    pin (fun v => pad_view no (view_w1 FEnable op (view_sel 256 v))) p.
Proof.
  intros Hp. refine (quiet_seq _ _ pin (view_sel 256) (fun v => pad_view no (view_w1 FEnable op v)) p (sel_quiet pin p Hp) _). intros p1.
  refine (quiet_seq _ _ pin (view_w1 FEnable op) (pad_view no) p1 (enable_quiet pin op p1 Hp) _). intros p2.
  apply iomux_quiet; [done..|]. intros p3. exact (gpio_mode_set op no (iomux p3 pin) (view_of p3 pin)).
Qed.
Lemma set_mode_ok pin m p : pin_ok pin -> settable (Some m) -> quiet (pin_set_mode pin m p) pin (mode_view (Some m)) p.
Proof.
  intros Hp Hm. destruct m as [n| | | |]; [by apply set_a_ok|..|done].
  - eapply quiet_ext; [|by apply (gpio_mode_ok pin false false)]. by intros [].
  - eapply quiet_ext; [|by apply (gpio_mode_ok pin true false)]. by intros [].
  - eapply quiet_ext; [|by apply (gpio_mode_ok pin false true)]. by intros [].
Qed.
Lemma pull_set x w v :
  view_m (u32 (rmw w (Z.lor IOMUX_WPU IOMUX_WPD) (Z.lor (if pull_up x then IOMUX_WPU else 0) (if pull_down x then IOMUX_WPD else 0))))
    (View (FIELD_GET IOMUX_MCU_MASK w) (nz (Z.land w IOMUX_IE)) (nz (Z.land w IOMUX_WPU)) (nz (Z.land w IOMUX_WPD)) (FIELD_GET IOMUX_DRV_MASK w)
      (v_od v) (v_type v) (v_lines v) (v_sel v) (v_oe v) (v_out v) (v_pending v)) =
  View (FIELD_GET IOMUX_MCU_MASK w) (nz (Z.land w IOMUX_IE)) (pull_up x) (pull_down x) (FIELD_GET IOMUX_DRV_MASK w)
    (v_od v) (v_type v) (v_lines v) (v_sel v) (v_oe v) (v_out v) (v_pending v).
Proof. unfold view_m. cbn [v_od v_type v_lines v_sel v_oe v_out v_pending]. destruct x; f_equal; by fields. Qed.
Lemma set_pull_ok pin x p : pin_ok pin -> quiet (pin_set_pull pin x p) pin (pull_view (Some x)) p.
Proof.
  intros Hp. apply iomux_quiet; [done..|]. intros p2. exact (pull_set x (iomux p2 pin) (view_of p2 pin)).
Qed.

Lemma refusal_spec sig_in_names sig_out_names b force p gpio : pin_ok gpio ->
  may_set b force (view_of p gpio) gpio =
    match set_refusal sig_in_names sig_out_names b force p gpio with None => true | Some _ => false end.
Proof.
  intros Hp. destruct (pin_get_shows sig_in_names sig_out_names p gpio Hp) as (_ & _ & _ & _ & _ & _ & L & _).
  unfold may_set, set_refusal. rewrite L. unfold nz.
  destruct (pin_is_flash gpio), (have_lines b), (Z.testbit (reserved b) gpio), (Z.testbit (used b) gpio), force, (v_lines (view_of p gpio) =? 0); done.
Qed.
Lemma mode_is_op_spec m : mode_is_op m = true <-> m = MODE_OP.
Proof. by destruct m. Qed.
Definition set_rest (gpio : Z) (m : option mode) (x : option pull) : M set_answer :=
  (match m with Some m => pin_set_mode gpio m | None => mret tt end);;
  (match x with Some x => pin_set_pull gpio x | None => mret tt end);;
  mret (Done (pin_is_strapping gpio)).
Lemma result_seq {B} (m : M unit) (k : M B) p : result ((m;; k) p) = result (k (final (m p))).
Proof. unfold mbind, M_bind, result, final. destruct (m p) as [[[] p1] l1]. cbn [fst snd]. by destruct (k p1) as [[? ?] ?]. Qed.
Lemma tail_ok gpio m x p : pin_ok gpio -> settable m ->
  exists p' l, set_rest gpio m x p = (Done (pin_is_strapping gpio), p', l) /\
    quiet (Done (pin_is_strapping gpio), p', l) gpio (set_view m None x) p.
Proof.
  intros Hp Hm. assert (result (set_rest gpio m x p) = Done (pin_is_strapping gpio)) as R by (unfold set_rest; by rewrite !result_seq).
  assert (quiet (set_rest gpio m x p) gpio (set_view m None x) p) as Q.
  { refine (quiet_seq _ _ gpio (mode_view m) (pull_view x) p _ _).
    - destruct m as [m|]; [by apply set_mode_ok|]. apply (quiet_ret tt).
    - intros p1. refine (quiet_seq _ _ gpio (pull_view x) (fun v => v) p1 _ _).
      + destruct x as [x|]; [by apply set_pull_ok|]. apply (quiet_ret tt).
      + intros p2. apply quiet_ret. }
  destruct (set_rest gpio m x p) as [[r p'] l]. unfold result in R. cbn [fst] in R. subst r. by exists p', l.
Qed.
Lemma out_fits gpio h p : pin_ok gpio ->
  exists p', pin_set_out gpio h p = (tt, p', [Wrote p']) /\ fits (tt, p', [Wrote p']) gpio (view_w1 FOut h) p /\ sel_kept (tt, p', [Wrote p']) p.
Proof.
  intros Hp. eexists. split; [apply (w1_run FOut gpio h p)|]. split; [by apply w1_fits|]. intros s Hs. apply (in_sel_w1 p FOut). lia.
Qed.
Lemma read_bind_run {A B} (f : pins -> A) (k : A -> M B) p : (x ← read f; k x) p = k (f p) p.
Proof. unfold mbind, M_bind. cbn [read]. by destruct (k (f p) p) as [[? ?] ?]. Qed.
Lemma set_run sig_in_names sig_out_names b force gpio m d x p : pin_ok gpio ->
  do_gpio_set sig_in_names sig_out_names b force gpio m d x p =
    match set_refusal sig_in_names sig_out_names b force p gpio with
    | Some r => (Refused r, p, [])
    | None =>
        if (match d with Some _ => true | None => false end) && negb (mode_is_op (default (mode_of (view_of p gpio) (reads_pin (in_sel p) gpio)) m))
        then (NotOutput, p, [])
        else
          ((match d with Some h => pin_set_out gpio h | None => mret tt end);; set_rest gpio m x) p
    end.
Proof.
  intros Hp. destruct (pin_get_shows sig_in_names sig_out_names p gpio Hp) as [<- _]. unfold pin_ok in Hp.
  unfold do_gpio_set. rewrite (proj2 (Z.eqb_neq gpio (-1))), (proj2 (Z.ltb_ge gpio 0)) by lia.
  rewrite read_bind_run.
  destruct (set_refusal _ _ b force p gpio) as [why|]; [done|].
  rewrite read_bind_run.
  by destruct (_ && _).
Qed.
Lemma set_view_out m d x v : v_out (set_view m d x v) = match d with Some h => h | None => v_out v end.
Proof. destruct m as [[]|], d, x; try done. Qed.
(** Whether set changes a pin. *)
Definition set_takes (b : board) (force : bool) (m : option mode) (d : option bool) (p : pins) (gpio : Z) : bool :=
  may_set b force (view_of p gpio) gpio &&
  match d with None => true | Some _ => mode_is_op (default (mode_of (view_of p gpio) (reads_pin (in_sel p) gpio)) m) end.
(** A state on the way: the pin drives at the level that was asked, unless it drove before, and the others are as they were. *)
Definition set_clean (gpio : Z) (out : bool) (p p' : pins) : Prop :=
  (v_oe (view_of p' gpio) = true -> v_oe (view_of p gpio) = true \/ v_out (view_of p' gpio) = out) /\
  forall q, pin_ok q -> q <> gpio -> view_of p' q = view_of p q.
Lemma set_done sig_in_names sig_out_names b force gpio m d x p : pin_ok gpio -> settable m -> set_takes b force m d p gpio = true ->
  exists p' l, do_gpio_set sig_in_names sig_out_names b force gpio m d x p = (Done (pin_is_strapping gpio), p', l) /\
    fits (tt, p', l) gpio (set_view m d x) p /\ sel_kept (tt, p', l) p /\
    Forall (set_clean gpio (v_out (set_view m d x (view_of p gpio))) p) (states (tt, p', l)).
Proof.
  intros Hg Hm T. unfold set_takes in T. apply andb_true_iff in T as [T1 T2]. rewrite set_run by done.
  rewrite (refusal_spec sig_in_names sig_out_names) in T1 by done. destruct (set_refusal _ _ b force p gpio) as [why|]; [done|].
  rewrite set_view_out. destruct d as [h|]; cbn [andb].
  - rewrite T2. cbn [negb]. destruct (out_fits gpio h p Hg) as (p1 & E & F1 & K1). rewrite (M_bind_run _ _ _ _ _ _ E).
    destruct (tail_ok gpio m x p1 Hg Hm) as (p2 & l2 & -> & F2 & K2 & O2 & S2). do 2 eexists. split; [done|]. split; [|split].
    + exact (fits_seq (tt, p1, [Wrote p1]) (tt, p2, _ ++ l2) gpio (view_w1 FOut h) (set_view m None x) p F1 F2).
    + intros s Hs. unfold sel_kept, final in *. cbn [fst snd] in *. by rewrite K2, K1.
    + unfold fits, final in F1. cbn [fst snd] in F1. pose proof (F1 gpio Hg) as V1. rewrite Z.eqb_refl in V1.
      assert (forall q, pin_ok q -> q <> gpio -> view_of p1 q = view_of p q) as N1 by (intros q Hq N; by rewrite (F1 q Hq), (proj2 (Z.eqb_neq q gpio))).
      unfold states in *. cbn [snd] in *. rewrite omap_app. apply Forall_cons_2; [split; [rewrite V1; by left|done]|].
      refine (Forall_impl _ _ S2). intros p3 [E3 N3]. split; [by rewrite E3, V1; right|]. intros q Hq N. by rewrite N3, N1.
  - rewrite (M_bind_run _ _ _ _ _ _ (eq_refl : (mret tt : M unit) p = (tt, p, []))).
    destruct (tail_ok gpio m x p Hg Hm) as (p2 & l2 & -> & F2 & K2 & O2 & S2). do 2 eexists. split; [done|].
    split; [exact F2|]. split; [exact K2|]. refine (Forall_impl _ _ S2). intros p3 [E3 N3]. split; [by rewrite E3; right|done].
Qed.
Lemma set_left sig_in_names sig_out_names b force gpio m d x p : pin_ok gpio -> set_takes b force m d p gpio = false ->
  exists a, do_gpio_set sig_in_names sig_out_names b force gpio m d x p = (a, p, []) /\
    if may_set b force (view_of p gpio) gpio then a = NotOutput /\ d <> None /\ default (mode_of (view_of p gpio) (reads_pin (in_sel p) gpio)) m <> MODE_OP
    else exists why, a = Refused why.
Proof.
  intros Hg T. unfold set_takes in T. rewrite set_run by done. rewrite (refusal_spec sig_in_names sig_out_names) in * by done.
  destruct (set_refusal _ _ b force p gpio) as [why|]; [exists (Refused why); split; [done|by exists why]|]. cbn [andb] in T.
  destruct d as [h|]; [|done]. rewrite T. exists NotOutput. split; [done|]. split; [done|]. split; [done|]. intros E. by rewrite E in T.
Qed.

(** C36: what the set command does to the registers.  It refuses exactly
    the pins of the flash, those of a board whose lines are not known, the
    reserved ones, the used ones unless forced, and those with an interrupt; it
    writes nothing when it refuses, and nothing when a level is asked of a pin
    that is not to be an output.  Otherwise the state of the pin becomes what was
    asked, and every input signal keeps its own.  In no state that the registers go
    through is another pin changed, or does the pin drive another level than the last
    unless it already drove one before. *)
Theorem set_correct (sig_in_names sig_out_names : Z -> option string) (b : board) (force : bool) (gpio : Z) (m : option mode)
    (d : option bool) (x : option pull) (p : pins) (Hg : pin_ok gpio) (Hm : settable m) :
  let v := view_of p gpio in
  let r := do_gpio_set sig_in_names sig_out_names b force gpio m d x p in
  match result r with
  | Done _ => may_set b force v gpio = true /\
      (d = None \/ default (mode_of v (reads_pin (in_sel p) gpio)) m = MODE_OP) /\
      (forall q, pin_ok q -> view_of (final r) q = if q =? gpio then set_view m d x (view_of p q) else view_of p q) /\
      (forall s, 0 <= s < 256 -> in_sel (final r) s = in_sel p s) /\
      Forall (set_clean gpio (v_out (set_view m d x v)) p) (states r)
  | NotOutput => may_set b force v gpio = true /\ snd r = [] /\ final r = p /\ d <> None /\ default (mode_of v (reads_pin (in_sel p) gpio)) m <> MODE_OP
  | Refused _ => may_set b force v gpio = false /\ snd r = [] /\ final r = p
  | NoGpio | Label => False
  end.
Proof.
  cbn zeta. destruct (set_takes b force m d p gpio) eqn:T.
  - destruct (set_done sig_in_names sig_out_names b force gpio m d x p Hg Hm T) as (p' & l & -> & F & K & C).
    unfold set_takes in T. apply andb_true_iff in T as [T1 T2]. split; [done|]. split; [|done].
    destruct d; [right; by apply mode_is_op_spec|by left].
  - destruct (set_left sig_in_names sig_out_names b force gpio m d x p Hg T) as (a & -> & A).
    destruct (may_set _ _ _ _); [destruct A as (-> & D & O)|destruct A as [why ->]]; done.
Qed.
Lemma set_correct_witness :
  let b := Board EmptyString EmptyString (fun _ => EmptyString) (BIT 20) (BIT 21) true None in
  let p := Pins (fun _ => 0x800) (fun _ => 0) 0 in
  let r := do_gpio_set (fun _ => None) (fun _ => None) b false 47 (Some MODE_OP) (Some true) (Some PULL_UP) p in
  result r = Done false /\ view_of (final r) 47 = set_view (Some MODE_OP) (Some true) (Some PULL_UP) (view_of p 47).
Proof.
  assert (pin_ok 47) as H by (unfold pin_ok, NPINS; lia).
  split; [reflexivity|].
  pose proof (set_correct (fun _ => None) (fun _ => None) (Board EmptyString EmptyString (fun _ => EmptyString) (BIT 20) (BIT 21) true None) false 47
    (Some MODE_OP) (Some true) (Some PULL_UP) (Pins (fun _ => 0x800) (fun _ => 0) 0) H I) as C.
  exact (proj1 (proj2 (proj2 C)) 47 H).
Defined.

(** * Pads *)

Lemma pad_search_sound hdr gpio pads : forall pad, pad_search hdr gpio pads = pad -> pad <> -1 -> In pad pads /\ fst (pad_gpio hdr pad) = gpio.
Proof.
  induction pads as [|x pads IH]; cbn [pad_search]; intros pad E N; [congruence|].
  destruct (Z.eqb_spec (fst (pad_gpio hdr x)) gpio) as [G|G]; [subst; by split; [left|]|].
  destruct (IH pad E N). by split; [right|].
Qed.
Definition hdr_ok (hdr : list pad_range) : bool :=
  forallb (fun pad => let g := fst (pad_gpio hdr pad) in
    (-1 <=? g) && ((g <? 0) || (pin_exists g && negb (pin_is_flash g) && (gpio_pad hdr g =? pad)))) (seqZ 1 (header_npads hdr)).
Definition hdr_within (hdr : list pad_range) : bool := forallb (fun pr => (1 <=? pr_first pr) && (pr_last pr <=? header_npads hdr)) hdr.
Lemma headers_ok : forallb (fun h => hdr_ok (snd h) && hdr_within (snd h)) headers = true.
Proof. vm_compute. reflexivity. Qed.
Lemma pad_outside hdr pad l : (forall pr, In pr l -> 1 <= pr_first pr /\ pr_last pr <= header_npads hdr) ->
  ~ (1 <= pad <= header_npads hdr) -> pad_gpio l pad = (-2, None).
Proof.
  intros H N. induction l as [|pr l IH]; [done|]. cbn [pad_gpio].
  destruct (H pr) as [F L]; [by left|]. 
  assert ((pad <? pr_first pr) || (pad >? pr_last pr) = true) as ->. { apply orb_true_iff. rewrite Z.ltb_lt, Z.gtb_lt. lia. }
  apply IH. intros pr' I. apply H. by right.
Qed.

Lemma header_facts name hdr : board_header name = Some hdr ->
  (forall pr, In pr hdr -> 1 <= pr_first pr /\ pr_last pr <= header_npads hdr) /\
  forall pad, 1 <= pad <= header_npads hdr -> -1 <= fst (pad_gpio hdr pad) /\
    (0 <= fst (pad_gpio hdr pad) -> pin_exists (fst (pad_gpio hdr pad)) = true /\ pin_is_flash (fst (pad_gpio hdr pad)) = false /\
      gpio_pad hdr (fst (pad_gpio hdr pad)) = pad).
Proof.
  intros H. assert (exists n, In (n, hdr) headers) as [n I].
  { unfold board_header in H. destruct (List.find _ headers) as [[n r]|] eqn:F; [|done]. injection H as ->. apply find_some in F as [F _]. by exists n. }
  pose proof headers_ok as O. rewrite forallb_forall in O. apply O in I. cbn [snd] in I. apply andb_true_iff in I as [OK W].
  unfold hdr_ok in OK. rewrite forallb_forall in OK. unfold hdr_within in W. rewrite forallb_forall in W. split.
  { intros pr I. apply W in I. apply andb_true_iff in I. rewrite !Z.leb_le in I. lia. }
  intros pad R. assert (In pad (seqZ 1 (header_npads hdr))) as I by (apply list_elem_of_In, elem_of_seqZ; lia).
  apply OK in I. apply andb_true_iff in I as [I1 I2]. apply Z.leb_le in I1. split; [done|]. intros G.
  rewrite (proj2 (Z.ltb_ge _ 0)) in I2 by done. cbn [orb] in I2. apply andb_true_iff in I2 as [I2 I3]. apply andb_true_iff in I2 as [I2 I4].
  apply negb_true_iff in I4. apply Z.eqb_eq in I3. done.
Qed.

(** The pads of every header that the tool knows.  Exactly the numbers from
    1 to the count of the header are pads; a pad has a GPIO that exists and is not one of the
    flash, or it has none; and the pad that the tool shows for a GPIO is the one
    that leads back to it, so that no two pads have the same GPIO. *)
Theorem pads_roundtrip (name : string) (hdr : list pad_range) (pad : Z) (H : board_header name = Some hdr) :
  let g := fst (pad_gpio hdr pad) in
  (g <> -2 <-> 1 <= pad <= header_npads hdr) /\
  (0 <= g -> pin_exists g = true /\ pin_is_flash g = false /\ gpio_pad hdr g = pad) /\
  (forall gpio, gpio_pad hdr gpio = pad -> pad <> -1 -> g = gpio).
Proof.
  cbn zeta. destruct (header_facts name hdr H) as [W' B]. specialize (B pad).
  destruct (decide (1 <= pad <= header_npads hdr)) as [R|R].
  - destruct (B R) as [B1 B2]. split; [split; [done|lia]|]. split; [done|].
    intros gpio E N. by apply (pad_search_sound _ _ _ _ E N).
  - rewrite (pad_outside hdr pad hdr W' R). split; [split; [done|lia]|]. split; [cbn; lia|].
    intros gpio E N. destruct (pad_search_sound _ _ _ _ E N) as [I _]. apply list_elem_of_In, elem_of_seqZ in I. lia.
Qed.
Lemma pads_roundtrip_witness : gpio_pad j2 23 = 29 /\ 1 <= 29 <= header_npads j2.
Proof.
  pose proof (pads_roundtrip "esp,esp32s31-function-coreboard-1"%string j2 29 eq_refl) as (A & B & _).
  split; [by apply B|by apply A].
Defined.
