(* ===== verification/PinText.v ===== *)
(** The text of the pinctrl tool: the numbers that printf() and sscanf() write
    and read for it, the names of the lines (tools/pinctrl/board.c), and the list
    of GPIOs of the command line (tools/pinctrl/pinctrl.c).

    C does not say what %u stores for a number that has no place in an
    [unsigned int]: [overflow] gives it. *)

From Stdlib Require Import Ascii String.
From S2P Require Import Prelude Device PinRegs Pinctrl PinTool.

Open Scope Z_scope.

(** * Numbers *)

Definition chr (n : Z) : ascii := ascii_of_N (Z.to_N n).
Definition code (c : ascii) : Z := Z.of_N (N_of_ascii c).
Definition isspace (c : ascii) : bool := ((9 <=? code c) && (code c <=? 13)) || (code c =? 32).
Definition isdigit (c : ascii) : bool := (48 <=? code c) && (code c <=? 57).
(** "%u" of printf(), with 10 digits at most. *)
Fixpoint dec_loop (fuel : nat) (n : Z) (acc : string) : string :=
  match fuel with
  | O => acc
  | S fuel => let acc := String (chr (48 + n mod 10)) acc in if n <? 10 then acc else dec_loop fuel (n / 10) acc
  end.
Definition dec (n : Z) : string := dec_loop 10 n EmptyString.
(** The same for 64 bits. *)
Definition dec64 (n : Z) : string := dec_loop 20 n EmptyString.
(** "%u" of sscanf(): white space, a sign, digits; the number, and the characters that "%n" counts. *)
Fixpoint dec_val (acc : Z) (s : string) : Z :=
  match s with EmptyString => acc | String c s => dec_val (10 * acc + (code c - 48)) s end.
Definition sign_of (s : string) : string * string :=
  match s with
  | String c r => if Ascii.eqb c "-" || Ascii.eqb c "+" then (String c EmptyString, r) else (EmptyString, s)
  | EmptyString => (EmptyString, EmptyString)
  end.
Section scan.
Context (overflow : string -> Z).
Definition scan_u (s : string) : option (Z * Z) :=
  let '(space, s) := before (fun c => negb (isspace c)) s in
  let '(sign, s) := sign_of s in
  let '(digits, _) := before (fun c => negb (isdigit c)) s in
  match digits with
  | EmptyString => None
  | _ =>
      let v := dec_val 0 digits in
      Some (if v <? 4294967296 then u32 (if String.eqb sign "-" then - v else v) else overflow (sign ++ digits)%string,
            slen space + slen sign + slen digits)
  end.

(** * The names of the lines *)

Definition NAME_LEN : Z := 32.
Definition gpio_name (b : board) (gpio len : Z) : string :=
  if nz (slen (names b gpio)) then cut (names b gpio ++ "/GPIO" ++ dec gpio)%string len else cut ("GPIO" ++ dec gpio)%string len.
Fixpoint part_loop (fuel : nat) (p name : string) (len : Z) : bool :=
  match fuel, p with
  | O, _ | _, EmptyString => false
  | S fuel, _ =>
      let '(part, rest) := before (Ascii.eqb "/") p in
      ((slen part =? len) && String.eqb part (substring 0 (Z.to_nat len) name)) || part_loop fuel (tail1 rest) name len
  end.
Fixpoint name_loop (b : board) (gpios : list Z) (name : string) (len : Z) : Z :=
  match gpios with
  | [] => -1
  | gpio :: gpios =>
      let full := gpio_name b gpio (NAME_LEN + 16) in
      if pin_exists gpio && part_loop (String.length full) full name len then gpio else name_loop b gpios name len
  end.
Definition gpio_by_name (b : board) (name : string) (len : Z) : Z := name_loop b (seqZ 0 NPINS) name len.

(** * The list of GPIOs *)

Definition MAX_NUMS : Z := 128.
(** An item: its number, none, or the end of the program, for a name without a pad. *)
Inductive item := Item (n : Z) | NoItem | ItemExit (name : string).
Context (b : board) (pin_mode : bool).
(** [p] goes on after the [len] characters of the item. *)
Definition parse_item (p : string) (len max : Z) : item :=
  let named :=
    let num := gpio_by_name b p len in
    if num <? 0 then NoItem
    else if pin_mode then
      let pad := match hdr_of b with Some hdr => gpio_pad hdr num | None => -1 end in
      if pad <? 0 then ItemExit (substring 0 (Z.to_nat len) p) else Item pad
    else Item num in
  match scan_u p with
  | Some (num, used) => if used =? len then (if num <? max then Item num else NoItem) else named
  | None => named
  end.
Definition mask_set (mask : list Z) (n : Z) : option (list Z) :=
  w ← mask !! Z.to_nat (n / 64); Some (<[Z.to_nat (n / 64) := u64 (Z.lor w (Z.shiftl 1 (n mod 64)))]> mask).
Fixpoint mask_range (mask : list Z) (nums : list Z) : option (list Z) :=
  match nums with
  | [] => Some mask
  | n :: nums => mask ← mask_set mask n; mask_range mask nums
  end.
Definition stop_item (c : ascii) : bool := Ascii.eqb c "-" || Ascii.eqb c ",".
(** What parse_list() returns: NULL, or where it stopped; or it ended the program. *)
Inductive parsed := Parsed | StoppedAt (p : string) | ParseExit (name : string).
(** The end of a round, with the rest [p] of the list; [next] is the next round. *)
Definition finish (next : string -> list Z -> option (parsed * list Z)) (first last : Z) (p : string) (mask : list Z) : option (parsed * list Z) :=
  let '(first, last) := if last <? first then (last, first) else (first, last) in
  mask ← mask_range mask (seqZ first (last - first + 1));
  match p with
  | EmptyString => Some (Parsed, mask)
  | String c r => if Ascii.eqb c "," then next r mask else Some (StoppedAt p, mask)
  end.
Fixpoint parse_loop (fuel : nat) (p : string) (mask : list Z) (max : Z) : option (parsed * list Z) :=
  match fuel with
  | O => None
  | S fuel =>
      let next r mask := parse_loop fuel r mask max in
      let '(it, r) := before stop_item p in
      match parse_item p (slen it) max with
      | NoItem => Some (StoppedAt p, mask)
      | ItemExit name => Some (ParseExit name, mask)
      | Item first =>
          match r with
          | String c q =>
              if Ascii.eqb c "-" then
                let '(it, r) := before stop_item q in
                match parse_item q (slen it) max with
                | NoItem => Some (StoppedAt q, mask)
                | ItemExit name => Some (ParseExit name, mask)
                | Item last => finish next first last r mask
                end
              else finish next first first r mask
          | EmptyString => finish next first first r mask
          end
      end
  end.
Definition parse_list (p : string) (mask : list Z) (max : Z) : option (parsed * list Z) := parse_loop (S (String.length p)) p mask max.


(** * What a list is *)

(** The items of a list have no '-' and no ','; a range is one item, or two. *)
Definition plain (s : string) : Prop := before stop_item s = (s, EmptyString).
Definition range_text (x : string * option string) : string :=
  match snd x with None => fst x | Some last => (fst x ++ "-" ++ last)%string end.
Fixpoint list_text (l : list (string * option string)) : string :=
  match l with
  | [] => EmptyString
  | [x] => range_text x
  | x :: l => (range_text x ++ "," ++ list_text l)%string
  end.
Definition item_of (max : Z) (it : string) : item := parse_item it (slen it) max.
(** The GPIOs of a range, the lower one first. *)
Definition range_of (max : Z) (x : string * option string) (v : Z * Z) : Prop :=
  plain (fst x) /\
  match snd x with
  | None => item_of max (fst x) = Item (fst v) /\ snd v = fst v
  | Some last => plain last /\ exists n m, item_of max (fst x) = Item n /\ item_of max last = Item m /\ v = (Z.min n m, Z.max n m)
  end.
Definition is_list (max : Z) (p : string) (vs : list (Z * Z)) : Prop :=
  exists rs, rs <> [] /\ p = list_text rs /\ Forall2 (range_of max) rs vs.
Definition covers (n : Z) (v : Z * Z) : bool := (fst v <=? n) && (n <=? snd v).
Definition in_mask (mask : list Z) (n : Z) : bool := match mask !! Z.to_nat (n / 64) with Some w => Z.testbit w (n mod 64) | None => false end.

(** * Strings *)

Lemma before_app f a r : (forall c q, r = String c q -> f c = true) ->
  before f (a ++ r)%string = (fst (before f a), (snd (before f a) ++ r)%string).
Proof.
  intros H. induction a as [|c a IH]; cbn [String.append before].
  - destruct r as [|c q]; [done|]. cbn [before]. by rewrite (H c q).
  - destruct (f c); [done|]. rewrite IH. by destruct (before f a).
Qed.
Lemma before_eq f s : s = (fst (before f s) ++ snd (before f s))%string.
Proof. induction s as [|c s IH]; cbn [before]; [done|]. destruct (f c); [done|]. destruct (before f s). cbn [fst snd String.append] in *. by rewrite <- IH. Qed.
Lemma before_head f s c q : snd (before f s) = String c q -> f c = true.
Proof. induction s as [|x s IH]; cbn [before]; [done|]. destruct (f x) eqn:F; [by injection 1 as -> ->|]. by destruct (before f s). Qed.
Lemma before_idem f s : before f (fst (before f s)) = (fst (before f s), EmptyString).
Proof.
  induction s as [|c s IH]; [done|]. cbn [before]. destruct (f c) eqn:F; [done|]. destruct (before f s) as [x y]. cbn [fst] in *.
  cbn [before]. by rewrite F, IH.
Qed.
Lemma str_app_nil s : (s ++ "")%string = s.
Proof. induction s as [|c s IH]; cbn; [done|by rewrite IH]. Qed.
Lemma str_app_assoc s t r : ((s ++ t) ++ r = s ++ t ++ r)%string.
Proof. induction s as [|x s IH]; cbn; [done|by rewrite IH]. Qed.
Lemma slen_app s t : slen (s ++ t)%string = slen s + slen t.
Proof. unfold slen. induction s as [|x s IH]; cbn [String.append String.length]; lia. Qed.
Lemma slen_nonneg s : 0 <= slen s.
Proof. unfold slen. lia. Qed.
Lemma substring_app a r : substring 0 (String.length a) (a ++ r)%string = a.
Proof. induction a as [|c a IH]; cbn; [by destruct r|by rewrite IH]. Qed.
Lemma substring_all a : substring 0 (String.length a) a = a.
Proof. rewrite <- (str_app_nil a) at 2. apply substring_app. Qed.

(** The end of an item: the end of the list, or '-' or ','. *)
Definition ends_item (r : string) : Prop := forall c q, r = String c q -> stop_item c = true.
Lemma ends_item_cases r : ends_item r -> r = EmptyString \/ exists q, r = String "-" q \/ r = String "," q.
Proof.
  intros H. destruct r as [|c q]; [by left|right]. exists q. specialize (H c q eq_refl). unfold stop_item in H.
  apply orb_true_iff in H as [H|H]; apply Ascii.eqb_eq in H; subst; [by left|by right].
Qed.
Lemma ends_item_before f r : ends_item r -> f "-"%char = true -> f ","%char = true -> forall c q, r = String c q -> f c = true.
Proof. intros H A B c q ->. destruct (ends_item_cases _ H) as [|[? [E|E]]]; [done|by injection E as -> _..]. Qed.
Lemma plain_app it r : plain it -> ends_item r -> before stop_item (it ++ r)%string = (it, r).
Proof. intros P E. rewrite before_app by exact E. by rewrite P. Qed.
Lemma plain_head c s : plain (String c s) -> stop_item c = false /\ plain s.
Proof.
  unfold plain. cbn [before]. destruct (stop_item c); [by injection 1|]. destruct (before stop_item s). injection 1 as -> ->. done.
Qed.
Lemma plain_snd f s : plain s -> plain (snd (before f s)).
Proof.
  induction s as [|c s IH]; intros P; cbn [before]; [done|]. destruct (f c); [done|].
  apply plain_head in P as [_ P]. apply IH in P. by destruct (before f s).
Qed.

(** Scanning a number does not look past the end of the item, when it counts as many characters. *)
Lemma scan_head r : ends_item r -> match scan_u r with Some (_, used) => 0 < used | None => True end.
Proof.
  intros E. destruct (ends_item_cases r E) as [-> | [q [-> | ->]]]; [done| |done].
  unfold scan_u. cbn [before]. change (negb (isspace "-")) with true. cbv iota. cbn [sign_of]. change (Ascii.eqb "-" "-" || Ascii.eqb "-" "+") with true. cbv iota.
  destruct (before _ q) as [[|d ds] z]; [done|]. cbn [slen String.length]. pose proof (slen_nonneg (String d ds)). unfold slen in *. cbn [String.length] in *. lia.
Qed.
Lemma scan_cut it r : plain it -> ends_item r ->
  match scan_u (it ++ r)%string with Some (n, used) => if used =? slen it then Some n else None | None => None end =
  match scan_u it with Some (n, used) => if used =? slen it then Some n else None | None => None end.
Proof.
  intros P E. unfold scan_u. set (nonspace := fun c => negb (isspace c)). set (nondigit := fun c => negb (isdigit c)).
  rewrite before_app by (by apply ends_item_before). pose proof (before_eq nonspace it) as Q. pose proof (plain_snd nonspace it P) as P1.
  destruct (before nonspace it) as [sp s1]. cbn [fst snd] in *.
  destruct s1 as [|c s2].
  - (* nothing but spaces *)
    rewrite str_app_nil in Q. subst sp. cbn [String.append].
    change (match sign_of EmptyString with (sign, s) => _ end) with (@None (Z * Z)). cbv iota.
    pose proof (scan_head r E) as H. unfold scan_u in H. fold nondigit in H.
    assert (before nonspace r = (EmptyString, r)) as Br.
    { destruct r as [|d q]; [done|]. cbn [before]. by rewrite (ends_item_before nonspace _ E eq_refl eq_refl d q eq_refl). }
    fold nonspace in H. rewrite Br in H. destruct (sign_of r) as [sg r']. destruct (before nondigit r') as [[|d ds] z]; [done|].
    destruct (Z.eqb_spec (slen it + slen sg + slen (String d ds)) (slen it)); [|done]. cbn [slen String.length] in H. unfold slen in *. cbn [String.length Z.of_nat] in *. lia.
  - assert (sign_of (String c s2 ++ r)%string = (fst (sign_of (String c s2)), (snd (sign_of (String c s2)) ++ r)%string)) as ->.
    { cbn [sign_of String.append]. by destruct (_ || _). }
    destruct (sign_of (String c s2)) as [sg s]. cbn [fst snd]. rewrite before_app by (by apply ends_item_before).
    destruct (before nondigit s) as [ds z]. cbn [fst snd]. done.
Qed.
Lemma part_loop_cut fuel p it r : part_loop fuel p (it ++ r)%string (slen it) = part_loop fuel p it (slen it).
Proof.
  revert p. induction fuel as [|fuel IH]; intros p; [done|]. destruct p as [|c p]; [done|]. cbn [part_loop].
  destruct (before (Ascii.eqb "/") (String c p)) as [part rest]. rewrite IH. unfold slen. by rewrite !Nat2Z.id, substring_app, substring_all.
Qed.
Lemma name_loop_cut gpios it r : name_loop b gpios (it ++ r)%string (slen it) = name_loop b gpios it (slen it).
Proof. induction gpios as [|g gpios IH]; [done|]. cbn [name_loop]. by rewrite part_loop_cut, IH. Qed.
Lemma parse_item_cut it r max : plain it -> ends_item r -> parse_item (it ++ r)%string (slen it) max = item_of max it.
Proof.
  intros P E. unfold item_of, parse_item, gpio_by_name. rewrite name_loop_cut.
  assert (substring 0 (Z.to_nat (slen it)) (it ++ r)%string = substring 0 (Z.to_nat (slen it)) it) as -> by (unfold slen; by rewrite Nat2Z.id, substring_app, substring_all).
  set (named := if _ <? 0 then _ else _ : item).
  pose proof (scan_cut it r P E) as S. destruct (scan_u (it ++ r)%string) as [[n u]|], (scan_u it) as [[n' u']|]; [| | |done].
  - destruct (u =? slen it), (u' =? slen it); by simplify_eq.
  - by destruct (u =? slen it).
  - by destruct (u' =? slen it).
Qed.
(** * The list is parsed *)

Definition after_range (max : Z) (r : string) (vs : list (Z * Z)) : Prop :=
  (r = EmptyString /\ vs = []) \/ exists q, r = String "," q /\ is_list max q vs.
Lemma is_list_iff max p vs : is_list max p vs <->
  exists x r v vs', p = (range_text x ++ r)%string /\ range_of max x v /\ after_range max r vs' /\ vs = v :: vs'.
Proof.
  split.
  - intros (rs & N & -> & F). destruct F as [|x v rs vs' R F]; [done|]. destruct rs as [|y rs].
    + inversion F. subst. exists x, EmptyString, v, []. split; [by rewrite str_app_nil|]. split; [done|]. split; [by left|done].
    + exists x, (String "," (list_text (y :: rs))), v, vs'. split; [done|]. split; [done|]. split; [|done].
      right. eexists. split; [done|]. by exists (y :: rs).
  - intros (x & r & v & vs' & -> & R & [[-> ->] | (q & -> & rs & N & -> & F)] & ->).
    + exists [x]. split; [done|]. split; [by rewrite str_app_nil|]. constructor; [done|constructor].
    + exists (x :: rs). split; [done|]. split; [by destruct rs|]. by apply Forall2_cons_2.
Qed.
Lemma after_ends max r vs : after_range max r vs -> ends_item r.
Proof. intros [[-> _] | (q & -> & _)]; [done|]. by intros c s [= <- <-]. Qed.
(** The first item of a list, and what follows it. *)
Lemma is_list_inv max p vs : is_list max p vs ->
  let '(it, r) := before stop_item p in
  exists n, item_of max it = Item n /\
    ((exists vs', after_range max r vs' /\ vs = (n, n) :: vs') \/
     exists q, r = String "-" q /\
       let '(it, r) := before stop_item q in
       exists m vs', item_of max it = Item m /\ after_range max r vs' /\ vs = (Z.min n m, Z.max n m) :: vs').
Proof.
  rewrite is_list_iff. intros ([a l] & r & v & vs' & -> & [P R] & A & ->). pose proof (after_ends _ _ _ A) as E. cbn [fst snd] in *.
  destruct l as [l|]; cbn [range_text snd fst].
  - destruct R as (Pl & n & m & In & Im & ->). rewrite str_app_assoc. cbn [String.append]. rewrite plain_app by (done || by intros c s [= <- <-]).
    exists n. split; [done|]. right. eexists. split; [done|]. rewrite plain_app by done. by exists m, vs'.
  - destruct R as [In Ev]. rewrite plain_app by done. exists (fst v). split; [done|]. left. exists vs'. split; [done|]. destruct v as [v1 v2]. cbn in *. by subst.
Qed.

Definition limits (max : Z) : Prop :=
  max <= MAX_NUMS /\ (forall s, 0 <= overflow s) /\
  if pin_mode then exists hdr, hdr_of b = Some hdr /\ max = header_npads hdr + 1 else max = NPINS.
Lemma name_range gpios name len : Forall (fun g => 0 <= g < NPINS) gpios -> name_loop b gpios name len = -1 \/ 0 <= name_loop b gpios name len < NPINS.
Proof. induction 1 as [|g gpios G _ IH]; cbn [name_loop]; [by left|]. destruct (_ && _); [by right|done]. Qed.
Lemma scan_nonneg s n u : (forall s, 0 <= overflow s) -> scan_u s = Some (n, u) -> 0 <= n.
Proof.
  intros O. unfold scan_u. destruct (before _ s) as [sp s1]. destruct (sign_of s1) as [sg s2]. destruct (before _ s2) as [[|d ds] z]; [done|].
  generalize (dec_val 0 (String d ds)) (slen sp + slen sg + slen (String d ds)). intros v l. destruct (v <? 4294967296); intros [= <- <-]; [apply u32_range|apply O].
Qed.
Lemma item_range max it n : limits max -> item_of max it = Item n -> 0 <= n < MAX_NUMS.
Proof.
  intros (M & O & L). unfold item_of, parse_item. set (num := gpio_by_name b it (slen it)).
  assert (N : num = -1 \/ 0 <= num < NPINS).
  { apply name_range, Forall_forall. intros g G. first [apply elem_of_seqZ in G|apply list_elem_of_In, elem_of_seqZ in G]. lia. }
  set (named := if _ <? 0 then _ else _ : item).
  assert (H : named = Item n -> 0 <= n < MAX_NUMS).
  { subst named. destruct (Z.ltb_spec num 0); [done|]. unfold NPINS, MAX_NUMS in *. destruct pin_mode; [|intros [= <-]; lia].
    destruct L as (hdr & -> & ->). destruct (Z.ltb_spec (gpio_pad hdr num) 0); [done|]. intros [= <-].
    destruct (pad_search_sound hdr num (seqZ 1 (header_npads hdr)) (gpio_pad hdr num) eq_refl) as [I _]; [lia|]. apply list_elem_of_In, elem_of_seqZ in I. lia. }
  destruct (scan_u it) as [[v u]|] eqn:S; [|done]. destruct (u =? slen it); [|done]. destruct (Z.ltb_spec v max); [|done]. intros [= ->].
  split; [|lia]. by apply (scan_nonneg it n u).
Qed.

Lemma div_64 n : 0 <= n < MAX_NUMS -> Z.to_nat (n / 64) = if n <? 64 then 0%nat else 1%nat.
Proof. unfold MAX_NUMS. intros H. destruct (Z.ltb_spec n 64); [replace (n / 64) with 0 by zlia|replace (n / 64) with 1 by zlia]; done. Qed.
Lemma u64_testbit x i : 0 <= i < 64 -> Z.testbit (u64 x) i = Z.testbit x i.
Proof. intros H. unfold u64. change 18446744073709551616 with (2 ^ 64). apply Z.mod_pow2_bits_low. lia. Qed.
Lemma mask_set_ok mask n : length mask = 2%nat -> 0 <= n < MAX_NUMS ->
  exists mask', mask_set mask n = Some mask' /\ length mask' = 2%nat /\
    forall k, 0 <= k < MAX_NUMS -> in_mask mask' k = in_mask mask k || (k =? n).
Proof.
  intros Hl Hn. destruct mask as [|w0 [|w1 [|]]]; try done. unfold mask_set, in_mask. rewrite (div_64 n Hn).
  assert (Mn : 0 <= n mod 64 < 64) by (apply Z.mod_pos_bound; lia).
  destruct (Z.ltb_spec n 64); cbn; eexists; (split; [reflexivity|]); (split; [done|]); intros k Hk; rewrite (div_64 k Hk).
  all: assert (Mk : 0 <= k mod 64 < 64) by (apply Z.mod_pos_bound; lia).
  all: assert (Z.testbit (Z.shiftl 1 (n mod 64)) (k mod 64) = (k mod 64 =? n mod 64)) as B by (apply BIT_testbit; lia).
  all: destruct (Z.ltb_spec k 64); cbn; rewrite ?u64_testbit, ?Z.lor_spec, ?B by done; unfold MAX_NUMS in *.
  all: try (rewrite (proj2 (Z.eqb_neq k n)) by lia; by rewrite orb_false_r).
  all: f_equal; apply eq_true_iff_eq; rewrite !Z.eqb_eq; zlia.
Qed.
Lemma mask_range_ok nums : forall mask, length mask = 2%nat -> Forall (fun n => 0 <= n < MAX_NUMS) nums ->
  exists mask', mask_range mask nums = Some mask' /\ length mask' = 2%nat /\
    forall k, 0 <= k < MAX_NUMS -> in_mask mask' k = in_mask mask k || existsb (Z.eqb k) nums.
Proof.
  induction nums as [|n nums IH]; intros mask Hl H; cbn [mask_range existsb].
  - exists mask. split; [done|]. split; [done|]. intros k _. by rewrite orb_false_r.
  - apply Forall_cons_1 in H as [Hn H]. destruct (mask_set_ok mask n Hl Hn) as (m1 & -> & L1 & B1). cbn [mbind option_bind].
    destruct (IH m1 L1 H) as (m2 & -> & L2 & B2). exists m2. split; [done|]. split; [done|]. intros k Hk. by rewrite B2, B1, orb_assoc.
Qed.
Lemma covers_range k lo n : 0 <= n -> existsb (Z.eqb k) (seqZ lo n) = covers k (lo, lo + n - 1).
Proof.
  intros Hn. apply eq_true_iff_eq. unfold covers. cbn [fst snd]. rewrite existsb_exists, andb_true_iff, !Z.leb_le. split.
  - intros (x & I & E). apply Z.eqb_eq in E. subst x. apply list_elem_of_In, elem_of_seqZ in I. lia.
  - intros R. exists k. split; [apply list_elem_of_In, elem_of_seqZ; lia|by apply Z.eqb_eq].
Qed.
Definition parse_ok (max : Z) (p : string) (mask : list Z) (x : option (parsed * list Z)) : Prop :=
  match x with
  | None => False
  | Some (Parsed, m) => length m = 2%nat /\ exists vs, is_list max p vs /\
      forall n, 0 <= n < MAX_NUMS -> in_mask m n = in_mask mask n || existsb (covers n) vs
  | Some (StoppedAt q, _) => (exists k, p = (k ++ q)%string) /\ forall vs, ~ is_list max p vs
  | Some (ParseExit _, _) => forall vs, ~ is_list max p vs
  end.
Lemma finish_ok fuel p n m x r mask max : limits max ->
  (forall q mask, (String.length q < fuel)%nat -> length mask = 2%nat -> parse_ok max q mask (parse_loop fuel q mask max)) ->
  (String.length p <= fuel)%nat -> length mask = 2%nat -> 0 <= n < MAX_NUMS -> 0 <= m < MAX_NUMS ->
  p = (range_text x ++ r)%string -> range_of max x (Z.min n m, Z.max n m) ->
  (forall vs, is_list max p vs -> exists vs', after_range max r vs' /\ vs = (Z.min n m, Z.max n m) :: vs') ->
  parse_ok max p mask (finish (fun r mask => parse_loop fuel r mask max) n m r mask).
Proof.
  intros L IH Hp Hm Hn Hm' Ep Rx Inv. unfold finish.
  assert ((if m <? n then (m, n) else (n, m)) = (Z.min n m, Z.max n m)) as -> by (destruct (Z.ltb_spec m n); f_equal; lia).
  destruct (mask_range_ok (seqZ (Z.min n m) (Z.max n m - Z.min n m + 1)) mask Hm) as (m1 & -> & L1 & B1).
  { apply Forall_forall. intros k K. first [apply elem_of_seqZ in K|apply list_elem_of_In, elem_of_seqZ in K]. lia. }
  assert (B2 : forall k, 0 <= k < MAX_NUMS -> in_mask m1 k = in_mask mask k || covers k (Z.min n m, Z.max n m)).
  { intros k Hk. rewrite B1, covers_range by lia. do 3 f_equal. lia. }
  cbn [mbind option_bind]. destruct r as [|c q]; [|destruct (Ascii.eqb_spec c ",") as [->|Nc]].
  - split; [done|]. exists [(Z.min n m, Z.max n m)]. split.
    + apply is_list_iff. exists x, EmptyString, (Z.min n m, Z.max n m), []. split; [done|]. split; [done|]. split; [by left|done].
    + intros k Hk. rewrite (B2 k Hk). cbn [existsb]. by rewrite orb_false_r.
  - assert (Hq : (String.length q < fuel)%nat).
    { apply (f_equal slen) in Ep. rewrite slen_app in Ep. pose proof (slen_nonneg (range_text x)). unfold slen in *. cbn [String.length] in Ep. lia. }
    specialize (IH q m1 Hq L1). destruct (parse_loop fuel q m1 max) as [[[|s|s] m2]|]; cbn [parse_ok] in *; [| | |done].
    + destruct IH as (L2 & vs & I & B3). split; [done|]. exists ((Z.min n m, Z.max n m) :: vs). split.
      * apply is_list_iff. exists x, (String "," q), (Z.min n m, Z.max n m), vs. split; [done|]. split; [done|]. split; [|done]. right. by exists q.
      * intros k Hk. rewrite (B3 k Hk), (B2 k Hk). cbn [existsb]. by rewrite orb_assoc.
    + destruct IH as ((k & ->) & NL). split.
      * exists (range_text x ++ String "," k)%string. by rewrite Ep, str_app_assoc.
      * intros vs I. apply Inv in I as (vs' & [[? _] | (q' & [= <-] & I)] & ->); [done|]. by apply (NL vs').
    + intros vs I. apply Inv in I as (vs' & [[? _] | (q' & [= <-] & I)] & ->); [done|]. by apply (IH vs').
  - split; [by exists (range_text x)|]. intros vs I. apply Inv in I as (vs' & [[? _] | (q' & [= -> _] & I)] & ->); done.
Qed.
Lemma parse_loop_ok fuel max : limits max -> forall p mask, (String.length p < fuel)%nat -> length mask = 2%nat ->
  parse_ok max p mask (parse_loop fuel p mask max).
Proof.
  intros L. induction fuel as [|fuel IH]; intros p mask Hp Hm; [lia|]. cbn [parse_loop].
  pose proof (before_eq stop_item p) as Ep. pose proof (before_idem stop_item p) as P. pose proof (before_head stop_item p) as E.
  assert (Inv : forall vs, is_list max p vs -> _) by (intros vs; apply is_list_inv). destruct (before stop_item p) as [it r]. cbn [fst snd] in *.
  fold (ends_item r) in E. fold (plain it) in P. subst p. rewrite parse_item_cut by done.
  destruct (item_of max it) as [n| |nm] eqn:In.
  2: { split; [by exists EmptyString|]. intros vs I. destruct (Inv vs I) as (n & [=] & _). }
  2: { intros vs I. destruct (Inv vs I) as (n & [=] & _). }
  pose proof (item_range max it n L In) as Rn.
  assert (Single : forall vs, is_list max (it ++ r)%string vs -> (forall q, r <> String "-" q) -> exists vs', after_range max r vs' /\ vs = (n, n) :: vs').
  { intros vs I N. destruct (Inv vs I) as (? & [= <-] & [? | (q & Eq & _)]); [done|]. by destruct (N q). }
  assert (One : (forall q, r <> String "-" q) -> parse_ok max (it ++ r)%string mask (finish (fun r mask => parse_loop fuel r mask max) n n r mask)).
  { intros N. apply (finish_ok fuel _ n n (it, None)); try done; [lia| |].
    - split; [done|]. cbn [fst snd]. by rewrite Z.min_id, Z.max_id.
    - intros vs I. rewrite Z.min_id, Z.max_id. by apply Single. }
  destruct (ends_item_cases r E) as [-> | [q [-> | ->]]]; [by apply One| |by apply One].
  change (Ascii.eqb "-" "-") with true. cbv iota.
  pose proof (before_eq stop_item q) as Eq. pose proof (before_idem stop_item q) as P2. pose proof (before_head stop_item q) as E2.
  assert (Inv2 : forall vs, is_list max (it ++ String "-" q)%string vs -> let '(it2, r2) := before stop_item q in
    exists m vs', item_of max it2 = Item m /\ after_range max r2 vs' /\ vs = (Z.min n m, Z.max n m) :: vs').
  { intros vs I. destruct (Inv vs I) as (? & [= <-] & [(vs' & A & _) | (q' & [= <-] & R)]); [|exact R].
    destruct A as [[? _] | (? & ? & _)]; done. }
  destruct (before stop_item q) as [it2 r2]. cbn [fst snd] in *. fold (ends_item r2) in E2. fold (plain it2) in P2. subst q.
  rewrite parse_item_cut by done. destruct (item_of max it2) as [m| |nm] eqn:Im.
  - apply (finish_ok fuel _ n m (it, Some it2)); try done; [lia|by apply (item_range max it2)| | |].
    + cbn [range_text fst snd]. by rewrite str_app_assoc.
    + split; [done|]. cbn [fst snd]. split; [done|]. by exists n, m.
    + intros vs I. destruct (Inv2 vs I) as (? & vs' & [= <-] & A & ->). by exists vs'.
  - split; [exists (it ++ "-")%string; by rewrite str_app_assoc|]. intros vs I. destruct (Inv2 vs I) as (? & ? & [=] & _).
  - intros vs I. destruct (Inv2 vs I) as (? & ? & [=] & _).
Qed.

Lemma parse_list_ok (p : string) (max : Z) (L : limits max) :
  match parse_list p [0; 0] max with
  | None => False
  | Some (Parsed, m) => exists vs, is_list max p vs /\ forall n, 0 <= n < MAX_NUMS -> in_mask m n = existsb (covers n) vs
  | Some (StoppedAt q, _) => (exists k, p = (k ++ q)%string) /\ forall vs, ~ is_list max p vs
  | Some (ParseExit _, _) => forall vs, ~ is_list max p vs
  end.
Proof.
  pose proof (parse_loop_ok (S (String.length p)) max L p [0; 0] ltac:(lia) eq_refl) as H. unfold parse_list.
  destruct (parse_loop _ _ _ _) as [[[|q|q] m]|]; cbn [parse_ok] in H; [|done..].
  destruct H as (_ & vs & I & B). exists vs. split; [done|]. intros n Hn. rewrite B by done.
  unfold in_mask. rewrite (div_64 n Hn). destruct (n <? 64); cbn [lookup list_lookup]; by rewrite Z.testbit_0_l.
Qed.

(** C39: parse_list().  It returns NULL just for a list: items with commas between
    them, where an item is a number below [max] or the name of a line, or two such with a
    '-' and in any order.  The bits of the mask are then the GPIOs of its ranges, and
    no others.  Otherwise it returns where it stopped, within the list, or
    the program ends.  It never leaves the two words of the mask, whatever the list is. *)
Theorem parse_list_correct (p : string) (max : Z) (L : limits max) :
  match parse_list p [0; 0] max with
  | None => False
  | Some (Parsed, m) => exists vs, is_list max p vs /\ forall n, 0 <= n < MAX_NUMS -> in_mask m n = existsb (covers n) vs
  | Some (StoppedAt q, _) => (exists k, p = (k ++ q)%string) /\ forall vs, ~ is_list max p vs
  | Some (ParseExit _, _) => forall vs, ~ is_list max p vs
  end.
Proof. by apply parse_list_ok. Qed.
End scan.

Lemma parse_list_correct_witness :
  let b := Board EmptyString EmptyString (fun g => if g =? 50 then "PA_CTRL"%string else EmptyString) 0 0 true None in
  parse_list (fun _ => 0) b false "4,19-8,PA_CTRL,GPIO51-50" [0; 0] 62 <> None /\
  parse_list (fun _ => 0) b false "4,19-8,PA_CTRL,GPIO51-50" [0; 0] 62 = Some (Parsed, [0xc0000000fff10; 0]).
Proof.
  cbn zeta. set (b := Board _ _ _ _ _ _ _).
  pose proof (parse_list_correct (fun _ => 0) b false "4,19-8,PA_CTRL,GPIO51-50" 62) as H.
  split; [|vm_compute; reflexivity]. intros E. rewrite E in H. apply H.
  split; [unfold MAX_NUMS; lia|]. by split.
Defined.
