(* ===== verification/PinSnap.v ===== *)
(** The snapshots of the pinctrl tool: the text that "dump" writes and "--regs"
    reads (tools/pinctrl/board.c).

    A file is its text.  C does not say what "%x" stores for a number that has no
    place in an [unsigned int]: [overflow] gives it; [ulong_max] is the largest
    [unsigned long] of the machine. *)

From Stdlib Require Import Ascii String.
From S2P Require Import Prelude Device PinRegs Pinctrl PinTool PinText.

Open Scope Z_scope.

Definition PAGE_WORDS : Z := 1024.

(** * Hexadecimal *)

Definition hex_digit (d : Z) : ascii := if d <? 10 then chr (48 + d) else chr (87 + d).
(** "%03x", "%08x" and "%016x" for a value with no more digits. *)
Fixpoint hex_loop (n : nat) (v : Z) (acc : string) : string :=
  match n with O => acc | S n => hex_loop n (v / 16) (String (hex_digit (v mod 16)) acc) end.
Definition hex (n : nat) (v : Z) : string := hex_loop n v EmptyString.
Definition isxdigit (c : ascii) : bool := isdigit c || ((97 <=? code c) && (code c <=? 102)) || ((65 <=? code c) && (code c <=? 70)).
Definition xval (c : ascii) : Z := if isdigit c then code c - 48 else if 97 <=? code c then code c - 87 else code c - 55.
Fixpoint hex_val (acc : Z) (s : string) : Z := match s with EmptyString => acc | String c s => hex_val (16 * acc + xval c) s end.
Definition prefix_of (s : string) : string * string :=
  match s with
  | String a (String c r) => if Ascii.eqb a "0" && (Ascii.eqb c "x" || Ascii.eqb c "X") then (String a (String c EmptyString), r) else (EmptyString, s)
  | _ => (EmptyString, s)
  end.
(** The number of "%x" and of strtoul() with base 16: its sign, its value, and the characters read. *)
Definition scan_hex (s : string) : option (bool * Z * Z) :=
  let '(space, s) := before (fun c => negb (isspace c)) s in
  let '(sign, s) := sign_of s in
  let '(pre, s) := prefix_of s in
  let '(digits, _) := before (fun c => negb (isxdigit c)) s in
  match digits with
  | EmptyString => None
  | _ => Some (String.eqb sign "-", hex_val 0 digits, slen space + slen sign + slen pre + slen digits)
  end.

Section snap.
Context (overflow : bool -> Z -> Z) (ulong_max : Z).
Definition scan_x (s : string) : option (Z * Z) :=
  '(neg, v, used) ← scan_hex s;
  Some (if v <? 4294967296 then u32 (if (neg : bool) then - v else v) else overflow neg v, used).
(** strtoul() and strtoull(), for numbers up to [max]. *)
Definition strtou16 (max : Z) (s : string) : Z :=
  match scan_hex s with
  | None => 0
  | Some (neg, v, _) => if v <=? max then if neg : bool then (- v) mod (max + 1) else v else max
  end.

(** * Reading *)

Definition drop_chars (n : Z) (s : string) : string := substring (Z.to_nat n) (String.length s) s.
(** The words of a line; a page is a function of the word. *)
Fixpoint words_loop (k : nat) (page : Z -> Z) (w : Z) (args : string) : (Z -> Z) * bool :=
  match k with
  | O => (page, true)
  | S k =>
      match scan_x args with
      | None => (page, false)
      | Some (v, used) => words_loop k (upd page w v) (w + 1) (drop_chars used args)
      end
  end.
Definition load_words (page : Z -> Z) (args : string) : (Z -> Z) * bool :=
  match scan_x args with
  | None => (page, false)
  | Some (off, used) =>
      if nz (off mod 32) || (off / 4 + 8 >? PAGE_WORDS) then (page, false)
      else words_loop 8 page (off / 4) (drop_chars used args)
  end.
Definition set_name (b : board) (gpio : Z) (s : string) : board :=
  Board (compatible b) (model b) (fun g => if g =? gpio then s else names b g) (reserved b) (used b) (have_lines b) (hdr_of b).
Fixpoint load_names (b : board) (gpios : list Z) (l : option string) : board :=
  match gpios, l with
  | gpio :: gpios, Some l =>
      let '(name, rest) := before (Ascii.eqb ",") l in
      let rest := match rest with EmptyString => None | String _ r => Some r end in
      load_names (set_name b gpio (cut name NAME_LEN)) gpios rest
  | _, _ => b
  end.
(** The registers of a snapshot: pages of words. *)
Record snap := Snap { sn_iomux : Z -> Z; sn_gpio : Z -> Z; sn_cnnt : Z }.
Definition load_line (line : string) (r : snap) (b : board) : snap * board * bool :=
  let '(name, rest) := before (Ascii.eqb " ") line in
  let args := tail1 rest in
  if String.eqb name "compatible" then (r, Board (cut args 64) (model b) (names b) (reserved b) (used b) (have_lines b) (hdr_of b), true)
  else if String.eqb name "model" then (r, Board (compatible b) (cut args 96) (names b) (reserved b) (used b) (have_lines b) (hdr_of b), true)
  else if String.eqb name "names" then (r, load_names b (seqZ 0 NPINS) (Some args), true)
  else if String.eqb name "reserved" then
    (r, Board (compatible b) (model b) (names b) (strtou16 18446744073709551615 args) (used b) (have_lines b) (hdr_of b), true)
  else if String.eqb name "used" then
    (r, Board (compatible b) (model b) (names b) (reserved b) (strtou16 18446744073709551615 args) (have_lines b) (hdr_of b), true)
  else if String.eqb name "cnnt" then (Snap (sn_iomux r) (sn_gpio r) (u32 (strtou16 ulong_max args)), b, true)
  else if String.eqb name "iomux" then let '(page, ok) := load_words (sn_iomux r) args in (Snap page (sn_gpio r) (sn_cnnt r), b, ok)
  else if String.eqb name "gpio" then let '(page, ok) := load_words (sn_gpio r) args in (Snap (sn_iomux r) page (sn_cnnt r), b, ok)
  else (r, b, match name with EmptyString => true | String c _ => Ascii.eqb c "#" end).
(** fgets() with a buffer of [size] bytes: up to a newline, at most [size - 1] characters. *)
Fixpoint fgets (room : nat) (f : string) : string * string :=
  match room, f with
  | O, _ => (EmptyString, f)
  | _, EmptyString => (EmptyString, EmptyString)
  | S room, String c f =>
      if Ascii.eqb c "010" then (String c EmptyString, f) else let '(l, f) := fgets room f in (String c l, f)
  end.
Definition LINE : Z := NPINS * NAME_LEN + 16.
Definition to_nul (s : string) : string := fst (before (Ascii.eqb "000") s).
(** The number of the line that is none of a snapshot, or the registers and the board. *)
Fixpoint lines_loop (fuel : nat) (f : string) (lineno : Z) (r : snap) (b : board) : Z + (snap * board) :=
  match fuel with
  | O => inl lineno
  | S fuel =>
      match fgets (Z.to_nat (LINE - 1)) f with
      | (EmptyString, _) => inr (r, b)
      | (line, f) =>
          let line := fst (before (Ascii.eqb "010") (to_nul line)) in
          let '(r, b, ok) := load_line line r b in
          if ok : bool then lines_loop fuel f (lineno + 1) r b else inl (lineno + 1)
      end
  end.
Definition no_board : board := Board EmptyString EmptyString (fun _ => EmptyString) 0 0 false None.
(** [file] is the text of the file, or the error of fopen(). *)
Inductive load_error := OpenError (errno : Z) | NotASnapshotLine (lineno : Z).
Definition snapshot_load (file : Z + string) : load_error + (snap * board) :=
  match file with
  | inl errno => inl (OpenError errno)
  | inr f =>
      match lines_loop (S (String.length f)) f 0 (Snap (fun _ => 0) (fun _ => 0) 0) no_board with
      | inl n => inl (NotASnapshotLine n)
      | inr (r, b) => inr (r, Board (compatible b) (model b) (names b) (reserved b) (used b) true (board_header (compatible b)))
      end
  end.

(** * Writing *)

Definition nl : string := String "010" EmptyString.
Fixpoint dump_words (page : Z -> Z) (k : nat) (w : Z) : string :=
  match k with O => EmptyString | S k => (" " ++ hex 8 (page w) ++ dump_words page k (w + 1))%string end.
Definition dump_row (name : string) (page : Z -> Z) (row : Z) : string := (name ++ " " ++ hex 3 (32 * row) ++ dump_words page 8 (8 * row) ++ nl)%string.
Definition dump_page (name : string) (page : Z -> Z) : string :=
  List.fold_right (fun row s => (dump_row name page row ++ s)%string) EmptyString (seqZ 0 (PAGE_WORDS / 8)).
Fixpoint dump_names (b : board) (gpios : list Z) : string :=
  match gpios with
  | [] => EmptyString
  | [gpio] => names b gpio
  | gpio :: gpios => (names b gpio ++ "," ++ dump_names b gpios)%string
  end.
Definition snapshot_dump (r : snap) (b : board) : string :=
  ("# esp32s31-pinctrl snapshot 1" ++ nl ++
   "compatible " ++ compatible b ++ nl ++ "model " ++ model b ++ nl ++ "names " ++ dump_names b (seqZ 0 NPINS) ++
   nl ++ "reserved " ++ hex 16 (reserved b) ++ nl ++ "used " ++ hex 16 (used b) ++ nl ++
   "cnnt " ++ hex 8 (sn_cnnt r) ++ nl ++
   dump_page "iomux" (sn_iomux r) ++ dump_page "gpio" (sn_gpio r))%string.


(** * Hexadecimal numbers are read back *)

Fixpoint all_chars (P : ascii -> bool) (s : string) : bool := match s with EmptyString => true | String c s => P c && all_chars P s end.
Lemma all_chars_app P s t : all_chars P (s ++ t)%string = all_chars P s && all_chars P t.
Proof. induction s as [|c s IH]; cbn; [done|]. by rewrite IH, andb_assoc. Qed.
Lemma all_chars_impl (P Q : ascii -> bool) s : (forall c, P c = true -> Q c = true) -> all_chars P s = true -> all_chars Q s = true.
Proof. intros H. induction s as [|c s IH]; cbn; [done|]. rewrite !andb_true_iff. intros [A B]. by split; [apply H|apply IH]. Qed.
Lemma before_all f s r : all_chars (fun c => negb (f c)) s = true -> (forall c q, r = String c q -> f c = true) -> before f (s ++ r)%string = (s, r).
Proof.
  intros A H. rewrite before_app by done. induction s as [|c s IH]; cbn in *; [done|].
  apply andb_true_iff in A as [A1 A2]. apply negb_true_iff in A1. rewrite A1. specialize (IH A2). destruct (before f s). cbn [fst snd] in *. injection IH as -> E. by rewrite E.
Qed.
Lemma hex_loop_app n : forall v acc, hex_loop n v acc = (hex n v ++ acc)%string.
Proof.
  unfold hex. induction n as [|n IH]; intros v acc; [done|]. cbn [hex_loop]. by rewrite IH, (IH _ (String _ EmptyString)), str_app_assoc.
Qed.
Lemma hex_S n v : hex (S n) v = (hex n (v / 16) ++ String (hex_digit (v mod 16)) EmptyString)%string.
Proof. unfold hex at 1. cbn [hex_loop]. apply hex_loop_app. Qed.
Lemma hex_val_app s : forall acc t, hex_val acc (s ++ t)%string = hex_val (hex_val acc s) t.
Proof. induction s as [|c s IH]; intros acc t; [done|]. cbn. apply IH. Qed.
Lemma digit_facts d : 0 <= d < 16 -> isxdigit (hex_digit d) = true /\ xval (hex_digit d) = d.
Proof.
  intros H. assert (forallb (fun d => isxdigit (hex_digit d) && (xval (hex_digit d) =? d)) (seqZ 0 16) = true) as A by (vm_compute; reflexivity).
  rewrite forallb_forall in A. specialize (A d). rewrite andb_true_iff, Z.eqb_eq in A. apply A, list_elem_of_In, elem_of_seqZ. lia.
Qed.
Lemma hex_value n : forall v, 0 <= v < 16 ^ Z.of_nat n -> hex_val 0 (hex n v) = v.
Proof.
  induction n as [|n IH]; intros v Hv; [cbn in *; lia|]. rewrite hex_S, hex_val_app. rewrite Nat2Z.inj_succ, Z.pow_succ_r in Hv by lia.
  rewrite IH by (split; [apply Z.div_pos; lia|apply Z.div_lt_upper_bound; lia]). cbn [hex_val].
  destruct (digit_facts (v mod 16)) as [_ ->]; [apply Z.mod_pos_bound; lia|]. zlia.
Qed.
Lemma hex_chars n : forall v, all_chars isxdigit (hex n v) = true.
Proof.
  induction n as [|n IH]; intros v; [done|]. rewrite hex_S, all_chars_app, IH. cbn.
  destruct (digit_facts (v mod 16)) as [-> _]; [apply Z.mod_pos_bound; lia|done].
Qed.
Lemma hex_len n : forall v, slen (hex n v) = Z.of_nat n.
Proof. induction n as [|n IH]; intros v; [done|]. rewrite hex_S, slen_app, IH. unfold slen. cbn. lia. Qed.
Lemma xdigit_facts c : isxdigit c = true ->
  isspace c = false /\ Ascii.eqb c "-" || Ascii.eqb c "+" = false /\ Ascii.eqb c "x" || Ascii.eqb c "X" = false.
Proof. destruct c as [[] [] [] [] [] [] [] []]; by vm_compute. Qed.
(** A number of at least two digits, after one space or none, and before a space or the end. *)
Definition ends_number (r : string) : Prop := r = EmptyString \/ exists q, r = String " " q.
Lemma scan_hex_ok sp n v r : sp = EmptyString \/ sp = " "%string -> (2 <= n)%nat -> 0 <= v < 16 ^ Z.of_nat n -> ends_number r ->
  scan_hex (sp ++ hex n v ++ r)%string = Some (false, v, slen sp + Z.of_nat n).
Proof.
  intros Hs Hn Hv Hr. unfold scan_hex.
  assert (R : forall c q, r = String c q -> negb (isxdigit c) = true) by (destruct Hr as [-> | [q ->]]; [done|by intros c q' [= <- <-]]).
  pose proof (hex_value n v Hv) as V. pose proof (hex_chars n v) as X. pose proof (hex_len n v) as L. destruct (hex n v) as [|c1 [|c2 s]].
  1, 2: unfold slen in L; cbn in L; lia.
  cbn [all_chars] in X. apply andb_true_iff in X as [X1 X']. apply andb_true_iff in X' as [X2 X3].
  destruct (xdigit_facts c1 X1) as (A1 & A2 & _). destruct (xdigit_facts c2 X2) as (_ & _ & A3).
  assert (before (fun c => negb (isspace c)) (sp ++ String c1 (String c2 s) ++ r)%string = (sp, (String c1 (String c2 s) ++ r)%string)) as ->.
  { apply before_all; [by destruct Hs; subst|]. intros c q [= <- _]. by rewrite A1. }
  cbn [String.append sign_of]. rewrite A2. cbn [prefix_of]. rewrite A3, andb_false_r.
  change (String c1 (String c2 (s ++ r))%string) with (String c1 (String c2 s) ++ r)%string. rewrite before_all; [| |done].
  - rewrite V. change (String.eqb EmptyString "-") with false. do 2 f_equal. rewrite <- L. unfold slen. cbn [String.length]. lia.
  - apply (all_chars_impl isxdigit); [intros c ->; done|]. cbn [all_chars]. by rewrite X1, X2.
Qed.
Lemma scan_x_ok sp n v r : sp = EmptyString \/ sp = " "%string -> (2 <= n)%nat -> 0 <= v < 16 ^ Z.of_nat n -> v < 4294967296 -> ends_number r ->
  scan_x (sp ++ hex n v ++ r)%string = Some (v, slen sp + Z.of_nat n).
Proof.
  intros Hs Hn Hv Hw Hr. unfold scan_x. rewrite scan_hex_ok by done. cbn [mbind option_bind]. rewrite (proj2 (Z.ltb_lt v 4294967296)) by done.
  by rewrite u32_small by lia.
Qed.
Lemma strtou16_ok max n v : (2 <= n)%nat -> 0 <= v < 16 ^ Z.of_nat n -> v <= max -> strtou16 max (hex n v) = v.
Proof.
  intros Hn Hv Hm. unfold strtou16. pose proof (scan_hex_ok EmptyString n v EmptyString ltac:(by left) Hn Hv ltac:(by left)) as S.
  cbn [String.append] in S. rewrite str_app_nil in S. rewrite S. by rewrite (proj2 (Z.leb_le v max)).
Qed.
Lemma drop_chars_app s r : drop_chars (slen s) (s ++ r)%string = r.
Proof.
  unfold drop_chars, slen. rewrite Nat2Z.id. assert (forall n, substring 0 (n + String.length r) r = r) as R.
  { intros n. rewrite Nat.add_comm. induction r as [|c r IH]; cbn; [by destruct n|by rewrite IH]. }
  assert (forall n, substring (String.length s) (n + String.length r) (s ++ r)%string = r) as G.
  { intros n. induction s as [|c s IH]; cbn [String.append String.length]; [apply R|exact IH]. }
  assert (String.length (s ++ r)%string = String.length s + String.length r)%nat as -> by (induction s as [|c s IH]; cbn; [done|by rewrite IH]).
  apply G.
Qed.

(** * Lines are read back *)

Definition text (ls : list string) : string := List.fold_right (fun l s => (l ++ nl ++ s)%string) EmptyString ls.
(** A line without newlines and NULs, that the buffer has room for. *)
Definition is_char (c : ascii) : bool := negb (Ascii.eqb "010" c) && negb (Ascii.eqb "000" c).
Definition line_ok (l : string) : Prop := all_chars is_char l = true /\ slen l + 2 <= LINE.
Lemma fgets_line room : forall l f, (String.length l < room)%nat -> all_chars is_char l = true -> fgets room (l ++ nl ++ f)%string = ((l ++ nl)%string, f).
Proof.
  induction room as [|room IH]; intros l f Hl A; [lia|]. destruct l as [|c l]; [done|]. cbn [String.append fgets all_chars String.length] in *.
  apply andb_true_iff in A as [A1 A2]. unfold is_char in A1. rewrite Ascii.eqb_sym in A1. destruct (Ascii.eqb c "010"); [done|].
  rewrite IH by (done || lia). done.
Qed.
Lemma line_of l : all_chars is_char l = true -> fst (before (Ascii.eqb "010") (to_nul (l ++ nl)%string)) = l.
Proof.
  intros A. unfold to_nul. assert (all_chars (fun c => negb (Ascii.eqb "000" c)) (l ++ nl) = true) as B.
  { rewrite all_chars_app, andb_true_iff. split; [|done]. refine (all_chars_impl _ _ _ _ A). by intros c [? ?]%andb_true_iff. }
  rewrite <- (str_app_nil (l ++ nl)), (before_all _ (l ++ nl) EmptyString) by done. cbn [fst].
  rewrite before_all; [done| |by intros c q [= <- _]]. refine (all_chars_impl _ _ _ _ A). by intros c [? ?]%andb_true_iff.
Qed.
Fixpoint load_lines (ls : list string) (r : snap) (b : board) : option (snap * board) :=
  match ls with
  | [] => Some (r, b)
  | l :: ls => let '(r, b, ok) := load_line l r b in if ok : bool then load_lines ls r b else None
  end.
Lemma lines_loop_ok ls : forall fuel n r b r' b', (length ls < fuel)%nat -> Forall line_ok ls -> load_lines ls r b = Some (r', b') ->
  lines_loop fuel (text ls) n r b = inr (r', b').
Proof.
  induction ls as [|l ls IH]; intros fuel n r b r' b' Hf H E; (destruct fuel as [|fuel]; [cbn in Hf; lia|]); cbn [lines_loop].
  - injection E as <- <-. by destruct (Z.to_nat (LINE - 1)).
  - apply Forall_cons_1 in H as [[A S] H]. cbn [text List.fold_right]. fold (text ls). rewrite fgets_line; [|unfold slen in S; lia|done].
    cbn [load_lines] in E. rewrite line_of by done. assert (exists c q, (l ++ nl)%string = String c q) as (c & q & ->) by (destruct l; cbn; by do 2 eexists).
    destruct (load_line l r b) as [[r1 b1] []]; [|done]. apply IH; [cbn in Hf; lia|done|done].
Qed.
Lemma text_len ls : (length ls <= String.length (text ls))%nat.
Proof. induction ls as [|l ls IH]; cbn [text List.fold_right length]; [lia|]. fold (text ls). pose proof (slen_app l (nl ++ text ls)) as A. pose proof (slen_app nl (text ls)) as B. unfold slen in *. cbn in *. lia. Qed.
Lemma text_app l k : text (l ++ k) = (text l ++ text k)%string.
Proof. induction l as [|x l IH]; [done|]. cbn [app text List.fold_right]. fold (text (l ++ k)) (text l). by rewrite IH, !str_app_assoc. Qed.
Lemma load_lines_app l k r b : load_lines (l ++ k) r b = '(r, b) ← load_lines l r b; load_lines k r b.
Proof.
  revert r b. induction l as [|x l IH]; intros r b; [done|]. cbn [app load_lines]. destruct (load_line x r b) as [[r1 b1] []]; [apply IH|done].
Qed.

(** * The rows of a page *)

Definition words_ok (page : Z -> Z) : Prop := forall i, 0 <= i < PAGE_WORDS -> 0 <= page i < 4294967296.
Lemma words_loop_ok k : forall q page w, 0 <= w -> w + Z.of_nat k <= PAGE_WORDS -> words_ok page ->
  exists q', words_loop k q w (dump_words page k w) = (q', true) /\
    forall i, q' i = if (w <=? i) && (i <? w + Z.of_nat k) then page i else q i.
Proof.
  induction k as [|k IH]; intros q page w Hw Hk Hp.
  - exists q. split; [done|]. intros i. destruct (Z.leb_spec w i), (Z.ltb_spec i (w + Z.of_nat 0)); lia || done.
  - cbn [words_loop dump_words]. assert (Hv : 0 <= page w < 4294967296) by (apply Hp; lia).
    rewrite (scan_x_ok " " 8 (page w)); [|by right|lia|cbn; lia|lia|].
    2: { destruct k as [|k]; [by left|right]. by eexists. }
    cbn [String.append]. change (slen " " + Z.of_nat 8) with 9.
    pose proof (drop_chars_app (" " ++ hex 8 (page w)) (dump_words page k (w + 1))) as D. rewrite slen_app, hex_len in D.
    change (slen " " + Z.of_nat 8) with 9 in D. cbn [String.append] in D. rewrite D.
    destruct (IH (upd q w (page w)) page (w + 1) ltac:(lia) ltac:(lia) Hp) as (q' & -> & Q). exists q'. split; [done|].
    intros i. rewrite Q. unfold upd. destruct (Z.eqb_spec i w) as [->|N].
    + rewrite (proj2 (Z.leb_gt (w + 1) w)), (proj2 (Z.leb_le w w)), (proj2 (Z.ltb_lt w (w + Z.of_nat (S k)))) by lia. done.
    + assert ((w + 1 <=? i) && (i <? w + 1 + Z.of_nat k) = (w <=? i) && (i <? w + Z.of_nat (S k))) as ->; [|done].
      apply eq_true_iff_eq. rewrite !andb_true_iff, !Z.leb_le, !Z.ltb_lt. lia.
Qed.
Definition row_line (name : string) (page : Z -> Z) (row : Z) : string := (name ++ " " ++ hex 3 (32 * row) ++ dump_words page 8 (8 * row))%string.
Lemma load_row q page row : 0 <= row < PAGE_WORDS / 8 -> words_ok page ->
  exists q', load_words q (hex 3 (32 * row) ++ dump_words page 8 (8 * row))%string = (q', true) /\
    forall i, q' i = if i / 8 =? row then page i else q i.
Proof.
  intros Hr Hp. change (PAGE_WORDS / 8) with 128 in Hr. unfold load_words.
  pose proof (scan_x_ok EmptyString 3 (32 * row) (dump_words page 8 (8 * row)) ltac:(by left) ltac:(lia) ltac:(cbn; lia) ltac:(lia) ltac:(right; by eexists)) as S.
  cbn [String.append] in S. rewrite S. change (slen EmptyString + Z.of_nat 3) with 3.
  replace (32 * row mod 32) with 0 by zlia. replace (32 * row / 4) with (8 * row) by zlia. change (nz 0) with false.
  assert ((8 * row + 8 >? PAGE_WORDS) = false) as -> by (unfold PAGE_WORDS; rewrite Z.gtb_ltb; apply Z.ltb_ge; lia). cbn [orb].
  pose proof (drop_chars_app (hex 3 (32 * row)) (dump_words page 8 (8 * row))) as D. rewrite hex_len in D. change (Z.of_nat 3) with 3 in D. rewrite D.
  destruct (words_loop_ok 8 q page (8 * row) ltac:(lia) ltac:(unfold PAGE_WORDS; lia) Hp) as (q' & -> & Q). exists q'. split; [done|].
  intros i. rewrite Q. assert ((8 * row <=? i) && (i <? 8 * row + Z.of_nat 8) = (i / 8 =? row)) as ->; [|done].
  apply eq_true_iff_eq. rewrite andb_true_iff, Z.leb_le, Z.ltb_lt, Z.eqb_eq. split; zlia.
Qed.
(** The page that a row belongs to: the IO MUX, or the GPIO page. *)
Definition row_name (mux : bool) : string := if mux then "iomux"%string else "gpio"%string.
Definition page_of (mux : bool) (r : snap) : Z -> Z := if mux then sn_iomux r else sn_gpio r.
Lemma load_row_line (mux : bool) page row r b : 0 <= row < PAGE_WORDS / 8 -> words_ok page ->
  exists r', load_line (row_line (row_name mux) page row) r b = (r', b, true) /\ sn_cnnt r' = sn_cnnt r /\
    page_of (negb mux) r' = page_of (negb mux) r /\
    forall i, page_of mux r' i = if i / 8 =? row then page i else page_of mux r i.
Proof.
  intros Hr Hp. destruct (load_row (page_of mux r) page row Hr Hp) as (q' & E & Q). unfold row_line.
  destruct mux; [exists (Snap q' (sn_gpio r) (sn_cnnt r))|exists (Snap (sn_iomux r) q' (sn_cnnt r))]; (split; [|done]).
  all: revert E; generalize (hex 3 (32 * row) ++ dump_words page 8 (8 * row))%string; intros l E; cbn [page_of] in E.
  all: unfold load_line; cbn -[load_words]; by rewrite E.
Qed.
Lemma load_rows (mux : bool) page rows : forall r b, Forall (fun row => 0 <= row < PAGE_WORDS / 8) rows -> words_ok page ->
  exists r', load_lines (map (row_line (row_name mux) page) rows) r b = Some (r', b) /\ sn_cnnt r' = sn_cnnt r /\
    page_of (negb mux) r' = page_of (negb mux) r /\
    forall i, page_of mux r' i = if existsb (Z.eqb (i / 8)) rows then page i else page_of mux r i.
Proof.
  induction rows as [|row rows IH]; intros r b H Hp; [by exists r|]. apply Forall_cons_1 in H as [Hr H].
  destruct (load_row_line mux page row r b Hr Hp) as (r1 & E1 & C1 & O1 & P1). destruct (IH r1 b H Hp) as (r2 & E2 & C2 & O2 & P2).
  exists r2. cbn [map load_lines]. rewrite E1, E2, C2, C1, O2, O1. split; [done|]. split; [done|]. split; [done|].
  intros i. rewrite P2, P1. cbn [existsb]. by destruct (i / 8 =? row), (existsb _ rows).
Qed.

(** * The snapshot is read back *)

(** What a board may hold: strings that their arrays have room for, without a
    newline, and names without a comma. *)
Definition name_char (c : ascii) : bool := is_char c && negb (Ascii.eqb "," c).
Definition board_ok (b : board) : Prop :=
  (all_chars is_char (compatible b) = true /\ slen (compatible b) < 64) /\ (all_chars is_char (model b) = true /\ slen (model b) < 96) /\
  (forall g, 0 <= g < NPINS -> all_chars name_char (names b g) = true /\ slen (names b g) < NAME_LEN) /\
  0 <= reserved b < 18446744073709551616 /\ 0 <= used b < 18446744073709551616.
Definition head_lines (r : snap) (b : board) : list string :=
  ["# esp32s31-pinctrl snapshot 1"; "compatible " ++ compatible b; "model " ++ model b; "names " ++ dump_names b (seqZ 0 NPINS);
   "reserved " ++ hex 16 (reserved b); "used " ++ hex 16 (used b); "cnnt " ++ hex 8 (sn_cnnt r)]%string.
Definition page_lines (mux : bool) (r : snap) : list string := map (row_line (row_name mux) (page_of mux r)) (seqZ 0 (PAGE_WORDS / 8)).
Lemma dump_text r b : snapshot_dump r b = text (head_lines r b ++ page_lines true r ++ page_lines false r).
Proof.
  assert (P : forall mux, dump_page (row_name mux) (page_of mux r) = text (page_lines mux r)).
  { intros mux. unfold dump_page, page_lines. generalize (seqZ 0 (PAGE_WORDS / 8)). intros l. induction l as [|row l IH]; [done|].
    cbn [List.fold_right map text]. fold (text (map (row_line (row_name mux) (page_of mux r)) l)). rewrite IH. unfold dump_row, row_line. by rewrite !str_app_assoc. }
  rewrite !text_app, <- !P. unfold snapshot_dump, head_lines. cbn [text List.fold_right]. by rewrite !str_app_assoc.
Qed.
Lemma cut_short s n : slen s < n -> cut s n = s.
Proof.
  intros H. unfold cut. assert (forall k, substring 0 (String.length s + k) s = s) as R.
  { intros k. clear H. induction s as [|c s IH]; cbn; [by destruct k|by rewrite IH]. }
  replace (Z.to_nat (n - 1)) with (String.length s + Z.to_nat (n - 1 - slen s))%nat by (unfold slen in *; lia). apply R.
Qed.
Lemma load_names_ok b gpios : forall b0, gpios <> [] -> (forall g, In g gpios -> all_chars name_char (names b g) = true /\ slen (names b g) < NAME_LEN) ->
  exists f, load_names b0 gpios (Some (dump_names b gpios)) = Board (compatible b0) (model b0) f (reserved b0) (used b0) (have_lines b0) (hdr_of b0) /\
    forall g, f g = if existsb (Z.eqb g) gpios then names b g else names b0 g.
Proof.
  induction gpios as [|g gpios IH]; intros b0 N H; [done|]. destruct (H g ltac:(by left)) as [C S]. cbn [load_names].
  assert (C' : all_chars (fun c => negb (Ascii.eqb "," c)) (names b g) = true).
  { refine (all_chars_impl _ _ _ _ C). by intros c [? ?]%andb_true_iff. }
  destruct gpios as [|g2 gpios].
  - cbn [dump_names]. rewrite <- (str_app_nil (names b g)), before_all by done. rewrite cut_short by done.
    exists (fun x => if x =? g then names b g else names b0 x). split; [done|]. intros x. cbn [existsb]. by destruct (Z.eqb_spec x g) as [->|].
  - change (dump_names b (g :: g2 :: gpios)) with (names b g ++ "," ++ dump_names b (g2 :: gpios))%string.
    rewrite before_all by (done || by intros c q [= <- _]). cbn [String.append]. rewrite cut_short by done.
    destruct (IH (set_name b0 g (names b g)) ltac:(done) ltac:(intros x I; apply H; by right)) as (f & -> & F). exists f. split; [done|].
    intros x. rewrite F. cbn [existsb names set_name]. destruct (Z.eqb_spec x g) as [->|]; [|done]. by destruct (_ || _).
Qed.
Lemma load_head r b r0 b0 : board_ok b -> 0 <= sn_cnnt r < 4294967296 -> 4294967295 <= ulong_max ->
  exists f, load_lines (head_lines r b) r0 b0 = Some (Snap (sn_iomux r0) (sn_gpio r0) (sn_cnnt r), Board (compatible b) (model b) f (reserved b) (used b) (have_lines b0) (hdr_of b0)) /\
    forall g, 0 <= g < NPINS -> f g = names b g.
Proof.
  intros ([_ C] & [_ M] & Nm & R & U) Hc Hu.
  set (b1 := Board (compatible b) (model b) (names b0) (reserved b0) (used b0) (have_lines b0) (hdr_of b0)).
  destruct (load_names_ok b (seqZ 0 NPINS) b1) as (f & E & F); [done| |].
  { intros g I. apply Nm. apply list_elem_of_In, elem_of_seqZ in I. lia. }
  exists f. split.
  - unfold head_lines. revert E. generalize (dump_names b (seqZ 0 NPINS)). intros dn E.
    cbn -[load_names strtou16 hex cut seqZ]. rewrite !cut_short by done. fold b1. rewrite E. cbn -[strtou16 hex].
    rewrite (strtou16_ok _ 16 (reserved b)), (strtou16_ok _ 16 (used b)), (strtou16_ok ulong_max 8) by (cbn; lia). by rewrite u32_small by lia.
  - intros g Hg. rewrite F. assert (existsb (Z.eqb g) (seqZ 0 NPINS) = true) as ->; [|done].
    apply existsb_exists. exists g. split; [apply list_elem_of_In, elem_of_seqZ; lia|by apply Z.eqb_eq].
Qed.

Lemma xdigit_char c : isxdigit c = true -> is_char c = true.
Proof. destruct c as [[] [] [] [] [] [] [] []]; by vm_compute. Qed.
Lemma hex_clean n v : all_chars is_char (hex n v) = true.
Proof. apply (all_chars_impl isxdigit); [apply xdigit_char|apply hex_chars]. Qed.
Lemma words_clean page k : forall w, all_chars is_char (dump_words page k w) = true /\ slen (dump_words page k w) = 9 * Z.of_nat k.
Proof.
  induction k as [|k IH]; intros w; [done|]. cbn [dump_words]. destruct (IH (w + 1)) as [A S].
  rewrite !all_chars_app, !slen_app, A, S, hex_clean, hex_len. split; [done|]. change (slen " ") with 1. lia.
Qed.
Lemma names_clean b gpios : (forall g, In g gpios -> all_chars name_char (names b g) = true /\ slen (names b g) < NAME_LEN) ->
  all_chars is_char (dump_names b gpios) = true /\ slen (dump_names b gpios) <= NAME_LEN * zlen gpios.
Proof.
  induction gpios as [|g gpios IH]; intros H; [done|]. destruct (H g ltac:(by left)) as [C S].
  assert (C' : all_chars is_char (names b g) = true) by (refine (all_chars_impl _ _ _ _ C); by intros c [? ?]%andb_true_iff).
  destruct (IH ltac:(intros x I; apply H; by right)) as [A L]. rewrite zlen_cons. destruct gpios as [|g2 gpios].
  - cbn [dump_names]. split; [done|]. rewrite zlen_nil. lia.
  - change (dump_names b (g :: g2 :: gpios)) with (names b g ++ "," ++ dump_names b (g2 :: gpios))%string.
    rewrite !all_chars_app, !slen_app, C', A. split; [done|]. change (slen ",") with 1. lia.
Qed.
Lemma head_ok r b : board_ok b -> Forall line_ok (head_lines r b).
Proof.
  intros ([C Lc] & [M Lm] & Nm & _). destruct (names_clean b (seqZ 0 NPINS)) as [A L].
  { intros g I. apply Nm. apply list_elem_of_In, elem_of_seqZ in I. lia. }
  change (NAME_LEN * zlen (seqZ 0 NPINS)) with 1984 in L.
  unfold head_lines, line_ok, LINE, NAME_LEN. change (NPINS * 32 + 16) with 2000. repeat apply Forall_cons_2; [..|done].
  all: split; [by rewrite ?all_chars_app, ?C, ?M, ?A, ?hex_clean|rewrite ?slen_app, ?hex_len].
  1: by vm_compute.
  1: change (slen "compatible ") with 11; lia.
  1: change (slen "model ") with 6; lia.
  1: change (slen "names ") with 6; lia.
  1: change (slen "reserved ") with 9; lia.
  1: change (slen "used ") with 5; lia.
  change (slen "cnnt ") with 5; cbn; lia.
Qed.
Lemma rows_ok (mux : bool) r : Forall line_ok (page_lines mux r).
Proof.
  unfold page_lines. apply Forall_forall. intros l I. apply in_map_iff in I as (row & <- & _). unfold row_line, line_ok.
  destruct (words_clean (page_of mux r) 8 (8 * row)) as [A L]. rewrite !all_chars_app, !slen_app, A, L, hex_clean, hex_len.
  split; [by destruct mux|]. change (slen " ") with 1. unfold LINE, NPINS, NAME_LEN. destruct mux; [change (slen (row_name true)) with 5|change (slen (row_name false)) with 4]; lia.
Qed.

(** The registers of a snapshot as the tool sees them, and what "dump" reads of the registers. *)
Definition pins_of (r : snap) : pins := Pins (sn_iomux r) (fun off => sn_gpio r (off / 4)) (sn_cnnt r).
Definition regs_ok (r : snap) : Prop := words_ok (sn_iomux r) /\ words_ok (sn_gpio r) /\ 0 <= sn_cnnt r < 4294967296.
Definition snap_of (p : pins) : snap := Snap (iomux p) (fun w => get_gpio p (4 * w)) (cnnt p).

Lemma snapshot_read_back (r : snap) (b : board) (Hu : 4294967295 <= ulong_max) (Hr : regs_ok r) (Hb : board_ok b) :
  match snapshot_load (inr (snapshot_dump r b)) with
  | inl _ => False
  | inr (r', b') =>
      (forall i, 0 <= i < PAGE_WORDS -> sn_iomux r' i = sn_iomux r i /\ sn_gpio r' i = sn_gpio r i) /\ sn_cnnt r' = sn_cnnt r /\
      (forall g, 0 <= g < NPINS -> names b' g = names b g) /\ reserved b' = reserved b /\ used b' = used b /\ have_lines b' = true /\
      compatible b' = compatible b /\ model b' = model b /\ hdr_of b' = board_header (compatible b)
  end.
Proof.
  destruct Hr as (Wm & Wg & Wc). unfold snapshot_load. rewrite dump_text. set (ls := head_lines r b ++ _).
  set (r0 := Snap _ _ _). destruct (load_head r b r0 no_board Hb Wc Hu) as (f & E1 & F).
  set (r1 := Snap _ _ _) in E1. set (b1 := Board _ _ _ _ _ _ _) in E1.
  assert (R : Forall (fun row => 0 <= row < PAGE_WORDS / 8) (seqZ 0 (PAGE_WORDS / 8))).
  { apply Forall_forall. intros row I. first [apply elem_of_seqZ in I|apply list_elem_of_In, elem_of_seqZ in I]. lia. }
  destruct (load_rows true (sn_iomux r) _ r1 b1 R Wm) as (r2 & E2 & C2 & O2 & P2).
  destruct (load_rows false (sn_gpio r) _ r2 b1 R Wg) as (r3 & E3 & C3 & O3 & P3).
  rewrite (lines_loop_ok ls _ 0 r0 no_board r3 b1).
  - cbn [compatible model names reserved used have_lines hdr_of b1]. cbn [negb page_of] in *.
    assert (In8 : forall i, 0 <= i < PAGE_WORDS -> existsb (Z.eqb (i / 8)) (seqZ 0 (PAGE_WORDS / 8)) = true).
    { intros i Hi. apply existsb_exists. exists (i / 8). split; [|by apply Z.eqb_eq]. apply list_elem_of_In, elem_of_seqZ. unfold PAGE_WORDS in *. change (1024 / 8) with 128. zlia. }
    split. { intros i Hi. rewrite O3, P2, P3, In8 by done. done. }
    split; [by rewrite C3, C2|]. by split; [exact F|].
  - pose proof (text_len ls). lia.
  - subst ls. rewrite !Forall_app. split; [by apply head_ok|]. split; apply rows_ok.
  - subst ls. unfold page_lines. cbn [page_of]. rewrite load_lines_app, E1. cbn [mbind option_bind]. rewrite load_lines_app, E2. exact E3.
Qed.
End snap.

(** * What get shows *)

(** The tool looks only at words of the two pages, and at no status of an interrupt line. *)
Definition word_off (off : Z) : Prop := 0 <= off < 4096 /\ off mod 4 = 0 /\ (off < 0xa4 \/ 0xc4 <= off).
Lemma input_signals_ext sig_in_names p p' pin sigs : forall buf len found, (forall off, word_off off -> gpio_rd p off = gpio_rd p' off) ->
  Forall (fun s => 0 <= s < NSIGS) sigs -> input_signals sig_in_names p pin sigs buf len found = input_signals sig_in_names p' pin sigs buf len found.
Proof.
  induction sigs as [|s sigs IH]; intros buf len found G H; [done|]. apply Forall_cons_1 in H as [Hs H]. cbn [input_signals].
  unfold NSIGS in Hs. rewrite (G (GPIO_IN_SEL s)) by (unfold word_off, GPIO_IN_SEL; zlia). by rewrite !IH.
Qed.
Lemma pin_get_ext sig_in_names sig_out_names p p' pin : pin_ok pin -> iomux p pin = iomux p' pin -> cnnt p = cnnt p' ->
  (forall off, word_off off -> gpio_rd p off = gpio_rd p' off) ->
  pin_get sig_in_names sig_out_names p pin = pin_get sig_in_names sig_out_names p' pin.
Proof.
  unfold pin_ok, NPINS. intros Hp Em Ec G. assert (B : forall r0 r1, word_off r0 -> word_off r1 -> gpio_bit p pin r0 r1 = gpio_bit p' pin r0 r1).
  { intros r0 r1 H0 H1. unfold gpio_bit. rewrite G; [done|]. unfold bank. by destruct (pin <? 32). }
  unfold pin_get, pin_level, matrix_signals, cnnt_block. rewrite Em, Ec, !B by (by vm_compute; split_and!; auto).
  rewrite (G (GPIO_PIN pin)), (G (GPIO_OUT_SEL pin)) by (unfold word_off, GPIO_PIN, GPIO_OUT_SEL; zlia).
  destruct (gpio_rd p' (GPIO_OUT_SEL pin)) as [|u|u]; destruct (if _ =? SIG_GPIO_OUT then _ else _) as [buf found];
    rewrite (input_signals_ext sig_in_names p p' pin _ buf 128 found G); try done;
    apply Forall_forall; intros s I; first [apply elem_of_seqZ in I|apply list_elem_of_In, elem_of_seqZ in I]; unfold NSIGS in *; lia.
Qed.

(** C38: a snapshot that "dump" writes is read back by "--regs": all words of the two
    pages, the CNNT word, the names of the lines, the reserved and the used lines, the
    compatible string with its header, and the model.  With it "get" reports for every
    pin what it reported on the registers when the snapshot was written. *)
Theorem snapshot_roundtrip (overflow : bool -> Z -> Z) (ulong_max : Z) (sig_in_names sig_out_names : Z -> option string) (p : pins) (b : board)
    (Hu : 4294967295 <= ulong_max) (Hr : regs_ok (snap_of p)) (Hb : board_ok b) :
  match snapshot_load overflow ulong_max (inr (snapshot_dump (snap_of p) b)) with
  | inl _ => False
  | inr (r', b') =>
      (forall i, 0 <= i < PAGE_WORDS -> sn_iomux r' i = iomux p i /\ sn_gpio r' i = get_gpio p (4 * i)) /\ sn_cnnt r' = cnnt p /\
      (forall g, 0 <= g < NPINS -> names b' g = names b g) /\ reserved b' = reserved b /\ used b' = used b /\ have_lines b' = true /\
      compatible b' = compatible b /\ model b' = model b /\ hdr_of b' = board_header (compatible b) /\
      forall pin, pin_ok pin -> pin_get sig_in_names sig_out_names (pins_of r') pin = pin_get sig_in_names sig_out_names p pin
  end.
Proof.
  pose proof (snapshot_read_back overflow ulong_max (snap_of p) b Hu Hr Hb) as H.
  destruct (snapshot_load _ _ _) as [|[r' b']]; [done|]. destruct H as (P & C & N & R & U & L & Co & Mo & Hd).
  do 9 (split; [done|]). intros pin Hp. unfold pin_ok, NPINS in Hp.
  apply pin_get_ext; [done|by apply P; unfold PAGE_WORDS; lia|done|].
  intros off (Ho & Hm & Hs). unfold gpio_rd, get_gpio at 1. assert ((off >=? 0xa4) && (off <? 0xc4) = false) as ->.
  { apply andb_false_iff. rewrite Z.geb_leb, Z.leb_gt, Z.ltb_ge. lia. }
  cbn [gpio pins_of]. destruct (P (off / 4)) as [_ ->]; [unfold PAGE_WORDS; zlia|]. unfold snap_of. cbn [sn_gpio]. f_equal. zlia.
Qed.
Lemma snapshot_roundtrip_witness :
  let p := Pins (fun i => 0x800 + i) (fun _ => 0) 3 in
  let b := Board "esp,esp32s31-function-coreboard-1" "Function-CoreBoard-1" (fun g => if g =? 50 then "PA_CTRL"%string else EmptyString) 0x1000 0x20 true None in
  match snapshot_load (fun _ _ => 0) 4294967295 (inr (snapshot_dump (snap_of p) b)) with
  | inl _ => False
  | inr (r', b') => sn_iomux r' 61 = 0x83d /\ sn_cnnt r' = 3 /\ names b' 50 = "PA_CTRL"%string /\ reserved b' = 0x1000
  end.
Proof.
  cbn zeta. set (b := Board _ _ _ _ _ _ _). set (p := Pins _ _ _).
  assert (Hr : regs_ok (snap_of p)).
  { split; [|split]; [intros i; unfold PAGE_WORDS; cbn; lia| |done]. intros i _. cbn [sn_gpio snap_of]. unfold get_gpio.
    destruct (_ && _); [|done]. assert (forall n f, (forall k, f k = false) -> word_of f n = 0) as W.
    { intros n f F. induction n as [|n IH]; [done|]. cbn [word_of]. by rewrite IH, F. }
    unfold line_status. rewrite W; [done|]. intros k. cbn [gpio p]. by rewrite Z.testbit_0_l. }
  assert (Hb : board_ok b).
  { repeat split; try (vm_compute; reflexivity || discriminate); cbn [names b]; by destruct (g =? 50). }
  pose proof (snapshot_roundtrip (fun _ _ => 0) 4294967295 (fun _ => None) (fun _ => None) p b ltac:(lia) Hr Hb) as H.
  destruct (snapshot_load _ _ _) as [|[r' b']]; [done|]. destruct H as (P & C & N & R & _).
  destruct (P 61 ltac:(unfold PAGE_WORDS; lia)) as [-> _]. rewrite C, (N 50), R by (unfold NPINS; lia). done.
Defined.
