(* ===== verification/Signals.v ===== *)
(** The names of the matrix signals (tools/pinctrl/signals.c) and what get shows of them:
    append(), matrix_signals() and pin_get() of esp32s31.c with these tables.

    A table of C has a name for some indexes and NULL for the others; here it is the list
    of its rows.  [items] reads the text back: the parts between the commas. *)

From Stdlib Require Import Ascii String.
From S2P Require Import Prelude Device PinRegs Pinctrl PinTool PinText PinSnap.

Open Scope Z_scope.

(** * The tables *)

Definition sig_in_low : list (Z * string) :=
  [(0, "SD_CARD_CDATA4_1_PAD_IN"); (1, "SD_CARD_CDATA5_1_PAD_IN"); (2, "SD_CARD_CDATA6_1_PAD_IN");
    (3, "SD_CARD_CDATA7_1_PAD_IN"); (4, "SD_CARD_CDATA4_2_PAD_IN"); (5, "SD_CARD_CDATA5_2_PAD_IN");
    (6, "SD_CARD_CDATA6_2_PAD_IN"); (7, "SD_CARD_CDATA7_2_PAD_IN"); (8, "PAD_MODEM_ANT_SEL0");
    (9, "PAD_MODEM_ANT_SEL1"); (10, "UART0_RXD_PAD_IN"); (11, "UART0_CTS_PAD_IN"); (12, "UART0_DSR_PAD_IN");
    (13, "UART1_RXD_PAD_IN"); (14, "UART1_CTS_PAD_IN"); (15, "UART1_DSR_PAD_IN"); (16, "UART2_RXD_PAD_IN");
    (17, "UART2_CTS_PAD_IN"); (18, "UART2_DSR_PAD_IN"); (19, "GPIO_EXTERN_ACTIVE_PAD_IN");
    (20, "GPIO_EXTERN_PRIORITY_PAD_IN"); (21, "GPIO_EVENT_MATRIX_IN0/GPIO_TASK_MATRIX_OUT0");
    (22, "GPIO_EVENT_MATRIX_IN1/GPIO_TASK_MATRIX_OUT1"); (23, "GPIO_EVENT_MATRIX_IN2/GPIO_TASK_MATRIX_OUT2");
    (24, "GPIO_EVENT_MATRIX_IN3/GPIO_TASK_MATRIX_OUT3"); (25, "I2S0_O_BCK_PAD_IN"); (26, "I2S0_MCLK_PAD_IN");
    (27, "I2S0_O_WS_PAD_IN"); (28, "I2S0_I_SD_PAD_IN"); (29, "I2S0_I_BCK_PAD_IN"); (30, "I2S0_I_WS_PAD_IN");
    (31, "I2S1_O_BCK_PAD_IN"); (32, "I2S1_MCLK_PAD_IN"); (33, "I2S1_O_WS_PAD_IN"); (34, "I2S1_I_SD_PAD_IN");
    (35, "I2S1_I_BCK_PAD_IN"); (36, "I2S1_I_WS_PAD_IN"); (37, "PCNT1_RST_IN0/PAD_MODEM_ANT_SEL2");
    (38, "PCNT1_RST_IN1/PAD_MODEM_ANT_SEL3"); (39, "PCNT1_RST_IN2/PAD_MODEM_ANT_SEL4");
    (40, "PCNT1_RST_IN3/PAD_MODEM_ANT_SEL5"); (41, "PAD_MODEM_ANT_SEL6"); (42, "PAD_MODEM_ANT_SEL7");
    (43, "I2S0_I_SD1_PAD_IN"); (44, "I2S0_I_SD2_PAD_IN"); (45, "I2S0_I_SD3_PAD_IN"); (47, "SPI3_CK_PAD_IN");
    (48, "SPI3_Q_PAD_IN"); (49, "SPI3_D_PAD_IN"); (50, "SPI3_HOLD_PAD_IN"); (51, "SPI3_WP_PAD_IN");
    (52, "SPI3_CS_PAD_IN"); (53, "SPI2_CK_PAD_IN"); (54, "SPI2_Q_PAD_IN"); (55, "SPI2_D_PAD_IN");
    (56, "SPI2_HOLD_PAD_IN"); (57, "SPI2_WP_PAD_IN"); (58, "SPI2_IO4_PAD_IN"); (59, "SPI2_IO5_PAD_IN");
    (60, "SPI2_IO6_PAD_IN"); (61, "SPI2_IO7_PAD_IN"); (62, "SPI2_CS_PAD_IN"); (63, "PCNT0_RST_IN0");
    (64, "PCNT0_RST_IN1"); (65, "PCNT0_RST_IN2"); (66, "PCNT0_RST_IN3"); (68, "I2C0_SCL_PAD_IN");
    (69, "I2C0_SDA_PAD_IN"); (70, "I2C1_SCL_PAD_IN"); (71, "I2C1_SDA_PAD_IN"); (72, "PCNT1_CTRL_CH0_IN0");
    (73, "PCNT1_CTRL_CH0_IN1"); (74, "PCNT1_CTRL_CH0_IN2"); (75, "PCNT1_CTRL_CH0_IN3"); (76, "PCNT1_CTRL_CH1_IN0");
    (77, "PCNT1_CTRL_CH1_IN1"); (78, "PCNT1_CTRL_CH1_IN2"); (79, "PCNT1_CTRL_CH1_IN3"); (80, "TWAI0_RX/TWAI0_TX");
    (81, "TWAI1_RX/PAD_MODEM_ANT_SEL8"); (82, "GMAC_PHY_RXD4_PAD_IN/PAD_MODEM_ANT_SEL9");
    (83, "GMAC_PHY_RXD5_PAD_IN/TWAI1_TX"); (84, "GMAC_PHY_RXD6_PAD_IN/PAD_MODEM_ANT_SEL10");
    (85, "GMAC_PHY_RXD7_PAD_IN/PAD_MODEM_ANT_SEL11"); (86, "PWM2_SYNC0_PAD_IN"); (87, "PWM2_SYNC1_PAD_IN");
    (88, "PWM2_SYNC2_PAD_IN"); (89, "PWM0_SYNC0_PAD_IN"); (90, "PWM0_SYNC1_PAD_IN"); (91, "PWM0_SYNC2_PAD_IN");
    (92, "PWM0_F0_PAD_IN"); (93, "PWM0_F1_PAD_IN"); (94, "PWM0_F2_PAD_IN"); (95, "PWM0_CAP0_PAD_IN");
    (96, "PWM0_CAP1_PAD_IN"); (97, "PWM0_CAP2_PAD_IN"); (98, "PWM1_SYNC0_PAD_IN"); (99, "PWM1_SYNC1_PAD_IN");
    (100, "PWM1_SYNC2_PAD_IN"); (101, "PWM1_F0_PAD_IN/PAD_MODEM_ANT_SEL12");
    (102, "PWM1_F1_PAD_IN/PAD_MODEM_ANT_SEL13"); (103, "PWM1_F2_PAD_IN/PAD_MODEM_ANT_SEL14");
    (104, "PWM1_CAP0_PAD_IN/PAD_MODEM_ANT_SEL15"); (105, "PWM1_CAP1_PAD_IN"); (106, "PWM1_CAP2_PAD_IN");
    (107, "GMII_MDI_PAD_IN"); (108, "GMAC_PHY_COL_PAD_IN"); (109, "GMAC_PHY_CRS_PAD_IN"); (110, "PWM2_F0_PAD_IN");
    (111, "PWM2_F1_PAD_IN"); (112, "PWM2_F2_PAD_IN"); (113, "PWM2_CAP0_PAD_IN"); (114, "PWM2_CAP1_PAD_IN");
    (115, "PWM2_CAP2_PAD_IN"); (118, "USB_HSPHY_REFCLK_IN/HP_PROBE_TOP_OUT0");
    (119, "PWM3_SYNC0_PAD_IN/HP_PROBE_TOP_OUT1"); (120, "PWM3_SYNC1_PAD_IN/HP_PROBE_TOP_OUT2");
    (121, "PWM3_SYNC2_PAD_IN/HP_PROBE_TOP_OUT3"); (122, "PWM3_F0_PAD_IN/HP_PROBE_TOP_OUT4");
    (123, "PWM3_F1_PAD_IN/HP_PROBE_TOP_OUT5"); (124, "PWM3_F2_PAD_IN/HP_PROBE_TOP_OUT6");
    (125, "PWM3_CAP0_PAD_IN/HP_PROBE_TOP_OUT7"); (126, "SD_CARD_DETECT_N_1_PAD_IN/LEDC0_LS_SIG_OUT_PAD_OUT0");
    (127, "SD_CARD_DETECT_N_2_PAD_IN/LEDC0_LS_SIG_OUT_PAD_OUT1")]%string.
Definition sig_in_high : list (Z * string) :=
  [(128, "SD_CARD_INT_N_1_PAD_IN/LEDC0_LS_SIG_OUT_PAD_OUT2");
    (129, "SD_CARD_INT_N_2_PAD_IN/LEDC0_LS_SIG_OUT_PAD_OUT3");
    (130, "SD_CARD_WRITE_PRT_1_PAD_IN/LEDC0_LS_SIG_OUT_PAD_OUT4");
    (131, "SD_CARD_WRITE_PRT_2_PAD_IN/LEDC0_LS_SIG_OUT_PAD_OUT5");
    (132, "SD_DATA_STROBE_1_PAD_IN/LEDC0_LS_SIG_OUT_PAD_OUT6");
    (133, "SD_DATA_STROBE_2_PAD_IN/LEDC0_LS_SIG_OUT_PAD_OUT7"); (134, "PWM3_CAP1_PAD_IN"); (135, "PWM3_CAP2_PAD_IN");
    (137, "UART3_RXD_PAD_IN"); (138, "UART3_CTS_PAD_IN"); (139, "UART3_DSR_PAD_IN");
    (140, "USB_JTAG_TDO_BRIDGE_PAD_IN"); (141, "PCNT0_SIG_CH0_IN0"); (142, "PCNT0_SIG_CH0_IN1");
    (143, "PCNT0_SIG_CH0_IN2"); (144, "PCNT0_SIG_CH0_IN3"); (145, "PCNT0_SIG_CH1_IN0"); (146, "PCNT0_SIG_CH1_IN1");
    (147, "PCNT0_SIG_CH1_IN2"); (148, "PCNT0_SIG_CH1_IN3"); (149, "PCNT0_CTRL_CH0_IN0"); (150, "PCNT0_CTRL_CH0_IN1");
    (151, "PCNT0_CTRL_CH0_IN2"); (152, "PCNT0_CTRL_CH0_IN3"); (153, "PCNT0_CTRL_CH1_IN0");
    (154, "PCNT0_CTRL_CH1_IN1/LCD_DATA_OUT_PAD_OUT0"); (155, "PCNT0_CTRL_CH1_IN2/LCD_DATA_OUT_PAD_OUT1");
    (156, "PCNT0_CTRL_CH1_IN3/LCD_DATA_OUT_PAD_OUT2"); (157, "LCD_DATA_OUT_PAD_OUT3");
    (158, "CAM_PCLK_PAD_IN/LCD_DATA_OUT_PAD_OUT4"); (159, "CAM_H_ENABLE_PAD_IN/LCD_DATA_OUT_PAD_OUT5");
    (160, "CAM_H_SYNC_PAD_IN/LCD_DATA_OUT_PAD_OUT6"); (161, "CAM_V_SYNC_PAD_IN/LCD_DATA_OUT_PAD_OUT7");
    (162, "CAM_DATA0_IN_PAD_IN/LCD_DATA_OUT_PAD_OUT8"); (163, "CAM_DATA1_IN_PAD_IN/LCD_DATA_OUT_PAD_OUT9");
    (164, "CAM_DATA2_IN_PAD_IN/LCD_DATA_OUT_PAD_OUT10"); (165, "CAM_DATA3_IN_PAD_IN/LCD_DATA_OUT_PAD_OUT11");
    (166, "CAM_DATA4_IN_PAD_IN/LCD_DATA_OUT_PAD_OUT12"); (167, "CAM_DATA5_IN_PAD_IN/LCD_DATA_OUT_PAD_OUT13");
    (168, "CAM_DATA6_IN_PAD_IN/LCD_DATA_OUT_PAD_OUT14"); (169, "CAM_DATA7_IN_PAD_IN/LCD_DATA_OUT_PAD_OUT15");
    (170, "CAM_DATA8_IN_PAD_IN/LCD_DATA_OUT_PAD_OUT16"); (171, "CAM_DATA9_IN_PAD_IN/LCD_DATA_OUT_PAD_OUT17");
    (172, "CAM_DATA10_IN_PAD_IN/LCD_DATA_OUT_PAD_OUT18"); (173, "CAM_DATA11_IN_PAD_IN/LCD_DATA_OUT_PAD_OUT19");
    (174, "CAM_DATA12_IN_PAD_IN/LCD_DATA_OUT_PAD_OUT20"); (175, "CAM_DATA13_IN_PAD_IN/LCD_DATA_OUT_PAD_OUT21");
    (176, "CAM_DATA14_IN_PAD_IN/LCD_DATA_OUT_PAD_OUT22"); (177, "CAM_DATA15_IN_PAD_IN/LCD_DATA_OUT_PAD_OUT23");
    (178, "GMAC_PHY_RXDV_PAD_IN"); (179, "GMAC_PHY_RXD0_PAD_IN"); (180, "GMAC_PHY_RXD1_PAD_IN");
    (181, "GMAC_PHY_RXD2_PAD_IN"); (182, "GMAC_PHY_RXD3_PAD_IN"); (183, "GMAC_PHY_RXER_PAD_IN");
    (184, "GMAC_RX_CLK_PAD_IN/DBG_CH0_CLK"); (185, "GMAC_TX_CLK_PAD_IN/DBG_CH1_CLK"); (186, "PARLIO_RX_CLK_PAD_IN");
    (187, "PARLIO_TX_CLK_PAD_IN"); (188, "PARLIO_RX_DATA0_PAD_IN"); (189, "PARLIO_RX_DATA1_PAD_IN");
    (190, "PARLIO_RX_DATA2_PAD_IN"); (191, "PARLIO_RX_DATA3_PAD_IN"); (192, "PARLIO_RX_DATA4_PAD_IN");
    (193, "PARLIO_RX_DATA5_PAD_IN"); (194, "PARLIO_RX_DATA6_PAD_IN"); (195, "PARLIO_RX_DATA7_PAD_IN");
    (196, "PARLIO_RX_DATA8_PAD_IN"); (197, "PARLIO_RX_DATA9_PAD_IN"); (198, "PARLIO_RX_DATA10_PAD_IN");
    (199, "PARLIO_RX_DATA11_PAD_IN"); (200, "PARLIO_RX_DATA12_PAD_IN"); (201, "PARLIO_RX_DATA13_PAD_IN");
    (202, "PARLIO_RX_DATA14_PAD_IN"); (203, "PARLIO_RX_DATA15_PAD_IN"); (204, "PCNT1_SIG_CH0_IN0/HP_PROBE_TOP_OUT8");
    (205, "PCNT1_SIG_CH0_IN1/HP_PROBE_TOP_OUT9"); (206, "PCNT1_SIG_CH0_IN2/HP_PROBE_TOP_OUT10");
    (207, "PCNT1_SIG_CH0_IN3/HP_PROBE_TOP_OUT11"); (208, "PCNT1_SIG_CH1_IN0/HP_PROBE_TOP_OUT12");
    (209, "PCNT1_SIG_CH1_IN1/HP_PROBE_TOP_OUT13"); (210, "PCNT1_SIG_CH1_IN2/HP_PROBE_TOP_OUT14");
    (211, "PCNT1_SIG_CH1_IN3/HP_PROBE_TOP_OUT15"); (214, "CORE_GPIO_IN_PAD_IN0/CORE_GPIO_OUT_PAD_OUT0");
    (215, "CORE_GPIO_IN_PAD_IN1/CORE_GPIO_OUT_PAD_OUT1"); (216, "CORE_GPIO_IN_PAD_IN2/CORE_GPIO_OUT_PAD_OUT2");
    (217, "CORE_GPIO_IN_PAD_IN3/CORE_GPIO_OUT_PAD_OUT3"); (218, "CORE_GPIO_IN_PAD_IN4/CORE_GPIO_OUT_PAD_OUT4");
    (219, "CORE_GPIO_IN_PAD_IN5/CORE_GPIO_OUT_PAD_OUT5"); (220, "CORE_GPIO_IN_PAD_IN6/CORE_GPIO_OUT_PAD_OUT6");
    (221, "CORE_GPIO_IN_PAD_IN7/CORE_GPIO_OUT_PAD_OUT7"); (222, "CORE_GPIO_IN_PAD_IN8/CORE_GPIO_OUT_PAD_OUT8");
    (223, "CORE_GPIO_IN_PAD_IN9/CORE_GPIO_OUT_PAD_OUT9"); (224, "CORE_GPIO_IN_PAD_IN10/CORE_GPIO_OUT_PAD_OUT10");
    (225, "CORE_GPIO_IN_PAD_IN11/CORE_GPIO_OUT_PAD_OUT11"); (226, "CORE_GPIO_IN_PAD_IN12/CORE_GPIO_OUT_PAD_OUT12");
    (227, "CORE_GPIO_IN_PAD_IN13/CORE_GPIO_OUT_PAD_OUT13"); (228, "CORE_GPIO_IN_PAD_IN14/CORE_GPIO_OUT_PAD_OUT14");
    (229, "CORE_GPIO_IN_PAD_IN15/CORE_GPIO_OUT_PAD_OUT15"); (230, "CORE_GPIO_IN_PAD_IN16/LEDC1_LS_SIG_OUT_PAD_OUT0");
    (231, "CORE_GPIO_IN_PAD_IN17/LEDC1_LS_SIG_OUT_PAD_OUT1"); (232, "CORE_GPIO_IN_PAD_IN18/LEDC1_LS_SIG_OUT_PAD_OUT2");
    (233, "CORE_GPIO_IN_PAD_IN19/LEDC1_LS_SIG_OUT_PAD_OUT3"); (234, "CORE_GPIO_IN_PAD_IN20/LEDC1_LS_SIG_OUT_PAD_OUT4");
    (235, "CORE_GPIO_IN_PAD_IN21/LEDC1_LS_SIG_OUT_PAD_OUT5"); (236, "CORE_GPIO_IN_PAD_IN22/LEDC1_LS_SIG_OUT_PAD_OUT6");
    (237, "CORE_GPIO_IN_PAD_IN23/LEDC1_LS_SIG_OUT_PAD_OUT7"); (238, "CORE_GPIO_IN_PAD_IN24");
    (239, "CORE_GPIO_IN_PAD_IN25"); (240, "CORE_GPIO_IN_PAD_IN26"); (241, "CORE_GPIO_IN_PAD_IN27");
    (242, "CORE_GPIO_IN_PAD_IN28"); (243, "CORE_GPIO_IN_PAD_IN29"); (244, "CORE_GPIO_IN_PAD_IN30");
    (245, "CORE_GPIO_IN_PAD_IN31/DBG_CH2_CLK"); (246, "RMT_SIG_IN0/RMT_SIG_OUT0"); (247, "RMT_SIG_IN1/RMT_SIG_OUT1");
    (248, "RMT_SIG_IN2/RMT_SIG_OUT2"); (249, "RMT_SIG_IN3/RMT_SIG_OUT3"); (251, "SIG_IN_FUNC251");
    (252, "SIG_IN_FUNC252"); (253, "SIG_IN_FUNC253"); (254, "SIG_IN_FUNC254"); (255, "SIG_IN_FUNC255")]%string.
Definition sig_out_low : list (Z * string) :=
  [(0, "SD_CARD_CDATA4_1_PAD_OUT"); (1, "SD_CARD_CDATA5_1_PAD_OUT"); (2, "SD_CARD_CDATA6_1_PAD_OUT");
    (3, "SD_CARD_CDATA7_1_PAD_OUT"); (4, "SD_CARD_CDATA4_2_PAD_OUT"); (5, "SD_CARD_CDATA5_2_PAD_OUT");
    (6, "SD_CARD_CDATA6_2_PAD_OUT"); (7, "SD_CARD_CDATA7_2_PAD_OUT"); (8, "PAD_MODEM_ANT_SEL0");
    (9, "PAD_MODEM_ANT_SEL1"); (10, "UART0_TXD_PAD_OUT"); (11, "UART0_RTS_PAD_OUT"); (12, "UART0_DTR_PAD_OUT");
    (13, "UART1_TXD_PAD_OUT"); (14, "UART1_RTS_PAD_OUT"); (15, "UART1_DTR_PAD_OUT"); (16, "UART2_TXD_PAD_OUT");
    (17, "UART2_RTS_PAD_OUT"); (18, "UART2_DTR_PAD_OUT"); (19, "GPIO_EXTERN_ACTIVE_PAD_OUT");
    (20, "GPIO_EXTERN_PRIORITY_PAD_OUT"); (21, "GPIO_EVENT_MATRIX_IN0/GPIO_TASK_MATRIX_OUT0");
    (22, "GPIO_EVENT_MATRIX_IN1/GPIO_TASK_MATRIX_OUT1"); (23, "GPIO_EVENT_MATRIX_IN2/GPIO_TASK_MATRIX_OUT2");
    (24, "GPIO_EVENT_MATRIX_IN3/GPIO_TASK_MATRIX_OUT3"); (25, "I2S0_O_BCK_PAD_OUT"); (26, "I2S0_MCLK_PAD_OUT");
    (27, "I2S0_O_WS_PAD_OUT"); (28, "I2S0_O_SD_PAD_OUT"); (29, "I2S0_I_BCK_PAD_OUT"); (30, "I2S0_I_WS_PAD_OUT");
    (31, "I2S1_O_BCK_PAD_OUT"); (32, "I2S1_MCLK_PAD_OUT"); (33, "I2S1_O_WS_PAD_OUT"); (34, "I2S1_O_SD_PAD_OUT");
    (35, "I2S1_I_BCK_PAD_OUT"); (36, "I2S1_I_WS_PAD_OUT"); (37, "PCNT1_RST_IN0/PAD_MODEM_ANT_SEL2");
    (38, "PCNT1_RST_IN1/PAD_MODEM_ANT_SEL3"); (39, "PCNT1_RST_IN2/PAD_MODEM_ANT_SEL4");
    (40, "PCNT1_RST_IN3/PAD_MODEM_ANT_SEL5"); (41, "PAD_MODEM_ANT_SEL6"); (42, "PAD_MODEM_ANT_SEL7");
    (43, "I2S0_O_SD1_PAD_OUT"); (44, "SPI2_DQS_PAD_OUT"); (45, "SPI3_CS2_PAD_OUT"); (46, "SPI3_CS1_PAD_OUT");
    (47, "SPI3_CK_PAD_OUT"); (48, "SPI3_QO_PAD_OUT"); (49, "SPI3_D_PAD_OUT"); (50, "SPI3_HOLD_PAD_OUT");
    (51, "SPI3_WP_PAD_OUT"); (52, "SPI3_CS_PAD_OUT"); (53, "SPI2_CK_PAD_OUT"); (54, "SPI2_Q_PAD_OUT");
    (55, "SPI2_D_PAD_OUT"); (56, "SPI2_HOLD_PAD_OUT"); (57, "SPI2_WP_PAD_OUT"); (58, "SPI2_IO4_PAD_OUT");
    (59, "SPI2_IO5_PAD_OUT"); (60, "SPI2_IO6_PAD_OUT"); (61, "SPI2_IO7_PAD_OUT"); (62, "SPI2_CS_PAD_OUT");
    (63, "PCNT0_RST_IN0/SPI2_CS1_PAD_OUT"); (64, "PCNT0_RST_IN1/SPI2_CS2_PAD_OUT");
    (65, "PCNT0_RST_IN2/SPI2_CS3_PAD_OUT"); (66, "PCNT0_RST_IN3/SPI2_CS4_PAD_OUT"); (67, "SPI2_CS5_PAD_OUT");
    (68, "I2C0_SCL_PAD_OUT"); (69, "I2C0_SDA_PAD_OUT"); (70, "I2C1_SCL_PAD_OUT"); (71, "I2C1_SDA_PAD_OUT");
    (72, "PCNT1_CTRL_CH0_IN0/GPIO_SD0_OUT"); (73, "PCNT1_CTRL_CH0_IN1/GPIO_SD1_OUT");
    (74, "PCNT1_CTRL_CH0_IN2/GPIO_SD2_OUT"); (75, "PCNT1_CTRL_CH0_IN3/GPIO_SD3_OUT");
    (76, "PCNT1_CTRL_CH1_IN0/GPIO_SD4_OUT"); (77, "PCNT1_CTRL_CH1_IN1/GPIO_SD5_OUT");
    (78, "PCNT1_CTRL_CH1_IN2/GPIO_SD6_OUT"); (79, "PCNT1_CTRL_CH1_IN3/GPIO_SD7_OUT"); (80, "TWAI0_RX/TWAI0_TX");
    (81, "TWAI1_RX/PAD_MODEM_ANT_SEL8"); (82, "PAD_MODEM_ANT_SEL9"); (83, "TWAI1_TX"); (84, "PAD_MODEM_ANT_SEL10");
    (85, "PAD_MODEM_ANT_SEL11"); (86, "PWM2_CH0_A_PAD_OUT"); (87, "PWM2_CH0_B_PAD_OUT"); (88, "PWM2_CH1_A_PAD_OUT");
    (89, "PWM0_CH0_A_PAD_OUT"); (90, "PWM0_CH0_B_PAD_OUT"); (91, "PWM0_CH1_A_PAD_OUT"); (92, "PWM0_CH1_B_PAD_OUT");
    (93, "PWM0_CH2_A_PAD_OUT"); (94, "PWM0_CH2_B_PAD_OUT"); (95, "PWM1_CH0_A_PAD_OUT"); (96, "PWM1_CH0_B_PAD_OUT");
    (97, "PWM1_CH1_A_PAD_OUT"); (98, "PWM1_CH1_B_PAD_OUT"); (99, "PWM1_CH2_A_PAD_OUT"); (100, "PWM1_CH2_B_PAD_OUT");
    (101, "PAD_MODEM_ANT_SEL12"); (102, "PAD_MODEM_ANT_SEL13"); (103, "PAD_MODEM_ANT_SEL14");
    (104, "PAD_MODEM_ANT_SEL15"); (105, "EMAC_PTP_PPS_PAD_OUT"); (106, "GPIO_EXTERN_GRANT_PAD_OUT");
    (107, "PARLIO_TX_CS_PAD_OUT"); (108, "GMII_MDC_PAD_OUT"); (109, "GMII_MDO_PAD_OUT"); (110, "PWM2_CH1_B_PAD_OUT");
    (111, "PWM2_CH2_A_PAD_OUT"); (112, "PWM2_CH2_B_PAD_OUT"); (113, "PWM3_CH0_A_PAD_OUT"); (114, "PWM3_CH0_B_PAD_OUT");
    (115, "PWM3_CH1_A_PAD_OUT"); (116, "UART3_DTR_PAD_OUT"); (117, "RNG_CHAIN_CLK_PAD_OUT"); (118, "HP_PROBE_TOP_OUT0");
    (119, "HP_PROBE_TOP_OUT1"); (120, "HP_PROBE_TOP_OUT2"); (121, "HP_PROBE_TOP_OUT3"); (122, "HP_PROBE_TOP_OUT4");
    (123, "HP_PROBE_TOP_OUT5"); (124, "HP_PROBE_TOP_OUT6"); (125, "HP_PROBE_TOP_OUT7");
    (126, "LEDC0_LS_SIG_OUT_PAD_OUT0"); (127, "LEDC0_LS_SIG_OUT_PAD_OUT1")]%string.
Definition sig_out_high : list (Z * string) :=
  [(128, "LEDC0_LS_SIG_OUT_PAD_OUT2"); (129, "LEDC0_LS_SIG_OUT_PAD_OUT3"); (130, "LEDC0_LS_SIG_OUT_PAD_OUT4");
    (131, "LEDC0_LS_SIG_OUT_PAD_OUT5"); (132, "LEDC0_LS_SIG_OUT_PAD_OUT6"); (133, "LEDC0_LS_SIG_OUT_PAD_OUT7");
    (134, "PWM3_CH1_B_PAD_OUT"); (135, "PWM3_CH2_A_PAD_OUT"); (136, "PWM3_CH2_B_PAD_OUT"); (137, "UART3_TXD_PAD_OUT");
    (138, "UART3_RTS_PAD_OUT"); (139, "USB_JTAG_SRST_BRIDGE_PAD_OUT"); (140, "USB_JTAG_TDI_BRIDGE_PAD_OUT");
    (141, "PCNT0_SIG_CH0_IN0/USB_JTAG_TMS_BRIDGE_PAD_OUT"); (142, "PCNT0_SIG_CH0_IN1/USB_JTAG_TCK_BRIDGE_PAD_OUT");
    (143, "PCNT0_SIG_CH0_IN2/USB_JTAG_TRST_BRIDGE_PAD_OUT"); (144, "PCNT0_SIG_CH0_IN3/LCD_CS_PAD_OUT");
    (145, "PCNT0_SIG_CH1_IN0/LCD_DC_PAD_OUT"); (146, "PCNT0_SIG_CH1_IN1/SD_RST_N_1_PAD_OUT");
    (147, "PCNT0_SIG_CH1_IN2/SD_RST_N_2_PAD_OUT"); (148, "PCNT0_SIG_CH1_IN3/SD_CCMD_OD_PULLUP_EN_N_PAD_OUT");
    (149, "PCNT0_CTRL_CH0_IN0/LCD_PCLK_PAD_OUT"); (150, "PCNT0_CTRL_CH0_IN1/CAM_CLK_PAD_OUT");
    (151, "PCNT0_CTRL_CH0_IN2/LCD_H_ENABLE_PAD_OUT"); (152, "PCNT0_CTRL_CH0_IN3/LCD_H_SYNC_PAD_OUT");
    (153, "PCNT0_CTRL_CH1_IN0/LCD_V_SYNC_PAD_OUT"); (154, "PCNT0_CTRL_CH1_IN1/LCD_DATA_OUT_PAD_OUT0");
    (155, "PCNT0_CTRL_CH1_IN2/LCD_DATA_OUT_PAD_OUT1"); (156, "PCNT0_CTRL_CH1_IN3/LCD_DATA_OUT_PAD_OUT2");
    (157, "LCD_DATA_OUT_PAD_OUT3"); (158, "LCD_DATA_OUT_PAD_OUT4"); (159, "LCD_DATA_OUT_PAD_OUT5");
    (160, "LCD_DATA_OUT_PAD_OUT6"); (161, "LCD_DATA_OUT_PAD_OUT7"); (162, "LCD_DATA_OUT_PAD_OUT8");
    (163, "LCD_DATA_OUT_PAD_OUT9"); (164, "LCD_DATA_OUT_PAD_OUT10"); (165, "LCD_DATA_OUT_PAD_OUT11");
    (166, "LCD_DATA_OUT_PAD_OUT12"); (167, "LCD_DATA_OUT_PAD_OUT13"); (168, "LCD_DATA_OUT_PAD_OUT14");
    (169, "LCD_DATA_OUT_PAD_OUT15"); (170, "LCD_DATA_OUT_PAD_OUT16"); (171, "LCD_DATA_OUT_PAD_OUT17");
    (172, "LCD_DATA_OUT_PAD_OUT18"); (173, "LCD_DATA_OUT_PAD_OUT19"); (174, "LCD_DATA_OUT_PAD_OUT20");
    (175, "LCD_DATA_OUT_PAD_OUT21"); (176, "LCD_DATA_OUT_PAD_OUT22"); (177, "LCD_DATA_OUT_PAD_OUT23");
    (178, "GMAC_PHY_TXEN_PAD_OUT"); (179, "GMAC_PHY_TXD0_PAD_OUT"); (180, "GMAC_PHY_TXD1_PAD_OUT");
    (181, "GMAC_PHY_TXD2_PAD_OUT"); (182, "GMAC_PHY_TXD3_PAD_OUT"); (183, "GMAC_PHY_TXER_PAD_OUT");
    (184, "DBG_CH0_CLK"); (185, "DBG_CH1_CLK"); (186, "PARLIO_RX_CLK_PAD_OUT"); (187, "PARLIO_TX_CLK_PAD_OUT");
    (188, "PARLIO_TX_DATA0_PAD_OUT"); (189, "PARLIO_TX_DATA1_PAD_OUT"); (190, "PARLIO_TX_DATA2_PAD_OUT");
    (191, "PARLIO_TX_DATA3_PAD_OUT"); (192, "PARLIO_TX_DATA4_PAD_OUT"); (193, "PARLIO_TX_DATA5_PAD_OUT");
    (194, "PARLIO_TX_DATA6_PAD_OUT"); (195, "PARLIO_TX_DATA7_PAD_OUT"); (196, "PARLIO_TX_DATA8_PAD_OUT");
    (197, "PARLIO_TX_DATA9_PAD_OUT"); (198, "PARLIO_TX_DATA10_PAD_OUT"); (199, "PARLIO_TX_DATA11_PAD_OUT");
    (200, "PARLIO_TX_DATA12_PAD_OUT"); (201, "PARLIO_TX_DATA13_PAD_OUT"); (202, "PARLIO_TX_DATA14_PAD_OUT");
    (203, "PARLIO_TX_DATA15_PAD_OUT"); (204, "PCNT1_SIG_CH0_IN0/HP_PROBE_TOP_OUT8");
    (205, "PCNT1_SIG_CH0_IN1/HP_PROBE_TOP_OUT9"); (206, "PCNT1_SIG_CH0_IN2/HP_PROBE_TOP_OUT10");
    (207, "PCNT1_SIG_CH0_IN3/HP_PROBE_TOP_OUT11"); (208, "PCNT1_SIG_CH1_IN0/HP_PROBE_TOP_OUT12");
    (209, "PCNT1_SIG_CH1_IN1/HP_PROBE_TOP_OUT13"); (210, "PCNT1_SIG_CH1_IN2/HP_PROBE_TOP_OUT14");
    (211, "PCNT1_SIG_CH1_IN3/HP_PROBE_TOP_OUT15"); (212, "CONSTANT0_PAD_OUT"); (213, "CONSTANT1_PAD_OUT");
    (214, "CORE_GPIO_IN_PAD_IN0/CORE_GPIO_OUT_PAD_OUT0"); (215, "CORE_GPIO_IN_PAD_IN1/CORE_GPIO_OUT_PAD_OUT1");
    (216, "CORE_GPIO_IN_PAD_IN2/CORE_GPIO_OUT_PAD_OUT2"); (217, "CORE_GPIO_IN_PAD_IN3/CORE_GPIO_OUT_PAD_OUT3");
    (218, "CORE_GPIO_IN_PAD_IN4/CORE_GPIO_OUT_PAD_OUT4"); (219, "CORE_GPIO_IN_PAD_IN5/CORE_GPIO_OUT_PAD_OUT5");
    (220, "CORE_GPIO_IN_PAD_IN6/CORE_GPIO_OUT_PAD_OUT6"); (221, "CORE_GPIO_IN_PAD_IN7/CORE_GPIO_OUT_PAD_OUT7");
    (222, "CORE_GPIO_IN_PAD_IN8/CORE_GPIO_OUT_PAD_OUT8"); (223, "CORE_GPIO_IN_PAD_IN9/CORE_GPIO_OUT_PAD_OUT9");
    (224, "CORE_GPIO_IN_PAD_IN10/CORE_GPIO_OUT_PAD_OUT10"); (225, "CORE_GPIO_IN_PAD_IN11/CORE_GPIO_OUT_PAD_OUT11");
    (226, "CORE_GPIO_IN_PAD_IN12/CORE_GPIO_OUT_PAD_OUT12"); (227, "CORE_GPIO_IN_PAD_IN13/CORE_GPIO_OUT_PAD_OUT13");
    (228, "CORE_GPIO_IN_PAD_IN14/CORE_GPIO_OUT_PAD_OUT14"); (229, "CORE_GPIO_IN_PAD_IN15/CORE_GPIO_OUT_PAD_OUT15");
    (230, "CORE_GPIO_IN_PAD_IN16/LEDC1_LS_SIG_OUT_PAD_OUT0"); (231, "CORE_GPIO_IN_PAD_IN17/LEDC1_LS_SIG_OUT_PAD_OUT1");
    (232, "CORE_GPIO_IN_PAD_IN18/LEDC1_LS_SIG_OUT_PAD_OUT2"); (233, "CORE_GPIO_IN_PAD_IN19/LEDC1_LS_SIG_OUT_PAD_OUT3");
    (234, "CORE_GPIO_IN_PAD_IN20/LEDC1_LS_SIG_OUT_PAD_OUT4"); (235, "CORE_GPIO_IN_PAD_IN21/LEDC1_LS_SIG_OUT_PAD_OUT5");
    (236, "CORE_GPIO_IN_PAD_IN22/LEDC1_LS_SIG_OUT_PAD_OUT6"); (237, "CORE_GPIO_IN_PAD_IN23/LEDC1_LS_SIG_OUT_PAD_OUT7");
    (238, "CORE_GPIO_IN_PAD_IN24/GMAC_PHY_TXD4_PAD_OUT"); (239, "CORE_GPIO_IN_PAD_IN25/GMAC_PHY_TXD5_PAD_OUT");
    (240, "CORE_GPIO_IN_PAD_IN26/GMAC_PHY_TXD6_PAD_OUT"); (241, "CORE_GPIO_IN_PAD_IN27/GMAC_PHY_TXD7_PAD_OUT");
    (242, "CORE_GPIO_IN_PAD_IN28"); (243, "CORE_GPIO_IN_PAD_IN29"); (244, "CORE_GPIO_IN_PAD_IN30/ANA_COMP0_OUT");
    (245, "CORE_GPIO_IN_PAD_IN31/DBG_CH2_CLK"); (246, "RMT_SIG_IN0/RMT_SIG_OUT0"); (247, "RMT_SIG_IN1/RMT_SIG_OUT1");
    (248, "RMT_SIG_IN2/RMT_SIG_OUT2"); (249, "RMT_SIG_IN3/RMT_SIG_OUT3"); (251, "SIG_IN_FUNC251");
    (252, "SIG_IN_FUNC252"); (253, "SIG_IN_FUNC253"); (254, "SIG_IN_FUNC254"); (255, "SIG_IN_FUNC255")]%string.
(** The row of an index. *)
Definition row (t : list (Z * string)) (sig : Z) : option string := snd <$> List.find (fun x => fst x =? sig) t.
Definition sig_in_names (sig : Z) : option string := row (sig_in_low ++ sig_in_high) sig.
Definition sig_out_names (sig : Z) : option string := row (sig_out_low ++ sig_out_high) sig.

(** * The text *)

(** The parts of a text between its commas. *)
Fixpoint items_loop (fuel : nat) (s : string) : list string :=
  match fuel, s with
  | O, _ | _, EmptyString => []
  | S fuel, _ => let '(item, rest) := before (Ascii.eqb ",") s in item :: items_loop fuel (tail1 rest)
  end.
Definition items (s : string) : list string := items_loop (String.length s) s.
Definition join (l : list string) : string := String.concat "," l.
(** A name once. *)
Definition add (l : list string) (name : string) : list string := if existsb (fun i => String.eqb i name) l then l else l ++ [name].
Definition once (l : list string) : list string := fold_left add l [].
(** The names that matrix_signals() gives a signal. *)
Definition in_name (sig : Z) : string := short_name (default "-"%string (sig_in_names sig)) 96.
Definition out_name (out : Z) : string := short_name (default "-"%string (if out <? NSIGS then sig_out_names out else None)) 96.
(** The names of the signals on a pin: its output signal, then the inputs that read it. *)
Definition on_pin (in_sig : Z -> option Z) (out pin : Z) : list string :=
  (if out =? SIG_GPIO_OUT then [] else [out_name out]) ++
  map in_name (List.filter (fun sig => bool_decide (in_sig sig = Some pin)) (seqZ 0 NSIGS)).

(** * Lists of names *)

Definition plain_char (c : ascii) : bool := negb (Ascii.eqb "," c).
Definition plain_name (n : string) : bool := negb (String.eqb n "") && all_chars plain_char n.

Lemma listed_items name : forall fuel buf, listed fuel buf name = existsb (fun i => String.eqb i name) (items_loop fuel buf).
Proof.
  induction fuel as [|fuel IH]; intros buf; [done|]. destruct buf as [|c buf]; [done|]. cbn [listed items_loop].
  destruct (before _ _) as [item rest]. cbn [existsb]. by rewrite IH.
Qed.
Lemma join_cons n m l : join (n :: m :: l) = (n ++ "," ++ join (m :: l))%string.
Proof. done. Qed.
Lemma join_snoc n l : Forall (fun x => plain_name x = true) l ->
  join (l ++ [n]) = (join l ++ (if nz (slen (join l)) then "," else "") ++ n)%string.
Proof.
  intros H. destruct l as [|x l]; [done|].
  assert (nz (slen (join (x :: l))) = true) as ->.
  { apply Forall_inv in H. destruct x as [|c x]; [done|]. unfold nz, slen. destruct l; cbn [join String.concat String.length String.append]; by rewrite Nat2Z.inj_succ, (proj2 (Z.eqb_neq _ 0)) by lia. }
  clear H. revert x. induction l as [|y l IH]; intros x; [done|].
  cbn [app]. rewrite !join_cons. change (y :: l ++ [n]) with ((y :: l) ++ [n]). rewrite IH. by rewrite !str_app_assoc.
Qed.
Lemma items_join : forall l fuel, Forall (fun x => plain_name x = true) l -> (String.length (join l) <= fuel)%nat -> items_loop fuel (join l) = l.
Proof.
  induction l as [|n l IH]; intros fuel H Hf; [by destruct fuel|].
  apply Forall_cons_1 in H as [Hn H]. unfold plain_name in Hn. apply andb_true_iff in Hn as [N A].
  destruct l as [|m l].
  - cbn [join String.concat] in *. destruct n as [|c n]; [done|]. destruct fuel as [|fuel]; [cbn in Hf; lia|]. cbn [items_loop].
    rewrite <- (str_app_nil (String c n)). rewrite before_all; [|exact A|done]. rewrite str_app_nil. by destruct fuel.
  - rewrite join_cons in *. destruct n as [|c n]; [done|]. destruct fuel as [|fuel]; [cbn in Hf; lia|]. cbn [items_loop String.append].
    pose proof (before_all (Ascii.eqb ",") (String c n) (String "," (join (m :: l))) A ltac:(by intros ? ? [= <- _])) as B.
    cbn [String.append] in B. rewrite B. cbn [tail1]. f_equal. apply IH; [done|].
    pose proof (slen_app (String c n) (String "," (join (m :: l)))) as L. unfold slen in L. cbn [String.append String.length] in *. lia.
Qed.
Lemma once_items l : Forall (fun x => plain_name x = true) l -> items (join l) = l.
Proof. intros H. by apply items_join. Qed.
Lemma add_In l n x : In x (add l n) <-> In x l \/ x = n.
Proof.
  unfold add. destruct (existsb (fun i => String.eqb i n) l) eqn:E.
  - apply existsb_exists in E as (i & I & X). apply String.eqb_eq in X as ->. intuition congruence.
  - rewrite in_app_iff. cbn. intuition congruence.
Qed.
Lemma adds_In ns : forall l x, In x (fold_left add ns l) <-> In x l \/ In x ns.
Proof. induction ns as [|n ns IH]; intros l x; cbn; [tauto|]. rewrite IH, add_In. intuition congruence. Qed.
Lemma add_plain l n : Forall (fun x => plain_name x = true) l -> plain_name n = true -> Forall (fun x => plain_name x = true) (add l n).
Proof. intros H N. unfold add. destruct (existsb _ _); [done|]. apply Forall_app. split; [done|]. by constructor. Qed.
Lemma adds_plain ns : forall l, Forall (fun x => plain_name x = true) l -> Forall (fun x => plain_name x = true) ns ->
  Forall (fun x => plain_name x = true) (fold_left add ns l).
Proof. induction ns as [|n ns IH]; intros l H N; [done|]. apply Forall_cons_1 in N as [N1 N]. apply IH; [|done]. by apply add_plain. Qed.
Lemma add_longer l n : Forall (fun x => plain_name x = true) l -> slen (join l) <= slen (join (add l n)).
Proof. intros H. unfold add. destruct (existsb _ _); [lia|]. rewrite join_snoc, slen_app by done. match goal with |- _ <= _ + ?x => assert (0 <= x) by apply slen_nonneg end. lia. Qed.
Lemma adds_longer ns : forall l, Forall (fun x => plain_name x = true) l -> Forall (fun x => plain_name x = true) ns ->
  slen (join l) <= slen (join (fold_left add ns l)).
Proof.
  induction ns as [|n ns IH]; intros l H N; [apply Z.le_refl|]. apply Forall_cons_1 in N as [N1 N]. cbn [fold_left].
  pose proof (add_longer l n H). pose proof (IH (add l n) (add_plain l n H N1) N). lia.
Qed.
(** append() adds a name that fits, once. *)
Lemma append_join l raw len : Forall (fun x => plain_name x = true) l ->
  slen (join (add l (short_name (default "-"%string raw) 96))) < len ->
  append (join l) len raw = join (add l (short_name (default "-"%string raw) 96)).
Proof.
  intros H L. unfold append. set (n := short_name _ 96) in *. rewrite listed_items. change (items_loop _ _) with (items (join l)).
  rewrite once_items by done. unfold add in *. destruct (existsb _ l); [done|]. rewrite join_snoc in * by done. f_equal. apply cut_short.
  rewrite slen_app in L. lia.
Qed.

(** * The names of the tables *)

Definition named (t : Z -> option string) (sig : Z) : bool := match t sig with Some _ => true | None => false end.
(** All named signals with their names. *)
Definition all_names : list (Z * string) :=
  map (fun i => (i, in_name i)) (List.filter (named sig_in_names) (seqZ 0 256)) ++
  map (fun i => (i, out_name i)) (List.filter (named sig_out_names) (seqZ 0 256)).
Lemma names_plain :
  forallb (fun i => plain_name (in_name i) && plain_name (out_name i) && (slen (in_name i) <=? 47) && (slen (out_name i) <=? 47)) (seqZ 0 256) = true.
Proof. vm_compute. reflexivity. Qed.
(** No two signals have the same name, but for an input and the output of the same index. *)
Lemma names_unique :
  forallb (fun x => negb (String.eqb (snd x) "-") && forallb (fun y => (fst x =? fst y) || negb (String.eqb (snd x) (snd y))) all_names) all_names = true.
Proof. vm_compute. reflexivity. Qed.
Lemma table_names i : 0 <= i < 256 -> plain_name (in_name i) = true /\ plain_name (out_name i) = true /\ slen (in_name i) <= 47 /\ slen (out_name i) <= 47.
Proof.
  intros Hi. pose proof names_plain as T.
  rewrite forallb_forall in T. specialize (T i ltac:(apply list_elem_of_In, elem_of_seqZ; lia)).
  rewrite !andb_true_iff, !Z.leb_le in T. tauto.
Qed.
Lemma row_range t sig n : forallb (fun x => (0 <=? fst x) && (fst x <? 256)) t = true -> row t sig = Some n -> 0 <= sig < 256.
Proof.
  unfold row. intros A E. destruct (List.find _ t) as [x|] eqn:F; [|done]. apply List.find_some in F as [I F].
  rewrite forallb_forall in A. specialize (A x I). lia.
Qed.
Lemma in_range sig n : sig_in_names sig = Some n -> 0 <= sig < 256.
Proof. by apply row_range. Qed.
Lemma out_range sig n : sig_out_names sig = Some n -> 0 <= sig < 256.
Proof. by apply row_range. Qed.
(** A table, its names and the range of its indexes. *)
Inductive direction := In_sig | Out_sig.
Definition names_of (d : direction) : Z -> option string := match d with In_sig => sig_in_names | Out_sig => sig_out_names end.
Definition name_of (d : direction) : Z -> string := match d with In_sig => in_name | Out_sig => out_name end.
Lemma all_names_In d i n : names_of d i = Some n -> In (i, name_of d i) all_names.
Proof.
  intros H. assert (0 <= i < 256) by (destruct d; [by apply (in_range i n)|by apply (out_range i n)]).
  apply in_app_iff. destruct d; [left|right]; apply in_map_iff; exists i; (split; [done|]); apply filter_In;
    (split; [apply list_elem_of_In, elem_of_seqZ; lia|]); cbn [names_of] in H; unfold named; by rewrite H.
Qed.
Lemma all_names_ok x : In x all_names -> snd x <> "-"%string /\ (forall y, In y all_names -> snd x = snd y -> fst x = fst y).
Proof.
  intros I. pose proof names_unique as T. rewrite forallb_forall in T.
  specialize (T x I). apply andb_true_iff in T as [D T]. apply negb_true_iff, String.eqb_neq in D. split; [done|].
  rewrite forallb_forall in T. intros y J E. specialize (T y J). rewrite E, String.eqb_refl in T. cbn [negb] in T. rewrite orb_false_r in T.
  by apply Z.eqb_eq.
Qed.
Lemma name_not_dash d i n : names_of d i = Some n -> name_of d i <> "-"%string.
Proof. intros H. by apply (all_names_ok (i, name_of d i)), (all_names_In d i n). Qed.
Lemma name_unique d d' i j n n' : names_of d i = Some n -> names_of d' j = Some n' -> name_of d i = name_of d' j -> i = j.
Proof. intros Hi Hj E. apply (proj2 (all_names_ok (i, name_of d i) (all_names_In d i n Hi)) (j, name_of d' j)); [by apply (all_names_In d' j n')|done]. Qed.

(** * What get shows *)

Lemma filtered_plain f sigs : Forall (fun s => 0 <= s < 256) sigs -> Forall (fun x => plain_name x = true) (map in_name (List.filter f sigs)).
Proof. induction 1 as [|s sigs Hs _ IH]; [done|]. cbn [List.filter]. destruct (f s); [|done]. constructor; [by apply table_names|done]. Qed.
Lemma input_signals_join p pin : forall sigs l found, Forall (fun x => plain_name x = true) l -> Forall (fun s => 0 <= s < 256) sigs ->
  let r := fold_left add (map in_name (List.filter (fun sig => bool_decide (in_sel p sig = Some pin)) sigs)) l in
  slen (join r) < 128 -> fst (input_signals sig_in_names p pin sigs (join l) 128 found) = join r.
Proof.
  induction sigs as [|s sigs IH]; intros l found H Hs; cbn zeta; [done|]. apply Forall_cons_1 in Hs as [Hs Hss].
  cbn [input_signals List.filter]. unfold gpio_rd. rewrite get_plain by (unfold GPIO_IN_SEL; lia).
  assert (bool_decide (in_sel p s = Some pin) = nz (Z.land (gpio p (GPIO_IN_SEL s)) IN_SEL_MATRIX) && (Z.land (gpio p (GPIO_IN_SEL s)) IN_SEL_PIN =? pin)) as ->.
  { unfold in_sel, IN_SEL_MATRIX, IN_SEL_PIN. destruct (nz _); cbn [andb]; [|done].
    destruct (Z.eqb_spec (Z.land (gpio p (GPIO_IN_SEL s)) 255) pin) as [->|N]; [by rewrite bool_decide_true|rewrite bool_decide_false; congruence]. }
  destruct (_ && _); [|by apply IH]. cbn [map fold_left]. intros L. destruct (table_names s Hs) as (P & _).
  assert (slen (join (add l (in_name s))) < 128).
  { eapply Z.le_lt_trans; [|exact L]. apply adds_longer; [by apply add_plain|]. by apply filtered_plain. }
  rewrite append_join by done. by apply IH; [apply add_plain|..].
Qed.
Lemma out_name_plain out : 0 <= out -> plain_name (out_name out) = true.
Proof.
  intros H. destruct (Z.ltb_spec out 256); [by apply table_names|]. unfold out_name, NSIGS. rewrite (proj2 (Z.ltb_ge _ _)) by done. done.
Qed.
(** The names are listed once and in order when they fit in the 127 characters. *)
Lemma matrix_signals_join p pin : pin_ok pin ->
  let l := fold_left add (on_pin (in_sel p) (v_sel (view_of p pin)) pin) [] in
  slen (join l) < 128 -> fst (matrix_signals sig_in_names sig_out_names p pin 128) = join l.
Proof.
  intros Hp. cbn zeta. unfold matrix_signals, on_pin, gpio_rd. unfold pin_ok, NPINS in Hp. rewrite get_plain by (unfold GPIO_OUT_SEL; lia).
  change (v_sel (view_of p pin)) with (Z.land (gpio p (GPIO_OUT_SEL pin)) OUT_SEL_SIG).
  set (o := Z.land _ _). rewrite fold_left_app. set (sigs := seqZ 0 NSIGS). intros L.
  assert (0 <= o) by (apply Z.land_nonneg; right; done).
  assert (Forall (fun s => 0 <= s < 256) sigs) by (apply Forall_forall; intros s I; apply list_elem_of_In, elem_of_seqZ in I; unfold NSIGS in I; lia).
  destruct (Z.eqb_spec o SIG_GPIO_OUT).
  - rewrite (input_signals_join p pin sigs []); done.
  - assert (append "" 128 (if o <? NSIGS then sig_out_names o else None) = join (add [] (out_name o))) as ->.
    { apply (append_join [] _ 128); [done|]. eapply Z.le_lt_trans; [|exact L]. apply adds_longer.
      - apply add_plain; [done|by apply out_name_plain].
      - by apply filtered_plain. }
    rewrite (input_signals_join p pin sigs); [done| |done|done]. apply add_plain; [done|by apply out_name_plain].
Qed.
Lemma on_pin_plain in_sig out pin : 0 <= out -> Forall (fun x => plain_name x = true) (on_pin in_sig out pin).
Proof.
  intros Ho. unfold on_pin. apply Forall_app. split.
  - destruct (_ =? _); [done|]. constructor; [by apply out_name_plain|done].
  - apply filtered_plain, Forall_forall. intros s I. apply list_elem_of_In, elem_of_seqZ in I. unfold NSIGS in I. lia.
Qed.
(** A name of a table is among the names of a pin just when its signal is on the pin, or the signal of the other
    table with the same index and name. *)
Lemma on_pin_In d in_sig out pin sig n : names_of d sig = Some n ->
  In (name_of d sig) (on_pin in_sig out pin) <->
  (in_sig sig = Some pin /\ in_name sig = name_of d sig) \/ (out = sig /\ out_name sig = name_of d sig).
Proof.
  intros N. unfold on_pin. rewrite in_app_iff, in_map_iff. pose proof (name_not_dash d sig n N) as D.
  assert (0 <= sig < 256) by (destruct d; [by apply (in_range sig n)|by apply (out_range sig n)]). unfold NSIGS.
  split.
  - intros [I|(i & E & I)].
    + right. destruct (Z.eqb_spec out SIG_GPIO_OUT); [done|]. destruct I as [E|[]]. unfold out_name in E at 1.
      destruct (Z.ltb_spec out 256) as [L|L]; unfold NSIGS in E; [rewrite (proj2 (Z.ltb_lt _ _) L) in E|rewrite (proj2 (Z.ltb_ge _ _) L) in E; by destruct D].
      destruct (sig_out_names out) as [m|] eqn:M; [|by destruct D].
      assert (out = sig) as ->; [|split; [done|]].
      { apply (name_unique Out_sig d out sig m n M N). rewrite <- E. cbn [name_of]. unfold out_name, NSIGS. by rewrite (proj2 (Z.ltb_lt _ _) L), M. }
      rewrite <- E. unfold out_name, NSIGS. by rewrite (proj2 (Z.ltb_lt _ _) L), M.
    + left. apply filter_In in I as [_ I]. apply bool_decide_eq_true in I.
      destruct (sig_in_names i) as [m|] eqn:M; [|unfold in_name in E; rewrite M in E; by destruct D].
      assert (i = sig) as -> by (apply (name_unique In_sig d i sig m n M N), E). done.
  - intros [[I E]|[-> E]].
    + right. exists sig. split; [done|]. apply filter_In. split; [apply list_elem_of_In, elem_of_seqZ; lia|]. by apply bool_decide_eq_true.
    + left. rewrite (proj2 (Z.eqb_neq _ _)) by (unfold SIG_GPIO_OUT; lia). left. done.
Qed.

(** C35: after any sequence of operations of the kernel's driver, the tool reports for every pin the state that the
    specification of the driver has: the function and whether the matrix or the GPIO registers have the pin, pulls,
    level, strength, open drain, and the interrupt's type, lines and pending bit.  For a pin of the matrix it names
    exactly the signals that the driver has connected to the pin: a name of the tables is between the commas of the text just
    when that signal is the output of the pin or reads it as an input, for every text that fits; no name can
    be taken for another, as no two signals have the same name. *)
Theorem tool_names_signals (l : list (Z * op)) (p : pins) (pin : Z) (H : Forall (fun x => pin_ok (fst x)) l) (Hp : pin_ok pin) :
  let s := snd (spec_ops l (spec_of p)) in
  let st := pin_get sig_in_names sig_out_names (snd (run_ops l p)) pin in
  let sel := v_sel (s_view s pin) in
  let names := once (on_pin (s_in s) sel pin) in
  shows st (s_view s pin) (reads_pin (s_in s) pin) /\
  (ps_mode st = MODE_MX -> slen (join names) < 128 ->
   items (ps_func st) = names /\
   (forall sig n, sig_in_names sig = Some n ->
      (In (in_name sig) names <-> s_in s sig = Some pin \/ (sel = sig /\ out_name sig = in_name sig))) /\
   (forall sig n, sig_out_names sig = Some n ->
      (In (out_name sig) names <-> sel = sig \/ (s_in s sig = Some pin /\ in_name sig = out_name sig)))) /\
  (forall d d' i j n n', names_of d i = Some n -> names_of d' j = Some n' -> name_of d i = name_of d' j -> i = j).
Proof.
  cbn zeta. pose proof (tool_shows_driver sig_in_names sig_out_names l p pin H Hp) as Sh. cbn zeta in Sh.
  split; [exact Sh|]. split; [|apply name_unique].
  destruct (run_agrees l p (spec_of p) H) as [_ (A1 & A2 & _)]; [done|].
  set (s := snd (spec_ops l (spec_of p))) in *. set (p' := snd (run_ops l p)) in *. intros M L.
  assert (E : on_pin (in_sel p') (v_sel (view_of p' pin)) pin = on_pin (s_in s) (v_sel (s_view s pin)) pin).
  { rewrite (A1 pin Hp). unfold on_pin. do 2 f_equal. apply filter_ext_in. intros i I. apply list_elem_of_In, elem_of_seqZ in I. unfold NSIGS in I. by rewrite A2 by lia. }
  assert (0 <= v_sel (s_view s pin)) as Ho by (rewrite <- (A1 pin Hp); apply Z.land_nonneg; by right).
  assert (F : ps_func (pin_get sig_in_names sig_out_names p' pin) = join (once (on_pin (s_in s) (v_sel (s_view s pin)) pin))).
  { unfold once in *. rewrite <- E in *. rewrite <- (matrix_signals_join p' pin Hp L). revert M. unfold pin_get. cbn zeta.
    destruct (negb _); [cbn; by destruct (_ <? NFUNCS)|]. destruct (matrix_signals _ _ _ _ _) as [f []]; [done|].
    cbn [fst snd ps_mode]. by repeat destruct (nz _). }
  rewrite F, once_items by (unfold once; apply adds_plain; [done|by apply on_pin_plain]).
  split; [done|]. unfold once. split; intros sig n N; rewrite adds_In.
  - rewrite (on_pin_In In_sig _ _ _ _ n N). cbn [name_of]. split; [intros [[]|[[? _]|?]]; auto|intros [?|?]; right; auto].
  - rewrite (on_pin_In Out_sig _ _ _ _ n N). cbn [name_of]. split; [intros [[]|[?|[? _]]]; auto|intros [?|?]; right; auto].
Qed.
Definition bus_ops : list (Z * op) := [(46, Mux 0xe44); (46, Mux 0xa0d)].
Definition bus_pins : pins := Pins (fun _ => 0x800) (fun _ => 0) 0.
Lemma tool_names_signals_witness :
  let s := snd (spec_ops bus_ops (spec_of bus_pins)) in
  let st := pin_get sig_in_names sig_out_names (snd (run_ops bus_ops bus_pins)) 46 in
  ps_func st = "I2C0_SCL,UART1_RXD"%string /\ items (ps_func st) = once (on_pin (s_in s) (v_sel (s_view s 46)) 46).
Proof.
  assert (H : Forall (fun x => pin_ok (fst x)) bus_ops) by (by repeat constructor).
  assert (Hp : pin_ok 46) by done. pose proof (tool_names_signals bus_ops bus_pins 46 H Hp) as T. cbv zeta in *.
  destruct T as (_ & T & _). specialize (T ltac:(vm_compute; reflexivity) ltac:(vm_compute; reflexivity)) as (T & _).
  split; [vm_compute; reflexivity|exact T].
Defined.
