(* ===== verification/PinCmd.v ===== *)
(** The command line of the pinctrl tool: tools/pinctrl/pinctrl.c.

    A command gives what it prints, and is a program of [PinRegs.M] over the
    registers.  The files, /dev/esp32s31-gpiomem and the messages of strerror()
    are parameters.  A snapshot has the same registers as the hardware: what its
    own way to set bits does is the same ([PinTool.backends_agree]). *)

From Stdlib Require Import Ascii String.
From S2P Require Import Prelude Device PinRegs Pinctrl PinTool PinText PinSnap.

Open Scope Z_scope.

Inductive out := Out (s : string) | Err (s : string) | Usage.

Definition quote : string := String "034" EmptyString.
Definition mode_name (m : mode) : string :=
  match m with
  | MODE_A n => nth (Z.to_nat n) ["a0"; "a1"; "a2"; "a3"; "a4"]%string EmptyString
  | MODE_IP => "ip" | MODE_OP => "op" | MODE_NO => "no" | MODE_MX => "mx"
  end%string.
Definition pull_name (x : pull) : string := match x with PULL_NONE => "pn" | PULL_DOWN => "pd" | PULL_UP => "pu" | PULL_BOTH => "--" end%string.
Definition level_name (level : Z) : string := if level =? 1 then "hi"%string else if level =? 0 then "lo"%string else "--"%string.
(** "%2u" of printf(). *)
Definition dec2 (n : Z) : string := if n <? 10 then (" " ++ dec n)%string else dec n.

Inductive set_param := SET_DRIVE (high : bool) | SET_FSEL (m : mode) | SET_PULL (x : pull).
Definition set_args : list (string * set_param) :=
  [("dh", SET_DRIVE true); ("dl", SET_DRIVE false); ("ip", SET_FSEL MODE_IP); ("op", SET_FSEL MODE_OP); ("no", SET_FSEL MODE_NO);
   ("a0", SET_FSEL (MODE_A 0)); ("a1", SET_FSEL (MODE_A 1)); ("a2", SET_FSEL (MODE_A 2)); ("a3", SET_FSEL (MODE_A 3)); ("a4", SET_FSEL (MODE_A 4));
   ("pu", SET_PULL PULL_UP); ("pd", SET_PULL PULL_DOWN); ("pn", SET_PULL PULL_NONE)]%string.
(** The three parameters; [None] is no change. *)
Record params := Params { p_drive : option bool; p_fsel : option mode; p_pull : option pull }.
Definition no_change : params := Params None None None.
Definition parse_set_arg (arg : string) (x : params) : option params :=
  match List.find (fun r => String.eqb (fst r) arg) set_args with
  | None => None
  | Some (_, SET_DRIVE h) => Some (Params (Some h) (p_fsel x) (p_pull x))
  | Some (_, SET_FSEL m) => Some (Params (p_drive x) (Some m) (p_pull x))
  | Some (_, SET_PULL u) => Some (Params (p_drive x) (p_fsel x) (Some u))
  end.
Fixpoint parse_set_args (args : list string) (x : params) : params + string :=
  match args with
  | [] => inl x
  | a :: args => match parse_set_arg a x with Some x => parse_set_args args x | None => inr a end
  end.

Section cmd.
Context (sig_in_names sig_out_names : Z -> option string).
Context (b : board) (pin_mode verbose force : bool).
Definition header_of : option (list pad_range) := if pin_mode then hdr_of b else None.
Definition gpio_of (num : Z) : Z := num_to_gpio header_of num.
Definition label_of (num : Z) : string := match header_of with Some hdr => default EmptyString (snd (pad_gpio hdr num)) | None => EmptyString end.
Definition display_name (gpio : Z) : string :=
  let buf := gpio_name b gpio (NAME_LEN + 16) in
  if pin_mode then match snd (before (Ascii.eqb "/") buf) with EmptyString => buf | String _ r => r end else buf.

(** * What a command prints for one number *)

Definition print_irq (st : pin_state) : string :=
  if negb (nz (ps_int_type st)) && negb (nz (ps_int_lines st)) && negb (nz (ps_int_pending st)) then EmptyString
  else (" [irq " ++ int_type_name (ps_int_type st) ++ ", lines" ++ (if nz (ps_int_lines st) then "" else " none") ++
        List.fold_right (fun line s => ((if Z.testbit (ps_int_lines st) line then " " ++ dec line else "") ++ s)%string) EmptyString (seqZ 0 4) ++
        (if nz (ps_int_pending st) then ", pending" else "") ++ "]")%string.
Definition do_gpio_get (p : pins) (num : Z) : list out :=
  let gpio := gpio_of num in
  if gpio =? -1 then [Out (dec2 num ++ ": " ++ label_of num ++ nl)%string]
  else if gpio <? 0 then []
  else
    let st := pin_get sig_in_names sig_out_names p gpio in
    [Out (dec2 num ++ ": " ++ mode_name (ps_mode st) ++ " " ++ (if mode_is_op (ps_mode st) then if nz (ps_out st) then "dh" else "dl" else "  ") ++ " " ++
          pull_name (ps_pull st) ++ " | " ++ level_name (ps_level st) ++ " // " ++ display_name gpio ++ " = " ++ ps_func st ++
          (if verbose then " (" ++ dec (ps_drive_ma st) ++ "mA" ++ (if ps_open_drain st then ", open drain" else "") ++ ")" else "") ++
          print_irq st ++ nl)%string].
Definition level_code (label : string) : string :=
  if String.eqb label "gnd" then "G"%string else if String.eqb label "5v" then "5"%string else if String.eqb label "3v3" then "3"%string else "?"%string.
Definition do_gpio_level (p : pins) (num : Z) : list out :=
  let gpio := gpio_of num in
  if gpio =? -1 then [Out (level_code (label_of num))]
  else if gpio <? 0 then []
  else let level := pin_level p gpio in [Out (if level >=? 0 then dec level else "-"%string)].
Definition print_gpio_alts_info (num : Z) : list out :=
  let gpio := gpio_of num in
  if gpio <? 0 then []
  else [Out (dec num ++ ", " ++ display_name gpio ++
             List.fold_right (fun f s => (", " ++ short_name (default "-"%string (iomux_func_name gpio f)) 96 ++ s)%string) nl (seqZ 0 NFUNCS))%string].
Definition refusal_text (r : refusal) : string :=
  match r with
  | Flash => "it is a flash pin" | NoLines => "the reserved and used lines are not known"
  | Reserved => "it is in gpio-reserved-ranges of the device tree" | Used => "a kernel driver uses it (-f changes it anyway)"
  | IrqEnabled => "an interrupt line is enabled on it"
  end%string.
Definition set_text (num gpio : Z) (r : set_answer) : list out :=
  match r with
  | NoGpio => []
  | Label => [Out ("Pin " ++ dec num ++ " cannot be set" ++ nl)%string]
  | Refused r => [Err ("GPIO" ++ dec gpio ++ " not changed: " ++ refusal_text r ++ nl)%string]
  | NotOutput => [Out ("Can't set pin value, not an output" ++ nl)%string]
  | Done strap => if strap : bool then [Err ("GPIO" ++ dec gpio ++ " is a strapping pin: the next reset reads its level" ++ nl)%string] else []
  end.

(** * Polling *)

Record poll_state := Poll { po_num : Z; po_gpio : Z; po_name : string; po_level : Z }.
Definition do_gpio_poll_add (num : Z) (l : list poll_state) : list poll_state :=
  let gpio := gpio_of num in
  if (gpio <? 0) || (zlen l >=? MAX_NUMS) then l else l ++ [Poll num gpio (gpio_name b gpio (NAME_LEN + 16)) (-2)].

(** * The loop over the numbers *)

(** What the loop has: the return value, whether a level has been printed, what is polled, and the output. *)
Record loop_state := Loop { lo_ret : Z; lo_first : bool; lo_polls : list poll_state; lo_out : list out }.
Definition say (l : list out) (s : loop_state) : loop_state := Loop (lo_ret s) (lo_first s) (lo_polls s) (lo_out s ++ l).
Section loop.
Context (cmd : string) (x : params).
Definition is_cmd (c : string) : bool := String.eqb cmd c.
Definition loop_body (num : Z) (s : loop_state) : M loop_state :=
  s ← read (fun p => if is_cmd "get" then say (do_gpio_get p num) s else s);
  s ← (if is_cmd "set" then
         r ← do_gpio_set sig_in_names sig_out_names b force (gpio_of num) (p_fsel x) (p_drive x) (p_pull x);
         let s := say (set_text num (gpio_of num) r) s in
         mret (Loop (Z.lor (lo_ret s) (set_ret r)) (lo_first s) (lo_polls s) (lo_out s))
       else mret s);
  if (is_cmd "level" || is_cmd "lev") && (gpio_of num =? -2) then mret s
  else
    s ← read (fun p => if is_cmd "level" || is_cmd "lev"
                       then let s := say ((if lo_first s then [] else [Out " "%string]) ++ do_gpio_level p num) s in
                            Loop (lo_ret s) false (lo_polls s) (lo_out s)
                       else s);
    let s := if is_cmd "poll" then Loop (lo_ret s) (lo_first s) (do_gpio_poll_add num (lo_polls s)) (lo_out s) else s in
    mret (if is_cmd "funcs" then say (print_gpio_alts_info num) s else s).
Fixpoint num_loop (mask : list Z) (nums : list Z) (s : loop_state) : M loop_state :=
  match nums with
  | [] => mret s
  | num :: nums => s ← (if in_mask mask num then loop_body num s else mret s); num_loop mask nums s
  end.
End loop.
Definition echo_loop (mask nums : list Z) : M (list out) :=
  read (fun p => concat (map (fun num => if in_mask mask num then do_gpio_get p num else []) nums)).
End cmd.

(** * The command line *)

Record cfg := Cfg { c_echo : bool; c_force : bool; c_pin : bool; c_verbose : bool; c_regs : option string }.
Definition program_name : string := "pinctrl".
(** The options, and the arguments after them; or the end of the program. *)
Fixpoint options (argv : list string) (c : cfg) : (cfg * list string) + (Z * list out) :=
  match argv with
  | String "-" r :: rest =>
      if String.eqb r "e" then options rest (Cfg true (c_force c) (c_pin c) (c_verbose c) (c_regs c))
      else if String.eqb r "f" then options rest (Cfg (c_echo c) true (c_pin c) (c_verbose c) (c_regs c))
      else if String.eqb r "h" then inr (0, [Usage])
      else if String.eqb r "p" then options rest (Cfg (c_echo c) (c_force c) true (c_verbose c) (c_regs c))
      else if String.eqb r "v" then options rest (Cfg (c_echo c) (c_force c) (c_pin c) true (c_regs c))
      else
        match rest with
        | file :: rest =>
            if String.eqb r "-regs" then options rest (Cfg (c_echo c) (c_force c) (c_pin c) (c_verbose c) (Some file))
            else inr (1, [Out ("Unknown option '-" ++ r ++ "' - try " ++ quote ++ "pinctrl help" ++ quote ++ nl)%string])
        | [] => inr (1, [Out ("Unknown option '-" ++ r ++ "' - try " ++ quote ++ "pinctrl help" ++ quote ++ nl)%string])
        end
  | _ => inl (c, argv)
  end.
Definition EACCES : Z := 13.
Definition ENOENT : Z := 2.
Definition ENOSYS : Z := 38.
Section main.
Context (sig_in_names sig_out_names : Z -> option string).
Context (overflow : string -> Z) (overflow_hex : bool -> Z -> Z) (ulong_max : Z) (strerror : Z -> string).
Context (file : string -> Z + string) (root : bool) (live_open : Z) (live : pins) (live_board : Z * board).
(** The registers, the pages that dump reads, and the board. *)
Definition open_registers (regs_file : option string) : list out * option (pins * snap * board) :=
  match regs_file with
  | Some f =>
      match snapshot_load overflow_hex ulong_max (file f) with
      | inl (OpenError e) => ([Out ("Failed to read " ++ f ++ " - " ++ strerror e ++ nl)%string], None)
      | inl (NotASnapshotLine n) =>
          ([Err (f ++ ":" ++ dec n ++ ": not a snapshot line" ++ nl)%string; Out ("Failed to read " ++ f ++ " - " ++ strerror EINVAL ++ nl)%string], None)
      | inr (r, b) => ([], Some (pins_of r, r, b))
      end
  | None =>
      if nz live_open then
        ([Out ((if ((live_open =? - EACCES)%Z && negb root)%bool then "Must be root"
                else if (live_open =? - ENOENT)%Z then "No /dev/esp32s31-gpiomem: the kernel needs CONFIG_PINCTRL_ESP32S31_GPIOMEM"
                else if (live_open =? - ENOSYS)%Z then "This build has no hardware access: use --regs FILE"
                else "Failed to map the registers - " ++ strerror (- live_open)%Z) ++ nl)%string], None)
      else
        ((if nz (fst live_board) then [Out ("Cannot read the GPIO lines of the pin controller - " ++ strerror (- fst live_board)%Z ++ nl)%string] else []),
         Some (live, snap_of live, snd live_board))
  end.

(** A run of the program: the exit code, or that it polls; what it has printed; its effects. *)
Inductive outcome := Exited (code : Z) | Polling (l : list poll_state).
Definition ends (code : Z) (o : list out) : M (outcome * list out) := mret (Exited code, o).
Definition cmds : list string := ["get"; "set"; "lev"; "level"; "poll"; "funcs"; "dump"]%string.
(** The command, whether it was not given, and the arguments after it. *)
Definition command (args : list string) : string * bool * list string :=
  match args with
  | a :: rest => if existsb (String.eqb a) cmds then (a, false, rest) else (if zlen args >? 1 then "set"%string else "get"%string, true, args)
  | [] => ("get"%string, true, [])
  end.
Definition run_command (c : cfg) (b : board) (pin_mode : bool) (cmd : string) (x : params) (mask nums : list Z) (o : list out) : M (outcome * list out) :=
  s ← num_loop sig_in_names sig_out_names b pin_mode (c_verbose c) (c_force c) cmd x mask nums (Loop 0 true [] o);
  echo ← (if String.eqb cmd "set" && c_echo c then echo_loop sig_in_names sig_out_names b pin_mode (c_verbose c) mask nums else mret []);
  let o := lo_out s ++ (if String.eqb cmd "level" || String.eqb cmd "lev" then [Out nl] else []) ++ echo in
  mret (if String.eqb cmd "poll" && negb (zlen (lo_polls s) =? 0) then Polling (lo_polls s) else Exited (lo_ret s), o).
Definition with_mask (c : cfg) (b : board) (pin_mode : bool) (cmd : string) (args : list string) (mask nums : list Z) (o : list out) : M (outcome * list out) :=
  if String.eqb cmd "set" && (zlen args =? 0) then ends 1 (o ++ [Out ("Need a function or pull to set" ++ nl)%string])
  else if (String.eqb cmd "get" || String.eqb cmd "funcs" || String.eqb cmd "level" || String.eqb cmd "lev") && negb (zlen args =? 0)
  then ends 1 (o ++ [Out ("Too many arguments" ++ nl)%string])
  else
    match parse_set_args args no_change with
    | inr a => ends 1 (o ++ [Out ("Unknown argument " ++ quote ++ a ++ quote ++ nl)%string])
    | inl x =>
        let mask := if forallb (fun w => w =? 0) mask then [18446744073709551615; 18446744073709551615] else mask in
        run_command c b pin_mode cmd x mask nums o
    end.
Definition first_num (pin_mode : bool) : Z := if pin_mode then 1 else 0.
Definition last_num (b : board) (pin_mode : bool) : Z := if pin_mode then match hdr_of b with Some hdr => header_npads hdr | None => 0 end else NPINS - 1.
Definition with_board (c : cfg) (r : snap) (b : board) (args : list string) (o : list out) : option (M (outcome * list out)) :=
  let '(cmd, inferred, args) := command args in
  if String.eqb cmd "dump" then Some (ends 0 (o ++ [Out (snapshot_dump r b)]))
  else
    let no_header := c_pin c && match hdr_of b with None => true | Some _ => false end in
    let o := if no_header then o ++ [Out ("No PIN numbers known for this board - pin mode disabled" ++ nl)%string] else o in
    let pin_mode := c_pin c && negb no_header in
    let first := first_num pin_mode in
    let last := last_num b pin_mode in
    let nums := seqZ first (last - first + 1) in
    match args with
    | list :: args =>
        '(r, mask) ← parse_list overflow b pin_mode list [0; 0] (last + 1);
        Some (match r with
              | StoppedAt p =>
                  ends 1 (o ++ [Out ("Unknown " ++ (if String.eqb p list && inferred then "command" else "GPIO") ++ " " ++ quote ++ p ++ quote ++ nl)%string])
              | ParseExit name => ends 1 (o ++ [Out ("Signal " ++ quote ++ name ++ quote ++ " is not on a header pin" ++ nl)%string])
              | Parsed => with_mask c b pin_mode cmd args mask nums o
              end)
    | [] =>
        Some (if String.eqb cmd "set" || String.eqb cmd "poll"
              then ends 1 (o ++ [Out ("Need GPIO number to " ++ (if String.eqb cmd "set" then "set" else "poll") ++ nl)%string])
              else with_mask c b pin_mode cmd [] [0; 0] nums o)
    end.
(** [argv] without the name of the program; [None] is an access outside of the mask. *)
Definition main (argv : list string) : option ((outcome * list out) * option (pins * list ev)) :=
  match options argv (Cfg false false false false None) with
  | inr (code, o) => Some ((Exited code, o), None)
  | inl (c, args) =>
      if match args with a :: _ => String.eqb a "help" | [] => false end then Some ((Exited 0, [Usage]), None)
      else
        match open_registers (c_regs c) with
        | (o, None) => Some ((Exited 1, o), None)
        | (o, Some (p, r, b)) =>
            m ← with_board c r b args o;
            let '(x, p, l) := m p in
            Some (x, Some (p, l))
        end
  end.
End main.

(** * What a set command does *)

(** Whether set changes the pin [q], one of [gpios]. *)
Definition chosen (b : board) (force : bool) (x : params) (gpios : list Z) (p : pins) (q : Z) : bool :=
  existsb (Z.eqb q) gpios && set_takes b force (p_fsel x) (p_drive x) p q.
Definition asked (x : params) (v : view) : view := set_view (p_fsel x) (p_drive x) (p_pull x) v.
(** The registers after it, and the states that they go through. *)
Definition set_effect (b : board) (force : bool) (x : params) (gpios : list Z) (p p' : pins) (l : list ev) : Prop :=
  (forall q, pin_ok q -> view_of p' q = if chosen b force x gpios p q then asked x (view_of p q) else view_of p q) /\
  sel_kept (tt, p', l) p /\
  Forall (fun p1 => forall q, pin_ok q ->
    if chosen b force x gpios p q
    then v_oe (view_of p1 q) = true -> v_oe (view_of p q) = true \/ v_out (view_of p1 q) = v_out (asked x (view_of p q))
    else view_of p1 q = view_of p q) (states (tt, p', l)).
(** Its exit code: 1 when one of the pins was not set. *)
Definition set_code (b : board) (force : bool) (x : params) (gpios : list Z) (p : pins) : Z :=
  b2z (negb (forallb (fun q => (0 <=? q) && set_takes b force (p_fsel x) (p_drive x) p q) gpios)).

Lemma takes_ext b force m d p p' q : view_of p' q = view_of p q -> (forall s, 0 <= s < 256 -> in_sel p' s = in_sel p s) ->
  set_takes b force m d p' q = set_takes b force m d p q.
Proof. intros V S. unfold set_takes. by rewrite V, (reads_pin_ext (in_sel p') (in_sel p)). Qed.
Lemma effect_nil b force x p : set_effect b force x [] p p [].
Proof. split; [done|]. by split. Qed.
Lemma chosen_ext b force x gpios p p' q : view_of p' q = view_of p q -> (forall s, 0 <= s < 256 -> in_sel p' s = in_sel p s) ->
  chosen b force x gpios p' q = chosen b force x gpios p q.
Proof. intros V S. unfold chosen. by rewrite (takes_ext b force _ _ p p'). Qed.
(** One number more: its pin is set, or it is not and nothing changes. *)
Lemma effect_skip b force x g gpios p p' l : (0 <= g -> set_takes b force (p_fsel x) (p_drive x) p g = false) ->
  set_effect b force x gpios p p' l -> set_effect b force x (g :: gpios) p p' l.
Proof.
  intros T (V & S & F). assert (E : forall q, pin_ok q -> chosen b force x (g :: gpios) p q = chosen b force x gpios p q).
  { intros q Hq. unfold chosen. cbn [existsb]. destruct (Z.eqb_spec q g) as [->|]; [|done]. rewrite T by (unfold pin_ok in Hq; lia). by rewrite !andb_false_r. }
  split; [intros q Hq; rewrite E by done; by apply V|]. split; [done|]. refine (Forall_impl _ _ F). intros p1 H q Hq. rewrite E by done. by apply H.
Qed.
Lemma effect_cons b force x g gpios p p1 l1 p' l : pin_ok g -> settable (p_fsel x) -> set_takes b force (p_fsel x) (p_drive x) p g = true ->
  existsb (Z.eqb g) gpios = false ->
  fits (tt, p1, l1) g (asked x) p -> sel_kept (tt, p1, l1) p -> Forall (set_clean g (v_out (asked x (view_of p g))) p) (states (tt, p1, l1)) ->
  set_effect b force x gpios p1 p' l -> set_effect b force x (g :: gpios) p p' (l1 ++ l).
Proof.
  intros Hg Hm T N F1 K1 C1 (V & S & F). unfold fits, sel_kept, final in *. cbn [fst snd] in *.
  assert (Eg : forall q, q = g -> chosen b force x (g :: gpios) p q = true /\ chosen b force x gpios p1 q = false).
  { intros q ->. unfold chosen. cbn [existsb]. by rewrite Z.eqb_refl, T, N. }
  assert (En : forall q, pin_ok q -> q <> g -> view_of p1 q = view_of p q /\ chosen b force x (g :: gpios) p q = chosen b force x gpios p1 q).
  { intros q Hq Nq. assert (view_of p1 q = view_of p q) as E by (by rewrite F1, (proj2 (Z.eqb_neq q g))). split; [done|].
    rewrite (chosen_ext b force x gpios p p1 q E K1). unfold chosen. cbn [existsb]. by rewrite (proj2 (Z.eqb_neq q g)). }
  assert (Vg : view_of p1 g = asked x (view_of p g)) by (by rewrite F1, Z.eqb_refl).
  split; [|split].
  - intros q Hq. rewrite V by done. destruct (decide (q = g)) as [->|Nq]; [by destruct (Eg g eq_refl) as [-> ->]|].
    by destruct (En q Hq Nq) as [-> ->].
  - intros s Hs. rewrite S, K1 by done. done.
  - unfold states in *. cbn [snd] in *. rewrite omap_app. apply Forall_app. split.
    + refine (Forall_impl _ _ C1). intros p2 [Cg Cn] q Hq. destruct (decide (q = g)) as [->|Nq]; [by destruct (Eg g eq_refl) as [-> _]|].
      rewrite (Cn q Hq Nq). destruct (chosen _ _ _ _ _ _); [by left|done].
    + refine (Forall_impl _ _ F). intros p2 H q Hq. specialize (H q Hq). destruct (decide (q = g)) as [->|Nq].
      * destruct (Eg g eq_refl) as [-> E]. rewrite E in H. rewrite H, Vg. by right.
      * destruct (En q Hq Nq) as [E ->]. by rewrite E in H.
Qed.

Section set_loop.
Context (sig_in_names sig_out_names : Z -> option string) (b : board) (pin_mode verbose force : bool) (x : params).
Definition targets (mask nums : list Z) : list Z := map (gpio_of b pin_mode) (List.filter (in_mask mask) nums).
Definition distinct (nums : list Z) : Prop :=
  NoDup nums /\ (forall i, In i nums -> gpio_of b pin_mode i < NPINS) /\
  forall i j, In i nums -> In j nums -> 0 <= gpio_of b pin_mode i -> gpio_of b pin_mode i = gpio_of b pin_mode j -> i = j.
Lemma loop_body_set num s p :
  loop_body sig_in_names sig_out_names b pin_mode verbose force "set" x num s p =
    let '(r, p', l) := do_gpio_set sig_in_names sig_out_names b force (gpio_of b pin_mode num) (p_fsel x) (p_drive x) (p_pull x) p in
    (Loop (Z.lor (lo_ret s) (set_ret r)) (lo_first s) (lo_polls s) (lo_out s ++ set_text num (gpio_of b pin_mode num) r), p', l).
Proof.
  unfold loop_body, is_cmd. change (String.eqb "set" "get") with false. change (String.eqb "set" "set") with true.
  change (String.eqb "set" "level" || String.eqb "set" "lev") with false. change (String.eqb "set" "poll") with false. change (String.eqb "set" "funcs") with false.
  cbv iota. cbn [andb]. rewrite read_bind_run. unfold mbind at 1, M_bind at 1. unfold mbind at 1, M_bind at 1.
  destruct (do_gpio_set _ _ _ _ _ _ _ _ p) as [[r p'] l]. cbn. rewrite read_bind_run. cbn. by rewrite !app_nil_r.
Qed.
Lemma code_cons g gpios p p' : (forall q, In q gpios -> 0 <= q -> view_of p' q = view_of p q) -> (forall s, 0 <= s < 256 -> in_sel p' s = in_sel p s) ->
  set_code b force x (g :: gpios) p = Z.lor (b2z (negb ((0 <=? g) && set_takes b force (p_fsel x) (p_drive x) p g))) (set_code b force x gpios p').
Proof.
  intros V S. unfold set_code. cbn [forallb].
  assert (forallb (fun q => (0 <=? q) && set_takes b force (p_fsel x) (p_drive x) p q) gpios =
    forallb (fun q => (0 <=? q) && set_takes b force (p_fsel x) (p_drive x) p' q) gpios) as ->.
  { induction gpios as [|q gpios IH]; [done|]. cbn [forallb]. rewrite IH by (intros q' I; apply V; by right). f_equal.
    destruct (Z.leb_spec 0 q); [|done]. cbn [andb]. symmetry. apply takes_ext; [apply V; [by left|done]|done]. }
  by destruct ((0 <=? g) && _), (forallb _ _).
Qed.
Lemma targets_in mask nums g : In g (targets mask nums) -> exists num, In num nums /\ gpio_of b pin_mode num = g.
Proof. unfold targets. intros I. apply in_map_iff in I as (num & <- & I). apply filter_In in I as [I _]. by exists num. Qed.
Lemma targets_cons mask num nums : targets mask (num :: nums) = if in_mask mask num then gpio_of b pin_mode num :: targets mask nums else targets mask nums.
Proof. unfold targets. cbn [List.filter]. by destruct (in_mask mask num). Qed.
Lemma targets_fresh mask num nums : distinct (num :: nums) -> 0 <= gpio_of b pin_mode num -> ~ In (gpio_of b pin_mode num) (targets mask nums).
Proof.
  intros (N & _ & D) H I. apply targets_in in I as (j & J & E). apply NoDup_cons_1_1 in N. apply N.
  rewrite (D num j (or_introl eq_refl) (or_intror J) H (eq_sym E)). by apply list_elem_of_In.
Qed.
Lemma set_loop_ok mask nums : settable (p_fsel x) -> distinct nums -> forall s p,
  exists o p' l, num_loop sig_in_names sig_out_names b pin_mode verbose force "set" x mask nums s p =
      (Loop (Z.lor (lo_ret s) (set_code b force x (targets mask nums) p)) (lo_first s) (lo_polls s) o, p', l) /\
    set_effect b force x (targets mask nums) p p' l.
Proof.
  intros Hm. induction nums as [|num nums IH]; intros D s p.
  - exists (lo_out s), p, []. split; [|apply effect_nil]. destruct s. cbn. by rewrite Z.lor_0_r.
  - pose proof (targets_fresh mask num nums D) as Fresh. destruct D as (N & R & D). apply NoDup_cons_1_2 in N.
    assert (D' : distinct nums) by (split; [done|]; split; [intros i I; apply R; by right|intros i j I J; apply D; by right]).
    specialize (IH D'). cbn [num_loop]. rewrite targets_cons. destruct (in_mask mask num).
    2: { rewrite (M_bind_run _ _ _ _ _ _ (eq_refl : (mret s : M loop_state) p = (s, p, []))). destruct (IH s p) as (o & p2 & l2 & -> & Ef). by exists o, p2, l2. }
    set (g := gpio_of b pin_mode num) in *.
    destruct ((0 <=? g) && set_takes b force (p_fsel x) (p_drive x) p g) eqn:T.
    + pose proof T as T0. apply andb_true_iff in T as [Hg T]. apply Z.leb_le in Hg. assert (Pg : pin_ok g) by (split; [done|]; apply R; by left).
      destruct (set_done sig_in_names sig_out_names b force g (p_fsel x) (p_drive x) (p_pull x) p Pg Hm T) as (p1 & l1 & E & F1 & K1 & C1).
      assert (B : forall s, loop_body sig_in_names sig_out_names b pin_mode verbose force "set" x num s p =
        (Loop (lo_ret s) (lo_first s) (lo_polls s) (lo_out s ++ set_text num g (Done (pin_is_strapping g))), p1, l1)).
      { intros s'. rewrite loop_body_set. fold g. rewrite E. cbn [set_ret]. by rewrite Z.lor_0_r. }
      rewrite (M_bind_run _ _ _ _ _ _ (B s)). set (s1 := Loop _ _ _ _). destruct (IH s1 p1) as (o & p2 & l2 & -> & Ef).
      exists o, p2, (l1 ++ l2). unfold fits, sel_kept, final in F1, K1. cbn [fst snd] in F1, K1. split.
      * rewrite (code_cons g (targets mask nums) p p1), T0; [done| |done]. intros q I Hq. rewrite F1, (proj2 (Z.eqb_neq q g)); [done| |].
        -- intros ->. by apply Fresh.
        -- split; [done|]. apply targets_in in I as (j & J & <-). apply R. by right.
      * apply (effect_cons b force x g _ p p1 l1 p2 l2); try done. apply not_true_iff_false. intros I. apply existsb_exists in I as (q & I & Eq).
        apply Z.eqb_eq in Eq. subst q. by apply Fresh.
    + assert (exists a, do_gpio_set sig_in_names sig_out_names b force g (p_fsel x) (p_drive x) (p_pull x) p = (a, p, []) /\ set_ret a = 1) as (a & E & Ra).
      { destruct (Z.leb_spec 0 g).
        - destruct (set_left sig_in_names sig_out_names b force g (p_fsel x) (p_drive x) (p_pull x) p) as (a & E & A); [split; [done|]; apply R; by left|done|].
          exists a. split; [done|]. destruct (may_set _ _ _ _); [by destruct A as (-> & _)|by destruct A as [why ->]].
        - unfold do_gpio_set. destruct (Z.eqb_spec g (-1)); [by exists Label|]. rewrite (proj2 (Z.ltb_lt g 0)) by done. by exists NoGpio. }
      assert (B : forall s, loop_body sig_in_names sig_out_names b pin_mode verbose force "set" x num s p =
        (Loop (Z.lor (lo_ret s) 1) (lo_first s) (lo_polls s) (lo_out s ++ set_text num g a), p, [])).
      { intros s'. rewrite loop_body_set. fold g. by rewrite E, Ra. }
      rewrite (M_bind_run _ _ _ _ _ _ (B s)). set (s1 := Loop _ _ _ _). destruct (IH s1 p) as (o & p2 & l2 & -> & Ef).
      exists o, p2, l2. split.
      * rewrite (code_cons g (targets mask nums) p p), T by done. cbn [negb b2z lo_ret s1]. by rewrite Z.lor_assoc.
      * apply effect_skip; [|done]. intros Hg. apply Z.leb_le in Hg. by rewrite Hg in T.
Qed.
End set_loop.

(** * The program *)

(** A board of the tool: its header is one of those that it knows, or none. *)
Definition known (b : board) : Prop := forall hdr, hdr_of b = Some hdr -> exists name, board_header name = Some hdr.
Definition numbers (b : board) (pin_mode : bool) : list Z := seqZ (first_num pin_mode) (last_num b pin_mode - first_num pin_mode + 1).
Lemma npads_max name hdr : board_header name = Some hdr -> header_npads hdr + 1 <= MAX_NUMS.
Proof.
  unfold board_header. destruct (List.find _ headers) as [[n r]|] eqn:F; [|done]. intros [= ->]. apply find_some in F as [F _].
  assert (forallb (fun h => header_npads (snd h) + 1 <=? MAX_NUMS) headers = true) as A by (vm_compute; reflexivity).
  rewrite forallb_forall in A. apply A in F. by apply Z.leb_le in F.
Qed.
Lemma numbers_distinct b pin_mode : known b -> (pin_mode = true -> hdr_of b <> None) -> distinct b pin_mode (numbers b pin_mode).
Proof.
  intros K H. split; [apply NoDup_seqZ|]. unfold gpio_of, num_to_gpio, header_of. destruct pin_mode.
  - destruct (hdr_of b) as [hdr|] eqn:E; [|by destruct H]. destruct (K hdr E) as [name N]. destruct (header_facts name hdr N) as [_ B].
    assert (In1 : forall i, In i (numbers b true) -> 1 <= i <= header_npads hdr).
    { intros i I. apply list_elem_of_In, elem_of_seqZ in I. unfold first_num, last_num in I. rewrite E in I. lia. }
    split.
    + intros i I. destruct (B i (In1 i I)) as [L G]. destruct (Z.lt_ge_cases (fst (pad_gpio hdr i)) 0) as [|Hg]; [unfold NPINS; lia|].
      destruct (G Hg) as (Ex & _). unfold pin_exists in Ex. apply andb_true_iff in Ex as [Ex _]. by apply Z.ltb_lt in Ex.
    + intros i j I J Hi Hij. destruct (B i (In1 i I)) as [_ Gi]. destruct (B j (In1 j J)) as [_ Gj].
      destruct (Gi Hi) as (_ & _ & Ei). rewrite <- Ei, Hij. rewrite Hij in Hi. by destruct (Gj Hi) as (_ & _ & Ej).
  - assert (In0 : forall i, In i (numbers b false) -> 0 <= i < NPINS).
    { intros i I. apply list_elem_of_In, elem_of_seqZ in I. unfold first_num, last_num in I. lia. }
    split; [intros i I; specialize (In0 i I); destruct (pin_exists i); unfold NPINS in *; lia|].
    intros i j I J. specialize (In0 i I). destruct (pin_exists i), (pin_exists j); lia.
Qed.
Lemma parse_set_args_settable args : forall x y, settable (p_fsel x) -> parse_set_args args x = inl y -> settable (p_fsel y).
Proof.
  induction args as [|a args IH]; intros x y Hx; cbn [parse_set_args]; [by intros [= <-]|].
  unfold parse_set_arg. destruct (List.find _ set_args) as [[n u]|] eqn:F; [|done]. apply find_some in F as [F _].
  assert (Forall (fun r => match snd r with SET_FSEL m => settable (Some m) | _ => True end) set_args) as A by (repeat apply Forall_cons_2; cbn; lia || done).
  rewrite Forall_forall in A. first [specialize (A _ F)|specialize (A _ (proj2 (list_elem_of_In _ _) F))]. cbn [snd] in A. destruct u; by apply IH.
Qed.
Lemma num_loop_reads sig_in_names sig_out_names b pin_mode verbose force cmd x mask nums : String.eqb cmd "set" = false -> forall s p,
  exists s', num_loop sig_in_names sig_out_names b pin_mode verbose force cmd x mask nums s p = (s', p, []).
Proof.
  intros C. induction nums as [|num nums IH]; intros s p; [by exists s|]. cbn [num_loop].
  assert (exists s1, loop_body sig_in_names sig_out_names b pin_mode verbose force cmd x num s p = (s1, p, [])) as (s1 & E1).
  { unfold loop_body, is_cmd. rewrite C, read_bind_run. unfold mbind at 1, M_bind at 1. cbn [mret M_ret].
    destruct (_ && (_ =? -2)); [by eexists|]. rewrite read_bind_run. by eexists. }
  destruct (in_mask mask num).
  - rewrite (M_bind_run _ _ _ _ _ _ E1). destruct (IH s1 p) as (s2 & ->). by exists s2.
  - rewrite (M_bind_run _ _ _ _ _ _ (eq_refl : (mret s : M loop_state) p = (s, p, []))). destruct (IH s p) as (s2 & ->). by exists s2.
Qed.
Lemma run_command_set sig_in_names sig_out_names c b pin_mode x mask nums o p : settable (p_fsel x) -> distinct b pin_mode nums ->
  exists o' p' l, run_command sig_in_names sig_out_names c b pin_mode "set" x mask nums o p =
      (Exited (set_code b (c_force c) x (targets b pin_mode mask nums) p), o', p', l) /\
    set_effect b (c_force c) x (targets b pin_mode mask nums) p p' l.
Proof.
  intros Hm D. unfold run_command.
  destruct (set_loop_ok sig_in_names sig_out_names b pin_mode (c_verbose c) (c_force c) x mask nums Hm D (Loop 0 true [] o) p) as (o1 & p1 & l1 & E & Ef).
  rewrite (M_bind_run _ _ _ _ _ _ E). change (String.eqb "set" "set") with true. cbn [andb]. destruct (c_echo c).
  all: unfold echo_loop; (rewrite read_bind_run || rewrite (M_bind_run _ _ _ _ _ _ (eq_refl : (mret [] : M (list out)) _ = ([], _, [])))); cbn [mret M_ret app]; rewrite !app_nil_r.
  all: do 3 eexists; (split; [|exact Ef]); cbn [lo_ret lo_polls]; rewrite ?Z.lor_0_l; reflexivity.
Qed.
Lemma run_command_reads sig_in_names sig_out_names c b pin_mode cmd x mask nums o p : cmd <> "set"%string ->
  exists r, run_command sig_in_names sig_out_names c b pin_mode cmd x mask nums o p = (r, p, []).
Proof.
  intros N. unfold run_command. apply String.eqb_neq in N as C.
  destruct (num_loop_reads sig_in_names sig_out_names b pin_mode (c_verbose c) (c_force c) cmd x mask nums C (Loop 0 true [] o) p) as (s & E).
  rewrite (M_bind_run _ _ _ _ _ _ E), ?C. cbn [andb]. rewrite (M_bind_run _ _ _ _ _ _ (eq_refl : (mret [] : M (list out)) p = ([], p, []))).
  by eexists.
Qed.
(** A set of the targets of a mask, when there are options and they can be read. *)
Definition set_runs (b : board) (force : bool) (x : params) (gpios : list Z) (p : pins) (r : (outcome * list out) * pins * list ev) : Prop :=
  let '((e, _), p', l) := r in set_effect b force x gpios p p' l /\ e = Exited (set_code b force x gpios p).
Lemma with_mask_set sig_in_names sig_out_names c b pin_mode args mask nums o p : distinct b pin_mode nums ->
  forallb (fun w => w =? 0) mask = false ->
  let r := with_mask sig_in_names sig_out_names c b pin_mode "set" args mask nums o p in
  match args, parse_set_args args no_change with
  | _ :: _, inl x => settable (p_fsel x) /\ set_runs b (c_force c) x (targets b pin_mode mask nums) p r
  | _, _ => exists e, r = (e, p, [])
  end.
Proof.
  intros D Hz. unfold with_mask. change (String.eqb "set" "set") with true. cbn [andb].
  change (String.eqb "set" "get" || String.eqb "set" "funcs" || String.eqb "set" "level" || String.eqb "set" "lev") with false. cbn [andb].
  destruct args as [|a args]; [by eexists|].
  rewrite (proj2 (Z.eqb_neq _ 0)) by (rewrite zlen_cons; pose proof (zlen_nonneg args); lia).
  destruct (parse_set_args (a :: args) no_change) as [x|] eqn:P; [|by eexists].
  apply parse_set_args_settable in P; [|done]. rewrite Hz.
  destruct (run_command_set sig_in_names sig_out_names c b pin_mode x mask nums o p P D) as (o1 & p1 & l1 & -> & Ef). done.
Qed.
Lemma with_mask_reads sig_in_names sig_out_names c b pin_mode cmd args mask nums o p : cmd <> "set"%string ->
  exists r, with_mask sig_in_names sig_out_names c b pin_mode cmd args mask nums o p = (r, p, []).
Proof.
  intros N. unfold with_mask, ends. destruct (_ && _); [by eexists|]. destruct (_ && _); [by eexists|].
  destruct (parse_set_args args no_change); [|by eexists]. by apply run_command_reads.
Qed.
(** The pins that a list of GPIOs names. *)
Definition named_gpios (b : board) (pin_mode : bool) (vs : list (Z * Z)) : list Z :=
  map (gpio_of b pin_mode) (List.filter (fun n => existsb (covers n) vs) (numbers b pin_mode)).
Lemma list_nonempty overflow b pin_mode p vs : limits overflow b pin_mode (last_num b pin_mode + 1) -> is_list overflow b pin_mode (last_num b pin_mode + 1) p vs ->
  exists v, In v vs /\ 0 <= fst v < MAX_NUMS /\ fst v <= snd v.
Proof.
  intros L (rs & N & _ & F). destruct F as [|x v rs vs R F]; [done|]. exists v. split; [by left|].
  destruct R as [_ R]. destruct (snd x) as [y|].
  - destruct R as (_ & n & m & In & Im & ->). apply (item_range _ _ _ _ _ _ L) in In, Im. cbn [fst snd]. lia.
  - destruct R as [In ->]. apply (item_range _ _ _ _ _ _ L) in In. lia.
Qed.
Lemma zero_mask mask n : forallb (fun w => w =? 0) mask = true -> in_mask mask n = false.
Proof.
  intros Z0. unfold in_mask. destruct (mask !! Z.to_nat (n / 64)) as [w|] eqn:E; [|done]. rewrite forallb_forall in Z0.
  apply list_elem_of_lookup_2, list_elem_of_In in E. apply Z0, Z.eqb_eq in E. subst. apply Z.testbit_0_l.
Qed.
(** ** The command line as its user writes it *)

(** A command line that asks for a change: "set", a list of GPIOs and options; without any of the
    commands, a list and options. *)
Definition set_words (args : list string) (gpios : string) (opts : list string) : Prop :=
  opts <> [] /\ (args = "set"%string :: gpios :: opts \/ args = gpios :: opts /\ ~ In gpios cmds).
Definition set_asked (overflow : string -> Z) (b : board) (pin_mode : bool) (args : list string) (x : params) (vs : list (Z * Z)) : Prop :=
  exists list opts, set_words args list opts /\ is_list overflow b pin_mode (last_num b pin_mode + 1) list vs /\ parse_set_args opts no_change = inl x.
Lemma in_cmds a : existsb (String.eqb a) cmds = true <-> In a cmds.
Proof. rewrite existsb_exists. split; [intros (c & I & E); by apply String.eqb_eq in E as ->|intros I; exists a; split; [done|apply String.eqb_refl]]. Qed.
Lemma command_set args list opts : set_words args list opts -> exists inferred, command args = ("set"%string, inferred, list :: opts).
Proof.
  intros (N & [-> | (-> & C)]); [by exists false|]. exists true. unfold command.
  assert (existsb (String.eqb list) cmds = false) as -> by (apply not_true_iff_false; by rewrite in_cmds). destruct opts as [|o opts]; [done|].
  rewrite !zlen_cons. pose proof (zlen_nonneg opts). by rewrite Z.gtb_ltb, (proj2 (Z.ltb_lt _ _)) by lia.
Qed.
Lemma command_words args inferred list opts : opts <> [] -> command args = ("set"%string, inferred, list :: opts) -> set_words args list opts.
Proof.
  intros N. unfold command. destruct args as [|a rest]; [done|]. destruct (existsb (String.eqb a) cmds) eqn:C.
  - intros [= -> <- ->]. split; [done|]. by left.
  - intros H. assert (a :: rest = list :: opts) as [= -> ->] by congruence. split; [done|]. right. split; [done|]. rewrite <- in_cmds. by rewrite C.
Qed.
(** What a run does to the registers. *)
Definition run_spec (overflow : string -> Z) (b : board) (force pin_mode : bool) (args : list string) (p : pins)
    (r : (outcome * list out) * pins * list ev) : Prop :=
  let '((_, p'), l) := r in
  (p' = p /\ l = [] /\ forall x vs, ~ set_asked overflow b pin_mode args x vs) \/
  exists x vs, set_asked overflow b pin_mode args x vs /\ settable (p_fsel x) /\ set_runs b force x (named_gpios b pin_mode vs) p r.
Lemma run_reads overflow b force pin_mode args p r : (forall list opts, ~ set_words args list opts) -> run_spec overflow b force pin_mode args p (r, p, []).
Proof. intros N. destruct r as [e o]. left. split_and!; [done..|]. intros x vs (list & opts & W & _). by apply (N list opts). Qed.
Lemma with_list_ok sig_in_names sig_out_names overflow c b pin_mode args inferred list opts mask o p vs :
  distinct b pin_mode (numbers b pin_mode) -> limits overflow b pin_mode (last_num b pin_mode + 1) ->
  command args = ("set"%string, inferred, list :: opts) -> is_list overflow b pin_mode (last_num b pin_mode + 1) list vs ->
  (forall n, 0 <= n < MAX_NUMS -> in_mask mask n = existsb (covers n) vs) ->
  run_spec overflow b (c_force c) pin_mode args p (with_mask sig_in_names sig_out_names c b pin_mode "set" opts mask (numbers b pin_mode) o p).
Proof.
  intros D L Ec Is B. assert (T : targets b pin_mode mask (numbers b pin_mode) = named_gpios b pin_mode vs).
  { unfold targets, named_gpios. f_equal. apply filter_ext_in. intros n J. apply B. apply list_elem_of_In, elem_of_seqZ in J.
    destruct L as (L & _). unfold first_num in J. destruct pin_mode; lia. }
  assert (Hz : forallb (fun w => w =? 0) mask = false).
  { apply not_true_iff_false. intros Z0. destruct (list_nonempty _ _ _ _ _ L Is) as (v & J & R & Le).
    specialize (B (fst v) R). rewrite zero_mask in B by done. symmetry in B. apply not_true_iff_false in B. apply B.
    apply existsb_exists. exists v. split; [done|]. unfold covers. by rewrite Z.leb_refl, (proj2 (Z.leb_le _ _)) by done. }
  pose proof (with_mask_set sig_in_names sig_out_names c b pin_mode opts mask _ o p D Hz) as W. rewrite T in W.
  assert (U : forall list' opts', set_words args list' opts' -> opts' = opts).
  { intros list' opts' S. destruct (command_set _ _ _ S) as (i & E). congruence. }
  destruct opts as [|w opts]; [|destruct (parse_set_args (w :: opts) no_change) as [x|] eqn:P].
  1,3: destruct W as [[e o'] ->]; left; split_and!; [done..|]; intros x' vs' (list' & opts' & S & _ & P'); pose proof (U _ _ S) as ->.
  - by destruct S.
  - congruence.
  - destruct W as [S W]. destruct (with_mask _ _ _ _ _ _ _ _ _ _ _) as [[[e o'] p'] l].
    right. exists x, vs. split; [|done]. exists list, (w :: opts). split; [|done]. by apply (command_words args inferred).
Qed.
Lemma with_board_ok sig_in_names sig_out_names overflow c r b args o p : known b -> (forall s, 0 <= overflow s) ->
  exists m, with_board sig_in_names sig_out_names overflow c r b args o = Some m /\
    run_spec overflow b (c_force c) (c_pin c && bool_decide (is_Some (hdr_of b))) args p (m p).
Proof.
  intros K O. unfold with_board. destruct (command args) as [[cmd inferred] rest] eqn:Ec.
  assert (Not : cmd <> "set"%string -> forall list opts, ~ set_words args list opts).
  { intros N list opts S. destruct (command_set _ _ _ S) as (i & E). congruence. }
  destruct (String.eqb_spec cmd "dump") as [->|]; [eexists; split; [done|by apply run_reads, Not]|].
  set (no_header := c_pin c && _).
  assert (c_pin c && bool_decide (is_Some (hdr_of b)) = c_pin c && negb no_header) as ->.
  { subst no_header. destruct (c_pin c); [|done]. destruct (hdr_of b) as [hdr|]; [by rewrite bool_decide_true by (by exists hdr)|].
    rewrite bool_decide_false; [done|]. intros [? E]. discriminate E. }
  set (pin_mode := c_pin c && negb no_header). set (o1 := if no_header then _ else o).
  assert (Hdr : pin_mode = true -> hdr_of b <> None) by (subst pin_mode no_header; by destruct (c_pin c), (hdr_of b)).
  pose proof (numbers_distinct b pin_mode K Hdr) as D. change (seqZ _ _) with (numbers b pin_mode).
  destruct rest as [|list opts].
  - eexists. split; [done|]. assert (N : forall list opts, ~ set_words args list opts).
    { intros list opts S. destruct (command_set _ _ _ S) as (i & E). congruence. }
    destruct (String.eqb_spec cmd "set"); [by apply run_reads|]. cbn [orb]. destruct (String.eqb cmd "poll"); [by apply run_reads|].
    destruct (with_mask_reads sig_in_names sig_out_names c b pin_mode cmd [] [0; 0] (numbers b pin_mode) o1 p n0) as (r' & ->). by apply run_reads.
  - assert (L : limits overflow b pin_mode (last_num b pin_mode + 1)).
    { unfold limits, last_num. destruct pin_mode; [|by unfold MAX_NUMS, NPINS]. destruct (hdr_of b) as [hdr|] eqn:E; [|by destruct Hdr].
      destruct (K hdr E) as [name N]. split; [by apply (npads_max name)|]. split; [done|]. by exists hdr. }
    pose proof (parse_list_ok overflow b pin_mode list (last_num b pin_mode + 1) L) as P.
    assert (NL : (forall vs, ~ is_list overflow b pin_mode (last_num b pin_mode + 1) list vs) -> forall code o', run_spec overflow b (c_force c) pin_mode args p (ends code o' p)).
    { intros NL code o'. left. split_and!; [done..|]. intros x vs (list' & opts' & S & I & _). destruct (command_set _ _ _ S) as (i & E).
      apply (NL vs). by replace list with list' by congruence. }
    destruct (parse_list _ _ _ list _ _) as [[[|q|name] mask]|]; [| | |done]; cbn [mbind option_bind]; eexists; (split; [done|]); [|apply NL; apply P..].
    destruct P as (vs & Is & B). destruct (String.eqb_spec cmd "set") as [->|N].
    + by apply (with_list_ok sig_in_names sig_out_names overflow c b pin_mode args inferred list opts mask o1 p vs).
    + destruct (with_mask_reads sig_in_names sig_out_names c b pin_mode cmd opts mask (numbers b pin_mode) o1 p N) as (r' & ->). by apply run_reads, Not.
Qed.

(** The words before the command. *)
Inductive option_word := OptEcho | OptForce | OptPin | OptVerbose | OptRegs (file : string).
#[global] Instance option_word_eq_dec : EqDecision option_word.
Proof. unfold EqDecision, Decision. pose proof string_dec. decide equality. Defined.
Definition words_of (o : option_word) : list string :=
  match o with
  | OptEcho => ["-e"] | OptForce => ["-f"] | OptPin => ["-p"] | OptVerbose => ["-v"] | OptRegs file => ["--regs"; file]
  end%string.
Definition is_option_word (a : string) : Prop := exists r, a = String "-" r.
(** The last file counts. *)
Definition regs_of (os : list option_word) : option string :=
  List.fold_left (fun f o => match o with OptRegs file => Some file | _ => f end) os None.
Definition option_line (argv : list string) (os : list option_word) (args : list string) : Prop :=
  argv = concat (map words_of os) ++ args /\ match args with a :: _ => ~ is_option_word a | [] => True end.
Definition apply_option (c : cfg) (o : option_word) : cfg :=
  match o with
  | OptEcho => Cfg true (c_force c) (c_pin c) (c_verbose c) (c_regs c)
  | OptForce => Cfg (c_echo c) true (c_pin c) (c_verbose c) (c_regs c)
  | OptPin => Cfg (c_echo c) (c_force c) true (c_verbose c) (c_regs c)
  | OptVerbose => Cfg (c_echo c) (c_force c) (c_pin c) true (c_regs c)
  | OptRegs file => Cfg (c_echo c) (c_force c) (c_pin c) (c_verbose c) (Some file)
  end.
Lemma options_ok n : forall argv c c' args, (length argv <= n)%nat -> options argv c = inl (c', args) ->
  exists os, option_line argv os args /\ c' = List.fold_left apply_option os c.
Proof.
  assert (Last : forall argv c c' args, match argv with a :: _ => ~ is_option_word a | [] => True end -> inl (c, argv) = inl (c', args) :> (cfg * list string) + (Z * list out) ->
    exists os, option_line argv os args /\ c' = List.fold_left apply_option os c).
  { intros argv c c' args H [= <- <-]. by exists []. }
  induction n as [|n IH]; intros argv c c' args L E; (destruct argv as [|a rest]; [by apply Last|]); cbn [length] in L; [lia|].
  destruct a as [|ch r]; [apply Last; [by intros [? ?]|done]|].
  destruct (ascii_dec ch "-") as [->|Nc].
  2: { apply Last; [intros [? [= -> _]]; by destruct Nc|]. destruct ch as [[] [] [] [] [] [] [] []]; try exact E. by destruct Nc. }
  assert (Step : forall o rest', String "-" r :: rest = words_of o ++ rest' -> (length rest' <= n)%nat -> options rest' (apply_option c o) = inl (c', args) ->
    exists os, option_line (String "-" r :: rest) os args /\ c' = List.fold_left apply_option os c).
  { intros o rest' W Lr Er. destruct (IH rest' _ c' args Lr Er) as (os & [-> N] & ->). exists (o :: os). split; [|done]. split; [|done].
    rewrite W. cbn [map concat]. by rewrite <- app_assoc. }
  cbn [options] in E.
  destruct (String.eqb_spec r "e") as [->|]; [apply (Step OptEcho rest); [done|lia|exact E]|].
  destruct (String.eqb_spec r "f") as [->|]; [apply (Step OptForce rest); [done|lia|exact E]|].
  destruct (String.eqb r "h"); [done|].
  destruct (String.eqb_spec r "p") as [->|]; [apply (Step OptPin rest); [done|lia|exact E]|].
  destruct (String.eqb_spec r "v") as [->|]; [apply (Step OptVerbose rest); [done|lia|exact E]|].
  destruct rest as [|file rest]; [done|]. destruct (String.eqb_spec r "-regs") as [->|]; [|done].
  cbn [length] in L. apply (Step (OptRegs file) rest); [done|lia|exact E].
Qed.
Lemma bool_decide_cons_elem (o o' : option_word) os : bool_decide (o ∈ o' :: os) = bool_decide (o = o') || bool_decide (o ∈ os).
Proof.
  destruct (decide (o = o')) as [->|N]; [by rewrite !bool_decide_true by (done || left)|]. rewrite (bool_decide_false (o = o')) by done.
  cbn [orb]. apply bool_decide_ext. rewrite elem_of_cons. split; [by intros [|?]|by right].
Qed.
Lemma options_apply os : forall c, let c' := List.fold_left apply_option os c in
  c_force c' = c_force c || bool_decide (OptForce ∈ os) /\ c_pin c' = c_pin c || bool_decide (OptPin ∈ os) /\
  c_regs c' = List.fold_left (fun f o => match o with OptRegs file => Some file | _ => f end) os (c_regs c).
Proof.
  induction os as [|o os IH]; intros c; cbn zeta; cbn [List.fold_left].
  - rewrite !bool_decide_false by apply not_elem_of_nil. by rewrite !orb_false_r.
  - destruct (IH (apply_option c o)) as (-> & -> & ->). rewrite !bool_decide_cons_elem, !orb_assoc.
    by destruct o; cbn [apply_option c_force c_pin c_regs]; rewrite ?(bool_decide_true (_ = _)), ?(bool_decide_false (_ = _)), ?orb_false_r, ?orb_true_r by done.
Qed.

Section program.
Context (sig_in_names sig_out_names : Z -> option string).
Context (overflow : string -> Z) (overflow_hex : bool -> Z -> Z) (ulong_max : Z) (strerror : Z -> string).
Context (file : string -> Z + string) (root : bool) (live_open : Z) (live : pins) (live_board : Z * board).
Lemma open_known f o p r b : known (snd live_board) -> open_registers overflow_hex ulong_max strerror file root live_open live live_board f = (o, Some (p, r, b)) -> known b.
Proof.
  intros K. destruct f as [f|]; cbn [open_registers].
  - unfold snapshot_load. destruct (file f) as [e|text]; [done|]. destruct (lines_loop _ _ _ _ _ _ _) as [n|[r1 b1]]; [done|].
    intros [= _ _ _ <-] hdr E. cbn [hdr_of] in E. by eexists.
  - destruct (nz live_open); [done|]. intros [= _ _ _ <-]. exact K.
Qed.

(** C37: the whole program, for every command line, every snapshot file and every board.
    It never leaves its arrays.  A command line is options and then words.  When the words are
    "set", a list of GPIOs and what to set, or without one of the commands just a list and what to set,
    then the pins of that list which may be set become what the words ask, all other pins and the
    input signals keep their state, in each state on the way, and no pin starts to drive at
    a level that was not asked; a used line is set only with the option "-f"; the exit
    code is 0 just when every pin of the list was set.  For all other words (the other commands, lists
    that are none, words that set does not know, nothing to set) no register is written. *)
Theorem pinctrl_main_correct (argv : list string) (K : known (snd live_board)) (O : forall s, 0 <= overflow s) :
  match main sig_in_names sig_out_names overflow overflow_hex ulong_max strerror file root live_open live live_board argv with
  | None => False
  | Some (_, None) => True
  | Some ((e, _), Some (p', l)) => exists os args o p r b,
      option_line argv os args /\
      open_registers overflow_hex ulong_max strerror file root live_open live live_board (regs_of os) = (o, Some (p, r, b)) /\
      let force := bool_decide (OptForce ∈ os) in
      let pin_mode := bool_decide (OptPin ∈ os) && bool_decide (is_Some (hdr_of b)) in
      ((p' = p /\ l = [] /\ forall x vs, ~ set_asked overflow b pin_mode args x vs) \/
       exists x vs, set_asked overflow b pin_mode args x vs /\ settable (p_fsel x) /\
         set_effect b force x (named_gpios b pin_mode vs) p p' l /\ e = Exited (set_code b force x (named_gpios b pin_mode vs) p))
  end.
Proof.
  unfold main. destruct (options argv _) as [[c args]|[code o]] eqn:Eo; [|done]. apply (options_ok (length argv)) in Eo as (os & A & Ec); [|lia].
  destruct (options_apply os (Cfg false false false false None)) as (Ef & Ep & Er). rewrite <- Ec in Ef, Ep, Er. cbn [c_force c_pin c_regs orb] in Ef, Ep, Er. clear Ec.
  destruct (match args with a :: _ => _ | [] => _ end); [done|].
  destruct (open_registers _ _ _ _ _ _ _ _ (c_regs c)) as [o [[[p r] b]|]] eqn:Eo; [|done].
  destruct (with_board_ok sig_in_names sig_out_names overflow c r b args o p (open_known _ _ _ _ _ K Eo) O) as (m & -> & H). cbn [mbind option_bind].
  rewrite Ef, Ep in H. rewrite Er in Eo. destruct (m p) as [[[e o'] p'] l]. exists os, args, o, p, r, b. split; [done|]. by split.
Qed.
End program.

Lemma pinctrl_main_correct_witness :
  let b := Board EmptyString EmptyString (fun g => if g =? 50 then "PA_CTRL"%string else EmptyString) 0 (BIT 46) true None in
  let run := main (fun _ => None) (fun _ => None) (fun _ => 0) (fun _ _ => 0) 4294967295 (fun _ => EmptyString) (fun _ => inl 2) true 0
    (Pins (fun _ => 0x800) (fun _ => 0) 0) (0, b) ["set"; "46-47,PA_CTRL"; "op"; "dh"]%string in
  match run with
  | Some ((Exited code, _), Some (p', _)) => code = 1 /\ map (fun q => v_oe (view_of p' q)) [46; 47; 48; 50] = [false; true; false; true]
  | _ => False
  end /\ run <> None.
Proof.
  cbn zeta. split; [vm_compute; by split|]. intros E.
  pose proof (pinctrl_main_correct (fun _ => None) (fun _ => None) (fun _ => 0) (fun _ _ => 0) 4294967295 (fun _ => EmptyString) (fun _ => inl 2) true 0
    (Pins (fun _ => 0x800) (fun _ => 0) 0)
    (0, Board EmptyString EmptyString (fun g => if g =? 50 then "PA_CTRL"%string else EmptyString) 0 (BIT 46) true None)
    ["set"; "46-47,PA_CTRL"; "op"; "dh"]%string ltac:(done) ltac:(done)) as H.
  by rewrite E in H.
Defined.
