(* ===== verification/PinPoll.v ===== *)
(** The poll command of the pinctrl tool: do_gpio_poll() of tools/pinctrl/pinctrl.c.

    A round of its loop is what pin_level() gives for the GPIOs in it, and the time of
    gettimeofday() in us; a round looks at the clock at most once.  The loop has no end, so
    the theorems are about every number of rounds. *)

From Stdlib Require Import Ascii String.
From S2P Require Import Prelude Device PinRegs Pinctrl PinTool PinText PinSnap PinCmd.

Open Scope Z_scope.

(** * The loop *)

(** The for loop of a round: [idle] is idle_count and [start] idle_start. *)
Fixpoint poll_pins (level_of : Z -> Z) (now : Z) (l : list poll_state) (idle start : Z) : list poll_state * list out * Z * bool :=
  match l with
  | [] => ([], [], idle, false)
  | s :: l =>
      let level := level_of (po_gpio s) in
      if level =? po_level s then let '(l, o, idle, changed) := poll_pins level_of now l idle start in (s :: l, o, idle, changed)
      else
        let wait := if nz idle then [Out ("+" ++ dec64 (u64 (now - start)) ++ "us" ++ nl)%string] else [] in
        let line := Out (dec2 (po_num s) ++ ": " ++ level_name level ++ " // " ++ po_name s ++ nl)%string in
        let '(l, o, idle, _) := poll_pins level_of now l (if nz idle then 0 else idle) start in
        (Poll (po_num s) (po_gpio s) (po_name s) level :: l, wait ++ line :: o, idle, true)
  end.
Definition poll_round (level_of : Z -> Z) (now : Z) (l : list poll_state) (idle start : Z) : list poll_state * list out * Z * Z :=
  let '(l, o, idle, changed) := poll_pins level_of now l idle start in
  if changed : bool then (l, o, idle, start) else (l, o, u32 (idle + 1), if nz idle then start else now).
Record poll_read := Read { r_level : Z -> Z; r_now : Z }.
(** What is printed in some rounds; with no GPIO the loop ends at once. *)
Fixpoint poll_loop (rounds : list poll_read) (l : list poll_state) (idle start : Z) : list poll_state * list out * Z * Z :=
  match rounds, l with
  | [], _ | _, [] => (l, [], idle, start)
  | r :: rounds, _ =>
      let '(l, o, idle, start) := poll_round (r_level r) (r_now r) l idle start in
      let '(l, o', idle, start) := poll_loop rounds l idle start in (l, o ++ o', idle, start)
  end.
Definition do_gpio_poll (rounds : list poll_read) (l : list poll_state) : list out := snd (fst (fst (poll_loop rounds l 0 0))).

(** * The specification *)

(** A level that changed, after a time without a change. *)
Inductive poll_ev := Waited (us : Z) | Changed (s : poll_state) (level : Z).
Definition text (e : poll_ev) : out :=
  match e with
  | Waited us => Out ("+" ++ dec64 us ++ "us" ++ nl)%string
  | Changed s level => Out (dec2 (po_num s) ++ ": " ++ level_name level ++ " // " ++ po_name s ++ nl)%string
  end.
Definition seen (level_of : Z -> Z) (s : poll_state) : poll_state := Poll (po_num s) (po_gpio s) (po_name s) (level_of (po_gpio s)).
Definition differs (level_of : Z -> Z) (s : poll_state) : bool := negb (level_of (po_gpio s) =? po_level s).
(** [quiet] is the time of the first round since the last change that had none. *)
Definition watch_round (r : poll_read) (l : list poll_state) (quiet : option Z) : list poll_ev * option Z :=
  match List.filter (differs (r_level r)) l with
  | [] => ([], Some (default (r_now r) quiet))
  | ch => (match quiet with Some t => [Waited (u64 (r_now r - t))] | None => [] end ++ map (fun s => Changed s (r_level r (po_gpio s))) ch, None)
  end.
Fixpoint watch (rounds : list poll_read) (l : list poll_state) (quiet : option Z) : list poll_ev :=
  match rounds with
  | [] => []
  | r :: rounds => let '(ev, quiet) := watch_round r l quiet in ev ++ watch rounds (map (seen (r_level r)) l) quiet
  end.
(** The levels that are reported for a number. *)
Definition reported (num : Z) (l : list poll_ev) : list Z :=
  flat_map (fun e => match e with Changed s level => if po_num s =? num then [level] else [] | _ => [] end) l.
(** The changes of a sequence of levels, after [last]. *)
Fixpoint changes (last : Z) (levels : list Z) : list Z :=
  match levels with [] => [] | x :: levels => if x =? last then changes last levels else x :: changes x levels end.

(** * The loop does what the specification says *)

Lemma seen_same level_of s : differs level_of s = false -> seen level_of s = s.
Proof. unfold differs, seen. destruct (Z.eqb_spec (level_of (po_gpio s)) (po_level s)) as [->|]; [by destruct s|done]. Qed.
Lemma poll_pins_quiet level_of now start : forall l, poll_pins level_of now l 0 start =
  (map (seen level_of) l, map text (map (fun s => Changed s (level_of (po_gpio s))) (List.filter (differs level_of) l)), 0,
   negb (bool_decide (List.filter (differs level_of) l = []))).
Proof.
  induction l as [|s l IH]; [done|]. cbn [poll_pins map List.filter]. change (if nz 0 then 0 else 0) with 0. rewrite IH.
  destruct (differs level_of s) eqn:D; unfold differs in D; [apply negb_true_iff in D|apply negb_false_iff in D]; rewrite D; [done|].
  rewrite seen_same by (unfold differs; by rewrite D). done.
Qed.
Lemma poll_pins_idle level_of now idle start : nz idle = true -> forall l, poll_pins level_of now l idle start =
  let ch := List.filter (differs level_of) l in
  (map (seen level_of) l,
   match ch with [] => [] | _ => text (Waited (u64 (now - start))) :: map text (map (fun s => Changed s (level_of (po_gpio s))) ch) end,
   match ch with [] => idle | _ => 0 end, negb (bool_decide (ch = []))).
Proof.
  intros N. induction l as [|s l IH]; [done|]. cbn [poll_pins map List.filter].
  destruct (differs level_of s) eqn:D; unfold differs in D; [apply negb_true_iff in D|apply negb_false_iff in D]; rewrite D.
  - rewrite N, poll_pins_quiet. done.
  - rewrite IH, seen_same by (unfold differs; by rewrite D). done.
Qed.
(** The counter and the time of the code are the quiet time of the specification. *)
Definition quiet_is (idle start : Z) (quiet : option Z) : Prop :=
  match quiet with None => idle = 0 | Some t => 0 < idle /\ start = t end.
Lemma poll_round_watch r l idle start quiet : quiet_is idle start quiet -> 0 <= idle < 4294967295 ->
  let '(ev, quiet') := watch_round r l quiet in
  exists idle' start', poll_round (r_level r) (r_now r) l idle start = (map (seen (r_level r)) l, map text ev, idle', start') /\
    quiet_is idle' start' quiet' /\ 0 <= idle' <= idle + 1.
Proof.
  intros Q B. unfold watch_round, poll_round.
  assert (E : exists o i c, poll_pins (r_level r) (r_now r) l idle start = (map (seen (r_level r)) l, o, i, c) /\
    match List.filter (differs (r_level r)) l with
    | [] => o = [] /\ i = idle /\ c = false
    | ch => o = map text (match quiet with Some t => [Waited (u64 (r_now r - t))] | None => [] end ++ map (fun s => Changed s (r_level r (po_gpio s))) ch) /\ i = 0 /\ c = true
    end).
  { destruct quiet as [t|]; cbn [quiet_is] in Q.
    - destruct Q as [Q ->]. do 3 eexists. rewrite poll_pins_idle by (unfold nz; by rewrite (proj2 (Z.eqb_neq _ _)) by lia). split; [done|].
      by destruct (List.filter _ l).
    - subst idle. do 3 eexists. rewrite poll_pins_quiet. split; [done|]. by destruct (List.filter _ l). }
  destruct E as (o & i & c & -> & E). destruct (List.filter _ l) as [|s ch].
  - destruct E as (-> & -> & ->). eexists _, _. split; [done|]. rewrite u32_small by lia. split; [|lia].
    destruct quiet as [t|]; cbn [quiet_is default] in *.
    + destruct Q as [Q ->]. unfold nz. rewrite (proj2 (Z.eqb_neq _ _)) by lia. cbn. lia.
    + subst idle. cbn. lia.
  - destruct E as (-> & -> & ->). eexists _, _. split; [done|]. split; [done|lia].
Qed.
Lemma poll_loop_watch : forall rounds l idle start quiet, l <> [] -> quiet_is idle start quiet -> 0 <= idle -> idle + zlen rounds < 4294967296 ->
  snd (fst (fst (poll_loop rounds l idle start))) = map text (watch rounds l quiet).
Proof.
  induction rounds as [|r rounds IH]; intros l idle start quiet L Q B H; [by destruct l|]. rewrite zlen_cons in H. pose proof (zlen_nonneg rounds).
  cbn [watch]. pose proof (poll_round_watch r l idle start quiet Q ltac:(lia)) as W.
  destruct (watch_round r l quiet) as [ev quiet']. destruct W as (idle' & start' & E & Q' & B').
  assert (map (seen (r_level r)) l <> []) as L' by (by destruct l).
  specialize (IH (map (seen (r_level r)) l) idle' start' quiet' L' Q' ltac:(lia) ltac:(lia)).
  destruct l as [|s l]; [done|]. cbn [poll_loop]. rewrite E. destruct (poll_loop rounds _ idle' start') as [[[l' o'] i'] s'].
  cbn [fst snd] in *. by rewrite IH, map_app.
Qed.

(** * The levels of one GPIO *)

Lemma reported_app num l k : reported num (l ++ k) = reported num l ++ reported num k.
Proof. apply flat_map_app. Qed.
Lemma reported_changed num s level l : reported num (Changed s level :: l) = (if po_num s =? num then [level] else []) ++ reported num l.
Proof. done. Qed.
Lemma reported_other level_of num l : ~ In num (map po_num l) ->
  reported num (map (fun s => Changed s (level_of (po_gpio s))) (List.filter (differs level_of) l)) = [].
Proof.
  induction l as [|s l IH]; [done|]. cbn [map List.filter In]. intros N.
  destruct (differs level_of s); [|tauto]. cbn [map]. rewrite reported_changed, (proj2 (Z.eqb_neq _ _)) by tauto. apply IH. tauto.
Qed.
Lemma reported_changes level_of l s : List.NoDup (map po_num l) -> In s l ->
  reported (po_num s) (map (fun s => Changed s (level_of (po_gpio s))) (List.filter (differs level_of) l)) =
  if differs level_of s then [level_of (po_gpio s)] else [].
Proof.
  induction l as [|x l IH]; [done|]. cbn [map List.filter In]. intros N I. apply List.NoDup_cons_iff in N as [Nx N].
  destruct I as [->|I].
  - destruct (differs level_of s); [|by apply reported_other]. cbn [map]. rewrite reported_changed, Z.eqb_refl. by rewrite reported_other.
  - assert (po_num x <> po_num s) by (intros E; apply Nx; rewrite E; by apply in_map).
    destruct (differs level_of x); [|by apply IH]. cbn [map]. rewrite reported_changed, (proj2 (Z.eqb_neq _ _)) by done. by apply IH.
Qed.
Lemma reported_round r l quiet s : List.NoDup (map po_num l) -> In s l ->
  reported (po_num s) (fst (watch_round r l quiet)) = if differs (r_level r) s then [r_level r (po_gpio s)] else [].
Proof.
  intros N I. rewrite <- (reported_changes _ _ _ N I). unfold watch_round. destruct (List.filter _ l); [done|]. cbn [fst].
  rewrite reported_app. by destruct quiet.
Qed.
Lemma reported_watch : forall rounds l quiet s, List.NoDup (map po_num l) -> In s l ->
  reported (po_num s) (watch rounds l quiet) = changes (po_level s) (map (fun r => r_level r (po_gpio s)) rounds).
Proof.
  induction rounds as [|r rounds IH]; intros l quiet s N I; [done|]. cbn [watch map changes].
  pose proof (reported_round r l quiet s N I) as R. destruct (watch_round r l quiet) as [ev quiet']. cbn [fst] in R.
  rewrite reported_app, R. assert (map po_num (map (seen (r_level r)) l) = map po_num l) as M by (by rewrite map_map).
  rewrite <- M in N. pose proof (IH _ quiet' (seen (r_level r) s) N (in_map _ _ _ I)) as E. cbn [po_num po_gpio po_level seen] in E. rewrite E.
  unfold differs. destruct (Z.eqb_spec (r_level r (po_gpio s)) (po_level s)) as [->|]; done.
Qed.
Lemma polls_of b pin_mode nums : forall l, List.NoDup (map po_num l ++ nums) -> Forall (fun s => po_level s = -2) l ->
  let r := List.fold_left (fun l n => do_gpio_poll_add b pin_mode n l) nums l in
  List.NoDup (map po_num r) /\ Forall (fun s => po_level s = -2) r.
Proof.
  induction nums as [|n nums IH]; intros l N L; [by rewrite app_nil_r in N|]. cbn [List.fold_left]. apply IH.
  - unfold do_gpio_poll_add. destruct (_ || _); [by apply List.NoDup_remove_1 in N|].
    rewrite map_app. cbn [map po_num]. by rewrite <- app_assoc.
  - unfold do_gpio_poll_add. destruct (_ || _); [done|]. apply Forall_app. split; [done|by constructor].
Qed.

(** Whatever the levels do, in each run of fewer than 2^32 rounds the poll command prints just the
    changes: for each of its GPIOs the first level and then each level that differs from the one before it,
    in the order of the rounds, and before the changes of a round the time since the first round without one. *)
Theorem poll_correct (b : board) (pin_mode : bool) (nums : list Z) (rounds : list poll_read) :
  let l := List.fold_left (fun l n => do_gpio_poll_add b pin_mode n l) nums [] in
  l <> [] -> List.NoDup nums -> zlen rounds < 4294967296 ->
  do_gpio_poll rounds l = map text (watch rounds l None) /\
  (forall s, In s l -> reported (po_num s) (watch rounds l None) = changes (-2) (map (fun r => r_level r (po_gpio s)) rounds)).
Proof.
  cbn zeta. intros L N H. destruct (polls_of b pin_mode nums [] N) as [M A]; [done|]. set (l := List.fold_left _ nums []) in *.
  split; [by apply poll_loop_watch|]. intros s I. rewrite (reported_watch _ _ _ _ M I). f_equal.
  rewrite Forall_forall in A. apply A. by first [exact I|apply list_elem_of_In].
Qed.
Lemma poll_correct_witness :
  let b := Board EmptyString EmptyString (fun _ => EmptyString) 0 0 true None in
  let l := List.fold_left (fun l n => do_gpio_poll_add b false n l) [4; 5] [] in
  let rounds := [Read (fun _ => 0) 10; Read (fun _ => 0) 1012; Read (fun _ => 0) 2013; Read (fun g => g - 4) 3015] in
  watch rounds l None = map (fun s => Changed s 0) l ++ [Waited 2003; Changed (Poll 5 5 (po_name (nth 1 l (Poll 0 0 "" 0))) 0) 1] /\
  do_gpio_poll rounds l = map text (watch rounds l None).
Proof.
  split; [by vm_compute|]. apply poll_correct; [done| |done]. repeat constructor; cbn; lia.
Defined.

(** * The counter wraps *)

Lemma poll_quiet r n l : forall idle start, l <> [] -> List.filter (differs (r_level r)) l = [] -> 0 <= idle ->
  exists start', poll_loop (repeat r n) l (u32 idle) start = (l, [], u32 (idle + Z.of_nat n), start').
Proof.
  induction n as [|n IH]; intros idle start L Q B.
  - exists start. rewrite Z.add_0_r. by destruct l.
  - assert (map (seen (r_level r)) l = l) as M.
    { clear - Q. induction l as [|s l IH]; [done|]. cbn [List.filter map] in *. destruct (differs (r_level r) s) eqn:D; [done|].
      by rewrite seen_same, IH. }
    assert (E : exists start', poll_round (r_level r) (r_now r) l (u32 idle) start = (l, [], u32 (idle + 1), start')).
    { assert (u32 (u32 idle + 1) = u32 (idle + 1)) as <- by (unfold u32; zlia). unfold poll_round. destruct (nz (u32 idle)) eqn:Z.
      - rewrite poll_pins_idle, Q, M by done. by eexists.
      - unfold nz in Z. apply negb_false_iff, Z.eqb_eq in Z. rewrite Z, poll_pins_quiet, Q, M. by eexists. }
    destruct E as (start1 & E). destruct (IH (idle + 1) start1 L Q ltac:(lia)) as (start2 & F). exists start2.
    destruct l as [|s l]; [done|]. cbn [repeat poll_loop]. rewrite E, F. do 2 f_equal. f_equal. lia.
Qed.
(** After 2^32 rounds without a change idle_count is 0 again, and the next change is printed without the time before it. *)
Lemma poll_wraps r r' l start : l <> [] -> List.filter (differs (r_level r)) l = [] ->
  exists start', poll_loop (repeat r (Z.to_nat 4294967296)) l 0 start = (l, [], 0, start') /\
    snd (fst (fst (poll_round (r_level r') (r_now r') l 0 start'))) =
    map text (map (fun s => Changed s (r_level r' (po_gpio s))) (List.filter (differs (r_level r')) l)).
Proof.
  intros L Q. destruct (poll_quiet r (Z.to_nat 4294967296) l 0 start L Q ltac:(lia)) as (start' & E). exists start'.
  rewrite Z2Nat.id in E by lia. split; [exact E|]. unfold poll_round. rewrite poll_pins_quiet. by destruct (negb _).
Qed.
