(* ===== verification/Glue.v ===== *)
(** Small drivers: the eFuses with the MAC addresses
    (linux/drivers/nvmem/esp32s31-efuse.c), the USB PHY
    (linux/drivers/phy/phy-esp32s31-usb.c) and the clocks of the Ethernet MAC
    (linux/.../stmmac/dwmac-esp32s31.c).

    The eFuse registers are a function of their offset.  The PHY driver writes
    registers that keep what is written: a program gives the states that they
    go through, the newest first.  regmap_update_bits is a parameter: what it
    returns and what it makes of its regmap. *)

From S2P Require Import Prelude Device.

(** * eFuses *)

Definition ETH_ALEN : Z := 6.
Fixpoint esp32s31_efuse_read (regs : Z -> Z) (offset : Z) (bytes : nat) : list Z :=
  match bytes with
  | O => []
  | S bytes => u8 (Z.shiftr (regs (Z.land offset (not32 3))) (8 * Z.land offset 3)) :: esp32s31_efuse_read regs (offset + 1) bytes
  end.
Fixpoint swap_loop (k : nat) (i : Z) (mac : list Z) : list Z :=
  match k with
  | O => mac
  | S k =>
      let j := ETH_ALEN - 1 - i in
      swap_loop k (i + 1) (<[Z.to_nat i := get mac j]> (<[Z.to_nat j := get mac i]> mac))
  end.
Definition esp32s31_efuse_mac_pp (index : Z) (mac : list Z) (bytes : Z) : Z * list Z :=
  if negb (bytes =? ETH_ALEN) || (index <? 0) || (index >? 3) then (- EINVAL, mac)
  else
    let mac := swap_loop 3 0 mac in
    let mac := <[5%nat := u8 (get mac 5 + index / 2)]> mac in
    if nz (Z.land index 1) then
      let universal := get mac 0 in
      let mac := <[0%nat := Z.lor (get mac 0) 0x02]> mac in
      (0, if get mac 0 =? universal then <[0%nat := Z.lxor (get mac 0) 0x04]> mac else mac)
    else (0, mac).

(** The byte of the eFuses at an offset. *)
Definition efuse_byte (regs : Z -> Z) (k : Z) : Z := Z.shiftr (regs (k - k mod 4)) (8 * (k mod 4)) mod 256.
Lemma efuse_read_bytes regs n : forall off, 0 <= off -> off + Z.of_nat n <= 4294967296 ->
  esp32s31_efuse_read regs off n = map (efuse_byte regs) (seqZ off (Z.of_nat n)).
Proof.
  induction n as [|n IH]; intros off H0 H1; [done|]. rewrite Nat2Z.inj_succ, seqZ_cons by lia. cbn [esp32s31_efuse_read map].
  rewrite Z.pred_succ, IH by lia. f_equal. unfold efuse_byte, u8. change 3 with (Z.ones 2) at 2. rewrite Z.land_ones by lia. change (2 ^ 2) with 4.
  assert (Z.land off (not32 3) = off - off mod 4) as ->; [|done].
  change 3 with (Z.ones 2). rewrite align_down by lia. change (2 ^ 2) with 4. zlia.
Qed.

(** The first byte of the address with an index. *)
Definition mac_top (f i : Z) : Z := if negb (i mod 2 =? 1) then f else if Z.testbit f 1 then Z.lxor f 4 else Z.lor f 2.
Lemma lor_2 f : (Z.lor f 2 =? f) = Z.testbit f 1.
Proof.
  apply eq_true_iff_eq. rewrite Z.eqb_eq. split.
  - intros <-. rewrite Z.lor_spec. apply orb_true_r.
  - intros T. apply Z.bits_inj'. intros i Hi. rewrite Z.lor_spec. change 2 with (BIT 1). rewrite BIT_testbit by lia.
    destruct (Z.eqb_spec i 1) as [->|]; [by rewrite T|by rewrite orb_false_r].
Qed.
Lemma mac_top_bits f i : Z.testbit (mac_top f i) 0 = Z.testbit f 0 /\ (i mod 2 = 1 -> Z.testbit (mac_top f i) 1 = true /\ mac_top f i <> f).
Proof.
  unfold mac_top. destruct (Z.eqb_spec (i mod 2) 1) as [E|E]; cbn [negb]; [|by split]. destruct (Z.testbit f 1) eqn:T.
  - rewrite !Z.lxor_spec, T. change (Z.testbit 4 0) with false. change (Z.testbit 4 1) with false. rewrite xorb_false_r.
    split; [done|]. intros _. split; [done|]. intros N. apply (f_equal (fun x => Z.testbit x 2)) in N. rewrite Z.lxor_spec in N.
    change (Z.testbit 4 2) with true in N. by destruct (Z.testbit f 2).
  - rewrite !Z.lor_spec, T. change (Z.testbit 2 0) with false. rewrite orb_false_r. split; [done|]. intros _. split; [done|].
    intros N. apply Z.eqb_eq in N. rewrite lor_2 in N. congruence.
Qed.
Lemma mac_pp_eq a b c d e f i : 0 <= i <= 3 ->
  esp32s31_efuse_mac_pp i [a; b; c; d; e; f] 6 = (0, [mac_top f i; e; d; c; b; u8 (a + i / 2)]).
Proof.
  intros Hi. unfold esp32s31_efuse_mac_pp. change (6 =? ETH_ALEN) with true. rewrite (proj2 (Z.ltb_ge i 0)) by lia.
  assert ((i >? 3) = false) as -> by (rewrite Z.gtb_ltb; apply Z.ltb_ge; lia). cbn [negb orb].
  change (swap_loop 3 0 [a; b; c; d; e; f]) with [f; e; d; c; b; a]. change 1 with (Z.ones 1) at 1. rewrite Z.land_ones by lia. change (2 ^ 1) with 2.
  unfold mac_top, get. cbn -[Z.lor Z.lxor Z.testbit]. unfold nz. assert (i mod 2 = 0 \/ i mod 2 = 1) as [-> | ->] by zlia; cbn -[Z.lor Z.lxor Z.testbit]; [done|].
  change (Z.to_nat 0) with 0%nat; change (Z.to_nat 5) with 5%nat; cbn -[Z.lor Z.lxor Z.testbit]; rewrite lor_2. destruct (Z.testbit f 1) eqn:T; [|done]. do 3 f_equal. pose proof (lor_2 f) as L. rewrite T in L. by apply Z.eqb_eq in L as ->.
Qed.

(** The MAC addresses.  The cell of the factory address at 0x50 gives, for each of the four
    interfaces, the six bytes of the eFuses from the last to the first with the last one
    counted up by one for Bluetooth and Ethernet; the addresses with an odd index
    are local.  All four are different and none is a group address, when the
    factory address is not.  Another index or length is an error that leaves the bytes. *)
Theorem efuse_mac_correct (regs : Z -> Z) (index bytes : Z) :
  let raw := esp32s31_efuse_read regs 0x50 6 in
  let mac i := snd (esp32s31_efuse_mac_pp i raw 6) in
  let b k := efuse_byte regs (0x50 + k) in
  if (bytes =? 6) && (0 <=? index) && (index <=? 3)
  then esp32s31_efuse_mac_pp index raw bytes = (0, [mac_top (b 5) index; b 4; b 3; b 2; b 1; u8 (b 0 + index / 2)]) /\
       (index mod 2 = 1 -> Z.testbit (get (mac index) 0) 1 = true) /\
       Z.testbit (get (mac index) 0) 0 = Z.testbit (b 5) 0 /\
       (forall j, 0 <= j <= 3 -> mac j = mac index -> j = index)
  else esp32s31_efuse_mac_pp index raw bytes = (- EINVAL, raw).
Proof.
  cbn zeta. rewrite (efuse_read_bytes regs 6 0x50) by (cbn; lia).
  change (seqZ 80 (Z.of_nat 6)) with [80; 81; 82; 83; 84; 85]. cbn [map].
  change (80 + 0) with 80. change (80 + 1) with 81. change (80 + 2) with 82. change (80 + 3) with 83. change (80 + 4) with 84. change (80 + 5) with 85.
  generalize (efuse_byte regs 80) (efuse_byte regs 81) (efuse_byte regs 82) (efuse_byte regs 83) (efuse_byte regs 84) (efuse_byte regs 85). intros b0 b1 b2 b3 b4 b5.
  destruct ((bytes =? 6) && (0 <=? index) && (index <=? 3)) eqn:C.
  - rewrite !andb_true_iff, Z.eqb_eq, !Z.leb_le in C. destruct C as [[-> H0] H3].
    rewrite !mac_pp_eq by lia. cbn [snd]. unfold get. cbn [Z.to_nat nth]. destruct (mac_top_bits b5 index) as [B0 B1].
    split; [done|]. split; [by intros O; apply B1|]. split; [exact B0|]. intros j Hj E. rewrite mac_pp_eq in E by lia. cbn [snd] in E.
    injection E as Et El. destruct (mac_top_bits b5 j) as [_ J1].
    assert (j / 2 = index / 2) as D. { unfold u8 in El. assert (0 <= j / 2 <= 1 /\ 0 <= index / 2 <= 1) as [? ?] by zlia. zlia. }
    assert (j mod 2 = index mod 2); [|zlia]. assert (0 <= j mod 2 < 2 /\ 0 <= index mod 2 < 2) as [? ?] by zlia.
    destruct (Z.eqb_spec (j mod 2) 1) as [Oj|Oj], (Z.eqb_spec (index mod 2) 1) as [Oi|Oi]; [lia|exfalso..|lia].
    + apply (proj2 (J1 Oj)). rewrite Et. unfold mac_top. by apply Z.eqb_neq in Oi as ->.
    + apply (proj2 (B1 Oi)). rewrite <- Et. unfold mac_top. by apply Z.eqb_neq in Oj as ->.
  - unfold esp32s31_efuse_mac_pp. change ETH_ALEN with 6. rewrite Z.gtb_ltb.
    destruct (bytes =? 6), (Z.leb_spec 0 index), (Z.leb_spec index 3), (Z.ltb_spec index 0), (Z.ltb_spec 3 index); cbn in *; try done; lia.
Qed.

(** * USB PHY *)

Definition ESP32S31_USB_APB_CLK_EN : Z := BIT 0.
Definition ESP32S31_USB_SYS_CLK_EN : Z := BIT 1.
Definition ESP32S31_USB_UTMIFS_CLK_EN : Z := BIT 23.
Definition ESP32S31_USB_PHYREF_CLK_EN : Z := BIT 27.
Definition ESP32S31_USB_PHY_RST_EN : Z := BIT 29.
Definition ESP32S31_USB_AHB_RST_EN : Z := BIT 30.
Definition ESP32S31_USB_APB_RST_EN : Z := BIT 31.
Definition ESP32S31_USB_ALL_RST_EN : Z := Z.lor (Z.lor ESP32S31_USB_PHY_RST_EN ESP32S31_USB_AHB_RST_EN) ESP32S31_USB_APB_RST_EN.
Definition ESP32S31_USB_DM_PULLDOWN : Z := BIT 2.
Definition ESP32S31_USB_DP_PULLDOWN : Z := BIT 3.
Definition ESP32S31_USB_PHY_PLL_FORCE_EN : Z := BIT 0.
Definition ESP32S31_USB_PHY_SUSPEND_FORCE_EN : Z := BIT 2.
Definition ESP32S31_USB_PHY_OTG_SUSPENDM : Z := BIT 7.
Definition ESP32S31_USB_LS_PARALLEL_EN : Z := BIT 0.
Definition ESP32S31_USB_LS_KEEPALIVE_EN : Z := BIT 3.

Inductive usb_reg := clkrst | cnnt_ctrl | usb_ctrl | otghs_ctrl | utmi_fc06.
#[global] Instance usb_reg_eq_dec : EqDecision usb_reg.
Proof. solve_decision. Defined.
(** The registers now, and the ones before. *)
Definition usb_regs : Type := usb_reg -> Z.
Definition usb_hist : Type := usb_regs * list usb_regs.
Definition usb_readl (reg : usb_reg) (h : usb_hist) : Z := fst h reg.
Definition upd (reg : usb_reg) (v : Z) (r : usb_regs) : usb_regs := fun x => if decide (x = reg) then v else r x.
Definition usb_writel (v : Z) (reg : usb_reg) (h : usb_hist) : usb_hist := (upd reg v (fst h), fst h :: snd h).
Definition esp32s31_usb_set_bits (reg : usb_reg) (bits : Z) (on : bool) (h : usb_hist) : usb_hist :=
  let val := usb_readl reg h in
  usb_writel (if on then Z.lor val bits else Z.land val (not32 bits)) reg h.
Definition esp32s31_usb_phy_init (h : usb_hist) : Z * usb_hist :=
  let h := esp32s31_usb_set_bits clkrst (Z.lor ESP32S31_USB_APB_CLK_EN ESP32S31_USB_SYS_CLK_EN) true h in
  let h := esp32s31_usb_set_bits cnnt_ctrl (Z.lor ESP32S31_USB_UTMIFS_CLK_EN ESP32S31_USB_PHYREF_CLK_EN) true h in
  let h := esp32s31_usb_set_bits otghs_ctrl (Z.lor ESP32S31_USB_PHY_PLL_FORCE_EN ESP32S31_USB_PHY_SUSPEND_FORCE_EN) false h in
  let val := Z.lor (usb_readl cnnt_ctrl h) ESP32S31_USB_ALL_RST_EN in
  let h := usb_writel val cnnt_ctrl h in
  let val := Z.land val (not32 ESP32S31_USB_PHY_RST_EN) in
  let h := usb_writel val cnnt_ctrl h in
  let val := Z.land val (not32 (Z.lor ESP32S31_USB_AHB_RST_EN ESP32S31_USB_APB_RST_EN)) in
  let h := usb_writel val cnnt_ctrl h in
  let h := esp32s31_usb_set_bits otghs_ctrl ESP32S31_USB_PHY_OTG_SUSPENDM true h in
  let h := esp32s31_usb_set_bits utmi_fc06 (Z.lor ESP32S31_USB_LS_PARALLEL_EN ESP32S31_USB_LS_KEEPALIVE_EN) true h in
  let h := esp32s31_usb_set_bits usb_ctrl (Z.lor ESP32S31_USB_DM_PULLDOWN ESP32S31_USB_DP_PULLDOWN) true h in
  (0, h).
Definition esp32s31_usb_phy_exit (h : usb_hist) : Z * usb_hist :=
  let h := esp32s31_usb_set_bits usb_ctrl (Z.lor ESP32S31_USB_DM_PULLDOWN ESP32S31_USB_DP_PULLDOWN) false h in
  let h := esp32s31_usb_set_bits cnnt_ctrl (Z.lor ESP32S31_USB_UTMIFS_CLK_EN ESP32S31_USB_PHYREF_CLK_EN) false h in
  let h := esp32s31_usb_set_bits clkrst (Z.lor ESP32S31_USB_APB_CLK_EN ESP32S31_USB_SYS_CLK_EN) false h in
  (0, h).

(** The bits that the driver owns and what they are in host mode. *)
Definition host_bits (r : usb_reg) : list (Z * bool) :=
  match r with
  | clkrst => [(0, true); (1, true)]
  | cnnt_ctrl => [(23, true); (27, true); (29, false); (30, false); (31, false)]
  | usb_ctrl => [(2, true); (3, true)]
  | otghs_ctrl => [(0, false); (2, false); (7, true)]
  | utmi_fc06 => [(0, true); (3, true)]
  end.
(** The clocks and the pull-downs: what the exit takes back. *)
Definition exit_bits (r : usb_reg) : list (Z * bool) :=
  match r with
  | clkrst => [(0, false); (1, false)]
  | cnnt_ctrl => [(23, false); (27, false)]
  | usb_ctrl => [(2, false); (3, false)]
  | _ => []
  end.
Definition forced (l : list (Z * bool)) (i : Z) (b : bool) : bool := foldr (fun x b => if i =? fst x then snd x else b) b l.
(** Clocks all on; the resets of the PHY, the AHB and the APB core. *)
Definition clocks_on (r : usb_regs) : bool := forallb (fun i => Z.testbit (r clkrst) i) [0; 1] && forallb (fun i => Z.testbit (r cnnt_ctrl) i) [23; 27].
Definition resets (r : usb_regs) : list bool := map (Z.testbit (r cnnt_ctrl)) [29; 30; 31].

Lemma lor_mask x m i : Z.testbit (Z.lor x m) i = if Z.testbit m i then true else Z.testbit x i.
Proof. rewrite Z.lor_spec. destruct (Z.testbit m i); [apply orb_true_r|apply orb_false_r]. Qed.
Lemma clear_mask x m i : 0 <= i < 32 -> Z.testbit (Z.land x (not32 m)) i = if Z.testbit m i then false else Z.testbit x i.
Proof. intros Hi. rewrite Z.land_spec, not32_testbit by done. destruct (Z.testbit m i); [apply andb_false_r|apply andb_true_r]. Qed.

(** The states that the two functions go through, one write each. *)
Definition set_of (reg : usb_reg) (m : Z) (r : usb_regs) : usb_regs := upd reg (Z.lor (r reg) m) r.
Definition clear_of (reg : usb_reg) (m : Z) (r : usb_regs) : usb_regs := upd reg (Z.land (r reg) (not32 m)) r.
Definition then_ (l : list usb_regs) (f : usb_regs -> usb_regs) : list usb_regs :=
  match l with r :: _ => f r :: l | [] => [] end.
Definition host_states (r : usb_regs) : list usb_regs :=
  foldl then_ [r]
    [set_of clkrst (Z.lor (BIT 0) (BIT 1)); set_of cnnt_ctrl (Z.lor (BIT 23) (BIT 27)); clear_of otghs_ctrl (Z.lor (BIT 0) (BIT 2));
     set_of cnnt_ctrl (Z.lor (Z.lor (BIT 29) (BIT 30)) (BIT 31)); clear_of cnnt_ctrl (BIT 29); clear_of cnnt_ctrl (Z.lor (BIT 30) (BIT 31));
     set_of otghs_ctrl (BIT 7); set_of utmi_fc06 (Z.lor (BIT 0) (BIT 3)); set_of usb_ctrl (Z.lor (BIT 2) (BIT 3))].
Lemma set_of_at reg m r : set_of reg m r reg = Z.lor (r reg) m.
Proof. unfold set_of, upd. by rewrite decide_True. Qed.
Lemma set_of_ne reg reg' m r : reg' <> reg -> set_of reg m r reg' = r reg'.
Proof. intros N. unfold set_of, upd. by rewrite decide_False. Qed.
Lemma clear_of_at reg m r : clear_of reg m r reg = Z.land (r reg) (not32 m).
Proof. unfold clear_of, upd. by rewrite decide_True. Qed.
Lemma clear_of_ne reg reg' m r : reg' <> reg -> clear_of reg m r reg' = r reg'.
Proof. intros N. unfold clear_of, upd. by rewrite decide_False. Qed.
Create Rewrite HintDb usb.
#[local] Hint Rewrite set_of_at clear_of_at : usb.
#[local] Hint Rewrite set_of_ne clear_of_ne using done : usb.
Lemma phy_init_states r : let (ret, h) := esp32s31_usb_phy_init (r, []) in ret = 0 /\ fst h :: snd h = host_states r.
Proof. done. Qed.
Lemma phy_exit_states r l : let (ret, h) := esp32s31_usb_phy_exit (r, l) in
  ret = 0 /\ fst h = clear_of clkrst (Z.lor (BIT 0) (BIT 1)) (clear_of cnnt_ctrl (Z.lor (BIT 23) (BIT 27)) (clear_of usb_ctrl (Z.lor (BIT 2) (BIT 3)) r)).
Proof. done. Qed.
Ltac case_bit := match goal with |- context [?i =? ?k] => destruct (Z.eqb_spec i k); [subst i|] end; try done.
(** A bit of a register after some writes, from the bits of the masks. *)
Ltac usb_bit :=
  autorewrite with usb; rewrite ?lor_mask, ?clear_mask by lia; repeat rewrite ?lor_mask, ?clear_mask, ?Z.lor_spec, ?BIT_testbit by lia.
(** The PHY in host mode.  The setup makes the bits that the driver owns those of host
    mode and leaves every other bit of the five registers; the reset of the PHY, the
    AHB and the APB core is a pulse: all set, then the PHY released, then all
    released, with the clocks on from before it to the end, and the PHY leaves
    suspend only after it.  The exit stops the clocks and lets the data lines go, and changes nothing else. *)
Theorem usb_phy_correct (r : usb_regs) :
  let '(ret, (r1, h1)) := esp32s31_usb_phy_init (r, []) in
  let '(ret2, (r2, _)) := esp32s31_usb_phy_exit (r1, h1) in
  ret = 0 /\ ret2 = 0 /\
  (forall reg i, 0 <= i < 32 ->
    Z.testbit (r1 reg) i = forced (host_bits reg) i (Z.testbit (r reg) i) /\
    Z.testbit (r2 reg) i = forced (exit_bits reg) i (Z.testbit (r1 reg) i)) /\
  exists before during after,
    rev (r1 :: h1) = before ++ during ++ after /\
    map resets during = [[true; true; true]; [false; true; true]; [false; false; false]] /\
    Forall (fun s => resets s = [false; false; false]) after /\
    Forall (fun s => clocks_on s = true) (during ++ after) /\
    Forall (fun s => resets s = resets r) before /\
    Forall (fun s => Z.testbit (s otghs_ctrl) 7 = Z.testbit (r otghs_ctrl) 7) (before ++ during).
Proof.
  pose proof (phy_init_states r) as I. destruct (esp32s31_usb_phy_init (r, [])) as [ret [r1 h1]]. destruct I as [-> I]. cbn [fst snd] in I.
  pose proof (phy_exit_states r1 h1) as X. destruct (esp32s31_usb_phy_exit (r1, h1)) as [ret2 [r2 h2]]. destruct X as [-> X]. cbn [fst] in X. subst r2.
  cbn [host_states foldl then_] in I. split; [done|split; [done|split]].
  - intros reg i Hi. split; [injection I as -> _|clear I]; destruct reg; usb_bit; cbn [forced host_bits exit_bits foldr fst snd]; by repeat case_bit.
  - exists (rev (skipn 6 (r1 :: h1))), (rev (firstn 3 (skipn 3 (r1 :: h1)))), (rev (firstn 3 (r1 :: h1))). rewrite I. cbn [skipn firstn rev app].
    split; [done|]. unfold resets, clocks_on. split_and!; repeat (apply List.Forall_cons || apply List.Forall_nil);
      cbn [map forallb]; usb_bit; done.
Qed.

(** * Ethernet clocks *)

Definition CNNT_EMAC_RMII_PAD_CTRL : Z := 0x44.
Definition CNNT_EMAC_RMII_CTRL : Z := 0x48.
Definition CNNT_EMAC_RX_CTRL : Z := 0x4c.
Definition CNNT_EMAC_TX_CTRL : Z := 0x50.
Definition CNNT_GMAC_CTRL0 : Z := 0x60.
Definition RMII_PAD_CLK_EN : Z := BIT 1.
Definition RMII_PAD_CLK_INV_EN : Z := BIT 2.
Definition RMII_CLK_SEL : Z := BIT 0.
Definition RMII_CLK_EN : Z := BIT 1.
Definition RMII_PAD_OUT_CLK_EN : Z := BIT 2.
Definition RXTX_PAD_CLK_EN : Z := BIT 0.
Definition RXTX_PAD_CLK_INV_EN : Z := BIT 1.
Definition RXTX_CLK_SEL : Z := BIT 2.
Definition RXTX_180_CLK_EN : Z := BIT 3.
Definition GMAC_PHY_INTF_SEL : Z := GENMASK 4 2.
Definition GMAC_PHY_INTF_RGMII : Z := 1.
Record esp32s31_reg_update := Update { u_reg : Z; u_mask : Z; u_val : Z }.
Definition ors (l : list Z) : Z := foldr Z.lor 0 l.
Definition esp32s31_rgmii : list esp32s31_reg_update := [
  Update CNNT_GMAC_CTRL0 GMAC_PHY_INTF_SEL (FIELD_PREP GMAC_PHY_INTF_SEL GMAC_PHY_INTF_RGMII);
  Update CNNT_EMAC_RMII_PAD_CTRL (ors [RMII_PAD_CLK_EN; RMII_PAD_CLK_INV_EN]) 0;
  Update CNNT_EMAC_RMII_CTRL (ors [RMII_CLK_SEL; RMII_CLK_EN; RMII_PAD_OUT_CLK_EN]) RMII_PAD_OUT_CLK_EN;
  Update CNNT_EMAC_RX_CTRL (ors [RXTX_PAD_CLK_EN; RXTX_PAD_CLK_INV_EN; RXTX_CLK_SEL; RXTX_180_CLK_EN])
    (ors [RXTX_PAD_CLK_EN; RXTX_CLK_SEL; RXTX_180_CLK_EN]);
  Update CNNT_EMAC_TX_CTRL (ors [RXTX_PAD_CLK_EN; RXTX_CLK_SEL; RXTX_180_CLK_EN]) RXTX_180_CLK_EN].

Section Dwmac.
Context {R : Type} (regmap_update_bits : R -> Z -> Z -> Z -> Z * R).

Fixpoint dwmac_loop (l : list esp32s31_reg_update) (regmap : R) : Z * R :=
  match l with
  | [] => (0, regmap)
  | u :: l =>
      let '(ret, regmap) := regmap_update_bits regmap (u_reg u) (u_mask u) (u_val u) in
      if nz ret then (ret, regmap) else dwmac_loop l regmap
  end.
Definition esp32s31_dwmac_init (regmap : R) : Z * R := dwmac_loop esp32s31_rgmii regmap.
End Dwmac.

(** regmap_update_bits keeps its word: an update that returns 0 changed the bits
    of its mask alone, and one that fails changed nothing. *)
Record regmap_ok {R} (update : R -> Z -> Z -> Z -> Z * R) (value : R -> Z -> Z) : Prop := {
  update_done r reg mask v : fst (update r reg mask v) = 0 -> forall x i, 0 <= i < 32 ->
    Z.testbit (value (snd (update r reg mask v)) x) i = if (x =? reg) && Z.testbit mask i then Z.testbit v i else Z.testbit (value r x) i;
  update_fails r reg mask v : fst (update r reg mask v) <> 0 -> forall x, value (snd (update r reg mask v)) x = value r x;
}.

(** The value of a bit after the updates of a list, the later ones first. *)
Fixpoint updated (l : list esp32s31_reg_update) (x i : Z) (b : bool) : bool :=
  match l with
  | [] => b
  | u :: l => updated l x i (if (x =? u_reg u) && Z.testbit (u_mask u) i then Z.testbit (u_val u) i else b)
  end.
Lemma dwmac_loop_spec {R} (update : R -> Z -> Z -> Z -> Z * R) value : regmap_ok update value -> forall l r,
  exists k, (k <= length l)%nat /\ (fst (dwmac_loop update l r) = 0 -> k = length l) /\
    forall x i, 0 <= i < 32 -> Z.testbit (value (snd (dwmac_loop update l r)) x) i = updated (firstn k l) x i (Z.testbit (value r x) i).
Proof.
  intros OK. induction l as [|u l IH]; intros r; cbn [dwmac_loop].
  { exists 0%nat. split_and!; [cbn; lia|done|done]. }
  pose proof (update_done _ _ OK r (u_reg u) (u_mask u) (u_val u)) as D. pose proof (update_fails _ _ OK r (u_reg u) (u_mask u) (u_val u)) as F.
  destruct (update r (u_reg u) (u_mask u) (u_val u)) as [ret r']. cbn [fst snd] in D, F. unfold nz. destruct (Z.eqb_spec ret 0) as [->|N]; cbn [negb].
  - destruct (IH r') as (k & Hk & E & B). exists (S k). cbn [length firstn updated]. split_and!; [lia|intros Z0; by rewrite E|].
    intros x i Hi. rewrite B, D by done. done.
  - exists 0%nat. cbn [fst snd length firstn updated]. split_and!; [lia|done|]. intros x i Hi. by rewrite F.
Qed.

(** The clocks of the Ethernet MAC.  When the setup returns 0 the MAC is in RGMII
    mode, receives on the clock of its pad turned by 180 degrees and not inverted, sends on
    the internal clock that is turned too, and the RMII clock is on its pad with its input
    side off; when an update fails its error is returned and only the updates of
    the list before it were done.  No other bit of any register changes. *)
Theorem dwmac_init_correct {R} (update : R -> Z -> Z -> Z -> Z * R) (value : R -> Z -> Z) (r r' : R) (ret : Z)
    (OK : regmap_ok update value) (E : esp32s31_dwmac_init update r = (ret, r')) :
  (exists k, (k <= 5)%nat /\ (ret = 0 -> k = 5%nat) /\
     forall x i, 0 <= i < 32 -> Z.testbit (value r' x) i = updated (firstn k esp32s31_rgmii) x i (Z.testbit (value r x) i)) /\
  (ret = 0 -> let bit reg i := Z.testbit (value r' reg) i in
    map (bit CNNT_GMAC_CTRL0) [2; 3; 4] = [true; false; false] /\
    map (bit CNNT_EMAC_RMII_PAD_CTRL) [1; 2] = [false; false] /\
    map (bit CNNT_EMAC_RMII_CTRL) [0; 1; 2] = [false; false; true] /\
    map (bit CNNT_EMAC_RX_CTRL) [0; 1; 2; 3] = [true; false; true; true] /\
    map (bit CNNT_EMAC_TX_CTRL) [0; 2; 3] = [false; false; true]).
Proof.
  destruct (dwmac_loop_spec update value OK esp32s31_rgmii r) as (k & Hk & K & B). change (dwmac_loop update esp32s31_rgmii r) with (esp32s31_dwmac_init update r) in *.
  rewrite E in *. cbn [fst snd] in *. split; [by exists k|]. intros R0. cbn zeta. rewrite (K R0) in B. cbn [map]. rewrite !B by lia. done.
Qed.
Definition plain_update (m : Z -> Z) (reg mask v : Z) : Z * (Z -> Z) :=
  (0, fun x => if x =? reg then Z.lor (Z.land (m x) (not32 mask)) (Z.land v mask) else m x).
Lemma plain_update_ok : regmap_ok plain_update id.
Proof.
  split; [|done]. intros m reg mask v _ x i Hi. cbn. destruct (Z.eqb_spec x reg) as [->|]; cbn [andb]; [|done].
  rewrite Z.lor_spec, clear_mask, Z.land_spec by done. destruct (Z.testbit mask i); [by rewrite andb_true_r|by rewrite andb_false_r, orb_false_r].
Qed.
Lemma dwmac_init_correct_witness : exists r', Z.testbit (r' CNNT_EMAC_RX_CTRL) 3 = true.
Proof.
  exists (snd (esp32s31_dwmac_init plain_update (fun _ => 0))).
  destruct (dwmac_init_correct plain_update id (fun _ => 0) _ 0 plain_update_ok eq_refl) as [_ H].
  destruct (H eq_refl) as (_ & _ & _ & R & _). exact (f_equal (fun l => nth 3 l false) R).
Defined.
