(* ===== verification/Relay.v ===== *)
(** The Thread relay (tools/thread-relay/thread-relay.c): relay(), accept_client() and
    write_all(), the listener, and main() with its options and its loop.

    What poll(), accept(), read() and write() give in a round of the loop is its
    argument.  The events are what the relay does to the sockets and to the
    device, oldest first.  [None] is a write that still blocks when the given
    results are used up. *)

From S2P Require Import Prelude.

(** What a write of some bytes gives: a count, EINTR, or another error; and what a read gives. *)
Inductive wr := Wrote (n : Z) | WriteIntr | WriteFails.
Inductive rd := Data (b : list Z) | End | ReadIntr | ReadFails.
Inductive rev := Accepted (fd : Z) | Closed (fd : Z) | Tuned (fd : Z) | FromDev (b : list Z) | ToClient (fd : Z) (b : list Z)
  | FromClient (fd : Z) (b : list Z) | ToDev (b : list Z).

(** Whether all of [buf] was written, and the bytes that were. *)
Fixpoint write_all (buf : list Z) (ws : list wr) : option (bool * list Z) :=
  if zlen buf =? 0 then Some (true, [])
  else
    match ws with
    | [] => None
    | WriteIntr :: ws => write_all buf ws
    | WriteFails :: _ => Some (false, [])
    | Wrote n :: ws =>
        if n <=? 0 then Some (false, [])
        else '(ok, out) ← write_all (zdrop n buf) ws; Some (ok, ztake n buf ++ out)
    end.
(** [accepted] is what accept() gives. *)
Definition accept_client (accepted old : option Z) : option Z * list rev :=
  match accepted with
  | None => (old, [])
  | Some fd => (Some fd, Accepted fd :: match old with Some old => [Closed old] | None => [] end ++ [Tuned fd])
  end.

Inductive polled := PollIntr | PollFails | Ready (dev listener client : bool).
Record round := Round { r_poll : polled; r_accept : option Z; r_dev : rd; r_to_client : list wr; r_client : rd; r_to_dev : list wr }.
(** After the device: [None] ends the relay. *)
Definition from_device (r : round) (client : option Z) : option (option (option Z) * list rev) :=
  match r_dev r with
  | End | ReadFails => Some (None, [])
  | ReadIntr => Some (Some client, [])
  | Data b =>
      match client with
      | Some fd =>
          '(ok, out) ← write_all b (r_to_client r);
          Some (if ok : bool then (Some (Some fd), [FromDev b; ToClient fd out]) else (Some None, [FromDev b; ToClient fd out; Closed fd]))
      | None => Some (Some None, [FromDev b])
      end
  end.
Definition from_client (r : round) (fd : Z) : option (option (option Z) * list rev) :=
  match r_client r with
  | End | ReadFails => Some (Some None, [Closed fd])
  | ReadIntr => Some (Some (Some fd), [])
  | Data b =>
      '(ok, out) ← write_all b (r_to_dev r);
      Some (if ok : bool then Some (Some fd) else None, [FromClient fd b; ToDev out])
  end.
(** A round of the loop: the client after it, the events, and whether the relay goes on. *)
Definition relay_round (r : round) (client : option Z) : option (option Z * list rev * bool) :=
  match r_poll r with
  | PollIntr => Some (client, [], true)
  | PollFails => Some (client, [], false)
  | Ready dev listener ev =>
      let '(client1, t1) := if listener then accept_client (r_accept r) client else (client, []) in
      let ev := ev && bool_decide (client1 = client) in
      '(after, t2) ← (if dev then from_device r client1 else Some (Some client1, []));
      match after with
      | None => Some (client1, t1 ++ t2, false)
      | Some client2 =>
          match client2 with
          | Some fd =>
              if ev then
                '(after, t3) ← from_client r fd;
                Some (match after with Some client3 => (client3, t1 ++ t2 ++ t3, true) | None => (client2, t1 ++ t2 ++ t3, false) end)
              else Some (client2, t1 ++ t2, true)
          | None => Some (client2, t1 ++ t2, true)
          end
      end
  end.
Fixpoint relay (rounds : list round) (client : option Z) : option (option Z * list rev * bool) :=
  match rounds with
  | [] => Some (client, [], true)
  | r :: rounds =>
      '(client1, t1, goes) ← relay_round r client;
      if goes : bool then '(client2, t2, goes) ← relay rounds client1; Some (client2, t1 ++ t2, goes)
      else Some (None, t1 ++ match client1 with Some fd => [Closed fd] | None => [] end, false)
  end.

(** * The listener and the program *)

(** [ok] is whether fcntl(), bind() and listen() all succeed on the socket.  The socket that
    listens, and those that were closed. *)
Definition listen_on (fd : Z) (ok : bool) : option Z * list Z := if ok then (Some fd, []) else (None, [fd]).
(** What socket() and the three calls give for IPv6 and for IPv4. *)
Definition open_listener (socket6 : option Z) (ok6 : bool) (socket4 : option Z) (ok4 : bool) : option Z * list Z :=
  let '(fd, closed) := match socket6 with Some fd => listen_on fd ok6 | None => (None, []) end in
  match fd with
  | Some fd => (Some fd, closed)
  | None =>
      match socket4 with
      | None => (None, closed)
      | Some fd => let '(fd, closed4) := listen_on fd ok4 in (fd, closed ++ closed4)
      end
  end.
(** The program: a message about the device with its errno, the device open, the events of the
    relay, the device closed, a pause of a second. *)
Inductive main_ev := LogError (errno : Z) | OpenDev | Relayed (t : list rev) | CloseDev | Pause.
(** What open() of the device gives in a round: an error, or a device and the rounds of its relay. *)
Inductive dev_open := Away (errno : Z) | Opened (rounds : list round).
(** One message for each time the device is away; [err] is the last error. *)
Definition away (err errno : Z) : list main_ev := if errno =? err then [] else [LogError errno].
Fixpoint main_loop (devs : list dev_open) (err : Z) : option (list main_ev) :=
  match devs with
  | [] => Some []
  | Away errno :: devs => t ← main_loop devs errno; Some (away err errno ++ Pause :: t)
  | Opened rounds :: devs =>
      '(_, events, goes) ← relay rounds None;
      if goes : bool then Some [OpenDev; Relayed events]
      else t ← main_loop devs 0; Some (OpenDev :: Relayed events :: CloseDev :: Pause :: t)
  end.
(** The exit code and the sockets closed when there is no listener, else the events. *)
Inductive main_end := Usage | NoListener (closed : list Z) | Runs (lfd : Z) (closed : list Z) (t : list main_ev).
(** [port] is the number after "-p", and [one] whether just the device is left of the arguments. *)
Definition relay_main (port : Z) (one : bool) (socket6 : option Z) (ok6 : bool) (socket4 : option Z) (ok4 : bool) (devs : list dev_open) : option main_end :=
  if negb one || (port <=? 0) || (port >? 65535) then Some Usage
  else
    match open_listener socket6 ok6 socket4 ok4 with
    | (None, closed) => Some (NoListener closed)
    | (Some lfd, closed) => t ← main_loop devs 0; Some (Runs lfd closed t)
    end.

(** What getopt() gives for an argument: the port, the help, or an option that is not known. *)
Inductive relay_opt := PortOpt (port : Z) | HelpOpt | BadOpt.
Definition DEFAULT_PORT : Z := 6638.
(** The port, or the exit code after the usage. *)
Fixpoint parse_options (port : Z) (opts : list relay_opt) : Z + Z :=
  match opts with
  | [] => inl port
  | PortOpt p :: opts => parse_options p opts
  | HelpOpt :: _ => inr 0
  | BadOpt :: _ => inr 2
  end.
(** main() from its arguments; its exit code when it ends. *)
Definition exit_code (e : main_end) : option Z := match e with Usage => Some 2 | NoListener _ => Some 1 | Runs _ _ _ => None end.
Definition main_args (opts : list relay_opt) (one : bool) (socket6 : option Z) (ok6 : bool) (socket4 : option Z) (ok4 : bool)
    (devs : list dev_open) : option (option Z * main_end) :=
  match parse_options DEFAULT_PORT opts with
  | inr code => Some (Some code, Usage)
  | inl port => e ← relay_main port one socket6 ok6 socket4 ok4 devs; Some (exit_code e, e)
  end.

(** * What the events mean *)

(** The sockets that are open, newest first; [None] is a use of one that is not, or
    a leak at an accept. *)
Definition open_step (fds : list Z) (e : rev) : option (list Z) :=
  match e with
  | Accepted fd => if existsb (Z.eqb fd) fds || match fds with _ :: _ :: _ => true | _ => false end then None else Some (fd :: fds)
  | Closed fd => if existsb (Z.eqb fd) fds then Some (List.filter (fun x => negb (x =? fd)) fds) else None
  | Tuned fd | ToClient fd _ | FromClient fd _ => match fds with x :: _ => if x =? fd then Some fds else None | [] => None end
  | FromDev _ | ToDev _ => Some fds
  end.
Fixpoint open_run (fds : list Z) (t : list rev) : option (list Z) :=
  match t with [] => Some fds | e :: t => fds ← open_step fds e; open_run fds t end.
(** The bytes of the device since the client came, and those that were written to it. *)
Definition stream_step (s : list Z * list Z) (e : rev) : list Z * list Z :=
  match e with
  | Accepted _ => ([], [])
  | FromDev b => (fst s ++ b, snd s)
  | ToClient _ b => (fst s, snd s ++ b)
  | _ => s
  end.
Definition streams (s : list Z * list Z) (t : list rev) : list Z * list Z := foldl stream_step s t.
(** The bytes from all clients, and those that were written to the device. *)
Definition up_step (s : list Z * list Z) (e : rev) : list Z * list Z :=
  match e with FromClient _ b => (fst s ++ b, snd s) | ToDev b => (fst s, snd s ++ b) | _ => s end.
Definition up (s : list Z * list Z) (t : list rev) : list Z * list Z := foldl up_step s t.
Definition opt_list (c : option Z) : list Z := match c with Some fd => [fd] | None => [] end.

Lemma write_all_ok ws : forall buf ok out, write_all buf ws = Some (ok, out) -> if ok then out = buf else exists rest, buf = out ++ rest.
Proof.
  induction ws as [|w ws IH]; intros buf ok out; cbn [write_all]; destruct (Z.eqb_spec (zlen buf) 0) as [E|E]; try (intros [= <- <-]; by rewrite (zlen_0_nil buf E)).
  destruct w as [n| |]; [|by apply IH|intros [= <- <-]; by exists buf].
  destruct (n <=? 0); [intros [= <- <-]; by exists buf|]. destruct (write_all (zdrop n buf) ws) as [[ok' out']|] eqn:Ew; [|done]. cbn [mbind option_bind].
  intros [= -> <-]. apply IH in Ew. destruct ok.
  - by rewrite Ew, ztake_zdrop.
  - destruct Ew as [rest Er]. exists rest. by rewrite <- app_assoc, <- Er, ztake_zdrop.
Qed.
(** It ends: as many results as bytes are enough, when none is an interruption and a count is of what is left. *)
Lemma write_all_ends ws : forall buf, zlen buf <= zlen ws -> Forall (fun w => w <> WriteIntr) ws -> write_all buf ws <> None.
Proof.
  induction ws as [|w ws IH]; intros buf L F; cbn [write_all]; destruct (Z.eqb_spec (zlen buf) 0) as [E|E]; try done.
  - rewrite zlen_nil in L. pose proof (zlen_nonneg buf). lia.
  - apply Forall_cons_1 in F as [Hw F]. destruct w as [n| |]; [|done|done]. destruct (Z.leb_spec n 0); [done|].
    specialize (IH (zdrop n buf)). destruct (write_all (zdrop n buf) ws) as [[ok out]|]; [done|]. exfalso. apply IH; [|done|done].
    rewrite zlen_zdrop by lia. rewrite zlen_cons in L. pose proof (zlen_nonneg ws). lia.
Qed.

Lemma open_run_app fds t1 t2 : open_run fds (t1 ++ t2) = fds ← open_run fds t1; open_run fds t2.
Proof. revert fds. induction t1 as [|e t1 IH]; intros fds; [done|]. cbn [app open_run]. destruct (open_step fds e) as [fds'|]; [apply IH|done]. Qed.
Lemma streams_app s t1 t2 : streams s (t1 ++ t2) = streams (streams s t1) t2.
Proof. unfold streams. apply foldl_app. Qed.
Lemma up_app s t1 t2 : up s (t1 ++ t2) = up (up s t1) t2.
Proof. unfold up. apply foldl_app. Qed.

(** What a part of a round keeps: the open sockets are the client, and an open client has
    got all that the device gave; [ok] when all from the clients is at the device. *)
Definition keeps_up (ok : bool) (u : list Z * list Z) : Prop := if ok then fst u = snd u else exists rest, fst u = snd u ++ rest.
Definition part_ok (c c' : option Z) (t : list rev) (ok : bool) : Prop :=
  open_run (opt_list c) t = Some (opt_list c') /\
  (forall s, (c <> None -> fst s = snd s) -> c' <> None -> fst (streams s t) = snd (streams s t)) /\
  (forall u, keeps_up true u -> keeps_up ok (up u t)).
Lemma part_nil c ok : part_ok c c [] ok.
Proof. split; [done|]. split; [auto|]. intros u U. destruct ok; [done|]. exists []. by rewrite app_nil_r. Qed.
Lemma part_app c c1 c2 t1 t2 ok : part_ok c c1 t1 true -> part_ok c1 c2 t2 ok -> part_ok c c2 (t1 ++ t2) ok.
Proof.
  intros (O1 & S1 & U1) (O2 & S2 & U2). split; [|split].
  - by rewrite open_run_app, O1.
  - intros s Hs H2. rewrite streams_app. apply S2; [|done]. intros H1. by apply S1.
  - intros u Hu. rewrite up_app. by apply U2, U1.
Qed.
(** The sockets of a closed trace. *)
Ltac sockets := cbn; repeat (rewrite Z.eqb_refl; cbn); try done.
Lemma accept_ok accepted old : (forall fd, accepted = Some fd -> old <> Some fd) -> part_ok old (fst (accept_client accepted old)) (snd (accept_client accepted old)) true.
Proof.
  intros F. destruct accepted as [fd|]; [|apply part_nil]. cbn [accept_client fst snd]. specialize (F fd eq_refl).
  split; [|split; [intros s _ _; by destruct old|intros u U; by destruct old]].
  destruct old as [old|]; [|sockets]. assert (N : fd <> old) by congruence.
  apply Z.eqb_neq in N as N1. assert ((old =? fd) = false) as N2 by (apply Z.eqb_neq; congruence).
  cbn. rewrite N1. cbn. rewrite ?N2, ?Z.eqb_refl. cbn. rewrite ?Z.eqb_refl, ?N1, ?N2. cbn. rewrite ?Z.eqb_refl, ?N1, ?N2. cbn. rewrite ?Z.eqb_refl, ?N1, ?N2. cbn. by rewrite ?Z.eqb_refl, ?N1, ?N2.
Qed.
Lemma from_device_ok r c after t : from_device r c = Some (after, t) -> part_ok c (default c after) t true.
Proof.
  unfold from_device. destruct (r_dev r) as [b| | |]; try (intros [= <- <-]; apply part_nil).
  destruct c as [fd|].
  - destruct (write_all b (r_to_client r)) as [[ok out]|] eqn:W; [|done]. cbn [mbind option_bind]. apply write_all_ok in W.
    destruct ok; intros [= <- <-]; cbn [default].
    + subst out. split; [sockets|]. split; [|done]. intros s Hs _. cbn. by rewrite Hs.
    + split; [sockets|]. split; [|done]. by intros s Hs [].
  - intros [= <- <-]. split; [done|]. split; [|done]. by intros s Hs [].
Qed.
Lemma from_client_ok r fd after t : from_client r fd = Some (after, t) ->
  part_ok (Some fd) (default (Some fd) after) t (match after with Some _ => true | None => false end).
Proof.
  unfold from_client. destruct (r_client r) as [b| | |].
  2, 4: intros [= <- <-]; cbn [default]; split; [sockets|]; split; [by intros s Hs []|done].
  2: intros [= <- <-]; apply part_nil.
  destruct (write_all b (r_to_dev r)) as [[ok out]|] eqn:W; [|done]. cbn [mbind option_bind]. apply write_all_ok in W.
  intros [= <- <-]. destruct ok; cbn [default]; (split; [sockets|]; split; [intros s Hs _; cbn; by apply Hs|]); intros u U; unfold keeps_up in *; cbn.
  - by rewrite U, W.
  - destruct W as [rest ->]. exists rest. by rewrite U, app_assoc.
Qed.
Lemma round_ok r c c' t goes : relay_round r c = Some (c', t, goes) -> (forall fd, r_accept r = Some fd -> c <> Some fd) -> part_ok c c' t goes.
Proof.
  intros E F. unfold relay_round in E. destruct (r_poll r) as [| |dev listener ev]; [injection E as <- <- <-; apply part_nil..|].
  pose proof (accept_ok (r_accept r) c F) as A.
  destruct (if listener then accept_client (r_accept r) c else (c, [])) as [c1 t1] eqn:E1.
  assert (P1 : part_ok c c1 t1 true).
  { destruct listener; [|injection E1 as <- <-; apply part_nil]. by rewrite E1 in A. }
  destruct (if dev then from_device r c1 else Some (Some c1, [])) as [[after t2]|] eqn:E2; [|done]. cbn [mbind option_bind] in E.
  assert (P2 : part_ok c1 (default c1 after) t2 true).
  { destruct dev; [by apply (from_device_ok r)|]. injection E2 as <- <-. apply part_nil. }
  pose proof (part_app _ _ _ _ _ _ P1 P2) as P. assert (W : forall c c' t, part_ok c c' t true -> part_ok c c' t goes).
  { intros ? ? ? (O & S & U). split; [done|]. split; [done|]. intros u H. specialize (U u H). destruct goes; [done|]. exists []. by rewrite app_nil_r. }
  destruct after as [c2|]; cbn [default] in P; [|injection E as <- <- <-; by apply W].
  destruct c2 as [fd|]; [|injection E as <- <- <-; by apply W].
  destruct (ev && _); [|injection E as <- <- <-; by apply W].
  destruct (from_client r fd) as [[after t3]|] eqn:E3; [|done]. cbn [mbind option_bind] in E. apply from_client_ok in E3.
  destruct after as [c3|]; cbn [default] in E3; injection E as <- <- <-; rewrite app_assoc; by apply (part_app c (Some fd)).
Qed.

(** The fd that accept() gives is not that of the client, which is still open. *)
Fixpoint fresh (rounds : list round) (c : option Z) : Prop :=
  match rounds with
  | [] => True
  | r :: rounds => (forall fd, r_accept r = Some fd -> c <> Some fd) /\ forall c' t goes, relay_round r c = Some (c', t, goes) -> fresh rounds c'
  end.
(** C40: the relay, however many clients come and go.  A socket is used only while it is the
    client, and each is closed exactly once, also when the device ends the relay.  A client
    that is open has got, in order and whole, what the device gave since it came.  What the
    clients sent is at the device in order and whole, except for the end of the last piece when a write to
    the device fails, which ends the relay. *)
Theorem relay_correct (rounds : list round) (c : option Z) (t : list rev) (goes : bool)
    (H : relay rounds None = Some (c, t, goes)) (F : fresh rounds None) :
  open_run [] t = Some (opt_list c) /\ (goes = false -> c = None) /\
  (c <> None -> fst (streams ([], []) t) = snd (streams ([], []) t)) /\
  exists rest, fst (up ([], []) t) = snd (up ([], []) t) ++ rest /\ (goes = true -> rest = []).
Proof.
  assert (G : forall c0, fresh rounds c0 -> relay rounds c0 = Some (c, t, goes) -> part_ok c0 c t goes /\ (goes = false -> c = None)).
  { clear H F. revert t. induction rounds as [|r rounds IH]; intros t c0 F E; cbn [relay] in E; [injection E as <- <- <-; split; [apply part_nil|done]|].
    destruct F as [F1 F2]. destruct (relay_round r c0) as [[[c1 t1] goes1]|] eqn:E1; [|done]. cbn [mbind option_bind] in E.
    pose proof (round_ok r c0 c1 t1 goes1 E1 F1) as P1. destruct goes1.
    - destruct (relay rounds c1) as [[[c2 t2] goes2]|] eqn:E2; [|done]. cbn [mbind option_bind] in E. injection E as -> <- ->.
      destruct (IH t2 c1 (F2 _ _ _ eq_refl) E2) as [P2 Q]. split; [by apply (part_app c0 c1)|done].
    - injection E as <- <- <-. split; [|done]. destruct P1 as (O & S & U). split; [|split].
      + rewrite open_run_app, O. cbn [mbind option_bind]. destruct c1 as [fd|]; sockets.
      + by intros s _ [].
      + intros u Hu. rewrite up_app. destruct c1; by apply U. }
  destruct (G None F H) as [(O & S & U) Q]. split; [done|]. split; [done|]. split; [by apply S|].
  specialize (U ([], []) eq_refl). destruct goes; unfold keeps_up in U.
  - exists []. rewrite app_nil_r. by split.
  - destruct U as [rest E]. by exists rest.
Qed.
(** A new client is not read for the events of the old one. *)
Lemma relay_no_stale r fd old c t goes : relay_round r (Some old) = Some (c, t, goes) -> (exists dev ev, r_poll r = Ready dev true ev) ->
  r_accept r = Some fd -> fd <> old -> forall b, ~ In (FromClient fd b) t.
Proof.
  intros E (dev & ev & P) A N b I. unfold relay_round in E. rewrite P, A in E. cbn [accept_client] in E.
  rewrite bool_decide_false in E by congruence. rewrite andb_false_r in E.
  destruct (if dev then from_device r (Some fd) else Some (Some (Some fd), [])) as [[after t2]|] eqn:E2; [|done]. cbn [mbind option_bind] in E.
  assert (forall e, In e t2 -> forall x y, e <> FromClient x y) as T2.
  { destruct dev; [|by injection E2 as <- <-]. unfold from_device in E2. destruct (r_dev r) as [d| | |]; try by injection E2 as <- <-.
    destruct (write_all d (r_to_client r)) as [[[] out]|]; [| |done]; cbn [mbind option_bind] in E2; injection E2 as <- <-; intros e Ie; repeat destruct Ie as [<-|Ie]; done. }
  assert (t = [Accepted fd; Closed old; Tuned fd] ++ t2) as -> by (destruct after as [[|]|]; by injection E as <- <- <-).
  repeat destruct I as [I|I]; try done. by apply (T2 _ I fd b).
Qed.
Lemma relay_correct_witness :
  let rounds := [Round (Ready false true false) (Some 5) End [] End [];
                 Round (Ready true false true) None (Data [1; 2; 3]) [Wrote 2; WriteIntr; Wrote 1] (Data [9; 8]) [Wrote 2];
                 Round (Ready true true true) (Some 6) (Data [4]) [Wrote 1] End [];
                 Round (Ready true false false) None End [] End []] in
  exists t, relay rounds None = Some (None, t, false) /\ open_run [] t = Some [].
Proof.
  cbn zeta. match goal with |- exists t, relay ?r _ = _ /\ _ => set (rounds := r) end.
  destruct (relay rounds None) as [[[c t] goes]|] eqn:E; [|vm_compute in E; discriminate].
  assert (c = None /\ goes = false) as [-> ->] by (vm_compute in E; injection E as <- <- <-; done).
  exists t. split; [done|]. apply (relay_correct rounds None t false E).
  clear. repeat (split; [intros fd; vm_compute; congruence|intros c t goes R; vm_compute in R; injection R as <- <- <-]). exact I.
Defined.

(** Every socket that was made is the listener or closed, once; the listener is the one of IPv6 when that works. *)
Lemma open_listener_correct (socket6 : option Z) (ok6 : bool) (socket4 : option Z) (ok4 : bool) :
  let '(fd, closed) := open_listener socket6 ok6 socket4 ok4 in
  let v6 := match socket6 with Some _ => ok6 | None => false end in
  fd = (if v6 then socket6 else if ok4 then socket4 else None) /\
  opt_list socket6 ++ (if v6 then [] else opt_list socket4) = closed ++ opt_list fd.
Proof. by destruct socket6, ok6, socket4, ok4. Qed.
(** The messages: none twice in a row for a device that stays away with one error. *)
Fixpoint messages_ok (err : Z) (t : list main_ev) : Prop :=
  match t with
  | [] => True
  | LogError e :: t => e <> err /\ messages_ok e t
  | OpenDev :: t => messages_ok 0 t
  | _ :: t => messages_ok err t
  end.
(** The device is closed each time its relay ends, before it is opened again. *)
Fixpoint devices_ok (open : bool) (t : list main_ev) : bool :=
  match t with
  | [] => true
  | OpenDev :: t => negb open && devices_ok true t
  | Relayed _ :: t => open && devices_ok open t
  | CloseDev :: t => open && devices_ok false t
  | _ :: t => negb open && devices_ok open t
  end.
Lemma main_loop_correct devs : forall err t, main_loop devs err = Some t -> messages_ok err t /\ devices_ok false t = true.
Proof.
  induction devs as [|[errno|rounds] devs IH]; intros err t; cbn [main_loop]; [by intros [= <-]| |].
  - destruct (main_loop devs errno) as [t'|] eqn:E; [|done]. cbn [mbind option_bind]. intros [= <-]. destruct (IH errno t' E) as [M D].
    unfold away. destruct (Z.eqb_spec errno err) as [->|N]; [by split|]. by split; [split|].
  - destruct (relay rounds None) as [[[c ev] goes]|]; [|done]. cbn [mbind option_bind]. destruct goes; [by intros [= <-]|].
    destruct (main_loop devs 0) as [t'|] eqn:E; [|done]. cbn [mbind option_bind]. intros [= <-]. destruct (IH 0 t' E) as [M D]. by split.
Qed.

(** * The arguments *)

(** The port of the options: the last one. *)
Definition last_port (opts : list relay_opt) : Z := List.fold_left (fun p o => match o with PortOpt p => p | _ => p end) opts DEFAULT_PORT.
Lemma parse_options_ports opts : forall port,
  parse_options port opts =
  match List.find (fun o => match o with PortOpt _ => false | _ => true end) opts with
  | Some HelpOpt => inr 0
  | Some _ => inr 2
  | None => inl (List.fold_left (fun p o => match o with PortOpt p => p | _ => p end) opts port)
  end.
Proof. induction opts as [|[p| |] opts IH]; intros port; [done|apply IH|done..]. Qed.
(** The program has the exit code 0 just for a help that comes before any unknown option; it gets to its sockets
    just with known options, one device and a port of 1 to 65535, the last one given or 6638. *)
Lemma main_args_correct opts one socket6 ok6 socket4 ok4 devs code e :
  main_args opts one socket6 ok6 socket4 ok4 devs = Some (code, e) ->
  (code = Some 0 <-> List.find (fun o => match o with PortOpt _ => false | _ => true end) opts = Some HelpOpt) /\
  (e <> Usage <-> List.find (fun o => match o with PortOpt _ => false | _ => true end) opts = None /\
     one = true /\ 1 <= last_port opts <= 65535) /\
  (code = Some 1 -> exists closed, e = NoListener closed /\ open_listener socket6 ok6 socket4 ok4 = (None, closed)).
Proof.
  unfold main_args. rewrite parse_options_ports. fold (last_port opts).
  destruct (List.find _ opts) as [[p| |]|] eqn:F.
  - apply List.find_some in F as [_ F]. done.
  - intros [= <- <-]. split; [done|]. split; [|done]. split; [done|by intros [[=] _]].
  - intros [= <- <-]. split; [done|]. split; [|done]. split; [done|by intros [[=] _]].
  - unfold relay_main. cbn [mbind option_bind].
    destruct one; cbn [negb orb]; [|intros [= <- <-]; split; [done|]; split; [|done]; split; [done|by intros (_ & [=] & _)]].
    destruct (Z.leb_spec (last_port opts) 0), (Z.gtb_spec (last_port opts) 65535); cbn [orb];
      try (intros [= <- <-]; split; [done|]; split; [|done]; split; [done|lia]).
    destruct (open_listener _ _ _ _) as [[lfd|] closed] eqn:O; cbn.
    + destruct (main_loop devs 0) as [t|]; [|done]. intros [= <- <-]. split; [done|]. split; [|done]. split; [intros _; split_and!; [done..|lia|lia]|done].
    + intros [= <- <-]. split; [done|]. split; [split; [intros _; split_and!; [done..|lia|lia]|done]|]. intros _. by eexists.
Qed.
