(* ===== verification/Sockets.v ===== *)
(** The sockets and files of the daemons: the HCI user channel of ble-ha
    (tools/ble-ha/hci-linux.c), its listener and the options of its clients (ble-ha.c), the
    device and the options of the client of thread-relay (thread-relay.c, sockopt-linux.c).

    What a system call gives is an argument: a descriptor, or an errno.  The calls that
    matter are events, oldest first. *)

From S2P Require Import Prelude BleState.

(** * The calls *)

Inductive sockopt := V6ONLY | REUSEADDR | KEEPALIVE | NODELAY | KEEPIDLE | KEEPINTVL | KEEPCNT | USER_TIMEOUT.
#[export] Instance sockopt_eq_dec : EqDecision sockopt.
Proof. solve_decision. Defined.
Inductive sock_ev :=
  | Opened (fd : Z) | ClosedFd (fd : Z) | SetOpt (fd : Z) (o : sockopt) (v : Z) | Nonblock (fd : Z)
  | DevDown (fd dev : Z) | BindUser (fd dev : Z) | BindPort (fd port : Z) | Listen (fd n : Z) | MakeRaw (fd : Z).

(** * ble-ha *)

Definition API_PORT : Z := 6053.
(** [socket] is its descriptor or errno, [bind_err] 0 or the errno of bind().  The second result is errno after a
    failure, which close() does not change. *)
Definition hci_open_user (dev : Z) (socket : Z + Z) (bind_err : Z) : Z * Z * list sock_ev :=
  match socket with
  | inr e => (-1, e, [])
  | inl fd =>
      let evs := [Opened fd; DevDown fd dev; BindUser fd (u16 dev)] in
      if bind_err =? 0 then (fd, 0, evs) else (-1, bind_err, evs ++ [ClosedFd fd])
  end.
(** [fcntl_err], [bind_err] and [listen_err] are 0 or errors; a call after an error is not made. *)
Definition api_listener (socket : Z + Z) (fcntl_err bind_err listen_err : Z) : Z * list sock_ev :=
  match socket with
  | inr _ => (-1, [])
  | inl fd =>
      let evs := [Opened fd; SetOpt fd V6ONLY 0; SetOpt fd REUSEADDR 1; Nonblock fd] in
      let calls := if nz fcntl_err then [] else BindPort fd API_PORT :: if nz bind_err then [] else [Listen fd MAX_CLIENTS] in
      if nz fcntl_err || nz bind_err || nz listen_err then (-1, evs ++ calls ++ [ClosedFd fd]) else (fd, evs ++ calls)
  end.
Definition api_tune_client (fd : Z) : list sock_ev :=
  [Nonblock fd; SetOpt fd KEEPALIVE 1; SetOpt fd KEEPIDLE 20; SetOpt fd KEEPINTVL 5; SetOpt fd KEEPCNT 4; SetOpt fd USER_TIMEOUT 30000].

(** What poll() and read() give. *)
Definition hci_read (poll read : Z) : Z := if poll =? 1 then read else 0.
(** The descriptor or the errno of open(), and whether the write is good; the second result is whether an error is logged. *)
Definition write_file (fd : Z + Z) (write_ok : bool) : list sock_ev * bool :=
  match fd with
  | inr _ => ([], false)
  | inl fd => ([Opened fd; ClosedFd fd], negb write_ok)
  end.

(** * thread-relay *)

(** [tty] is whether the device has the attributes of a terminal. *)
Definition open_device (fd : Z + Z) (tty : bool) : Z * list sock_ev :=
  match fd with
  | inr _ => (-1, [])
  | inl fd => (fd, Opened fd :: if tty then [MakeRaw fd] else [])
  end.
Definition relay_dead_peer_timeout (fd : Z) : list sock_ev :=
  [SetOpt fd KEEPIDLE 5; SetOpt fd KEEPINTVL 2; SetOpt fd KEEPCNT 3; SetOpt fd USER_TIMEOUT 10000].
Definition relay_tune_client (fd : Z) : list sock_ev :=
  [SetOpt fd NODELAY 1; SetOpt fd KEEPALIVE 1] ++ relay_dead_peer_timeout fd.

(** * What they promise *)

(** The descriptors that are open after some events. *)
Definition open_fds (evs : list sock_ev) : list Z :=
  fold_left (fun l e => match e with Opened fd => fd :: l | ClosedFd fd => List.filter (fun x => negb (x =? fd)) l | _ => l end) evs [].
(** The last value of an option. *)
Definition option_of (fd : Z) (o : sockopt) (evs : list sock_ev) : option Z :=
  fold_left (fun v e => match e with SetOpt f x y => if (f =? fd) && bool_decide (x = o) then Some y else v | _ => v end) evs None.
(** The seconds after which TCP closes a silent peer: the idle time and the probes that have no answer; with data
    that waits for an ACK, the user timeout. *)
Definition dead_after (fd : Z) (evs : list sock_ev) : option (Z * Z) :=
  match option_of fd KEEPALIVE evs, option_of fd KEEPIDLE evs, option_of fd KEEPINTVL evs, option_of fd KEEPCNT evs, option_of fd USER_TIMEOUT evs with
  | Some 1, Some idle, Some intvl, Some cnt, Some ms => Some (idle + intvl * cnt, ms / 1000)
  | _, _, _, _, _ => None
  end.
(** No descriptor is lost: one is open afterwards just when it is the result. *)
Lemma open_correct dev socket e1 e2 e3 tty ok : (forall fd, socket = inl fd -> 0 <= fd) ->
  (let '(fd, errno, evs) := hci_open_user dev socket e1 in
   open_fds evs = (if fd <? 0 then [] else [fd]) /\ (fd < 0 -> errno = match socket with inr e => e | inl _ => e1 end)) /\
  (let '(fd, evs) := api_listener socket e1 e2 e3 in open_fds evs = (if fd <? 0 then [] else [fd])) /\
  (let '(fd, evs) := open_device socket tty in open_fds evs = (if fd <? 0 then [] else [fd])) /\
  open_fds (fst (write_file socket ok)) = [].
Proof.
  intros H. destruct socket as [fd|e]; cbn; [|by split_and!]. specialize (H fd eq_refl). apply Z.ltb_ge in H as L. unfold nz.
  assert (N : forall k, negb (k =? k) = false) by (intros k; by rewrite Z.eqb_refl).
  split_and!; [destruct (e1 =? 0); cbn; rewrite ?L, ?N; split; done || lia| |destruct tty; cbn; by rewrite L|by rewrite N].
  destruct (e1 =? 0), (e2 =? 0), (e3 =? 0); cbn; by rewrite ?L, ?N.
Qed.
(** The user channel is bound to the device that was asked for, after the device was taken down. *)
Lemma hci_user_channel dev socket : 0 <= dev < 65536 ->
  let '(fd, _, evs) := hci_open_user dev socket 0 in 0 <= fd -> evs = [Opened fd; DevDown fd dev; BindUser fd dev].
Proof.
  intros H. destruct socket as [fd|e]; cbn; [|lia]. intros _. unfold u16. by rewrite Z.mod_small.
Qed.
(** A client of ble-ha that is gone goes within a minute, one of thread-relay within eleven seconds. *)
Lemma dead_peers fd : dead_after fd (api_tune_client fd) = Some (40, 30) /\ dead_after fd (relay_tune_client fd) = Some (11, 10).
Proof.
  unfold dead_after, option_of, api_tune_client, relay_tune_client, relay_dead_peer_timeout. cbn [app fold_left].
  by rewrite Z.eqb_refl.
Qed.
