(* ===== verification/PinLive.v ===== *)
(** The board of the pinctrl tool from the running system (tools/pinctrl/live.c):
    the device tree and the GPIO character device.

    [file] gives what open() and one read() of a file give, or no text when one fails; [dir] the names of
    the entries of a directory that opens.  [line_flags] is what the GPIO ioctl gives for
    a line, and [open_chip] 0 or the error of open(). *)

From Stdlib Require Import Ascii String.
From S2P Require Import Prelude Device PinRegs Pinctrl PinTool PinText PinSnap PinCmd.

Open Scope Z_scope.

Definition is_nul (c : ascii) : bool := code c =? 0.
(** The C string at the start of some bytes, with a NUL after them. *)
Definition c_string (s : string) : string := fst (before is_nul s).
Definition GPIO_V2_LINE_FLAG_USED : Z := 1.
Definition PINCTRL_COMPAT : string := "esp,esp32s31-pinctrl".

(** * gpio-line-names *)

Fixpoint names_loop (b : board) (gpios : list Z) (rest : string) : board :=
  match gpios, rest with
  | [], _ | _, EmptyString => b
  | gpio :: gpios, _ =>
      let '(p, rest) := before is_nul rest in
      names_loop (set_name b gpio (cut p NAME_LEN)) gpios (tail1 rest)
  end.

(** * gpio-reserved-ranges *)

(** A cell of four bytes, big-endian. *)
Definition be32 (b0 b1 b2 b3 : ascii) : Z :=
  u32 (Z.lor (Z.lor (Z.lor (Z.shiftl (code b0) 24) (Z.shiftl (code b1) 16)) (Z.shiftl (code b2) 8)) (code b3)).
(** A GPIO in each round: [NPINS] rounds are enough. *)
Fixpoint range_loop (fuel : nat) (first count bits : Z) : Z :=
  match fuel with
  | O => bits
  | S fuel =>
      if (count =? 0) || (first >=? NPINS) then bits
      else range_loop fuel (u32 (first + 1)) (u32 (count - 1)) (Z.lor bits (u64 (Z.shiftl 1 first)))
  end.
Fixpoint reserved_loop (s : string) (bits : Z) : Z :=
  match s with
  | String a (String b (String c (String d (String e (String f (String g (String h s))))))) =>
      reserved_loop s (range_loop (Z.to_nat NPINS) (be32 a b c d) (be32 e f g h) bits)
  | _ => bits
  end.

(** * The lines in use *)

Fixpoint used_loop (line_flags : Z -> option Z) (gpios : list Z) (bits : Z) : Z :=
  match gpios with
  | [] => bits
  | gpio :: gpios =>
      used_loop line_flags gpios
        (match line_flags gpio with
         | Some flags => if nz (Z.land flags GPIO_V2_LINE_FLAG_USED) then Z.lor bits (u64 (Z.shiftl 1 gpio)) else bits
         | None => bits
         end)
  end.
Definition with_reserved (b : board) (bits : Z) : board := Board (compatible b) (model b) (names b) bits (used b) (have_lines b) (hdr_of b).
Definition with_used (b : board) (bits : Z) : board := Board (compatible b) (model b) (names b) (reserved b) bits (have_lines b) (hdr_of b).

(** * The files *)

Section live.
Context (file : string -> option string) (dir : string -> option (list string)).
Context (open_chip : string -> Z) (line_flags : string -> Z -> option Z).
Definition read_file (path : string) (len : Z) : option string := s ← file path; Some (cut s len).
Definition read_names (b : board) (node : string) : board :=
  match read_file (cut (node ++ "/gpio-line-names") 256) 4096 with
  | Some s => names_loop b (seqZ 0 NPINS) s
  | None => b
  end.
Definition read_reserved (b : board) (node : string) : board :=
  match read_file (cut (node ++ "/gpio-reserved-ranges") 256) 256 with
  | Some s => with_reserved b (reserved_loop s (reserved b))
  | None => b
  end.
Definition read_used (b : board) (chip : string) : Z * board :=
  let path := cut ("/dev/" ++ substring 0 64 chip) 80 in
  if nz (open_chip path) then (- open_chip path, b)
  else (0, with_used b (used_loop (line_flags path) (seqZ 0 NPINS) (used b))).
Fixpoint chip_loop (entries : list string) (len : Z) : option string :=
  match entries with
  | [] => None
  | e :: entries =>
      match read_file (cut ("/sys/bus/gpio/devices/" ++ e ++ "/of_node/compatible") 300) 128 with
      | Some compat =>
          if (0 <? slen compat) && String.eqb (c_string compat) PINCTRL_COMPAT then Some (cut e len) else chip_loop entries len
      | None => chip_loop entries len
      end
  end.
Definition find_chip (len : Z) : option string :=
  match dir "/sys/bus/gpio/devices" with Some entries => chip_loop entries len | None => None end.
Definition live_board (b : board) : Z * board :=
  let compat := match read_file "/proc/device-tree/compatible" 64 with Some s => c_string s | None => compatible b end in
  let mod_ := match read_file "/proc/device-tree/model" 96 with Some s => c_string s | None => model b end in
  let b := Board compat mod_ (names b) (reserved b) (used b) (have_lines b) (board_header compat) in
  match find_chip 64 with
  | None => (- ENOENT, b)
  | Some chip =>
      let node := cut ("/sys/bus/gpio/devices/" ++ chip ++ "/of_node") 128 in
      let b := read_names b node in
      let b := read_reserved b node in
      let '(ret, b) := read_used b chip in
      if nz ret then (ret, b)
      else (0, Board (compatible b) (model b) (names b) (reserved b) (used b) true (hdr_of b))
  end.
End live.

(** live_open(): the result, from the errors of open() and of the two mmap()s, both of which are tried. *)
Definition live_open (open_errno iomux_errno gpio_errno : Z) : Z :=
  if nz open_errno then - open_errno
  else if nz iomux_errno || nz gpio_errno then - (if nz gpio_errno then gpio_errno else iomux_errno)
  else 0.

(** * What the files hold *)

Definition nul : string := String "000" EmptyString.
(** Strings with a NUL after each: a device tree property of strings. *)
Fixpoint dt_strings (l : list string) : string := match l with [] => EmptyString | s :: l => (s ++ nul ++ dt_strings l)%string end.
(** A cell, and pairs of cells. *)
Definition dt_cell (v : Z) (rest : string) : string :=
  String (chr (v / 16777216 mod 256)) (String (chr (v / 65536 mod 256)) (String (chr (v / 256 mod 256)) (String (chr (v mod 256)) rest))).
Fixpoint dt_ranges (l : list (Z * Z)) : string := match l with [] => EmptyString | (first, count) :: l => dt_cell first (dt_cell count (dt_ranges l)) end.
Definition cell (v : Z) : Prop := 0 <= v < 4294967296.
(** A GPIO is in one of the ranges. *)
Definition in_ranges (l : list (Z * Z)) (gpio : Z) : bool := existsb (fun r => (fst r <=? gpio) && (gpio <? fst r + snd r)) l.
Definition line_used (flags : option Z) : bool := match flags with Some f => nz (Z.land f GPIO_V2_LINE_FLAG_USED) | None => false end.
Definition no_nul_chars (s : string) : bool := all_chars (fun c => negb (is_nul c)) s.

(** * Proofs *)

Lemma code_chr n : 0 <= n < 256 -> code (chr n) = n.
Proof.
  intros H. unfold code, chr. rewrite Ascii.N_ascii_embedding by lia. lia.
Qed.
Lemma names_loop_ok l : forall n start b g, Forall (fun s => no_nul_chars s = true) l ->
  let b' := names_loop b (seqZ start (Z.of_nat n)) (dt_strings l) in
  names b' g = (if (start <=? g) && (g <? start + Z.of_nat n) then match l !! Z.to_nat (g - start) with Some s => cut s NAME_LEN | None => names b g end else names b g) /\
  compatible b' = compatible b /\ model b' = model b /\ reserved b' = reserved b /\ used b' = used b /\ have_lines b' = have_lines b /\ hdr_of b' = hdr_of b.
Proof.
  induction l as [|s l IH]; intros n start b g F; cbn [dt_strings].
  { assert (names_loop b (seqZ start (Z.of_nat n)) EmptyString = b) as -> by (by destruct (seqZ start (Z.of_nat n))).
    split; [|done]. rewrite lookup_nil. by destruct (_ && _). }
  destruct n as [|n]; [rewrite seqZ_nil by lia; cbn [names_loop]; split; [|done]; destruct (Z.leb_spec start g), (Z.ltb_spec g (start + Z.of_nat 0)); try lia; done|].
  apply Forall_cons_1 in F as [Fs F]. rewrite seqZ_cons by lia. replace (Z.pred (Z.of_nat (S n))) with (Z.of_nat n) by lia.
  assert (names_loop b (start :: seqZ (Z.succ start) (Z.of_nat n)) (s ++ nul ++ dt_strings l) =
    names_loop (set_name b start (cut s NAME_LEN)) (seqZ (Z.succ start) (Z.of_nat n)) (dt_strings l)) as ->.
  { cbn [names_loop]. destruct (s ++ nul ++ dt_strings l)%string eqn:E; [by destruct s|]. rewrite <- E.
    rewrite before_all; [done|exact Fs|]. by intros c q [= <- _]. }
  destruct (IH n (Z.succ start) (set_name b start (cut s NAME_LEN)) g F) as (N & R). split; [|exact R].
  rewrite N. cbn [names set_name]. destruct (Z.leb_spec (Z.succ start) g), (Z.leb_spec start g), (Z.ltb_spec g (Z.succ start + Z.of_nat n)), (Z.ltb_spec g (start + Z.of_nat (S n))), (Z.eqb_spec g start); try lia; try done; cbn [andb].
  - replace (Z.to_nat (g - start)) with (S (Z.to_nat (g - Z.succ start))) by lia. done.
  - subst g. by rewrite Z.sub_diag.
Qed.
Lemma shl1_testbit k g : 0 <= k < 64 -> 0 <= g < 64 -> Z.testbit (u64 (Z.shiftl 1 k)) g = (g =? k).
Proof. intros Hk Hg. rewrite u64_testbit by done. apply (BIT_testbit k g); lia. Qed.
Lemma range_loop_ok fuel : forall first count bits g, cell first -> cell count -> NPINS <= first + Z.of_nat fuel -> 0 <= g < NPINS ->
  Z.testbit (range_loop fuel first count bits) g = Z.testbit bits g || ((first <=? g) && (g <? first + count)).
Proof.
  unfold cell, NPINS. induction fuel as [|fuel IH]; intros first count bits g Hf Hc L Hg; cbn [range_loop].
  { destruct (Z.leb_spec first g); [lia|]. by rewrite orb_false_r. }
  destruct (Z.eqb_spec count 0) as [->|N]; cbn [orb].
  { destruct (Z.leb_spec first g), (Z.ltb_spec g (first + 0)); try lia; by rewrite orb_false_r. }
  unfold NPINS. destruct (Z.geb_spec first 62); [destruct (Z.leb_spec first g); [lia|]; by rewrite orb_false_r|].
  rewrite !u32_small by lia. rewrite IH by lia. rewrite Z.lor_spec, shl1_testbit by lia. rewrite <- orb_assoc. f_equal.
  destruct (Z.eqb_spec g first), (Z.leb_spec (first + 1) g), (Z.ltb_spec g (first + 1 + (count - 1))), (Z.leb_spec first g), (Z.ltb_spec g (first + count)); try lia; done.
Qed.
Lemma be32_cell v rest : cell v -> exists a b c d, dt_cell v rest = String a (String b (String c (String d rest))) /\ be32 a b c d = v.
Proof.
  unfold cell. intros H. do 4 eexists. split; [reflexivity|]. unfold be32. rewrite !code_chr by (apply Z.mod_pos_bound; lia).
  assert (forall x y z w, Z.lor (Z.lor (Z.lor x y) z) w = Z.lor (Z.lor (Z.lor w z) y) x) as ->.
  { intros. apply Z.bits_inj. intros i. rewrite !Z.lor_spec. by destruct (Z.testbit x i), (Z.testbit y i), (Z.testbit z i), (Z.testbit w i). }
  rewrite (lor_add (v mod 256) _ 8 256), (lor_add _ _ 16 65536), (lor_add _ _ 24 16777216) by zlia.
  rewrite u32_small; zlia.
Qed.
Lemma reserved_loop_ok l : forall bits g, Forall (fun r => cell (fst r) /\ cell (snd r)) l -> 0 <= g < NPINS ->
  Z.testbit (reserved_loop (dt_ranges l) bits) g = Z.testbit bits g || in_ranges l g.
Proof.
  induction l as [|[first count] l IH]; intros bits g F Hg; [by rewrite orb_false_r|]. apply Forall_cons_1 in F as [[H1 H2] F].
  cbn [dt_ranges fst snd] in *. destruct (be32_cell count (dt_ranges l) H2) as (e & f & h & i & -> & E2).
  match goal with |- context [dt_cell first ?r] => destruct (be32_cell first r H1) as (a & b & c & d & -> & E1) end.
  cbn [reserved_loop]. rewrite E1, E2, IH by done. rewrite range_loop_ok; [|done|done|unfold cell, NPINS in *; lia|done].
  by rewrite <- orb_assoc.
Qed.
Lemma used_loop_ok flags gpios : forall bits g, Forall (fun x => 0 <= x < NPINS) gpios -> 0 <= g < NPINS ->
  Z.testbit (used_loop flags gpios bits) g = Z.testbit bits g || (existsb (Z.eqb g) gpios && line_used (flags g)).
Proof.
  unfold NPINS. induction gpios as [|x gpios IH]; intros bits g F Hg; [by rewrite orb_false_r|]. apply Forall_cons_1 in F as [Hx F].
  cbn [used_loop existsb]. rewrite IH by done.
  replace (match flags x with Some f => _ | None => bits end) with (if line_used (flags x) then Z.lor bits (u64 (Z.shiftl 1 x)) else bits) by (unfold line_used; by destruct (flags x)).
  destruct (Z.eqb_spec g x) as [->|N]; cbn [orb andb].
  - destruct (line_used (flags x)); [|by rewrite andb_false_r].
    rewrite Z.lor_spec, shl1_testbit, Z.eqb_refl by lia. by rewrite !orb_true_r.
  - f_equal. destruct (line_used (flags x)); [|done]. rewrite Z.lor_spec, shl1_testbit by lia.
    apply Z.eqb_neq in N. by rewrite N, orb_false_r.
Qed.

Section live.
Context (sig_in_names sig_out_names : Z -> option string).
Context (file : string -> option string) (dir : string -> option (list string)).
Context (open_chip : string -> Z) (line_flags : string -> Z -> option Z).
(** Whether an entry is the pin controller. *)
Definition is_chip (e : string) : bool :=
  match file (cut ("/sys/bus/gpio/devices/" ++ e ++ "/of_node/compatible") 300) with
  | Some s => (0 <? slen (cut s 128)) && String.eqb (c_string (cut s 128)) PINCTRL_COMPAT
  | None => false
  end.
Lemma chip_loop_eq entries len : chip_loop file entries len = match List.find is_chip entries with Some e => Some (cut e len) | None => None end.
Proof using.
  induction entries as [|e entries IH]; [done|]. cbn [chip_loop List.find]. unfold is_chip at 1, read_file. rewrite IH.
  destruct (file _) as [s|]; cbn [mbind option_bind]; [|done]. by destruct ((0 <? _) && _).
Qed.
(** The names and ranges of the node of a chip in the device tree. *)
Record tree_of (chip : string) (l : list string) (ranges : list (Z * Z)) : Prop := {
  to_names : file ("/sys/bus/gpio/devices/" ++ chip ++ "/of_node/gpio-line-names") = Some (dt_strings l);
  to_clean : Forall (fun s => no_nul_chars s = true) l;
  to_fits : slen (dt_strings l) < 4096;
  to_ranges : file ("/sys/bus/gpio/devices/" ++ chip ++ "/of_node/gpio-reserved-ranges") = Some (dt_ranges ranges);
  to_cells : Forall (fun r => cell (fst r) /\ cell (snd r)) ranges;
  to_short : slen (dt_ranges ranges) < 256 }.
Lemma node_path chip tail : slen chip < 64 -> slen tail < 64 ->
  cut (cut ("/sys/bus/gpio/devices/" ++ chip ++ "/of_node") 128 ++ tail) 256 = ("/sys/bus/gpio/devices/" ++ chip ++ "/of_node" ++ tail)%string.
Proof using.
  intros H T. rewrite (cut_short _ 128) by (rewrite !slen_app; change (slen "/sys/bus/gpio/devices/") with 22; change (slen "/of_node") with 8; lia).
  rewrite cut_short by (rewrite !slen_app; change (slen "/sys/bus/gpio/devices/") with 22; change (slen "/of_node") with 8; lia).
  by rewrite !str_app_assoc.
Qed.
Lemma read_names_ok b chip l ranges g : slen chip < 64 -> tree_of chip l ranges ->
  let b' := read_names file b (cut ("/sys/bus/gpio/devices/" ++ chip ++ "/of_node") 128) in
  names b' g = (if (0 <=? g) && (g <? NPINS) then match l !! Z.to_nat g with Some s => cut s NAME_LEN | None => names b g end else names b g) /\
  compatible b' = compatible b /\ model b' = model b /\ reserved b' = reserved b /\ used b' = used b /\ have_lines b' = have_lines b /\ hdr_of b' = hdr_of b.
Proof using.
  intros H [N C L _ _ _]. cbv zeta. unfold read_names, read_file. rewrite node_path by (done || by vm_compute). cbn [String.append] in N |- *. rewrite N. cbn [mbind option_bind].
  rewrite cut_short by done. pose proof (names_loop_ok l 62 0 b g C) as P. rewrite Z.sub_0_r in P. exact P.
Qed.
Lemma read_reserved_ok b chip l ranges g : slen chip < 64 -> tree_of chip l ranges -> 0 <= g < NPINS ->
  let b' := read_reserved file b (cut ("/sys/bus/gpio/devices/" ++ chip ++ "/of_node") 128) in
  Z.testbit (reserved b') g = Z.testbit (reserved b) g || in_ranges ranges g /\
  compatible b' = compatible b /\ model b' = model b /\ names b' = names b /\ used b' = used b /\ have_lines b' = have_lines b /\ hdr_of b' = hdr_of b.
Proof using.
  intros H [_ _ _ R C S] Hg. cbv zeta. unfold read_reserved, read_file. rewrite node_path by (done || by vm_compute). cbn [String.append] in R |- *. rewrite R. cbn [mbind option_bind].
  rewrite cut_short by done. split; [|done]. cbn [reserved with_reserved]. by apply reserved_loop_ok.
Qed.

(** The board from the running system, and what set makes of it: with the first GPIO chip whose node is the
    pin controller, a line gets the name of the device tree.  When the lines can be read, set refuses just
    the flash pins, the lines in the reserved ranges, those in use unless forced, and those with an
    interrupt; when they cannot, set refuses every pin. *)
Theorem live_board_correct (entries : list string) (chip : string) (l : list string) (ranges : list (Z * Z)) (p : pins) (force : bool) (gpio : Z)
    (D : dir "/sys/bus/gpio/devices" = Some entries) (F : List.find is_chip entries = Some chip) (S : slen chip < 64)
    (T : tree_of chip l ranges) (G : 0 <= gpio < NPINS) :
  let '(ret, b) := live_board file dir open_chip line_flags no_board in
  let refused := set_refusal sig_in_names sig_out_names b force p gpio in
  ret = - open_chip ("/dev/" ++ chip)%string /\ known b /\
  names b gpio = (match l !! Z.to_nat gpio with Some s => cut s NAME_LEN | None => EmptyString end) /\
  (refused = None <->
     ret = 0 /\ pin_is_flash gpio = false /\ in_ranges ranges gpio = false /\
     (line_used (line_flags ("/dev/" ++ chip)%string gpio) = false \/ force = true) /\
     ps_int_lines (pin_get sig_in_names sig_out_names p gpio) = 0).
Proof using.
  unfold live_board, find_chip. rewrite D, chip_loop_eq, F. rewrite (cut_short chip 64) by done.
  match goal with |- context [read_names file ?b _] => set (b0 := b) end.
  pose proof (read_names_ok b0 chip l ranges gpio S T) as N. set (b1 := read_names file b0 _) in *. cbv zeta in N. destruct N as (N & C1 & M1 & R1 & U1 & L1 & H1).
  pose proof (read_reserved_ok b1 chip l ranges gpio S T G) as R. set (b2 := read_reserved file b1 _) in *. cbv zeta in R. destruct R as (R & C2 & M2 & N2 & U2 & L2 & H2).
  assert (P : cut ("/dev/" ++ substring 0 64 chip) 80 = ("/dev/" ++ chip)%string).
  { assert (substring 0 64 chip = chip) as -> by (apply (cut_short chip 65); lia). apply cut_short. rewrite slen_app. change (slen "/dev/") with 5. lia. }
  unfold read_used. rewrite P. clear P. destruct (Z.leb_spec 0 gpio); [|lia]. destruct (Z.ltb_spec gpio NPINS); [|lia]. cbn [andb] in N.
  assert (K : forall hdr, hdr_of b2 = Some hdr -> exists name, board_header name = Some hdr) by (rewrite H2, H1; intros hdr E; eexists; exact E).
  destruct (Z.eqb_spec (open_chip ("/dev/" ++ chip)%string) 0) as [E|E]; [rewrite E|apply Z.eqb_neq in E as E'].
  - cbn [nz Z.eqb negb with_used compatible model names reserved used have_lines hdr_of]. split; [done|]. split; [exact K|]. split; [by rewrite N2, N|].
    unfold set_refusal. cbn [have_lines reserved used negb]. rewrite R, R1, U2, U1. cbn [reserved used b0 no_board]. rewrite Z.bits_0, orb_false_l.
    rewrite used_loop_ok; [|apply List.Forall_forall; intros x I; apply list_elem_of_In, elem_of_seqZ in I; lia|done].
    rewrite Z.bits_0. assert (existsb (Z.eqb gpio) (seqZ 0 NPINS) = true) as -> by (apply existsb_exists; exists gpio; split; [apply list_elem_of_In, elem_of_seqZ; lia|apply Z.eqb_refl]).
    cbn [orb andb]. destruct (pin_is_flash gpio), (in_ranges ranges gpio), (line_used _), force; cbn [andb negb];
      try (split; [done|intros (_ & ? & ? & [?|?] & _); done]).
    all: destruct (nz (ps_int_lines _)) eqn:I; rewrite ?nz_true, ?nz_false in I; split; [done|intros (_ & _ & _ & _ & ?); done|intros _; by auto 10|done].
  - unfold nz at 1. rewrite E'. cbn [negb]. assert (nz (- open_chip ("/dev/" ++ chip)%string) = true) as -> by (apply nz_true; lia).
    split; [done|]. split; [exact K|]. split; [by rewrite N2, N|]. unfold set_refusal. rewrite L2, L1. cbn [have_lines b0 no_board negb].
    split; [by destruct (pin_is_flash gpio)|]. intros (Z0 & _). lia.
Qed.
(** In every case the board is one that main() takes. *)
Lemma live_board_known (b : board) : known (snd (live_board file dir open_chip line_flags b)).
Proof using.
  unfold live_board. assert (G : forall b node, hdr_of (read_reserved file (read_names file b node) node) = hdr_of b).
  { clear b. intros b node. unfold read_reserved, read_names. assert (A : forall l b s, hdr_of (names_loop b l s) = hdr_of b).
    { clear. induction l as [|x l IH]; intros b s; [done|]. cbn [names_loop]. destruct s as [|c s]; [done|]. destruct (before is_nul (String c s)) as [q r]. etransitivity; [apply IH|done]. }
    destruct (read_file file _ 256); cbn [hdr_of with_reserved]; destruct (read_file file _ 4096); try done; apply A. }
  destruct (find_chip file dir 64) as [chip|]; [|by (intros hdr E; eexists; exact E)].
  unfold read_used. intros hdr E. destruct (nz (open_chip _)) eqn:O.
  - destruct (nz (- _)); cbn [snd hdr_of] in E; rewrite G in E; eexists; exact E.
  - cbn [nz Z.eqb negb snd hdr_of with_used] in E. rewrite G in E. eexists; exact E.
Qed.
End live.

(** A system with a lock pin and a camera in a reserved range. *)
Definition example_files (path : string) : option string :=
  if String.eqb path "/sys/bus/gpio/devices/gpiochip0/of_node/compatible" then Some "nxp,pca9555"%string
  else if String.eqb path "/sys/bus/gpio/devices/gpiochip1/of_node/compatible" then Some (PINCTRL_COMPAT ++ nul)%string
  else if String.eqb path "/sys/bus/gpio/devices/gpiochip1/of_node/gpio-line-names" then Some (dt_strings ["LOCK"; ""; "CAM"]%string)
  else if String.eqb path "/sys/bus/gpio/devices/gpiochip1/of_node/gpio-reserved-ranges" then Some (dt_ranges [(2, 4); (60, 4294967295)])
  else None.
Lemma live_board_correct_witness : exists b,
  live_board example_files (fun _ => Some ["gpiochip0"; "gpiochip1"]%string) (fun _ => 0) (fun _ g => if g =? 1 then Some 3 else Some 2) no_board = (0, b) /\
  names b 0 = "LOCK"%string /\ forall p, set_refusal (fun _ => None) (fun _ => None) b true p 61 <> None.
Proof.
  assert (T : tree_of example_files "gpiochip1" ["LOCK"; ""; "CAM"]%string [(2, 4); (60, 4294967295)]).
  { split; [reflexivity|repeat apply List.Forall_cons; try reflexivity; apply List.Forall_nil|vm_compute; reflexivity|reflexivity| |vm_compute; reflexivity].
    repeat apply List.Forall_cons; try apply List.Forall_nil; unfold cell; cbn; lia. }
  destruct (live_board example_files (fun _ => Some ["gpiochip0"; "gpiochip1"]%string) (fun _ => 0) (fun _ g => if g =? 1 then Some 3 else Some 2) no_board) as [ret b] eqn:E.
  assert (P : forall p g, 0 <= g < NPINS -> ret = 0 /\ names b g = (match ["LOCK"; ""; "CAM"]%string !! Z.to_nat g with Some s => cut s NAME_LEN | None => EmptyString end) /\
    (set_refusal (fun _ => None) (fun _ => None) b true p g = None -> in_ranges [(2, 4); (60, 4294967295)] g = false)).
  { intros p g Hg.
    pose proof (live_board_correct (fun _ => None) (fun _ => None) example_files (fun _ => Some ["gpiochip0"; "gpiochip1"]%string) (fun _ => 0)
      (fun _ g => if g =? 1 then Some 3 else Some 2) ["gpiochip0"; "gpiochip1"]%string "gpiochip1" ["LOCK"; ""; "CAM"]%string [(2, 4); (60, 4294967295)] p true g
      eq_refl eq_refl eq_refl T Hg) as H.
    rewrite E in H. cbv zeta in H. destruct H as (H0 & _ & H1 & H2). split; [exact H0|]. split; [exact H1|]. intros R. apply H2 in R. tauto. }
  exists b. destruct (P (Pins (fun _ => 0) (fun _ => 0) 0) 0 ltac:(unfold NPINS; lia)) as (-> & N & _). split; [done|]. split; [exact N|].
  intros p R. destruct (P p 61 ltac:(unfold NPINS; lia)) as (_ & _ & Q). specialize (Q R). discriminate Q.
Defined.
