(* ===== verification/Display.v ===== *)
(** The display of the boot loader (bootloader/main/display.c): the color bars, the
    ring of DMA descriptors over the frame buffer, and display_init().

    The size of a chunk, the store to the bit-field of its size, the size of a
    descriptor, the channels of the DMA and the LCD driver are ESP-IDF's: parameters.
    The DMA is modelled by what it does with a descriptor: it sends [d_length]
    bytes from [d_buffer] and goes to [d_next]; it does not write to the ring. *)

From S2P Require Import Prelude.

Definition LCD_FB_ADDR : Z := 0x50F40000.
Definition LCD_H_RES : Z := 800.
Definition LCD_V_RES : Z := 480.
Definition LCD_FB_SIZE : Z := u32 (u32 (LCD_H_RES * LCD_V_RES) * 2).
Definition LCD_PCLK_HZ : Z := 18000000.
Definition LCD_DMA_LINK_ADDR : Z := 0x2F079000.
Definition LCD_DMA_LINK_SIZE : Z := 0x1000.

(** * The color bars *)

Definition colors : list Z := [0xFFFF; 0xFFE0; 0x07FF; 0x07E0; 0xF81F; 0xF800; 0x001F; 0x0000].
(** The frame buffer is a function of the index of a pixel. *)
Definition poke (fb : Z -> Z) (i v : Z) : Z -> Z := fun j => if j =? i then v else fb j.
Fixpoint fill_row (y : Z) (xs : list Z) (fb : Z -> Z) : Z -> Z :=
  match xs with
  | [] => fb
  | x :: xs => fill_row y xs (poke fb (u32 (u32 (y * LCD_H_RES) + x)) (get colors (u32 (x * 8) / LCD_H_RES)))
  end.
Fixpoint fill_rows (ys : list Z) (fb : Z -> Z) : Z -> Z :=
  match ys with [] => fb | y :: ys => fill_rows ys (fill_row y (seqZ 0 LCD_H_RES) fb) end.
Definition fill_color_bars (fb : Z -> Z) : Z -> Z := fill_rows (seqZ 0 LCD_V_RES) fb.

(** * The ring of descriptors *)

Record desc := Desc { d_size : Z; d_length : Z; d_eof : bool; d_owner : Z; d_buffer : Z; d_next : Z }.
Section link.
Context (LCD_DMA_CHUNK_SIZE sizeof_desc OWNER_DMA : Z) (field : Z -> Z).
Definition LCD_DMA_NODE_COUNT : Z := u32 (u32 (LCD_FB_SIZE + LCD_DMA_CHUNK_SIZE) - 1) / LCD_DMA_CHUNK_SIZE.
Fixpoint link_loop (nodes : list Z) (offset : Z) (link : list desc) : list desc :=
  match nodes with
  | [] => link
  | i :: nodes =>
      let chunk := u32 (LCD_FB_SIZE - offset) in
      let chunk := if chunk >? LCD_DMA_CHUNK_SIZE then LCD_DMA_CHUNK_SIZE else chunk in
      let d := Desc (field chunk) (field chunk) (i =? u32 (LCD_DMA_NODE_COUNT - 1)) OWNER_DMA (u32 (LCD_FB_ADDR + offset))
                 (LCD_DMA_LINK_ADDR + sizeof_desc * (u32 (i + 1) mod LCD_DMA_NODE_COUNT)) in
      link_loop nodes (u32 (offset + chunk)) (<[Z.to_nat i := d]> link)
  end.
Definition build_dma_link : list desc :=
  link_loop (seqZ 0 LCD_DMA_NODE_COUNT) 0 (replicate (Z.to_nat LCD_DMA_NODE_COUNT) (Desc 0 0 false 0 0 0)).

(** What the DMA does: the descriptor at an address, and the bytes it sends in some steps
    (their addresses, and after which chunk the frame ends), with the address it is then at. *)
Definition desc_at (link : list desc) (a : Z) : option desc :=
  let off := a - LCD_DMA_LINK_ADDR in
  if (0 <=? off) && (off mod sizeof_desc =? 0) then link !! Z.to_nat (off / sizeof_desc) else None.
Fixpoint dma_run (link : list desc) (steps : nat) (a : Z) : option (list Z * list bool * Z) :=
  match steps with
  | O => Some ([], [], a)
  | S steps =>
      d ← desc_at link a;
      if negb (d_owner d =? OWNER_DMA) then None
      else '(sent, ends, a) ← dma_run link steps (d_next d); Some (seqZ (d_buffer d) (d_length d) ++ sent, d_eof d :: ends, a)
  end.
End link.

(** * Start *)

(** What display_init() does with the LCD driver, the LCD controller and the DMA, in order. *)
Inductive lcd_ev := Bars | NewPanel | PanelInit | PanelDel | BuildLink | LcdIrqDisable | LcdIrqClear | DmaIrqDisable (ch : Z) | DmaIrqClear (ch : Z)
  | AutoNextFrame | LcdReset | LcdFifoReset | DmaReset (ch : Z) | DmaSetDesc (ch a : Z) | DmaStart (ch : Z) | DelayUs (n : Z) | LcdStart.
(** The fields of the panel's configuration that are numbers, in the order of the code. *)
Record rgb_config := RgbConfig {
  pclk_hz : Z; h_res : Z; v_res : Z; hsync_pulse_width : Z; hsync_back_porch : Z; hsync_front_porch : Z;
  vsync_pulse_width : Z; vsync_back_porch : Z; vsync_front_porch : Z; pclk_active_neg : bool; data_width : Z; num_fbs : Z; user_fb : Z; dma_burst_size : Z;
  hsync_gpio_num : Z; vsync_gpio_num : Z; de_gpio_num : Z; pclk_gpio_num : Z; disp_gpio_num : Z; data_gpio_nums : list Z;
  fb_in_psram : bool; refresh_on_demand : bool }.
Definition config : rgb_config :=
  RgbConfig LCD_PCLK_HZ LCD_H_RES LCD_V_RES 40 40 48 23 32 13 true 16 1 LCD_FB_ADDR 64 44 45 43 40 38
    [8; 9; 10; 11; 12; 13; 14; 15; 16; 17; 18; 19; 33; 34; 35; 36] true true.
(** The GPIOs that the panel takes. *)
Definition panel_gpios (c : rgb_config) : list Z :=
  hsync_gpio_num c :: vsync_gpio_num c :: de_gpio_num c :: pclk_gpio_num c :: disp_gpio_num c :: data_gpio_nums c.
Section start.
Context (lcd_periph : Z) (peri_out_sel : Z -> Z).
Fixpoint find_lcd_dma_channel (channels : list Z) : Z :=
  match channels with
  | [] => -1
  | ch :: channels => if peri_out_sel ch =? lcd_periph then ch else find_lcd_dma_channel channels
  end.
Definition silence_lcd_interrupts (ch : Z) : list lcd_ev := [LcdIrqDisable; LcdIrqClear; DmaIrqDisable ch; DmaIrqClear ch].
Definition start_dma_link (ch : Z) : list lcd_ev :=
  [AutoNextFrame; LcdReset; LcdFifoReset; DmaReset ch; DmaSetDesc ch LCD_DMA_LINK_ADDR; DmaStart ch; DelayUs 1; LcdStart].
(** [n] is the number of channels; the driver gives [new_panel] (an error, or the
    panel) and the error [init_panel].  The result, the static panel, and what was done. *)
Definition display_init (n : Z) (new_panel : rgb_config -> Z + Z) (init_panel : Z -> Z) : bool * option Z * list lcd_ev :=
  match new_panel config with
  | inl _ => (false, None, [Bars; NewPanel])
  | inr panel =>
      if nz (init_panel panel) then (false, None, [Bars; NewPanel; PanelInit; PanelDel])
      else
        let ch := find_lcd_dma_channel (seqZ 0 n) in
        if ch <? 0 then (false, None, [Bars; NewPanel; PanelInit; PanelDel])
        else (true, Some panel, [Bars; NewPanel; PanelInit; BuildLink] ++ silence_lcd_interrupts ch ++ start_dma_link ch)
  end.
(** The Korvo-1 board: with the console on the USB Serial/JTAG there is no display. *)
Definition board_start_display (usb_serial_jtag : bool) (n : Z) (new_panel : rgb_config -> Z + Z) (init_panel : Z -> Z) : list lcd_ev :=
  if usb_serial_jtag then [] else snd (display_init n new_panel init_panel).
End start.

(** * Proofs *)

(** All comparisons of the goal. *)
Ltac zcases :=
  repeat match goal with
  | |- context [?a <=? ?b] => destruct (Z.leb_spec a b)
  | |- context [?a <? ?b] => destruct (Z.ltb_spec a b)
  end; cbn [andb].
Lemma fill_row_spec y n : 0 <= y < LCD_V_RES -> forall x fb i, 0 <= x -> x + Z.of_nat n = LCD_H_RES ->
  fill_row y (seqZ x (Z.of_nat n)) fb i = if (y * 800 + x <=? i) && (i <? (y + 1) * 800) then get colors ((i - y * 800) / 100) else fb i.
Proof.
  unfold LCD_V_RES, LCD_H_RES. intros Hy. induction n as [|n IH]; intros x fb i Hx L.
  - rewrite seqZ_nil by lia. cbn [fill_row]. if_goal; [lia|done].
  - rewrite seqZ_cons by lia. cbn [fill_row]. replace (Z.pred (Z.of_nat (S n))) with (Z.of_nat n) by lia. rewrite IH by lia.
    unfold LCD_H_RES, poke. rewrite !u32_small by (try rewrite u32_small; lia). replace (x * 8 / 800) with (x / 100) by zlia.
    destruct (Z.eqb_spec i (y * 800 + x)) as [->|N].
    + replace (y * 800 + x - y * 800) with x by lia. zcases; try lia; done.
    + zcases; try lia; done.
Qed.
Lemma fill_rows_spec n : forall y fb i, 0 <= y -> y + Z.of_nat n = LCD_V_RES ->
  fill_rows (seqZ y (Z.of_nat n)) fb i = if (y * 800 <=? i) && (i <? 480 * 800) then get colors ((i mod 800) / 100) else fb i.
Proof.
  unfold LCD_V_RES. induction n as [|n IH]; intros y fb i Hy L.
  - rewrite seqZ_nil by lia. cbn [fill_rows]. if_goal; [lia|done].
  - rewrite seqZ_cons by lia. cbn [fill_rows]. replace (Z.pred (Z.of_nat (S n))) with (Z.of_nat n) by lia. rewrite IH by lia.
    change (seqZ 0 LCD_H_RES) with (seqZ 0 (Z.of_nat 800)). rewrite (fill_row_spec y 800) by (unfold LCD_V_RES, LCD_H_RES; lia).
    zcases; try lia; try done.
    f_equal. f_equal. zlia.
Qed.
(** The bars: eight of 100 pixels in each row, in the order of [colors]; nothing outside of the frame buffer. *)
Lemma color_bars_correct (fb : Z -> Z) (i : Z) :
  fill_color_bars fb i = if (0 <=? i) && (2 * i <? LCD_FB_SIZE) then get colors ((i mod LCD_H_RES) / 100) else fb i.
Proof.
  unfold fill_color_bars. change (seqZ 0 LCD_V_RES) with (seqZ 0 (Z.of_nat 480)). rewrite (fill_rows_spec 480 0) by (unfold LCD_V_RES; lia).
  change LCD_FB_SIZE with 768000. unfold LCD_H_RES. zcases; try lia; done.
Qed.

(** ESP-IDF: a chunk fits its bit-field, and the ring its region (the code's static assertion). *)
Record link_ok (chunk sizeof_desc : Z) (field : Z -> Z) : Prop := {
  lk_chunk : 0 < chunk <= LCD_FB_SIZE;
  lk_field c : 0 <= c <= chunk -> field c = c;
  lk_size : 0 < sizeof_desc;
  lk_fits : LCD_DMA_NODE_COUNT chunk * sizeof_desc <= LCD_DMA_LINK_SIZE }.

Section ring.
Context (C D OWNER : Z) (field : Z -> Z) (K : link_ok C D field).
Abbreviation N := (LCD_DMA_NODE_COUNT C).
Lemma node_count : 0 < N /\ (N - 1) * C < LCD_FB_SIZE <= N * C /\ N <= LCD_DMA_LINK_SIZE.
Proof using K.
  destruct K as [Hc _ Hd Hf]. unfold LCD_DMA_NODE_COUNT, LCD_DMA_LINK_SIZE in *. change LCD_FB_SIZE with 768000 in *.
  rewrite (u32_small (768000 + C)) in * by lia. rewrite u32_small in * by lia.
  pose proof (Z.div_mod (768000 + C - 1) C ltac:(lia)). pose proof (Z.mod_pos_bound (768000 + C - 1) C ltac:(lia)).
  set (q := (768000 + C - 1) / C) in *. nia.
Qed.
(** The descriptor of a node. *)
Definition node (i : Z) : desc :=
  let chunk := Z.min C (LCD_FB_SIZE - i * C) in
  Desc chunk chunk (i =? N - 1) OWNER (LCD_FB_ADDR + i * C) (LCD_DMA_LINK_ADDR + D * ((i + 1) mod N)).
Lemma offset_bound i : 0 <= i < N -> 0 <= i * C < LCD_FB_SIZE.
Proof using K. pose proof node_count. destruct K as [Hc _ _ _]. nia. Qed.
Lemma link_loop_spec n : forall i link, 0 <= i -> i + Z.of_nat n = N -> Z.of_nat (length link) = N ->
  let l := link_loop C D OWNER field (seqZ i (Z.of_nat n)) (Z.min LCD_FB_SIZE (i * C)) link in
  length l = length link /\ (forall j, 0 <= j < i -> l !! Z.to_nat j = link !! Z.to_nat j) /\ (forall j, i <= j < N -> l !! Z.to_nat j = Some (node j)).
Proof using K.
  pose proof node_count as Hn. induction n as [|n IH]; intros i link Hi L Ln.
  - rewrite seqZ_nil by lia. cbn [link_loop]. split; [done|]. split; [done|]. intros j Hj. lia.
  - rewrite seqZ_cons by lia. cbn [link_loop]. replace (Z.pred (Z.of_nat (S n))) with (Z.of_nat n) by lia. unfold Z.succ.
    pose proof (offset_bound i ltac:(lia)) as B. assert (Z.min LCD_FB_SIZE (i * C) = i * C) as -> by lia.
    change LCD_FB_SIZE with 768000 in *. destruct K as [Hc F Hd Hf]. change LCD_FB_SIZE with 768000 in *.
    rewrite (u32_small (768000 - i * C)) by lia.
    assert ((if 768000 - i * C >? C then C else 768000 - i * C) = Z.min C (768000 - i * C)) as -> by (if_goal; lia).
    set (c := Z.min C (768000 - i * C)). assert (Hc' : 0 < c <= C) by (subst c; lia).
    assert (u32 (i * C + c) = Z.min 768000 ((i + 1) * C)) as -> by (rewrite u32_small; subst c; lia).
    rewrite F by lia. unfold LCD_DMA_LINK_SIZE in *. rewrite (u32_small (N - 1)), (u32_small (i + 1)), (u32_small (LCD_FB_ADDR + i * C)) by (unfold LCD_FB_ADDR; lia).
    match goal with |- context [<[_ := ?d]> link] => change d with (node i) end.
    destruct (IH (i + 1) (<[Z.to_nat i := node i]> link)) as (E1 & E2 & E3); [lia..|by rewrite length_insert|].
    rewrite length_insert in E1. split; [done|]. split.
    + intros j Hj. rewrite E2 by lia. apply list_lookup_insert_ne. lia.
    + intros j Hj. destruct (decide (j = i)) as [->|Nj]; [|apply E3; lia]. rewrite E2 by lia. apply list_lookup_insert_eq. lia.
Qed.
Lemma build_lookup j : 0 <= j < N -> build_dma_link C D OWNER field !! Z.to_nat j = Some (node j).
Proof using K.
  intros Hj. pose proof node_count as Hn. unfold build_dma_link. pose proof (link_loop_spec (Z.to_nat N) 0 (replicate (Z.to_nat N) (Desc 0 0 false 0 0 0))) as H.
  rewrite Z2Nat.id in H by lia. rewrite length_replicate in H. specialize (H ltac:(lia) ltac:(lia) ltac:(lia)).
  change (Z.min LCD_FB_SIZE (0 * C)) with 0 in H. cbv zeta in H. destruct H as (_ & _ & H). by apply H.
Qed.
Lemma at_node j : 0 <= j < N -> desc_at D (build_dma_link C D OWNER field) (LCD_DMA_LINK_ADDR + D * j) = Some (node j).
Proof using K.
  intros Hj. unfold desc_at. replace (LCD_DMA_LINK_ADDR + D * j - LCD_DMA_LINK_ADDR) with (j * D) by lia. destruct (lk_size _ _ _ K) as [].
  rewrite Z.mod_mul, Z.div_mul by (pose proof (lk_size _ _ _ K); lia). pose proof (lk_size _ _ _ K).
  if_goal; [by apply build_lookup|nia].
Qed.
Definition run_from := dma_run D OWNER (build_dma_link C D OWNER field).
(** From a node to the end of the frame. *)
Lemma run_rest n : forall i, 0 <= i -> i + Z.of_nat (S n) = N ->
  run_from (S n) (LCD_DMA_LINK_ADDR + D * i) =
    Some (seqZ (LCD_FB_ADDR + i * C) (LCD_FB_SIZE - i * C), replicate n false ++ [true], LCD_DMA_LINK_ADDR).
Proof using K.
  pose proof node_count as Hn. destruct (lk_chunk _ _ _ K) as [Hc Hs]. induction n as [|n IH]; intros i Hi L; unfold run_from; cbn [dma_run];
    rewrite at_node by lia; cbn [mbind option_bind node d_owner d_next d_buffer d_length d_eof]; rewrite Z.eqb_refl; cbn [negb].
  - assert (i = N - 1) as -> by lia. rewrite Z.sub_add, Z.mod_same, Z.mul_0_r, Z.add_0_r by lia. cbn [mbind option_bind dma_run].
    rewrite Z.eqb_refl, app_nil_r. do 4 f_equal. nia.
  - rewrite Z.mod_small by lia. specialize (IH (i + 1)). unfold run_from in IH. cbn [dma_run] in IH. rewrite IH by lia. cbn [mbind option_bind]. assert ((i =? N - 1) = false) as -> by lia.
    f_equal. f_equal. f_equal. assert (Z.min C (LCD_FB_SIZE - i * C) = C) as -> by nia.
    replace (LCD_FB_SIZE - i * C) with (C + (LCD_FB_SIZE - (i + 1) * C)) by lia. rewrite seqZ_app by nia. f_equal. f_equal. lia.
Qed.
Lemma run_app n m a : run_from (n + m) a =
  '(s1, e1, a1) ← run_from n a; '(s2, e2, a2) ← run_from m a1; Some (s1 ++ s2, e1 ++ e2, a2).
Proof using.
  unfold run_from. revert a. induction n as [|n IH]; intros a; cbn [Nat.add dma_run mbind option_bind].
  - by destruct (dma_run _ _ _ m a) as [[[s e] a2]|].
  - destruct (desc_at D _ a) as [d|]; [|done]. cbn [mbind option_bind]. destruct (negb _); [done|]. rewrite IH.
    destruct (dma_run _ _ _ n (d_next d)) as [[[s1 e1] a1]|]; [|done]. cbn [mbind option_bind].
    destruct (dma_run _ _ _ m a1) as [[[s2 e2] a2]|]; [|done]. cbn [mbind option_bind]. by rewrite app_assoc.
Qed.
End ring.

(** The ring sends the frame buffer forever: any number of frames, each all bytes of the frame buffer
    in order and nothing else, with the end of the frame at its last chunk; and all descriptors are in the
    region of SRAM that is kept out of the heap. *)
Theorem dma_link_correct (chunk sizeof_desc OWNER : Z) (field : Z -> Z) (K : link_ok chunk sizeof_desc field) (frames : nat) :
  let N := Z.to_nat (LCD_DMA_NODE_COUNT chunk) in
  let link := build_dma_link chunk sizeof_desc OWNER field in
  dma_run sizeof_desc OWNER link (frames * N) LCD_DMA_LINK_ADDR =
    Some (concat (replicate frames (seqZ LCD_FB_ADDR LCD_FB_SIZE)), concat (replicate frames (replicate (N - 1) false ++ [true])), LCD_DMA_LINK_ADDR) /\
  length link = N /\ sizeof_desc * zlen link <= LCD_DMA_LINK_SIZE.
Proof.
  cbv zeta. pose proof (node_count _ _ _ K) as Hn. set (N := Z.to_nat (LCD_DMA_NODE_COUNT chunk)).
  assert (Hl : length (build_dma_link chunk sizeof_desc OWNER field) = N).
  { unfold build_dma_link. pose proof (link_loop_spec chunk sizeof_desc OWNER field K N 0 (replicate N (Desc 0 0 false 0 0 0))) as H.
    unfold N in H. rewrite Z2Nat.id, length_replicate in H by lia. destruct (H ltac:(lia) ltac:(lia) ltac:(lia)) as [E _]. exact E. }
  split; [|split; [done|unfold zlen; rewrite Hl; pose proof (lk_fits _ _ _ K); lia]].
  induction frames as [|frames IH]; [done|]. cbn [Nat.mul replicate concat].
  pose proof (run_app chunk sizeof_desc OWNER field N (frames * N) LCD_DMA_LINK_ADDR) as A. unfold run_from in A. rewrite A. clear A.
  pose proof (run_rest chunk sizeof_desc OWNER field K (N - 1) 0) as R. replace (S (N - 1)) with N in R by lia. unfold run_from in R.
  rewrite Z.mul_0_r, Z.mul_0_l, !Z.add_0_r, Z.sub_0_r in R. rewrite R by lia. cbn [mbind option_bind]. rewrite IH. done.
Qed.
Lemma dma_link_correct_witness : exists out, dma_run 16 1 (build_dma_link 4032 16 1 (fun c => c mod 4096)) (2 * 191) LCD_DMA_LINK_ADDR = Some (out, LCD_DMA_LINK_ADDR).
Proof.
  assert (K : link_ok 4032 16 (fun c => c mod 4096)) by (split; [vm_compute; split; congruence|intros c Hc; apply Z.mod_small; lia|lia|vm_compute; congruence]).
  destruct (dma_link_correct 4032 16 1 _ K 2) as [E _]. eexists. exact E.
Defined.

Lemma find_channel_ok periph sel n : let ch := find_lcd_dma_channel periph sel (seqZ 0 n) in
  (0 <= ch < n /\ sel ch = periph) \/ (ch = -1 /\ forall c, 0 <= c < n -> sel c <> periph).
Proof.
  cbv zeta. assert (G : forall l, let ch := find_lcd_dma_channel periph sel l in (In ch l /\ sel ch = periph) \/ (ch = -1 /\ forall c, In c l -> sel c <> periph)).
  { induction l as [|c l IH]; cbn [find_lcd_dma_channel]; [right; by split|]. destruct (Z.eqb_spec (sel c) periph) as [E|E]; [left; cbn; by auto|].
    destruct IH as [[I E2]|[E1 E2]]; [left; split; [by right|done]|right; split; [done|]]. intros c' [<-|I]; [done|by apply E2]. }
  destruct (G (seqZ 0 n)) as [[I E]|[E1 E2]]; [left; split; [|done]|right; split; [done|]].
  - apply list_elem_of_In, elem_of_seqZ in I. lia.
  - intros c Hc. apply E2, list_elem_of_In, elem_of_seqZ. lia.
Qed.
(** The GPIOs of the panel are all different, and no line of data twice. *)
Lemma panel_gpios_distinct : bool_decide (NoDup (panel_gpios config)) = true /\ zlen (data_gpio_nums config) = data_width config.
Proof. by vm_compute. Qed.
(** display_init(): true just when the driver takes the panel and a DMA channel serves the LCD.  Then the
    DMA of that channel starts once, with the ring built and with all interrupts off and clear, as
    nothing under Linux would handle them, and the LCD after the DMA; else nothing starts and the panel is deleted when there is one. *)
Lemma display_init_correct (periph : Z) (sel : Z -> Z) (n : Z) (new_panel : rgb_config -> Z + Z) (init_panel : Z -> Z) :
  let '(ok, panel, evs) := display_init periph sel n new_panel init_panel in
  (ok = true <-> exists p, new_panel config = inr p /\ init_panel p = 0 /\ exists c, 0 <= c < n /\ sel c = periph) /\
  (if ok then
     exists ch pre mid, sel ch = periph /\ evs = pre ++ mid ++ [DmaSetDesc ch LCD_DMA_LINK_ADDR; DmaStart ch; DelayUs 1; LcdStart] /\
       In BuildLink pre /\ (forall e, In e [LcdIrqDisable; LcdIrqClear; DmaIrqDisable ch; DmaIrqClear ch] -> In e pre) /\ panel <> None /\
       forall c, ~ In (DmaStart c) (pre ++ mid)
   else panel = None /\ (forall c, ~ In (DmaStart c) evs) /\ ~ In LcdStart evs /\ (In PanelDel evs <-> exists p, new_panel config = inr p)).
Proof.
  unfold display_init. pose proof (find_channel_ok periph sel n) as F. cbv zeta in F. destruct (new_panel config) as [e|p] eqn:P.
  - split; [split; [done|intros (p & E & _); congruence]|]. split; [done|]. split; [intros c [I|[I|[]]]; done|]. split; [intros [I|[I|[]]]; done|].
    split; [intros [I|[I|[]]]; done|intros [p E]; congruence].
  - destruct (Z.eqb_spec (init_panel p) 0) as [E|E]; [rewrite E|apply Z.eqb_neq in E as E']; cbn [nz Z.eqb negb].
    2: { unfold nz. rewrite E'. cbn [negb]. split; [split; [done|intros (p' & [= <-] & E2 & _); congruence]|]. split; [done|].
      split; [intros c I; cbn in I; intuition congruence|]. split; [intros I; cbn in I; intuition congruence|]. split; [by eexists|intros _; cbn; tauto]. }
    set (ch := find_lcd_dma_channel periph sel (seqZ 0 n)) in *. destruct F as [[R S]|[-> S]].
    + destruct (Z.ltb_spec ch 0); [lia|]. split; [split; [|done]; intros _; exists p; eauto|].
      exists ch, ([Bars; NewPanel; PanelInit; BuildLink] ++ silence_lcd_interrupts ch), [AutoNextFrame; LcdReset; LcdFifoReset; DmaReset ch].
      split; [done|]. split; [done|]. split; [cbn; tauto|]. split; [intros e I; cbn in I |- *; tauto|]. split; [done|]. intros c I. cbn in I. intuition congruence.
    + cbn [Z.ltb Z.compare]. split; [split; [done|intros (p' & [= <-] & _ & c & Rc & Sc); by destruct (S c Rc)]|]. split; [done|].
      split; [intros c I; cbn in I; intuition congruence|]. split; [intros I; cbn in I; intuition congruence|]. split; [by eexists|intros _; cbn; tauto].
Qed.
(** The panel needs both pins of the USB Serial/JTAG: the display is left alone when the console has them. *)
Lemma board_display_pins periph sel usb n new_panel init_panel : (forall g, In g [33; 34] -> In g (panel_gpios config)) /\
  (board_start_display periph sel usb n new_panel init_panel = [] <-> usb = true).
Proof.
  split; [intros g [<-|[<-|[]]]; vm_compute; tauto|]. unfold board_start_display, display_init. destruct usb; [done|]. split; [|done].
  destruct (new_panel config); [done|]. destruct (nz _); [done|]. by destruct (_ <? 0).
Qed.
