(* ===== verification/Radio.v ===== *)
(** The coexistence scheme of the loader's firmware (bootloader/main/radio_coex.c):
    the wrapped radio calls of OpenThread turn it on and off. *)

From S2P Require Import Prelude.

(** What happens: the scheme turned on or off, and the real call with its argument. *)
Inductive radio_ev := CoexEnable | CoexDisable | RealReceive (channel : Z) | RealSleep | RealDisable.
(** [s_rx_on] and what happened so far, newest first. *)
Definition radio : Type := bool * list radio_ev.
Definition set_rx (on : bool) (s : radio) : radio :=
  if Bool.eqb (fst s) on then s else (on, (if on then CoexEnable else CoexDisable) :: snd s).
Definition real (e : radio_ev) (s : radio) : radio := (fst s, e :: snd s).
Definition wrap_otPlatRadioReceive (channel : Z) (s : radio) : radio := real (RealReceive channel) (set_rx true s).
Definition wrap_otPlatRadioSleep (s : radio) : radio := real RealSleep (set_rx false s).
Definition wrap_otPlatRadioDisable (s : radio) : radio := real RealDisable (set_rx false s).

(** The calls of OpenThread. *)
Inductive radio_call := Receive (channel : Z) | Sleep | Disable.
Definition radio_run (calls : list radio_call) : radio :=
  foldl (fun s c => match c with
                    | Receive ch => wrap_otPlatRadioReceive ch s
                    | Sleep => wrap_otPlatRadioSleep s
                    | Disable => wrap_otPlatRadioDisable s
                    end) (false, []) calls.

(** Whether the scheme is on after some events, newest first; [None] when it is turned on twice
    or off twice, or the radio is called in the wrong state of the scheme. *)
Fixpoint scheme (evs : list radio_ev) : option bool :=
  match evs with
  | [] => Some false
  | e :: evs =>
      on ← scheme evs;
      match e, on with
      | CoexEnable, false => Some true
      | CoexDisable, true => Some false
      | RealReceive _, true => Some true
      | RealSleep, false | RealDisable, false => Some false
      | _, _ => None
      end
  end.
Definition is_receive (c : radio_call) : bool := match c with Receive _ => true | _ => false end.
(** The real calls among the events. *)
Fixpoint real_calls (evs : list radio_ev) : list radio_call :=
  match evs with
  | [] => []
  | RealReceive ch :: evs => real_calls evs ++ [Receive ch]
  | RealSleep :: evs => real_calls evs ++ [Sleep]
  | RealDisable :: evs => real_calls evs ++ [Disable]
  | _ :: evs => real_calls evs
  end.

(** The scheme runs just when the last call was a receive: it is on before the radio receives and off
    before it sleeps, never turned on or off twice, and each call goes through once, in order. *)
Theorem radio_coex_correct (calls : list radio_call) :
  let '(on, evs) := radio_run calls in
  scheme evs = Some on /\ on = (match list.last calls with Some c => is_receive c | None => false end) /\ real_calls evs = calls.
Proof.
  induction calls as [|c calls IH] using rev_ind; [done|]. unfold radio_run in *. rewrite foldl_app, last_snoc. cbn [foldl].
  destruct (foldl _ _ calls) as [on evs]. destruct IH as (S & _ & R).
  destruct c, on; cbn; rewrite ?S, ?R; done.
Qed.
