(* ===== verification/Probe.v ===== *)
(** The start of drivers: the probes of the interrupt controller
    (irq-esp32s31-clic.c), of the UART with its console (esp32_uart.c), of the pin
    controller (pinctrl-esp32s31.c), of the I2C controller (i2c-esp32s31.c) and of the
    RGB LED (leds-esp32s31-ws2812.c), the binding of the transport to the adapter
    (esp_shm.c), what the MTD device of the flash window holds (esp_shm_flash.c), and the
    probes of the drivers of Glue.

    What the functions of the kernel return is an argument: 0 or an error, or whether
    a pointer is not NULL.  The core of the kernel releases what a devm_ function gave, so
    only the other resources are events. *)

From Stdlib Require Import Ascii String.
From S2P Require Import Prelude Device PinRegs Pinctrl PinTool PinText Clic I2c Ws2812 Mem Ring Flash ShmHost.

Open Scope Z_scope.

(** * The interrupt controller *)

Inductive clic_res := Chip | ClicRegs | MatrixRegs | IrqDomain.
Inductive clic_ev :=
  | Acquire (r : clic_res) | Release (r : clic_res) | MapMatrix (off size : Z) | InitCpu | TakeHandler | SetIntcChip | IrqWorkInit.
Record clic_world := ClicWorld {
  k_zalloc : bool; k_res0 : Z; k_map0 : bool; k_res1 : Z; k_size1 : Z; k_hart : Z; k_map1 : bool; k_domain : bool; k_intc : bool }.
Definition err_free (ret : Z) (done : list clic_ev) : Z * list clic_ev := (ret, done ++ [Release Chip]).
(** [matrix] is whether the matrix is mapped. *)
Definition err_unmap (ret : Z) (matrix : bool) (done : list clic_ev) : Z * list clic_ev :=
  err_free ret (done ++ (if matrix then [Release MatrixRegs] else []) ++ [Release ClicRegs]).
Definition esp32s31_clic_probe (w : clic_world) : Z * list clic_ev :=
  if negb (k_zalloc w) then (- ENOMEM, [])
  else if nz (k_res0 w) then err_free (k_res0 w) [Acquire Chip]
  else if negb (k_map0 w) then err_free (- ENOMEM) [Acquire Chip]
  else
    let done := [Acquire Chip; Acquire ClicRegs] in
    if nz (k_res1 w) then err_unmap (k_res1 w) false done
    else if u32 (u32 (k_hart w + 1) * ESP32S31_INTMATRIX_CORE_STRIDE) >? k_size1 w then err_unmap (- EINVAL) false done
    else
      let done := done ++ [MapMatrix (u32 (k_hart w * ESP32S31_INTMATRIX_CORE_STRIDE)) ESP32S31_INTMATRIX_CORE_STRIDE] in
      if negb (k_map1 w) then err_unmap (- ENOMEM) false done
      else
        let done := done ++ [Acquire MatrixRegs] in
        if negb (k_domain w) then err_unmap (- ENOMEM) true done
        else
          (0, done ++ [Acquire IrqDomain; InitCpu; TakeHandler] ++ (if k_intc w then [SetIntcChip; IrqWorkInit] else [])).

#[export] Instance clic_res_eq : EqDecision clic_res.
Proof. solve_decision. Defined.
#[export] Instance clic_ev_eq : EqDecision clic_ev.
Proof. solve_decision. Defined.
(** What is held after some events; [None] when something is released that is not held, or held twice. *)
Fixpoint held (rs : list clic_res) (evs : list clic_ev) : option (list clic_res) :=
  match evs with
  | [] => Some rs
  | Acquire r :: evs => if bool_decide (r ∈ rs) then None else held (r :: rs) evs
  | Release r :: evs => if bool_decide (r ∈ rs) then held (List.filter (fun x => negb (bool_decide (x = r))) rs) evs else None
  | _ :: evs => held rs evs
  end.
(** An event that is not in a list. *)
Ltac absent := rewrite ?not_elem_of_cons; split_and!; try done; apply not_elem_of_nil.
Definition in_window (size1 hart : Z) (e : clic_ev) : Prop :=
  match e with MapMatrix off size => off = hart * 2048 /\ size = 2048 /\ off + size <= size1 | _ => True end.
(** On an error all that was acquired is released, once, and no interrupt comes to the driver; else the
    controller is quiet before its handler is in place, and the handler before the irq_work interrupt is on.
    The map of the matrix is within its resource. *)
Theorem clic_probe_correct (w : clic_world) : 0 <= k_hart w < 1048576 ->
  let '(ret, evs) := esp32s31_clic_probe w in
  (if ret =? 0 then
     held [] evs = Some [IrqDomain; MatrixRegs; ClicRegs; Chip] /\
     exists pre, evs = pre ++ [InitCpu; TakeHandler] ++ (if k_intc w then [SetIntcChip; IrqWorkInit] else []) /\ (InitCpu ∉ pre) /\ (TakeHandler ∉ pre)
   else held [] evs = Some [] /\ (TakeHandler ∉ evs) /\ (InitCpu ∉ evs)) /\
  Forall (in_window (k_size1 w) (k_hart w)) evs.
Proof.
  intros Hh. unfold esp32s31_clic_probe, ESP32S31_INTMATRIX_CORE_STRIDE.
  assert (N : forall e (l : list clic_ev), bool_decide (e ∈ l) = false -> e ∉ l) by (intros e l; apply bool_decide_eq_false).
  destruct (k_zalloc w); cbn [negb]; [|split; [cbn; split; [done|split; apply N; reflexivity]|constructor]].
  destruct (Z.eqb_spec (k_res0 w) 0) as [E0|E0]; [rewrite E0; cbn [nz Z.eqb negb]|apply Z.eqb_neq in E0; unfold nz at 1; rewrite E0; unfold err_free; cbn [negb app]; rewrite E0].
  2: { split; [split; [done|split; apply N; reflexivity]|repeat constructor]. }
  destruct (k_map0 w); cbn [negb]; [|split; [split; [done|split; apply N; reflexivity]|repeat constructor]].
  destruct (Z.eqb_spec (k_res1 w) 0) as [E1|E1]; [rewrite E1; cbn [nz Z.eqb negb]|apply Z.eqb_neq in E1; unfold nz at 1; rewrite E1; unfold err_unmap, err_free; cbn [negb app]; rewrite E1].
  2: { split; [split; [done|split; apply N; reflexivity]|repeat constructor]. }
  rewrite !u32_small by (rewrite ?u32_small; lia). destruct (Z.gtb_spec ((k_hart w + 1) * 2048) (k_size1 w)) as [G|G].
  { split; [split; [done|split; apply N; reflexivity]|repeat constructor]. }
  assert (W : in_window (k_size1 w) (k_hart w) (MapMatrix (k_hart w * 2048) 2048)) by (cbn; lia).
  assert (D : forall o s, MapMatrix o s <> InitCpu /\ MapMatrix o s <> TakeHandler) by done.
  destruct (k_map1 w), (k_domain w); cbn [negb]; unfold err_unmap, err_free; cbn [app Z.eqb Z.opp].
  all: split; [|try destruct (k_intc w); repeat (apply List.Forall_cons; [done|]); apply List.Forall_nil].
  all: split; [by destruct (k_intc w)|]; try (split; absent).
  exists [Acquire Chip; Acquire ClicRegs; MapMatrix (k_hart w * 2048) 2048; Acquire MatrixRegs; Acquire IrqDomain].
  split; [by destruct (k_intc w)|]. split; absent.
Qed.

(** * The UART *)

Definition UART_NR : Z := 3.
(** A pointer, or its error. *)
Inductive uart_ev := UartRegister | UartUnregister | PlatRegister | PlatUnregister.
Record uart_port := UartPort { up_line : Z; up_mapbase : Z; up_uartclk : Z; up_irq : Z; up_fifosize : Z }.
Record uart_world := UartWorld {
  a_zalloc : bool; a_alias : Z; a_res : option Z; a_map : Z; a_clk : Z; a_rate : Z; a_irq : Z; a_add : Z }.
(** [esp32_uart_ports]: a place for each line; [a_map] and [a_clk] are 0 or the error of the pointer. *)
Definition esp32_uart_probe (w : uart_world) (ports : list (option uart_port)) : Z * list (option uart_port) :=
  if negb (a_zalloc w) then (- ENOMEM, ports)
  else if a_alias w <? 0 then (a_alias w, ports)
  else if a_alias w >=? UART_NR then (- ENOMEM, ports)
  else
    match a_res w with
    | None => (- ENODEV, ports)
    | Some start =>
        if nz (a_map w) then (a_map w, ports)
        else if nz (a_clk w) then (a_clk w, ports)
        else if a_irq w <? 0 then (a_irq w, ports)
        else (a_add w, <[Z.to_nat (a_alias w) := Some (UartPort (a_alias w) start (a_rate w) (a_irq w) 127)]> ports)
    end.
(** [co->index] is a short, signed, that the comparison takes as unsigned. *)
Definition console_index (index : Z) : Z := if (index =? -1) || (u32 index >=? UART_NR) then 0 else index.
(** [parse] are uart_parse_options() and the result of uart_set_options(); the result has the index. *)
Definition esp32_uart_console_setup (index : Z) (ports : list (option uart_port)) (enable : Z) (set_options : uart_port -> (Z * Z * Z * Z) -> Z)
    (options : option ((Z * Z * Z * Z) -> (Z * Z * Z * Z))) : Z * Z :=
  let index := console_index index in
  match ports !! Z.to_nat index with
  | Some (Some p) =>
      if nz enable then (enable, index)
      else
        let defaults := (115200, 8, 110, 110) in
        (set_options p (match options with Some f => f defaults | None => defaults end), index)
  | _ => (- ENODEV, index)
  end.
Definition esp32_uart_init (register platform : Z) : Z * list uart_ev :=
  if nz register then (register, [UartRegister])
  else (platform, [UartRegister; PlatRegister] ++ (if nz platform then [UartUnregister] else [])).
Definition esp32_uart_exit : list uart_ev := [PlatUnregister; UartUnregister].

(** A port is in its place, and only there; an error before the port is added leaves the places alone; the
    console finds a port for every index it is given, in the three places, or gives ENODEV. *)
Theorem uart_probe_correct (w : uart_world) (ports : list (option uart_port)) : length ports = 3%nat ->
  let '(ret, ports') := esp32_uart_probe w ports in
  length ports' = 3%nat /\
  (ports' = ports \/
   exists p, 0 <= up_line p < UART_NR /\ up_line p = a_alias w /\ up_irq p = a_irq w /\ ret = a_add w /\ ports' !! Z.to_nat (up_line p) = Some (Some p) /\
     (forall l, 0 <= l -> l <> up_line p -> ports' !! Z.to_nat l = ports !! Z.to_nat l)) /\
  (forall index enable set_options options, -32768 <= index < 32768 -> exists l, snd (esp32_uart_console_setup index ports' enable set_options options) = l /\
     0 <= l < UART_NR /\ (0 <= index < UART_NR -> l = index) /\
     (ports' !! Z.to_nat l = Some None -> fst (esp32_uart_console_setup index ports' enable set_options options) = - ENODEV)).
Proof.
  intros L. assert (C : forall (ps : list (option uart_port)) index enable set_options options, -32768 <= index < 32768 -> exists l, snd (esp32_uart_console_setup index ps enable set_options options) = l /\
     0 <= l < UART_NR /\ (0 <= index < UART_NR -> l = index) /\
     (ps !! Z.to_nat l = Some None -> fst (esp32_uart_console_setup index ps enable set_options options) = - ENODEV)).
  { intros ps index enable so options Hi. exists (console_index index). unfold esp32_uart_console_setup.
    assert (0 <= console_index index < UART_NR /\ (0 <= index < UART_NR -> console_index index = index)) as [R I].
    { unfold console_index, UART_NR. destruct (Z.eqb_spec index (-1)) as [->|]; cbn [orb]; [lia|]. destruct (Z.geb_spec (u32 index) 3); [|split; zlia].
      split; [lia|]. intros Hr. rewrite u32_small in * by lia. lia. }
    destruct (ps !! Z.to_nat (console_index index)) as [[p|]|]; [destruct (nz enable)|..]; done. }
  unfold esp32_uart_probe. destruct (negb (a_zalloc w)); [split; [done|]; split; [by left|apply C]|].
  destruct (Z.ltb_spec (a_alias w) 0); [split; [done|]; split; [by left|apply C]|].
  destruct (Z.geb_spec (a_alias w) UART_NR); [split; [done|]; split; [by left|apply C]|].
  destruct (a_res w) as [start|]; [|split; [done|]; split; [by left|apply C]].
  destruct (nz (a_map w)); [split; [done|]; split; [by left|apply C]|]. destruct (nz (a_clk w)); [split; [done|]; split; [by left|apply C]|].
  destruct (a_irq w <? 0); [split; [done|]; split; [by left|apply C]|].
  split; [by rewrite length_insert|]. split; [|apply C]. right. exists (UartPort (a_alias w) start (a_rate w) (a_irq w) 127). cbn [up_line up_irq]. unfold UART_NR in *.
  split; [lia|]. split; [done|]. split; [done|]. split; [done|]. split; [apply list_lookup_insert_eq; lia|]. intros l Hl N. apply list_lookup_insert_ne. lia.
Qed.
(** When the port cannot be added, its place still holds it, although the core frees it with the probe. *)
Lemma uart_probe_dangling w ports : length ports = 3%nat -> a_zalloc w = true -> 0 <= a_alias w < UART_NR -> a_map w = 0 -> a_clk w = 0 -> 0 <= a_irq w ->
  (exists start, a_res w = Some start) -> a_add w < 0 ->
  exists p, esp32_uart_probe w ports = (a_add w, <[Z.to_nat (a_alias w) := Some p]> ports) /\
    fst (esp32_uart_console_setup (a_alias w) (snd (esp32_uart_probe w ports)) 0 (fun _ _ => 0) None) = 0.
Proof.
  intros L A1 A2 A3 A4 A5 [start A6] A7. unfold esp32_uart_probe, UART_NR in *. rewrite A1, A3, A4, A6. cbn [negb nz Z.eqb].
  destruct (Z.ltb_spec (a_alias w) 0); [lia|]. destruct (Z.geb_spec (a_alias w) 3); [lia|]. destruct (Z.ltb_spec (a_irq w) 0); [lia|].
  eexists. split; [done|]. unfold esp32_uart_console_setup, console_index, UART_NR. cbn [snd]. rewrite u32_small by lia.
  destruct (Z.eqb_spec (a_alias w) (-1)); [lia|]. destruct (Z.geb_spec (a_alias w) 3); [lia|]. cbn [orb]. by rewrite list_lookup_insert_eq by lia.
Qed.

(** * The pin controller *)

(** [alloc] is whether the array is there, [name] whether the name of a pin is. *)
Fixpoint name_pins (name : Z -> bool) (nums : list Z) : Z + list (Z * string) :=
  match nums with
  | [] => inr []
  | i :: nums =>
      if negb (name i) then inl (- ENOMEM)
      else match name_pins name nums with inl e => inl e | inr l => inr ((i, ("GPIO" ++ dec i)%string) :: l) end
  end.
Definition esp32s31_pins_init (alloc : bool) (name : Z -> bool) : Z + list (Z * string) :=
  if negb alloc then inl (- ENOMEM) else name_pins name (seqZ 0 ESP32S31_NPINS).
(** The pages for mmap: [None] for a resource that is missing. *)
Fixpoint gpiomem_pages (res : list (option Z)) : Z + list Z :=
  match res with
  | [] => inr []
  | Some start :: res =>
      if negb (start mod PAGE_SIZE =? 0) then inl (- EINVAL)
      else match gpiomem_pages res with inl e => inl e | inr l => inr (start :: l) end
  | None :: _ => inl (- EINVAL)
  end.
(** The result with the pages, and the calls: misc_register() and, for an action that cannot be added, its run. *)
Inductive mem_ev := MiscRegister | MiscDeregister.
Definition esp32s31_gpiomem_init (iomux gpio : option Z) (register action : Z) : Z * list Z * list mem_ev :=
  match gpiomem_pages [iomux; gpio] with
  | inl e => (e, [], [])
  | inr pages =>
      if nz register then (register, pages, [MiscRegister])
      else (action, pages, MiscRegister :: if nz action then [MiscDeregister] else [])
  end.
Record pin_world := PinWorld {
  q_zalloc : bool; q_iomux : Z; q_gpio : Z; q_cnnt : Z; q_alloc : bool; q_name : Z -> bool; q_register : Z; q_enable : Z;
  q_irqs : Z; q_parents : list Z; q_chip : Z; q_gpiomem : bool; q_res_iomux : option Z; q_res_gpio : option Z; q_misc : Z; q_action : Z }.
(** The result, whether the GPIO chip is added, and the pages of gpiomem when it is there. *)
Definition esp32s31_pinctrl_probe (w : pin_world) : M (Z * bool * option (list Z)) :=
  let fail e := mret (e, false, None) in
  if negb (q_zalloc w) then fail (- ENOMEM)
  else if nz (q_iomux w) then fail (q_iomux w)
  else if nz (q_gpio w) then fail (q_gpio w)
  else if nz (q_cnnt w) then fail (q_cnnt w)
  else
    match esp32s31_pins_init (q_alloc w) (q_name w) with
    | inl e => fail e
    | inr _ =>
        if nz (q_register w) then fail (q_register w)
        else if nz (q_enable w) then fail (q_enable w)
        else
          r ← esp32s31_irq_init (q_irqs w) (q_parents w);
          if nz (fst r) then fail (fst r)
          else if nz (q_chip w) then fail (q_chip w)
          else if negb (q_gpiomem w) then mret (0, true, None)
          else
            let '(ret, pages, _) := esp32s31_gpiomem_init (q_res_iomux w) (q_res_gpio w) (q_misc w) (q_action w) in
            mret (0, true, if ret =? 0 then Some pages else None)
    end.

Lemma name_pins_ok name nums l : name_pins name nums = inr l -> map fst l = nums /\ Forall (fun x => snd x = ("GPIO" ++ dec (fst x))%string) l.
Proof.
  revert l. induction nums as [|i nums IH]; intros l; cbn [name_pins]; [by intros [= <-]|]. destruct (negb _); [done|].
  destruct (name_pins name nums) as [e|l'] eqn:E; [done|]. intros [= <-]. destruct (IH l' eq_refl) as [H1 H2]. split; [cbn; by rewrite H1|by apply List.Forall_cons].
Qed.
#[local] Instance string_eq : EqDecision string := String.string_dec.
(** The 62 pins with their numbers as their place, and 62 different names. *)
Lemma pins_init_correct alloc name l : esp32s31_pins_init alloc name = inr l ->
  map fst l = seqZ 0 ESP32S31_NPINS /\ NoDup (map snd l).
Proof.
  unfold esp32s31_pins_init. destruct (negb alloc); [done|]. intros E. apply name_pins_ok in E as [H1 H2]. split; [done|].
  assert (map snd l = map (fun i => ("GPIO" ++ dec i)%string) (seqZ 0 ESP32S31_NPINS)) as ->.
  { rewrite <- H1, map_map. apply map_ext_in. intros x I. rewrite List.Forall_forall in H2. by apply H2. }
  apply (bool_decide_unpack _). vm_compute. exact I.
Qed.
(** What user space reaches through the device: whatever the resources and whatever it asks for, an mmap is
    of exactly one page, which is where the IO MUX or the GPIO registers start; reads and writes are of the
    CNNT word and of nothing else, and a device that could not be set up whole is not left registered. *)
Theorem gpiomem_safe (iomux gpio : option Z) (register action : Z) :
  let '(ret, pages, evs) := esp32s31_gpiomem_init iomux gpio register action in
  (ret = 0 -> evs = [MiscRegister]) /\
  (ret <> 0 -> register = 0 -> evs = [] \/ evs = [MiscRegister; MiscDeregister]) /\
  (forall pgoff size pfn, 0 <= pgoff -> esp32s31_gpiomem_mmap pages pgoff size = inr pfn ->
     size = PAGE_SIZE /\ (iomux = Some (pfn * PAGE_SIZE) \/ gpio = Some (pfn * PAGE_SIZE))) /\
  (forall pos len (p : pins), (pos <> ESP32S31_GPIOMEM_CNNT \/ len <> 4) ->
     (forall val, esp32s31_gpiomem_write pos len val p = (- EINVAL, p, [])) /\ (forall fault, esp32s31_gpiomem_read pos len fault p = (inl (- EINVAL), p, []))) /\
  (forall pos len val (p : pins), let '(_, p', _) := esp32s31_gpiomem_write pos len val p in PinRegs.gpio p' = PinRegs.gpio p /\ PinRegs.iomux p' = PinRegs.iomux p).
Proof.
  assert (RW : (forall pos len (p : pins), (pos <> ESP32S31_GPIOMEM_CNNT \/ len <> 4) ->
     (forall val, esp32s31_gpiomem_write pos len val p = (- EINVAL, p, [])) /\ (forall fault, esp32s31_gpiomem_read pos len fault p = (inl (- EINVAL), p, []))) /\
    (forall pos len val (p : pins), let '(_, p', _) := esp32s31_gpiomem_write pos len val p in PinRegs.gpio p' = PinRegs.gpio p /\ PinRegs.iomux p' = PinRegs.iomux p)).
  { split.
    - intros pos len p H. assert (negb (pos =? ESP32S31_GPIOMEM_CNNT) || negb (len =? 4) = true) as E.
      { destruct (Z.eqb_spec pos ESP32S31_GPIOMEM_CNNT), (Z.eqb_spec len 4); try done. lia. }
      unfold esp32s31_gpiomem_write, esp32s31_gpiomem_read. by rewrite E.
    - intros pos len val p. unfold esp32s31_gpiomem_write. destruct (_ || _); [done|]. by destruct val. }
  unfold esp32s31_gpiomem_init. cbn [gpiomem_pages].
  assert (Err : forall e : Z, e <> 0 -> (e = 0 -> @nil mem_ev = [MiscRegister]) /\ (e <> 0 -> register = 0 -> @nil mem_ev = [] \/ @nil mem_ev = [MiscRegister; MiscDeregister]) /\
     (forall pgoff size pfn, 0 <= pgoff -> esp32s31_gpiomem_mmap [] pgoff size = inr pfn ->
     size = PAGE_SIZE /\ (iomux = Some (pfn * PAGE_SIZE) \/ gpio = Some (pfn * PAGE_SIZE)))).
  { intros e He. split; [done|]. split; [by left|]. intros pgoff size pfn Hp. unfold esp32s31_gpiomem_mmap. change (zlen (@nil Z)) with 0. by destruct (Z.geb_spec pgoff 0); [|lia]. }
  destruct iomux as [a|]; [|destruct (Err (- EINVAL) ltac:(done)) as (E1 & E2 & E3); split_and!; done || apply RW].
  destruct (Z.eqb_spec (a mod PAGE_SIZE) 0) as [Ha|Ha]; cbn [negb]; [|destruct (Err (- EINVAL) ltac:(done)) as (E1 & E2 & E3); split_and!; done || apply RW].
  destruct gpio as [b|]; [|destruct (Err (- EINVAL) ltac:(done)) as (E1 & E2 & E3); split_and!; done || apply RW].
  destruct (Z.eqb_spec (b mod PAGE_SIZE) 0) as [Hb|Hb]; cbn [negb]; [|destruct (Err (- EINVAL) ltac:(done)) as (E1 & E2 & E3); split_and!; done || apply RW].
  assert (Map : forall pgoff size pfn, 0 <= pgoff -> esp32s31_gpiomem_mmap [a; b] pgoff size = inr pfn ->
     size = PAGE_SIZE /\ (Some a = Some (pfn * PAGE_SIZE) \/ Some b = Some (pfn * PAGE_SIZE))).
  { intros pgoff size pfn Hp. unfold esp32s31_gpiomem_mmap. change (zlen [a; b]) with 2. destruct (Z.geb_spec pgoff 2); [done|]. cbn [orb].
    destruct (Z.eqb_spec size PAGE_SIZE) as [->|]; [|done]. cbn [negb]. intros [= <-]. split; [done|]. unfold PAGE_SIZE in *.
    assert (pgoff = 0 \/ pgoff = 1) as [-> | ->] by lia; [left; change (Z.to_nat 0) with 0%nat|right; change (Z.to_nat 1) with 1%nat]; cbn iota; f_equal; zlia. }
  destruct (Z.eqb_spec register 0) as [->|N]; [cbn [nz Z.eqb negb]|apply Z.eqb_neq in N as N'; unfold nz at 1; rewrite N'; cbn [negb]; split_and!; done || apply RW].
  destruct (Z.eqb_spec action 0) as [->|N]; [split_and!; done || apply RW|apply Z.eqb_neq in N as N'; unfold nz; rewrite N'; cbn [negb]; split_and!; try apply RW; try done; by right].
Qed.
Lemma name_pins_err name nums e : name_pins name nums = inl e -> e <> 0.
Proof.
  revert e. induction nums as [|i nums IH]; intros e; cbn [name_pins]; [done|]. destruct (negb _); [by intros [= <-]|].
  destruct (name_pins name nums) as [e'|l]; [|done]. intros [= <-]. by apply IH.
Qed.
Lemma first_neg_lt l e : first_neg l = Some e -> e < 0.
Proof. induction l as [|i l IH]; cbn [first_neg]; [done|]. destruct (Z.ltb_spec i 0); [by intros [= <-]|apply IH]. Qed.
Lemma irq_init_run count irqs p : exists r b p' evs, esp32s31_irq_init count irqs p = ((r, b), p', evs) /\
  (r = 0 -> 2 <= count -> forall q, pin_ok q -> no_lines p' q).
Proof.
  unfold esp32s31_irq_init. destruct (Z.ltb_spec count ESP32S31_NBANKS) as [L|L]; [do 4 eexists; split; [reflexivity|]; unfold ESP32S31_NBANKS in L; lia|].
  destruct (first_neg (take 2 irqs)) as [e|] eqn:E; [apply first_neg_lt in E; do 4 eexists; split; [reflexivity|]; lia|].
  destruct (init_pins (seqZ 0 ESP32S31_NPINS) p) as [[[] p'] evs] eqn:R. rewrite (M_bind_run _ _ _ _ _ _ R). do 4 eexists. split; [reflexivity|].
  intros _ _ q Hq. destruct (init_pins_ok (seqZ 0 ESP32S31_NPINS) q p Hq) as (p2 & evs2 & E2 & N).
  - apply List.Forall_forall. intros i Hi. apply list_elem_of_In, elem_of_seqZ in Hi. unfold pin_ok, NPINS, ESP32S31_NPINS in *. lia.
  - left. apply list_elem_of_In, elem_of_seqZ. unfold pin_ok, NPINS, ESP32S31_NPINS in *. lia.
  - rewrite R in E2. by injection E2 as -> ->.
Qed.
(** An error that ends the probe. *)
Ltac fails E := let E' := fresh in pose proof E as E'; apply Z.eqb_neq in E'; unfold nz; rewrite ?E'; cbn [negb]; split; [by split|]; split; done.
(** The probe: the chip is added just when the result is 0, and then with an interrupt of its own no pin has
    an interrupt enabled on the lines of the driver; gpiomem never makes the probe fail. *)
Theorem pinctrl_probe_correct (w : pin_world) (p : pins) :
  let '((ret, added, mem), p', evs) := esp32s31_pinctrl_probe w p in
  (ret = 0 <-> added = true) /\
  (forall pages, mem = Some pages -> added = true /\ q_gpiomem w = true) /\
  (added = true -> 2 <= q_irqs w -> forall q, pin_ok q -> no_lines p' q).
Proof.
  unfold esp32s31_pinctrl_probe, esp32s31_pins_init.
  destruct (q_zalloc w); cbn [negb]; [|split; [done|split; done]].
  destruct (Z.eqb_spec (q_iomux w) 0) as [E|E]; [rewrite E; cbn [nz Z.eqb negb]|by fails E].
  destruct (Z.eqb_spec (q_gpio w) 0) as [E1|E1]; [rewrite E1; cbn [nz Z.eqb negb]|by fails E1].
  destruct (Z.eqb_spec (q_cnnt w) 0) as [E2|E2]; [rewrite E2; cbn [nz Z.eqb negb]|by fails E2].
  destruct (if negb (q_alloc w) then _ else _) as [e|l] eqn:P.
  { assert (e <> 0) as Ne by (destruct (negb (q_alloc w)); [by injection P as <-|by apply name_pins_err in P]). split; [by split|split; done]. }
  destruct (Z.eqb_spec (q_register w) 0) as [E3|E3]; [rewrite E3; cbn [nz Z.eqb negb]|by fails E3].
  destruct (Z.eqb_spec (q_enable w) 0) as [E4|E4]; [rewrite E4; cbn [nz Z.eqb negb]|by fails E4].
  assert (I : exists r b p' evs, esp32s31_irq_init (q_irqs w) (q_parents w) p = ((r, b), p', evs) /\ (r = 0 -> 2 <= q_irqs w -> forall q, pin_ok q -> no_lines p' q))
    by apply irq_init_run.
  destruct I as (r & b & p' & evs & R & Q). rewrite (M_bind_run _ _ _ _ _ _ R). cbn [fst].
  destruct (Z.eqb_spec r 0) as [->|E5]; [cbn [nz Z.eqb negb]|by fails E5].
  destruct (Z.eqb_spec (q_chip w) 0) as [E6|E6]; [rewrite E6; cbn [nz Z.eqb negb]|by fails E6].
  destruct (q_gpiomem w) eqn:G; cbn [negb]; [|split; [done|]; split; [done|]; intros _; by apply Q].
  destruct (esp32s31_gpiomem_init _ _ _ _) as [[ret pages] mevs]. split; [done|]. split; [done|]. intros _. by apply Q.
Qed.

(** * The I2C controller *)

(** [b_base], [b_apb], [b_core], [b_rst] are 0 or the error of the pointer; [b_rate] is the rate of the
    clock after it was asked for one. *)
Record i2c_world := I2cWorld {
  b_zalloc : bool; b_base : Z; b_irq : Z; b_apb : Z; b_core : Z; b_rst : Z; b_freq : Z; b_set : Z -> Z; b_rate : Z -> Z;
  b_reset : Z; b_idle : Z; b_request : Z; b_add : Z }.
Definition I2C_MAX_FAST_MODE_PLUS_FREQ : Z := 1000000.
Definition esp32s31_i2c_probe (w : i2c_world) : Z * writes :=
  if negb (b_zalloc w) then (- ENOMEM, [])
  else if nz (b_base w) then (b_base w, [])
  else if b_irq w <? 0 then (b_irq w, [])
  else if nz (b_apb w) then (b_apb w, [])
  else if nz (b_core w) then (b_core w, [])
  else if nz (b_rst w) then (b_rst w, [])
  else if (b_freq w =? 0) || (b_freq w >? I2C_MAX_FAST_MODE_PLUS_FREQ) then (- EINVAL, [])
  else
    let asked := u32 (b_freq w * 1023) in
    if nz (b_set w asked) then (b_set w asked, [])
    else
      let rate := b_rate w asked in
      if (rate <? u32 (b_freq w * 8)) || (rate >? u32 (b_freq w * 1023)) then (- EINVAL, [])
      else
        let '(ret, acts) := init rate (b_freq w) (b_reset w) (b_idle w) false in
        if nz ret then (ret, acts)
        else if nz (b_request w) then (b_request w, acts)
        else (b_add w, acts).
(** The probe writes to the controller only with a clock for which the timing fits its fields
    ([I2c.i2c_timing]) and after its reset; then it writes the whole setup, before the interrupt is requested. *)
Lemma i2c_probe_correct (w : i2c_world) : 0 <= b_freq w < 4294967296 ->
  let '(ret, acts) := esp32s31_i2c_probe w in
  (acts <> [] -> b_reset w = 0 /\
     exists rate, probe_rate_ok (b_freq w) rate = true /\ acts = snd (init rate (b_freq w) 0 (b_idle w) false)) /\
  (ret = 0 -> acts <> []).
Proof.
  intros Hf. unfold esp32s31_i2c_probe. destruct (negb (b_zalloc w)); [done|].
  destruct (Z.eqb_spec (b_base w) 0) as [->|E]; [cbn [nz Z.eqb negb]|apply Z.eqb_neq in E as E'; unfold nz at 1; rewrite E'; done].
  destruct (Z.ltb_spec (b_irq w) 0); [split; [done|lia]|].
  destruct (Z.eqb_spec (b_apb w) 0) as [->|E]; [cbn [nz Z.eqb negb]|apply Z.eqb_neq in E as E'; unfold nz at 1; rewrite E'; done].
  destruct (Z.eqb_spec (b_core w) 0) as [->|E]; [cbn [nz Z.eqb negb]|apply Z.eqb_neq in E as E'; unfold nz at 1; rewrite E'; done].
  destruct (Z.eqb_spec (b_rst w) 0) as [->|E]; [cbn [nz Z.eqb negb]|apply Z.eqb_neq in E as E'; unfold nz at 1; rewrite E'; done].
  unfold I2C_MAX_FAST_MODE_PLUS_FREQ. destruct (Z.eqb_spec (b_freq w) 0) as [|F0]; [done|]. cbn [orb].
  destruct (Z.gtb_spec (b_freq w) 1000000) as [|F1]; [done|]. cbn zeta. rewrite (u32_small (b_freq w * 1023)), (u32_small (b_freq w * 8)) by lia.
  set (asked := b_freq w * 1023). destruct (Z.eqb_spec (b_set w asked) 0) as [->|E]; [cbn [nz Z.eqb negb]|apply Z.eqb_neq in E as E'; unfold nz at 1; rewrite E'; done].
  set (rate := b_rate w asked). destruct ((rate <? b_freq w * 8) || (rate >? asked)) eqn:R; [done|].
  assert (probe_rate_ok (b_freq w) rate = true) as P.
  { unfold probe_rate_ok. fold asked. rewrite R. cbn [negb]. rewrite andb_true_r. apply andb_true_iff. split; lia. }
  unfold init at 1. destruct (Z.eqb_spec (b_reset w) 0) as [E|E]; [rewrite E; cbn [nz Z.eqb negb]|].
  2: { apply Z.eqb_neq in E as E'. unfold nz. rewrite E'. cbn [negb]. rewrite E'. done. }
  match goal with |- context [if nz (b_request w) then (_, ?a) else _] => set (acts := a) end.
  assert (acts <> []) as Na by done.
  destruct (nz (b_request w)); (split; [|done]); intros _; (split; [done|]); exists rate; split; done.
Qed.

(** * The RGB LED *)

(** The parts of the probe around [probe_rmt]: [d_errs] are 0 or the errors of the two mappings, the two clocks and
    the reset, in that order; [d_rate] is the rate of the clock, [d_child] whether there is a node of an LED. *)
Inductive node_ev := NodeGet | NodePut.
Record led_world := LedWorld { d_zalloc : bool; d_errs : list Z; d_rate : Z; d_child : bool; d_register : Z }.
(** The first error of the pointers, in the order of the code. *)
Definition first_fault (l : list Z) : Z := match List.find nz l with Some e => e | None => 0 end.
Definition esp32s31_ws2812_probe (n : nat) (t : clock) (mem_lp : Z) (w : led_world) : io (Z * list node_ev) :=
  if negb (d_zalloc w) then mret (- ENOMEM, [])
  else if nz (first_fault (d_errs w)) then mret (first_fault (d_errs w), [])
  else
    r ← probe_rmt n t mem_lp (d_rate w);
    if nz r then mret (r, [])
    else if negb (d_child w) then mret (- EINVAL, [])
    else mret (d_register w, [NodeGet; NodePut]).
(** The node that it takes is given back in every case, and before the RMT is set up nothing is written. *)
Lemma ws2812_probe_correct n t mem_lp w ins r evs acts rest : esp32s31_ws2812_probe n t mem_lp w ins = Some ((r, evs), acts, rest) ->
  (evs = [] \/ evs = [NodeGet; NodePut]) /\
  (r = 0 -> first_fault (d_errs w) = 0 /\ d_child w = true /\ exists ins', probe_rmt n t mem_lp (d_rate w) ins = Some (0, acts, ins')) /\
  (first_fault (d_errs w) <> 0 -> acts = []).
Proof.
  unfold esp32s31_ws2812_probe. destruct (negb (d_zalloc w)); [by intros [= <- <- <- <-]; split; [left|]|].
  destruct (Z.eqb_spec (first_fault (d_errs w)) 0) as [E|E]; [rewrite E; cbn [nz Z.eqb negb]|apply Z.eqb_neq in E as E'; unfold nz at 1; rewrite E'; cbn [negb]; intros [= <- <- <- <-]; by split; [left|]].
  unfold mbind, io_bind. destruct (probe_rmt n t mem_lp (d_rate w) ins) as [[[r1 a1] i1]|]; [|done].
  destruct (Z.eqb_spec r1 0) as [->|N]; [cbn [nz Z.eqb negb]|apply Z.eqb_neq in N as N'; unfold nz; rewrite N'; cbn [negb]; intros [= <- <- <- <-]; split; [by left|]; split; [done|done]].
  destruct (d_child w); cbn [negb]; intros [= <- <- <- <-].
  - split; [by right|]. split; [|done]. intros _. split; [done|]. split; [done|]. rewrite app_nil_r. by eexists.
  - split; [by left|]. by split.
Qed.

(** * The transport and its adapter *)

(** [s_adapter] and the [if_ops] of the adapter, as whether they are set, and its chipset. *)
Record binding := Binding { s_adapter : bool; if_ops : bool; chipset : Z }.
(** [adapter] is whether there is one, [register] what platform_driver_register() gives. *)
Definition esp_init_interface_layer (adapter : bool) (register : Z) (b : binding) : Z * binding :=
  if negb adapter then (- EINVAL, b)
  else if nz register then (register, Binding false false (chipset b))
  else (0, Binding true true (chipset b)).
Definition esp_deinit_interface_layer (b : binding) : binding := Binding false (if_ops b) (chipset b).
(** The IDs of the ESP32-S31 and of an unknown chip are those of esp_hosted. *)
Definition esp_validate_chipset (s31 unknown : Z) (adapter : bool) (id : Z) (b : binding) : Z * binding :=
  if negb adapter then (- EINVAL, b)
  else if negb (id =? s31) then (- ENODEV, Binding (s_adapter b) (if_ops b) unknown)
  else (0, Binding (s_adapter b) (if_ops b) id).
Definition esp_adjust_spi_clock (spi_clk_mhz : Z) : Z := 0.
(** The driver binds a device only between a good init and the deinit: outside of them its probe fails. *)
Lemma interface_layer_correct (adapter : bool) register b m irq irq_ret : b = Binding false false (chipset b) ->
  let '(ret, b1) := esp_init_interface_layer adapter register b in
  (s_adapter b1 = true <-> ret = 0) /\ if_ops b1 = s_adapter b1 /\
  (ret <> 0 -> fst (esp_shm_probe (s_adapter b1) false m irq irq_ret) = - ENODEV) /\
  fst (esp_shm_probe (s_adapter (esp_deinit_interface_layer b1)) false m irq irq_ret) = - ENODEV.
Proof.
  intros ->. unfold esp_init_interface_layer. destruct adapter; cbn [negb]; [|done].
  destruct (Z.eqb_spec register 0) as [->|N]; [cbn [nz Z.eqb negb]; by split_and!|apply Z.eqb_neq in N as N'; unfold nz; rewrite N'; cbn [negb]; by split_and!].
Qed.

(** * The MTD device of the flash window *)

(** What [esp_shm_flash_probe] takes and gives back: the node of the child, the object, the window, the device. *)
Inductive mtd_res := ChildNode | FlashObject | FlashWindow | MtdDevice.
Inductive mtd_ev := Take (r : mtd_res) | Drop (r : mtd_res).
#[export] Instance mtd_res_eq_dec : EqDecision mtd_res.
Proof. solve_decision. Defined.
(** of_get_child_by_name() comes before the test of the size; of_node_put() of no node does nothing. *)
Definition flash_probe_run (m : mem) (child alloc memremap : bool) (register_ret : Z) : option Flash.mtd_info * list mtd_ev :=
  let size := load32 m (ESP_SHM_FLASH + ESP_SHM_FLASH_SIZE_OFF) in
  let map := load32 m (ESP_SHM_FLASH + ESP_SHM_FLASH_MAP_OFF) in
  let get := if child then [Take ChildNode] else [] in
  let none := if child then [Drop ChildNode] else [] in
  if (size =? 0) || negb child then (None, get ++ none)
  else if negb alloc then (None, get ++ none)
  else if negb memremap then (None, get ++ Take FlashObject :: Drop FlashObject :: none)
  else if nz register_ret then
    (None, get ++ Take FlashObject :: Take FlashWindow :: Drop FlashWindow :: Drop FlashObject :: none)
  else (Some (Flash.Mtd map size ESP_SHM_FLASH_BLOCK 1 ESP_SHM_FLASH_DATA_SIZE),
        get ++ [Take FlashObject; Take FlashWindow; Take MtdDevice]).
Definition esp_shm_flash_remove (flash : option Flash.mtd_info) : list mtd_ev :=
  match flash with
  | None => []
  | Some _ => [Drop MtdDevice; Drop ChildNode; Drop FlashWindow; Drop FlashObject]
  end.
(** How often a resource is held; None when one is given back that is not held. *)
Fixpoint times_held (r : mtd_res) (n : nat) (evs : list mtd_ev) : option nat :=
  match evs with
  | [] => Some n
  | Take x :: evs => times_held r (if decide (x = r) then S n else n) evs
  | Drop x :: evs => if decide (x = r) then match n with O => None | S n => times_held r n evs end else times_held r n evs
  end.
(** The probe gives the device of [Flash.esp_shm_flash_probe]; a failed probe holds nothing, a good one holds each
    resource once, and the remove gives each back. *)
Lemma flash_resources_correct m child alloc memremap register_ret r :
  let '(flash, evs) := flash_probe_run m child alloc memremap register_ret in
  flash = Flash.esp_shm_flash_probe m child alloc memremap register_ret /\
  times_held r 0 evs = Some (match flash with Some _ => 1%nat | None => 0%nat end) /\
  times_held r 0 (evs ++ esp_shm_flash_remove flash) = Some 0%nat.
Proof.
  unfold flash_probe_run, Flash.esp_shm_flash_probe.
  destruct (_ =? 0), child; cbn [orb negb]; try (destruct r; by vm_compute).
  destruct alloc, memremap; cbn [negb]; try (destruct r; by vm_compute).
  destruct (nz register_ret); by destruct r.
Qed.

(** * The eFuses, the USB PHY and the Ethernet MAC *)

(** Whether the fixup gives the cell of a name [esp32s31_efuse_mac_pp]. *)
Definition esp32s31_efuse_fixup_cell_info (name : option string) : bool :=
  match name with Some n => String.eqb n "mac-address" | None => false end.
(** [register] is what devm_nvmem_register() gives for the size of the registers. *)
Definition esp32s31_efuse_probe (zalloc : bool) (base size : Z) (register : Z -> Z) : Z :=
  if negb zalloc then - ENOMEM else if nz base then base else register size.
(** [maps] are 0 or the errors of the five mappings, in their order. *)
Definition esp32s31_usb_phy_probe (zalloc : bool) (maps : list Z) (create provider : Z) : Z :=
  if negb zalloc then - ENOMEM
  else if nz (first_fault maps) then first_fault maps
  else if nz create then create
  else provider.
(** The result, and whether the MAC was given to stmmac with [Glue.esp32s31_dwmac_init] as its init; [stmmac] is what it gives. *)
Definition esp32s31_dwmac_probe (resources config : Z) (rgmii : bool) (regmap clk stmmac : Z) : Z * bool :=
  if nz resources then (resources, false)
  else if nz config then (config, false)
  else if negb rgmii then (- EINVAL, false)
  else if nz regmap then (regmap, false)
  else if nz clk then (clk, false)
  else (stmmac, true).
Lemma first_fault_spec l : first_fault l = 0 <-> Forall (fun e => e = 0) l.
Proof.
  unfold first_fault. induction l as [|e l IH]; cbn; [by split|]. unfold nz at 1.
  destruct (Z.eqb_spec e 0) as [->|N]; cbn [negb]; [|split; [done|by inversion 1]].
  rewrite IH. split; [by constructor|by inversion 1].
Qed.
(** A probe is good just when each of its steps is. *)
Lemma small_probes_correct zalloc base size register maps create provider resources config rgmii regmap clk stmmac :
  (esp32s31_efuse_probe zalloc base size register = 0 <-> zalloc = true /\ base = 0 /\ register size = 0) /\
  (esp32s31_usb_phy_probe zalloc maps create provider = 0 <->
     zalloc = true /\ Forall (fun e => e = 0) maps /\ create = 0 /\ provider = 0) /\
  (forall ret given, esp32s31_dwmac_probe resources config rgmii regmap clk stmmac = (ret, given) ->
     (ret = 0 <-> given = true /\ stmmac = 0) /\
     (given = true <-> resources = 0 /\ config = 0 /\ rgmii = true /\ regmap = 0 /\ clk = 0)).
Proof.
  unfold esp32s31_efuse_probe, esp32s31_usb_phy_probe, esp32s31_dwmac_probe. rewrite <- first_fault_spec. unfold nz.
  split_and!; [destruct zalloc| destruct zalloc|destruct rgmii; intros ret given]; cbn [negb];
    repeat match goal with |- context [if negb (?x =? 0) then _ else _] => destruct (Z.eqb_spec x 0); cbn [negb] end;
    try (intros [= <- <-]); unfold ENOMEM, EINVAL; intuition (congruence || lia).
Qed.
